(* ===== verification/_CoqProject ===== *)
-Q . S2P
Prelude.v
Tlv.v
Encoder.v
Block.v
BlockSpec.v
Names.v
NameWire.v
Exclude.v
ExcludeSpec.v
WireFormat.v
WireFormatSpec.v
PacketWireSpec.v
LpPacket.v
LpPacketSpec.v
LpFragmenter.v
LpFragmenterSpec.v
Simulator.v
LpReassembler.v
PacketHeader.v
FlowTable.v
SwitchPipeline.v
SwitchSpec.v
PortTable.v
NameMap.v
Packets.v
LinkService.v
NetDeviceTransport.v
LinkServiceSpec.v
LpReassemblerSpec.v
PendingInterestTable.v
TemporaryForwardingTable.v
ContentStore.v
ControlMessage.v
LocalRouteController.v
LocalRouteControllerSpec.v
SimTime.v
FlowTableController.v
FlowTableControllerSpec.v
StatefulForwarder.v
ControllerFrames.v
ForwardingEngine.v
ForwardingEngineSpec.v
NodeSpec.v
ForwardingSpec.v
TraceSteering.v
EndToEnd.v
StatimHelper.v
Application.v
Producer.v
MobileProducer.v
ProducerSpec.v
MobileProducerSpec.v
RttEstimator.v
Consumer.v
ConsumerSpec.v
PointToPoint.v
WiredHandover.v
WiredHandoverSpec.v
GridScenario.v
GridScenarioSpec.v
