(* ===== verification/Prelude.v ===== *)
(** * Statim: a verification development

    Statim is an ns-3/ndnSIM simulation of NDN with producer mobility.  Every
    node has a match-action switch, a stateful module behind it and two
    controllers.  A mobile producer announces itself with Trace Interests; the
    Trace Data that comes back along the pending-Interest entries installs leased
    temporary routes, and asks a flow-table controller to install the same route
    in the switch.  All sources named below are under [src/src/].

    ** The parts and how they interact

    A consumer, a rendezvous server or a mobile producer runs on a node with a
    plain NFD: what it sends goes through the link service and the device
    transport of a face, which puts the 12-byte Statim header in front of the NDN
    packet.  In a Statim node [ForwardingEngine::onReceiveRawPacket] takes such a
    frame from a device, reads the header and runs the switch.  What
    the switch sends to the stateful module is decoded and goes to the Interest
    or the Data handler; these use the pending-Interest table, the content store
    and, after a configurable delay, the temporary routes, and run the switch
    again to find the output ports.  A Trace Data goes to the local route
    controller, which leases the route, calls back to resend remembered Interests
    and asks the flow-table controller for the permanent one; that controller
    loses, delays and repeats messages, installs the route and sends a completion
    notice back.  A handover fails one access link of the mobile node, puts another
    up, moves the default route and makes the producer announce itself again.
    Everything that takes time is an event of the ns-3 simulator.

    ** The files

    - [Prelude]: machine integers, error and state monads, lenses, the predicates
      [preserves] and [respects] the components' lemmas are stated with, lemmas on
      lists, sorting and maps, tactics and the hint databases [machine_int],
      [preserves], [respects] and [run].
    - [Tlv], [Encoder], [Block], [NameWire], [Exclude], [WireFormat]: the wire formats of
      ndn-cxx ([ndnSIM/ndn-cxx/src/encoding/], [name.cpp], [name-component.cpp],
      [exclude.cpp], [key-locator.cpp], [selectors.cpp], [meta-info.cpp],
      [signature-info.cpp], [data.cpp], [interest.cpp], [link.cpp]).  The two targets
      of the C++ encoding templates, encoder and estimator, are instances of the class
      [EncodingImpl].  [BlockSpec], [ExcludeSpec], [WireFormatSpec] and
      [PacketWireSpec] are their specifications.
    - [Names], [Packets]: names ([name.cpp], [statim/packet-utils.hpp]), and Interest
      and Data as the forwarder uses them.  A
      decoded Interest keeps its nonce inside its wire buffer, which copies of the
      object share: buffers are a store, and [setNonce] writes to it.
    - [LpPacket], [LpFragmenter], [LpReassembler], [LinkService], [NetDeviceTransport]:
      a face ([ndn-cxx/src/lp/], [NFD/daemon/face/], [NFD/core/scheduler.cpp],
      [ndnSIM/model/ndn-net-device-transport.cpp], [ndn-block-header.cpp]), with
      [LpPacketSpec], [LpFragmenterSpec], [LpReassemblerSpec] and [LinkServiceSpec].
    - [Simulator], [SimTime]: ns-3's event list and loop
      ([core/model/default-simulator-impl.cc], [map-scheduler.cc]) and the
      conversion of times through doubles and 128-bit fixed-point numbers
      ([nstime.h], [int64x64-128.cc]).  The classes [Scheduler], [SchedulerLaws]
      and [SchedulerFrame] are what clients see.
    - [PacketHeader], [FlowTable], [SwitchPipeline]: [statim/packet-header.cpp] and
      [statim/pipeline/].  [SwitchSpec] is their specification: the switch
      implements a finite map from name-hash keys to a port and an expiry.
    - [NameMap], [PendingInterestTable], [TemporaryForwardingTable],
      [ContentStore], [PortTable]: [statim/state/], [statim/stateful/content-store.hpp]
      and [statim/port-table.hpp], each with its specification.
    - [ControlMessage], [LocalRouteController], [FlowTableController]:
      [statim/control/].  [LocalRouteControllerSpec] and [FlowTableControllerSpec]
      hold their abstract machines and invariants, [ControllerFrames] what their
      methods leave alone.
    - [StatefulForwarder], [ForwardingEngine]: [statim/stateful/stateful-forwarder.cpp]
      and [statim/forwarding-engine.cpp].  A [Node] is the engine with the
      simulator, the random sources, the wire buffers and the frames its devices
      were given.  [ForwardingEngineSpec] shows that the components of a node do
      not overlap and that its invariant is kept, [NodeSpec] is the step relation
      of a node and its reachable states, [ForwardingSpec] what is forwarded where,
      [TraceSteering] where Interests go after a Trace Data, [EndToEnd] a packet from
      face to face through a node.
    - [Application], [Producer], [MobileProducer], [RttEstimator], [Consumer]: [ndnSIM/apps/],
      [ndnSIM/model/ndn-app-link-service.cpp], [statim/apps/] and the estimator in
      [ndnSIM/utils/].  An application runs in a world of its own, the simulator
      and the packets it handed to its face; what the forwarder sends back is an
      event.  [ProducerSpec], [MobileProducerSpec] and [ConsumerSpec] are about them.
    - [PointToPoint], [WiredHandover], [GridScenario]: the links of the mobile node
      ([point-to-point/], [network/utils/error-model.cc]), the periodic handover of
      [statim/scenarios/common/wired-handover.hpp] and the handover of
      [statim/scenarios/statim-grid.cpp], with [WiredHandoverSpec] and [GridScenarioSpec].
    - [StatimHelper]: [statim/helper/statim-helper.cpp], what installing Statim and
      computing static routes does to a node's engine.

    A C++ object is a record with the names of its members, a method a function on
    it or, where it can throw or touches more than its object, a computation in the
    monad [M W] of the world [W] it runs in: state passing in which an exception
    keeps the changes made before it.  A component reaches its part of the world
    through a [Lens]; callbacks ([std::function]) are computations of the world.
    Behaviour the C++ standard leaves undefined is the error [Undefined].

    ** What the theorems show

    - The switch: [processPacket_refines], [fib_updates_refine],
      [initPipeline_refines] relate it to the abstract route map;
      [interest_longest_prefix] and [multicast_exact] say what that means for a
      packet; the order [std::sort] gives equal priorities never matters.
    - The tables: what each operation does on every branch, and that lazy pruning
      is unobservable; the cache bound holds for every random choice.
    - The controllers: branch-by-branch behaviour, refinement of the abstract
      machine, consistency of reachable states ([lrc_consistent]), what the lease and retry
      timers do ([timers_spec]), and that the generation guard
      rejects replays and never lets a generation fall whatever is lost, delayed,
      reordered or repeated; retries are bounded ([retries_bounded]).  The guard
      [m_generationGuardEnabled] is off unless the helper is told otherwise:
      theorems that need it on say so.
    - The node: [node_consistent] is the invariant of all its reachable states, with
      the guard on or off;
      [interest_forwarded], [data_forwarded], [stateful_interest_spec],
      [pulls_bounded], [reception_total] and [trace_data_escapes] say what each
      handler sends, stores, counts and throws; [frames_relayed] which octets of a
      packet it passes on: all of a Data's, and those of an Interest but for the four
      of its nonce, which another reception of the Interest may renew in the shared
      buffer while it waits.
    - Mobility: [trace_steers] is what the nodes are for.  A Trace Data gives the
      prefix of its producer one temporary hop, which no event gives that generation
      anew, and Interests under the prefix follow it.
    - The faces: [statim_frames_out] and [statim_frames_in] are what is put on a link for a
      packet with or without a cached wire, and
      what a header and the octets after it, link packet or not, become; [lp_packet_map], [lp_roundtrip],
      [fragmentPacket_spec] and [reassembly_any_order] are about link packets.
    - End to end: [data_end_to_end] and [interest_end_to_end] put faces and node
      together: what one face sends through a Statim node the next faces receive, an Interest
      perhaps with its nonce renewed.
    - The applications: [replies_received], [traces_generations] (the generations a
      producer announces are the ones forwarders read), [unanswered_trace_stops],
      [refresh_preempts_timeout], [no_request_forgotten] and [measurements_discarded].
    - The handover: [handover_consistent] (exactly the link to the active access node
      carries packets, in every reachable state), [step_follows_mobile] (which node
      that is) and [handover_moves_mobile] (what one handover of the scenarios does).
    - The configuration: [static_routes_refine] and [install_lifetimes].
    - The data formats: [interest_roundtrip], [data_roundtrip], [filter_roundtrip] and
      the round trips of headers, names and sequence numbers; [decoding_safe], that
      reading any octets gives a packet or a TLV error; [made_blocks_ok], which constructors make
      well-formed blocks only and which do not; [filter_semantics], what the operations of a filter exclude;
      [name_compare_canonical], that names compare in canonical order when the wires their
      components keep are in shortest form, and not otherwise.

    ** Bounds and fuel

    Machine integers keep their width ([u8] to [u64], [i32], [i64] below), and
    times are [int64_t] nanoseconds.  Loops that are not structural have fuel, and
    [OutOfFuel] is the error of running out of it:
    - [parse_loop] has the length of the buffer ([parse_loop_spec]), [ranges_from] and
      [decode_entries] the number of entries and elements ([ranges_fuel],
      [decode_entries_tlv_only]), [fill_frags] the number of fragments
      ([fragmentPacket_spec]); each step takes at least one, so none runs out;
    - [lower_bound_loop], the binary search, has the length of the range, which
      shrinks in every step ([lower_bound_loop_spec]);
    - [Udiv] (128-bit division) raises a shift of at most 64 by at least one in every step,
      so 64 steps are enough;
    - [refreshNonce] draws random words until one differs from the old nonce:
      [refreshNonce_fresh] shows that the fuel is enough as soon as it exceeds the
      number of equal words drawn;
    - the event loop [Run_loop] runs as many events as its
      fuel says: a theorem about it gives the fuel that empties the queue, or holds for
      every fuel;
    - the loop of [CheckRetxTimeout]
      has the size of its container, which shrinks in every round ([expire_complete]).
    Runs of the applications
    are followed as long as the simulator's 32-bit event numbers do not wrap.

    ** Not modelled

    Of the packet formats: the implicit digest in full names, validity periods, editing
    of Link objects and the matching of Data against selectors.  Round trips are
    about type and length numbers in their shortest form, which is
    what the encoder writes; [decoding_safe] is about all octets.
    Of a face: URIs, persistency and expiration; the sum of payload sizes in
    [doReassembly], an [int], is not bounded.  [std::rand], the
    random streams of ns-3 and [random::generateWord32] are state machines given as
    parameters; [std::sort] is any sorting function, and the boost container of a
    consumer's timeouts and the mobility models are interfaces.  Logging, the
    object system and attributes of ns-3, data rates, queues and delays of devices and
    channels, the topologies and command lines of the scenarios, the forwarder, tables and
    management of NFD but for the default route of the mobile node, and the vendored parts of
    ns-3 and ndn-cxx that Statim does not run are left out, as are the KITE
    applications it is compared with and their rendezvous server.
    One node runs in one simulator context; several contexts and multithreaded
    scheduling are not modelled. *)
From stdpp Require Export base tactics option list gmap sorting numbers strings.
From Stdlib Require Export ZArith Lia.
From Stdlib Require Export Strings.Byte.

#[global] Open Scope Z_scope.

(** ** Machine integers

    A C++ unsigned integer of width w is a [Z] in [[0, 2^w)]; every place where
    the source can leave the range writes the conversion out.  Conversions to a
    signed type wrap in two's complement, which is what GCC does for the
    conversions the sources use. *)
Definition u8 (z : Z) : Z := z mod 256.
Definition u16 (z : Z) : Z := z mod 65536.
Definition u32 (z : Z) : Z := z mod 4294967296.
Definition u64 (z : Z) : Z := z mod 18446744073709551616.
Definition i32 (z : Z) : Z := (z + 2147483648) mod 4294967296 - 2147483648.
Definition i64 (z : Z) : Z :=
  (z + 9223372036854775808) mod 18446744073709551616 - 9223372036854775808.

Definition u8_range (z : Z) : Prop := 0 <= z < 256.
Definition u16_range (z : Z) : Prop := 0 <= z < 65536.
Definition u32_range (z : Z) : Prop := 0 <= z < 4294967296.
Definition u64_range (z : Z) : Prop := 0 <= z < 18446744073709551616.
Definition i64_range (z : Z) : Prop :=
  -9223372036854775808 <= z < 9223372036854775808.

(** [TimePoint::max()] and the largest [ns3::Time]. *)
Definition INT64_MAX : Z := 9223372036854775807.

#[global] Arguments u8 : simpl never.
#[global] Arguments u16 : simpl never.
#[global] Arguments u32 : simpl never.
#[global] Arguments u64 : simpl never.
#[global] Arguments i32 : simpl never.
#[global] Arguments i64 : simpl never.

Lemma u8_bounds z : u8_range (u8 z).
Proof. unfold u8_range, u8. apply Z.mod_pos_bound. lia. Qed.
Lemma u16_bounds z : u16_range (u16 z).
Proof. unfold u16_range, u16. apply Z.mod_pos_bound. lia. Qed.
Lemma u32_bounds z : u32_range (u32 z).
Proof. unfold u32_range, u32. apply Z.mod_pos_bound. lia. Qed.
Lemma u64_bounds z : u64_range (u64 z).
Proof. unfold u64_range, u64. apply Z.mod_pos_bound. lia. Qed.
Lemma i64_bounds z : i64_range (i64 z).
Proof.
  unfold i64_range, i64.
  pose proof (Z.mod_pos_bound (z + 9223372036854775808) 18446744073709551616). lia.
Qed.

Lemma u8_id z : u8_range z -> u8 z = z.
Proof. intros H. apply Z.mod_small, H. Qed.
Lemma u16_id z : u16_range z -> u16 z = z.
Proof. intros H. apply Z.mod_small, H. Qed.
Lemma u32_id z : u32_range z -> u32 z = z.
Proof. intros H. apply Z.mod_small, H. Qed.
Lemma u64_id z : u64_range z -> u64 z = z.
Proof. intros H. apply Z.mod_small, H. Qed.
Lemma i64_id z : i64_range z -> i64 z = z.
Proof. unfold i64_range, i64. intros H. rewrite Z.mod_small; lia. Qed.
Lemma i32_id z : -2147483648 <= z < 2147483648 -> i32 z = z.
Proof. unfold i32. intros H. rewrite Z.mod_small; lia. Qed.

Create HintDb machine_int.
#[export] Hint Resolve u8_bounds u16_bounds u32_bounds u64_bounds i64_bounds : machine_int.

(** ** Bytes *)
Definition byte_to_Z (b : byte) : Z := Z.of_N (Byte.to_N b).
Definition byte_of_Z (z : Z) : byte :=
  default Byte.x00 (Byte.of_N (Z.to_N (u8 z))).

Lemma byte_to_Z_range b : u8_range (byte_to_Z b).
Proof.
  unfold byte_to_Z, u8_range. pose proof (Byte.to_N_bounded b). lia.
Qed.

Lemma byte_of_to_Z b : byte_of_Z (byte_to_Z b) = b.
Proof.
  unfold byte_of_Z. rewrite u8_id by apply byte_to_Z_range.
  unfold byte_to_Z. rewrite N2Z.id, Byte.of_to_N. done.
Qed.

Lemma byte_to_of_Z z : byte_to_Z (byte_of_Z z) = u8 z.
Proof.
  unfold byte_of_Z, byte_to_Z. pose proof (u8_bounds z) as Hb. unfold u8_range in Hb.
  destruct (Byte.of_N (Z.to_N (u8 z))) as [b|] eqn:E; simpl.
  - apply Byte.to_of_N in E. rewrite E. lia.
  - apply Byte.of_N_None_iff in E. lia.
Qed.

Lemma byte_to_of_Z_id z : u8_range z -> byte_to_Z (byte_of_Z z) = z.
Proof. intros H. rewrite byte_to_of_Z. by apply u8_id. Qed.

#[export] Instance byte_to_Z_inj : Inj (=) (=) byte_to_Z.
Proof. intros a b H. rewrite <-(byte_of_to_Z a), <-(byte_of_to_Z b). by rewrite H. Qed.

#[export] Instance byte_eq_dec : EqDecision byte.
Proof. intros a b. destruct (Byte.byte_eq_dec a b); [by left|by right]. Defined.

#[export] Instance byte_countable : Countable byte :=
  inj_countable Byte.to_N Byte.of_N Byte.of_to_N.

#[export] Hint Resolve byte_to_Z_range : machine_int.

(** Big-endian numbers of a fixed byte width, as [htobe16/32/64] lay them out. *)
Fixpoint be_encode (width : nat) (z : Z) : list byte :=
  match width with
  | O => []
  | S w => byte_of_Z (Z.shiftr z (8 * Z.of_nat w)) :: be_encode w z
  end.

Definition be_decode (bs : list byte) : Z :=
  foldl (fun acc b => Z.lor (Z.shiftl acc 8) (byte_to_Z b)) 0 bs.

#[global] Arguments be_decode : simpl never.

Lemma length_be_encode w z : length (be_encode w z) = w.
Proof. induction w; simpl; congruence. Qed.

Lemma shiftl_lor_add a b : 0 <= b < 256 -> Z.lor (Z.shiftl a 8) b = a * 256 + b.
Proof.
  intros Hb. rewrite Z.shiftl_mul_pow2 by lia. change (2 ^ 8) with 256.
  symmetry. rewrite <-Z.lxor_lor; [apply Z.add_nocarry_lxor|];
    apply Z.bits_inj'; intros n Hn; rewrite Z.land_spec, Z.bits_0;
    replace (a * 256) with (Z.shiftl a 8) by (rewrite Z.shiftl_mul_pow2; lia);
    rewrite Z.shiftl_spec by lia;
    (destruct (decide (n < 8));
      [ rewrite Z.testbit_neg_r by lia; done
      | replace (Z.testbit b n) with false; [by rewrite andb_false_r|];
        symmetry; rewrite <-(Z.mod_small b (2 ^ 8)) by (change (2 ^ 8) with 256; lia);
        apply Z.mod_pow2_bits_high; lia ]).
Qed.

Lemma be_decode_snoc bs b : be_decode (bs ++ [b]) = be_decode bs * 256 + byte_to_Z b.
Proof.
  unfold be_decode. rewrite foldl_app. simpl. apply shiftl_lor_add, byte_to_Z_range.
Qed.

Lemma be_decode_cons_acc bs acc :
  foldl (fun acc b => Z.lor (Z.shiftl acc 8) (byte_to_Z b)) acc bs
  = acc * 256 ^ Z.of_nat (length bs) + be_decode bs.
Proof.
  revert acc. induction bs as [|b bs IH] using rev_ind; intros acc; simpl.
  { unfold be_decode. simpl. lia. }
  rewrite foldl_app, be_decode_snoc, length_app. simpl.
  rewrite shiftl_lor_add by apply byte_to_Z_range. rewrite IH.
  rewrite Nat.add_1_r, Nat2Z.inj_succ, Z.pow_succ_r by lia. lia.
Qed.

Lemma be_decode_cons b bs :
  be_decode (b :: bs) = byte_to_Z b * 256 ^ Z.of_nat (length bs) + be_decode bs.
Proof. unfold be_decode at 1. simpl. apply be_decode_cons_acc. Qed.

Lemma be_decode_range bs : 0 <= be_decode bs < 256 ^ Z.of_nat (length bs).
Proof.
  induction bs as [|b bs IH] using rev_ind; [unfold be_decode; simpl; lia|].
  rewrite be_decode_snoc, length_app. simpl.
  rewrite Nat.add_1_r, Nat2Z.inj_succ, Z.pow_succ_r by lia.
  pose proof (byte_to_Z_range b) as Hb. unfold u8_range in Hb. lia.
Qed.

Lemma be_decode_encode w z : 0 <= z -> be_decode (be_encode w z) = z mod 256 ^ Z.of_nat w.
Proof.
  intros Hz. induction w as [|w IH]; [simpl; rewrite Z.mod_1_r; done|].
  cbn [be_encode]. rewrite be_decode_cons, length_be_encode, IH, byte_to_of_Z.
  unfold u8. rewrite Z.shiftr_div_pow2 by lia.
  rewrite Nat2Z.inj_succ, Z.pow_succ_r by lia.
  replace (2 ^ (8 * Z.of_nat w)) with (256 ^ Z.of_nat w).
  - rewrite (Z.mul_comm 256). rewrite Z.rem_mul_r by lia. lia.
  - rewrite Z.pow_mul_r by lia. done.
Qed.

Lemma be_encode_add_high w m k z :
  Z.of_nat w <= m -> be_encode w (k * 256 ^ m + z) = be_encode w z.
Proof.
  induction w as [|w IH]; intros Hm; [done|]. cbn [be_encode]. rewrite IH by lia. f_equal.
  enough (u8 (Z.shiftr (k * 256 ^ m + z) (8 * Z.of_nat w)) = u8 (Z.shiftr z (8 * Z.of_nat w)))
    as Hu by (unfold byte_of_Z; by rewrite Hu).
  unfold u8. rewrite !Z.shiftr_div_pow2 by lia.
  replace (2 ^ (8 * Z.of_nat w)) with (256 ^ Z.of_nat w) by (rewrite Z.pow_mul_r by lia; done).
  replace (k * 256 ^ m) with ((k * 256 ^ (m - Z.of_nat w - 1) * 256) * 256 ^ Z.of_nat w).
  - rewrite Z.div_add_l by lia. rewrite Z.add_comm, Z.mod_add by lia. done.
  - replace m with ((m - Z.of_nat w - 1) + 1 + Z.of_nat w) at 2 by lia.
    rewrite !Z.pow_add_r by lia. lia.
Qed.

Lemma be_encode_decode bs : be_encode (length bs) (be_decode bs) = bs.
Proof.
  induction bs as [|b bs IH]; [done|]. simpl. rewrite be_decode_cons.
  pose proof (be_decode_range bs) as Hr. f_equal.
  - rewrite <-(byte_of_to_Z b) at 2. f_equal. rewrite Z.shiftr_div_pow2 by lia.
    replace (2 ^ (8 * Z.of_nat (length bs))) with (256 ^ Z.of_nat (length bs)).
    + rewrite Z.div_add_l by lia. rewrite Z.div_small by lia. lia.
    + rewrite Z.pow_mul_r by lia. done.
  - etrans; [|exact IH]. by apply be_encode_add_high.
Qed.

Lemma be_encode_of_decode w bs : length bs = w -> be_encode w (be_decode bs) = bs.
Proof. intros <-. apply be_encode_decode. Qed.

(** ** Exceptions and state

    A method that mutates the simulation is a computation on the whole
    simulated world [W].  A C++ exception leaves the mutations made before the
    throw in place, so the final world is returned on both exits. *)
Inductive exn :=
| InvalidArgument (what : string)
| OutOfRange (what : string)
| TlvError (what : string)
| LengthError (what : string)   (** [std::length_error] *)
| RuntimeError (what : string)  (** [std::runtime_error] *)
| Aborted (what : string)   (** [NS_ABORT_MSG_IF]: the program stops *)
| Undefined (what : string) (** the C++ standard gives the run no meaning *)
| OutOfFuel.                (** a bounded loop of the model ran out *)

#[export] Instance exn_eq_dec : EqDecision exn.
Proof. solve_decision. Defined.

Definition M (W A : Type) : Type := W -> W * (exn + A).

#[export] Instance M_ret {W} : MRet (M W) := fun A a w => (w, inr a).
#[export] Instance M_bind {W} : MBind (M W) := fun A B f m w =>
  match m w with
  | (w', inr a) => f a w'
  | (w', inl e) => (w', inl e)
  end.

Definition throw {W A} (e : exn) : M W A := fun w => (w, inl e).
Definition gets {W A} (f : W -> A) : M W A := fun w => (w, inr (f w)).
Definition modify {W} (f : W -> W) : M W unit := fun w => (f w, inr tt).
(** A primitive that updates the world and returns a value. *)
Definition action {W A} (f : W -> W * A) : M W A := fun w => let '(w', a) := f w in (w', inr a).

(** A range-for loop over [xs] whose body may throw. *)
Fixpoint for_each {W A} (xs : list A) (body : A -> M W unit) : M W unit :=
  match xs with
  | [] => mret tt
  | x :: xs => body x ;; for_each xs body
  end.

(** ** Pure error results *)
#[export] Instance result_fmap : FMap (sum exn) := fun A B f r =>
  match r with inl e => inl e | inr a => inr (f a) end.
#[export] Instance result_ret : MRet (sum exn) := fun A a => inr a.
#[export] Instance result_bind : MBind (sum exn) := fun A B f r =>
  match r with inl e => inl e | inr a => f a end.

Definition lift_result {W A} (r : exn + A) : M W A := fun w => (w, r).

(** [try { m } catch (const tlv::Error&) { handler }]: what [m] did before it threw stays. *)
Definition catch_tlv {W} (m handler : M W unit) : M W unit := fun w =>
  match m w with
  | (w', inl (TlvError _)) => handler w'
  | r => r
  end.

(** [preserves I m]: [m] keeps the invariant [I], also when it throws. *)
Definition preserves {W A} (I : W -> Prop) (m : M W A) : Prop :=
  forall w, I w -> I (m w).1.

Section preserves_rules.
Context {W : Type} (I : W -> Prop).

Lemma preserves_ret {A} (a : A) : preserves I (mret a).
Proof. by intros w Hw. Qed.
Lemma preserves_throw {A} e : preserves I (throw (A := A) e).
Proof. by intros w Hw. Qed.
Lemma preserves_gets {A} (f : W -> A) : preserves I (gets f).
Proof. by intros w Hw. Qed.
Lemma preserves_modify f : (forall w, I w -> I (f w)) -> preserves I (modify f).
Proof. intros Hf w Hw. by apply Hf. Qed.
Lemma preserves_action {A} (f : W -> W * A) :
  (forall w, I w -> I (f w).1) -> preserves I (action f).
Proof. intros Hf w Hw. unfold action. specialize (Hf w Hw). by destruct (f w). Qed.
Lemma preserves_bind {A B} (m : M W A) (f : A -> M W B) :
  preserves I m -> (forall a, preserves I (f a)) -> preserves I (m ≫= f).
Proof.
  intros Hm Hf w Hw. unfold mbind, M_bind. specialize (Hm w Hw).
  destruct (m w) as [w' [e|a]]; [done|]. by apply Hf.
Qed.
Lemma preserves_for_each {A} (xs : list A) (body : A -> M W unit) :
  (forall x, preserves I (body x)) -> preserves I (for_each xs body).
Proof.
  intros Hb. induction xs as [|x xs IH]; [apply preserves_ret|].
  apply preserves_bind; [apply Hb|]. intros _. apply IH.
Qed.
End preserves_rules.

Create HintDb preserves.
#[export] Hint Resolve preserves_ret preserves_throw preserves_gets preserves_bind
  preserves_for_each : preserves.

Lemma preserves_lift_result {W A} (I : W -> Prop) (r : exn + A) : preserves I (lift_result r).
Proof. by intros w Hw. Qed.
#[export] Hint Resolve preserves_lift_result : preserves.

(** Evaluation of a computation at a world, one primitive at a time. *)
Section run_rules.
Context {W A B : Type}.
Implicit Types (k : A -> M W B) (w : W).

Lemma run_ret (a : A) k w : (mret a ≫= k) w = k a w.
Proof. done. Qed.
Lemma run_gets (f : W -> A) k w : (gets f ≫= k) w = k (f w) w.
Proof. done. Qed.
Lemma run_modify (f : W -> W) (k : unit -> M W B) w : (modify f ≫= k) w = k tt (f w).
Proof. done. Qed.
Lemma run_throw e k w : (throw e ≫= k) w = (w, inl e).
Proof. done. Qed.
Lemma run_lift_inr (a : A) k w : (lift_result (inr a) ≫= k) w = k a w.
Proof. done. Qed.
Lemma run_action (f : W -> W * A) k w : (action f ≫= k) w = k (f w).2 (f w).1.
Proof. unfold mbind, M_bind, action. by destruct (f w). Qed.
Lemma run_seq (m : M W A) k w w' a : m w = (w', inr a) -> (m ≫= k) w = k a w'.
Proof. intros H. unfold mbind, M_bind. by rewrite H. Qed.
Lemma run_raise (m : M W A) k w w' e : m w = (w', inl e) -> (m ≫= k) w = (w', inl e).
Proof. intros H. unfold mbind, M_bind. by rewrite H. Qed.
End run_rules.

Lemma run_assoc {W A B C} (m : M W A) (f : A -> M W B) (k : B -> M W C) w :
  ((m ≫= f) ≫= k) w = (m ≫= (fun x => f x ≫= k)) w.
Proof. unfold mbind, M_bind. by destruct (m w) as [? []]. Qed.
#[export] Hint Rewrite @run_ret @run_gets @run_modify @run_throw @run_lift_inr @run_action : run.

(** [respects R m]: the world after [m] is related to the one before, also when
    [m] throws. *)
Definition respects {W A} (R : relation W) (m : M W A) : Prop := forall w, R w (m w).1.

Section respects_rules.
Context {W : Type} (R : relation W) `{!PreOrder R}.

Lemma respects_ret {A} (a : A) : respects R (mret a).
Proof. intros w. cbn. reflexivity. Qed.
Lemma respects_throw {A} e : respects R (throw (A := A) e).
Proof. intros w. cbn. reflexivity. Qed.
Lemma respects_gets {A} (f : W -> A) : respects R (gets f).
Proof. intros w. cbn. reflexivity. Qed.
Lemma respects_lift {A} (r : exn + A) : respects R (lift_result r).
Proof. intros w. cbn. reflexivity. Qed.
Lemma respects_modify f : (forall w, R w (f w)) -> respects R (modify f).
Proof. intros H w. apply H. Qed.
Lemma respects_action {A} (f : W -> W * A) : (forall w, R w (f w).1) -> respects R (action f).
Proof. intros H w. unfold action. specialize (H w). by destruct (f w). Qed.
Lemma respects_bind {A B} (m : M W A) (k : A -> M W B) :
  respects R m -> (forall a, respects R (k a)) -> respects R (m ≫= k).
Proof.
  intros Hm Hk w. unfold mbind, M_bind. specialize (Hm w).
  destruct (m w) as [w' [e|a]]; [done|]. cbn in Hm. etrans; [exact Hm|apply Hk].
Qed.
Lemma respects_for_each {A} (xs : list A) (body : A -> M W unit) :
  (forall x, respects R (body x)) -> respects R (for_each xs body).
Proof.
  intros Hb. induction xs as [|x xs IH]; [apply respects_ret|].
  apply respects_bind; [apply Hb|]. intros _. apply IH.
Qed.
End respects_rules.
Create HintDb respects.
#[export] Hint Resolve respects_ret respects_throw respects_gets respects_lift : respects.

(** Walks through a computation, leaving the leaves no hint solves. *)
Ltac respects :=
  repeat first
    [ solve [eauto with respects typeclass_instances]
    | apply respects_bind; [try typeclasses eauto| |intros ?]
    | apply respects_for_each; [try typeclasses eauto|intros ?]
    | progress cbv zeta
    | match goal with
      | |- respects _ (match ?x with _ => _ end) => destruct x
      end ].

Lemma for_each_app {W A} (l1 l2 : list A) (body : A -> M W unit) w :
  for_each (l1 ++ l2) body w = (for_each l1 body;; for_each l2 body) w.
Proof.
  revert w. induction l1 as [|x l1 IH]; intros w; [done|]. cbn [app for_each]. rewrite run_assoc.
  unfold mbind at 1 2, M_bind at 1 2. destruct (body x w) as [w' [e|[]]]; [done|]. apply IH.
Qed.

(** Two continuations that agree on what [m] returns. *)
Lemma run_ext {W A B} (m : M W A) (k1 k2 : A -> M W B) w :
  (forall w' a, m w = (w', inr a) -> k1 a w' = k2 a w') -> (m ≫= k1) w = (m ≫= k2) w.
Proof. intros H. unfold mbind, M_bind. destruct (m w) as [w' [e|a]]; [done|]. by apply H. Qed.

(** Worlds that agree on an observation. *)
Definition agree_on {W X} (f : W -> X) : relation W := fun w w' => f w' = f w.
#[export] Instance agree_on_preorder {W X} (f : W -> X) : PreOrder (agree_on f).
Proof. unfold agree_on. split; [by intros w|intros w1 w2 w3 H1 H2; congruence]. Qed.

(** Evaluate a computation at a world as far as its definition goes. *)
Ltac run_simpl :=
  repeat (unfold mbind, M_bind, mret, M_ret, gets, modify, throw, action in *; cbn in * ).

(** Case analysis on the scrutinee of an innermost [match] or [if]. *)
Ltac case_innermost :=
  match goal with
  | |- context [match ?x with _ => _ end] =>
      lazymatch x with
      | context [match _ with _ => _ end] => fail
      | _ => destruct x eqn:?
      end
  end.

(** ** Field access

    [Lens W S]: the world [W] has a component of type [S]. *)
Class Lens (W S : Type) := {
  view : W -> S;
  put : S -> W -> W
}.

Class LensLaws (W S : Type) `{!Lens W S} : Prop := {
  view_put s w : view (put s w) = s;
  put_view w : put (view w) w = w;
  put_put s s' w : put s (put s' w) = put s w
}.

(** Two components of one world that do not overlap. *)
Class LensDisjoint (W S T : Type) `{!Lens W S, !Lens W T} : Prop := {
  view_put_l s w : view (S := T) (put (S := S) s w) = view w;
  view_put_r t w : view (S := S) (put (S := T) t w) = view w
}.

Definition over {W S} `{!Lens W S} (f : S -> S) (w : W) : W := put (f (view w)) w.
Arguments over : simpl never.

Lemma view_over {W S} `{!Lens W S, !LensLaws W S} (f : S -> S) (w : W) :
  view (over f w) = f (view w).
Proof. unfold over. apply view_put. Qed.

(** Run a computation on one component of the world. *)
Definition zoom {W S A} `{!Lens W S} (m : M S A) : M W A := fun w =>
  let '(s', r) := m (view w) in (put s' w, r).

Lemma preserves_zoom {W S A} `{!Lens W S} (I : W -> Prop) (m : M S A) :
  (forall w, I w -> I (put (m (view w)).1 w)) -> preserves I (zoom m).
Proof. intros H w Hw. unfold zoom. specialize (H w Hw). by destruct (m (view w)). Qed.

(** Record update: [r <| field := v |>]; one [Setter] instance per field. *)
Class Setter {R T : Type} (field : R -> T) := set_field : (T -> T) -> R -> R.
Arguments set_field {R T} field {_} f r /.
Arguments Setter {R T} field.

Declare Scope statim_scope.
#[global] Open Scope statim_scope.
Notation "r <| field := v |>" := (set_field field (fun _ => v) r)
  (at level 12, left associativity, format "r  <| field  :=  v |>") : statim_scope.
Notation "r <| field ::= f |>" := (set_field field f r)
  (at level 12, left associativity, format "r  <| field  ::=  f |>") : statim_scope.

(** A struct of [uint64_t] counters, indexed by the counter's field name. *)
Definition counters (C : Type) : Type := C -> Z.
Definition counters_init {C} : counters C := fun _ => 0.
Definition bump {C} `{EqDecision C} (c : C) (cs : counters C) : counters C :=
  fun c' => if decide (c' = c) then u64 (cs c' + 1) else cs c'.

Lemma bump_eq {C} `{EqDecision C} (c : C) cs : bump c cs c = u64 (cs c + 1).
Proof. unfold bump. by rewrite decide_True. Qed.
Lemma bump_ne {C} `{EqDecision C} (c c' : C) cs : c' <> c -> bump c cs c' = cs c'.
Proof. intros H. unfold bump. by rewrite decide_False. Qed.

(** ** Three-way comparisons

    [Compare A] is a decision procedure for a total order on [A]. *)
Class Compare (A : Type) := compare : A -> A -> comparison.

Class CompareLaws (A : Type) `{!Compare A} : Prop := {
  compare_eq (a b : A) : compare a b = Eq <-> a = b;
  compare_opp (a b : A) : compare b a = CompOpp (compare a b);
  compare_lt_trans (a b c : A) : compare a b = Lt -> compare b c = Lt -> compare a c = Lt
}.

Lemma compare_refl {A} `{CompareLaws A} (a : A) : compare a a = Eq.
Proof. by apply compare_eq. Qed.

(** Lexicographic composition of two outcomes. *)
Definition lex (c d : comparison) : comparison := match c with Eq => d | _ => c end.

#[export] Instance compare_Z : Compare Z := Z.compare.
#[export] Instance compare_Z_laws : CompareLaws Z.
Proof.
  split; unfold compare, compare_Z.
  - apply Z.compare_eq_iff.
  - intros a b. apply Z.compare_antisym.
  - intros a b c. rewrite !Z.compare_lt_iff. lia.
Qed.

Section compare_inj.
Context {A B : Type} `{!Compare B, !CompareLaws B} (f : A -> B) `{!Inj (=) (=) f}.
Definition compare_on : Compare A := fun a b => compare (f a) (f b).
Lemma compare_on_laws : @CompareLaws A compare_on.
Proof.
  split; unfold compare, compare_on; intros *.
  - etrans; [apply compare_eq|]. split; [apply (inj f)|by intros ->].
  - apply compare_opp.
  - apply compare_lt_trans.
Qed.
End compare_inj.

#[export] Instance compare_byte : Compare byte := compare_on byte_to_Z.
#[export] Instance compare_byte_laws : CompareLaws byte := compare_on_laws byte_to_Z.

Section compare_prod.
Context {A B : Type} `{CompareLaws A, CompareLaws B}.
#[export] Instance compare_prod : Compare (A * B) := fun p q =>
  lex (compare p.1 q.1) (compare p.2 q.2).
#[export] Instance compare_prod_laws : CompareLaws (A * B).
Proof.
  split; unfold compare, compare_prod.
  - intros [a b] [a' b']; simpl. destruct (compare a a') eqn:E; simpl.
    + apply compare_eq in E as ->. rewrite compare_eq. naive_solver.
    + split; [done|]. intros [= -> ->]. by rewrite compare_refl in E.
    + split; [done|]. intros [= -> ->]. by rewrite compare_refl in E.
  - intros [a b] [a' b']; simpl. rewrite (compare_opp a a').
    destruct (compare a a'); simpl; [apply compare_opp|done..].
  - intros [a1 b1] [a2 b2] [a3 b3]; simpl.
    destruct (compare a1 a2) eqn:E1; simpl; [|intros _|done].
    + apply compare_eq in E1 as ->. destruct (compare a2 a3); simpl; [|done..].
      apply compare_lt_trans.
    + destruct (compare a2 a3) eqn:E2; simpl; [|intros _|done].
      * apply compare_eq in E2 as ->. by rewrite E1.
      * by rewrite (compare_lt_trans _ _ _ E1 E2).
Qed.
End compare_prod.

Section compare_list.
Context {A : Type} `{CompareLaws A}.
#[export] Instance compare_list : Compare (list A) :=
  fix go xs ys :=
    match xs, ys with
    | [], [] => Eq
    | [], _ :: _ => Lt
    | _ :: _, [] => Gt
    | x :: xs, y :: ys => lex (compare x y) (go xs ys)
    end.

Lemma compare_list_cons (x y : A) xs ys :
  compare (x :: xs) (y :: ys) = lex (compare x y) (compare xs ys).
Proof. done. Qed.

#[export] Instance compare_list_laws : CompareLaws (list A).
Proof.
  split.
  - induction a as [|x xs IH]; intros [|y ys]; try done.
    rewrite compare_list_cons. destruct (compare x y) eqn:E; simpl.
    + apply compare_eq in E as ->. rewrite IH. naive_solver.
    + split; [done|]. intros [= -> ->]. by rewrite compare_refl in E.
    + split; [done|]. intros [= -> ->]. by rewrite compare_refl in E.
  - induction a as [|x xs IH]; intros [|y ys]; try done.
    rewrite !compare_list_cons, (compare_opp x y), IH. by destruct (compare x y).
  - induction a as [|x xs IH]; intros [|y ys] [|z zs]; try done.
    rewrite !compare_list_cons. destruct (compare x y) eqn:E1; simpl; [|intros _|done].
    + apply compare_eq in E1 as ->. destruct (compare y z); simpl; [|done..]. apply IH.
    + destruct (compare y z) eqn:E2; simpl; [|intros _|done].
      * apply compare_eq in E2 as ->. by rewrite E1.
      * by rewrite (compare_lt_trans _ _ _ E1 E2).
Qed.

(** The lists that extend [p] are an interval of the order that starts at [p]. *)
Lemma compare_list_prefix (p xs : list A) : p `prefix_of` xs -> compare p xs <> Gt.
Proof.
  intros [k ->]. induction p as [|x p IH]; [by destruct k|].
  simpl. rewrite compare_list_cons, compare_refl. done.
Qed.

Lemma compare_list_prefix_convex (p xs ys : list A) :
  compare p xs <> Gt -> compare xs ys <> Gt -> p `prefix_of` ys -> p `prefix_of` xs.
Proof.
  revert xs ys. induction p as [|x p IH]; intros xs ys H1 H2 [k ->]; [apply prefix_nil|].
  destruct xs as [|y xs]; [done|]. simpl in H2. rewrite compare_list_cons in H1, H2.
  destruct (compare x y) eqn:E1; simpl in H1; [|exfalso|done].
  - apply compare_eq in E1 as ->. rewrite compare_refl in H2. simpl in H2.
    apply prefix_cons. eapply IH; [done..|]. by exists k.
  - rewrite (compare_opp x y), E1 in H2. done.
Qed.
End compare_list.

Definition le_of {A} `{!Compare A} (a b : A) : Prop := compare a b <> Gt.

Section le_of.
Context {A : Type} `{CompareLaws A}.
#[export] Instance le_of_dec (a b : A) : Decision (le_of a b).
Proof. unfold le_of. destruct (compare a b); [left|left|right]; congruence. Defined.
#[export] Instance le_of_trans : Transitive (le_of (A := A)).
Proof.
  intros a b c. unfold le_of.
  destruct (compare a b) eqn:E1; [|intros _|done].
  - apply compare_eq in E1 as ->. done.
  - destruct (compare b c) eqn:E2; [|intros _|done].
    + apply compare_eq in E2 as ->. by rewrite E1.
    + by rewrite (compare_lt_trans _ _ _ E1 E2).
Qed.
#[export] Instance le_of_total : Total (le_of (A := A)).
Proof. intros a b. unfold le_of. rewrite (compare_opp a b). destruct (compare a b); auto. Qed.
#[export] Instance le_of_antisymm : AntiSymm (=) (le_of (A := A)).
Proof.
  intros a b. unfold le_of. rewrite (compare_opp a b), <-compare_eq.
  by destruct (compare a b).
Qed.
Lemma le_of_refl (a : A) : le_of a a.
Proof. unfold le_of. by rewrite compare_refl. Qed.
End le_of.

(** ** Ordered containers

    [std::map] and [std::set] are a [gmap] and a [gset] together with the order
    in which their iterators visit the elements. *)
Definition set_elements (s : gset Z) : list Z := merge_sort Z.le (elements s).

Lemma set_elements_perm s : set_elements s ≡ₚ elements s.
Proof. apply merge_sort_Permutation. Qed.

Lemma elem_of_set_elements s p : p ∈ set_elements s <-> p ∈ s.
Proof. rewrite set_elements_perm. apply elem_of_elements. Qed.

Lemma NoDup_set_elements s : NoDup (set_elements s).
Proof. rewrite set_elements_perm. apply NoDup_elements. Qed.

Lemma set_elements_sorted s : StronglySorted Z.le (set_elements s).
Proof. apply StronglySorted_merge_sort; apply _. Qed.

Lemma set_elements_empty s : set_elements s = [] <-> s = ∅.
Proof.
  split; intros H.
  - apply leibniz_equiv, set_equiv. intros x. rewrite <-elem_of_set_elements, H. set_solver.
  - rewrite H. done.
Qed.

Lemma filter_perm {A} (p : A -> bool) l l' :
  l ≡ₚ l' -> List.filter p l ≡ₚ List.filter p l'.
Proof.
  induction 1 as [|x l l' _ IH|x y l|l l' l'' _ IH1 _ IH2]; simpl; [done| | |by etrans].
  - destruct (p x); [by constructor|done].
  - destruct (p x), (p y); try done. constructor.
Qed.

(** [std::sort]: the standard fixes the result up to the order of equivalent
    elements, so the sort is a parameter that returns some ordered permutation. *)
Class StdSort := std_sort : forall {A : Type}, (A -> A -> bool) -> list A -> list A.

Class StrictWeakOrder {A} (less : A -> A -> bool) : Prop := {
  swo_asym a b : less a b = true -> less b a = false;
  swo_negtrans a b c : less a b = false -> less b c = false -> less a c = false
}.

Class StdSortLaws `{!StdSort} : Prop := {
  std_sort_perm {A} (less : A -> A -> bool) l : std_sort less l ≡ₚ l;
  std_sort_sorted {A} (less : A -> A -> bool) `{!StrictWeakOrder less} l :
    StronglySorted (fun a b => less b a = false) (std_sort less l)
}.

(** One conforming sort, to run the model with. *)
Module InsertionSort.
Fixpoint insert {A} (less : A -> A -> bool) (x : A) (l : list A) : list A :=
  match l with
  | [] => [x]
  | y :: l' => if less y x then y :: insert less x l' else x :: l
  end.

Fixpoint sort {A} (less : A -> A -> bool) (l : list A) : list A :=
  match l with
  | [] => []
  | x :: l => insert less x (sort less l)
  end.

#[export] Instance insertion_sort : StdSort := @sort.

Lemma insert_perm {A} (less : A -> A -> bool) x l : insert less x l ≡ₚ x :: l.
Proof.
  induction l as [|y l IH]; simpl; [done|].
  destruct (less y x); [|done]. rewrite IH. constructor.
Qed.

Lemma insert_sorted {A} (less : A -> A -> bool) `{!StrictWeakOrder less} x l :
  StronglySorted (fun a b => less b a = false) l ->
  StronglySorted (fun a b => less b a = false) (insert less x l).
Proof.
  induction 1 as [|y l Hl IH Hy]; simpl; [by repeat constructor|].
  destruct (less y x) eqn:E.
  - constructor; [done|]. rewrite insert_perm. constructor; [by apply swo_asym|done].
  - constructor; [by constructor|]. constructor; [done|].
    eapply Forall_impl; [exact Hy|]. simpl. intros z Hz. by eapply swo_negtrans.
Qed.

#[export] Instance insertion_sort_laws : StdSortLaws.
Proof.
  split.
  - intros A less l. unfold std_sort, insertion_sort.
    induction l as [|x l IH]; simpl; [done|]. by rewrite insert_perm, IH.
  - intros A less Hless l. unfold std_sort, insertion_sort.
    induction l as [|x l IH]; simpl; [constructor|]. by apply insert_sorted.
Qed.
End InsertionSort.
