(* ===== verification/Tlv.v ===== *)
(** * Tlv: VAR-NUMBER and nonNegativeInteger

    Sources: [src/src/ndnSIM/ndn-cxx/src/encoding/tlv.hpp] (readers and stream
    writers) and [encoding/encoder.cpp] (the prepending encoder).  An encoder is
    the list of bytes already written after the insertion point, so prepending
    conses; an input iterator is the list of bytes still to read. *)
From S2P Require Import Prelude.

(** Type numbers. *)
Module tlv.
Definition Interest : Z := 5.
Definition Data : Z := 6.
Definition Name : Z := 7.
Definition ImplicitSha256DigestComponent : Z := 1.
Definition NameComponent : Z := 8.
Definition Selectors : Z := 9.
Definition Nonce : Z := 10.
Definition InterestLifetime : Z := 12.
Definition MinSuffixComponents : Z := 13.
Definition MaxSuffixComponents : Z := 14.
Definition Exclude : Z := 16.
Definition ChildSelector : Z := 17.
Definition MustBeFresh : Z := 18.
Definition Any : Z := 19.
Definition MetaInfo : Z := 20.
Definition Content : Z := 21.
Definition SignatureInfo : Z := 22.
Definition SignatureValue : Z := 23.
Definition ContentType : Z := 24.
Definition FreshnessPeriod : Z := 25.
Definition FinalBlockId : Z := 26.
Definition SignatureType : Z := 27.
Definition KeyLocator : Z := 28.
Definition KeyDigest : Z := 29.
Definition LinkPreference : Z := 30.
Definition LinkDelegation : Z := 31.
Definition SelectedDelegation : Z := 32.
Definition ContentType_Blob : Z := 0.
Definition ContentType_Link : Z := 1.
End tlv.

Definition UINT8_MAX : Z := 255.
Definition UINT16_MAX : Z := 65535.
Definition UINT32_MAX : Z := 4294967295.

(** [tlv::readVarNumber] (contiguous iterators): [None] for false, otherwise the
    number and the input after it. *)
Definition readVarNumber (input : list byte) : option (Z * list byte) :=
  match input with
  | [] => None
  | firstOctet :: rest =>
      let first := byte_to_Z firstOctet in
      let fixed (n : nat) :=
        if (length rest <? n)%nat then None
        else Some (be_decode (take n rest), drop n rest) in
      if first <? 253 then Some (first, rest)
      else if first =? 253 then fixed 2%nat
      else if first =? 254 then fixed 4%nat
      else fixed 8%nat
  end.

(** [tlv::readType]: a type above the 32-bit range is refused. *)
Definition readType (input : list byte) : option (Z * list byte) :=
  match readVarNumber input with
  | Some (number, rest) => if UINT32_MAX <? number then None else Some (number, rest)
  | None => None
  end.

(** The overloads of the two that throw. *)
Definition readVarNumber_or_throw (input : list byte) : exn + (Z * list byte) :=
  match input with
  | [] => inl (TlvError "Empty buffer during TLV processing")
  | _ => match readVarNumber input with
         | Some r => inr r
         | None => inl (TlvError "Insufficient data during TLV processing")
         end
  end.

Definition readType_or_throw (input : list byte) : exn + (Z * list byte) :=
  '(type, rest) ← readVarNumber_or_throw input;
  if UINT32_MAX <? type then inl (TlvError "TLV type code exceeds allowed maximum")
  else inr (type, rest).

(** The specialisations for [std::istream_iterator], which count octets while the
    stream has some. *)
Fixpoint shift_in (count : nat) (value : Z) (input : list byte) : nat * Z * list byte :=
  match count, input with
  | S count, b :: input =>
      shift_in count (u64 (Z.lor (Z.shiftl value 8) (byte_to_Z b))) input
  | _, _ => (count, value, input)
  end.

Definition readVarNumber_stream (input : list byte) : option (Z * list byte) :=
  match input with
  | [] => None
  | firstOctet :: rest =>
      let first := byte_to_Z firstOctet in
      let counted (n : nat) :=
        let '(missing, value, rest) := shift_in n 0 rest in
        if negb (missing =? 0)%nat then None else Some (value, rest) in
      if first <? 253 then Some (first, rest)
      else if first =? 253 then counted 2%nat
      else if first =? 254 then counted 4%nat
      else counted 8%nat
  end.

Definition sizeOfVarNumber (varNumber : Z) : Z :=
  if varNumber <? 253 then 1
  else if varNumber <=? UINT16_MAX then 3
  else if varNumber <=? UINT32_MAX then 5
  else 9.

Definition writeVarNumber (varNumber : Z) : list byte :=
  if varNumber <? 253 then be_encode 1 varNumber
  else if varNumber <=? UINT16_MAX then byte_of_Z 253 :: be_encode 2 varNumber
  else if varNumber <=? UINT32_MAX then byte_of_Z 254 :: be_encode 4 varNumber
  else byte_of_Z 255 :: be_encode 8 varNumber.

(** [Encoder::prependVarNumber]: the byte array first, its marker before it. *)
Definition prependByteArray (bytes out : list byte) : list byte := bytes ++ out.
Definition prependByte (value : Z) (out : list byte) : list byte := byte_of_Z value :: out.

Definition prependVarNumber (varNumber : Z) (out : list byte) : list byte :=
  if varNumber <? 253 then prependByte varNumber out
  else if varNumber <=? UINT16_MAX
  then prependByte 253 (prependByteArray (be_encode 2 varNumber) out)
  else if varNumber <=? UINT32_MAX
  then prependByte 254 (prependByteArray (be_encode 4 varNumber) out)
  else prependByte 255 (prependByteArray (be_encode 8 varNumber) out).

(** [tlv::readNonNegativeInteger]: [size] selects the width; another size throws. *)
Definition readNonNegativeInteger (size : nat) (input : list byte) : exn + (Z * list byte) :=
  if decide (size ∈ [1; 2; 4; 8]%nat)
  then if (length input <? size)%nat
       then inl (TlvError "Insufficient data during TLV processing")
       else inr (be_decode (take size input), drop size input)
  else inl (TlvError "Invalid length for nonNegativeInteger").

Definition readNonNegativeInteger_stream (size : nat) (input : list byte)
    : exn + (Z * list byte) :=
  let insufficient := TlvError "Insufficient data during TLV processing" in
  let counted (n : nat) :=
    let '(missing, value, rest) := shift_in n 0 input in
    if negb (missing =? 0)%nat then inl insufficient else inr (value, rest) in
  match size with
  | 1%nat => match input with
             | [] => inl insufficient
             | b :: rest => inr (byte_to_Z b, rest)
             end
  | 2%nat => counted 2%nat
  | 4%nat => counted 4%nat
  | 8%nat => counted 8%nat
  | _ => inl (TlvError "Invalid length for nonNegativeInteger")
  end.

Definition sizeOfNonNegativeInteger (varNumber : Z) : Z :=
  if varNumber <? 253 then 1
  else if varNumber <=? UINT16_MAX then 2
  else if varNumber <=? UINT32_MAX then 4
  else 8.

Definition writeNonNegativeInteger (varNumber : Z) : list byte :=
  if varNumber <? 253 then be_encode 1 varNumber
  else if varNumber <=? UINT16_MAX then be_encode 2 varNumber
  else if varNumber <=? UINT32_MAX then be_encode 4 varNumber
  else be_encode 8 varNumber.

(** [Encoder::prependNonNegativeInteger]: note the one-byte bound is 255 here. *)
Definition prependNonNegativeInteger (varNumber : Z) (out : list byte) : list byte :=
  if varNumber <=? UINT8_MAX then prependByte varNumber out
  else if varNumber <=? UINT16_MAX then prependByteArray (be_encode 2 varNumber) out
  else if varNumber <=? UINT32_MAX then prependByteArray (be_encode 4 varNumber) out
  else prependByteArray (be_encode 8 varNumber) out.

(** ** Facts *)
Lemma be_encode_1 z : be_encode 1 z = [byte_of_Z z].
Proof. done. Qed.

Lemma take_drop_be_encode w z rest :
  take w (be_encode w z ++ rest) = be_encode w z /\ drop w (be_encode w z ++ rest) = rest.
Proof.
  split; [apply take_app_length'|apply drop_app_length']; by rewrite length_be_encode.
Qed.

Lemma be_roundtrip w z : 0 <= z < 256 ^ Z.of_nat w -> be_decode (be_encode w z) = z.
Proof. intros Hz. rewrite be_decode_encode by lia. by apply Z.mod_small. Qed.

Lemma read_fixed w z rest :
  0 <= z < 256 ^ Z.of_nat w ->
  (if (length (be_encode w z ++ rest) <? w)%nat then None
   else Some (be_decode (take w (be_encode w z ++ rest)), drop w (be_encode w z ++ rest)))
  = Some (z, rest).
Proof.
  intros Hz. destruct (take_drop_be_encode w z rest) as [-> ->].
  rewrite length_app, length_be_encode.
  destruct (Nat.ltb_spec (w + length rest) w) as [Hlt|_]; [lia|]. by rewrite be_roundtrip.
Qed.

Lemma writeVarNumber_prepend n out : prependVarNumber n out = writeVarNumber n ++ out.
Proof.
  unfold prependVarNumber, writeVarNumber, prependByte, prependByteArray.
  by repeat case_match.
Qed.

Lemma readVarNumber_write n rest :
  u64_range n -> readVarNumber (writeVarNumber n ++ rest) = Some (n, rest).
Proof.
  unfold u64_range, writeVarNumber, UINT16_MAX, UINT32_MAX. intros Hn.
  destruct (Z.ltb_spec n 253).
  { rewrite be_encode_1. simpl. rewrite byte_to_of_Z_id by (unfold u8_range; lia).
    by destruct (Z.ltb_spec n 253); [|lia]. }
  destruct (Z.leb_spec n 65535); [|destruct (Z.leb_spec n 4294967295)];
    cbn [app readVarNumber]; rewrite byte_to_of_Z_id by (unfold u8_range; lia);
    cbn [Z.ltb Z.eqb Z.compare Pos.compare Pos.compare_cont Pos.eqb];
    apply read_fixed; lia.
Qed.

Lemma sizeOfVarNumber_write n : Z.of_nat (length (writeVarNumber n)) = sizeOfVarNumber n.
Proof.
  unfold writeVarNumber, sizeOfVarNumber.
  repeat case_match; cbn [length]; rewrite ?length_be_encode; done.
Qed.

Lemma readNonNegativeInteger_prepend n rest :
  u64_range n ->
  exists w, length (prependNonNegativeInteger n []) = w /\
    readNonNegativeInteger w (prependNonNegativeInteger n [] ++ rest) = inr (n, rest).
Proof.
  unfold u64_range, prependNonNegativeInteger, prependByte, prependByteArray,
    UINT8_MAX, UINT16_MAX, UINT32_MAX. intros Hn.
  eexists; split; [done|]. unfold readNonNegativeInteger.
  repeat match goal with |- context [?a <=? ?b] => destruct (Z.leb_spec a b) end;
    rewrite ?app_nil_r, ?length_be_encode; cbn [length];
    (rewrite decide_True by set_solver).
  - simpl. unfold be_decode. simpl. rewrite byte_to_of_Z_id by (unfold u8_range; lia).
    done.
  - destruct (take_drop_be_encode 2 n rest) as [-> ->]. rewrite be_roundtrip by lia. done.
  - destruct (take_drop_be_encode 4 n rest) as [-> ->]. rewrite be_roundtrip by lia. done.
  - destruct (take_drop_be_encode 8 n rest) as [-> ->]. rewrite be_roundtrip by lia. done.
Qed.

(** ** The stream readers read what the contiguous ones read *)
Lemma be_decode_u64 bs : (length bs <= 8)%nat -> u64 (be_decode bs) = be_decode bs.
Proof.
  intros Hl. apply u64_id. pose proof (be_decode_range bs) as [H1 H2]. split; [done|].
  eapply Z.lt_le_trans; [exact H2|]. change 18446744073709551616 with (256 ^ 8).
  apply Z.pow_le_mono_r; lia.
Qed.

Lemma shift_in_spec count pre input :
  (length pre + count <= 8)%nat ->
  shift_in count (be_decode pre) input
  = ((count - length input)%nat, be_decode (pre ++ take count input), drop count input).
Proof.
  revert pre input. induction count as [|count IH]; intros pre [|b input] Hl;
    rewrite ?app_nil_r; [done..|]. cbn [shift_in take drop length].
  rewrite shiftl_lor_add by apply byte_to_Z_range. rewrite <-be_decode_snoc.
  rewrite be_decode_u64 by (rewrite length_app; simpl; lia).
  rewrite IH by (rewrite length_app; simpl; lia). by rewrite <-app_assoc.
Qed.

Lemma shift_in_counted {A} n input (fail : A) (k : Z * list byte -> A) :
  (n <= 8)%nat ->
  (let '(missing, value, rest) := shift_in n 0 input in
   if negb (missing =? 0)%nat then fail else k (value, rest))
  = if (length input <? n)%nat then fail else k (be_decode (take n input), drop n input).
Proof.
  intros Hn. change (shift_in n 0 input) with (shift_in n (be_decode []) input).
  rewrite shift_in_spec by (simpl; lia). simpl.
  destruct (Nat.eqb_spec (n - length input) 0), (Nat.ltb_spec (length input) n);
    simpl; (lia || done).
Qed.

Lemma readVarNumber_stream_eq input : readVarNumber_stream input = readVarNumber input.
Proof.
  destruct input as [|b rest]; [done|]. cbn [readVarNumber_stream readVarNumber]. cbv zeta.
  by rewrite !(shift_in_counted _ rest None Some) by lia.
Qed.

Lemma readNonNegativeInteger_stream_eq size input :
  readNonNegativeInteger_stream size input = readNonNegativeInteger size input.
Proof.
  unfold readNonNegativeInteger_stream, readNonNegativeInteger. cbv zeta.
  rewrite !(shift_in_counted _ input _ inr) by lia.
  do 9 (destruct size as [|size];
    [first [rewrite decide_True by set_solver | rewrite decide_False by set_solver];
     try done; by destruct input|]).
  rewrite decide_False; [done|]. set_unfold. lia.
Qed.

(** ** What the readers consume *)
Lemma readVarNumber_split input n rest :
  readVarNumber input = Some (n, rest) ->
  exists header, input = header ++ rest /\ (0 < length header)%nat /\ u64_range n /\
    forall rest', readVarNumber (header ++ rest') = Some (n, rest').
Proof.
  destruct input as [|b input]; [done|]. cbn [readVarNumber]. cbv zeta.
  pose proof (byte_to_Z_range b) as Hb. unfold u8_range in Hb.
  assert (forall k, (k <= 8)%nat -> (if (length input <? k)%nat then None
            else Some (be_decode (take k input), drop k input)) = Some (n, rest) ->
          u64_range n /\ input = take k input ++ rest /\ forall rest',
            (if (length (take k input ++ rest') <? k)%nat then None
             else Some (be_decode (take k (take k input ++ rest')), drop k (take k input ++ rest')))
            = Some (n, rest')) as Hk.
  { intros k Hk. destruct (Nat.ltb_spec (length input) k) as [|Hl]; [done|]. intros [= <- <-].
    rewrite take_drop. split_and!; [|done|].
    - rewrite <-be_decode_u64; [apply u64_bounds|]. rewrite length_take. lia.
    - intros rest'. assert (length (take k input) = k) as Ht by (rewrite length_take; lia).
      rewrite length_app, Ht, take_app_length', drop_app_length' by done.
      by destruct (Nat.ltb_spec (k + length rest') k); [lia|]. }
  assert (forall k, (k <= 8)%nat -> (forall x, readVarNumber (b :: x) =
      if (length x <? k)%nat then None else Some (be_decode (take k x), drop k x)) ->
      (if (length input <? k)%nat then None
            else Some (be_decode (take k input), drop k input)) = Some (n, rest) ->
      exists header, b :: input = header ++ rest /\ (0 < length header)%nat /\ u64_range n /\
        forall rest', readVarNumber (header ++ rest') = Some (n, rest')) as Hread.
  { intros k Hle Hr H. destruct (Hk k Hle H) as (Hn & Hi & Hf). exists (b :: take k input).
    cbn [app length]. split_and!; [by rewrite <-Hi|lia|done|]. intros rest'. by rewrite Hr. }
  destruct (byte_to_Z b <? 253) eqn:E1.
  { intros [= <- <-]. exists [b]. simpl. rewrite E1. split_and!; [done|lia|unfold u64_range; lia|done]. }
  destruct (byte_to_Z b =? 253) eqn:E2; [|destruct (byte_to_Z b =? 254) eqn:E3];
    apply Hread; try lia; intros x; cbn [readVarNumber]; cbv zeta; by rewrite E1, E2, ?E3.
Qed.

Lemma readVarNumber_app input n rest more :
  readVarNumber input = Some (n, rest) -> readVarNumber (input ++ more) = Some (n, rest ++ more).
Proof.
  intros E. destruct (readVarNumber_split _ _ _ E) as (h & -> & _ & _ & Hf). by rewrite <-app_assoc.
Qed.

Lemma readVarNumber_or_throw_eq input :
  (exists n rest, readVarNumber input = Some (n, rest) /\
     readVarNumber_or_throw input = inr (n, rest)) \/
  (readVarNumber input = None /\
     exists what, readVarNumber_or_throw input = inl (TlvError what)).
Proof.
  unfold readVarNumber_or_throw. destruct input as [|b input]; [right; eauto|].
  destruct (readVarNumber (b :: input)) as [[n rest]|]; [left|right]; eauto.
Qed.

Lemma readType_or_throw_eq input :
  (exists n rest, readType input = Some (n, rest) /\ readType_or_throw input = inr (n, rest)) \/
  (readType input = None /\ exists what, readType_or_throw input = inl (TlvError what)).
Proof.
  unfold readType, readType_or_throw.
  destruct (readVarNumber_or_throw_eq input) as [(n & rest & -> & ->)|[-> [what ->]]];
    [|right; eauto]. cbn. destruct (UINT32_MAX <? n); [right|left]; eauto.
Qed.

Lemma readType_split input n rest :
  readType input = Some (n, rest) ->
  exists header, input = header ++ rest /\ (0 < length header)%nat /\ u32_range n /\
    forall rest', readType (header ++ rest') = Some (n, rest').
Proof.
  unfold readType. destruct (readVarNumber input) as [[m r]|] eqn:E; [|done].
  destruct (UINT32_MAX <? m) eqn:Em; [done|]. intros [= <- <-].
  destruct (readVarNumber_split _ _ _ E) as (h & -> & Hl & [H0 _] & Hf).
  exists h. split_and!; [done..|unfold u32_range, UINT32_MAX in *; lia|].
  intros rest'. by rewrite Hf, Em.
Qed.

Lemma readType_write n rest : u32_range n -> readType (writeVarNumber n ++ rest) = Some (n, rest).
Proof.
  intros [H1 H2]. unfold readType. rewrite readVarNumber_write by (unfold u64_range; lia).
  unfold UINT32_MAX. by destruct (Z.ltb_spec 4294967295 n); [lia|].
Qed.

Lemma readType_app input n rest more :
  readType input = Some (n, rest) -> readType (input ++ more) = Some (n, rest ++ more).
Proof.
  intros E. destruct (readType_split _ _ _ E) as (h & -> & _ & _ & Hf). by rewrite <-app_assoc.
Qed.
