(* ===== verification/Encoder.v ===== *)
(** * Encoder: the TLV encoding buffer and its size estimator

    Sources: [src/src/ndnSIM/ndn-cxx/src/encoding/encoder.{hpp,cpp}] and
    [estimator.{hpp,cpp}].  The wire formats are templates over the two classes:
    [EncodingImpl] is their common interface, and [EncodingLaws] says what a
    template may rely on, so that one proof covers the encoding and the estimate of
    its size.  Sizes are those of objects in memory and do not wrap. *)
From S2P Require Import Prelude Tlv.

(** The interface of [encoding::EncodingImpl<TAG>]; each call returns the number of
    octets it adds.  Octets are given as the list behind pointer and length. *)
Class EncodingImpl (E : Type) := {
  prependByte : Z -> M E Z;
  appendByte : Z -> M E Z;
  prependByteArray : list byte -> M E Z;
  appendByteArray : list byte -> M E Z;
  prependRange : list byte -> M E Z;
  appendRange : list byte -> M E Z;
  prependVarNumber : Z -> M E Z;
  appendVarNumber : Z -> M E Z;
  prependNonNegativeInteger : Z -> M E Z;
  appendNonNegativeInteger : Z -> M E Z;
  prependByteArrayBlock : Z -> list byte -> M E Z;
  appendByteArrayBlock : Z -> list byte -> M E Z
}.

(** ** The encoding buffer *)
Module Encoder.

(** The iterators are offsets into the buffer. *)
Record Encoder := mkEncoder {
  m_buffer : list byte;
  m_begin : nat;
  m_end : nat
}.

Definition new (totalReserve reserveFromBack : nat) : Encoder :=
  let pos := (totalReserve - (if reserveFromBack <? totalReserve then reserveFromBack else 0))%nat in
  mkEncoder (replicate totalReserve Byte.x00) pos pos.

Definition capacity (e : Encoder) : nat := length (m_buffer e).
Definition size (e : Encoder) : nat := m_end e - m_begin e.

(** A new zeroed buffer, with the old one copied to its back or its front. *)
Definition reserve (size : nat) (addInFront : bool) (e : Encoder) : Encoder :=
  let old := length (m_buffer e) in
  let size := if (size <? old)%nat then old else size in
  let added := replicate (size - old) Byte.x00 in
  if addInFront then
    let diffEnd := (old - m_end e)%nat in
    let diffBegin := (old - m_begin e)%nat in
    mkEncoder (added ++ m_buffer e) (size - diffBegin) (size - diffEnd)
  else mkEncoder (m_buffer e ++ added) (m_begin e) (m_end e).

Definition reserveBack (size : nat) (e : Encoder) : Encoder :=
  if (length (m_buffer e) <? m_end e + size)%nat
  then reserve (length (m_buffer e) * 2 + size) false e else e.

Definition reserveFront (size : nat) (e : Encoder) : Encoder :=
  if (m_begin e <? size)%nat
  then reserve (length (m_buffer e) * 2 + size) true e else e.

(** [std::copy] to a position of the buffer. *)
Definition write_at (pos : nat) (array buffer : list byte) : list byte :=
  take pos buffer ++ array ++ drop (pos + length array) buffer.

Definition prependByteArray (array : list byte) : M Encoder Z := action (fun e =>
  let e := reserveFront (length array) e in
  let begin := (m_begin e - length array)%nat in
  (mkEncoder (write_at begin array (m_buffer e)) begin (m_end e), Z.of_nat (length array))).

Definition appendByteArray (array : list byte) : M Encoder Z := action (fun e =>
  let e := reserveBack (length array) e in
  (mkEncoder (write_at (m_end e) array (m_buffer e)) (m_begin e) (m_end e + length array),
   Z.of_nat (length array))).

Definition prependByte (value : Z) : M Encoder Z := action (fun e =>
  let e := reserveFront 1 e in
  let begin := (m_begin e - 1)%nat in
  (mkEncoder (<[begin := byte_of_Z value]> (m_buffer e)) begin (m_end e), 1)).

Definition appendByte (value : Z) : M Encoder Z := action (fun e =>
  let e := reserveBack 1 e in
  (mkEncoder (<[m_end e := byte_of_Z value]> (m_buffer e)) (m_begin e) (m_end e + 1), 1)).

Definition prependVarNumber (varNumber : Z) : M Encoder Z :=
  if varNumber <? 253 then prependByte varNumber ;; mret 1
  else if varNumber <=? UINT16_MAX
  then prependByteArray (be_encode 2 varNumber) ;; prependByte 253 ;; mret 3
  else if varNumber <=? UINT32_MAX
  then prependByteArray (be_encode 4 varNumber) ;; prependByte 254 ;; mret 5
  else prependByteArray (be_encode 8 varNumber) ;; prependByte 255 ;; mret 9.

Definition appendVarNumber (varNumber : Z) : M Encoder Z :=
  if varNumber <? 253 then appendByte varNumber ;; mret 1
  else if varNumber <=? UINT16_MAX
  then appendByte 253 ;; appendByteArray (be_encode 2 varNumber) ;; mret 3
  else if varNumber <=? UINT32_MAX
  then appendByte 254 ;; appendByteArray (be_encode 4 varNumber) ;; mret 5
  else appendByte 255 ;; appendByteArray (be_encode 8 varNumber) ;; mret 9.

Definition prependNonNegativeInteger (varNumber : Z) : M Encoder Z :=
  if varNumber <=? UINT8_MAX then prependByte varNumber
  else if varNumber <=? UINT16_MAX then prependByteArray (be_encode 2 varNumber)
  else if varNumber <=? UINT32_MAX then prependByteArray (be_encode 4 varNumber)
  else prependByteArray (be_encode 8 varNumber).

Definition appendNonNegativeInteger (varNumber : Z) : M Encoder Z :=
  if varNumber <=? UINT8_MAX then appendByte varNumber
  else if varNumber <=? UINT16_MAX then appendByteArray (be_encode 2 varNumber)
  else if varNumber <=? UINT32_MAX then appendByteArray (be_encode 4 varNumber)
  else appendByteArray (be_encode 8 varNumber).

Definition prependByteArrayBlock (type : Z) (array : list byte) : M Encoder Z :=
  n1 ← prependByteArray array;
  n2 ← prependVarNumber (Z.of_nat (length array));
  n3 ← prependVarNumber type;
  mret (n1 + n2 + n3).

Definition appendByteArrayBlock (type : Z) (array : list byte) : M Encoder Z :=
  n1 ← appendVarNumber type;
  n2 ← appendVarNumber (Z.of_nat (length array));
  n3 ← appendByteArray array;
  mret (n1 + n2 + n3).

(** [prependRange] copies a range of any kind of iterator. *)
#[export] Instance impl : EncodingImpl Encoder := {
  prependByte := prependByte;
  appendByte := appendByte;
  prependByteArray := prependByteArray;
  appendByteArray := appendByteArray;
  prependRange := prependByteArray;
  appendRange := appendByteArray;
  prependVarNumber := prependVarNumber;
  appendVarNumber := appendVarNumber;
  prependNonNegativeInteger := prependNonNegativeInteger;
  appendNonNegativeInteger := appendNonNegativeInteger;
  prependByteArrayBlock := prependByteArrayBlock;
  appendByteArrayBlock := appendByteArrayBlock
}.

(** What has been written, and the class invariant. *)
Definition contents (e : Encoder) : list byte :=
  take (m_end e - m_begin e) (drop (m_begin e) (m_buffer e)).

Definition ok (e : Encoder) : Prop :=
  (m_begin e <= m_end e)%nat /\ (m_end e <= length (m_buffer e))%nat.
End Encoder.

(** ** The estimator *)
Module Estimator.

(** It has no data members. *)
Inductive Estimator := mkEstimator.

Definition prependByte (value : Z) : M Estimator Z := mret 1.
Definition appendByte (value : Z) : M Estimator Z := mret 1.
Definition prependByteArray (array : list byte) : M Estimator Z :=
  mret (Z.of_nat (length array)).
Definition appendByteArray (array : list byte) : M Estimator Z := prependByteArray array.

Definition prependVarNumber (varNumber : Z) : M Estimator Z :=
  if varNumber <? 253 then mret 1
  else if varNumber <=? UINT16_MAX then mret 3
  else if varNumber <=? UINT32_MAX then mret 5
  else mret 9.
Definition appendVarNumber (varNumber : Z) : M Estimator Z := prependVarNumber varNumber.

Definition prependNonNegativeInteger (varNumber : Z) : M Estimator Z :=
  if varNumber <=? UINT8_MAX then mret 1
  else if varNumber <=? UINT16_MAX then mret 2
  else if varNumber <=? UINT32_MAX then mret 4
  else mret 8.
Definition appendNonNegativeInteger (varNumber : Z) : M Estimator Z :=
  prependNonNegativeInteger varNumber.

Definition prependByteArrayBlock (type : Z) (array : list byte) : M Estimator Z :=
  let n1 := Z.of_nat (length array) in
  n2 ← prependVarNumber (Z.of_nat (length array));
  n3 ← prependVarNumber type;
  mret (n1 + n2 + n3).
Definition appendByteArrayBlock (type : Z) (array : list byte) : M Estimator Z :=
  prependByteArrayBlock type array.

#[export] Instance impl : EncodingImpl Estimator := {
  prependByte := prependByte;
  appendByte := appendByte;
  prependByteArray := prependByteArray;
  appendByteArray := appendByteArray;
  prependRange := prependByteArray;
  appendRange := appendByteArray;
  prependVarNumber := prependVarNumber;
  appendVarNumber := appendVarNumber;
  prependNonNegativeInteger := prependNonNegativeInteger;
  appendNonNegativeInteger := appendNonNegativeInteger;
  prependByteArrayBlock := prependByteArrayBlock;
  appendByteArrayBlock := appendByteArrayBlock
}.
End Estimator.

Import Encoder(Encoder) Estimator(Estimator).
#[export] Existing Instances Encoder.impl Estimator.impl.

(** ** What a template may rely on

    [holds e bs]: the octets [bs] have been written to [e]; an estimator does not
    know its octets.  [emits m front back a]: the computation [m] writes [front]
    before and [back] after what has been written, and returns [a]. *)
Class Holds (E : Type) := holds : E -> list byte -> Prop.

Definition emits {E A} `{!Holds E} (m : M E A) (front back : list byte) (a : A) : Prop :=
  forall e bs, holds e bs -> exists e', m e = (e', inr a) /\ holds e' (front ++ bs ++ back).

Definition octets (bs : list byte) : Z := Z.of_nat (length bs).
Definition nonNegativeInteger (n : Z) : list byte := Tlv.prependNonNegativeInteger n [].
Definition element (type : Z) (value : list byte) : list byte :=
  writeVarNumber type ++ writeVarNumber (octets value) ++ value.

Create HintDb emits.
Class EncodingLaws (E : Type) `{!EncodingImpl E, !Holds E} : Prop := {
  emits_prependByte v : emits (prependByte v) [byte_of_Z v] [] 1;
  emits_appendByte v : emits (appendByte v) [] [byte_of_Z v] 1;
  emits_prependByteArray a : emits (prependByteArray a) a [] (octets a);
  emits_appendByteArray a : emits (appendByteArray a) [] a (octets a);
  emits_prependRange a : emits (prependRange a) a [] (octets a);
  emits_appendRange a : emits (appendRange a) [] a (octets a);
  emits_prependVarNumber n :
    emits (prependVarNumber n) (writeVarNumber n) [] (octets (writeVarNumber n));
  emits_appendVarNumber n :
    emits (appendVarNumber n) [] (writeVarNumber n) (octets (writeVarNumber n));
  emits_prependNonNegativeInteger n :
    emits (prependNonNegativeInteger n) (nonNegativeInteger n) []
      (octets (nonNegativeInteger n));
  emits_appendNonNegativeInteger n :
    emits (appendNonNegativeInteger n) [] (nonNegativeInteger n)
      (octets (nonNegativeInteger n));
  emits_prependByteArrayBlock t a :
    emits (prependByteArrayBlock t a) (element t a) [] (octets (element t a));
  emits_appendByteArrayBlock t a :
    emits (appendByteArrayBlock t a) [] (element t a) (octets (element t a))
}.

#[export] Hint Resolve emits_prependByte emits_appendByte emits_prependByteArray
  emits_appendByteArray emits_prependRange emits_appendRange emits_prependVarNumber
  emits_appendVarNumber emits_prependNonNegativeInteger emits_appendNonNegativeInteger
  emits_prependByteArrayBlock emits_appendByteArrayBlock : emits.

Section emits.
Context {E : Type} `{!Holds E}.

Lemma emits_ret {A} (a : A) : emits (E := E) (mret a) [] [] a.
Proof. intros e bs H. exists e. by rewrite app_nil_r. Qed.

Lemma emits_bind {A B} (m : M E A) (k : A -> M E B) f1 b1 f2 b2 a b :
  emits m f1 b1 a -> emits (k a) f2 b2 b -> emits (m ≫= k) (f2 ++ f1) (b1 ++ b2) b.
Proof.
  intros Hm Hk e bs H. destruct (Hm e bs H) as (e1 & E1 & H1).
  destruct (Hk e1 _ H1) as (e2 & E2 & H2). exists e2. split; [by rewrite (run_seq _ _ _ _ _ E1)|].
  by rewrite <-!app_assoc in *.
Qed.

(** The same with the octets and the result given up to an equation. *)
Lemma emits_eq {A} (m : M E A) f b (a : A) f' b' a' :
  emits m f b a -> f = f' -> b = b' -> a = a' -> emits m f' b' a'.
Proof. by intros H -> -> ->. Qed.
End emits.

#[export] Hint Resolve emits_ret : emits.

(** Walks through a template, collecting what each call writes. *)
Ltac emits :=
  eapply emits_eq;
  [ repeat (eapply emits_bind; [solve [eauto with emits typeclass_instances]|cbn beta]); solve [eauto with emits typeclass_instances]
  | .. ].

Lemma octets_app a b : octets (a ++ b) = octets a + octets b.
Proof. unfold octets. rewrite length_app. lia. Qed.
Lemma octets_nil : octets [] = 0.
Proof. done. Qed.
Lemma octets_nonneg bs : 0 <= octets bs.
Proof. unfold octets. lia. Qed.
#[export] Hint Resolve octets_nonneg : machine_int.
#[global] Arguments octets : simpl never.

Lemma octets_writeVarNumber n : octets (writeVarNumber n) = sizeOfVarNumber n.
Proof. apply sizeOfVarNumber_write. Qed.

Lemma octets_element t v :
  octets (element t v) = sizeOfVarNumber t + sizeOfVarNumber (octets v) + octets v.
Proof. unfold element. rewrite !octets_app, !octets_writeVarNumber. lia. Qed.

Lemma sizeOfVarNumber_le n : 1 <= sizeOfVarNumber n <= 9.
Proof. unfold sizeOfVarNumber. repeat case_match; lia. Qed.

(** ** The buffer obeys the laws *)
Module EncoderLaws.
Import Encoder.

Lemma new_ok totalReserve reserveFromBack :
  ok (new totalReserve reserveFromBack) /\ contents (new totalReserve reserveFromBack) = [].
Proof.
  unfold ok, new, contents. simpl. rewrite length_replicate, Nat.sub_diag. split; [lia|done].
Qed.

(** Growing keeps what was written and makes the room asked for. *)
Lemma reserve_ok n front e :
  ok e -> (length (m_buffer e) <= n)%nat ->
  ok (reserve n front e) /\ contents (reserve n front e) = contents e /\
  length (m_buffer (reserve n front e)) = n /\
  m_begin (reserve n front e)
    = (m_begin e + if front then n - length (m_buffer e) else 0)%nat /\
  m_end (reserve n front e)
    = (m_end e + if front then n - length (m_buffer e) else 0)%nat.
Proof.
  intros [H1 H2] Hn. unfold reserve, ok, contents.
  destruct (Nat.ltb_spec n (length (m_buffer e))) as [|_]; [lia|]. destruct front; simpl.
  - rewrite length_app, length_replicate.
    split_and!; [lia|lia| |lia..].
    replace (n - (length (m_buffer e) - m_end e) - (n - (length (m_buffer e) - m_begin e)))%nat
      with (m_end e - m_begin e)%nat by lia.
    rewrite drop_app_ge by (rewrite length_replicate; lia). rewrite length_replicate.
    do 2 f_equal. lia.
  - rewrite length_app, length_replicate. split_and!; [lia|lia| |lia..].
    rewrite drop_app_le, take_app_le; [done|rewrite length_drop; lia|lia].
Qed.

Lemma reserveFront_ok n e :
  ok e -> ok (reserveFront n e) /\ contents (reserveFront n e) = contents e /\
    (n <= m_begin (reserveFront n e))%nat.
Proof.
  intros He. unfold reserveFront. destruct (Nat.ltb_spec (m_begin e) n); [|done].
  destruct (reserve_ok (length (m_buffer e) * 2 + n) true e) as (? & ? & ? & -> & _);
    [done|lia|]. split_and!; [done..|lia].
Qed.

Lemma reserveBack_ok n e :
  ok e -> ok (reserveBack n e) /\ contents (reserveBack n e) = contents e /\
    (m_end (reserveBack n e) + n <= length (m_buffer (reserveBack n e)))%nat.
Proof.
  intros He. unfold reserveBack. destruct (Nat.ltb_spec (length (m_buffer e)) (m_end e + n)).
  - destruct (reserve_ok (length (m_buffer e) * 2 + n) false e) as (? & ? & -> & _ & ->);
      [done|lia|]. destruct He. split_and!; [done..|lia].
  - done.
Qed.

Lemma length_write_at pos a buf :
  (pos + length a <= length buf)%nat -> length (write_at pos a buf) = length buf.
Proof. intros H. unfold write_at. rewrite !length_app, length_take, length_drop. lia. Qed.

Lemma write_before pos a buf fin :
  (pos + length a <= fin)%nat -> (fin <= length buf)%nat ->
  take (fin - pos) (drop pos (write_at pos a buf))
  = a ++ take (fin - (pos + length a)) (drop (pos + length a) buf).
Proof.
  intros H1 H2. unfold write_at. rewrite drop_app_length' by (rewrite length_take; lia).
  rewrite take_app_ge by lia. f_equal. f_equal. lia.
Qed.

Lemma write_after pos a buf begin :
  (begin <= pos)%nat -> (pos + length a <= length buf)%nat ->
  take (pos + length a - begin) (drop begin (write_at pos a buf))
  = take (pos - begin) (drop begin buf) ++ a.
Proof.
  intros H1 H2. unfold write_at. rewrite drop_app_le by (rewrite length_take; lia).
  rewrite skipn_firstn_comm, app_assoc, take_app_length'; [done|].
  rewrite length_app, length_take, length_drop. lia.
Qed.

#[export] Instance encoder_holds : Holds Encoder := fun e bs => ok e /\ contents e = bs.

Lemma prepend_at e a :
  ok e -> (length a <= m_begin e)%nat ->
  let b := (m_begin e - length a)%nat in
  holds (mkEncoder (write_at b a (m_buffer e)) b (m_end e)) (a ++ contents e).
Proof.
  intros [H1 H2] Ha b. subst b. split; unfold ok, contents; simpl.
  - rewrite length_write_at by lia. lia.
  - rewrite write_before by lia. do 2 f_equal; [|f_equal]; lia.
Qed.

Lemma append_at e a :
  ok e -> (m_end e + length a <= length (m_buffer e))%nat ->
  holds (mkEncoder (write_at (m_end e) a (m_buffer e)) (m_begin e) (m_end e + length a))
    (contents e ++ a).
Proof.
  intros [H1 H2] Ha. split; unfold ok, contents; simpl.
  - rewrite length_write_at by lia. lia.
  - by apply write_after.
Qed.

Lemma prependByteArray_emits a : emits (prependByteArray a) a [] (octets a).
Proof.
  intros e bs [Hok <-]. destruct (reserveFront_ok (length a) e Hok) as (H1 & H2 & H3).
  eexists. split; [done|]. rewrite app_nil_r, <-H2. by apply prepend_at.
Qed.

Lemma appendByteArray_emits a : emits (appendByteArray a) [] a (octets a).
Proof.
  intros e bs [Hok <-]. destruct (reserveBack_ok (length a) e Hok) as (H1 & H2 & H3).
  eexists. split; [done|]. rewrite app_nil_l, <-H2. by apply append_at.
Qed.

(** A single octet is written as an array of one. *)
Lemma insert_write_at pos x buf :
  (pos < length buf)%nat -> <[pos := x]> buf = write_at pos [x] buf.
Proof.
  intros H. unfold write_at. simpl. rewrite insert_take_drop by done.
  by rewrite Nat.add_1_r.
Qed.

Lemma prependByte_emits v : emits (prependByte v) [byte_of_Z v] [] 1.
Proof.
  intros e bs [Hok <-]. destruct (reserveFront_ok 1 e Hok) as ([H0 H1] & H2 & H3).
  eexists. split; [done|]. rewrite app_nil_r, <-H2.
  rewrite insert_write_at by lia. by apply (prepend_at _ [byte_of_Z v]).
Qed.

Lemma appendByte_emits v : emits (appendByte v) [] [byte_of_Z v] 1.
Proof.
  intros e bs [Hok <-]. destruct (reserveBack_ok 1 e Hok) as ([H0 H1] & H2 & H3).
  eexists. split; [done|]. rewrite app_nil_l, <-H2.
  rewrite insert_write_at by lia. by apply (append_at _ [byte_of_Z v]).
Qed.

#[local] Hint Resolve prependByteArray_emits appendByteArray_emits prependByte_emits
  appendByte_emits : emits.

Lemma prependVarNumber_emits n :
  emits (prependVarNumber n) (writeVarNumber n) [] (octets (writeVarNumber n)).
Proof.
  rewrite octets_writeVarNumber. unfold prependVarNumber, writeVarNumber, sizeOfVarNumber.
  rewrite be_encode_1.
  repeat case_match; emits; done.
Qed.

Lemma appendVarNumber_emits n :
  emits (appendVarNumber n) [] (writeVarNumber n) (octets (writeVarNumber n)).
Proof.
  rewrite octets_writeVarNumber. unfold appendVarNumber, writeVarNumber, sizeOfVarNumber.
  rewrite be_encode_1. repeat case_match; emits; by rewrite ?app_nil_r.
Qed.

Lemma prependNonNegativeInteger_emits n :
  emits (prependNonNegativeInteger n) (nonNegativeInteger n) [] (octets (nonNegativeInteger n)).
Proof.
  unfold prependNonNegativeInteger, nonNegativeInteger, Tlv.prependNonNegativeInteger,
    Tlv.prependByte, Tlv.prependByteArray.
  repeat case_match; rewrite ?app_nil_r; first [apply prependByte_emits | apply prependByteArray_emits].
Qed.

Lemma appendNonNegativeInteger_emits n :
  emits (appendNonNegativeInteger n) [] (nonNegativeInteger n) (octets (nonNegativeInteger n)).
Proof.
  unfold appendNonNegativeInteger, nonNegativeInteger, Tlv.prependNonNegativeInteger,
    Tlv.prependByte, Tlv.prependByteArray.
  repeat case_match; rewrite ?app_nil_r; first [apply appendByte_emits | apply appendByteArray_emits].
Qed.

#[local] Hint Resolve prependVarNumber_emits appendVarNumber_emits : emits.

Lemma prependByteArrayBlock_emits t a :
  emits (prependByteArrayBlock t a) (element t a) [] (octets (element t a)).
Proof.
  unfold prependByteArrayBlock, element. emits; [by rewrite app_nil_l, app_assoc|done|].
  rewrite !octets_app. unfold octets. lia.
Qed.

Lemma appendByteArrayBlock_emits t a :
  emits (appendByteArrayBlock t a) [] (element t a) (octets (element t a)).
Proof.
  unfold appendByteArrayBlock, element. emits; [done|by rewrite app_nil_r|].
  rewrite !octets_app. unfold octets. lia.
Qed.

#[export] Instance encoder_laws : EncodingLaws Encoder.
Proof.
  split; intros; first
    [ apply prependByte_emits | apply appendByte_emits
    | apply prependByteArray_emits | apply appendByteArray_emits
    | apply prependVarNumber_emits | apply appendVarNumber_emits
    | apply prependNonNegativeInteger_emits | apply appendNonNegativeInteger_emits
    | apply prependByteArrayBlock_emits | apply appendByteArrayBlock_emits ].
Qed.
End EncoderLaws.

(** ** The estimator obeys them too *)
Module EstimatorLaws.
Import Estimator.

#[export] Instance estimator_holds : Holds Estimator := fun _ _ => True.

Lemma estimates {A} (a a' : A) f b : a = a' -> emits (E := Estimator) (mret a) f b a'.
Proof. intros -> e bs _. by exists e. Qed.

Lemma prependVarNumber_estimates n f b :
  emits (prependVarNumber n) f b (octets (writeVarNumber n)).
Proof.
  rewrite octets_writeVarNumber. unfold prependVarNumber, sizeOfVarNumber.
  repeat case_match; by apply estimates.
Qed.

Lemma prependNonNegativeInteger_estimates n f b :
  emits (prependNonNegativeInteger n) f b (octets (nonNegativeInteger n)).
Proof.
  unfold prependNonNegativeInteger, nonNegativeInteger, Tlv.prependNonNegativeInteger,
    Tlv.prependByte, Tlv.prependByteArray, octets.
  repeat case_match; rewrite ?app_nil_r, ?length_be_encode; by apply estimates.
Qed.

Lemma prependByteArrayBlock_estimates t a f b :
  emits (prependByteArrayBlock t a) f b (octets (element t a)).
Proof.
  intros e bs _. exists e. split; [|done]. unfold prependByteArrayBlock.
  destruct (prependVarNumber_estimates (Z.of_nat (length a)) [] [] e bs I) as ([] & E1 & _).
  destruct (prependVarNumber_estimates t [] [] mkEstimator bs I) as ([] & E2 & _).
  destruct e. rewrite (run_seq _ _ _ _ _ E1), (run_seq _ _ _ _ _ E2). unfold mret, M_ret.
  rewrite octets_element, !octets_writeVarNumber. unfold octets. do 2 f_equal. lia.
Qed.

#[export] Instance estimator_laws : EncodingLaws Estimator.
Proof.
  split; intros; first
    [ apply prependVarNumber_estimates | apply prependNonNegativeInteger_estimates
    | apply prependByteArrayBlock_estimates | by apply estimates ].
Qed.
End EstimatorLaws.

#[export] Existing Instances EncoderLaws.encoder_holds EncoderLaws.encoder_laws
  EstimatorLaws.estimator_holds EstimatorLaws.estimator_laws.
