(* ===== verification/Block.v ===== *)
(** * Block: one TLV element and its sub-elements

    Sources: [src/src/ndnSIM/ndn-cxx/src/encoding/block.{hpp,cpp}] and
    [block-helpers.{hpp,cpp}].  A block refers to a range of a shared buffer; the
    buffer's octets are part of the model's block and the iterators are offsets into
    them.  [parse] is a [const] method that changes the list of sub-elements, so it
    is a computation on the block. *)
From S2P Require Import Prelude Tlv Encoder.

Inductive Block := mkBlock {
  m_buffer : option (list byte);   (** the shared pointer to the buffer, if set *)
  m_type : Z;
  m_begin : nat;
  m_end : nat;
  m_size : Z;                      (** a [uint32_t] *)
  m_value_begin : nat;
  m_value_end : nat;
  m_subBlocks : list Block
}.

Definition set_subBlocks (l : list Block) (b : Block) : Block :=
  mkBlock (m_buffer b) (m_type b) (m_begin b) (m_end b) (m_size b)
    (m_value_begin b) (m_value_end b) l.

(** The octets between two iterators. *)
Definition slice (begin end_ : nat) (buffer : list byte) : list byte :=
  take (end_ - begin) (drop begin buffer).

Definition hasWire (b : Block) : bool :=
  match m_buffer b with Some _ => negb (m_begin b =? m_end b)%nat | None => false end.
Definition hasValue (b : Block) : bool :=
  match m_buffer b with Some _ => true | None => false end.
Definition empty (b : Block) : bool := m_type b =? UINT32_MAX.

Definition wire_empty {A} : exn + A := inl (TlvError "Underlying wire buffer is empty").

Definition begin_ (b : Block) : exn + nat := if hasWire b then inr (m_begin b) else wire_empty.
Definition end_ (b : Block) : exn + nat := if hasWire b then inr (m_end b) else wire_empty.

(** The octets behind the pointers that [wire] and [value] return. *)
Definition wire (b : Block) : exn + list byte :=
  if hasWire b then inr (slice (m_begin b) (m_end b) (default [] (m_buffer b))) else wire_empty.
Definition value (b : Block) : list byte :=
  slice (m_value_begin b) (m_value_end b) (default [] (m_buffer b)).
Definition value_size (b : Block) : Z :=
  if hasValue b then Z.of_nat (m_value_end b - m_value_begin b) else 0.
Definition size (b : Block) : exn + Z :=
  if hasWire b || hasValue b then inr (m_size b)
  else inl (TlvError "Block size cannot be determined (undefined block size)").

(** ** Construction *)

(** Type and length read from a range, with the iterator behind them. *)
Definition read_header (buffer : list byte) (begin end_ : nat) : exn + (Z * Z * nat) :=
  '(type, rest) ← readType_or_throw (slice begin end_ buffer);
  '(length_, rest) ← readVarNumber_or_throw rest;
  mret (type, length_, (end_ - length rest)%nat).

Definition Block_new : Block := mkBlock None UINT32_MAX 0 0 0 0 0 [].
Definition Block_of_type (type : Z) : Block := mkBlock None type 0 0 0 0 0 [].

(** The constructor that does no parsing. *)
Definition Block_at (wire : list byte) (type : Z) (begin end_ valueBegin valueEnd : nat) : Block :=
  mkBlock (Some wire) type begin end_ (u32 (Z.of_nat (end_ - begin))) valueBegin valueEnd [].

Definition Block_of_range (buffer : list byte) (begin end_ : nat) (verifyLength : bool)
    : exn + Block :=
  '(type, length_, value_begin) ← read_header buffer begin end_;
  if verifyLength && negb (length_ =? Z.of_nat (end_ - value_begin))
  then inl (TlvError "TLV length doesn't match buffer length")
  else mret (Block_at buffer type begin end_ value_begin end_).

Definition Block_of_buffer (buffer : list byte) : exn + Block :=
  Block_of_range buffer 0 (length buffer) true.

Definition Block_of_encoder (e : Encoder.Encoder) : exn + Block :=
  Block_of_range (Encoder.m_buffer e) (Encoder.m_begin e) (Encoder.m_end e) true.

(** A range of the buffer of an existing block. *)
Definition Block_of_block (block : Block) (begin end_ : nat) (verifyLength : bool) : exn + Block :=
  match m_buffer block with
  | None => inl (Undefined "a null buffer is dereferenced")
  | Some buffer =>
      if negb (begin <=? length buffer)%nat || negb (end_ <=? length buffer)%nat
      then inl (TlvError
        "begin/end iterators do not point to the underlying buffer of the block")
      else Block_of_range buffer begin end_ verifyLength
  end.

(** From raw memory of [maxlength] octets: the block's octets are copied. *)
Definition Block_of_memory (buffer : list byte) : exn + Block :=
  '(type, length_, value_begin) ← read_header buffer 0 (length buffer);
  if Z.of_nat (length buffer - value_begin) <? length_
  then inl (TlvError "Not enough data in the buffer to fully parse TLV")
  else
    let n := (value_begin + Z.to_nat length_)%nat in
    mret (Block_at (take n buffer) type 0 n value_begin n).

Definition value_block_size (type valueSize : Z) : Z :=
  u32 (sizeOfVarNumber type + sizeOfVarNumber valueSize + valueSize).

Definition Block_of_value (type : Z) (value : list byte) : Block :=
  let n := length value in
  mkBlock (Some value) type n n (value_block_size type (Z.of_nat n)) 0 n [].

Definition Block_of_nested (type : Z) (value : Block) : exn + Block :=
  match m_buffer value with
  | None => inl (Undefined "a null buffer is dereferenced")
  | Some buffer =>
      valueBegin ← begin_ value;
      valueEnd ← end_ value;
      mret (mkBlock (Some buffer) type (length buffer) (length buffer)
        (value_block_size type (Z.of_nat (valueEnd - valueBegin))) valueBegin valueEnd [])
  end.

(** [fromBuffer] does not throw. *)
Definition Block_fromBuffer (buffer : list byte) (offset : nat) : bool * Block :=
  match readType (drop offset buffer) with
  | None => (false, Block_new)
  | Some (type, rest) =>
      match readVarNumber rest with
      | None => (false, Block_new)
      | Some (length_, rest) =>
          if octets rest <? length_ then (false, Block_new)
          else
            let tempBegin := (length buffer - length rest)%nat in
            let tempEnd := (tempBegin + Z.to_nat length_)%nat in
            (true, Block_at buffer type offset tempEnd tempBegin tempEnd)
      end
  end.

Definition Block_fromMemory (buffer : list byte) : bool * Block :=
  match readType buffer with
  | None => (false, Block_new)
  | Some (type, rest) =>
      match readVarNumber rest with
      | None => (false, Block_new)
      | Some (length_, rest) =>
          if octets rest <? length_ then (false, Block_new)
          else
            let tempBegin := (length buffer - length rest)%nat in
            let n := (tempBegin + Z.to_nat length_)%nat in
            (true, Block_at (take n buffer) type 0 n tempBegin n)
      end
  end.

(** ** Encoding helpers ([block-helpers])

    A template is estimated first; an encoder of that size then makes the block. *)
Definition encoder_block (e : Encoder.Encoder) (verifyLength : bool) : exn + Block :=
  Block_of_range (Encoder.m_buffer e) (Encoder.m_begin e) (Encoder.m_end e) verifyLength.

Definition make_block (template : forall E, EncodingImpl E -> M E Z) : exn + Block :=
  totalLength ← (template _ Estimator.impl Estimator.mkEstimator).2;
  match template _ Encoder.impl (Encoder.new (Z.to_nat totalLength) 0) with
  | (_, inl e) => inl e
  | (encoder, inr _) => encoder_block encoder true
  end.

Section templates.
Context {E : Type} `{!EncodingImpl E}.

Definition prependNonNegativeIntegerBlock (type value : Z) : M E Z :=
  valueLength ← prependNonNegativeInteger value;
  n1 ← prependVarNumber valueLength;
  n2 ← prependVarNumber type;
  mret (valueLength + n1 + n2).

Definition prependEmptyBlock (type : Z) : M E Z :=
  n1 ← prependVarNumber 0;
  n2 ← prependVarNumber type;
  mret (n1 + n2).

Definition prependStringBlock (type : Z) (value : list byte) : M E Z :=
  valueLength ← prependByteArray value;
  n1 ← prependVarNumber valueLength;
  n2 ← prependVarNumber type;
  mret (valueLength + n1 + n2).

Definition prependNestedBlock (type : Z) (wireEncode : M E Z) : M E Z :=
  valueLength ← wireEncode;
  n1 ← prependVarNumber valueLength;
  n2 ← prependVarNumber type;
  mret (valueLength + n1 + n2).

(** [Encoder::prependBlock]; [Estimator::prependBlock] adds the same sizes. *)
Definition prependBlock (block : Block) : M E Z :=
  if hasWire block then octets_ ← lift_result (wire block); prependByteArray octets_
  else prependByteArrayBlock (m_type block) (value block).

Definition appendBlock (block : Block) : M E Z :=
  if hasWire block then octets_ ← lift_result (wire block); appendByteArray octets_
  else appendByteArrayBlock (m_type block) (value block).
End templates.

Definition makeNonNegativeIntegerBlock (type value : Z) : exn + Block :=
  make_block (fun E _ => prependNonNegativeIntegerBlock type value).
Definition makeEmptyBlock (type : Z) : exn + Block :=
  make_block (fun E _ => prependEmptyBlock type).
Definition makeStringBlock (type : Z) (value : list byte) : exn + Block :=
  make_block (fun E _ => prependStringBlock type value).
Definition makeBinaryBlock (type : Z) (value : list byte) : exn + Block :=
  make_block (fun E _ => prependByteArrayBlock type value).

(** [DataBlockFast] and [DataBlockSlow] make a block from a range of iterators. *)
Definition DataBlockFast_makeBlock (type : Z) (range : list byte) : exn + Block :=
  let valueLength := octets range in
  match (n1 ← prependVarNumber valueLength; n2 ← prependVarNumber type;
         mret (valueLength + n1 + n2) : M Estimator.Estimator Z) Estimator.mkEstimator with
  | (_, inl e) => inl e
  | (_, inr totalLength) =>
      match (prependRange range ;; prependVarNumber valueLength ;; prependVarNumber type
             : M Encoder.Encoder Z) (Encoder.new (Z.to_nat totalLength) 0) with
      | (_, inl e) => inl e
      | (encoder, inr _) => encoder_block encoder true
      end
  end.

Definition DataBlockSlow_makeBlock (type : Z) (range : list byte) : exn + Block :=
  match (valueLength ← appendRange range; prependVarNumber valueLength ;; prependVarNumber type
         : M Encoder.Encoder Z) (Encoder.new 4 4) with
  | (_, inl e) => inl e
  | (encoder, inr _) => encoder_block encoder true
  end.

Definition readNonNegativeInteger_block (block : Block) : exn + Z :=
  fst <$> readNonNegativeInteger (Z.to_nat (value_size block)) (value block).

Definition readString (block : Block) : list byte := value block.

(** ** Reading a block from a stream

    The stream is the list of octets it still holds.  The iterator has taken one
    octet more from the stream than it has delivered; it is dereferenced even when
    the stream had none left. *)
Definition MAX_SIZE_OF_BLOCK_FROM_STREAM : Z := 8800.

Definition stream_or_throw (r : option (Z * list byte)) (is_ : list byte)
    : exn + (Z * list byte) :=
  match is_ with
  | [] => inl (TlvError "Empty buffer during TLV processing")
  | _ => match r with
         | Some r => inr r
         | None => inl (TlvError "Insufficient data during TLV processing")
         end
  end.

Definition Block_fromStream (is_ : list byte) : exn + Block :=
  '(type, rest) ← stream_or_throw (readVarNumber_stream is_) is_;
  if UINT32_MAX <? type then inl (TlvError "TLV type code exceeds allowed maximum") else
  '(length_, rest) ← stream_or_throw (readVarNumber_stream rest) rest;
  if length_ =? 0 then makeEmptyBlock type else
  if MAX_SIZE_OF_BLOCK_FROM_STREAM <? length_
  then inl (TlvError "Length of block from stream is too large") else
  match rest with
  | [] => inl (Undefined "the end-of-stream iterator is dereferenced")
  | b :: rest =>
      let buf := b :: take (Z.to_nat (length_ - 1)) rest in
      if negb (length_ =? octets buf)
      then inl (TlvError "Not enough data in the buffer to fully parse TLV")
      else makeBinaryBlock type buf
  end.

(** ** Sub-elements *)

(** The loop of [parse]: the elements found so far, which an exception of the
    readers leaves behind, and the exit of the loop. *)
Fixpoint parse_loop (fuel : nat) (buffer : list byte) (begin end_ : nat)
    (subBlocks : list Block) : list Block * (exn + unit) :=
  if (begin =? end_)%nat then (subBlocks, inr tt) else
  match fuel with
  | O => (subBlocks, inl OutOfFuel)
  | S fuel =>
      match read_header buffer begin end_ with
      | inl e => (subBlocks, inl e)
      | inr (type, length_, value_begin) =>
          if Z.of_nat (end_ - value_begin) <? length_
          then ([], inl (TlvError "TLV length exceeds buffer length"))
          else
            let element_end := (value_begin + Z.to_nat length_)%nat in
            parse_loop fuel buffer element_end end_
              (subBlocks ++ [Block_at buffer type begin element_end value_begin element_end])
      end
  end.

Definition parse : M Block unit := fun b =>
  if negb (match m_subBlocks b with [] => true | _ => false end) || (value_size b =? 0)
  then (b, inr tt)
  else
    let '(subBlocks, r) :=
      parse_loop (m_value_end b - m_value_begin b) (default [] (m_buffer b))
        (m_value_begin b) (m_value_end b) [] in
    (set_subBlocks subBlocks b, r).

(** [encode] writes the value if there is one, otherwise the sub-elements. *)
Definition encode_subBlock (i : Block) : exn + list byte :=
  if hasWire i then wire i
  else if hasValue i then
    mret (writeVarNumber (m_type i) ++ writeVarNumber (value_size i) ++ value i)
  else inl (TlvError "Underlying value buffer is empty").

Fixpoint sum_sizes (l : list Block) : exn + Z :=
  match l with
  | [] => mret 0
  | i :: l => n ← size i; m ← sum_sizes l; mret (n + m)
  end.

Fixpoint encode_subBlocks (l : list Block) : exn + list byte :=
  match l with
  | [] => mret []
  | i :: l => bs ← encode_subBlock i; rest ← encode_subBlocks l; mret (bs ++ rest)
  end.

Definition encode_stream (b : Block) : exn + list byte :=
  let os := writeVarNumber (m_type b) in
  if hasValue b then mret (os ++ writeVarNumber (value_size b) ++ value b)
  else match m_subBlocks b with
       | [] => mret (os ++ writeVarNumber 0)
       | l =>
           valueSize ← sum_sizes l;
           elements ← encode_subBlocks l;
           mret (os ++ writeVarNumber valueSize ++ elements)
       end.

Definition encode : M Block unit :=
  b ← gets id;
  if hasWire b then mret tt else
  os ← lift_result (encode_stream b);
  '(_, _, value_begin) ← lift_result (read_header os 0 (length os));
  modify (fun b => mkBlock (Some os) (m_type b) 0 (length os) (u32 (octets os))
                     value_begin (length os) (m_subBlocks b)).

Definition find_element (type : Z) (b : Block) : option Block :=
  List.find (fun subBlock => m_type subBlock =? type) (m_subBlocks b).

Definition get (type : Z) (b : Block) : exn + Block :=
  match find_element type b with
  | Some e => inr e
  | None => inl (TlvError "(Block::get) Requested a non-existed type from Block")
  end.

Definition reset (b : Block) : Block :=
  mkBlock None UINT32_MAX 0 0 (m_size b) 0 0 [].
Definition resetWire (b : Block) : Block :=
  mkBlock None (m_type b) 0 0 (m_size b) 0 0 (m_subBlocks b).

Definition remove (type : Z) (b : Block) : Block :=
  let b := resetWire b in
  set_subBlocks (List.filter (fun subBlock => negb (m_type subBlock =? type)) (m_subBlocks b)) b.

Definition push_back (element : Block) (b : Block) : Block :=
  let b := resetWire b in set_subBlocks (m_subBlocks b ++ [element]) b.

(** [erase] and [insert] take positions of the list; those outside it have no meaning. *)
Definition erase_range (first last : nat) : M Block nat :=
  modify resetWire ;;
  b ← gets id;
  if ((first <=? last) && (last <=? length (m_subBlocks b)))%nat then
    modify (set_subBlocks (take first (m_subBlocks b) ++ drop last (m_subBlocks b))) ;;
    mret first
  else throw (Undefined "std::vector::erase of an invalid range").

Definition erase (position : nat) : M Block nat :=
  modify resetWire ;;
  b ← gets id;
  if (position <? length (m_subBlocks b))%nat then
    modify (set_subBlocks (delete position (m_subBlocks b))) ;;
    mret position
  else throw (Undefined "std::vector::erase of an invalid position").

Definition insert (pos : nat) (element : Block) : M Block nat :=
  modify resetWire ;;
  b ← gets id;
  if (pos <=? length (m_subBlocks b))%nat then
    modify (set_subBlocks (take pos (m_subBlocks b) ++ element :: drop pos (m_subBlocks b))) ;;
    mret pos
  else throw (Undefined "std::vector::insert at an invalid position").

Definition elements_size (b : Block) : nat := length (m_subBlocks b).

Definition blockFromValue (b : Block) : exn + Block :=
  if value_size b =? 0 then inl (TlvError "Underlying value buffer is empty") else
  let buffer := default [] (m_buffer b) in
  '(type, length_, value_begin) ← read_header buffer (m_value_begin b) (m_value_end b);
  if negb (length_ =? Z.of_nat (m_value_end b - value_begin))
  then inl (TlvError "TLV length mismatches buffer length")
  else mret (Block_at buffer type (m_value_begin b) (m_value_end b) value_begin (m_value_end b)).

(** [operator==]: sizes, then the octets of the two wires. *)
Definition block_eq (a b : Block) : exn + bool :=
  n ← size a;
  m ← size b;
  if negb (n =? m) then mret false else
  wa ← wire a;
  begin ← begin_ b;
  mret (bool_decide (take (length wa) (drop begin (default [] (m_buffer b))) = wa)).
Definition block_ne (a b : Block) : exn + bool := negb <$> block_eq a b.
