(* ===== verification/BlockSpec.v ===== *)
(** * BlockSpec: TLV elements, and what the block operations do with them

    [encodes w t v]: the octets [w] are a type, a length and the value [v], with
    either number in any of its forms; [element t v] is the shortest such [w].
    [tlv_stream bs els]: [bs] is a sequence of elements. *)
From S2P Require Import Prelude Tlv Encoder Block.

(** ** Elements *)
Definition encodes (w : list byte) (t : Z) (v : list byte) : Prop :=
  exists rest, readType w = Some (t, rest) /\ readVarNumber rest = Some (octets v, v).

Record Element := mkElement { el_type : Z; el_value : list byte; el_wire : list byte }.

#[export] Instance Element_eq_dec : EqDecision Element.
Proof. solve_decision. Defined.

Definition element_ok (e : Element) : Prop := encodes (el_wire e) (el_type e) (el_value e).

Inductive tlv_stream : list byte -> list Element -> Prop :=
| stream_nil : tlv_stream [] []
| stream_cons w t v bs els :
    encodes w t v -> tlv_stream bs els -> tlv_stream (w ++ bs) (mkElement t v w :: els).

Lemma encodes_element t v : u32_range t -> u64_range (octets v) -> encodes (element t v) t v.
Proof.
  intros Ht Hv. unfold encodes, element. eexists. split; [by apply readType_write|].
  by rewrite readVarNumber_write.
Qed.

(** The header of a wire: type and length, then exactly the value. *)
Lemma encodes_split w t v :
  encodes w t v -> exists h, w = h ++ v /\ (2 <= length h)%nat /\ u32_range t /\ u64_range (octets v).
Proof.
  intros (rest & H1 & H2). destruct (readType_split _ _ _ H1) as (h1 & -> & L1 & Ht & _).
  destruct (readVarNumber_split _ _ _ H2) as (h2 & -> & L2 & Hn & _).
  exists (h1 ++ h2). rewrite length_app, app_assoc. split_and!; [done|lia|done..].
Qed.

Lemma encodes_read w t v more :
  encodes w t v ->
  exists rest, readType (w ++ more) = Some (t, rest) /\
    readVarNumber rest = Some (octets v, v ++ more).
Proof.
  intros (rest & H1 & H2). exists (rest ++ more). split; [by apply readType_app|].
  by apply readVarNumber_app.
Qed.

(** Reading is deterministic: a sequence of octets starts with at most one element. *)
Lemma encodes_inj w t v w' t' v' bs bs' :
  encodes w t v -> encodes w' t' v' -> w ++ bs = w' ++ bs' ->
  w = w' /\ t = t' /\ v = v' /\ bs = bs'.
Proof.
  intros H H' E. destruct (encodes_read _ _ _ bs H) as (r & R1 & R2).
  destruct (encodes_read _ _ _ bs' H') as (r' & R1' & R2'). rewrite E in R1.
  rewrite R1 in R1'. injection R1' as -> ->. rewrite R2 in R2'. injection R2' as Hl Hv.
  assert (length v = length v') as Hlen by (unfold octets in Hl; lia).
  apply app_inj_1 in Hv as [-> ->]; [|done]. by apply app_inv_tail in E.
Qed.

Lemma tlv_stream_inj bs els els' : tlv_stream bs els -> tlv_stream bs els' -> els = els'.
Proof.
  intros H. revert els'. induction H as [|w t v bs els Hw Hs IH]; intros els' H'.
  - inversion H' as [|w ? ? ? ? Hw ? Hnil]; [done|]. destruct (encodes_split _ _ _ Hw) as (h & -> & Hl & _).
    apply (f_equal length) in Hnil. rewrite !length_app in Hnil. simpl in Hnil. lia.
  - inversion H' as [Hnil|w' t' v' bs' els'' Hw' Hs' E]; subst.
    + destruct (encodes_split _ _ _ Hw) as (h & -> & Hl & _).
      apply (f_equal length) in Hnil. rewrite !length_app in Hnil. simpl in Hnil. lia.
    + destruct (encodes_inj _ _ _ _ _ _ _ _ Hw' Hw E) as (-> & -> & -> & ->).
      f_equal. by apply IH.
Qed.

(** ** Ranges of a buffer *)
Lemma length_slice b e buf :
  (b <= e)%nat -> (e <= length buf)%nat -> length (slice b e buf) = (e - b)%nat.
Proof. intros H1 H2. unfold slice. rewrite length_take, length_drop. lia. Qed.

Lemma slice_all buf : slice 0 (length buf) buf = buf.
Proof. unfold slice. rewrite drop_0, Nat.sub_0_r. apply firstn_all. Qed.

Lemma slice_suffix b e p buf : drop p (slice b e buf) = slice (b + p) e buf.
Proof. unfold slice. rewrite skipn_firstn_comm, drop_drop. f_equal. lia. Qed.

Lemma slice_prefix b e p buf : (b + p <= e)%nat -> take p (slice b e buf) = slice b (b + p) buf.
Proof. intros H. unfold slice. rewrite take_take. f_equal. lia. Qed.

Lemma slice_tail (h v : list byte) :
  slice (length (h ++ v) - length v) (length (h ++ v)) (h ++ v) = v.
Proof.
  rewrite length_app. replace (length h + length v - length v)%nat with (length h) by lia.
  unfold slice. rewrite drop_app_length. apply take_ge. lia.
Qed.

Lemma slice_app_at b m e buf :
  (b <= m)%nat -> (m <= e)%nat -> slice b e buf = slice b m buf ++ slice m e buf.
Proof.
  intros H1 H2. unfold slice. rewrite <-(take_drop (m - b) (take (e - b) (drop b buf))).
  rewrite take_take, skipn_firstn_comm, drop_drop. f_equal; f_equal; [lia|lia|f_equal; lia].
Qed.

(** What [read_header] reads of a range that starts with an element. *)
Lemma readType_or_throw_some input n rest :
  readType input = Some (n, rest) -> readType_or_throw input = inr (n, rest).
Proof. intros H. destruct (readType_or_throw_eq input) as [(?&?&E&->)|[E _]]; congruence. Qed.

Lemma readVarNumber_or_throw_some input n rest :
  readVarNumber input = Some (n, rest) -> readVarNumber_or_throw input = inr (n, rest).
Proof. intros H. destruct (readVarNumber_or_throw_eq input) as [(?&?&E&->)|[E _]]; congruence. Qed.

Lemma read_header_encodes buf b e w t v more :
  (b <= e)%nat -> (e <= length buf)%nat -> slice b e buf = w ++ more -> encodes w t v ->
  read_header buf b e = inr (t, octets v, (b + (length w - length v))%nat).
Proof.
  intros H1 H2 E Hw. pose proof (length_slice b e buf H1 H2) as Hl. unfold read_header. rewrite E.
  destruct (encodes_read _ _ _ more Hw) as (r & R1 & R2).
  rewrite (readType_or_throw_some _ _ _ R1). cbn.
  rewrite (readVarNumber_or_throw_some _ _ _ R2). cbn. do 2 f_equal.
  rewrite E, length_app in Hl. destruct (encodes_split _ _ _ Hw) as (h & -> & _).
  rewrite !length_app in *. lia.
Qed.

(** And what follows from its success. *)
Lemma read_header_some buf b e t n p :
  (b <= e)%nat -> (e <= length buf)%nat -> read_header buf b e = inr (t, n, p) ->
  u32_range t /\ u64_range n /\ (b + 2 <= p)%nat /\ (p <= e)%nat /\
  forall q, (p <= q)%nat -> (q <= e)%nat -> octets (slice p q buf) = n ->
    encodes (slice b q buf) t (slice p q buf).
Proof.
  intros H1 H2. pose proof (length_slice b e buf H1 H2) as Hl. unfold read_header.
  destruct (readType_or_throw_eq (slice b e buf)) as [(t' & r1 & E1 & ->)|[_ [what ->]]]; [|done].
  cbn. destruct (readVarNumber_or_throw_eq r1) as [(n' & r2 & E2 & ->)|[_ [what ->]]]; [|done].
  cbn. intros [= -> -> <-].
  destruct (readType_split _ _ _ E1) as (h1 & Es & L1 & Ht & F1).
  destruct (readVarNumber_split _ _ _ E2) as (h2 & -> & L2 & Hn & F2).
  rewrite Es, !length_app in Hl. split_and!; [done|done|lia|lia|].
  intros q Hp Hq Ho. set (p := (e - length r2)%nat) in *.
  assert (slice b p buf = h1 ++ h2) as Hh.
  { replace p with (b + length (h1 ++ h2))%nat by (rewrite length_app; subst p; lia).
    rewrite <-(slice_prefix _ e) by (rewrite length_app; lia).
    rewrite Es, app_assoc. by rewrite take_app_length. }
  rewrite (slice_app_at b p) by (subst p; lia). rewrite Hh, <-app_assoc.
  exists (h2 ++ slice p q buf). by rewrite F1, F2, Ho.
Qed.

(** ** Well-formed blocks

    The iterators are ordered and inside the buffer; a wire is an encoding of type
    and value and ends where the value ends; the recorded size is that of the wire,
    or the one it will have.  The sub-elements of a block with a value are a prefix of
    that value: all of it, unless [parse] was left by an exception. *)
Definition own_ok (b : Block) : Prop :=
  u32_range (m_type b) /\
  match m_buffer b with
  | None => True
  | Some buffer =>
      (m_begin b <= m_end b)%nat /\ (m_end b <= length buffer)%nat /\
      (m_value_begin b <= m_value_end b)%nat /\ (m_value_end b <= length buffer)%nat /\
      (if hasWire b
       then m_value_end b = m_end b /\ (m_begin b < m_value_begin b)%nat /\
            m_size b = u32 (Z.of_nat (m_end b - m_begin b)) /\
            encodes (slice (m_begin b) (m_end b) buffer) (m_type b) (value b)
       else m_size b = value_block_size (m_type b) (value_size b)) /\
      exists elements rest, encode_subBlocks (m_subBlocks b) = inr elements /\
        value b = elements ++ rest
  end.

Inductive block_ok : Block -> Prop :=
| block_ok_intro b : own_ok b -> Forall block_ok (m_subBlocks b) -> block_ok b.

Lemma block_ok_own b : block_ok b -> own_ok b.
Proof. by destruct 1. Qed.
Lemma block_ok_sub b : block_ok b -> Forall block_ok (m_subBlocks b).
Proof. by destruct 1. Qed.

(** A block that has a wire, as its users see it. *)
Definition is_element (e : Element) (b : Block) : Prop :=
  hasWire b = true /\ m_type b = el_type e /\ value b = el_value e /\ wire b = inr (el_wire e).

(** ... and nothing but a wire: no sub-elements yet. *)
Definition fresh (e : Element) (b : Block) : Prop :=
  block_ok b /\ is_element e b /\ m_subBlocks b = [].

Lemma fresh_wire e b : fresh e b -> hasWire b = true.
Proof. by intros (_ & (H & _) & _). Qed.

Lemma own_ok_encodes b :
  own_ok b -> hasWire b = true -> exists w, wire b = inr w /\ encodes w (m_type b) (value b).
Proof.
  intros [_ H] Hw. unfold wire. rewrite Hw in H |- *. eexists. split; [done|].
  unfold hasWire in Hw. destruct (m_buffer b); [|done]. apply H.
Qed.

Lemma is_element_ok e b : own_ok b -> is_element e b -> element_ok e.
Proof.
  intros Hb (H1 & H2 & H3 & H4). destruct (own_ok_encodes b Hb H1) as (w & Hw & He).
  unfold element_ok. rewrite <-H2, <-H3. congruence.
Qed.

Lemma value_size_octets b : own_ok b -> value_size b = octets (value b).
Proof.
  intros [_ H]. unfold value_size, hasValue, value, octets. destruct (m_buffer b); simpl.
  - rewrite length_slice; [done|apply H..].
  - unfold slice. by rewrite drop_nil, take_nil.
Qed.

Lemma value_of_buffer b buf :
  m_buffer b = Some buf -> value b = slice (m_value_begin b) (m_value_end b) buf.
Proof. intros H. unfold value. by rewrite H. Qed.

(** A range that holds exactly one element. *)
Lemma Block_at_fresh buf t begin_ end_ vb :
  (begin_ < vb)%nat -> (vb <= end_)%nat -> (end_ <= length buf)%nat -> u32_range t ->
  encodes (slice begin_ end_ buf) t (slice vb end_ buf) ->
  fresh (mkElement t (slice vb end_ buf) (slice begin_ end_ buf))
    (Block_at buf t begin_ end_ vb end_).
Proof.
  intros H1 H2 H3 Ht He.
  assert (hasWire (Block_at buf t begin_ end_ vb end_) = true) as Hw.
  { unfold hasWire. simpl. destruct (Nat.eqb_spec begin_ end_); [lia|done]. }
  assert (wire (Block_at buf t begin_ end_ vb end_) = inr (slice begin_ end_ buf)) as Hwire.
  { unfold wire. by rewrite Hw. }
  split; [|done]. constructor; [|by constructor]. split; [done|]. rewrite Hw. simpl.
  split_and!; [lia|lia|lia|lia|done|lia|done|done|by exists [], (slice vb end_ buf)].
Qed.

(** The two ways a range is accepted. *)
Lemma Block_of_range_ok buf b e blk :
  (b <= e)%nat -> (e <= length buf)%nat -> Block_of_range buf b e true = inr blk ->
  exists t v, fresh (mkElement t v (slice b e buf)) blk.
Proof.
  intros H1 H2. unfold Block_of_range.
  destruct (read_header buf b e) as [ex|[[t n] p]] eqn:E; [done|]. cbn.
  destruct (Z.eqb_spec n (Z.of_nat (e - p))) as [->|]; [|done]. cbn. intros [= <-].
  destruct (read_header_some _ _ _ _ _ _ H1 H2 E) as (Ht & Hn & Hb & Hp & He).
  exists t, (slice p e buf). apply Block_at_fresh; [lia|lia|done|done|].
  apply He; [lia|lia|]. unfold octets. by rewrite length_slice by lia.
Qed.

Lemma Block_of_range_encodes buf b e w t v :
  (b <= e)%nat -> (e <= length buf)%nat -> slice b e buf = w -> encodes w t v ->
  exists blk, Block_of_range buf b e true = inr blk /\ fresh (mkElement t v w) blk.
Proof.
  intros H1 H2 Hs Hw. destruct (Block_of_range buf b e true) as [ex|blk] eqn:E.
  - exfalso. unfold Block_of_range in E. pose proof (length_slice b e buf H1 H2) as Hl.
    rewrite (read_header_encodes buf b e w t v []) in E by (rewrite ?app_nil_r; done).
    cbn in E. destruct (encodes_split _ _ _ Hw) as (h & -> & _). rewrite Hs, length_app in Hl.
    rewrite length_app in E.
    destruct (Z.eqb_spec (octets v) (Z.of_nat (e - (b + (length h + length v - length v))))); [done|].
    unfold octets in *. lia.
  - exists blk. split; [done|]. destruct (Block_of_range_ok _ _ _ _ H1 H2 E) as (t' & v' & Hf).
    rewrite Hs in Hf. assert (encodes w t' v') as Hw'.
    { destruct Hf as (Hok & Hel & _). apply (is_element_ok _ _ (block_ok_own _ Hok) Hel). }
    destruct (encodes_inj _ _ _ _ _ _ [] [] Hw Hw') as (_ & -> & -> & _); done.
Qed.

(** ** Blocks made by templates *)
Lemma encoder_block_element (e : Encoder.Encoder) t v :
  u32_range t -> u64_range (octets v) -> holds e (element t v) ->
  exists b, encoder_block e true = inr b /\ fresh (mkElement t v (element t v)) b.
Proof.
  intros Ht Hv [[H1 H2] Hc]. apply Block_of_range_encodes; [done..|]. by apply encodes_element.
Qed.

(** A template that writes an element makes a block of it, in a buffer of the size
    that the estimator found. *)
Lemma make_block_element (template : forall E, EncodingImpl E -> M E Z) t v :
  u32_range t -> u64_range (octets v) ->
  (forall E (I : EncodingImpl E) (H : Holds E), EncodingLaws E ->
     emits (template E I) (element t v) [] (octets (element t v))) ->
  exists b, make_block template = inr b /\ fresh (mkElement t v (element t v)) b.
Proof.
  intros Ht Hv H. unfold make_block.
  destruct (H _ _ _ EstimatorLaws.estimator_laws Estimator.mkEstimator [] I) as (? & E1 & _).
  rewrite E1. cbn.
  destruct (H _ _ _ EncoderLaws.encoder_laws
    (Encoder.new (Z.to_nat (octets (element t v))) 0) []) as (e & E2 & He).
  { apply EncoderLaws.new_ok. }
  rewrite E2. rewrite !app_nil_r in He. by apply encoder_block_element.
Qed.

Section template_emits.
Context {E : Type} `{HE : EncodingLaws E}.

Lemma emits_block_header (m : M E Z) t v :
  emits m v [] (octets v) ->
  emits (prependNestedBlock t m) (element t v) [] (octets (element t v)).
Proof.
  intros Hm. unfold prependNestedBlock. eapply emits_eq.
  - eapply emits_bind; [exact Hm|]. eapply emits_bind; [apply emits_prependVarNumber|].
    eapply emits_bind; [apply emits_prependVarNumber|apply emits_ret].
  - unfold element. by rewrite app_nil_l, app_assoc.
  - done.
  - unfold element. rewrite !octets_app. lia.
Qed.

Lemma emits_prependNonNegativeIntegerBlock t n :
  emits (prependNonNegativeIntegerBlock t n) (element t (nonNegativeInteger n)) []
    (octets (element t (nonNegativeInteger n))).
Proof. apply emits_block_header, emits_prependNonNegativeInteger. Qed.

Lemma emits_prependStringBlock t v :
  emits (prependStringBlock t v) (element t v) [] (octets (element t v)).
Proof. apply emits_block_header, emits_prependByteArray. Qed.

Lemma emits_prependEmptyBlock t :
  emits (prependEmptyBlock t) (element t []) [] (octets (element t [])).
Proof.
  unfold prependEmptyBlock. emits; [by rewrite app_nil_l|done|].
  unfold element. rewrite !octets_app, octets_nil. lia.
Qed.

(** A block with a wire is copied, one with a value alone gets its header. *)
Lemma emits_prependBlock_wire e b :
  is_element e b -> emits (prependBlock b) (el_wire e) [] (octets (el_wire e)).
Proof.
  intros (H1 & _ & _ & H4). unfold prependBlock. rewrite H1, H4.
  intros s bs Hs. destruct (emits_prependByteArray (el_wire e) s bs Hs) as (s' & E1 & Hs').
  exists s'. split; [|done]. by rewrite run_lift_inr.
Qed.

Lemma emits_appendBlock_wire e b :
  is_element e b -> emits (appendBlock b) [] (el_wire e) (octets (el_wire e)).
Proof.
  intros (H1 & _ & _ & H4). unfold appendBlock. rewrite H1, H4.
  intros s bs Hs. destruct (emits_appendByteArray (el_wire e) s bs Hs) as (s' & E1 & Hs').
  exists s'. split; [|done]. by rewrite run_lift_inr.
Qed.

Lemma emits_prependBlock_value b :
  hasWire b = false ->
  emits (prependBlock b) (element (m_type b) (value b)) []
    (octets (element (m_type b) (value b))).
Proof. intros H. unfold prependBlock. rewrite H. apply emits_prependByteArrayBlock. Qed.
End template_emits.

#[export] Hint Resolve emits_prependNonNegativeIntegerBlock emits_prependStringBlock
  emits_prependEmptyBlock : emits.

Lemma makeBinaryBlock_spec t v :
  u32_range t -> u64_range (octets v) ->
  exists b, makeBinaryBlock t v = inr b /\ fresh (mkElement t v (element t v)) b.
Proof. intros. apply make_block_element; eauto with emits. Qed.

Lemma makeStringBlock_spec t v :
  u32_range t -> u64_range (octets v) ->
  exists b, makeStringBlock t v = inr b /\ fresh (mkElement t v (element t v)) b.
Proof. intros. apply make_block_element; eauto with emits. Qed.

Lemma makeEmptyBlock_spec t :
  u32_range t -> exists b, makeEmptyBlock t = inr b /\ fresh (mkElement t [] (element t [])) b.
Proof. intros. apply make_block_element; eauto with emits; done. Qed.

Lemma octets_nonNegativeInteger n :
  octets (nonNegativeInteger n) <= 8 /\ (1 <= length (nonNegativeInteger n))%nat.
Proof.
  unfold nonNegativeInteger, Tlv.prependNonNegativeInteger, Tlv.prependByte,
    Tlv.prependByteArray, octets.
  repeat case_match; rewrite ?app_nil_r, ?length_be_encode; cbn [length]; lia.
Qed.

Lemma nonNegativeInteger_range n : u64_range (octets (nonNegativeInteger n)).
Proof. pose proof (octets_nonNegativeInteger n). unfold u64_range. unfold octets in *. lia. Qed.

Lemma makeNonNegativeIntegerBlock_spec t n :
  u32_range t -> exists b, makeNonNegativeIntegerBlock t n = inr b /\
    fresh (mkElement t (nonNegativeInteger n) (element t (nonNegativeInteger n))) b.
Proof.
  intros. apply make_block_element; [done|apply nonNegativeInteger_range|]. eauto with emits.
Qed.

(** Reading a number back. *)
Lemma readNonNegativeInteger_nonNegativeInteger n :
  u64_range n ->
  readNonNegativeInteger (length (nonNegativeInteger n)) (nonNegativeInteger n) = inr (n, []).
Proof.
  intros Hn. destruct (readNonNegativeInteger_prepend n [] Hn) as (w & Hw & Hr).
  rewrite app_nil_r in Hr. unfold nonNegativeInteger. by rewrite Hw.
Qed.

Lemma readNonNegativeInteger_block_spec b n :
  own_ok b -> value b = nonNegativeInteger n -> u64_range n ->
  readNonNegativeInteger_block b = inr n.
Proof.
  intros Hb Hv Hn. unfold readNonNegativeInteger_block. rewrite (value_size_octets b Hb), Hv.
  unfold octets. rewrite Nat2Z.id, readNonNegativeInteger_nonNegativeInteger by done. done.
Qed.

(** The two ways to make a block of a range agree with [makeBinaryBlock]: the second,
    which knows no size in advance, grows its buffer as it goes. *)
Lemma DataBlock_spec t v :
  u32_range t -> u64_range (octets v) ->
  (exists b, DataBlockFast_makeBlock t v = inr b /\ fresh (mkElement t v (element t v)) b) /\
  (exists b, DataBlockSlow_makeBlock t v = inr b /\ fresh (mkElement t v (element t v)) b).
Proof.
  intros Ht Hv. split.
  - unfold DataBlockFast_makeBlock. cbv zeta.
    assert (forall E (I : EncodingImpl E) (H : Holds E), EncodingLaws E -> exists total,
      emits (n1 ← prependVarNumber (octets v); n2 ← prependVarNumber t;
             mret (octets v + n1 + n2) : M E Z)
        (writeVarNumber t ++ writeVarNumber (octets v)) [] total) as H1.
    { intros E I H L. eexists. emits; [by rewrite app_nil_l|done|done]. }
    destruct (H1 _ _ _ EstimatorLaws.estimator_laws) as (total & H1').
    destruct (H1' Estimator.mkEstimator [] I) as (? & -> & _).
    assert (emits (E := Encoder.Encoder)
      (prependRange v ;; prependVarNumber (octets v) ;; prependVarNumber t) (element t v) []
      (octets (writeVarNumber t))) as H2.
    { unfold element. emits; [by rewrite app_assoc|done|done]. }
    destruct (H2 (Encoder.new (Z.to_nat total) 0) []) as (e & -> & He); [apply EncoderLaws.new_ok|].
    rewrite !app_nil_r in He. by apply encoder_block_element.
  - unfold DataBlockSlow_makeBlock.
    assert (emits (E := Encoder.Encoder)
      (valueLength ← appendRange v; prependVarNumber valueLength ;; prependVarNumber t)
      (writeVarNumber t ++ writeVarNumber (octets v)) v (octets (writeVarNumber t))) as H2.
    { emits; [by rewrite app_nil_r|by rewrite !app_nil_r|done]. }
    destruct (H2 (Encoder.new 4 4) []) as (e & -> & He); [apply EncoderLaws.new_ok|].
    rewrite <-app_assoc in He. by apply encoder_block_element.
Qed.

(** ** [parse] *)
Lemma tlv_stream_wires bs els :
  tlv_stream bs els <-> bs = concat (el_wire <$> els) /\ Forall element_ok els.
Proof.
  split.
  - induction 1 as [|w t v bs els Hw _ [-> IH]]; [done|]. split; [done|]. by constructor.
  - intros [-> H]. induction H as [|[t v w] els Hw _ IH]; [constructor|]. by constructor.
Qed.

Lemma tlv_stream_app bs1 els1 bs2 els2 :
  tlv_stream bs1 els1 -> tlv_stream bs2 els2 -> tlv_stream (bs1 ++ bs2) (els1 ++ els2).
Proof.
  rewrite !tlv_stream_wires. intros [-> H1] [-> H2].
  rewrite fmap_app, concat_app. split; [done|]. by apply Forall_app.
Qed.

(** The elements that a loop left by an exception had found, if it kept them. *)
Definition found_before (bs : list byte) (acc subs : list Block) : Prop :=
  subs = [] \/
  exists els blks rest, subs = acc ++ blks /\ Forall2 fresh els blks /\
    bs = concat (el_wire <$> els) ++ rest.

(** A range that is not empty starts with an element, or the body of the loop throws. *)
Lemma read_element buf b e :
  (b < e)%nat -> (e <= length buf)%nat ->
  (exists t n p q, read_header buf b e = inr (t, n, p) /\ n <= Z.of_nat (e - p) /\
     q = (p + Z.to_nat n)%nat /\ (b < q)%nat /\ (q <= e)%nat /\
     encodes (slice b q buf) t (slice p q buf) /\
     fresh (mkElement t (slice p q buf) (slice b q buf)) (Block_at buf t b q p q)) \/
  ((forall w t v bs, encodes w t v -> slice b e buf <> w ++ bs) /\
   ((exists what, read_header buf b e = inl (TlvError what)) \/
    (exists t n p, read_header buf b e = inr (t, n, p) /\ Z.of_nat (e - p) < n))).
Proof.
  intros Hbe H2. assert (b <= e)%nat as H1 by lia.
  destruct (read_header buf b e) as [ex|[[t n] p]] eqn:E.
  - right. split.
    + intros w t v bs Hw Es. by rewrite (read_header_encodes _ _ _ _ _ _ _ H1 H2 Es Hw) in E.
    + left. unfold read_header in E.
      destruct (readType_or_throw_eq (slice b e buf)) as [(?&r&_&Er)|[_ [what Er]]];
        rewrite Er in E; [|injection E as <-; by exists what]. cbn in E.
      destruct (readVarNumber_or_throw_eq r) as [(?&?&_&Er')|[_ [what Er']]]; rewrite Er' in E;
        [done|]. injection E as <-. by exists what.
  - destruct (read_header_some _ _ _ _ _ _ H1 H2 E) as (Ht & [Hn _] & Hb & Hp & He).
    destruct (Z.ltb_spec (Z.of_nat (e - p)) n) as [Hlong|Hn'].
    + right. split; [|right; by exists t, n, p]. intros w t' v bs Hw Es.
      rewrite (read_header_encodes _ _ _ _ _ _ _ H1 H2 Es Hw) in E. injection E as -> <- <-.
      pose proof (length_slice b e buf H1 H2) as Hl. rewrite Es in Hl.
      destruct (encodes_split _ _ _ Hw) as (h & -> & _). rewrite !length_app in *.
      unfold octets in *. lia.
    + left. exists t, n, p, (p + Z.to_nat n)%nat.
      assert (encodes (slice b (p + Z.to_nat n) buf) t (slice p (p + Z.to_nat n) buf)) as Hw.
      { apply He; [lia..|]. unfold octets. rewrite length_slice by lia. lia. }
      split_and!; [done|done|done|lia|lia|done|]. apply Block_at_fresh; (lia || done).
Qed.

Lemma tlv_stream_cons_inv bs els :
  tlv_stream bs els -> bs <> [] ->
  exists w t v bs' els', els = mkElement t v w :: els' /\ encodes w t v /\
    bs = w ++ bs' /\ tlv_stream bs' els'.
Proof. destruct 1 as [|w t v bs els Hw Hs]; [done|]. intros _. by exists w, t, v, bs, els. Qed.

Lemma parse_loop_spec fuel buf b e acc :
  (b <= e)%nat -> (e <= length buf)%nat -> (e - b <= fuel)%nat ->
  (exists els blks, tlv_stream (slice b e buf) els /\ Forall2 fresh els blks /\
     parse_loop fuel buf b e acc = (acc ++ blks, inr tt)) \/
  ((forall els, ~ tlv_stream (slice b e buf) els) /\
   exists subs what, parse_loop fuel buf b e acc = (subs, inl (TlvError what)) /\
     found_before (slice b e buf) acc subs).
Proof.
  revert b acc. induction fuel as [|fuel IH]; intros b acc H1 H2 Hf; cbn [parse_loop];
    (destruct (Nat.eqb_spec b e) as [->|Hne];
      [left; exists [], []; unfold slice; rewrite Nat.sub_diag, app_nil_r;
       split_and!; by constructor|]); [lia|].
  assert (slice b e buf <> []) as Hnil.
  { intros Hs. apply (f_equal length) in Hs. rewrite length_slice in Hs by done. simpl in Hs. lia. }
  destruct (read_element buf b e) as [(t & n & p & q & -> & Hn & -> & Hb & Hq & He & Hfresh)|[Hno Hex]];
    [lia|done| |].
  - destruct (Z.ltb_spec (Z.of_nat (e - p)) n); [lia|]. set (q := (p + Z.to_nat n)%nat) in *.
    assert (slice b e buf = slice b q buf ++ slice q e buf) as Es by (apply slice_app_at; lia).
    destruct (IH q (acc ++ [Block_at buf t b q p q]))
      as [(els & blks & Hs & Hall & ->)|(Hno & subs & what & -> & Hbefore)]; [lia|done|lia| |].
    + left. exists (mkElement t (slice p q buf) (slice b q buf) :: els),
        (Block_at buf t b q p q :: blks).
      rewrite Es, <-app_assoc. split_and!; [by constructor|by constructor|done].
    + right. split.
      * intros els Hs. destruct (tlv_stream_cons_inv _ _ Hs Hnil) as (w & t' & v & bs & els' & -> & Hw & E & Hs').
        rewrite Es in E. destruct (encodes_inj _ _ _ _ _ _ _ _ Hw He (eq_sym E)) as (_ & _ & _ & ->).
        by eapply Hno.
      * exists subs, what. split; [done|].
        destruct Hbefore as [->|(els & blks & rest & -> & Hall & Hr)]; [by left|right].
        exists (mkElement t (slice p q buf) (slice b q buf) :: els),
          (Block_at buf t b q p q :: blks), rest.
        rewrite <-app_assoc. split_and!; [done|by constructor|]. simpl. by rewrite Es, Hr, <-app_assoc.
  - right. split.
    + intros els Hs. destruct (tlv_stream_cons_inv _ _ Hs Hnil) as (w & t & v & bs & els' & -> & Hw & E & _).
      by eapply Hno.
    + destruct Hex as [[what ->]|(t & n & p & -> & Hn)].
      * exists acc, what. split; [done|]. right. exists [], [], (slice b e buf). by rewrite app_nil_r.
      * destruct (Z.ltb_spec (Z.of_nat (e - p)) n); [|lia].
        exists [], "TLV length exceeds buffer length". split; [done|by left].
Qed.

Lemma encode_subBlocks_elements els blks :
  Forall2 is_element els blks -> encode_subBlocks blks = inr (concat (el_wire <$> els)).
Proof.
  induction 1 as [|e b els blks (H1 & _ & _ & H4) _ IH]; [done|].
  cbn [encode_subBlocks]. unfold encode_subBlock. rewrite H1, H4. cbn. by rewrite IH.
Qed.

Lemma Forall2_fresh_elements els blks : Forall2 fresh els blks -> Forall2 is_element els blks.
Proof. intros H. eapply Forall2_impl; [exact H|]. by intros e b (_ & He & _). Qed.

Lemma Forall2_fresh_ok els blks : Forall2 fresh els blks -> Forall block_ok blks.
Proof. induction 1 as [|e b els blks (Hb & _) _ IH]; by constructor. Qed.

Lemma hasWire_set_subBlocks l b : hasWire (set_subBlocks l b) = hasWire b.
Proof. done. Qed.

(** A block keeps its shape when sub-elements that make a prefix of its value are put in. *)
Lemma set_subBlocks_ok b l elements rest :
  own_ok b -> Forall block_ok l -> encode_subBlocks l = inr elements ->
  value b = elements ++ rest -> block_ok (set_subBlocks l b).
Proof.
  intros [Ht Hb] Hl He Hv. constructor; [|done]. split; [done|]. simpl.
  destruct (m_buffer b) eqn:Em; [|done].
  destruct Hb as (H1 & H2 & H3 & H4 & H5 & _). split_and!; [done..| |by exists elements, rest].
  rewrite hasWire_set_subBlocks. destruct (hasWire b); done.
Qed.

(** [parse] of a block that has no sub-elements: all elements of a value that is a
    sequence of elements; otherwise it throws. *)
Lemma parse_fresh b :
  own_ok b -> m_subBlocks b = [] ->
  (exists els blks, tlv_stream (value b) els /\ Forall2 fresh els blks /\
     parse b = (set_subBlocks blks b, inr tt)) \/
  ((forall els, ~ tlv_stream (value b) els) /\
   exists subs what, parse b = (set_subBlocks subs b, inl (TlvError what)) /\
     found_before (value b) [] subs).
Proof.
  intros Hb Hs. unfold parse. rewrite Hs. cbn [negb orb].
  pose proof (value_size_octets b Hb) as Hvs.
  destruct (Z.eqb_spec (value_size b) 0) as [H0|H0].
  { left. assert (value b = []) as -> by (unfold octets in Hvs; destruct (value b); simpl in *; [done|lia]).
    exists [], []. split_and!; [constructor|constructor|]. destruct b; simpl in *. by rewrite Hs. }
  destruct Hb as [_ Hb]. unfold value, value_size, hasValue in *.
  destruct (m_buffer b) as [buf|] eqn:Em; [|done]. cbn [from_option id] in *.
  destruct Hb as (_ & _ & H3 & H4 & _).
  destruct (parse_loop_spec (m_value_end b - m_value_begin b) buf (m_value_begin b)
    (m_value_end b) []) as [(els & blks & H & Hall & ->)|(Hno & subs & what & -> & Hbf)];
    [done|done|done| |].
  - left. by exists els, blks.
  - right. split; [done|]. by exists subs, what.
Qed.

(** With sub-elements present nothing is read. *)
Lemma parse_again b : m_subBlocks b <> [] -> parse b = (b, inr tt).
Proof. intros H. unfold parse. by destruct (m_subBlocks b). Qed.

Lemma parse_ok b : block_ok b -> block_ok (parse b).1.
Proof.
  intros Hb. destruct (m_subBlocks b) eqn:Es; [|rewrite parse_again by (by rewrite Es); done].
  destruct (parse_fresh b (block_ok_own _ Hb) Es)
    as [(els & blks & H & Hall & ->)|(Hno & subs & what & -> & Hbf)]; cbn.
  - apply tlv_stream_wires in H as [Hv _].
    apply (set_subBlocks_ok _ _ (concat (el_wire <$> els)) []); [by apply block_ok_own|
      by eapply Forall2_fresh_ok|by apply encode_subBlocks_elements, Forall2_fresh_elements|].
    by rewrite app_nil_r.
  - destruct Hbf as [->|(els & blks & rest & -> & Hall & Hr)].
    + by apply (set_subBlocks_ok _ _ [] (value b)); [apply block_ok_own|constructor| |].
    + apply (set_subBlocks_ok _ _ (concat (el_wire <$> els)) rest); [by apply block_ok_own|
        by eapply Forall2_fresh_ok|by apply encode_subBlocks_elements, Forall2_fresh_elements|done].
Qed.

(** ** [encode] *)
Lemma hasWire_hasValue b : hasWire b = true -> hasValue b = true.
Proof. unfold hasWire, hasValue. by destruct (m_buffer b). Qed.

(** A block without a value has no size: neither the sum of sizes nor the encoding of a
    list that holds one is defined. *)
Lemma encode_subBlock_spec i :
  own_ok i ->
  (hasValue i = true /\ exists bs, encode_subBlock i = inr bs /\ size i = inr (u32 (octets bs))) \/
  (hasValue i = false /\ (exists what, encode_subBlock i = inl (TlvError what)) /\
     exists what, size i = inl (TlvError what)).
Proof.
  intros Hi. unfold encode_subBlock, size. destruct (hasWire i) eqn:Ew.
  - left. split; [by apply hasWire_hasValue|]. destruct (own_ok_encodes i Hi Ew) as (w & Hw & He).
    exists w. split; [done|]. cbn. f_equal.
    destruct Hi as [_ Hi]. unfold wire in Hw. rewrite Ew in Hw, Hi. injection Hw as <-.
    unfold hasWire in Ew. destruct (m_buffer i); [|done]. simpl.
    destruct Hi as (H1 & H2 & _ & _ & (_ & _ & -> & _) & _). unfold octets.
    by rewrite length_slice.
  - unfold hasValue. destruct (m_buffer i) as [buf|] eqn:Eb.
    + left. split; [done|]. eexists. split; [done|].
      destruct Hi as [Ht Hi]. cbn. f_equal. pose proof (value_size_octets i (conj Ht Hi)) as Hv.
      rewrite Eb, Ew in Hi. destruct Hi as (_ & _ & _ & _ & -> & _).
      unfold value_block_size. rewrite Hv. f_equal. rewrite !octets_app, !octets_writeVarNumber. lia.
    + right. split; [done|]. split; by eexists.
Qed.

Lemma sum_sizes_spec l bs :
  Forall own_ok l -> encode_subBlocks l = inr bs -> u32_range (octets bs) ->
  sum_sizes l = inr (octets bs).
Proof.
  intros H. revert bs. induction H as [|i l Hi _ IH]; intros bs; cbn [encode_subBlocks sum_sizes].
  { by intros [= <-]. }
  destruct (encode_subBlock_spec i Hi) as [(_ & w & -> & ->)|(_ & [what ->] & _)]; [|done].
  cbn. destruct (encode_subBlocks l) as [|rest]; [done|]. cbn. intros [= <-].
  rewrite octets_app. intros Hr. pose proof (octets_nonneg w). pose proof (octets_nonneg rest).
  rewrite (IH rest eq_refl) by (unfold u32_range in *; lia). cbn. f_equal.
  rewrite u32_id by (unfold u32_range in *; lia). done.
Qed.

Lemma sum_sizes_raises l ex :
  Forall own_ok l -> encode_subBlocks l = inl ex -> exists what, sum_sizes l = inl (TlvError what).
Proof.
  induction 1 as [|i l Hi _ IH]; cbn [encode_subBlocks sum_sizes]; [done|].
  destruct (encode_subBlock_spec i Hi) as [(_ & w & -> & ->)|(_ & _ & [what ->])]; cbn; [|eauto].
  destruct (encode_subBlocks l); [|done]. cbn. intros [= ->].
  destruct (IH eq_refl) as [what ->]. by exists what.
Qed.

(** The value [encode] gives a block that has no wire. *)
Definition encoded_value (b : Block) : exn + list byte :=
  if hasValue b then inr (value b) else encode_subBlocks (m_subBlocks b).

Lemma encode_stream_spec b v :
  block_ok b -> encoded_value b = inr v -> u32_range (octets v) ->
  encode_stream b = inr (element (m_type b) v).
Proof.
  intros Hb Hv Hr. unfold encode_stream, encoded_value in *. destruct (hasValue b).
  - injection Hv as <-. unfold element. by rewrite <-value_size_octets by apply block_ok_own, Hb.
  - destruct (m_subBlocks b) as [|i l] eqn:El.
    + injection Hv as <-. by unfold element; rewrite octets_nil.
    + assert (Forall own_ok (i :: l)) as Hl.
      { rewrite <-El. eapply Forall_impl; [apply block_ok_sub, Hb|]. apply block_ok_own. }
      rewrite (sum_sizes_spec _ _ Hl Hv Hr). cbn [mbind result_bind]. rewrite Hv. done.
Qed.

Lemma encode_spec b v :
  block_ok b -> hasWire b = false -> encoded_value b = inr v ->
  u32_range (octets v) ->
  exists b', encode b = (b', inr tt) /\ block_ok b' /\ m_subBlocks b' = m_subBlocks b /\
    is_element (mkElement (m_type b) v (element (m_type b) v)) b'.
Proof.
  intros Hb Hw Hv Hr. unfold encode. rewrite run_gets. cbn [id]. rewrite Hw.
  rewrite (encode_stream_spec b v Hb Hv Hr), run_lift_inr.
  set (os := element (m_type b) v).
  assert (encodes os (m_type b) v) as He.
  { apply encodes_element; [apply (block_ok_own _ Hb)|]. unfold u32_range, u64_range in *. lia. }
  rewrite (read_header_encodes os 0 (length os) os (m_type b) v [])
    by (rewrite ?slice_all, ?app_nil_r; (lia || done)).
  rewrite run_lift_inr. eexists. split; [done|].
  destruct (encodes_split _ _ _ He) as (h & Eh & Hl & _ & _). cbn [id].
  assert (length os = (length h + length v)%nat) as Hos by (by rewrite Eh, length_app).
  set (b' := mkBlock _ _ _ _ _ _ _ _).
  assert (hasWire b' = true) as Hw'.
  { unfold b', hasWire. cbn [m_buffer m_begin m_end].
    destruct (Nat.eqb_spec 0 (length os)); [lia|done]. }
  assert (value b' = v) as Hv'.
  { unfold value, b'. cbn [m_buffer m_value_begin m_value_end from_option]. rewrite Eh.
    apply slice_tail. }
  assert (wire b' = inr os) as Hwire by (unfold wire; rewrite Hw'; simpl; by rewrite slice_all).
  split; [|done]. constructor; [|apply (block_ok_sub _ Hb)]. split; [apply (block_ok_own _ Hb)|].
  rewrite Hw', Hv'. cbn [b' m_buffer m_begin m_end m_value_begin m_value_end m_size m_type m_subBlocks].
  rewrite slice_all. split_and!; [lia|lia|lia|lia|done|lia|by rewrite Nat.sub_0_r|done|].
  unfold encoded_value in Hv. destruct (hasValue b) eqn:Eb.
  - injection Hv as <-. pose proof (block_ok_own _ Hb) as [_ Ho]. unfold hasValue in Eb.
    destruct (m_buffer b); [|done]. apply Ho.
  - exists v, []. by rewrite app_nil_r.
Qed.

(** Without a wire and with a sub-element that has no value, [encode] throws and
    changes nothing. *)
Lemma encode_raises b ex :
  block_ok b -> hasWire b = false -> encoded_value b = inl ex ->
  exists what, encode b = (b, inl (TlvError what)).
Proof.
  intros Hb Hw Hv. unfold encode. rewrite run_gets. cbn [id]. rewrite Hw.
  unfold encoded_value in Hv. unfold encode_stream. destruct (hasValue b); [done|].
  destruct (m_subBlocks b) as [|i l] eqn:El; [done|].
  destruct (sum_sizes_raises (i :: l) ex) as [what Hs]; [|done|].
  - rewrite <-El. eapply Forall_impl; [apply block_ok_sub, Hb|]. apply block_ok_own.
  - rewrite Hs. by exists what.
Qed.

Lemma encode_wired b : hasWire b = true -> encode b = (b, inr tt).
Proof. intros H. unfold encode. rewrite run_gets. cbn [id]. by rewrite H. Qed.

(** ** Every block that can be made is well formed *)
Lemma Block_of_type_ok t : u32_range t -> block_ok (Block_of_type t).
Proof. intros Ht. constructor; [by split|constructor]. Qed.

Lemma Block_new_ok : block_ok Block_new.
Proof. constructor; [|constructor]. split; [|done]. unfold u32_range; simpl; unfold UINT32_MAX; lia. Qed.

Lemma Block_of_value_ok t v : u32_range t -> block_ok (Block_of_value t v).
Proof.
  intros Ht. constructor; [|constructor]. split; [done|]. simpl.
  assert (hasWire (Block_of_value t v) = false) as ->.
  { unfold hasWire. simpl. by rewrite Nat.eqb_refl. }
  split_and!; [lia|lia|lia|lia| |by exists [], (value (Block_of_value t v))].
  unfold value_size. simpl. by rewrite Nat.sub_0_r.
Qed.

Lemma Block_of_nested_ok t b b' :
  u32_range t -> block_ok b -> Block_of_nested t b = inr b' ->
  block_ok b' /\ hasWire b' = false /\ m_type b' = t /\ wire b = inr (value b').
Proof.
  intros Ht Hb. pose proof (block_ok_own _ Hb) as [_ Ho]. unfold Block_of_nested, begin_, end_.
  destruct (m_buffer b) as [buf|] eqn:Eb; [|done].
  destruct (hasWire b) eqn:Ew; [|done]. cbn. intros [= <-].
  destruct Ho as (H1 & H2 & _).
  set (b' := mkBlock _ _ _ _ _ _ _ _).
  assert (hasWire b' = false) as Hw' by (unfold b', hasWire; simpl; by rewrite Nat.eqb_refl).
  split_and!; [|done|done|].
  - constructor; [|constructor]. split; [done|]. rewrite Hw'. simpl.
    split_and!; [lia|lia|done|done|done|by exists [], (value b')].
  - unfold wire. by rewrite Ew, Eb.
Qed.

Lemma Block_of_block_ok b begin end_ b' :
  (begin <= end_)%nat -> Block_of_block b begin end_ true = inr b' -> block_ok b'.
Proof.
  intros H. unfold Block_of_block. destruct (m_buffer b) as [buf|]; [|done].
  destruct (Nat.leb_spec begin (length buf)); [|done].
  destruct (Nat.leb_spec end_ (length buf)); [|done]. cbn.
  intros Hr. by destruct (Block_of_range_ok buf begin end_ b' ltac:(done) ltac:(done) Hr)
    as (t & v & Hf & _).
Qed.

(** Reading a block at the front of a buffer: exactly when it starts with an element. *)
Lemma slice_drop_all k (buf : list byte) : slice k (length buf) buf = drop k buf.
Proof. unfold slice. apply take_ge. by rewrite length_drop. Qed.

Lemma slice_take_mid a b n (buf : list byte) : (b <= n)%nat -> slice a b (take n buf) = slice a b buf.
Proof. intros H. unfold slice. rewrite skipn_firstn_comm, take_take. f_equal. lia. Qed.

Lemma Block_of_memory_ok buf b :
  Block_of_memory buf = inr b ->
  exists t v w more, fresh (mkElement t v w) b /\ buf = w ++ more.
Proof.
  unfold Block_of_memory. destruct (read_header buf 0 (length buf)) as [ex|[[t n] p]] eqn:E; [done|].
  cbn. destruct (Z.ltb_spec (Z.of_nat (length buf - p)) n) as [|Hn]; [done|]. intros [= <-].
  destruct (read_header_some _ _ _ _ _ _ (Nat.le_0_l _) (le_n _) E) as (Ht & [Hn0 _] & Hb & Hp & He).
  set (q := (p + Z.to_nat n)%nat). specialize (He q ltac:(subst q; lia) ltac:(subst q; lia)).
  exists t, (slice p q buf), (slice 0 q buf), (drop q buf). split.
  - rewrite <-(slice_take_mid p q q buf), <-(slice_take_mid 0 q q buf) by lia.
    apply Block_at_fresh; [lia|lia|rewrite length_take; subst q; lia|done|].
    rewrite !slice_take_mid by lia. apply He.
    unfold octets. rewrite length_slice by (subst q; lia). subst q. lia.
  - unfold slice. rewrite drop_0, Nat.sub_0_r. symmetry. apply take_drop.
Qed.

Lemma read_header_options buf b e t r n r' :
  readType (slice b e buf) = Some (t, r) -> readVarNumber r = Some (n, r') ->
  read_header buf b e = inr (t, n, (e - length r')%nat).
Proof.
  intros H1 H2. unfold read_header. rewrite (readType_or_throw_some _ _ _ H1). cbn.
  by rewrite (readVarNumber_or_throw_some _ _ _ H2).
Qed.

Lemma octets_read_le buf b t r n r' :
  (b <= length buf)%nat ->
  readType (drop b buf) = Some (t, r) -> readVarNumber r = Some (n, r') ->
  octets r' = Z.of_nat (length buf - (length buf - length r')).
Proof.
  intros Hb H1 H2. destruct (readType_split _ _ _ H1) as (h1 & E1 & _).
  destruct (readVarNumber_split _ _ _ H2) as (h2 & -> & _). apply (f_equal length) in E1.
  rewrite length_drop, !length_app in E1. unfold octets. lia.
Qed.

(** [fromBuffer] finds the element that a position of a buffer starts with, or none. *)
Lemma Block_fromBuffer_spec buf offset :
  (offset <= length buf)%nat ->
  (exists t v w more b, Block_fromBuffer buf offset = (true, b) /\ fresh (mkElement t v w) b /\
     drop offset buf = w ++ more) \/
  (Block_fromBuffer buf offset = (false, Block_new) /\
   forall t v w more, encodes w t v -> drop offset buf <> w ++ more).
Proof.
  intros Ho. unfold Block_fromBuffer.
  destruct (readType (drop offset buf)) as [[t r]|] eqn:E1.
  2: { right. split; [done|]. intros t v w more Hw Es.
       destruct (encodes_read _ _ _ more Hw) as (r & R1 & _). rewrite <-Es in R1. congruence. }
  destruct (readVarNumber r) as [[n r']|] eqn:E2.
  2: { right. split; [done|]. intros t' v w more Hw Es.
       destruct (encodes_read _ _ _ more Hw) as (r' & R1 & R2). rewrite <-Es in R1. congruence. }
  rewrite (octets_read_le buf offset t r n r' Ho E1 E2).
  set (p := (length buf - length r')%nat).
  assert (read_header buf offset (length buf) = inr (t, n, p)) as E
    by (apply (read_header_options _ _ _ _ r); [by rewrite slice_drop_all|done]).
  destruct (decide (offset = length buf)) as [->|Hne].
  { exfalso. by rewrite drop_all in E1. }
  destruct (read_element buf offset (length buf))
    as [(t' & n' & p' & q & E' & Hn & -> & Hb & Hq & He & Hfresh)|[Hno Hex]]; [lia|done| |].
  - rewrite E in E'. injection E' as <- <- <-. left.
    destruct (Z.ltb_spec (Z.of_nat (length buf - p)) n); [lia|].
    exists t, (slice p (p + Z.to_nat n) buf), (slice offset (p + Z.to_nat n) buf),
      (drop (p + Z.to_nat n) buf). eexists. split_and!; [done|done|].
    rewrite <-!slice_drop_all. apply slice_app_at; lia.
  - right. rewrite slice_drop_all in Hno. destruct Hex as [[what E']|(t' & n' & p' & E' & Hlt)];
      rewrite E in E'; [done|]. injection E' as <- <- <-.
    destruct (Z.ltb_spec (Z.of_nat (length buf - p)) n); [|lia]. split; [done|].
    intros t' v w more Hw. by apply (Hno w t' v).
Qed.

(** The copying overload reads the same element. *)
Lemma Block_fromMemory_eq buf :
  (Block_fromMemory buf).1 = (Block_fromBuffer buf 0).1 /\
  ((Block_fromMemory buf).1 = true ->
   m_type (Block_fromMemory buf).2 = m_type (Block_fromBuffer buf 0).2 /\
   wire (Block_fromMemory buf).2 = wire (Block_fromBuffer buf 0).2 /\
   value (Block_fromMemory buf).2 = value (Block_fromBuffer buf 0).2).
Proof.
  unfold Block_fromMemory, Block_fromBuffer. rewrite drop_0.
  destruct (readType buf) as [[t r]|]; [|done]. destruct (readVarNumber r) as [[n r']|]; [|done].
  destruct (octets r' <? n); [done|]. split; [done|]. intros _. simpl.
  set (q := (length buf - length r' + Z.to_nat n)%nat).
  split_and!; [done| |by unfold value; simpl; rewrite slice_take_mid].
  unfold wire, hasWire. simpl. destruct q; [done|]. simpl. by rewrite slice_take_mid.
Qed.

(** ** The stream reader *)
Lemma stream_or_throw_eq input :
  stream_or_throw (readVarNumber_stream input) input = readVarNumber_or_throw input.
Proof. unfold stream_or_throw, readVarNumber_or_throw. by rewrite readVarNumber_stream_eq. Qed.

Lemma Block_fromStream_header is_ :
  Block_fromStream is_ =
    ('(type, rest) ← readType_or_throw is_;
     '(length_, rest) ← readVarNumber_or_throw rest;
     if length_ =? 0 then makeEmptyBlock type else
     if MAX_SIZE_OF_BLOCK_FROM_STREAM <? length_
     then inl (TlvError "Length of block from stream is too large") else
     match rest with
     | [] => inl (Undefined "the end-of-stream iterator is dereferenced")
     | b :: rest =>
         let buf := b :: take (Z.to_nat (length_ - 1)) rest in
         if negb (length_ =? octets buf)
         then inl (TlvError "Not enough data in the buffer to fully parse TLV")
         else makeBinaryBlock type buf
     end).
Proof.
  unfold Block_fromStream, readType_or_throw. rewrite stream_or_throw_eq.
  destruct (readVarNumber_or_throw is_) as [e|[t r]]; [done|]. cbn.
  destruct (UINT32_MAX <? t); [done|]. cbn. by rewrite stream_or_throw_eq.
Qed.

(** The octets that [fromStream] accepts: an element whose value has at most 8800. *)
Lemma fromStream_complete t v w more :
  encodes w t v -> octets v <= MAX_SIZE_OF_BLOCK_FROM_STREAM ->
  exists b, Block_fromStream (w ++ more) = inr b /\ fresh (mkElement t v (element t v)) b.
Proof.
  intros Hw Hv. destruct (encodes_read _ _ _ more Hw) as (r & R1 & R2).
  rewrite Block_fromStream_header, (readType_or_throw_some _ _ _ R1). cbn.
  rewrite (readVarNumber_or_throw_some _ _ _ R2). cbn.
  destruct (encodes_split _ _ _ Hw) as (_ & _ & _ & Ht & Hn).
  destruct v as [|b v].
  { rewrite octets_nil. cbn. by apply makeEmptyBlock_spec. }
  destruct (Z.eqb_spec (octets (b :: v)) 0) as [H0|_]; [unfold octets in H0; simpl in H0; lia|].
  destruct (Z.ltb_spec MAX_SIZE_OF_BLOCK_FROM_STREAM (octets (b :: v))); [lia|]. cbn [app].
  rewrite take_app_length' by (unfold octets; simpl; lia).
  rewrite Z.eqb_refl. cbn. by apply makeBinaryBlock_spec.
Qed.

Lemma fromStream_sound is_ b :
  Block_fromStream is_ = inr b ->
  exists t v w more, is_ = w ++ more /\ encodes w t v /\
    octets v <= MAX_SIZE_OF_BLOCK_FROM_STREAM /\ fresh (mkElement t v (element t v)) b.
Proof.
  intros Hb. assert (exists t v w more, is_ = w ++ more /\ encodes w t v /\
    octets v <= MAX_SIZE_OF_BLOCK_FROM_STREAM) as (t & v & w & more & -> & Hw & Hv).
  { rewrite Block_fromStream_header in Hb.
    destruct (readType_or_throw_eq is_) as [(t & r & R1 & R1')|[_ [what R1']]]; rewrite R1' in Hb; [|done].
    cbn in Hb. destruct (readVarNumber_or_throw_eq r) as [(n & r' & R2 & R2')|[_ [what R2']]];
      rewrite R2' in Hb; [|done]. cbn in Hb.
    destruct (readType_split _ _ _ R1) as (h1 & -> & _ & _ & F1).
    destruct (readVarNumber_split _ _ _ R2) as (h2 & -> & _ & Hn & F2).
    assert (forall v more, r' = v ++ more -> n = octets v -> n <= MAX_SIZE_OF_BLOCK_FROM_STREAM ->
      exists t v w more, h1 ++ h2 ++ r' = w ++ more /\ encodes w t v /\
        octets v <= MAX_SIZE_OF_BLOCK_FROM_STREAM) as Hmk.
    { intros v more -> -> Hle. exists t, v, (h1 ++ h2 ++ v), more. rewrite <-!app_assoc.
      split_and!; [done| |done]. exists (h2 ++ v). by rewrite F1, F2. }
    destruct (Z.eqb_spec n 0) as [->|Hn0]; [by apply (Hmk [] r')|].
    destruct (Z.ltb_spec MAX_SIZE_OF_BLOCK_FROM_STREAM n) as [|Hmax]; [done|].
    destruct r' as [|x r']; [done|]. cbv zeta in Hb.
    set (buf := x :: take (Z.to_nat (n - 1)) r') in *.
    destruct (Z.eqb_spec n (octets buf)) as [Ho|]; [|done].
    apply (Hmk buf (drop (Z.to_nat (n - 1)) r')); [|done|done].
    unfold buf. cbn [app]. by rewrite take_drop. }
  exists t, v, w, more. split_and!; [done..|].
  destruct (fromStream_complete t v w more Hw Hv) as (b' & E & Hf). congruence.
Qed.

(** Where it fails: with a TLV error, or by dereferencing the end-of-stream iterator
    when the stream ends with the header of a value that is not empty. *)
Lemma fromStream_fails is_ ex :
  Block_fromStream is_ = inl ex ->
  (exists what, ex = TlvError what) \/
  (exists t r n, ex = Undefined "the end-of-stream iterator is dereferenced" /\
     readType is_ = Some (t, r) /\ readVarNumber r = Some (n, []) /\
     0 < n <= MAX_SIZE_OF_BLOCK_FROM_STREAM).
Proof.
  rewrite Block_fromStream_header.
  destruct (readType_or_throw_eq is_) as [(t & r & R1 & ->)|[_ [what ->]]];
    [|intros [= <-]; eauto].
  cbn. destruct (readVarNumber_or_throw_eq r) as [(n & r' & R2 & ->)|[_ [what ->]]];
    [|intros [= <-]; eauto]. cbn.
  destruct (readType_split _ _ _ R1) as (h1 & _ & _ & Ht & _).
  destruct (readVarNumber_split _ _ _ R2) as (h2 & _ & _ & [Hn _] & _).
  destruct (Z.eqb_spec n 0) as [->|Hn0].
  { destruct (makeEmptyBlock_spec t Ht) as (b & -> & _). done. }
  destruct (Z.ltb_spec MAX_SIZE_OF_BLOCK_FROM_STREAM n) as [|Hmax]; [intros [= <-]; eauto|].
  destruct r' as [|x r'].
  { intros [= <-]. right. exists t, r, n. split_and!; [done|done|done|lia|done]. }
  cbv zeta. set (buf := x :: take (Z.to_nat (n - 1)) r').
  destruct (Z.eqb_spec n (octets buf)) as [Ho|]; [|intros [= <-]; eauto]. cbn.
  destruct (makeBinaryBlock_spec t buf Ht) as (b & -> & _); [|done].
  rewrite <-Ho. unfold MAX_SIZE_OF_BLOCK_FROM_STREAM, u64_range in *. lia.
Qed.

(** ** Changing the sub-elements *)
Lemma resetWire_ok b l : u32_range (m_type b) -> Forall block_ok l -> block_ok (set_subBlocks l (resetWire b)).
Proof. intros Ht Hl. constructor; [by split|done]. Qed.

Lemma type_range b : block_ok b -> u32_range (m_type b).
Proof. intros H. apply (block_ok_own _ H). Qed.

Lemma Forall_filter_bool {A} (P : A -> Prop) (p : A -> bool) l : Forall P l -> Forall P (List.filter p l).
Proof. induction 1 as [|x l Hx _ IH]; simpl; [constructor|]. destruct (p x); by try constructor. Qed.

Lemma remove_ok t b : block_ok b -> block_ok (remove t b).
Proof. intros H. apply resetWire_ok; [by apply type_range|]. apply Forall_filter_bool, (block_ok_sub _ H). Qed.

Lemma push_back_ok e b : block_ok e -> block_ok b -> block_ok (push_back e b).
Proof.
  intros He H. apply resetWire_ok; [by apply type_range|]. apply Forall_app. split; [|by constructor].
  apply (block_ok_sub _ H).
Qed.

Lemma just_resetWire_ok b : block_ok b -> block_ok (resetWire b).
Proof. intros H. apply (resetWire_ok b (m_subBlocks b)); [by apply type_range|apply (block_ok_sub _ H)]. Qed.

Lemma erase_range_ok first last b : block_ok b -> block_ok (erase_range first last b).1.
Proof.
  intros H. unfold erase_range. rewrite run_modify, run_gets. cbn [id].
  destruct (_ && _); [|by apply just_resetWire_ok]. rewrite run_modify.
  apply resetWire_ok; [by apply type_range|]. pose proof (block_ok_sub _ H) as Hs.
  apply Forall_app. split; [by apply Forall_take|by apply Forall_drop].
Qed.

Lemma erase_ok position b : block_ok b -> block_ok (erase position b).1.
Proof.
  intros H. unfold erase. rewrite run_modify, run_gets. cbn [id].
  destruct (_ <? _)%nat; [|by apply just_resetWire_ok]. rewrite run_modify.
  apply resetWire_ok; [by apply type_range|]. apply Forall_delete, (block_ok_sub _ H).
Qed.

Lemma insert_ok pos e b : block_ok e -> block_ok b -> block_ok (insert pos e b).1.
Proof.
  intros He H. unfold insert. rewrite run_modify, run_gets. cbn [id].
  destruct (_ <=? _)%nat; [|by apply just_resetWire_ok]. rewrite run_modify.
  apply resetWire_ok; [by apply type_range|]. pose proof (block_ok_sub _ H) as Hs.
  apply Forall_app. split; [by apply Forall_take|constructor; [done|by apply Forall_drop]].
Qed.

Lemma get_ok t b e : block_ok b -> get t b = inr e -> block_ok e /\ m_type e = t.
Proof.
  intros H. unfold get. destruct (find_element t b) as [e'|] eqn:E; [|done]. intros [= <-].
  apply find_some in E as [Hin Ht]. split; [|by apply Z.eqb_eq].
  pose proof (block_ok_sub _ H) as Hs. rewrite Forall_forall in Hs. apply Hs.
  by apply list_elem_of_In.
Qed.

Lemma encode_ok b :
  block_ok b ->
  (forall v, encoded_value b = inr v -> u32_range (octets v)) -> block_ok (encode b).1.
Proof.
  intros H Hv. destruct (hasWire b) eqn:Ew; [by rewrite encode_wired|].
  destruct (encoded_value b) as [ex|v] eqn:E.
  - destruct (encode_raises b ex H Ew E) as [what ->]. done.
  - destruct (encode_spec b v H Ew E (Hv v eq_refl)) as (b' & -> & Hb' & _). done.
Qed.

Lemma blockFromValue_spec b b' :
  block_ok b -> blockFromValue b = inr b' ->
  exists t v, fresh (mkElement t v (value b)) b' /\ encodes (value b) t v.
Proof.
  intros H. pose proof (block_ok_own _ H) as Ho. unfold blockFromValue.
  destruct (Z.eqb_spec (value_size b) 0); [done|]. destruct Ho as [_ Ho].
  unfold value, value_size, hasValue in *. destruct (m_buffer b) as [buf|]; [|done].
  cbn [from_option id]. destruct Ho as (_ & _ & H3 & H4 & _).
  intros Hb'. assert (Block_of_range buf (m_value_begin b) (m_value_end b) true = inr b') as Hr.
  { unfold Block_of_range. revert Hb'.
    destruct (read_header buf (m_value_begin b) (m_value_end b)) as [|[[t n'] p]]; [done|]. cbn.
    by destruct (negb _). }
  destruct (Block_of_range_ok _ _ _ _ H3 H4 Hr) as (t & v & Hf). exists t, v. split; [done|].
  destruct Hf as (Hok & He & _). apply (is_element_ok _ _ (block_ok_own _ Hok) He).
Qed.

Lemma blockFromValue_encodes b t v :
  own_ok b -> encodes (value b) t v ->
  exists b', blockFromValue b = inr b' /\ fresh (mkElement t v (value b)) b'.
Proof.
  intros Ho He. pose proof (value_size_octets b Ho) as Hs.
  destruct (encodes_split _ _ _ He) as (h & Eh & Hh & _). unfold blockFromValue.
  destruct (Z.eqb_spec (value_size b) 0) as [H0|_].
  { rewrite Hs, Eh in H0. unfold octets in H0. rewrite length_app in H0. lia. }
  destruct Ho as [_ Ho]. clear Hs. unfold value in *. destruct (m_buffer b) as [buf|];
    [|cbn [from_option] in Eh; unfold slice in Eh; rewrite drop_nil, take_nil in Eh; destruct h; [simpl in Hh; lia|done]].
  cbn [from_option id] in *. destruct Ho as (_ & _ & H3 & H4 & _).
  destruct (Block_of_range_encodes buf _ _ _ t v H3 H4 eq_refl He) as (b' & E & Hf).
  exists b'. split; [|done]. rewrite <-E. unfold Block_of_range in *.
  destruct (read_header buf (m_value_begin b) (m_value_end b)) as [|[[t' n'] p]]; [done|].
  cbn in *. by destruct (negb _).
Qed.

(** [fromMemory] makes the blocks that the constructor from memory makes. *)
Lemma Block_fromMemory_memory buf :
  (Block_fromMemory buf).2 = Block_new \/ Block_of_memory buf = inr (Block_fromMemory buf).2.
Proof.
  unfold Block_fromMemory, Block_of_memory, read_header. rewrite slice_all.
  destruct (readType buf) as [[t r]|] eqn:E1; [|by left].
  rewrite (readType_or_throw_some _ _ _ E1). cbn.
  destruct (readVarNumber r) as [[n r']|] eqn:E2; [|by left].
  rewrite (readVarNumber_or_throw_some _ _ _ E2). cbn.
  destruct (Z.ltb_spec (octets r') n) as [|Hn]; [by left|right].
  destruct (readType_split _ _ _ E1) as (h1 & H1 & _). destruct (readVarNumber_split _ _ _ E2) as (h2 & H2 & _).
  unfold octets in *. destruct (Z.ltb_spec (Z.of_nat (length buf - (length buf - length r'))) n) as [Hlt|]; [|done].
  exfalso. rewrite H1, H2, !length_app in Hlt. lia.
Qed.

(** The blocks a program can make, by the public constructors, the methods and the free
    functions of [block.hpp] and [block-helpers.hpp].  The constructor of six arguments
    ([made_parts]) and the ones with [verifyLength] off check nothing: they are given the parts of an
    element.  A wire of 4 GiB or more would not fit [m_size], so what [encode] encodes is smaller. *)
Inductive made : Block -> Prop :=
| made_new : made Block_new
| made_type t : u32_range t -> made (Block_of_type t)
| made_value t v : u32_range t -> made (Block_of_value t v)
| made_nested t b b' : u32_range t -> made b -> Block_of_nested t b = inr b' -> made b'
| made_parts buf t i j k : (i < k)%nat -> (k <= j)%nat -> (j <= length buf)%nat ->
    encodes (slice i j buf) t (slice k j buf) -> made (Block_at buf t i j k j)
| made_encoder e b : Encoder.ok e -> encoder_block e true = inr b -> made b
| made_buffer buf b : Block_of_buffer buf = inr b -> made b
| made_range buf i j b : (i <= j)%nat -> (j <= length buf)%nat -> Block_of_range buf i j true = inr b -> made b
| made_unverified buf i j b t v : (i <= j)%nat -> (j <= length buf)%nat -> encodes (slice i j buf) t v ->
    Block_of_range buf i j false = inr b -> made b
| made_memory buf b : Block_of_memory buf = inr b -> made b
| made_block b i j b' : made b -> (i <= j)%nat -> Block_of_block b i j true = inr b' -> made b'
| made_stream is_ b : Block_fromStream is_ = inr b -> made b
| made_fromBuffer buf i : (i <= length buf)%nat -> made (Block_fromBuffer buf i).2
| made_fromMemory buf : made (Block_fromMemory buf).2
| made_inner b b' : made b -> blockFromValue b = inr b' -> made b'
| made_element b t e : made b -> get t b = inr e -> made e
| made_reset b : made b -> made (reset b)
| made_resetWire b : made b -> made (resetWire b)
| made_parse b : made b -> made (parse b).1
| made_encode b : made b -> (forall v, encoded_value b = inr v -> u32_range (octets v)) ->
    made (encode b).1
| made_remove b t : made b -> made (remove t b)
| made_push_back b e : made b -> made e -> made (push_back e b)
| made_erase b i : made b -> made (erase i b).1
| made_erase_range b i j : made b -> made (erase_range i j b).1
| made_insert b i e : made b -> made e -> made (insert i e b).1.

Lemma reset_ok b : block_ok b -> block_ok (reset b).
Proof.
  intros _. constructor; [|constructor]. split; [|done].
  unfold u32_range; simpl; unfold UINT32_MAX; lia.
Qed.

(** C33: every block that a program can make is well formed,
    also after a method that threw: its iterators lie in order inside its buffer, its
    wire is a TLV encoding of its type and value, its recorded size is the one its wire
    has or will have, its type number has 32 bits, and its sub-elements, themselves well
    formed, are encoded by a prefix of its value.  This holds for all constructors, methods and
    free functions, but the constructor of six arguments and the ones with [verifyLength] off only if
    they are given an element: with other arguments they make ill-formed
    blocks.  What is encoded has to be smaller than 4 GiB. *)
Theorem made_blocks_ok :
  (forall b, made b -> block_ok b) /\
  (exists buf b, Block_of_range buf 0 (length buf) false = inr b /\ ~ block_ok b) /\
  (exists buf t, ~ block_ok (Block_at buf t 0 (length buf) 0 0)).
Proof.
  split_and!.
  - intros b. induction 1; eauto using Block_new_ok, Block_of_type_ok, Block_of_value_ok, Block_of_block_ok,
      parse_ok, encode_ok, remove_ok, push_back_ok, just_resetWire_ok, erase_ok, erase_range_ok,
      insert_ok, reset_ok.
    + by eapply Block_of_nested_ok.
    + apply (Block_at_fresh buf t i j k); try done. by destruct (encodes_split _ _ _ H2) as (_ & _ & _ & Ht & _).
    + destruct H as [H1 H2]. by destruct (Block_of_range_ok _ _ _ _ H1 H2 H0) as (t & v & Hf & _).
    + by destruct (Block_of_range_ok _ _ _ _ (Nat.le_0_l _) (le_n _) H) as (t & v & Hf & _).
    + by destruct (Block_of_range_ok _ _ _ _ H H0 H1) as (t & v & Hf & _).
    + destruct (Block_of_range_encodes buf i j _ t v H H0 eq_refl H1) as (b' & E & Hf).
      assert (b = b') as ->; [|apply Hf]. revert H2 E. unfold Block_of_range.
      destruct (read_header buf i j) as [|[[t' n'] p]]; [done|]. cbn. destruct (negb _); [done|]. congruence.
    + by destruct (Block_of_memory_ok _ _ H) as (t & v & w & more & [Hf _] & _).
    + by destruct (fromStream_sound _ _ H) as (t & v & w & more & _ & _ & _ & Hf & _).
    + destruct (Block_fromBuffer_spec _ _ H) as [(t & v & w & more & b & -> & [Hf _] & _)|[-> _]];
        [done|apply Block_new_ok].
    + destruct (Block_fromMemory_memory buf) as [-> |E]; [apply Block_new_ok|].
      by destruct (Block_of_memory_ok _ _ E) as (t & v & w & more & [Hf _] & _).
    + destruct (blockFromValue_spec _ _ IHmade H0) as (t & v & [Hf _] & _). done.
    + by eapply get_ok.
  - exists [Byte.x07; Byte.x01]. eexists. split; [reflexivity|].
    intros (_ & _ & _ & _ & _ & (_ & _ & _ & He) & _)%block_ok_own. vm_compute in He.
    destruct He as (rest & H1 & H2). injection H1 as <-. discriminate H2.
  - exists [Byte.x07; Byte.x00], 7. intros (_ & _ & _ & _ & _ & (H & _) & _)%block_ok_own. discriminate H.
Qed.

(** A name block with one component, encoded, with its component read again and removed. *)
Definition assembled_block : Block :=
  remove 8 (parse (encode (push_back (Block_of_value 8 [Byte.x61]) (Block_of_type 7))).1).1.

Lemma made_blocks_ok_witness : made assembled_block /\ block_ok assembled_block.
Proof.
  assert (made assembled_block) as H.
  { apply made_remove, made_parse, made_encode.
    - apply made_push_back; [by apply made_type|by apply made_value].
    - intros v E. vm_compute in E. injection E as <-. by split. }
  split; [exact H|]. destruct made_blocks_ok as [Hok _]. exact (Hok assembled_block H).
Defined.

(** ** Round trips *)
Lemma encode_subBlocks_stream l bs :
  Forall own_ok l -> encode_subBlocks l = inr bs -> u32_range (octets bs) ->
  exists els, tlv_stream bs els /\
    Forall2 (fun i e => el_type e = m_type i /\ el_value e = value i) l els.
Proof.
  intros H. revert bs. induction H as [|i l Hi _ IH]; intros bs; cbn [encode_subBlocks].
  { intros [= <-] _. exists []. by split; constructor. }
  destruct (encode_subBlock i) as [|w] eqn:Ei; [done|]. cbn.
  destruct (encode_subBlocks l) as [|rest]; [done|]. cbn. intros [= <-]. rewrite octets_app.
  pose proof (octets_nonneg w). pose proof (octets_nonneg rest). intros Hr.
  destruct (IH rest eq_refl) as (els & Hs & Hall); [unfold u32_range in *; lia|].
  assert (encodes w (m_type i) (value i)) as Hw.
  { unfold encode_subBlock in Ei. destruct (hasWire i) eqn:Ew.
    - destruct (own_ok_encodes i Hi Ew) as (w' & Hw' & He). congruence.
    - destruct (hasValue i); [|done]. injection Ei as <-. rewrite (value_size_octets i Hi) in *.
      apply encodes_element; [apply Hi|]. rewrite !octets_app in Hr.
      pose proof (octets_nonneg (writeVarNumber (m_type i))).
      pose proof (octets_nonneg (writeVarNumber (octets (value i)))).
      pose proof (octets_nonneg (value i)). unfold u32_range, u64_range in *. lia. }
  exists (mkElement (m_type i) (value i) w :: els). by split; constructor.
Qed.

Lemma Forall2_fresh_stream (l : list Block) els blks :
  Forall2 (fun i e => el_type e = m_type i /\ el_value e = value i) l els ->
  Forall2 fresh els blks ->
  Forall2 (fun i i' => m_type i' = m_type i /\ value i' = value i) l blks.
Proof.
  intros H. revert blks. induction H as [|i e l els [E1 E2] _ IH]; intros blks H2.
  - inversion H2. constructor.
  - inversion H2 as [|? b ? blks' (_ & (_ & E3 & E4 & _) & _) H2']; subst.
    constructor; [split; congruence|by apply IH].
Qed.

(** [parse] of a block that has no sub-elements yet: when the value is a sequence
    of TLV elements the block gets exactly these, in order, each with its type, value
    and wire; otherwise a TLV error is thrown and neither value nor wire changes.  An
    exception of the length check clears the list, one of the number readers leaves the
    elements found so far, and a second [parse] then returns without error. *)
Theorem parse_spec b (Hb : block_ok b) (Hs : m_subBlocks b = []) :
  (exists els blks, tlv_stream (value b) els /\ Forall2 fresh els blks /\
     parse b = (set_subBlocks blks b, inr tt)) \/
  ((forall els, ~ tlv_stream (value b) els) /\
   exists subs what, parse b = (set_subBlocks subs b, inl (TlvError what)) /\
     found_before (value b) [] subs /\
     (subs <> [] -> parse (set_subBlocks subs b) = (set_subBlocks subs b, inr tt))).
Proof.
  destruct (parse_fresh b (block_ok_own _ Hb) Hs) as [H|(Hno & subs & what & E & Hf)]; [by left|].
  right. split; [done|]. exists subs, what. split_and!; [done|done|]. intros Hne. by apply parse_again.
Qed.

(** One element, then a type without a length: the first [parse] throws, the second
    finds one element. *)
Definition stale_block : Block := Block_of_value 7 [Byte.x08; Byte.x01; Byte.x61; Byte.x08].

Lemma parse_spec_witness :
  block_ok stale_block /\
  exists subs what, parse stale_block = (set_subBlocks subs stale_block, inl (TlvError what)) /\
    length subs = 1%nat /\
    parse (set_subBlocks subs stale_block) = (set_subBlocks subs stale_block, inr tt).
Proof.
  assert (block_ok stale_block) as Hb by (apply Block_of_value_ok; unfold u32_range; lia).
  split; [exact Hb|]. destruct (parse_spec stale_block Hb eq_refl)
    as [(els & blks & _ & _ & E)|(_ & subs & what & E & _ & Hagain)].
  - exfalso. assert ((parse stale_block).2 = inl (TlvError "Empty buffer during TLV processing"))
      as E' by (vm_compute; reflexivity). rewrite E in E'. discriminate E'.
  - assert (length (m_subBlocks (parse stale_block).1) = 1%nat) as Hl by (vm_compute; reflexivity).
    rewrite E in Hl. exists subs, what. split; [exact E|]. split; [exact Hl|].
    apply Hagain. intros ->. discriminate Hl.
Defined.

(** Encode, then decode.  A block assembled from sub-elements (each with a wire or
    a value, less than 4 GiB together) is encoded to a wire from which a new block can
    be made; parsing that block gives back the type and, in order, the types and the
    values of the sub-elements. *)
Theorem block_roundtrip b v (Hb : block_ok b) (Hbuf : m_buffer b = None)
    (Hv : encode_subBlocks (m_subBlocks b) = inr v) (Hr : u32_range (octets v)) :
  exists b' w b'' blks, encode b = (b', inr tt) /\ wire b' = inr w /\
    Block_of_buffer w = inr b'' /\ m_type b'' = m_type b /\ value b'' = v /\
    parse b'' = (set_subBlocks blks b'', inr tt) /\
    Forall2 (fun i i' => m_type i' = m_type i /\ value i' = value i) (m_subBlocks b) blks.
Proof.
  assert (hasWire b = false) as Hw by (unfold hasWire; by rewrite Hbuf).
  assert (encoded_value b = inr v) as Hv' by (unfold encoded_value, hasValue; by rewrite Hbuf).
  destruct (encode_spec b v Hb Hw Hv' Hr) as (b' & E & Hb' & _ & (_ & Et & Ev & Ew)).
  cbn [el_type el_value el_wire] in *. set (w := element (m_type b) v) in *.
  assert (encodes w (m_type b) v) as He.
  { apply encodes_element; [by apply type_range|]. unfold u32_range, u64_range in *. lia. }
  destruct (Block_of_range_encodes w 0 (length w) w (m_type b) v)
    as (b'' & E2 & Hok & (_ & Et2 & Ev2 & _) & Hs2); [lia|lia|apply slice_all|done|].
  destruct (encode_subBlocks_stream (m_subBlocks b) v) as (els & Hst & Hall);
    [eapply Forall_impl; [by apply block_ok_sub|apply block_ok_own]|done|done|].
  cbn [el_type el_value] in *.
  destruct (parse_fresh b'' (block_ok_own _ Hok) Hs2) as [(els' & blks & Hst' & Hall' & Ep)|[Hno _]].
  - rewrite Ev2 in Hst'. rewrite (tlv_stream_inj _ _ _ Hst' Hst) in Hall'.
    exists b', w, b'', blks. split_and!; [done..|]. by eapply Forall2_fresh_stream.
  - exfalso. rewrite Ev2 in Hno. by eapply Hno.
Qed.

Definition demo_block : Block :=
  push_back (Block_of_value 8 [Byte.x62]) (push_back (Block_of_value 8 [Byte.x61]) (Block_of_type 7)).

Lemma block_roundtrip_witness :
  block_ok demo_block /\ exists b'' blks, parse b'' = (set_subBlocks blks b'', inr tt) /\
    (fun i => (m_type i, value i)) <$> blks = [(8, [Byte.x61]); (8, [Byte.x62])].
Proof.
  assert (block_ok demo_block) as Hb.
  { repeat apply push_back_ok; first [apply Block_of_value_ok | apply Block_of_type_ok];
      unfold u32_range; lia. }
  split; [exact Hb|].
  destruct (block_roundtrip demo_block
    [Byte.x08; Byte.x01; Byte.x61; Byte.x08; Byte.x01; Byte.x62] Hb)
    as (b' & w & b'' & blks & _ & _ & _ & _ & _ & E & H); [reflexivity..|vm_compute; by split|].
  exists b'', blks. split; [exact E|]. cbn in H.
  apply Forall2_cons_inv_l in H as (i1 & l1 & [Ht1 Hv1] & H & ->).
  apply Forall2_cons_inv_l in H as (i2 & l2 & [Ht2 Hv2] & H & ->).
  apply Forall2_nil_inv_l in H as ->. cbn. rewrite Ht1, Ht2, Hv1, Hv2. reflexivity.
Defined.

(** [Block::fromStream] accepts exactly the octets that start with a TLV element
    whose value has at most 8800 octets, whatever follows it, and makes of it a block
    with the same type and value in the shortest wire form.  Otherwise it throws a TLV
    error, except on a stream that ends with the header of a value that is not empty:
    there it dereferences the end-of-stream iterator. *)
Theorem fromStream_spec (is_ : list byte) :
  (forall t v w more, is_ = w ++ more -> encodes w t v ->
     octets v <= MAX_SIZE_OF_BLOCK_FROM_STREAM ->
     exists b, Block_fromStream is_ = inr b /\ fresh (mkElement t v (element t v)) b) /\
  (forall b, Block_fromStream is_ = inr b ->
     exists t v w more, is_ = w ++ more /\ encodes w t v /\
       octets v <= MAX_SIZE_OF_BLOCK_FROM_STREAM /\ fresh (mkElement t v (element t v)) b) /\
  (forall ex, Block_fromStream is_ = inl ex ->
     (exists what, ex = TlvError what) \/
     (exists t r n, ex = Undefined "the end-of-stream iterator is dereferenced" /\
        readType is_ = Some (t, r) /\ readVarNumber r = Some (n, []) /\
        0 < n <= MAX_SIZE_OF_BLOCK_FROM_STREAM)).
Proof.
  split_and!.
  - intros t v w more ->. apply fromStream_complete.
  - apply fromStream_sound.
  - apply fromStream_fails.
Qed.
