(* ===== verification/Names.v ===== *)
(** * Names: NDN name components, names, their order and the Trace-name layout

    Sources: [src/src/ndnSIM/ndn-cxx/src/name-component.cpp], [name.cpp],
    [name.hpp] and [src/src/ndnSIM/statim/packet-utils.hpp].  A name is the list
    of its components; a component is its TLV type and value bytes.  A component
    object may also cache the wire encoding it was read from, whose numbers need not
    have their shortest form.  Only [Component::compare] looks at it: [CachedComponent]
    is a component with its cached octets. *)
From S2P Require Import Prelude Tlv.

(** ** Components *)
Definition TLV_NAME_COMPONENT : Z := 8.
Definition TLV_IMPLICIT_SHA256 : Z := 1.

Record Component := mkComponent {
  ctype : Z;           (** TLV type, a [uint32_t] *)
  cvalue : list byte   (** the value octets *)
}.

#[export] Instance Component_eq_dec : EqDecision Component.
Proof. solve_decision. Defined.
#[export] Instance Component_countable : Countable Component.
Proof.
  refine (inj_countable' (fun c => (ctype c, cvalue c)) (fun p => mkComponent p.1 p.2) _).
  by intros [].
Defined.

(** [Component(const std::string&)] *)
Definition component_of_bytes (v : list byte) : Component := mkComponent TLV_NAME_COMPONENT v.
Definition component_of_string (s : String.string) : Component :=
  component_of_bytes (String.list_byte_of_string s).

Definition value_size (c : Component) : Z := Z.of_nat (length (cvalue c)).

(** [Component::toUri]: the generic branch escapes every octet outside
    [0-9 A-Z a-z + - . _]; a component made only of periods gets three more. *)
Definition hex_digit_upper (n : Z) : byte := byte_of_Z (if n <? 10 then 48 + n else 55 + n).
Definition hex_digit_lower (n : Z) : byte := byte_of_Z (if n <? 10 then 48 + n else 87 + n).

Definition uri_unreserved (b : byte) : bool :=
  let x := byte_to_Z b in
  ((0x30 <=? x) && (x <=? 0x39)) || ((0x41 <=? x) && (x <=? 0x5a)) ||
  ((0x61 <=? x) && (x <=? 0x7a)) || (x =? 0x2b) || (x =? 0x2d) ||
  (x =? 0x2e) || (x =? 0x5f).

Definition escape_byte (b : byte) : list byte :=
  if uri_unreserved b then [b]
  else [byte_of_Z 37; hex_digit_upper (byte_to_Z b / 16); hex_digit_upper (byte_to_Z b mod 16)].

Definition print_hex_lower (v : list byte) : list byte :=
  v ≫= fun b => [hex_digit_lower (byte_to_Z b / 16); hex_digit_lower (byte_to_Z b mod 16)].

Definition is_dot (b : byte) : bool := byte_to_Z b =? 0x2e.

Definition component_toUri (c : Component) : list byte :=
  if ctype c =? TLV_IMPLICIT_SHA256
  then String.list_byte_of_string "sha256digest=" ++ print_hex_lower (cvalue c)
  else if forallb is_dot (cvalue c)
  then String.list_byte_of_string "..." ++ cvalue c
  else cvalue c ≫= escape_byte.

(** Number components. *)
Definition SEQUENCE_NUMBER_MARKER : Z := 0xFE.

Definition isNumberWithMarker (marker : Z) (c : Component) : bool :=
  match cvalue c with
  | [] => false
  | m :: _ =>
      (byte_to_Z m =? marker) &&
      ((value_size c =? 2) || (value_size c =? 3) || (value_size c =? 5) || (value_size c =? 9))
  end.

Definition toNumberWithMarker (marker : Z) (c : Component) : exn + Z :=
  if negb (isNumberWithMarker marker c)
  then inl (TlvError "Name component does not have the requested marker")
  else fst <$> readNonNegativeInteger (length (cvalue c) - 1) (tail (cvalue c)).

Definition fromNumberWithMarker (marker number : Z) : Component :=
  mkComponent TLV_NAME_COMPONENT (byte_of_Z marker :: prependNonNegativeInteger number []).

Definition toSequenceNumber (c : Component) : exn + Z :=
  toNumberWithMarker SEQUENCE_NUMBER_MARKER c.
Definition fromSequenceNumber (seqNo : Z) : Component :=
  fromNumberWithMarker SEQUENCE_NUMBER_MARKER seqNo.

(** [Component::equals] and [Component::compare].  When both sides cache a wire
    encoding, the wires are compared up to the shorter one; otherwise type,
    length and octets are compared, each difference converted to [int]. *)
Definition bytes_equal (a b : list byte) : bool := bool_decide (a = b).

Definition component_equals (a b : Component) : bool :=
  (ctype a =? ctype b) && (value_size a =? value_size b) && bytes_equal (cvalue a) (cvalue b).

Fixpoint memcmp (a b : list byte) : Z :=
  match a, b with
  | x :: a, y :: b =>
      if byte_to_Z x <? byte_to_Z y then -1
      else if byte_to_Z y <? byte_to_Z x then 1
      else memcmp a b
  | _, _ => 0
  end.

(** What [Component::wireEncode(encoder)] writes, whether or not a wire is cached. *)
Definition component_wire (c : Component) : list byte :=
  writeVarNumber (ctype c) ++ writeVarNumber (value_size c) ++ cvalue c.

(** A component object: the component and the wire it caches, if it has one. *)
Record CachedComponent := mkCachedComponent {
  cc_component : Component;
  cc_wire : option (list byte)
}.

Definition component_compare (x y : CachedComponent) : Z :=
  match cc_wire x, cc_wire y with
  | Some v, Some w => memcmp v w
  | _, _ =>
      let a := cc_component x in
      let b := cc_component y in
      let cmpType := i32 (u32 (ctype a - ctype b)) in
      if negb (cmpType =? 0) then cmpType
      else
        let cmpSize := i32 (u64 (value_size a - value_size b)) in
        if negb (cmpSize =? 0) then cmpSize
        else memcmp (cvalue a) (cvalue b)
  end.

(** The canonical order: type, then length, then octets. *)
Definition component_key (c : Component) : Z * (Z * list byte) :=
  (ctype c, (value_size c, cvalue c)).

#[export] Instance component_key_inj : Inj (=) (=) component_key.
Proof. intros [] [] [=]. by subst. Qed.

#[export] Instance compare_component : Compare Component := compare_on component_key.
#[export] Instance compare_component_laws : CompareLaws Component :=
  compare_on_laws component_key.

(** ** Names *)
Abbreviation Name := (list Component).

Definition name_size (n : Name) : Z := Z.of_nat (length n).

(** [Name::get] with a non-negative or negative position, checked by [at]. *)
Definition name_at (n : Name) (i : Z) : exn + Component :=
  let pos := if 0 <=? i then i else name_size n + i in
  if ((0 <=? i) && (name_size n <=? i)) || ((i <? 0) && (name_size n <? - i))
  then inl (TlvError "Requested component does not exist (out of bounds)")
  else match n !! Z.to_nat pos with
       | Some c => inr c
       | None => inl (TlvError "unreachable")
       end.

(** [Name::getSubName]; [None] is [npos]. *)
Definition getSubName (n : Name) (iStartComponent : Z) (nComponents : option Z) : Name :=
  let iStart := Z.max 0
    (if iStartComponent <? 0 then name_size n + iStartComponent else iStartComponent) in
  let iEnd := match nComponents with
              | None => name_size n
              | Some k => Z.min (name_size n) (u64 (iStart + k))
              end in
  take (Z.to_nat (iEnd - iStart)) (drop (Z.to_nat iStart) n).

Definition getPrefix (n : Name) (nComponents : Z) : Name :=
  if nComponents <? 0 then getSubName n 0 (Some (u64 (name_size n + nComponents)))
  else getSubName n 0 (Some nComponents).

Definition append (n : Name) (c : Component) : Name := n ++ [c].
Definition append_name (n m : Name) : Name := n ++ m.
Definition appendSequenceNumber (n : Name) (seqNo : Z) : Name :=
  append n (fromSequenceNumber seqNo).

(** [Name::isPrefixOf] *)
Definition isPrefixOf (p n : Name) : bool :=
  if (length n <? length p)%nat then false
  else forallb (fun '(a, b) => component_equals a b) (zip p n).

(** [Name::compare]: the first differing component decides, then the lengths. *)
Fixpoint name_compare (a b : list CachedComponent) : Z :=
  match a, b with
  | x :: a', y :: b' =>
      let comp := component_compare x y in
      if negb (comp =? 0) then comp else name_compare a' b'
  | _, _ => i32 (u64 (Z.of_nat (length a) - Z.of_nat (length b)))
  end.

(** ** Trace names ([packet-utils.hpp]) *)
Definition judgeNameIsTrace (name : Name) : bool :=
  if name_size name <? 4 then false
  else match name !! 1%nat with
       | Some c => bytes_equal (component_toUri c) (String.list_byte_of_string "trace")
       | None => false
       end.

Definition extractDataNameFromTrace (name : Name) : Name :=
  if name_size name <? 4 then []
  else append_name (take 1 name) (getSubName name 2 (Some (name_size name - 3))).

(** ** Facts about components *)
Lemma component_equals_spec a b : component_equals a b = true <-> a = b.
Proof.
  unfold component_equals, bytes_equal.
  rewrite !andb_true_iff, !Z.eqb_eq, bool_decide_eq_true.
  destruct a, b; simpl. naive_solver.
Qed.

Lemma isPrefixOf_spec p n : isPrefixOf p n = true <-> p `prefix_of` n.
Proof.
  unfold isPrefixOf. revert n. induction p as [|c p IH]; intros [|d n].
  - simpl. split; [|done]. intros _. apply prefix_nil.
  - simpl. split; [|done]. intros _. apply prefix_nil.
  - simpl. split; [done|]. intros [k Hk]. done.
  - specialize (IH n). simpl. destruct (Nat.ltb_spec (S (length n)) (S (length p))) as [Hl|Hl].
    + split; [done|]. intros Hp. apply prefix_length in Hp. simpl in Hp. lia.
    + destruct (Nat.ltb_spec (length n) (length p)) as [Hl'|_]; [lia|].
      rewrite andb_true_iff, component_equals_spec, IH. split.
      * intros [-> Hp]. by apply prefix_cons.
      * intros Hp. split; [by eapply prefix_cons_inv_1|by eapply prefix_cons_inv_2].
Qed.

Lemma getPrefix_take n k :
  0 <= k < 18446744073709551616 -> getPrefix n k = take (Z.to_nat k) n.
Proof.
  intros Hk. unfold getPrefix, getSubName. destruct (Z.ltb_spec k 0); [lia|].
  cbn [Z.ltb Z.compare]. rewrite Z.max_r by lia. rewrite Z.add_0_l, u64_id, Z.sub_0_r by done.
  rewrite drop_0. unfold name_size.
  destruct (decide (k <= Z.of_nat (length n))).
  - by rewrite Z.min_r by lia.
  - rewrite Z.min_l, Nat2Z.id by lia. rewrite firstn_all, firstn_all2; [done|lia].
Qed.

(** The sign of a C++ three-way result agrees with a comparison. *)
Definition int_agrees (z : Z) (c : comparison) : Prop := Z.compare z 0 = c.

Lemma memcmp_agrees a b :
  length a = length b -> int_agrees (memcmp a b) (compare a b).
Proof.
  unfold int_agrees. revert b. induction a as [|x a IH]; intros [|y b] Hl; try done.
  simpl in Hl. rewrite compare_list_cons. cbn [memcmp].
  unfold compare at 1, compare_byte, compare_on. unfold compare at 1, compare_Z.
  destruct (Z.ltb_spec (byte_to_Z x) (byte_to_Z y)) as [H1|H1].
  { by apply Z.compare_lt_iff in H1 as ->. }
  destruct (Z.ltb_spec (byte_to_Z y) (byte_to_Z x)) as [H2|H2].
  { by apply Z.compare_gt_iff in H2 as ->. }
  replace (byte_to_Z x) with (byte_to_Z y) by lia. rewrite Z.compare_refl. simpl.
  apply IH. lia.
Qed.

(** [memcmp] skips a common prefix and is decided by the first difference. *)
Lemma memcmp_app_common p a b : memcmp (p ++ a) (p ++ b) = memcmp a b.
Proof.
  induction p as [|x p IH]; [done|]. simpl. by rewrite Z.ltb_irrefl.
Qed.

Lemma memcmp_app a b a' b' :
  length a = length b -> memcmp a b <> 0 -> memcmp (a ++ a') (b ++ b') = memcmp a b.
Proof.
  revert b. induction a as [|x a IH]; intros [|y b] Hl Hne; try done.
  simpl in *. destruct (_ <? _); [done|]. destruct (_ <? _); [done|]. apply IH; [lia|done].
Qed.

Lemma memcmp_be a b :
  length a = length b -> int_agrees (memcmp a b) (be_decode a ?= be_decode b).
Proof.
  unfold int_agrees. revert b. induction a as [|x a IH]; intros [|y b] Hl; try done.
  simpl in Hl. injection Hl as Hl. cbn [memcmp]. rewrite !be_decode_cons, <-Hl.
  pose proof (be_decode_range a) as Ha. pose proof (be_decode_range b) as Hb.
  rewrite <-Hl in Hb. set (P := 256 ^ Z.of_nat (length a)) in *.
  destruct (Z.ltb_spec (byte_to_Z x) (byte_to_Z y)) as [H1|H1].
  { symmetry. apply Z.compare_lt_iff. nia. }
  destruct (Z.ltb_spec (byte_to_Z y) (byte_to_Z x)) as [H2|H2].
  { symmetry. apply Z.compare_gt_iff. nia. }
  replace (byte_to_Z x) with (byte_to_Z y) by lia. rewrite Zcompare_plus_compat.
  by apply IH.
Qed.

Lemma memcmp_be_encode w x y r r' :
  0 <= x < 256 ^ Z.of_nat w -> 0 <= y < 256 ^ Z.of_nat w -> x <> y ->
  int_agrees (memcmp (be_encode w x ++ r) (be_encode w y ++ r')) (x ?= y).
Proof.
  intros Hx Hy Hne.
  assert (int_agrees (memcmp (be_encode w x) (be_encode w y)) (x ?= y)) as Hb.
  { pose proof (memcmp_be (be_encode w x) (be_encode w y)) as H.
    rewrite !length_be_encode, !be_roundtrip in H by done. by apply H. }
  rewrite memcmp_app; [done|by rewrite !length_be_encode|].
  intros H0. unfold int_agrees in Hb. rewrite H0 in Hb. simpl in Hb.
  symmetry in Hb. apply Z.compare_eq_iff in Hb. done.
Qed.

Lemma memcmp_cons_lt x y a b :
  byte_to_Z x < byte_to_Z y -> memcmp (x :: a) (y :: b) = -1.
Proof. intros H. cbn [memcmp]. by destruct (Z.ltb_spec (byte_to_Z x) (byte_to_Z y)); [|lia]. Qed.
Lemma memcmp_cons_gt x y a b :
  byte_to_Z y < byte_to_Z x -> memcmp (x :: a) (y :: b) = 1.
Proof.
  intros H. cbn [memcmp]. destruct (Z.ltb_spec (byte_to_Z x) (byte_to_Z y)); [lia|].
  by destruct (Z.ltb_spec (byte_to_Z y) (byte_to_Z x)); [|lia].
Qed.
Lemma memcmp_cons_same x a b : memcmp (x :: a) (x :: b) = memcmp a b.
Proof. apply (memcmp_app_common [x]). Qed.

(** A VAR-NUMBER starts with its class marker and the classes are ordered like
    the numbers, so comparing encodings compares the numbers. *)
Lemma memcmp_varNumber x y r r' :
  u64_range x -> u64_range y -> x <> y ->
  int_agrees (memcmp (writeVarNumber x ++ r) (writeVarNumber y ++ r')) (x ?= y).
Proof.
  unfold u64_range, writeVarNumber, UINT16_MAX, UINT32_MAX. intros Hx Hy Hne.
  destruct (Z.ltb_spec x 253); [|destruct (Z.leb_spec x 65535);
    [|destruct (Z.leb_spec x 4294967295)]];
  (destruct (Z.ltb_spec y 253); [|destruct (Z.leb_spec y 65535);
    [|destruct (Z.leb_spec y 4294967295)]]);
  rewrite ?be_encode_1; cbn [app];
  first
    [ rewrite memcmp_cons_same; apply memcmp_be_encode; lia
    | apply (memcmp_be_encode 1); lia
    | rewrite memcmp_cons_lt by (rewrite !byte_to_of_Z_id by (unfold u8_range; lia); lia);
      symmetry; apply Z.compare_lt_iff; lia
    | rewrite memcmp_cons_gt by (rewrite !byte_to_of_Z_id by (unfold u8_range; lia); lia);
      symmetry; apply Z.compare_gt_iff; lia ].
Qed.

(** Components whose numbers fit in an [int]. *)
Definition component_wf (c : Component) : Prop :=
  0 <= ctype c < 2147483648 /\ value_size c < 2147483648.

Lemma compare_component_unfold a b :
  compare a b
  = lex (ctype a ?= ctype b)
      (lex (value_size a ?= value_size b) (compare (cvalue a) (cvalue b))).
Proof. done. Qed.

Lemma value_size_nonneg c : 0 <= value_size c.
Proof. unfold value_size. lia. Qed.

Lemma i32_sub x y :
  0 <= x < 2147483648 -> 0 <= y < 2147483648 -> i32 (u32 (x - y)) = x - y /\
  i32 (u64 (x - y)) = x - y.
Proof.
  intros Hx Hy. unfold i32, u32, u64.
  split; Z.div_mod_to_equations; lia.
Qed.

Lemma int_agrees_lex z x y d :
  x <> y -> int_agrees z (x ?= y) -> int_agrees z (lex (x ?= y) d).
Proof. intros Hne. by destruct (Z.compare_spec x y). Qed.

Lemma int_agrees_sub x y d : x <> y -> int_agrees (x - y) (lex (x ?= y) d).
Proof. intros Hne. apply int_agrees_lex; [done|]. symmetry. apply Z.compare_sub. Qed.

(** What a component caches is an encoding of it, with numbers of any form. *)
Definition caches (x : CachedComponent) : Prop :=
  forall w, cc_wire x = Some w ->
  exists r, readType w = Some (ctype (cc_component x), r) /\
    readVarNumber r = Some (value_size (cc_component x), cvalue (cc_component x)).

(** It caches nothing but what [Component::wireEncode] writes. *)
Definition caches_shortest (x : CachedComponent) : Prop :=
  forall w, cc_wire x = Some w -> w = component_wire (cc_component x).

Lemma component_compare_agrees x y :
  component_wf (cc_component x) -> component_wf (cc_component y) ->
  caches_shortest x -> caches_shortest y ->
  int_agrees (component_compare x y) (compare (cc_component x) (cc_component y)).
Proof.
  destruct x as [a v], y as [b w]. cbn [cc_component]. intros [Ha1 Ha2] [Hb1 Hb2] Hv Hw.
  pose proof (value_size_nonneg a). pose proof (value_size_nonneg b).
  rewrite compare_component_unfold. unfold component_compare. cbn [cc_component cc_wire].
  assert (v = None \/ w = None \/ (v = Some (component_wire a) /\ w = Some (component_wire b))) as Hvw.
  { destruct v as [v|]; [|by left]. destruct w as [w|]; [|right; by left].
    rewrite (Hv v eq_refl), (Hw w eq_refl). auto. }
  match goal with |- int_agrees ?z _ => assert ((v = Some (component_wire a) /\ w = Some (component_wire b) /\ z = memcmp (component_wire a) (component_wire b)) \/
    z = if negb (i32 (u32 (ctype a - ctype b)) =? 0) then i32 (u32 (ctype a - ctype b))
        else if negb (i32 (u64 (value_size a - value_size b)) =? 0) then i32 (u64 (value_size a - value_size b))
        else memcmp (cvalue a) (cvalue b)) as Hz end.
  { destruct Hvw as [->|[->|[-> ->]]]; [by right|right; by destruct v|by left]. }
  clear Hvw. destruct Hz as [(_ & _ & ->)| ->].
  - unfold component_wire. destruct (decide (ctype a = ctype b)) as [->|Et].
    + rewrite memcmp_app_common, Z.compare_refl. cbn [lex].
      destruct (decide (value_size a = value_size b)) as [F|Es].
      * rewrite F, memcmp_app_common, Z.compare_refl. cbn [lex]. apply memcmp_agrees.
        unfold value_size in F. lia.
      * apply int_agrees_lex; [done|]. apply memcmp_varNumber; unfold u64_range; lia.
    + apply int_agrees_lex; [done|]. apply memcmp_varNumber; unfold u64_range; lia.
  - destruct (i32_sub (ctype a) (ctype b)) as [-> _]; [lia..|].
    destruct (i32_sub (value_size a) (value_size b)) as [_ ->]; [lia..|].
    destruct (Z.eqb_spec (ctype a - ctype b) 0) as [E|E]; cbn [negb].
    + replace (ctype a) with (ctype b) by lia. rewrite Z.compare_refl. cbn [lex].
      destruct (Z.eqb_spec (value_size a - value_size b) 0) as [F|F]; cbn [negb].
      * replace (value_size a) with (value_size b) by lia. rewrite Z.compare_refl.
        apply memcmp_agrees. unfold value_size in F. lia.
      * apply int_agrees_sub. lia.
    + apply int_agrees_sub. lia.
Qed.

Definition name_wf (n : Name) : Prop :=
  Forall component_wf n /\ name_size n < 2147483648.

Lemma name_size_nonneg n : 0 <= name_size n.
Proof. unfold name_size. lia. Qed.

(** Reading back a number component, whatever the reader's marker check. *)
Lemma length_prependNonNegativeInteger n :
  u64_range n -> length (prependNonNegativeInteger n []) ∈ [1; 2; 4; 8]%nat.
Proof.
  intros _. unfold prependNonNegativeInteger, prependByte, prependByteArray.
  repeat case_match; rewrite ?app_nil_r, ?length_be_encode; cbn [length]; set_solver.
Qed.

Lemma toSequenceNumber_from n : u64_range n -> toSequenceNumber (fromSequenceNumber n) = inr n.
Proof.
  intros Hn. unfold toSequenceNumber, fromSequenceNumber, toNumberWithMarker.
  pose proof (length_prependNonNegativeInteger n Hn) as Hl.
  destruct (readNonNegativeInteger_prepend n [] Hn) as [w [Hw Hr]].
  replace (isNumberWithMarker _ _) with true.
  - cbn [negb fromNumberWithMarker cvalue length tail]. rewrite Nat.sub_succ, Nat.sub_0_r.
    rewrite app_nil_r in Hr. rewrite Hw, Hr. done.
  - symmetry. unfold isNumberWithMarker, fromNumberWithMarker, value_size.
    cbn [cvalue length]. rewrite andb_true_iff. split; [done|].
    set (k := length _) in *. repeat rewrite orb_true_iff. rewrite !Z.eqb_eq. set_solver by lia.
Qed.

Lemma name_at_last n c : name_at (n ++ [c]) (-1) = inr c.
Proof.
  unfold name_at, name_size. rewrite length_app. cbn [length Z.leb Z.ltb Z.compare andb orb].
  destruct (Z.ltb_spec (Z.of_nat (length n + 1)) (- -1)) as [H|_]; [lia|]. cbn [orb].
  replace (Z.to_nat (Z.of_nat (length n + 1) + -1)) with (length n) by lia.
  by rewrite lookup_app_r, Nat.sub_diag by lia.
Qed.

Lemma name_at_last_inv n c : name_at n (-1) = inr c -> exists p, n = p ++ [c].
Proof.
  destruct n as [|d p] using rev_ind; [done|]. rewrite name_at_last. intros [= ->]. by exists p.
Qed.

(** [toUri] prints the five letters "trace" for exactly one octet string. *)
Lemma escape_no_percent (v w : list byte) :
  v ≫= escape_byte = w -> byte_of_Z 37 ∉ w -> v = w.
Proof.
  revert w. induction v as [|b v IH]; intros w <-; [done|].
  cbn [mbind list_bind]. rewrite not_elem_of_app. intros [Hb Hv].
  unfold escape_byte in Hb |- *. destruct (uri_unreserved b) eqn:E.
  - cbn [app]. f_equal. by apply IH.
  - set_solver.
Qed.

Lemma toUri_trace c :
  bytes_equal (component_toUri c) (String.list_byte_of_string "trace") = true <->
  ctype c <> TLV_IMPLICIT_SHA256 /\ cvalue c = String.list_byte_of_string "trace".
Proof.
  unfold bytes_equal. rewrite bool_decide_eq_true. unfold component_toUri.
  destruct (Z.eqb_spec (ctype c) TLV_IMPLICIT_SHA256) as [E|E].
  { split; [|by intros [? _]]. by intros [=]. }
  destruct (forallb is_dot (cvalue c)) eqn:F.
  { split; [by intros [=]|]. intros [_ Hc]. by rewrite Hc in F. }
  split.
  - intros Hc. split; [done|]. apply escape_no_percent; [done|].
    apply (bool_decide_unpack _). by vm_compute.
  - by intros [_ ->].
Qed.

(** ** Properties *)

(** The component [a] read from a wire whose length has three octets, and [b] from
    the shortest one: [memcmp] stops at the length. *)
Definition long_component : CachedComponent :=
  mkCachedComponent (component_of_string "a")
    (Some [Byte.x08; Byte.xfd; Byte.x00; Byte.x01; Byte.x61]).
Definition short_component : CachedComponent :=
  mkCachedComponent (component_of_string "b") (Some [Byte.x08; Byte.x01; Byte.x62]).

(** C39: as long as what the components of two names cache has shortest-form numbers, and
    types and sizes fit in an [int], [Name::compare] decides the canonical NDN order,
    whichever components cache a wire: its sign is the order that compares
    component by component by (type, length, octets), a proper prefix first.
    With a cached wire of a longer form it does not. *)
Theorem name_compare_canonical :
  (forall a b : list CachedComponent,
     name_wf (cc_component <$> a) -> name_wf (cc_component <$> b) ->
     Forall caches_shortest a -> Forall caches_shortest b ->
     int_agrees (name_compare a b) (compare (cc_component <$> a) (cc_component <$> b))) /\
  (exists a b : list CachedComponent,
     name_wf (cc_component <$> a) /\ name_wf (cc_component <$> b) /\ Forall caches a /\ Forall caches b /\
     ~ int_agrees (name_compare a b) (compare (cc_component <$> a) (cc_component <$> b))).
Proof.
  split.
  - intros a b [Ha Hsa] [Hb Hsb] Hca. revert b Hb Hsb.
    induction Hca as [|x a Hx Hca IH]; intros [|y b] Hb Hsb Hcb; try done.
    + cbn [name_compare length]. change (Z.of_nat 0) with 0. unfold name_size in Hsb. rewrite length_fmap in Hsb.
      destruct (i32_sub 0 (Z.of_nat (length (y :: b)))) as [_ H]; [lia|split; [lia|exact Hsb]|].
      cbn [length] in *. by rewrite H.
    + cbn [name_compare length]. change (Z.of_nat 0) with 0. unfold name_size in Hsa. rewrite length_fmap in Hsa.
      destruct (i32_sub (Z.of_nat (length (x :: a))) 0) as [_ H]; [split; [lia|exact Hsa]|lia|].
      cbn [length] in *. by rewrite H.
    + apply Forall_cons in Hb as [Hwy Hb], Hcb as [Hy Hcb], Ha as [Hwx Ha]. cbn [name_compare].
      pose proof (component_compare_agrees x y Hwx Hwy Hx Hy) as Hc.
      rewrite !fmap_cons, compare_list_cons. unfold int_agrees in Hc.
      destruct (Z.eqb_spec (component_compare x y) 0) as [E|E]; cbn [negb].
      * rewrite E in Hc. rewrite <-Hc. cbn [lex Z.compare].
        unfold name_size in *. rewrite !length_fmap in *. cbn [length] in *. apply IH; rewrite ?length_fmap; (done || lia).
      * unfold int_agrees. rewrite Hc. destruct (compare _ _) eqn:F; [|done..].
        by apply Z.compare_eq_iff in Hc.
  - exists [long_component], [short_component].
    assert (forall x, caches x -> Forall caches [x]) as H1 by (intros x Hx; by constructor).
    split_and!; try (split; [repeat constructor; vm_compute; discriminate|vm_compute; reflexivity]).
    + apply H1. intros w [= <-]. eexists. split; vm_compute; reflexivity.
    + apply H1. intros w [= <-]. eexists. split; vm_compute; reflexivity.
    + vm_compute. discriminate.
Qed.

(** A sequence-number component reads back the number it was made from,
    for every [uint64_t]. *)
Theorem sequenceNumber_roundtrip (prefix : Name) (seqNo : Z) :
  u64_range seqNo ->
  (name_at (appendSequenceNumber prefix seqNo) (-1)) ≫= toSequenceNumber = inr seqNo.
Proof.
  intros Hs. unfold appendSequenceNumber, append. rewrite name_at_last.
  by apply toSequenceNumber_from.
Qed.

Lemma sequenceNumber_roundtrip_witness :
  (name_at (appendSequenceNumber [] 300) (-1)) ≫= toSequenceNumber = inr 300.
Proof. apply (sequenceNumber_roundtrip [] 300). unfold u64_range. lia. Defined.

(** The Trace name a mobile producer expresses: [<rv>/trace/<data prefix>/<seq>]. *)
Definition makeTracePrefix (rvPrefix dataPrefix : Name) : Name :=
  append_name (append rvPrefix (component_of_string "trace")) dataPrefix.

Lemma trace_name_recognised (rv : Component) (dataPrefix : Name) (seqNo : Z) :
  dataPrefix <> [] -> judgeNameIsTrace (appendSequenceNumber (makeTracePrefix [rv] dataPrefix) seqNo) = true.
Proof.
  intros Hne. unfold judgeNameIsTrace.
  assert (4 <= name_size (appendSequenceNumber (makeTracePrefix [rv] dataPrefix) seqNo)) as Hs.
  { unfold appendSequenceNumber, makeTracePrefix, append, append_name, name_size.
    rewrite !length_app. destruct dataPrefix; [done|simpl; lia]. }
  destruct (Z.ltb_spec (name_size (appendSequenceNumber (makeTracePrefix [rv] dataPrefix) seqNo)) 4)
    as [H|_]; [lia|].
  cbn [appendSequenceNumber makeTracePrefix append append_name app lookup list_lookup].
  by apply toUri_trace.
Qed.

Lemma trace_name_extracted (rv : Component) (dataPrefix : Name) (seqNo : Z) :
  dataPrefix <> [] -> name_size dataPrefix < 9223372036854775808 ->
  extractDataNameFromTrace (appendSequenceNumber (makeTracePrefix [rv] dataPrefix) seqNo)
  = rv :: dataPrefix.
Proof.
  intros Hne Hlen. set (name := appendSequenceNumber _ _).
  assert (name_size name = name_size dataPrefix + 3) as Hs.
  { unfold name, appendSequenceNumber, makeTracePrefix, append, append_name, name_size.
    rewrite !length_app. simpl. lia. }
  assert (0 < name_size dataPrefix) as Hpos.
  { unfold name_size. destruct dataPrefix; [done|simpl; lia]. }
  unfold extractDataNameFromTrace, getSubName. rewrite Hs.
  destruct (Z.ltb_spec (name_size dataPrefix + 3) 4) as [H|_]; [lia|]. cbn [Z.ltb Z.compare].
  rewrite Z.max_r by lia.
  replace (2 + (name_size dataPrefix + 3 - 3)) with (name_size dataPrefix + 2) by lia.
  rewrite u64_id by (unfold u64_range; lia). rewrite Z.min_r by lia.
  replace (Z.to_nat (name_size dataPrefix + 2 - 2)) with (length dataPrefix)
    by (unfold name_size; lia).
  cbn [name appendSequenceNumber makeTracePrefix append append_name app take Z.to_nat
       Pos.to_nat Pos.iter_op Nat.add drop].
  change (Z.to_nat 2) with 2%nat. cbn [drop]. f_equal. apply take_app_length.
Qed.

(** For a one-component rendezvous prefix and a non-empty data prefix, a
    forwarder recognises the Trace name a mobile producer sends and extracts
    [<rv>/<data prefix>] as the prefix to update. *)
Theorem trace_name_roundtrip (rv : Component) (dataPrefix : Name) (seqNo : Z) :
  dataPrefix <> [] -> name_size dataPrefix < 9223372036854775808 ->
  let name := appendSequenceNumber (makeTracePrefix [rv] dataPrefix) seqNo in
  judgeNameIsTrace name = true /\
  extractDataNameFromTrace name = rv :: dataPrefix.
Proof. split; [by apply trace_name_recognised|by apply trace_name_extracted]. Qed.

Lemma trace_name_roundtrip_witness :
  let rv := component_of_string "rv" in
  let photo := [component_of_string "alice"; component_of_string "photo"] in
  judgeNameIsTrace (appendSequenceNumber (makeTracePrefix [rv] photo) 7) = true /\
  extractDataNameFromTrace (appendSequenceNumber (makeTracePrefix [rv] photo) 7) = rv :: photo.
Proof.
  apply (trace_name_roundtrip (component_of_string "rv")
           [component_of_string "alice"; component_of_string "photo"] 7);
    [discriminate|vm_compute; reflexivity].
Defined.

Lemma name_compare_canonical_witness :
  let x := component_of_string "rv" in
  let a := [mkCachedComponent x (Some (component_wire x)); mkCachedComponent (component_of_string "trace") None] in
  let b := [mkCachedComponent x (Some (component_wire x))] in
  int_agrees (name_compare a b) (compare (cc_component <$> a) (cc_component <$> b)).
Proof.
  intros x a b. apply (proj1 name_compare_canonical a b);
    first [ split; [repeat constructor; vm_compute; discriminate|vm_compute; reflexivity]
          | repeat constructor; by intros w [= <-] ].
Defined.
