(* ===== verification/NameWire.v ===== *)
(** * NameWire: wire encoding and decoding of names

    Sources: [src/src/ndnSIM/ndn-cxx/src/name.cpp] and [name-component.cpp] (the wire
    constructors, [wireEncode] and [wireDecode]).  A name refers to the parsed block it
    was decoded from; here it is the list of the types and values of its elements. *)
From S2P Require Import Prelude Tlv Encoder Block BlockSpec Names.

(** The sub-elements of a copy of a block after [parse]. *)
Definition parsed (b : Block) : exn + list Block :=
  match parse b with
  | (b, inr _) => inr (m_subBlocks b)
  | (_, inl e) => inl e
  end.

Definition component_view (b : Block) : Component := mkComponent (m_type b) (value b).

Definition SHA256_DIGEST_SIZE : Z := 32.

Definition isGeneric (c : Component) : bool := ctype c =? tlv.NameComponent.
Definition isImplicitSha256Digest (c : Component) : bool :=
  (ctype c =? tlv.ImplicitSha256DigestComponent) && (Names.value_size c =? SHA256_DIGEST_SIZE).

(** [Component(const Block&)] *)
Definition Component_of_block (wire : Block) : exn + Component :=
  let c := component_view wire in
  if negb (isGeneric c) && negb (isImplicitSha256Digest c)
  then inl (TlvError "Cannot construct name::Component from this TLV wire block")
  else inr c.

(** [Name(const Block&)], which does not look at the type, and [wireDecode]. *)
Definition Name_of_block (wire : Block) : exn + Name :=
  elements ← parsed wire;
  mret (fmap (M := list) component_view elements).

Definition Name_wireDecode (wire : Block) : exn + Name :=
  if negb (m_type wire =? tlv.Name)
  then inl (TlvError "Unexpected TLV type when decoding Name")
  else Name_of_block wire.

Section templates.
Context {E : Type} `{!EncodingImpl E}.

Definition Component_wireEncode (c : Component) : M E Z :=
  n1 ← (if 0 <? Names.value_size c then prependByteArray (cvalue c) else mret 0);
  n2 ← prependVarNumber (Names.value_size c);
  n3 ← prependVarNumber (ctype c);
  mret (n1 + n2 + n3).

(** The loop from [rbegin()] to [rend()], with its running total. *)
Fixpoint components_wireEncode (components : list Component) (totalLength : Z) : M E Z :=
  match components with
  | [] => mret totalLength
  | c :: components =>
      n ← Component_wireEncode c;
      components_wireEncode components (totalLength + n)
  end.

Definition Name_wireEncode (name : Name) : M E Z :=
  totalLength ← components_wireEncode (rev name) 0;
  n1 ← prependVarNumber totalLength;
  n2 ← prependVarNumber tlv.Name;
  mret (totalLength + n1 + n2).
End templates.

(** ** What they write and read *)
Definition name_value (n : Name) : list byte := concat (component_wire <$> n).
Definition name_wire (n : Name) : list byte := element tlv.Name (name_value n).

Lemma component_wire_element c : component_wire c = element (ctype c) (cvalue c).
Proof. done. Qed.

Section encode.
Context {E : Type} `{HE : EncodingLaws E}.

Lemma emits_Component_wireEncode c :
  emits (Component_wireEncode c) (component_wire c) [] (octets (component_wire c)).
Proof.
  unfold Component_wireEncode. rewrite component_wire_element. unfold element.
  change (Names.value_size c) with (octets (cvalue c)).
  eapply emits_eq.
  - eapply (emits_bind _ _ (cvalue c) []).
    { destruct (Z.ltb_spec 0 (octets (cvalue c))); [apply emits_prependByteArray|].
      assert (cvalue c = []) as -> by (unfold octets in *; destruct (cvalue c); simpl in *; [done|lia]).
      apply emits_ret. }
    eapply emits_bind; [apply emits_prependVarNumber|].
    eapply emits_bind; [apply emits_prependVarNumber|apply emits_ret].
  - by rewrite app_nil_l, app_assoc.
  - done.
  - rewrite !octets_app. lia.
Qed.

Lemma emits_components n total :
  emits (components_wireEncode (rev n) total) (name_value n) [] (total + octets (name_value n)).
Proof.
  revert total. induction n as [|c n IH] using rev_ind; intros total.
  - eapply emits_eq; [apply emits_ret|done|done|]. unfold name_value. simpl. rewrite octets_nil. lia.
  - rewrite rev_app_distr. cbn [rev app components_wireEncode]. eapply emits_eq.
    + eapply emits_bind; [apply emits_Component_wireEncode|apply IH].
    + unfold name_value. rewrite fmap_app, concat_app. simpl. by rewrite app_nil_r.
    + done.
    + unfold name_value. rewrite fmap_app, concat_app, !octets_app. simpl. rewrite app_nil_r. lia.
Qed.

Lemma emits_Name_wireEncode n :
  emits (Name_wireEncode n) (name_wire n) [] (octets (name_wire n)).
Proof.
  unfold Name_wireEncode, name_wire, element. eapply emits_eq.
  - eapply emits_bind; [apply emits_components|].
    eapply emits_bind; [apply emits_prependVarNumber|].
    eapply emits_bind; [apply emits_prependVarNumber|apply emits_ret].
  - by rewrite app_nil_l, app_assoc, Z.add_0_l.
  - done.
  - rewrite !octets_app, Z.add_0_l. lia.
Qed.
End encode.
#[export] Hint Resolve emits_Component_wireEncode emits_Name_wireEncode : emits.

(** The elements of a fresh block whose value is a given sequence. *)
Lemma parsed_stream b els :
  own_ok b -> m_subBlocks b = [] -> tlv_stream (value b) els ->
  exists blks, parsed b = inr blks /\ Forall2 fresh els blks.
Proof.
  intros Hb Hs Hst. destruct (parse_fresh b Hb Hs) as [(els' & blks & Hst' & Hall & E)|[Hno _]].
  - rewrite (tlv_stream_inj _ _ _ Hst' Hst) in Hall. exists blks. unfold parsed. by rewrite E.
  - exfalso. by eapply Hno.
Qed.

Lemma parsed_total b :
  own_ok b -> m_subBlocks b = [] ->
  (exists els blks, parsed b = inr blks /\ tlv_stream (value b) els /\ Forall2 fresh els blks) \/
  (exists what, parsed b = inl (TlvError what)).
Proof.
  intros Hb Hs. unfold parsed.
  destruct (parse_fresh b Hb Hs) as [(els & blks & Hst & Hall & ->)|(_ & subs & what & -> & _)];
    [left; by exists els, blks|right; by exists what].
Qed.

(** The elements the encoder writes one after the other. *)
Definition shortest (tv : Z * list byte) : Element := mkElement tv.1 tv.2 (element tv.1 tv.2).

Lemma tlv_stream_shortest l :
  Forall (fun tv => u32_range tv.1 /\ u64_range (octets tv.2)) l ->
  tlv_stream (concat (el_wire <$> (shortest <$> l))) (shortest <$> l).
Proof.
  intros H. apply tlv_stream_wires. split; [done|]. apply Forall_fmap.
  eapply Forall_impl; [exact H|]. intros [t v] [Ht Hv]. by apply encodes_element.
Qed.

(** Names that the library can make: types of 32 bits, sizes of 64. *)
Definition component_encodable (c : Component) : Prop :=
  u32_range (ctype c) /\ u64_range (octets (cvalue c)).
Definition name_encodable (n : Name) : Prop :=
  Forall component_encodable n /\ u64_range (octets (name_value n)).

Lemma name_value_stream n :
  Forall component_encodable n ->
  tlv_stream (name_value n) (shortest <$> ((fun c => (ctype c, cvalue c)) <$> n)).
Proof.
  intros H. unfold name_value.
  replace (component_wire <$> n)
    with (el_wire <$> (shortest <$> ((fun c => (ctype c, cvalue c)) <$> n)))
    by (rewrite <-!list_fmap_compose; done).
  apply tlv_stream_shortest, Forall_fmap. eapply Forall_impl; [exact H|]. by intros c [].
Qed.

Lemma component_views els blks :
  Forall2 fresh els blks -> component_view <$> blks = (fun e => mkComponent (el_type e) (el_value e)) <$> els.
Proof.
  induction 1 as [|e b els blks (_ & (_ & H2 & H3 & _) & _) _ IH]; [done|].
  cbn. unfold component_view at 1. rewrite IH, H2, H3. done.
Qed.

Lemma Name_of_block_fresh b n :
  own_ok b -> m_subBlocks b = [] -> value b = name_value n -> Forall component_encodable n ->
  Name_of_block b = inr n.
Proof.
  intros Hb Hs Hv Hn. pose proof (name_value_stream n Hn) as Hst. rewrite <-Hv in Hst.
  destruct (parsed_stream b _ Hb Hs Hst) as (blks & E & Hall). unfold Name_of_block. rewrite E.
  cbn. f_equal. rewrite (component_views _ _ Hall), <-!list_fmap_compose.
  rewrite <-(list_fmap_id n) at 2. apply list_fmap_ext. by intros i [t v] _.
Qed.

Lemma Name_wireDecode_fresh e b n :
  fresh e b -> el_type e = tlv.Name -> el_value e = name_value n -> Forall component_encodable n ->
  Name_wireDecode b = inr n.
Proof.
  intros (Hb & (_ & Ht & Hv & _) & Hs) Et Ev Hn. unfold Name_wireDecode. rewrite Ht, Et.
  apply Name_of_block_fresh; [by apply block_ok_own|done|congruence|done].
Qed.

(** What a successful computation has computed. *)
Lemma result_bind_inr {A B} (r : exn + A) (k : A -> exn + B) b :
  r ≫= k = inr b -> exists a, r = inr a /\ k a = inr b.
Proof. destruct r as [|a]; [done|]. by exists a. Qed.

(** Decoding throws nothing but TLV errors. *)
Definition tlv_only {A} (r : exn + A) : Prop := forall ex, r = inl ex -> exists what, ex = TlvError what.

Lemma tlv_only_ret {A} (a : A) : tlv_only (inr a).
Proof. by intros ex. Qed.
Lemma tlv_only_error {A} what : tlv_only (A := A) (inl (TlvError what)).
Proof. intros ex [= <-]. by exists what. Qed.
Lemma tlv_only_bind {A B} (r : exn + A) (k : A -> exn + B) :
  tlv_only r -> (forall a, r = inr a -> tlv_only (k a)) -> tlv_only (r ≫= k).
Proof. intros Hr Hk. destruct r as [ex|a]; [intros ex' [= <-]; by apply Hr|by apply Hk]. Qed.
Lemma tlv_only_fmap {A B} (f : A -> B) (r : exn + A) : tlv_only r -> tlv_only (f <$> r).
Proof. intros Hr. destruct r as [ex|a]; [intros ex' [= <-]; by apply Hr|done]. Qed.
Lemma tlv_only_if {A} (c : bool) (x y : exn + A) : tlv_only x -> tlv_only y -> tlv_only (if c then x else y).
Proof. by destruct c. Qed.

Create HintDb tlv_only.
#[export] Hint Resolve tlv_only_ret tlv_only_error tlv_only_fmap tlv_only_if : tlv_only.

Lemma tlv_only_parsed e b : fresh e b -> tlv_only (parsed b).
Proof.
  intros (Hb & _ & Hs). destruct (parsed_total b (block_ok_own _ Hb) Hs)
    as [(els & blks & -> & _)|[what ->]]; auto with tlv_only.
Qed.

Lemma parsed_fresh e b blks : fresh e b -> parsed b = inr blks ->
  Forall (fun i => exists e, fresh e i) blks.
Proof.
  intros (Hb & _ & Hs) Hp. destruct (parsed_total b (block_ok_own _ Hb) Hs)
    as [(els & blks' & E & _ & Hall)|[what E]]; [|congruence].
  rewrite E in Hp. injection Hp as ->. clear E. induction Hall; constructor; eauto.
Qed.

Lemma tlv_only_Name_of_block e b : fresh e b -> tlv_only (Name_of_block b).
Proof.
  intros H. apply tlv_only_bind; [by eapply tlv_only_parsed|]. intros a _. apply tlv_only_ret.
Qed.

Lemma tlv_only_Name_wireDecode e b : fresh e b -> tlv_only (Name_wireDecode b).
Proof. intros H. apply tlv_only_if; [auto with tlv_only|by eapply tlv_only_Name_of_block]. Qed.

Lemma tlv_only_readNonNegativeInteger b : tlv_only (readNonNegativeInteger_block b).
Proof.
  apply tlv_only_fmap. unfold readNonNegativeInteger. destruct (decide _); auto with tlv_only.
Qed.
#[export] Hint Resolve tlv_only_Name_of_block tlv_only_Name_wireDecode tlv_only_parsed
  tlv_only_readNonNegativeInteger : tlv_only.
