(* ===== verification/Exclude.v ===== *)
(** * Exclude: the exclude filter of an Interest

    Source: [src/src/ndnSIM/ndn-cxx/src/exclude.{hpp,cpp}].  The filter is a
    [std::map] from range starts to a flag, in descending order: an entry with the
    flag excludes everything from its key to the key of the entry above it.  The map
    is the list of its entries in iteration order, and an iterator is the key it
    stands at.  Components are ordered by [compare], the order that [Names] shows
    [Component::compare] to have.  Filters with an infinite start come first in that
    order. *)
From S2P Require Import Prelude Tlv Encoder Block BlockSpec Names NameWire.

Inductive ExcludeComponent := NegInf | Bound (component : Component).

#[export] Instance ExcludeComponent_eq_dec : EqDecision ExcludeComponent.
Proof. solve_decision. Defined.

(** [operator>] of two keys. *)
#[export] Instance compare_ExcludeComponent : Compare ExcludeComponent := fun a b =>
  match a, b with
  | NegInf, NegInf => Eq
  | NegInf, Bound _ => Lt
  | Bound _, NegInf => Gt
  | Bound x, Bound y => compare x y
  end.

#[export] Instance compare_ExcludeComponent_laws : CompareLaws ExcludeComponent.
Proof.
  split; unfold compare, compare_ExcludeComponent.
  - intros [|x] [|y]; try done. rewrite compare_eq. naive_solver.
  - intros [|x] [|y]; try done. apply compare_opp.
  - intros [|x] [|y] [|z]; try done. apply compare_lt_trans.
Qed.

Definition key_gt (a b : ExcludeComponent) : bool :=
  match compare a b with Gt => true | _ => false end.

Abbreviation Entry := (ExcludeComponent * bool)%type.
Abbreviation ExcludeMap := (list Entry).

Record Exclude := mkExclude { m_entries : ExcludeMap }.

#[export] Instance Exclude_eq_dec : EqDecision Exclude.
Proof. solve_decision. Defined.

Definition Exclude_new : Exclude := mkExclude [].
Definition Exclude_empty (e : Exclude) : bool :=
  match m_entries e with [] => true | _ => false end.

(** ** The map *)

(** [lower_bound]: the first entry that is not above the key. *)
Definition lower_bound (k : ExcludeComponent) (m : ExcludeMap) : option Entry :=
  List.find (fun e => negb (key_gt e.1 k)) m.

(** [emplace] leaves an entry with the key as it is. *)
Fixpoint emplace (k : ExcludeComponent) (any : bool) (m : ExcludeMap) : ExcludeMap * bool :=
  match m with
  | [] => ([(k, any)], true)
  | e :: m' =>
      if key_gt e.1 k then let '(m', isNew) := emplace k any m' in (e :: m', isNew)
      else if key_gt k e.1 then ((k, any) :: m, true)
      else (m, false)
  end.

Definition set_any (k : ExcludeComponent) (m : ExcludeMap) : ExcludeMap :=
  (fun e => if decide (e.1 = k) then (e.1, true) else e) <$> m.

(** The key after [k], and [erase] of the entries from one key up to another. *)
Fixpoint next_key (k : ExcludeComponent) (m : ExcludeMap) : option ExcludeComponent :=
  match m with
  | [] => None
  | e :: m' => if decide (e.1 = k) then fst <$> head m' else next_key k m'
  end.

Fixpoint drop_until (last : option ExcludeComponent) (m : ExcludeMap) : ExcludeMap :=
  match m with
  | [] => []
  | e :: m' => if decide (Some e.1 = last) then m else drop_until last m'
  end.

Fixpoint erase (first last : option ExcludeComponent) (m : ExcludeMap) : ExcludeMap :=
  match m with
  | [] => []
  | e :: m' => if decide (Some e.1 = first) then drop_until last m else e :: erase first last m'
  end.

(** ** Operations *)
Definition appendEntry (k : ExcludeComponent) (hasAny : bool) (e : Exclude) : Exclude :=
  mkExclude (emplace k hasAny (m_entries e)).1.

Definition isExcluded (comp : Component) (e : Exclude) : bool :=
  match lower_bound (Bound comp) (m_entries e) with
  | None => false
  | Some (k, any) =>
      any || match k with NegInf => false | Bound c => component_equals c comp end
  end.

Definition excludeOne (comp : Component) (e : Exclude) : Exclude :=
  if negb (isExcluded comp e) then appendEntry (Bound comp) false e else e.

(** The start of a range: the entry below it if that has the flag, otherwise an entry
    of its own. *)
Definition range_start (from : ExcludeComponent) (m : ExcludeMap) : ExcludeMap * ExcludeComponent :=
  let make :=
    let '(m', isNewEntry) := emplace from true m in
    (if isNewEntry then m' else set_any from m', from) in
  match lower_bound from m with
  | None => make
  | Some (k, any) => if negb any then make else (m, k)
  end.

Definition excludeRange_from (from : ExcludeComponent) (to : Component) (e : Exclude)
    : exn + Exclude :=
  if negb (key_gt (Bound to) from)
  then inl (TlvError "Invalid exclude range")
  else
    let '(m, newFrom) := range_start from (m_entries e) in
    match lower_bound (Bound to) m with
    | None => inl (Aborted "newTo != m_entries.end()")
    | Some (newTo, any) =>
        let '(m, newTo) :=
          if bool_decide (newTo = newFrom) || negb any
          then let m := (emplace (Bound to) false m).1 in (m, next_key (Bound to) m)
          else (m, Some newTo) in
        inr (mkExclude (erase newTo (Some newFrom) m))
    end.

Definition excludeBefore (to : Component) (e : Exclude) : exn + Exclude :=
  excludeRange_from NegInf to e.
Definition excludeRange (from to : Component) (e : Exclude) : exn + Exclude :=
  excludeRange_from (Bound from) to e.

Definition excludeAfter (from : Component) (e : Exclude) : Exclude :=
  let '(m, newFrom) := range_start (Bound from) (m_entries e) in
  mkExclude (erase (fst <$> head m) (Some newFrom) m).

(** [operator==] compares the maps. *)
Definition Exclude_equals (a b : Exclude) : bool := bool_decide (m_entries a = m_entries b).

(** ** Enumeration: the ranges, in ascending order *)
Record Range := mkRange {
  r_from : option Component;   (** [None]: from minus infinity *)
  r_to : option Component      (** [None]: to plus infinity *)
}.

Definition key_component (k : ExcludeComponent) : option Component :=
  match k with NegInf => None | Bound c => Some c end.

(** From [rbegin()]: [update] computes the range at an entry, [operator++] skips the
    upper end of a range, which is expected not to start another one. *)
Fixpoint ranges_from (fuel : nat) (entries : list Entry) : exn + list Range :=
  match fuel, entries with
  | _, [] => inr []
  | O, _ => inl OutOfFuel
  | S fuel, (k, false) :: rest =>
      if decide (k = NegInf) then inl (Aborted "!m_it->first.isNegInf")
      else cons (mkRange (key_component k) (key_component k)) <$> ranges_from fuel rest
  | S fuel, [(k, true)] => inr [mkRange (key_component k) None]
  | S fuel, (k, true) :: (k', any) :: rest =>
      if any then inl (Aborted "m_it->second == false")
      else cons (mkRange (key_component k) (key_component k')) <$> ranges_from fuel rest
  end.

Definition ranges (e : Exclude) : exn + list Range :=
  ranges_from (length (m_entries e)) (rev (m_entries e)).
Definition Exclude_size (e : Exclude) : exn + nat := length <$> ranges e.

(** ** Wire format *)
Section template.
Context {E : Type} `{!EncodingImpl E}.

Fixpoint entries_wireEncode (entries : list Entry) (totalLength : Z) : M E Z :=
  match entries with
  | [] => mret totalLength
  | (k, any) :: entries =>
      n1 ← (if any then prependEmptyBlock tlv.Any else mret 0);
      n2 ← match k with NegInf => mret 0 | Bound c => Component_wireEncode c end;
      entries_wireEncode entries (totalLength + n1 + n2)
  end.

Definition Exclude_wireEncode (e : Exclude) : M E Z :=
  if Exclude_empty e then throw (TlvError "cannot encode empty Exclude selector") else
  totalLength ← entries_wireEncode (m_entries e) 0;
  n1 ← prependVarNumber totalLength;
  n2 ← prependVarNumber tlv.Exclude;
  mret (totalLength + n1 + n2).
End template.

(** The loop of [wireDecode] over the sub-elements. *)
Fixpoint decode_entries (fuel : nat) (elements : list Block) (e : Exclude) : exn + Exclude :=
  match fuel, elements with
  | _, [] => inr e
  | O, _ => inl OutOfFuel
  | S fuel, i :: rest =>
      match Component_of_block i with
      | inl _ => inl (TlvError "Incorrect format of Exclude filter")
      | inr component =>
          match rest with
          | j :: rest' =>
              if m_type j =? tlv.Any
              then decode_entries fuel rest' (appendEntry (Bound component) true e)
              else decode_entries fuel rest (appendEntry (Bound component) false e)
          | [] => decode_entries fuel rest (appendEntry (Bound component) false e)
          end
      end
  end.

Definition Exclude_wireDecode (wire : Block) : exn + Exclude :=
  if negb (m_type wire =? tlv.Exclude)
  then inl (TlvError "Unexpected TLV type when decoding Exclude") else
  elements ← parsed wire;
  match elements with
  | [] => inl (TlvError "Exclude element cannot be empty")
  | i :: rest =>
      if m_type i =? tlv.Any
      then decode_entries (length elements) rest (appendEntry NegInf true Exclude_new)
      else decode_entries (length elements) elements Exclude_new
  end.
