(* ===== verification/ExcludeSpec.v ===== *)
(** * ExcludeSpec: the filter as a set of components

    [covers m c] is [isExcluded] on the list of entries.  Every operation keeps the
    entries in order, and the theorems say which components each of them excludes. *)
From S2P Require Import Prelude Tlv Encoder Block BlockSpec Names NameWire Exclude.

(** ** The order of keys *)
Lemma key_gt_spec a b : key_gt a b = true <-> compare b a = Lt.
Proof.
  unfold key_gt. rewrite (compare_opp b a). destruct (compare b a); simpl; done.
Qed.

Lemma key_gt_irrefl a : key_gt a a = false.
Proof. unfold key_gt. by rewrite compare_refl. Qed.

Lemma key_gt_trans a b c : key_gt a b = true -> key_gt b c = true -> key_gt a c = true.
Proof. rewrite !key_gt_spec. intros H1 H2. by eapply compare_lt_trans. Qed.

Lemma key_gt_asym a b : key_gt a b = true -> key_gt b a = false.
Proof.
  intros H. destruct (key_gt b a) eqn:E; [|done].
  pose proof (key_gt_trans _ _ _ H E) as H2. by rewrite key_gt_irrefl in H2.
Qed.

Lemma key_gt_total a b : key_gt a b = false -> key_gt b a = false -> a = b.
Proof.
  unfold key_gt. rewrite (compare_opp a b), <-compare_eq. by destruct (compare a b).
Qed.

(** [a] above [b], [b] not below [c]. *)
Lemma key_gt_le a b c : key_gt a b = true -> key_gt c b = false -> key_gt a c = true.
Proof.
  intros H1 H2. destruct (key_gt b c) eqn:E; [by eapply key_gt_trans|].
  by rewrite <-(key_gt_total _ _ H2 E) in H1.
Qed.
Lemma key_le_gt a b c : key_gt b a = false -> key_gt b c = true -> key_gt a c = true.
Proof.
  intros H1 H2. destruct (key_gt a b) eqn:E; [by eapply key_gt_trans|].
  by rewrite (key_gt_total _ _ E H1).
Qed.
Lemma key_le_trans a b c : key_gt a b = false -> key_gt b c = false -> key_gt a c = false.
Proof.
  intros H1 H2. destruct (key_gt a c) eqn:E; [|done].
  destruct (key_gt b a) eqn:E2; [by rewrite (key_gt_trans _ _ _ E2 E) in H2|].
  by rewrite (key_gt_total _ _ H1 E2), H2 in E.
Qed.

(** ** Ordered entries *)
Definition above (x y : Entry) : Prop := key_gt x.1 y.1 = true.
Definition desc (m : ExcludeMap) : Prop := StronglySorted above m.

Definition all_above (k : ExcludeComponent) (m : ExcludeMap) : Prop :=
  Forall (fun e => key_gt e.1 k = true) m.
Definition none_above (k : ExcludeComponent) (m : ExcludeMap) : Prop :=
  Forall (fun e => key_gt e.1 k = false) m.

Lemma desc_app a b : desc (a ++ b) <-> desc a /\ desc b /\ Forall (fun x => Forall (above x) b) a.
Proof.
  unfold desc. induction a as [|x a IH]; simpl.
  { split; [|by intros (_ & ? & _)]. intros H. split_and!; [constructor|done|constructor]. }
  split.
  - intros H. inversion H as [|? ? H1 H2]; subst. apply IH in H1 as (Ha & Hb & Hab).
    apply Forall_app in H2 as [H2 H3]. split_and!; [by constructor|done|by constructor].
  - intros (Ha & Hb & Hab). inversion Ha as [|? ? H1 H2]; subst.
    inversion Hab as [|? ? H3 H4]; subst. constructor; [by apply IH|]. by apply Forall_app.
Qed.

(** The entries above a key come first. *)
Lemma desc_split k m :
  desc m -> exists hi lo, m = hi ++ lo /\ all_above k hi /\ none_above k lo.
Proof.
  induction 1 as [|x m Hm (hi & lo & -> & Hhi & Hlo) Hx].
  { exists [], []. split_and!; constructor. }
  destruct (key_gt x.1 k) eqn:E.
  - exists (x :: hi), lo. split_and!; [done|by constructor|done].
  - exists [], (x :: hi ++ lo). split_and!; [done|constructor|]. constructor; [done|].
    eapply Forall_impl; [exact Hx|]. intros y Hy. unfold above in Hy.
    destruct (key_gt y.1 k) eqn:E2; [|done]. by rewrite (key_gt_trans _ _ _ Hy E2) in E.
Qed.

Lemma all_above_ne k m e : all_above k m -> e ∈ m -> e.1 <> k.
Proof.
  unfold all_above. rewrite Forall_forall. intros H Hin <-. specialize (H e Hin).
  simpl in H. by rewrite key_gt_irrefl in H.
Qed.

Lemma all_above_weaken k k' m : all_above k m -> key_gt k' k = false -> all_above k' m.
Proof. intros H Hk. eapply Forall_impl; [exact H|]. intros e He. exact (key_gt_le _ _ _ He Hk). Qed.

Lemma none_above_weaken k k' m : none_above k m -> key_gt k k' = false -> none_above k' m.
Proof. intros H Hk. eapply Forall_impl; [exact H|]. intros e He. exact (key_le_trans _ _ _ He Hk). Qed.

(** ** [lower_bound] and [covers] *)
Lemma lower_bound_app k a b :
  lower_bound k (a ++ b) =
    match lower_bound k a with Some e => Some e | None => lower_bound k b end.
Proof. unfold lower_bound. induction a as [|x a IH]; simpl; [done|]. by destruct (negb _). Qed.

Lemma lower_bound_none k a : all_above k a -> lower_bound k a = None.
Proof.
  unfold lower_bound. induction 1 as [|x a Hx _ IH]; [done|]. simpl in *. by rewrite Hx.
Qed.

Lemma lower_bound_head k x a : key_gt x.1 k = false -> lower_bound k (x :: a) = Some x.
Proof. intros H. unfold lower_bound. simpl. by rewrite H. Qed.

Lemma lower_bound_skip k x a : key_gt x.1 k = true -> lower_bound k (x :: a) = lower_bound k a.
Proof. intros H. unfold lower_bound. simpl. by rewrite H. Qed.

Lemma lower_bound_above k a b :
  all_above k a -> lower_bound k (a ++ b) = lower_bound k b.
Proof. intros H. by rewrite lower_bound_app, lower_bound_none. Qed.

Lemma lower_bound_none_above k m : none_above k m -> lower_bound k m = head m.
Proof. intros H. destruct m as [|x m]; [done|]. apply lower_bound_head. by inversion H. Qed.

(** What one entry says about a component that is not below it. *)
Definition entry_covers (e : Entry) (c : Component) : bool :=
  e.2 || match e.1 with NegInf => false | Bound x => component_equals x c end.
Definition covers (m : ExcludeMap) (c : Component) : bool :=
  match lower_bound (Bound c) m with None => false | Some e => entry_covers e c end.

Lemma isExcluded_covers c e : isExcluded c e = covers (m_entries e) c.
Proof. unfold isExcluded, covers. by destruct (lower_bound _ _) as [[]|]. Qed.

Lemma entry_covers_false k c : entry_covers (k, false) c = bool_decide (k = Bound c).
Proof.
  unfold entry_covers. simpl. destruct k as [|x]; [done|].
  destruct (component_equals x c) eqn:E.
  - apply component_equals_spec in E as ->. by rewrite bool_decide_eq_true_2.
  - rewrite bool_decide_eq_false_2; [done|]. intros [= ->].
    by rewrite (proj2 (component_equals_spec c c) eq_refl) in E.
Qed.

(** ** The map operations on ordered entries *)
Lemma emplace_above k v hi lo :
  all_above k hi -> emplace k v (hi ++ lo) = (hi ++ (emplace k v lo).1, (emplace k v lo).2).
Proof.
  induction 1 as [|x hi Hx _ IH]; simpl; [by destruct (emplace k v lo)|].
  rewrite Hx, IH. by destruct (emplace k v lo).
Qed.

(** Below a key there is no entry, the key's own entry, or a lower one. *)
Lemma emplace_none_above k v lo :
  none_above k lo ->
  (exists f lo', lo = (k, f) :: lo' /\ emplace k v lo = (lo, false)) \/
  (Forall (fun e => key_gt k e.1 = true) (take 1 lo) /\ emplace k v lo = ((k, v) :: lo, true)).
Proof.
  destruct lo as [|[k' f] lo]; intros H; simpl; [right; by split|].
  inversion H as [|? ? H1 _]; subst. simpl in H1. rewrite H1.
  destruct (key_gt k k') eqn:E; [right; split; [by constructor|done]|].
  left. rewrite (key_gt_total _ _ H1 E). by exists f, lo.
Qed.

Lemma set_any_not_in k m : (forall e, e ∈ m -> e.1 <> k) -> set_any k m = m.
Proof.
  unfold set_any. induction m as [|e m IH]; intros H; [done|]. cbn.
  rewrite decide_False by (apply H; left). f_equal. apply IH. intros e' He'. apply H. by right.
Qed.

Lemma set_any_at k f hi lo :
  all_above k hi -> desc ((k, f) :: lo) ->
  set_any k (hi ++ (k, f) :: lo) = hi ++ (k, true) :: lo.
Proof.
  intros Hhi Hlo. inversion Hlo as [|? ? _ Hx]; subst. unfold set_any. rewrite fmap_app.
  fold (set_any k hi). rewrite set_any_not_in by (intros e He; by eapply all_above_ne).
  f_equal. cbn. rewrite decide_True by done. f_equal. apply set_any_not_in.
  intros e He <-. rewrite Forall_forall in Hx. specialize (Hx e He). unfold above in Hx.
  by rewrite key_gt_irrefl in Hx.
Qed.

Lemma next_key_at k f hi lo :
  all_above k hi -> next_key k (hi ++ (k, f) :: lo) = fst <$> head lo.
Proof.
  induction 1 as [|e hi He _ IH]; simpl; [by rewrite decide_True|].
  rewrite decide_False; [done|]. intros E. by rewrite E, key_gt_irrefl in He.
Qed.

Lemma drop_until_at k f mid lo :
  all_above k mid -> drop_until (Some k) (mid ++ (k, f) :: lo) = (k, f) :: lo.
Proof.
  induction 1 as [|e mid He _ IH]; simpl; [by rewrite decide_True|].
  rewrite decide_False; [done|]. intros [= E]. by rewrite E, key_gt_irrefl in He.
Qed.

(** [erase(newTo, newFrom)]: the entries between the two go. *)
Lemma erase_at hi mid k f lo first :
  desc (hi ++ mid ++ (k, f) :: lo) -> first = fst <$> head (mid ++ [(k, f)]) ->
  erase first (Some k) (hi ++ mid ++ (k, f) :: lo) = hi ++ (k, f) :: lo.
Proof.
  intros Hd ->. assert (all_above k mid) as Hmid.
  { apply desc_app in Hd as (_ & Hd & _). apply desc_app in Hd as (_ & _ & Hd).
    eapply Forall_impl; [exact Hd|]. intros x Hx. by inversion Hx. }
  induction hi as [|e hi IH]; simpl.
  - destruct mid as [|x mid]; simpl; (rewrite decide_True by done).
    + by apply (drop_until_at k f []).
    + by apply (drop_until_at k f (x :: mid)).
  - inversion Hd as [|? ? Hd' He]; subst. rewrite decide_False.
    + f_equal. by apply IH.
    + destruct mid as [|x mid]; simpl; intros [= E];
        apply Forall_app in He as [_ He]; inversion He as [|? ? Hx _]; unfold above in Hx;
        simpl in Hx; by rewrite E, key_gt_irrefl in Hx.
Qed.

(** ** The start of a range *)

(** How the entries [low] that are not above [from] become those of a range that starts
    at [from]: there is such a range already, the key's own entry gets the flag, or a
    new entry is put before them. *)
Inductive started (from : ExcludeComponent) : ExcludeMap -> ExcludeComponent -> ExcludeMap -> Prop :=
| started_already kf lo : started from ((kf, true) :: lo) kf lo
| started_own lo : started from ((from, false) :: lo) from lo
| started_new lo :
    Forall (fun e => key_gt from e.1 = true) lo ->
    (forall e, head lo = Some e -> e.2 = false) -> started from lo from lo.

Lemma desc_cons_below k v lo :
  desc lo -> Forall (fun e => key_gt k e.1 = true) (take 1 lo) ->
  desc ((k, v) :: lo) /\ Forall (fun e => key_gt k e.1 = true) lo.
Proof.
  intros Hlo H. assert (Forall (fun e => key_gt k e.1 = true) lo) as Hall.
  { destruct Hlo as [|x lo Hlo Hx]; [done|]. inversion H as [|? ? H1 _]; subst. constructor; [done|].
    eapply Forall_impl; [exact Hx|]. intros y Hy. exact (key_gt_trans _ _ _ H1 Hy). }
  split; [|done]. by constructor.
Qed.

Lemma desc_hi_lo from hi lo : desc hi -> desc lo -> all_above from hi -> none_above from lo -> desc (hi ++ lo).
Proof.
  intros H1 H2 H3 H4. apply desc_app. split_and!; [done..|].
  eapply Forall_impl; [exact H3|]. intros x Hx. eapply Forall_impl; [exact H4|].
  intros y Hy. exact (key_gt_le _ _ _ Hx Hy).
Qed.

Lemma range_start_spec from m :
  desc m -> exists hi low kf lo, m = hi ++ low /\ all_above from hi /\ none_above from low /\
    range_start from m = (hi ++ (kf, true) :: lo, kf) /\ started from low kf lo /\
    desc (hi ++ (kf, true) :: lo) /\ none_above from ((kf, true) :: lo).
Proof.
  intros Hd. destruct (desc_split from m Hd) as (hi & low & -> & Hhi & Hlow).
  apply desc_app in Hd as (Hd1 & Hd2 & Hd3). exists hi, low. unfold range_start.
  rewrite (lower_bound_above _ _ _ Hhi), (lower_bound_none_above _ _ Hlow).
  rewrite (emplace_above _ _ _ _ Hhi). cbv zeta. cbn [fst snd].
  assert (key_gt from from = false) as Hirr by apply key_gt_irrefl.
  assert ((exists k lo, low = (k, true) :: lo) \/ (forall e, head low = Some e -> e.2 = false)) as Hflag.
  { destruct low as [|[k []] lo]; [by right|left; by exists k, lo|right; by intros e [= <-]]. }
  destruct Hflag as [(k & lo & ->)|Hflag].
  { exists k, lo. cbn. split_and!; [done..|constructor| |done]. by eapply desc_hi_lo. }
  destruct (emplace_none_above from true low Hlow) as [(f & lo & -> & ->)|[Hbelow ->]].
  - pose proof (Hflag _ eq_refl) as Hf. simpl in Hf. subst f. exists from, lo. cbn.
    rewrite set_any_at by done.
    inversion Hd2 as [|? ? Hd2' Hx]; subst. inversion Hlow as [|? ? _ Hlow']; subst.
    split_and!; [done..|constructor| |by constructor].
    eapply desc_hi_lo; [done|by constructor|exact Hhi|by constructor].
  - exists from, low. destruct (desc_cons_below from true low Hd2 Hbelow) as [Hd' Hall].
    split_and!; [done|done|done| |by constructor| |by constructor].
    + destruct low as [|[k f] low]; [done|]. pose proof (Hflag _ eq_refl) as Hf. simpl in Hf.
      subst f. done.
    + eapply desc_hi_lo; [done..|by constructor].
Qed.

(** Starting a range at [from] adds everything from there on. *)
Lemma covers_above a b c : all_above (Bound c) a -> covers (a ++ b) c = covers b c.
Proof. intros H. unfold covers. by rewrite lower_bound_above. Qed.

Lemma covers_head k f lo c : key_gt k (Bound c) = false -> covers ((k, f) :: lo) c = entry_covers (k, f) c.
Proof. intros H. unfold covers. by rewrite lower_bound_head. Qed.

Lemma covers_skip k f lo c : key_gt k (Bound c) = true -> covers ((k, f) :: lo) c = covers lo c.
Proof. intros H. unfold covers. by rewrite lower_bound_skip. Qed.

Lemma covers_started from low kf lo c :
  started from low kf lo -> none_above from ((kf, true) :: lo) ->
  covers ((kf, true) :: lo) c = covers low c || negb (key_gt from (Bound c)).
Proof.
  intros Hs Hn. assert (key_gt kf from = false) as Hkf by (by inversion Hn).
  destruct (key_gt from (Bound c)) eqn:E; simpl.
  - rewrite orb_false_r. destruct Hs as [kf lo|lo|lo Hlo Hf]; [done| |].
    + by rewrite !covers_skip.
    + by rewrite covers_skip.
  - rewrite orb_true_r. rewrite covers_head; [done|]. by eapply key_le_trans.
Qed.

(** Beyond the start, only a range that was there before is excluded already. *)
Lemma covers_beyond_start from low kf lo c :
  started from low kf lo -> none_above from low -> key_gt (Bound c) from = true ->
  covers low c = bool_decide (low = (kf, true) :: lo).
Proof.
  intros Hs Hn Hc. assert (none_above (Bound c) low) as Hn'.
  { eapply none_above_weaken; [exact Hn|]. by apply key_gt_asym. }
  unfold covers. rewrite (lower_bound_none_above _ _ Hn').
  destruct Hs as [kf lo|lo|lo Hlo Hf]; simpl.
  - by rewrite bool_decide_eq_true_2.
  - rewrite bool_decide_eq_false_2 by done. rewrite entry_covers_false.
    apply bool_decide_eq_false_2. intros ->. by rewrite key_gt_irrefl in Hc.
  - rewrite bool_decide_eq_false_2.
    2: { intros E. apply (f_equal length) in E. simpl in E. lia. }
    destruct lo as [|[k f] lo]; [done|]. pose proof (Hf _ eq_refl) as Hf'. simpl in Hf'. subst f.
    simpl. rewrite entry_covers_false. apply bool_decide_eq_false_2. intros ->.
    inversion Hlo as [|? ? H1 _]; subst. simpl in H1. pose proof (key_gt_trans _ _ _ Hc H1) as H2.
    by rewrite key_gt_irrefl in H2.
Qed.

(** ** What each operation excludes *)
Definition in_range (from : ExcludeComponent) (to c : Component) : bool :=
  negb (key_gt from (Bound c)) && negb (key_gt (Bound c) (Bound to)).

(** The part of a range that an inner range cuts off: [from] and [to] lie in one range
    that is there already, and so does the component, above [to]. *)
Definition cut_off (from : ExcludeComponent) (to c : Component) (m : ExcludeMap) : bool :=
  match lower_bound from m with
  | Some (k, true) =>
      bool_decide (lower_bound (Bound to) m = Some (k, true)) &&
      bool_decide (lower_bound (Bound c) m = Some (k, true)) && key_gt (Bound c) (Bound to)
  | _ => false
  end.

Lemma excludeOne_covers c e :
  desc (m_entries e) ->
  desc (m_entries (excludeOne c e)) /\
  forall c', isExcluded c' (excludeOne c e) = isExcluded c' e || bool_decide (c' = c).
Proof.
  intros Hd. unfold excludeOne. destruct (isExcluded c e) eqn:Ec; cbn [negb].
  { split; [done|]. intros c'. case_bool_decide as E; [by subst; rewrite Ec|by rewrite orb_false_r]. }
  rewrite isExcluded_covers in Ec. setoid_rewrite isExcluded_covers. unfold appendEntry.
  cbn [m_entries]. destruct (desc_split (Bound c) _ Hd) as (hi & low & Em & Hhi & Hlow).
  rewrite Em in *. rewrite (emplace_above _ _ _ _ Hhi). cbn [fst].
  apply desc_app in Hd as (Hd1 & Hd2 & Hd3). rewrite covers_above in Ec by done.
  destruct (emplace_none_above (Bound c) false low Hlow) as [(f & lo & -> & _)|[Hbelow ->]].
  { rewrite covers_head in Ec by apply key_gt_irrefl. unfold entry_covers in Ec. simpl in Ec.
    rewrite (proj2 (component_equals_spec c c) eq_refl), orb_true_r in Ec. done. }
  destruct (desc_cons_below (Bound c) false low Hd2 Hbelow) as [Hd' Hall]. cbn [fst]. split.
  { apply desc_hi_lo with (from := Bound c); [done..|]. constructor; [apply key_gt_irrefl|done]. }
  intros c'. unfold covers at 1 2. rewrite !lower_bound_app.
  destruct (lower_bound (Bound c') hi) as [x|] eqn:Ex.
  { case_bool_decide as E; [|by rewrite orb_false_r]. subst.
    by rewrite (lower_bound_none _ _ Hhi) in Ex. }
  fold (covers ((Bound c, false) :: low) c') (covers low c').
  destruct (key_gt (Bound c) (Bound c')) eqn:E.
  - rewrite covers_skip by done. rewrite bool_decide_eq_false_2, orb_false_r; [done|].
    intros ->. by rewrite key_gt_irrefl in E.
  - rewrite covers_head, entry_covers_false by done. case_bool_decide as E1; case_bool_decide as E2;
      [by rewrite orb_true_r|naive_solver|naive_solver|].
    assert (key_gt (Bound c') (Bound c) = true) as Hgt.
    { destruct (key_gt (Bound c') (Bound c)) eqn:E'; [done|]. by pose proof (key_gt_total _ _ E E'). }
    destruct low as [|[k f] low]; [done|]. rewrite orb_false_r.
    rewrite covers_head in Ec |- *.
    + unfold entry_covers in *. simpl in *. apply orb_false_iff in Ec as [-> _]. simpl.
      destruct k as [|x]; [done|]. destruct (component_equals x c') eqn:Ee; [|done].
      apply component_equals_spec in Ee as ->. inversion Hlow as [|? ? H1 _]; subst. simpl in H1.
      by rewrite Hgt in H1.
    + by inversion Hlow.
    + inversion Hlow as [|? ? H1 _]; subst. exact (key_le_trans _ _ _ H1 (key_gt_asym _ _ Hgt)).
Qed.

Lemma excludeAfter_covers from e :
  desc (m_entries e) ->
  desc (m_entries (excludeAfter from e)) /\
  forall c, isExcluded c (excludeAfter from e) = isExcluded c e || negb (key_gt (Bound from) (Bound c)).
Proof.
  intros Hd. setoid_rewrite isExcluded_covers. unfold excludeAfter.
  destruct (range_start_spec (Bound from) _ Hd)
    as (hi & low & kf & lo & -> & Hhi & Hlow & -> & Hs & Hd' & Hn). cbn [m_entries].
  rewrite (erase_at [] hi kf true lo); [|done|by destruct hi].
  apply desc_app in Hd' as (_ & Hd' & _). split; [done|]. intros c.
  cbn [app]. rewrite (covers_started _ low) by done.
  destruct (key_gt (Bound from) (Bound c)) eqn:E; [|by rewrite !orb_true_r].
  rewrite !orb_false_r. rewrite covers_above; [done|].
  eapply all_above_weaken; [exact Hhi|]. by apply key_gt_asym.
Qed.

(** The end of a range: the entries between it and the start go, and an entry for the
    end itself is put there unless another range goes on from inside. *)
Definition range_stop (to : Component) (mid : ExcludeMap) : ExcludeMap :=
  match mid with (_, true) :: _ => [] | _ => [(Bound to, false)] end.

Lemma desc_without a b c : desc (a ++ b ++ c) -> desc (a ++ c).
Proof.
  intros H. apply desc_app in H as (Ha & Hbc & Hab). apply desc_app in Hbc as (_ & Hc & _).
  apply desc_app. split_and!; [done..|]. eapply Forall_impl; [exact Hab|].
  intros x Hx. by apply Forall_app in Hx as [_ Hx].
Qed.

(** [emplace] of the end, and the entry that follows it. *)
Lemma emplace_stop to hi rest :
  desc (hi ++ rest) -> all_above (Bound to) hi -> none_above (Bound to) rest ->
  match rest with (k, true) :: _ => k <> Bound to | _ => True end ->
  exists rest', (emplace (Bound to) false (hi ++ rest)).1 = hi ++ (Bound to, false) :: rest' /\
    (rest' = rest \/ rest = (Bound to, false) :: rest') /\
    desc (hi ++ (Bound to, false) :: rest') /\
    next_key (Bound to) (hi ++ (Bound to, false) :: rest') = fst <$> head rest'.
Proof.
  intros Hd Hhi Hrest Hk. rewrite (emplace_above _ _ _ _ Hhi). cbn [fst].
  destruct (emplace_none_above (Bound to) false rest Hrest) as [(f & lo & -> & ->)|[Hbelow ->]].
  - destruct f; [done|]. exists lo. split_and!; [done|by right|done|by apply next_key_at].
  - exists rest. apply desc_app in Hd as (H1 & H2 & _).
    destruct (desc_cons_below (Bound to) false rest H2 Hbelow) as [H3 _].
    split_and!; [done|by left| |by apply next_key_at].
    apply desc_hi_lo with (from := Bound to); [done..|]. constructor; [apply key_gt_irrefl|done].
Qed.

Lemma range_stop_spec to hi mid kf lo :
  desc (hi ++ mid ++ (kf, true) :: lo) -> all_above (Bound to) hi ->
  none_above (Bound to) (mid ++ (kf, true) :: lo) -> key_gt (Bound to) kf = true ->
  exists newTo any, lower_bound (Bound to) (hi ++ mid ++ (kf, true) :: lo) = Some (newTo, any) /\
    let '(m, newTo) :=
      if bool_decide (newTo = kf) || negb any
      then let m := (emplace (Bound to) false (hi ++ mid ++ (kf, true) :: lo)).1 in
           (m, next_key (Bound to) m)
      else (hi ++ mid ++ (kf, true) :: lo, Some newTo) in
    erase newTo (Some kf) m = hi ++ range_stop to mid ++ (kf, true) :: lo /\
    desc (hi ++ range_stop to mid ++ (kf, true) :: lo).
Proof.
  intros Hd Hhi Hrest Hkf. rewrite (lower_bound_above _ _ _ Hhi), (lower_bound_none_above _ _ Hrest).
  assert (kf <> Bound to) as Hne by (intros ->; by rewrite key_gt_irrefl in Hkf).
  assert (forall mid', desc (hi ++ (Bound to, false) :: mid' ++ (kf, true) :: lo) ->
    erase (fst <$> head (mid' ++ (kf, true) :: lo)) (Some kf)
      (hi ++ (Bound to, false) :: mid' ++ (kf, true) :: lo)
    = hi ++ (Bound to, false) :: (kf, true) :: lo /\
    desc (hi ++ (Bound to, false) :: (kf, true) :: lo)) as Hstop.
  { intros mid' Hd'. rewrite (cons_middle _ hi), app_assoc in Hd' |- *. split.
    - rewrite erase_at; [by rewrite <-app_assoc|done|by destruct mid'].
    - rewrite (cons_middle _ hi), app_assoc. by apply desc_without with mid'. }
  destruct mid as [|[x any] mid]; cbn [app head range_stop].
  - exists kf, true. split; [done|]. rewrite bool_decide_eq_true_2 by done. cbn [orb].
    destruct (emplace_stop to hi ((kf, true) :: lo)) as (rest' & -> & Hr & Hd' & ->); [done..|].
    destruct Hr as [->|[=]]. by apply (Hstop []).
  - exists x, any. split; [done|]. destruct any; cbn [negb app].
    + rewrite bool_decide_eq_false_2; cbn [orb].
      * split; [by apply (erase_at hi ((x, true) :: mid))|].
        by apply desc_without with ((x, true) :: mid).
      * intros ->. apply desc_app in Hd as (_ & Hd & _). inversion Hd as [|? ? _ Hx]; subst.
        apply Forall_app in Hx as [_ Hx]. inversion Hx as [|? ? Hx1 _]; subst.
        unfold above in Hx1. by rewrite key_gt_irrefl in Hx1.
    + rewrite orb_true_r.
      destruct (emplace_stop to hi ((x, false) :: mid ++ (kf, true) :: lo))
        as (rest' & -> & Hr & Hd' & ->); [done..|].
      destruct Hr as [->|[= -> <-]]; [by apply (Hstop ((x, false) :: mid))|by apply (Hstop mid)].
Qed.

(** The entries after [excludeRange]: what is above [to], the end and the start. *)
Lemma excludeRange_entries from to e :
  desc (m_entries e) -> key_gt (Bound to) from = true ->
  exists hi mid low kf lo, m_entries e = hi ++ mid ++ low /\
    all_above (Bound to) hi /\ none_above (Bound to) (mid ++ low) /\
    all_above from mid /\ none_above from low /\
    started from low kf lo /\ none_above from ((kf, true) :: lo) /\
    desc (hi ++ range_stop to mid ++ (kf, true) :: lo) /\
    excludeRange_from from to e = inr (mkExclude (hi ++ range_stop to mid ++ (kf, true) :: lo)).
Proof.
  intros Hd Hto. unfold excludeRange_from. rewrite Hto. cbn [negb].
  destruct (range_start_spec from _ Hd)
    as (hi' & low & kf & lo & -> & Hhi' & Hlow & -> & Hs & Hd' & Hn).
  pose proof Hd' as Hd1. apply desc_app in Hd1 as (Hdhi & _ & _).
  destruct (desc_split (Bound to) _ Hdhi) as (hi & mid & -> & Hhi & Hmid).
  apply Forall_app in Hhi' as [_ Hmid'].
  assert (forall m, none_above from m -> none_above (Bound to) m) as Hup.
  { intros m Hm. eapply none_above_weaken; [exact Hm|by apply key_gt_asym]. }
  assert (key_gt (Bound to) kf = true) as Hkf.
  { inversion Hn as [|? ? H1 _]; subst. exact (key_gt_le _ _ _ Hto H1). }
  rewrite <-!app_assoc in *.
  destruct (range_stop_spec to hi mid kf lo Hd' Hhi) as (newTo & any & -> & Hstop);
    [apply Forall_app; split; [exact Hmid|exact (Hup _ Hn)]|done|].
  exists hi, mid, low, kf, lo. destruct (_ || _); destruct Hstop as [-> Hd2];
    (split_and!; [done|done|apply Forall_app; split; [exact Hmid|exact (Hup _ Hlow)]|done..]).
Qed.

(** The three places a component can be at, when no entry above [to] speaks for it. *)
Section covers_range.
Context (from : ExcludeComponent) (to c : Component) (mid low lo : ExcludeMap) (kf : ExcludeComponent).
Hypothesis Hto : key_gt (Bound to) from = true.
Hypothesis Hmid : all_above from mid.
Hypothesis Hlow : none_above from low.
Hypothesis Hml : none_above (Bound to) (mid ++ low).
Hypothesis Hs : started from low kf lo.
Hypothesis Hn : none_above from ((kf, true) :: lo).

Lemma covers_before :
  key_gt from (Bound c) = true ->
  covers (range_stop to mid ++ (kf, true) :: lo) c = covers (mid ++ low) c.
Proof.
  intros Hc. pose proof (key_gt_trans _ _ _ Hto Hc) as Htc.
  rewrite !covers_above.
  - rewrite (covers_started _ low) by done. by rewrite Hc, orb_false_r.
  - eapply all_above_weaken; [exact Hmid|]. by apply key_gt_asym.
  - unfold range_stop. destruct mid as [|[x []] mid']; by repeat constructor.
Qed.

Lemma covers_inside :
  in_range from to c = true -> covers (range_stop to mid ++ (kf, true) :: lo) c = true.
Proof.
  unfold in_range. intros [H1 H2]%andb_true_iff. apply negb_true_iff in H1, H2.
  assert (covers ((kf, true) :: lo) c = true) as Hin.
  { rewrite (covers_started _ low) by done. by rewrite H1, orb_true_r. }
  assert (covers ((Bound to, false) :: (kf, true) :: lo) c = true) as Hin'.
  { destruct (key_gt (Bound to) (Bound c)) eqn:E; [by rewrite covers_skip|].
    rewrite covers_head, entry_covers_false by done. apply bool_decide_eq_true.
    by apply key_gt_total. }
  unfold range_stop. by destruct mid as [|[x []] mid'].
Qed.

Lemma covers_after :
  key_gt (Bound c) (Bound to) = true ->
  covers (range_stop to mid ++ (kf, true) :: lo) c =
    covers (mid ++ low) c && negb (bool_decide (mid = [] /\ low = (kf, true) :: lo)).
Proof.
  intros Hc. pose proof (key_gt_trans _ _ _ Hc Hto) as Hcf.
  assert (none_above (Bound c) (mid ++ low)) as Hml'
    by (eapply none_above_weaken; [exact Hml|by apply key_gt_asym]).
  assert (forall x, key_gt x (Bound to) = false -> key_gt x (Bound c) = false /\ x <> Bound c) as Hle.
  { intros x Hx. split; [eapply key_le_trans; [exact Hx|by apply key_gt_asym]|].
    intros ->. by rewrite Hc in Hx. }
  assert (forall rest, covers ((Bound to, false) :: rest) c = false) as Hto'.
  { intros rest. rewrite covers_head, entry_covers_false by (by apply key_gt_asym).
    apply bool_decide_eq_false. intros [= ->]. by rewrite key_gt_irrefl in Hc. }
  unfold range_stop. destruct mid as [|[x any] mid']; cbn [app].
  - rewrite Hto', (covers_beyond_start from low kf lo) by done.
    destruct (decide (low = (kf, true) :: lo)) as [E|E].
    + by rewrite !bool_decide_eq_true_2 by done.
    + by rewrite (bool_decide_eq_false_2 (low = _)) by done.
  - rewrite (bool_decide_eq_false_2 (_ :: _ = [] /\ _)), andb_true_r by (by intros []).
    inversion Hml as [|? ? Hx _]; subst. destruct (Hle x Hx) as [Hx1 Hx2].
    rewrite (covers_head x) by done. destruct any.
    + rewrite app_nil_l, (covers_started _ low) by done. rewrite (key_gt_asym _ _ Hcf).
      by rewrite orb_true_r.
    + cbn [app]. rewrite Hto', entry_covers_false. by rewrite bool_decide_eq_false_2.
Qed.

Lemma cut_off_spec hi :
  all_above (Bound to) hi -> lower_bound (Bound c) hi = None -> key_gt (Bound c) (Bound to) = true ->
  cut_off from to c (hi ++ mid ++ low) = bool_decide (mid = [] /\ low = (kf, true) :: lo).
Proof.
  intros Hhi Hc Hgt. unfold cut_off.
  assert (all_above from hi) as Hhi' by (eapply all_above_weaken; [exact Hhi|by apply key_gt_asym]).
  rewrite (lower_bound_above from), (lower_bound_above from) by done.
  rewrite (lower_bound_none_above _ _ Hlow), (lower_bound_above _ _ _ Hhi).
  rewrite (lower_bound_none_above _ _ Hml), lower_bound_app, Hc, Hgt.
  rewrite (lower_bound_none_above (Bound c))
    by (eapply none_above_weaken; [exact Hml|by apply key_gt_asym]).
  assert (forall k, head low = Some (k, true) -> head (mid ++ low) = Some (k, true) ->
    mid = []) as Hmidnil.
  { intros k H1 H2. destruct mid as [|x mid']; [done|]. simpl in H2. injection H2 as ->.
    destruct low as [|y low']; [done|]. injection H1 as ->.
    inversion Hmid as [|? ? H3 _]; inversion Hlow as [|? ? H4 _]; subst. simpl in *. congruence. }
  destruct low as [|[k []] low'] eqn:El; cbn [head].
  - symmetry. apply bool_decide_eq_false. by intros [_ [=]].
  - destruct (decide (mid = [])) as [Em|Em].
    + rewrite Em. cbn [app head]. rewrite !bool_decide_eq_true_2; [done| |done..].
      split; [done|]. inversion Hs; subst; [done|]. by pose proof (H0 _ eq_refl).
    + rewrite (bool_decide_eq_false_2 (mid = [] /\ _)) by naive_solver.
      rewrite bool_decide_eq_false_2; [done|]. intros H. by apply Em, (Hmidnil k).
  - symmetry. apply bool_decide_eq_false. by intros [_ [=]].
Qed.
End covers_range.

(** After [excludeRange] everything from [from] to [to] is excluded, and what was
    excluded before, except what an inner range cuts off. *)
Lemma excludeRange_covers from to e :
  desc (m_entries e) -> key_gt (Bound to) from = true ->
  exists e', excludeRange_from from to e = inr e' /\ desc (m_entries e') /\
    forall c, isExcluded c e' =
      (isExcluded c e && negb (cut_off from to c (m_entries e))) || in_range from to c.
Proof.
  intros Hd Hto. destruct (excludeRange_entries from to e Hd Hto)
    as (hi & mid & low & kf & lo & Em & Hhi & Hml & Hmid & Hlow & Hs & Hn & Hd' & ->).
  eexists. split; [done|]. split; [done|]. intros c. rewrite !isExcluded_covers, Em.
  cbn [m_entries]. destruct (lower_bound (Bound c) hi) as [x|] eqn:Ex.
  - assert (key_gt x.1 (Bound to) = true /\ key_gt x.1 (Bound c) = false) as [H1 H2].
    { unfold lower_bound in Ex. apply find_some in Ex as [Hin Hx%negb_true_iff]. split; [|done].
      unfold all_above in Hhi. rewrite Forall_forall in Hhi. by apply Hhi, list_elem_of_In. }
    assert (key_gt (Bound c) (Bound to) = true) as Hc by (by eapply key_le_gt).
    assert (cut_off from to c (hi ++ mid ++ low) = false) as ->.
    { unfold cut_off. rewrite (lower_bound_above from hi), (lower_bound_above from mid)
        by first [done | eapply all_above_weaken; [exact Hhi|by apply key_gt_asym]].
      rewrite (lower_bound_none_above _ _ Hlow), (lower_bound_app (Bound c)), Ex.
      destruct low as [|[k []] low']; [done| |done]. cbn [head].
      rewrite (bool_decide_eq_false_2 (Some x = _)); [by rewrite andb_false_r|]. intros [= ->].
      inversion Hlow as [|? ? H3 _]; subst. simpl in *.
      by rewrite (key_gt_trans _ _ _ H1 Hto) in H3. }
    unfold covers, in_range. rewrite !lower_bound_app, Ex, Hc.
    by rewrite !andb_false_r, andb_true_r, orb_false_r.
  - unfold covers at 1 2. rewrite !(lower_bound_app _ hi), Ex.
    fold (covers (range_stop to mid ++ (kf, true) :: lo) c) (covers (mid ++ low) c).
    destruct (key_gt (Bound c) (Bound to)) eqn:Hc.
    + rewrite (cut_off_spec from to c mid low lo kf) by done. unfold in_range.
      rewrite Hc, andb_false_r, orb_false_r. by apply (covers_after from).
    + assert (cut_off from to c (hi ++ mid ++ low) = false) as ->.
      { unfold cut_off. destruct (lower_bound from _) as [[? []]|]; [|done..].
        by rewrite Hc, andb_false_r. }
      rewrite andb_true_r. destruct (key_gt from (Bound c)) eqn:Hf.
      * unfold in_range. rewrite Hf, orb_false_r. by apply (covers_before from).
      * assert (in_range from to c = true) as Hin by (unfold in_range; by rewrite Hf, Hc).
        rewrite Hin, orb_true_r. by apply (covers_inside from to c mid low lo kf).
Qed.

(** ** Filters made with the operations *)
Definition component_ok (c : Component) : Prop :=
  component_encodable c /\ isGeneric c || isImplicitSha256Digest c = true.

Definition entry_ok (e : Entry) : Prop :=
  match e.1 with NegInf => e.2 = true | Bound c => component_ok c end.

Definition exclude_ok (e : Exclude) : Prop := desc (m_entries e) /\ Forall entry_ok (m_entries e).

Definition key_ok (k : ExcludeComponent) : Prop :=
  match k with NegInf => True | Bound c => component_ok c end.

Lemma started_entries from low kf lo :
  key_ok from -> Forall entry_ok low -> started from low kf lo -> Forall entry_ok ((kf, true) :: lo).
Proof.
  intros Hk Hl Hs. assert (entry_ok (from, true)) as Hf by (by destruct from).
  destruct Hs; [done| |by constructor]. inversion Hl; by constructor.
Qed.

Lemma Exclude_new_ok : exclude_ok Exclude_new.
Proof. split; constructor. Qed.

Lemma emplace_entries k v m : entry_ok (k, v) -> Forall entry_ok m -> Forall entry_ok (emplace k v m).1.
Proof.
  intros Hk. induction 1 as [|e m He Hm IH]; simpl; [by repeat constructor|].
  destruct (key_gt e.1 k); [destruct (emplace k v m); simpl in *; by constructor|].
  destruct (key_gt k e.1); simpl; by repeat constructor.
Qed.

Lemma excludeOne_ok c e : component_ok c -> exclude_ok e -> exclude_ok (excludeOne c e).
Proof.
  intros Hc [Hd Hall]. split; [by apply excludeOne_covers|]. unfold excludeOne.
  destruct (negb _); [|done]. by apply emplace_entries.
Qed.

Lemma excludeAfter_ok c e : component_ok c -> exclude_ok e -> exclude_ok (excludeAfter c e).
Proof.
  intros Hc [Hd Hall]. split; [by apply excludeAfter_covers|]. unfold excludeAfter.
  destruct (range_start_spec (Bound c) _ Hd)
    as (hi & low & kf & lo & E & Hhi & Hlow & -> & Hs & Hd' & Hn). rewrite E in Hall.
  rewrite (erase_at [] hi kf true lo); [|done|by destruct hi]. cbn [m_entries app].
  apply Forall_app in Hall as [_ Hl]. exact (started_entries (Bound c) _ _ _ Hc Hl Hs).
Qed.

Lemma excludeRange_ok from to e e' :
  key_ok from -> component_ok to -> exclude_ok e -> excludeRange_from from to e = inr e' ->
  exclude_ok e'.
Proof.
  intros Hf Ht [Hd Hall] E. destruct (key_gt (Bound to) from) eqn:Hto.
  2: { unfold excludeRange_from in E. by rewrite Hto in E. }
  destruct (excludeRange_entries from to e Hd Hto)
    as (hi & mid & low & kf & lo & Em & Hhi & Hml & Hmid & Hlow & Hs & Hn & Hd' & E').
  rewrite E in E'. injection E' as ->. split; [done|]. rewrite Em in Hall.
  apply Forall_app in Hall as [H1 H2]. apply Forall_app in H2 as [_ H2]. cbn [m_entries].
  apply Forall_app. split; [done|]. apply Forall_app. split; [|by eapply started_entries].
  assert (Forall entry_ok [(Bound to, false)]) as Hstop by (constructor; [exact Ht|constructor]).
  unfold range_stop. destruct mid as [|[x []] mid]; done.
Qed.

(** ** Wire format *)
Definition entry_elements (e : Entry) : list (Z * list byte) :=
  match e.1 with NegInf => [] | Bound c => [(ctype c, cvalue c)] end ++
  (if e.2 then [(tlv.Any, [])] else []).

(** The sub-elements in wire order, which is ascending. *)
Definition exclude_elements (m : ExcludeMap) : list (Z * list byte) :=
  concat (entry_elements <$> rev m).
Definition exclude_value (m : ExcludeMap) : list byte :=
  concat (el_wire <$> (shortest <$> exclude_elements m)).
Definition exclude_wire (e : Exclude) : list byte := element tlv.Exclude (exclude_value (m_entries e)).

Lemma exclude_elements_cons e m : exclude_elements (e :: m) = exclude_elements m ++ entry_elements e.
Proof.
  unfold exclude_elements. cbn [rev]. rewrite fmap_app, concat_app. cbn. by rewrite app_nil_r.
Qed.

Lemma exclude_value_cons k any m :
  exclude_value ((k, any) :: m) =
    exclude_value m ++ match k with NegInf => [] | Bound c => component_wire c end ++
      if any then element tlv.Any [] else [].
Proof.
  unfold exclude_value. rewrite exclude_elements_cons, !fmap_app, concat_app. f_equal.
  unfold entry_elements. by destruct k, any; simpl; rewrite ?app_nil_r.
Qed.

Section encode.
Context {E : Type} `{HE : EncodingLaws E}.

Lemma emits_entries m total :
  emits (entries_wireEncode m total) (exclude_value m) [] (total + octets (exclude_value m)).
Proof.
  revert total. induction m as [|[k any] m IH]; intros total; cbn [entries_wireEncode].
  { eapply emits_eq; [apply emits_ret|done|done|]. unfold exclude_value. simpl.
    rewrite octets_nil. lia. }
  rewrite exclude_value_cons. eapply emits_eq.
  - set (f1 := if any then element tlv.Any [] else []).
    eapply (emits_bind _ _ f1 [] _ _ (octets f1)); unfold f1;
      [destruct any; [apply emits_prependEmptyBlock|apply emits_ret]|].
    set (f2 := match k with NegInf => [] | Bound c => component_wire c end).
    eapply (emits_bind _ _ f2 [] _ _ (octets f2)); unfold f2;
      [destruct k; [apply emits_ret|apply emits_Component_wireEncode]|apply IH].
  - by rewrite <-app_assoc.
  - done.
  - rewrite !octets_app. destruct k, any; rewrite ?octets_nil; lia.
Qed.

Lemma emits_Exclude_wireEncode e :
  m_entries e <> [] ->
  emits (Exclude_wireEncode e) (exclude_wire e) [] (octets (exclude_wire e)).
Proof.
  intros He. unfold Exclude_wireEncode, exclude_wire, Exclude_empty.
  destruct (m_entries e) as [|x m] eqn:Em; [done|]. unfold element. eapply emits_eq.
  - eapply emits_bind; [apply emits_entries|].
    eapply emits_bind; [apply emits_prependVarNumber|].
    eapply emits_bind; [apply emits_prependVarNumber|apply emits_ret].
  - by rewrite app_nil_l, app_assoc, Z.add_0_l.
  - done.
  - rewrite !octets_app, Z.add_0_l. lia.
Qed.
End encode.

Lemma emplace_front k v m : desc ((k, v) :: m) -> emplace k v m = ((k, v) :: m, true).
Proof.
  intros Hd. inversion Hd as [|? ? _ Hx]; subst. destruct m as [|[k' v'] m]; [done|].
  inversion Hx as [|? ? H1 _]; subst. unfold above in H1. simpl in *.
  by rewrite H1, (key_gt_asym _ _ H1).
Qed.

Lemma Component_of_block_fresh e i c :
  fresh e i -> el_type e = ctype c -> el_value e = cvalue c -> component_ok c ->
  Component_of_block i = inr c.
Proof.
  intros (_ & (_ & Ht & Hv & _) & _) Et Ev [_ Hc]. unfold Component_of_block.
  assert (component_view i = c) as ->.
  { unfold component_view. rewrite Ht, Hv, Et, Ev. by destruct c. }
  apply orb_true_iff in Hc as [->| ->]; by rewrite ?andb_false_r.
Qed.

Lemma component_ok_type c : component_ok c -> ctype c <> tlv.Any.
Proof.
  intros [_ Hc] E. unfold isGeneric, isImplicitSha256Digest in Hc. rewrite E in Hc. done.
Qed.

Definition bound_entry (e : Entry) : Prop := exists c, e.1 = Bound c /\ component_ok c.

Lemma decode_entries_spec asc fuel blks m :
  Forall bound_entry asc -> desc (rev asc ++ m) ->
  Forall2 fresh (shortest <$> concat (entry_elements <$> asc)) blks -> (length blks <= fuel)%nat ->
  decode_entries fuel blks (mkExclude m) = inr (mkExclude (rev asc ++ m)).
Proof.
  revert fuel blks m. induction asc as [|[k any] asc IH]; intros fuel blks m Hb Hd Hf Hl.
  { cbn in Hf. inversion Hf. by destruct fuel. }
  apply Forall_cons in Hb as [(c & Ek & Hc) Hb]. simpl in Ek. subst k. cbn [rev] in Hd |- *.
  rewrite <-app_assoc in Hd |- *. cbn [app] in Hd |- *.
  assert (desc ((Bound c, any) :: m)) as Hm by (by apply desc_app in Hd as (_ & ? & _)).
  cbn in Hf. apply Forall2_cons_inv_l in Hf as (i & blks' & Hi & Hf & ->).
  destruct fuel as [|fuel]; [simpl in Hl; lia|]. cbn [decode_entries].
  rewrite (Component_of_block_fresh _ _ _ Hi eq_refl eq_refl Hc). simpl in Hl.
  assert (forall fuel blks, Forall2 fresh (shortest <$> concat (entry_elements <$> asc)) blks ->
    (length blks <= fuel)%nat ->
    decode_entries fuel blks (appendEntry (Bound c) any (mkExclude m))
    = inr (mkExclude (rev asc ++ (Bound c, any) :: m))) as Hnext.
  { intros fuel' blks'' Hf' Hl'. unfold appendEntry. cbn [m_entries].
    rewrite (emplace_front _ _ _ Hm). by apply IH. }
  destruct any; cbn in Hf.
  - apply Forall2_cons_inv_l in Hf as (j & blks'' & (_ & (_ & Hj & _) & _) & Hf & ->).
    rewrite Hj. cbn [el_type shortest fst Z.eqb]. apply Hnext; [done|]. simpl in Hl. lia.
  - destruct blks' as [|j blks']; [apply Hnext; [done|simpl; lia]|].
    assert (m_type j <> tlv.Any) as Hj.
    { destruct asc as [|[k any] asc]; [by inversion Hf|].
      apply Forall_cons in Hb as [(c' & Ek & Hc') _]. simpl in Ek. subst k. cbn in Hf.
      apply Forall2_cons in Hf as [(_ & (_ & -> & _) & _) _]. by apply component_ok_type. }
    apply Z.eqb_neq in Hj. rewrite Hj. apply Hnext; [done|lia].
Qed.

(** Encoding and decoding a filter. *)
Lemma exclude_elements_encodable m :
  Forall entry_ok m ->
  Forall (fun tv => u32_range tv.1 /\ u64_range (octets tv.2)) (exclude_elements m).
Proof.
  induction 1 as [|[k any] m He _ IH]; [constructor|]. rewrite exclude_elements_cons.
  apply Forall_app. split; [done|]. unfold entry_elements. apply Forall_app. split.
  - destruct k as [|c]; [constructor|]. destruct He as [[H1 H2] _]. constructor; [done|constructor].
  - destruct any; [|constructor]. constructor; [|constructor]. by split.
Qed.

Lemma exclude_ok_neginf m :
  desc m -> Forall entry_ok m ->
  Forall bound_entry (rev m) \/ exists m', m = m' ++ [(NegInf, true)] /\ Forall bound_entry (rev m').
Proof.
  intros Hd Hall. destruct m as [|e m _] using rev_ind; [by left; constructor|].
  apply desc_app in Hd as (_ & _ & Hd). apply Forall_app in Hall as [H1 H2].
  assert (Forall bound_entry m) as Hm.
  { rewrite Forall_forall in Hd, H1 |- *. intros x Hx. specialize (Hd x Hx). specialize (H1 x Hx).
    destruct x as [[|c] any]; [|by exists c]. inversion Hd as [|? ? Hgt _]; subst.
    unfold above, key_gt in Hgt. simpl in Hgt. by destruct e as [[] ?]. }
  apply Forall_rev in Hm. inversion H2 as [|? ? He _]; subst. destruct e as [[|c] any].
  - right. unfold entry_ok in He. simpl in He. subst any. by exists m.
  - left. rewrite rev_app_distr. cbn. constructor; [by exists c|done].
Qed.

Lemma Exclude_wireDecode_fresh e b x :
  fresh e b -> el_type e = tlv.Exclude -> el_value e = exclude_value (m_entries x) ->
  exclude_ok x -> m_entries x <> [] -> Exclude_wireDecode b = inr x.
Proof.
  intros (Hb & (_ & Ht & Hv & _) & Hs) Et Ev [Hd Hall] Hne. unfold Exclude_wireDecode.
  rewrite Ht, Et. cbn [negb Z.eqb]. 
  pose proof (tlv_stream_shortest _ (exclude_elements_encodable _ Hall)) as Hst.
  change (concat _) with (exclude_value (m_entries x)) in Hst. rewrite <-Ev, <-Hv in Hst.
  destruct (parsed_stream b _ (block_ok_own _ Hb) Hs Hst) as (blks & -> & Hf).
  change (inr blks ≫= ?k) with (k blks). unfold exclude_elements in Hf. destruct x as [m]. cbn [m_entries] in *.
  destruct (exclude_ok_neginf m Hd Hall) as [Hbound|(m' & -> & Hbound)].
  - destruct blks as [|i blks].
    { exfalso. apply Forall2_length in Hf. rewrite length_fmap in Hf. destruct m as [|e' m] using rev_ind; [done|].
      rewrite rev_app_distr in Hf, Hbound. apply Forall_cons in Hbound as [(c & Ec & _) _].
      destruct e' as [k any]. simpl in Ec. subst k. done. }
    assert (m_type i <> tlv.Any) as Hi.
    { destruct (rev m) as [|[k any] asc]; [by inversion Hf|].
      apply Forall_cons in Hbound as [(c & Ek & Hc) _]. simpl in Ek. subst k. cbn in Hf.
      apply Forall2_cons in Hf as [(_ & (_ & -> & _) & _) _]. by apply component_ok_type. }
    apply Z.eqb_neq in Hi. rewrite Hi. unfold Exclude_new.
    rewrite (decode_entries_spec (rev m)); rewrite ?rev_involutive, ?app_nil_r; done.
  - rewrite rev_app_distr in Hf. cbn in Hf.
    apply Forall2_cons_inv_l in Hf as (i & blks' & (_ & (_ & Hi & _) & _) & Hf & ->).
    rewrite Hi. cbn [el_type shortest fst Z.eqb]. 
    change (appendEntry NegInf true Exclude_new) with (mkExclude [(NegInf, true)]).
    rewrite (decode_entries_spec (rev m')); rewrite ?rev_involutive; try done. simpl. lia.
Qed.

Lemma decode_entries_tlv_only fuel blks e :
  (length blks <= fuel)%nat -> tlv_only (decode_entries fuel blks e).
Proof.
  revert blks e. induction fuel as [|fuel IH]; intros [|i blks] e Hl; simpl in Hl;
    [apply tlv_only_ret|lia|apply tlv_only_ret|]. cbn [decode_entries].
  destruct (Component_of_block i); [apply tlv_only_error|].
  destruct blks as [|j blks]; [apply IH; simpl; lia|]. simpl in Hl.
  destruct (m_type j =? tlv.Any); apply IH; simpl; lia.
Qed.

Lemma tlv_only_Exclude_wireDecode e b : fresh e b -> tlv_only (Exclude_wireDecode b).
Proof.
  intros H. apply tlv_only_if; [apply tlv_only_error|]. apply tlv_only_bind; [by eapply tlv_only_parsed|].
  intros [|i rest] _; [apply tlv_only_error|]. apply tlv_only_if; apply decode_entries_tlv_only;
    simpl; lia.
Qed.
#[export] Hint Resolve tlv_only_Exclude_wireDecode : tlv_only.

(** ** Filters that a program can make *)
Inductive filter_made : Exclude -> Prop :=
| filter_new : filter_made Exclude_new
| filter_one c e : component_ok c -> filter_made e -> filter_made (excludeOne c e)
| filter_after c e : component_ok c -> filter_made e -> filter_made (excludeAfter c e)
| filter_before c e e' : component_ok c -> filter_made e -> excludeBefore c e = inr e' ->
    filter_made e'
| filter_range c d e e' : component_ok c -> component_ok d -> filter_made e ->
    excludeRange c d e = inr e' -> filter_made e'.

Lemma filter_made_ok e : filter_made e -> exclude_ok e.
Proof.
  induction 1; eauto using Exclude_new_ok, excludeOne_ok, excludeAfter_ok.
  - by apply (excludeRange_ok NegInf c e).
  - by apply (excludeRange_ok (Bound c) d e).
Qed.

(** C34: what the operations of a filter exclude, for every filter made with them.
    [excludeOne] adds one component and [excludeAfter] everything from one on.
    [excludeRange] is refused unless its bounds are in order; otherwise, like
    [excludeBefore], it adds everything between its bounds.  All of them keep what was
    excluded, with one exception: when both bounds lie inside one range that is there
    already, the part of that range above the upper bound is cut off. *)
Theorem filter_semantics e (He : filter_made e) :
  (forall c d, isExcluded d (excludeOne c e) = isExcluded d e || bool_decide (d = c)) /\
  (forall c d, isExcluded d (excludeAfter c e) = isExcluded d e || bool_decide (le_of c d)) /\
  (forall c d, ~ le_of d c -> exists e', excludeRange c d e = inr e' /\ forall x,
     isExcluded x e' = (isExcluded x e && negb (cut_off (Bound c) d x (m_entries e)))
                       || bool_decide (le_of c x /\ le_of x d)) /\
  (forall c d, le_of d c -> exists what, excludeRange c d e = inl (TlvError what)) /\
  (forall d, exists e', excludeBefore d e = inr e' /\ forall x,
     isExcluded x e' = (isExcluded x e && negb (cut_off NegInf d x (m_entries e)))
                       || bool_decide (le_of x d)).
Proof.
  destruct (filter_made_ok e He) as [Hd _].
  assert (forall a b, negb (key_gt (Bound a) (Bound b)) = bool_decide (le_of a b)) as Hle.
  { intros a b. unfold key_gt. change (compare (Bound a) (Bound b)) with (compare a b).
    case_bool_decide as H; unfold le_of in H; destruct (compare a b); try done; by destruct H. }
  assert (forall a b, key_gt (Bound a) (Bound b) = true <-> ~ le_of a b) as Hgt.
  { intros a b. rewrite <-(bool_decide_eq_false (le_of a b)), <-Hle. by destruct (key_gt _ _). }
  split_and!.
  - intros c d. by apply excludeOne_covers.
  - intros c d. rewrite <-Hle. by apply excludeAfter_covers.
  - intros c d Hcd. destruct (excludeRange_covers (Bound c) d e Hd) as (e' & E & _ & H); [by apply Hgt|].
    exists e'. split; [exact E|]. intros x. rewrite H. unfold in_range. by rewrite !Hle, bool_decide_and.
  - intros c d Hcd. eexists. unfold excludeRange, excludeRange_from.
    destruct (key_gt (Bound d) (Bound c)) eqn:E; [by apply Hgt in E|done].
  - intros d. destruct (excludeRange_covers NegInf d e Hd) as (e' & E & _ & H); [done|].
    exists e'. split; [exact E|]. intros x. rewrite H. unfold in_range. by rewrite Hle.
Qed.

Definition letter (s : string) : Component := component_of_string s.

Lemma letter_ok s : u64_range (octets (String.list_byte_of_string s)) -> component_ok (letter s).
Proof. intros H. split; [split; [by split|exact H]|done]. Qed.

(** [excludeRange(a, f)], then [excludeRange(b, d)]. *)
Definition demo_filter : Exclude := mkExclude [(Bound (letter "f"), false); (Bound (letter "a"), true)].

Lemma demo_filter_made : filter_made demo_filter.
Proof.
  refine (filter_range (letter "a") (letter "f") Exclude_new _ _ _ filter_new _);
    [apply letter_ok; vm_compute; split; done..|vm_compute; reflexivity].
Qed.

(** A component in the middle of an excluded range is let through after a smaller range
    has been excluded as well. *)
Lemma filter_semantics_witness :
  filter_made demo_filter /\ isExcluded (letter "e") demo_filter = true /\
  exists e', excludeRange (letter "b") (letter "d") demo_filter = inr e' /\
    isExcluded (letter "e") e' = false /\ isExcluded (letter "c") e' = true.
Proof.
  split; [exact demo_filter_made|]. split; [vm_compute; reflexivity|].
  destruct (filter_semantics demo_filter demo_filter_made) as (_ & _ & H & _).
  destruct (H (letter "b") (letter "d")) as (e' & E & Hx); [intros Hle; apply Hle; vm_compute; reflexivity|].
  exists e'. split; [exact E|]. rewrite !Hx. vm_compute. by split.
Defined.

(** A filter that has an entry keeps its meaning on the wire: encoding writes its
    entries in ascending order as one [Exclude] element, and decoding that element gives
    the filter back. *)
Theorem filter_roundtrip e (He : filter_made e) (Hne : m_entries e <> [])
    (Hlen : u64_range (octets (exclude_value (m_entries e)))) :
  exists b, make_block (fun E _ => Exclude_wireEncode e) = inr b /\
    wire b = inr (exclude_wire e) /\ Exclude_wireDecode b = inr e.
Proof.
  destruct (make_block_element (fun E _ => Exclude_wireEncode e) tlv.Exclude (exclude_value (m_entries e)))
    as (b & E & Hf); [by split|done|intros E I H L; by apply emits_Exclude_wireEncode|].
  exists b. split_and!; [done| |].
  - by destruct Hf as (_ & (_ & _ & _ & H) & _).
  - eapply Exclude_wireDecode_fresh; [exact Hf|done|done|by apply filter_made_ok|done].
Qed.

Lemma filter_roundtrip_witness :
  exists b, make_block (fun E _ => Exclude_wireEncode demo_filter) = inr b /\
    Exclude_wireDecode b = inr demo_filter /\
    wire b = inr [Byte.x10; Byte.x08; Byte.x08; Byte.x01; Byte.x61; Byte.x13; Byte.x00;
                  Byte.x08; Byte.x01; Byte.x66].
Proof.
  destruct (filter_roundtrip demo_filter demo_filter_made) as (b & E & Hw & Hd);
    [discriminate|vm_compute; split; [discriminate|reflexivity]|].
  exists b. split; [exact E|]. split; [exact Hd|]. rewrite Hw. vm_compute. reflexivity.
Defined.

(** The enumeration takes at most one step per entry. *)
Lemma ranges_from_fuel fuel l : (length l <= fuel)%nat -> ranges_from fuel l <> inl OutOfFuel.
Proof.
  revert l. induction fuel as [|fuel IH]; intros [|[k []] l] Hl; cbn in Hl |- *; try done; try lia.
  - destruct l as [|[k' []] l]; [done|done|]. cbn in Hl.
    specialize (IH l ltac:(lia)). by destruct (ranges_from fuel l) as [[]|].
  - destruct (decide (k = NegInf)); [done|].
    specialize (IH l ltac:(lia)). by destruct (ranges_from fuel l) as [[]|].
Qed.

Lemma ranges_fuel e : ranges e <> inl OutOfFuel.
Proof. apply ranges_from_fuel. by rewrite length_rev. Qed.

(** Two ranges that touch are not combined: enumerating them fails its assertion. *)
Example touching_ranges :
  exists e, excludeRange (letter "a") (letter "b") Exclude_new = inr e /\
    exists e', excludeRange (letter "b") (letter "c") e = inr e' /\
      ranges e' = inl (Aborted "m_it->second == false").
Proof. eexists. split; [reflexivity|]. eexists. split; vm_compute; reflexivity. Qed.
