(* ===== verification/WireFormat.v ===== *)
(** * WireFormat: encoding and decoding of Interests and Data

    Sources: [src/src/ndnSIM/ndn-cxx/src/]: [key-locator.cpp], [selectors.cpp],
    [meta-info.cpp], [signature-info.cpp], [signature.{hpp,cpp}], [data.cpp],
    [interest.cpp] and what an Interest asks of [link.cpp].  A block that an object
    keeps as a member is only ever copied, written out and read again, so it is kept
    as what it shows: an [Element].  The caches of encoded wires are members where they
    can be observed. *)
From S2P Require Import Prelude Tlv Encoder Block BlockSpec Names NameWire Exclude.

(** ** Blocks as members *)

(** [el_wire] is empty for a block without a wire. *)
Definition element_of (b : Block) : Element :=
  mkElement (m_type b) (value b) (match wire b with inr w => w | inl _ => [] end).

Definition el_hasWire (e : Element) : bool := match el_wire e with [] => false | _ => true end.

(** A default-constructed block. *)
Definition element_none : Element := mkElement UINT32_MAX [] [].

(** [Block::encode] of a member without sub-elements. *)
Definition element_encoded (e : Element) : Element :=
  if el_hasWire e then e else mkElement (el_type e) (el_value e) (element (el_type e) (el_value e)).

Definition readNonNegativeInteger_element (e : Element) : exn + Z :=
  fst <$> readNonNegativeInteger (length (el_value e)) (el_value e).

(** Two conversions of an unsigned 64-bit number read from a wire. *)
Definition read_int (b : Block) : exn + Z := i32 <$> readNonNegativeInteger_block b.
Definition read_milliseconds (b : Block) : exn + Z := i64 <$> readNonNegativeInteger_block b.

(** [milliseconds::min()] *)
Definition milliseconds_min : Z := -9223372036854775808.

(** ** KeyLocator *)
Inductive KeyLocator :=
| KeyLocator_None
| KeyLocator_Name (name : Name)
| KeyLocator_KeyDigest (keyDigest : Element)
| KeyLocator_Unknown.

#[export] Instance KeyLocator_eq_dec : EqDecision KeyLocator.
Proof. solve_decision. Defined.

Definition KeyLocator_empty (k : KeyLocator) : bool :=
  match k with KeyLocator_None => true | _ => false end.

Definition KeyLocator_wireDecode (wire : Block) : exn + KeyLocator :=
  if negb (m_type wire =? tlv.KeyLocator)
  then inl (TlvError "Unexpected TLV type during KeyLocator decoding") else
  elements ← parsed wire;
  match elements with
  | [] => mret KeyLocator_None
  | first :: _ =>
      if m_type first =? tlv.Name then KeyLocator_Name <$> Name_wireDecode first
      else if m_type first =? tlv.KeyDigest then mret (KeyLocator_KeyDigest (element_of first))
      else mret KeyLocator_Unknown
  end.

(** ** Selectors *)
Record Selectors := mkSelectors {
  sel_minSuffixComponents : Z;
  sel_maxSuffixComponents : Z;
  sel_publisherPublicKeyLocator : KeyLocator;
  sel_exclude : Exclude;
  sel_childSelector : Z;
  sel_mustBeFresh : bool
}.

#[export] Instance Selectors_eq_dec : EqDecision Selectors.
Proof. solve_decision. Defined.

Definition Selectors_new : Selectors := mkSelectors (-1) (-1) KeyLocator_None Exclude_new (-1) false.

Definition Selectors_empty (s : Selectors) : bool :=
  (sel_minSuffixComponents s <? 0) && (sel_maxSuffixComponents s <? 0) &&
  KeyLocator_empty (sel_publisherPublicKeyLocator s) && Exclude_empty (sel_exclude s) &&
  (sel_childSelector s <? 0) && negb (sel_mustBeFresh s).

(** [m_wire.find(type)], with what is done when the element is there. *)
Definition if_found {A} (type : Z) (elements : list Block) (default_ : A) (f : Block -> exn + A)
    : exn + A :=
  match List.find (fun e => m_type e =? type) elements with
  | Some e => f e
  | None => inr default_
  end.

Definition get_from (type : Z) (elements : list Block) : exn + Block :=
  match List.find (fun e => m_type e =? type) elements with
  | Some e => inr e
  | None => inl (TlvError "(Block::get) Requested a non-existed type from Block")
  end.

Definition Selectors_wireDecode (wire : Block) : exn + Selectors :=
  if negb (m_type wire =? tlv.Selectors)
  then inl (TlvError "Unexpected TLV type when decoding Selectors") else
  elements ← parsed wire;
  min ← if_found tlv.MinSuffixComponents elements (-1) read_int;
  max ← if_found tlv.MaxSuffixComponents elements (-1) read_int;
  locator ← if_found tlv.KeyLocator elements KeyLocator_None KeyLocator_wireDecode;
  exclude ← if_found tlv.Exclude elements Exclude_new Exclude_wireDecode;
  child ← if_found tlv.ChildSelector elements (-1) read_int;
  fresh ← if_found tlv.MustBeFresh elements false (fun _ => mret true);
  mret (mkSelectors min max locator exclude child fresh).

(** ** MetaInfo *)
Record MetaInfo := mkMetaInfo {
  mi_type : Z;                    (** a [uint32_t] *)
  mi_freshnessPeriod : Z;         (** milliseconds *)
  mi_finalBlockId : Component;
  mi_appMetaInfo : list Element
}.

#[export] Instance MetaInfo_eq_dec : EqDecision MetaInfo.
Proof. solve_decision. Defined.

Definition Component_new : Component := mkComponent tlv.NameComponent [].

Definition MetaInfo_new : MetaInfo := mkMetaInfo tlv.ContentType_Blob (-1) Component_new [].

Definition setFreshnessPeriod (freshnessPeriod : Z) (m : MetaInfo) : MetaInfo :=
  mkMetaInfo (mi_type m) freshnessPeriod (mi_finalBlockId m) (mi_appMetaInfo m).

(** The application range of types. *)
Definition is_app_type (type : Z) : bool := (128 <=? type) && (type <=? 252).

Definition addAppMetaInfo (e : Element) (m : MetaInfo) : exn + MetaInfo :=
  if negb (is_app_type (el_type e))
  then inl (TlvError "AppMetaInfo block has type outside the application range [128, 252]")
  else mret (mkMetaInfo (mi_type m) (mi_freshnessPeriod m) (mi_finalBlockId m)
               (mi_appMetaInfo m ++ [e])).

Fixpoint remove_first (type : Z) (l : list Element) : list Element * bool :=
  match l with
  | [] => ([], false)
  | e :: l =>
      if el_type e =? type then (l, true)
      else let '(l, found) := remove_first type l in (e :: l, found)
  end.

Definition removeAppMetaInfo (type : Z) (m : MetaInfo) : MetaInfo * bool :=
  let '(l, found) := remove_first type (mi_appMetaInfo m) in
  (mkMetaInfo (mi_type m) (mi_freshnessPeriod m) (mi_finalBlockId m) l, found).

Definition findAppMetaInfo (type : Z) (m : MetaInfo) : option Element :=
  List.find (fun e => el_type e =? type) (mi_appMetaInfo m).

(** One optional element at the front of a list of elements. *)
Definition take_optional {A} (type : Z) (elements : list Block) (default_ : A)
    (f : Block -> exn + A) : exn + (A * list Block) :=
  match elements with
  | e :: rest =>
      if m_type e =? type then a ← f e; mret (a, rest) else mret (default_, elements)
  | [] => mret (default_, [])
  end.

(** The block inside [FinalBlockId] becomes a component, which accepts two types only;
    one that is not generic is dropped. *)
Definition decode_finalBlockId (e : Block) : exn + Component :=
  inner ← blockFromValue e;
  c ← Component_of_block inner;
  mret (if negb (ctype c =? tlv.NameComponent) then Component_new else c).

(** [wireDecode] into an object that may hold the result of an earlier decoding: the
    application's elements are appended to those that are there. *)
Definition MetaInfo_wireDecode (wire : Block) (old : MetaInfo) : exn + MetaInfo :=
  elements ← parsed wire;
  '(type, elements) ← take_optional tlv.ContentType elements tlv.ContentType_Blob
                        (fun e => u32 <$> readNonNegativeInteger_block e);
  '(freshness, elements) ← take_optional tlv.FreshnessPeriod elements milliseconds_min
                             read_milliseconds;
  '(final, elements) ← take_optional tlv.FinalBlockId elements Component_new decode_finalBlockId;
  mret (mkMetaInfo type freshness final (mi_appMetaInfo old ++ fmap (M := list) element_of elements)).

(** ** SignatureInfo and Signature *)
Record SignatureInfo := mkSignatureInfo {
  si_type : Z;                       (** an [int32_t], -1 if not set *)
  si_keyLocator : option KeyLocator;
  si_otherTlvs : list Element;
  si_wire : option Element           (** the cached wire *)
}.

#[export] Instance SignatureInfo_eq_dec : EqDecision SignatureInfo.
Proof. solve_decision. Defined.

Definition SignatureInfo_new (type : Z) : SignatureInfo := mkSignatureInfo type None [] None.

Definition setKeyLocator (k : KeyLocator) (s : SignatureInfo) : SignatureInfo :=
  mkSignatureInfo (si_type s) (Some k) (si_otherTlvs s) None.
Definition unsetKeyLocator (s : SignatureInfo) : SignatureInfo :=
  mkSignatureInfo (si_type s) None (si_otherTlvs s) None.
Definition appendTypeSpecificTlv (e : Element) (s : SignatureInfo) : SignatureInfo :=
  mkSignatureInfo (si_type s) (si_keyLocator s) (si_otherTlvs s ++ [e]) None.

Definition getKeyLocator (s : SignatureInfo) : exn + KeyLocator :=
  match si_keyLocator s with
  | Some k => inr k
  | None => inl (TlvError "KeyLocator does not exist")
  end.

Definition getTypeSpecificTlv (type : Z) (s : SignatureInfo) : exn + Element :=
  match List.find (fun e => el_type e =? type) (si_otherTlvs s) with
  | Some e => inr e
  | None => inl (TlvError "Requested a non-existed type from SignatureInfo")
  end.

(** The constructor from a block. *)
Definition SignatureInfo_of_block (wire : Block) : exn + SignatureInfo :=
  if negb (hasWire wire) then inl (TlvError "The supplied block does not contain wire format") else
  elements ← parsed wire;
  if negb (m_type wire =? tlv.SignatureInfo)
  then inl (TlvError "Unexpected TLV type when decoding Name") else
  match elements with
  | it :: rest =>
      if m_type it =? tlv.SignatureType then
        type ← read_int it;
        '(locator, rest) ← take_optional tlv.KeyLocator rest None
                             (fun e => Some <$> KeyLocator_wireDecode e);
        mret (mkSignatureInfo type locator (fmap (M := list) element_of rest)
                (Some (element_of wire)))
      else inl (TlvError "SignatureInfo has no sub-TLV or the first is not SignatureType")
  | [] => inl (TlvError "SignatureInfo has no sub-TLV or the first is not SignatureType")
  end.

Record Signature := mkSignature { sig_info : SignatureInfo; sig_value : Element }.

#[export] Instance Signature_eq_dec : EqDecision Signature.
Proof. solve_decision. Defined.

Definition Signature_new : Signature := mkSignature (SignatureInfo_new (-1)) element_none.

(** [operator bool] *)
Definition signature_set (s : Signature) : bool := negb (si_type (sig_info s) =? -1).

Definition setValue (value : Block) (s : Signature) : exn + Signature :=
  if negb (m_type value =? tlv.SignatureValue)
  then inl (TlvError "The supplied block is not SignatureValue")
  else mret (mkSignature (sig_info s) (element_of value)).

(** ** Templates *)
Section templates.
Context {E : Type} `{!EncodingImpl E}.

(** [prependBlock] and [appendBlock] of a member. *)
Definition prependElement (e : Element) : M E Z :=
  if el_hasWire e then prependByteArray (el_wire e) else prependByteArrayBlock (el_type e) (el_value e).
Definition appendElement (e : Element) : M E Z :=
  if el_hasWire e then appendByteArray (el_wire e) else appendByteArrayBlock (el_type e) (el_value e).

(** [totalLength += m] under a condition, and the end of every template. *)
Definition when_ (c : bool) (m : M E Z) : M E Z := if c then m else mret 0.
Definition prependHeader (type totalLength : Z) : M E Z :=
  n1 ← prependVarNumber totalLength;
  n2 ← prependVarNumber type;
  mret (totalLength + n1 + n2).

Definition KeyLocator_wireEncode (k : KeyLocator) : M E Z :=
  totalLength ← match k with
                | KeyLocator_None => mret 0
                | KeyLocator_Name name => Name_wireEncode name
                | KeyLocator_KeyDigest keyDigest => prependElement keyDigest
                | KeyLocator_Unknown => throw (TlvError "Unsupported KeyLocator type")
                end;
  prependHeader tlv.KeyLocator totalLength.

Definition Selectors_wireEncode (s : Selectors) : M E Z :=
  n1 ← when_ (sel_mustBeFresh s) (prependEmptyBlock tlv.MustBeFresh);
  n2 ← when_ (0 <=? sel_childSelector s)
         (prependNonNegativeIntegerBlock tlv.ChildSelector (sel_childSelector s));
  n3 ← when_ (negb (Exclude_empty (sel_exclude s))) (Exclude_wireEncode (sel_exclude s));
  n4 ← when_ (negb (KeyLocator_empty (sel_publisherPublicKeyLocator s)))
         (KeyLocator_wireEncode (sel_publisherPublicKeyLocator s));
  n5 ← when_ (0 <=? sel_maxSuffixComponents s)
         (prependNonNegativeIntegerBlock tlv.MaxSuffixComponents (sel_maxSuffixComponents s));
  n6 ← when_ (0 <=? sel_minSuffixComponents s)
         (prependNonNegativeIntegerBlock tlv.MinSuffixComponents (sel_minSuffixComponents s));
  prependHeader tlv.Selectors (n1 + n2 + n3 + n4 + n5 + n6).

(** A loop that prepends, or appends, each element of a list. *)
Fixpoint for_elements (l : list Element) (write : Element -> M E Z) (totalLength : Z) : M E Z :=
  match l with
  | [] => mret totalLength
  | e :: l => n ← write e; for_elements l write (totalLength + n)
  end.

Definition MetaInfo_wireEncode (m : MetaInfo) : M E Z :=
  n1 ← for_elements (rev (mi_appMetaInfo m)) prependElement 0;
  n2 ← when_ (negb (Names.value_size (mi_finalBlockId m) =? 0))
         (prependNestedBlock tlv.FinalBlockId (Component_wireEncode (mi_finalBlockId m)));
  n3 ← when_ (0 <=? mi_freshnessPeriod m)
         (prependNonNegativeIntegerBlock tlv.FreshnessPeriod (mi_freshnessPeriod m));
  n4 ← when_ (negb (mi_type m =? tlv.ContentType_Blob))
         (prependNonNegativeIntegerBlock tlv.ContentType (mi_type m));
  prependHeader tlv.MetaInfo (n1 + n2 + n3 + n4).

(** The loop walks the list backwards and appends. *)
Definition SignatureInfo_wireEncode_to (s : SignatureInfo) : M E Z :=
  n1 ← for_elements (rev (si_otherTlvs s)) appendElement 0;
  n2 ← match si_keyLocator s with Some k => KeyLocator_wireEncode k | None => mret 0 end;
  n3 ← prependNonNegativeIntegerBlock tlv.SignatureType (u64 (si_type s));
  prependHeader tlv.SignatureInfo (n1 + n2 + n3).
End templates.

(** [SignatureInfo::wireEncode() const]: the cached wire, or a new one that is cached. *)
Definition SignatureInfo_wireEncode (s : SignatureInfo) : exn + (SignatureInfo * Element) :=
  match si_wire s with
  | Some w => inr (s, w)
  | None =>
      b ← make_block (fun E _ => SignatureInfo_wireEncode_to s);
      let w := element_of b in
      mret (mkSignatureInfo (si_type s) (si_keyLocator s) (si_otherTlvs s) (Some w), w)
  end.

(** ** Data *)
Record Data := mkData {
  da_name : Name;
  da_metaInfo : MetaInfo;
  da_content : Element;
  da_signature : Signature;
  da_wire : option Element
}.

#[export] Instance Data_eq_dec : EqDecision Data.
Proof. solve_decision. Defined.

Definition Data_of_name (name : Name) : Data :=
  mkData name MetaInfo_new element_none Signature_new None.

(** Setters drop the wire ([onChanged]). *)
Definition Data_setName (name : Name) (d : Data) : Data :=
  mkData name (da_metaInfo d) (da_content d) (da_signature d) None.
Definition Data_setMetaInfo (m : MetaInfo) (d : Data) : Data :=
  mkData (da_name d) m (da_content d) (da_signature d) None.
Definition Data_setFreshnessPeriod (period : Z) (d : Data) : Data :=
  Data_setMetaInfo (setFreshnessPeriod period (da_metaInfo d)) d.
(** [setContent(const ConstBufferPtr&)]: a value without a wire. *)
Definition Data_setContent (value : list byte) (d : Data) : Data :=
  mkData (da_name d) (da_metaInfo d) (mkElement tlv.Content value []) (da_signature d) None.
Definition Data_setSignature (s : Signature) (d : Data) : Data :=
  mkData (da_name d) (da_metaInfo d) (da_content d) s None.

(** [getContent]: an empty block becomes an empty content element, and the block gets a
    wire. *)
Definition getContent (d : Data) : Element :=
  let content := if el_type (da_content d) =? UINT32_MAX
                 then mkElement tlv.Content [] (element tlv.Content [])
                 else da_content d in
  element_encoded content.

(** [wireEncode(encoder)]; the cached wires of content and signature are [const_cast]
    updates that the object keeps. *)
Definition Data_encodable (d : Data) : exn + (Data * Element) :=
  if negb (signature_set (da_signature d))
  then inl (TlvError "Requested wire format, but data packet has not been signed yet") else
  '(info, info_wire) ← SignatureInfo_wireEncode (sig_info (da_signature d));
  let value := element_encoded (sig_value (da_signature d)) in
  mret (mkData (da_name d) (da_metaInfo d) (getContent d) (mkSignature info value) (da_wire d),
        info_wire).

Definition Data_wireEncode_to {E} `{!EncodingImpl E} (d : Data) (info_wire : Element) : M E Z :=
  n1 ← prependElement (sig_value (da_signature d));
  n2 ← prependElement info_wire;
  n3 ← prependElement (da_content d);
  n4 ← MetaInfo_wireEncode (da_metaInfo d);
  n5 ← Name_wireEncode (da_name d);
  prependHeader tlv.Data (n1 + n2 + n3 + n4 + n5).

(** [wireDecode]: the type of the block is not looked at, and an absent signature value
    leaves the one that is there. *)
Definition Data_wireDecode (wire : Block) (old : Data) : exn + Data :=
  elements ← parsed wire;
  name_block ← get_from tlv.Name elements;
  name ← Name_wireDecode name_block;
  meta_block ← get_from tlv.MetaInfo elements;
  metaInfo ← MetaInfo_wireDecode meta_block (da_metaInfo old);
  content ← get_from tlv.Content elements;
  info_block ← get_from tlv.SignatureInfo elements;
  info ← SignatureInfo_of_block info_block;
  let signature := mkSignature info (sig_value (da_signature old)) in
  signature ← if_found tlv.SignatureValue elements signature (fun v => setValue v signature);
  mret (mkData name metaInfo (element_of content) signature (Some (element_of wire))).

Definition Data_of_block (wire : Block) : exn + Data :=
  Data_wireDecode wire (mkData [] MetaInfo_new (mkElement tlv.Content [] []) Signature_new None).

(** [wireEncode() const]: without a wire the packet is encoded and decoded again. *)
Definition Data_wireEncode (d : Data) : exn + (Data * Element) :=
  match da_wire d with
  | Some w => inr (d, w)
  | None =>
      '(d, info_wire) ← Data_encodable d;
      b ← make_block (fun E _ => Data_wireEncode_to d info_wire);
      d ← Data_wireDecode b d;
      mret (d, element_of b)
  end.

(** ** Links inside Interests *)

(** [Link::countDelegationsFromWire]. *)
Definition countDelegationsFromWire (link : Block) : exn + Z :=
  elements ← parsed link;
  content ← get_from tlv.Content elements;
  delegations ← parsed content;
  mret (Z.of_nat (length delegations)).

(** ** Interest *)
Definition INVALID_SELECTED_DELEGATION_INDEX : Z := 18446744073709551615.
Definition DEFAULT_INTEREST_LIFETIME : Z := 4000.

Record Interest := mkInterest {
  in_name : Name;
  in_selectors : Selectors;
  in_nonce : Element;
  in_lifetime : Z;               (** milliseconds, an [int64_t] *)
  in_link : Element;
  in_selectedDelegation : Z;     (** a [size_t] *)
  in_wire : option Element
}.

#[export] Instance Interest_eq_dec : EqDecision Interest.
Proof. solve_decision. Defined.

(** [Interest(name, lifetime)] *)
Definition Interest_new (name : Name) (lifetime : Z) : Interest :=
  mkInterest name Selectors_new element_none lifetime element_none
    INVALID_SELECTED_DELEGATION_INDEX None.

Definition hasLink (i : Interest) : bool := el_hasWire (in_link i).
Definition hasSelectedDelegation (i : Interest) : bool :=
  negb (in_selectedDelegation i =? INVALID_SELECTED_DELEGATION_INDEX).
Definition hasSelectors (i : Interest) : bool := negb (Selectors_empty (in_selectors i)).

(** The delegation of an Interest that has a link. *)
Definition decode_delegation (link_block : option Block) (val : Block) : exn + Z :=
  match link_block with
  | None => inl (TlvError "Interest contains SelectedDelegation, but no LINK object")
  | Some b =>
      selectedDelegation ← readNonNegativeInteger_block val;
      count ← countDelegationsFromWire b;
      if selectedDelegation <? count then mret selectedDelegation
      else inl (TlvError "Invalid selected delegation index when decoding Interest")
  end.

Definition Interest_wireDecode (wire : Block) : exn + Interest :=
  elements ← parsed wire;
  if negb (m_type wire =? tlv.Interest)
  then inl (TlvError "Unexpected TLV number when decoding Interest") else
  name_block ← get_from tlv.Name elements;
  name ← Name_wireDecode name_block;
  selectors ← if_found tlv.Selectors elements Selectors_new Selectors_wireDecode;
  nonce ← get_from tlv.Nonce elements;
  lifetime ← if_found tlv.InterestLifetime elements DEFAULT_INTEREST_LIFETIME read_milliseconds;
  let link_block := List.find (fun e => m_type e =? tlv.Data) elements in
  let link := match link_block with Some b => element_of b | None => element_none end in
  delegation ← if_found tlv.SelectedDelegation elements INVALID_SELECTED_DELEGATION_INDEX
                 (decode_delegation link_block);
  mret (mkInterest name selectors (element_of nonce) lifetime link delegation
          (Some (element_of wire))).

(** [getNonce] of an Interest that has one, from the octets of its value: four octets are
    read from memory, another size as a nonNegativeInteger, narrowed to a [uint32_t]. *)
Definition getNonce (octets : list byte) : exn + Z :=
  if decide (length octets = 4%nat) then inr (be_decode (rev octets))
  else u32 <$> (fst <$> readNonNegativeInteger (length octets) octets).

#[global] Arguments getNonce : simpl never.

(** [wireEncode(encoder)] of an Interest whose nonce is set: [getNonce] is called for
    its effect, and throws for a nonce it cannot read. *)
Definition Interest_wireEncode_to {E} `{!EncodingImpl E} (i : Interest) : M E Z :=
  n1 ← (if hasLink i then
          n ← when_ (hasSelectedDelegation i)
                (prependNonNegativeIntegerBlock tlv.SelectedDelegation (in_selectedDelegation i));
          m ← prependElement (in_link i);
          mret (n + m)
        else if hasSelectedDelegation i then throw (Aborted "!hasSelectedDelegation()")
        else mret 0);
  n2 ← when_ ((0 <=? in_lifetime i) && negb (in_lifetime i =? DEFAULT_INTEREST_LIFETIME))
         (prependNonNegativeIntegerBlock tlv.InterestLifetime (in_lifetime i));
  lift_result (getNonce (el_value (in_nonce i)));;
  n3 ← prependElement (in_nonce i);
  n4 ← when_ (hasSelectors i) (Selectors_wireEncode (in_selectors i));
  n5 ← Name_wireEncode (in_name i);
  prependHeader tlv.Interest (n1 + n2 + n3 + n4 + n5).

(** The element [setNonce] makes for an Interest without a wire: the number's octets in
    the memory of a little-endian host. *)
Definition nonce_element (nonce : Z) : Element :=
  let octets_ := rev (be_encode 4 nonce) in mkElement tlv.Nonce octets_ (element tlv.Nonce octets_).

(** [getNonce] as a guard: an Interest without a nonce gets the word drawn for it. *)
Definition ensure_nonce (word : Z) (i : Interest) : Interest :=
  if el_hasWire (in_nonce i) then i
  else mkInterest (in_name i) (in_selectors i) (nonce_element word) (in_lifetime i) (in_link i)
         (in_selectedDelegation i) None.

Definition Interest_wireEncode (word : Z) (i : Interest) : exn + (Interest * Element) :=
  match in_wire i with
  | Some w => inr (i, w)
  | None =>
      let i := ensure_nonce word i in
      b ← make_block (fun E _ => Interest_wireEncode_to i);
      i ← Interest_wireDecode b;
      mret (i, element_of b)
  end.
