(* ===== verification/WireFormatSpec.v ===== *)
(** * WireFormatSpec: what the wire formats write and read

    For every format: the elements it writes, and that decoding a block of these
    elements gives the object back.  The round trips of whole packets follow, and that
    decoding arbitrary octets throws TLV errors only. *)
From S2P Require Import Prelude Tlv Encoder Block BlockSpec Names NameWire Exclude ExcludeSpec WireFormat.

(** ** Lists of elements *)
Definition wires (els : list Element) : list byte := concat (el_wire <$> els).
Definition opt (c : bool) (e : Element) : list Element := if c then [e] else [].
Definition element_tv (t : Z) (v : list byte) : Element := mkElement t v (element t v).

Lemma wires_app a b : wires (a ++ b) = wires a ++ wires b.
Proof. unfold wires. by rewrite fmap_app, concat_app. Qed.
Lemma wires_one e : wires [e] = el_wire e.
Proof. unfold wires. simpl. apply app_nil_r. Qed.
Lemma wires_nil : wires [] = [].
Proof. done. Qed.
Lemma wires_cons e l : wires (e :: l) = el_wire e ++ wires l.
Proof. done. Qed.

Lemma element_tv_ok t v : u32_range t -> u64_range (octets v) -> element_ok (element_tv t v).
Proof. apply encodes_element. Qed.

Lemma element_ok_wire e : element_ok e -> el_hasWire e = true.
Proof.
  intros H. destruct (encodes_split _ _ _ H) as (h & E & Hl & _). unfold el_hasWire. rewrite E.
  destruct h; [simpl in Hl; lia|done].
Qed.

Lemma tlv_stream_ok els : Forall element_ok els -> tlv_stream (wires els) els.
Proof. intros H. by apply tlv_stream_wires. Qed.

Lemma opt_ok c e : (c = true -> element_ok e) -> Forall element_ok (opt c e).
Proof. intros H. destruct c; [constructor; [by apply H|constructor]|constructor]. Qed.

(** A member that is a block shows its octets. *)
Lemma wire_nonempty b w : own_ok b -> wire b = inr w -> w <> [].
Proof.
  intros Hb Hw. assert (hasWire b = true) as Hh.
  { unfold wire in Hw. by destruct (hasWire b). }
  destruct (own_ok_encodes b Hb Hh) as (w' & Hw' & He).
  destruct (encodes_split _ _ _ He) as (h & E & Hl & _). rewrite Hw in Hw'. injection Hw' as ->.
  rewrite E. destruct h; [simpl in Hl; lia|done].
Qed.

(** Writing a member is writing the block it stands for. *)
Lemma prependBlock_element {E} `{!EncodingImpl E} b e :
  own_ok b -> prependBlock b e = prependElement (element_of b) e.
Proof.
  intros Hb. unfold prependBlock, prependElement, el_hasWire, element_of. cbn [el_wire el_type el_value].
  destruct (hasWire b) eqn:Ew.
  - destruct (own_ok_encodes b Hb Ew) as (w & Hw & _). pose proof (wire_nonempty b w Hb Hw).
    rewrite Hw, run_lift_inr. by destruct w.
  - unfold wire. by rewrite Ew.
Qed.

Lemma element_of_fresh e b : fresh e b -> element_of b = e.
Proof. intros (_ & (_ & H1 & H2 & H3) & _). unfold element_of. rewrite H1, H2, H3. by destruct e. Qed.

Lemma elements_of_fresh els blks : Forall2 fresh els blks -> fmap (M := list) element_of blks = els.
Proof.
  induction 1 as [|e b els blks Hf _ IH]; [done|]. cbn in *. by rewrite (element_of_fresh _ _ Hf), IH.
Qed.

(** The block for a list of elements. *)
Lemma parsed_elements b els :
  own_ok b -> m_subBlocks b = [] -> value b = wires els -> Forall element_ok els ->
  exists blks, parsed b = inr blks /\ Forall2 fresh els blks.
Proof. intros Hb Hs Hv H. apply parsed_stream; [done|done|]. rewrite Hv. by apply tlv_stream_ok. Qed.

Lemma fresh_parsed e b els :
  fresh e b -> el_value e = wires els -> Forall element_ok els ->
  exists blks, parsed b = inr blks /\ Forall2 fresh els blks.
Proof.
  intros (Hb & (_ & _ & Hv & _) & Hs) Ev H. apply parsed_elements; [by apply block_ok_own|done|congruence|done].
Qed.

(** Looking for a type among them. *)
Lemma find_fresh t els blks :
  Forall2 fresh els blks ->
  match List.find (fun e => el_type e =? t) els with
  | Some e => exists b, List.find (fun b => m_type b =? t) blks = Some b /\ fresh e b
  | None => List.find (fun b => m_type b =? t) blks = None
  end.
Proof.
  induction 1 as [|e b els blks Hf _ IH]; [done|]. simpl.
  destruct Hf as (Hb & (Hw & Ht & Hr) & Hs). rewrite Ht.
  destruct (el_type e =? t); [|exact IH]. exists b. done.
Qed.

Lemma get_from_fresh t els blks e :
  Forall2 fresh els blks -> List.find (fun e => el_type e =? t) els = Some e ->
  exists b, get_from t blks = inr b /\ fresh e b.
Proof.
  intros Hf He. pose proof (find_fresh t _ _ Hf) as H. rewrite He in H. destruct H as (b & Hb & Hfr).
  exists b. unfold get_from. by rewrite Hb.
Qed.

Lemma if_found_some {A} t els blks e (d : A) f r :
  Forall2 fresh els blks -> List.find (fun e => el_type e =? t) els = Some e ->
  (forall b, fresh e b -> f b = r) -> if_found t blks d f = r.
Proof.
  intros Hf He Hr. pose proof (find_fresh t _ _ Hf) as H. rewrite He in H. destruct H as (b & Hb & Hfr).
  unfold if_found. rewrite Hb. by apply Hr.
Qed.

Lemma if_found_none {A} t els blks (d : A) f :
  Forall2 fresh els blks -> List.find (fun e => el_type e =? t) els = None ->
  if_found t blks d f = inr d.
Proof.
  intros Hf He. pose proof (find_fresh t _ _ Hf) as H. rewrite He in H.
  unfold if_found. by rewrite H.
Qed.

Lemma find_app {A} (p : A -> bool) a b :
  List.find p (a ++ b) = match List.find p a with Some x => Some x | None => List.find p b end.
Proof. induction a as [|x a IH]; simpl; [done|]. by destruct (p x). Qed.

Lemma find_opt t c e :
  List.find (fun e => el_type e =? t) (opt c e) = if c && (el_type e =? t) then Some e else None.
Proof. destruct c; simpl; [|done]. by destruct (el_type e =? t). Qed.

(** ** Templates over lists of elements *)
Section emits.
Context {E : Type} `{HE : EncodingLaws E}.

Definition el_bytes (e : Element) : list byte :=
  if el_hasWire e then el_wire e else element (el_type e) (el_value e).

Lemma el_bytes_ok e : element_ok e -> el_bytes e = el_wire e.
Proof. intros H. unfold el_bytes. by rewrite (element_ok_wire e H). Qed.

Lemma emits_prependElement e : emits (prependElement e) (el_bytes e) [] (octets (el_bytes e)).
Proof.
  unfold prependElement, el_bytes.
  destruct (el_hasWire e); [apply emits_prependByteArray|apply emits_prependByteArrayBlock].
Qed.

Lemma emits_appendElement e : emits (appendElement e) [] (el_bytes e) (octets (el_bytes e)).
Proof.
  unfold appendElement, el_bytes.
  destruct (el_hasWire e); [apply emits_appendByteArray|apply emits_appendByteArrayBlock].
Qed.

Lemma emits_when c m e :
  (c = true -> emits m (el_wire e) [] (octets (el_wire e))) ->
  emits (when_ c m) (wires (opt c e)) [] (octets (wires (opt c e))).
Proof.
  intros H. destruct c; cbn [when_ opt].
  - rewrite wires_one. by apply H.
  - apply emits_ret.
Qed.

Lemma emits_prependHeader t v :
  emits (prependHeader t (octets v)) (writeVarNumber t ++ writeVarNumber (octets v)) []
    (octets (element t v)).
Proof.
  unfold prependHeader, element. emits; [by rewrite app_nil_l|done|].
  rewrite !octets_app. lia.
Qed.

(** ... of as many octets as have been written. *)
Lemma emits_header n t v :
  n = octets v ->
  emits (prependHeader t n) (writeVarNumber t ++ writeVarNumber (octets v)) []
    (octets (element t v)).
Proof. intros ->. apply emits_prependHeader. Qed.

(** The end of a template whose parts have written the octets [v]. *)
Lemma emits_finish {A} (m : M E A) (k : A -> Z) t v a :
  emits m v [] a -> k a = octets v ->
  emits (x ← m; prependHeader t (k x)) (element t v) [] (octets (element t v)).
Proof.
  intros Hm Hk. eapply emits_eq.
  - eapply emits_bind; [exact Hm|]. rewrite Hk. apply emits_prependHeader.
  - unfold element. by rewrite app_assoc.
  - done.
  - done.
Qed.

Lemma emits_for_prepend l total :
  Forall element_ok l ->
  emits (for_elements (rev l) prependElement total) (wires l) [] (total + octets (wires l)).
Proof.
  intros H. revert total. induction l as [|e l IH] using rev_ind; intros total.
  - eapply emits_eq; [apply emits_ret|done|done|]. unfold wires. simpl. rewrite octets_nil. lia.
  - apply Forall_app in H as [Hl He]. inversion He as [|? ? He' _]; subst.
    rewrite rev_app_distr. cbn [rev app for_elements]. eapply emits_eq.
    + eapply emits_bind; [apply emits_prependElement|apply (IH Hl)].
    + by rewrite wires_app, wires_one, el_bytes_ok.
    + done.
    + rewrite wires_app, wires_one, octets_app, el_bytes_ok by done. lia.
Qed.

(** Appending backwards writes the elements in reverse order. *)
Lemma emits_for_append l total :
  Forall element_ok l ->
  emits (for_elements l appendElement total) [] (wires l) (total + octets (wires l)).
Proof.
  intros H. revert total. induction H as [|e l He _ IH]; intros total.
  - eapply emits_eq; [apply emits_ret|done|done|]. unfold wires. simpl. rewrite octets_nil. lia.
  - cbn [for_elements]. eapply emits_eq.
    + eapply emits_bind; [apply emits_appendElement|apply IH].
    + done.
    + by rewrite wires_cons, el_bytes_ok.
    + rewrite wires_cons, octets_app, el_bytes_ok by done. lia.
Qed.
End emits.

(** A template that writes on both sides of an empty buffer. *)
Lemma make_block_sides (template : forall E, EncodingImpl E -> M E Z) t v f b :
  u32_range t -> u64_range (octets v) -> f ++ b = element t v ->
  (forall E (I : EncodingImpl E) (H : Holds E), EncodingLaws E ->
     emits (template E I) f b (octets (element t v))) ->
  exists blk, make_block template = inr blk /\ fresh (element_tv t v) blk.
Proof.
  intros Ht Hv Hfb H. unfold make_block.
  destruct (H _ _ _ EstimatorLaws.estimator_laws Estimator.mkEstimator [] I) as (? & E1 & _).
  rewrite E1. cbn.
  destruct (H _ _ _ EncoderLaws.encoder_laws
    (Encoder.new (Z.to_nat (octets (element t v))) 0) []) as (e & E2 & He).
  { apply EncoderLaws.new_ok. }
  rewrite E2. rewrite app_nil_l, Hfb in He. by apply encoder_block_element.
Qed.

(** ** What a wire format promises

    An object is written as one element of a type, made of a list of elements; reading a
    fresh block of that element gives [codec_read] of the object, which is the object
    itself but for fields that the format does not tell apart; and whatever is read,
    nothing but TLV errors is thrown. *)
Class Codec (A : Type) := {
  codec_type : Z;
  codec_encode {E} `{!EncodingImpl E} : A -> M E Z;
  codec_decode : Block -> exn + A;
  codec_elements : A -> list Element;
  codec_ok : A -> Prop;
  codec_read : A -> A
}.

Definition codec_element {A} `{Codec A} (x : A) : Element :=
  element_tv codec_type (wires (codec_elements x)).

Class CodecLaws (A : Type) `{Codec A} : Prop := {
  codec_type_range : u32_range (codec_type (A := A));
  codec_elements_ok x : codec_ok x -> Forall element_ok (codec_elements x);
  codec_size x : codec_ok x -> u64_range (octets (wires (codec_elements x)));
  codec_emits x E `{EncodingLaws E} :
    codec_ok x -> emits (codec_encode (E := E) x) (el_wire (codec_element x)) []
                    (octets (el_wire (codec_element x)));
  codec_decodes x b : codec_ok x -> fresh (codec_element x) b -> codec_decode b = inr (codec_read x);
  codec_throws e b : fresh e b -> tlv_only (codec_decode (A := A) b)
}.

Section codec.
Context {A : Type} `{LA : CodecLaws A}.

Lemma codec_element_ok x : codec_ok x -> element_ok (codec_element x).
Proof. intros Hx. apply element_tv_ok; [apply codec_type_range|by apply codec_size]. Qed.

(** Reading back what has been made into a block. *)
Lemma codec_roundtrip x :
  codec_ok x ->
  exists b, make_block (fun E _ => codec_encode x) = inr b /\ fresh (codec_element x) b /\
    codec_decode b = inr (codec_read x).
Proof.
  intros Hx. destruct (make_block_element (fun E _ => codec_encode x) codec_type
    (wires (codec_elements x))) as (b & E & Hf);
    [apply codec_type_range|by apply codec_size|intros E I H0 H1; by apply codec_emits|].
  exists b. split; [done|]. split; [done|]. by apply codec_decodes.
Qed.
End codec.

(** ** Names, as elements of other formats *)
Definition name_element (n : Name) : Element := element_tv tlv.Name (name_value n).

Lemma name_element_ok n : name_encodable n -> element_ok (name_element n).
Proof. intros [_ H]. by apply element_tv_ok. Qed.

Lemma name_element_decode n b :
  name_encodable n -> fresh (name_element n) b -> Name_wireDecode b = inr n.
Proof. intros [H _] Hf. by eapply Name_wireDecode_fresh. Qed.

(** Blocks found among those of a parsed block are fresh themselves. *)
Definition all_fresh (blks : list Block) : Prop := Forall (fun i => exists e, fresh e i) blks.

Lemma tlv_only_if_found {A} t blks (d : A) f :
  all_fresh blks -> (forall e b, fresh e b -> tlv_only (f b)) -> tlv_only (if_found t blks d f).
Proof.
  intros Hb Hf. unfold if_found. destruct (List.find _ _) eqn:E; [|apply tlv_only_ret].
  apply find_some in E as [Hin _]. unfold all_fresh in Hb. rewrite Forall_forall in Hb.
  apply list_elem_of_In in Hin. destruct (Hb _ Hin) as [e He]. by eapply Hf.
Qed.

Lemma tlv_only_get_from t blks : tlv_only (get_from t blks).
Proof. unfold get_from. destruct (List.find _ _); auto with tlv_only. Qed.

Lemma get_from_is_fresh t blks b : all_fresh blks -> get_from t blks = inr b -> exists e, fresh e b.
Proof.
  unfold get_from. intros Hb. destruct (List.find _ _) eqn:E; [intros [= <-]|done].
  apply find_some in E as [Hin _]. unfold all_fresh in Hb. rewrite Forall_forall in Hb.
  apply Hb. by apply list_elem_of_In.
Qed.

(** Decoders: parse, then throw TLV errors only. *)
Lemma tlv_only_elements {A} e b (k : list Block -> exn + A) :
  fresh e b -> (forall blks, all_fresh blks -> tlv_only (k blks)) -> tlv_only (blks ← parsed b; k blks).
Proof.
  intros Hf Hk. apply tlv_only_bind; [by eapply tlv_only_parsed|]. intros blks Hp.
  apply Hk. by eapply parsed_fresh.
Qed.

Lemma tlv_only_with_get {A} t blks (k : Block -> exn + A) :
  all_fresh blks -> (forall e b, fresh e b -> tlv_only (k b)) -> tlv_only (b ← get_from t blks; k b).
Proof.
  intros Hb Hk. apply tlv_only_bind; [apply tlv_only_get_from|]. intros b Hg.
  destruct (get_from_is_fresh _ _ _ Hb Hg) as [e He]. by eapply Hk.
Qed.

Lemma tlv_only_read_int e b : fresh e b -> tlv_only (read_int b).
Proof. intros _. apply tlv_only_fmap, tlv_only_readNonNegativeInteger. Qed.
Lemma tlv_only_read_milliseconds e b : fresh e b -> tlv_only (read_milliseconds b).
Proof. intros _. apply tlv_only_fmap, tlv_only_readNonNegativeInteger. Qed.
Lemma tlv_only_mret {A} (a : A) : tlv_only (mret (M := sum exn) a).
Proof. apply tlv_only_ret. Qed.
#[export] Hint Resolve tlv_only_if_found tlv_only_get_from tlv_only_read_int
  tlv_only_read_milliseconds tlv_only_mret : tlv_only.

(** One field after the other. *)
Ltac tlv_only :=
  repeat first
    [ progress eauto with tlv_only
    | apply tlv_only_if
    | (eapply tlv_only_elements; [eassumption|]; intros)
    | (apply tlv_only_with_get; [assumption|]; intros)
    | (apply tlv_only_bind; [|intros]) ].

(** ** KeyLocator *)
Definition kl_elements (k : KeyLocator) : list Element :=
  match k with
  | KeyLocator_None | KeyLocator_Unknown => []
  | KeyLocator_Name name => [name_element name]
  | KeyLocator_KeyDigest keyDigest => [keyDigest]
  end.

Definition kl_ok (k : KeyLocator) : Prop :=
  u64_range (octets (wires (kl_elements k))) /\
  match k with
  | KeyLocator_None => True
  | KeyLocator_Name name => name_encodable name
  | KeyLocator_KeyDigest keyDigest => element_ok keyDigest /\ el_type keyDigest = tlv.KeyDigest
  | KeyLocator_Unknown => False
  end.

#[export] Instance KeyLocator_codec : Codec KeyLocator := {
  codec_type := tlv.KeyLocator;
  codec_encode _ _ := KeyLocator_wireEncode;
  codec_decode := KeyLocator_wireDecode;
  codec_elements := kl_elements;
  codec_ok := kl_ok;
  codec_read k := k
}.

Lemma kl_elements_ok k : kl_ok k -> Forall element_ok (kl_elements k).
Proof.
  intros [_ H]. destruct k as [|n|d|]; simpl; try constructor; try constructor.
  - by apply name_element_ok.
  - apply H.
Qed.

Lemma fresh_type t v b : fresh (element_tv t v) b -> m_type b = t.
Proof. by intros (_ & (_ & -> & _) & _). Qed.

Lemma KeyLocator_decodes k b : kl_ok k -> fresh (codec_element k) b -> KeyLocator_wireDecode b = inr k.
Proof.
  intros Hk Hf. unfold KeyLocator_wireDecode. rewrite (fresh_type _ _ _ Hf). cbn [negb Z.eqb].
  change (negb _) with false.
  destruct (fresh_parsed _ _ (kl_elements k) Hf eq_refl (kl_elements_ok k Hk)) as (blks & -> & Hb).
  destruct Hk as [_ Hk]. destruct k as [|n|d|]; simpl in Hb; [|..|done].
  - by apply Forall2_nil_inv_l in Hb as ->.
  - apply Forall2_cons_inv_l in Hb as (i & l & Hi & Hb & ->). cbn. rewrite (fresh_type _ _ _ Hi). cbn.
    by rewrite (name_element_decode n i Hk Hi).
  - apply Forall2_cons_inv_l in Hb as (i & l & Hi & Hb & ->). cbn.
    pose proof Hi as (_ & (_ & -> & _) & _). destruct Hk as [_ ->]. cbn.
    by rewrite (element_of_fresh _ _ Hi).
Qed.

#[export] Instance KeyLocator_codec_laws : CodecLaws KeyLocator.
Proof.
  split.
  - done.
  - apply kl_elements_ok.
  - by intros x [H _].
  - intros k E ? ? L Hk. apply (emits_finish _ (fun n => n) _ _ (octets (wires (kl_elements k)))); [|done].
    destruct Hk as [_ Hk]. destruct k as [|n|d|]; cbn [codec_elements KeyLocator_codec kl_elements]; rewrite ?wires_one; [| | |done].
    + apply emits_ret.
    + apply emits_Name_wireEncode.
    + rewrite <-(el_bytes_ok d) by apply Hk. apply emits_prependElement.
  - apply KeyLocator_decodes.
  - intros e b Hf. apply tlv_only_if; [apply tlv_only_error|]. eapply tlv_only_elements; [exact Hf|].
    intros [|i blks] Hb; [apply tlv_only_ret|]. inversion Hb as [|? ? [e' He'] _]; subst.
    tlv_only.
Qed.

Lemma tlv_only_KeyLocator e b : fresh e b -> tlv_only (KeyLocator_wireDecode b).
Proof. exact (codec_throws (A := KeyLocator) e b). Qed.
#[export] Hint Resolve tlv_only_KeyLocator : tlv_only.

(** ** Numbers that a format leaves out when they are negative *)
Definition set_int (n : Z) : Prop := -2147483648 <= n < 2147483648.
Definition read_back (default_ n : Z) : Z := if 0 <=? n then n else default_.

Definition number_element (t n : Z) : Element := element_tv t (nonNegativeInteger n).

Lemma number_element_ok t n : u32_range t -> element_ok (number_element t n).
Proof. intros H. apply element_tv_ok; [done|apply nonNegativeInteger_range]. Qed.

Lemma number_fresh t n b :
  u64_range n -> fresh (number_element t n) b -> readNonNegativeInteger_block b = inr n.
Proof.
  intros Hn (Hb & (_ & _ & Hv & _) & _).
  apply readNonNegativeInteger_block_spec; [by apply block_ok_own|done|done].
Qed.

Lemma read_int_fresh t n b :
  set_int n -> 0 <= n -> fresh (number_element t n) b -> read_int b = inr n.
Proof.
  intros H H0 Hf. unfold read_int. unfold set_int in H.
  rewrite (number_fresh t n b) by (unfold u64_range; done || lia).
  cbn. f_equal. apply i32_id. lia.
Qed.

(** ** Optional fields of a template *)
Section fields.
Context {E : Type} `{HE : EncodingLaws E}.

Definition emits_field (c : bool) (m : M E Z) (e : Element) : Prop :=
  emits (when_ c m) (wires (opt c e)) [] (octets (wires (opt c e))).

Lemma emits_number c t n :
  emits_field c (prependNonNegativeIntegerBlock t n) (number_element t n).
Proof. apply emits_when. intros _. apply emits_prependNonNegativeIntegerBlock. Qed.

Lemma emits_flag c t : emits_field c (prependEmptyBlock t) (element_tv t []).
Proof. apply emits_when. intros _. apply emits_prependEmptyBlock. Qed.

Lemma emits_nested c t m v :
  emits m v [] (octets v) -> emits_field c (prependNestedBlock t m) (element_tv t v).
Proof. intros Hm. apply emits_when. intros _. by apply emits_block_header. Qed.

Lemma emits_filter e :
  emits_field (negb (Exclude_empty e)) (Exclude_wireEncode e)
    (element_tv tlv.Exclude (exclude_value (m_entries e))).
Proof.
  apply emits_when. intros Hne. apply emits_Exclude_wireEncode. intros E1.
  unfold Exclude_empty in Hne. by rewrite E1 in Hne.
Qed.

Lemma emits_codec {A} `{LA : CodecLaws A} c (x : A) :
  (c = true -> codec_ok x) -> emits_field c (codec_encode x) (codec_element x).
Proof. intros Hx. apply emits_when. intros Hc. apply codec_emits; [exact HE|by apply Hx]. Qed.
End fields.

(** The filter has its own encoder and decoder in [Exclude]. *)
Definition exclude_element (e : Exclude) : Element :=
  element_tv tlv.Exclude (exclude_value (m_entries e)).

Definition filter_ok (e : Exclude) : Prop :=
  exclude_ok e /\ u64_range (octets (exclude_value (m_entries e))).

Lemma exclude_element_decode e b :
  filter_ok e -> Exclude_empty e = false -> fresh (exclude_element e) b -> Exclude_wireDecode b = inr e.
Proof.
  intros [H _] Hne Hf. eapply Exclude_wireDecode_fresh; [exact Hf|done|done|done|].
  intros E. unfold Exclude_empty in Hne. by rewrite E in Hne.
Qed.

(** ** Selectors *)
Definition sel_elements (s : Selectors) : list Element :=
  opt (0 <=? sel_minSuffixComponents s)
    (number_element tlv.MinSuffixComponents (sel_minSuffixComponents s)) ++
  opt (0 <=? sel_maxSuffixComponents s)
    (number_element tlv.MaxSuffixComponents (sel_maxSuffixComponents s)) ++
  opt (negb (KeyLocator_empty (sel_publisherPublicKeyLocator s)))
    (codec_element (sel_publisherPublicKeyLocator s)) ++
  opt (negb (Exclude_empty (sel_exclude s))) (exclude_element (sel_exclude s)) ++
  opt (0 <=? sel_childSelector s) (number_element tlv.ChildSelector (sel_childSelector s)) ++
  opt (sel_mustBeFresh s) (element_tv tlv.MustBeFresh []).

Definition sel_ok (s : Selectors) : Prop :=
  u64_range (octets (wires (sel_elements s))) /\
  set_int (sel_minSuffixComponents s) /\ set_int (sel_maxSuffixComponents s) /\
  kl_ok (sel_publisherPublicKeyLocator s) /\ filter_ok (sel_exclude s) /\
  set_int (sel_childSelector s).

(** Every negative number reads back as -1. *)
Definition sel_read (s : Selectors) : Selectors :=
  mkSelectors (read_back (-1) (sel_minSuffixComponents s)) (read_back (-1) (sel_maxSuffixComponents s))
    (sel_publisherPublicKeyLocator s) (sel_exclude s) (read_back (-1) (sel_childSelector s))
    (sel_mustBeFresh s).

#[export] Instance Selectors_codec : Codec Selectors := {
  codec_type := tlv.Selectors;
  codec_encode _ _ := Selectors_wireEncode;
  codec_decode := Selectors_wireDecode;
  codec_elements := sel_elements;
  codec_ok := sel_ok;
  codec_read := sel_read
}.

Lemma sel_elements_ok s : sel_ok s -> Forall element_ok (sel_elements s).
Proof.
  intros (_ & _ & _ & Hk & [_ He] & _). unfold sel_elements.
  repeat (apply Forall_app; split); apply opt_ok; intros _;
    try (by apply number_element_ok); try (by apply element_tv_ok).
  by apply codec_element_ok.
Qed.

(** A field that is one optional element of a parsed block. *)
Lemma if_found_opt {A} t els blks (c : bool) e (d r : A) f :
  Forall2 fresh els blks ->
  List.find (fun e => el_type e =? t) els = (if c then Some e else None) ->
  (c = false -> d = r) -> (c = true -> forall b, fresh e b -> f b = inr r) ->
  if_found t blks d f = inr r.
Proof.
  intros Hf He Hd Hr. destruct c.
  - eapply if_found_some; [done..|]. by apply Hr.
  - rewrite <-Hd by done. by eapply if_found_none.
Qed.

Lemma read_int_opt t els blks n :
  Forall2 fresh els blks -> set_int n ->
  List.find (fun e => el_type e =? t) els = (if 0 <=? n then Some (number_element t n) else None) ->
  if_found t blks (-1) read_int = inr (read_back (-1) n).
Proof.
  intros Hf Hn He. eapply if_found_opt; [done|done| |]; unfold read_back.
  - by intros ->.
  - intros Hc b Hb. rewrite Hc. apply Z.leb_le in Hc. by apply (read_int_fresh t).
Qed.

(** Which of a list of optional elements is the first of a type. *)
Ltac find_field :=
  repeat match goal with |- context [opt ?c ?e] => destruct c; cbn [opt] end;
  cbn [app List.find];
  repeat match goal with |- context [el_type ?e =? ?t] =>
    let r := eval lazy in (el_type e =? t) in change (el_type e =? t) with r; cbv iota
  end; reflexivity.

Lemma Selectors_decodes s b :
  sel_ok s -> fresh (codec_element s) b -> Selectors_wireDecode b = inr (sel_read s).
Proof.
  intros Hs Hf. unfold Selectors_wireDecode. rewrite (fresh_type _ _ _ Hf). change (negb _) with false.
  destruct (fresh_parsed _ _ (sel_elements s) Hf eq_refl (sel_elements_ok s Hs)) as (blks & -> & Hb).
  destruct Hs as (_ & Hmin & Hmax & Hk & He & Hc). cbv iota.
  change (inr ?x ≫= ?k) with (k x). cbv beta. unfold sel_elements in Hb.
  rewrite (read_int_opt tlv.MinSuffixComponents _ _ _ Hb Hmin) by find_field.
  change (inr ?x ≫= ?k) with (k x). cbv beta.
  rewrite (read_int_opt tlv.MaxSuffixComponents _ _ _ Hb Hmax) by find_field.
  change (inr ?x ≫= ?k) with (k x). cbv beta.
  rewrite (if_found_opt tlv.KeyLocator _ _ (negb (KeyLocator_empty (sel_publisherPublicKeyLocator s)))
    (codec_element (sel_publisherPublicKeyLocator s)) _ (sel_publisherPublicKeyLocator s) _ Hb);
    [|find_field|by destruct (sel_publisherPublicKeyLocator s)|
     intros _ i Hi; by apply KeyLocator_decodes].
  change (inr ?x ≫= ?k) with (k x). cbv beta.
  rewrite (if_found_opt tlv.Exclude _ _ (negb (Exclude_empty (sel_exclude s)))
    (exclude_element (sel_exclude s)) _ (sel_exclude s) _ Hb);
    [|find_field|by destruct (sel_exclude s) as [[|]]|
     intros Hne i Hi; apply exclude_element_decode; [done|by apply negb_true_iff|done]].
  change (inr ?x ≫= ?k) with (k x). cbv beta.
  rewrite (read_int_opt tlv.ChildSelector _ _ _ Hb Hc) by find_field.
  change (inr ?x ≫= ?k) with (k x). cbv beta.
  by rewrite (if_found_opt tlv.MustBeFresh _ _ (sel_mustBeFresh s) (element_tv tlv.MustBeFresh []) _
    (sel_mustBeFresh s) _ Hb); [|find_field|intros ->|intros ->].
Qed.

#[export] Instance Selectors_codec_laws : CodecLaws Selectors.
Proof.
  split.
  - done.
  - apply sel_elements_ok.
  - by intros x [H _].
  - intros s E ? ? L (_ & _ & _ & Hk & _ & _).
    unfold codec_element, codec_encode, codec_elements, Selectors_codec, Selectors_wireEncode.
    eapply emits_eq.
    + eapply emits_bind; [apply emits_flag|]. eapply emits_bind; [apply emits_number|].
      eapply emits_bind; [apply emits_filter|].
      eapply emits_bind; [exact (emits_codec _ (sel_publisherPublicKeyLocator s) (fun _ => Hk))|].
      eapply emits_bind; [apply emits_number|]. eapply emits_bind; [apply emits_number|].
      apply (emits_header _ _ (wires (sel_elements s))).
      unfold sel_elements, exclude_element. rewrite !wires_app, !octets_app. lia.
    + unfold sel_elements, exclude_element. cbn [el_wire element_tv]. unfold element.
      by rewrite !wires_app, <-!app_assoc.
    + done.
    + done.
  - apply Selectors_decodes.
  - intros e b Hf. apply tlv_only_if; [apply tlv_only_error|]. tlv_only.
Qed.

Lemma tlv_only_Selectors e b : fresh e b -> tlv_only (Selectors_wireDecode b).
Proof. exact (codec_throws (A := Selectors) e b). Qed.
#[export] Hint Resolve tlv_only_Selectors : tlv_only.

(** ** MetaInfo *)
Lemma take_optional_opt {A} t (c : bool) e rest blks (d r : A) f :
  Forall2 fresh (opt c e ++ rest) blks -> el_type e = t ->
  (c = true -> forall b, fresh e b -> f b = inr r) ->
  (c = false -> d = r) -> Forall (fun e => el_type e <> t) rest ->
  exists blks', take_optional t blks d f = inr (r, blks') /\ Forall2 fresh rest blks'.
Proof.
  intros Hf Ht Hr Hd Hrest. destruct c; cbn [opt app] in Hf.
  - apply Forall2_cons_inv_l in Hf as (b & blks' & Hb & Hf & ->). exists blks'. split; [|done].
    pose proof Hb as (_ & (_ & Htb & _) & _). unfold take_optional.
    rewrite Htb, Ht, Z.eqb_refl, (Hr eq_refl b Hb). done.
  - exists blks. split; [|done]. rewrite <-(Hd eq_refl). destruct Hf as [|e' b els blks He Hf]; [done|].
    pose proof He as (_ & (_ & Htb & _) & _). inversion Hrest as [|? ? Hne _]; subst.
    unfold take_optional. rewrite Htb. by apply Z.eqb_neq in Hne as ->.
Qed.

Definition mi_elements (m : MetaInfo) : list Element :=
  opt (negb (mi_type m =? tlv.ContentType_Blob)) (number_element tlv.ContentType (mi_type m)) ++
  opt (0 <=? mi_freshnessPeriod m) (number_element tlv.FreshnessPeriod (mi_freshnessPeriod m)) ++
  opt (negb (Names.value_size (mi_finalBlockId m) =? 0))
    (element_tv tlv.FinalBlockId (component_wire (mi_finalBlockId m))) ++
  mi_appMetaInfo m.

Definition mi_ok (m : MetaInfo) : Prop :=
  u64_range (octets (wires (mi_elements m))) /\
  u32_range (mi_type m) /\ i64_range (mi_freshnessPeriod m) /\
  component_ok (mi_finalBlockId m) /\ u64_range (octets (component_wire (mi_finalBlockId m))) /\
  Forall (fun e => element_ok e /\ is_app_type (el_type e) = true) (mi_appMetaInfo m).

(** What reading into [old] leaves there. *)
Definition mi_read_into (old m : MetaInfo) : MetaInfo :=
  mkMetaInfo (mi_type m) (read_back milliseconds_min (mi_freshnessPeriod m))
    (if isGeneric (mi_finalBlockId m) then mi_finalBlockId m else Component_new)
    (mi_appMetaInfo old ++ mi_appMetaInfo m).

#[export] Instance MetaInfo_codec : Codec MetaInfo := {
  codec_type := tlv.MetaInfo;
  codec_encode _ _ := MetaInfo_wireEncode;
  codec_decode b := MetaInfo_wireDecode b MetaInfo_new;
  codec_elements := mi_elements;
  codec_ok := mi_ok;
  codec_read := mi_read_into MetaInfo_new
}.

Lemma mi_elements_ok m : mi_ok m -> Forall element_ok (mi_elements m).
Proof.
  intros (_ & _ & _ & _ & Hl & Happ). unfold mi_elements.
  repeat (apply Forall_app; split); try (apply opt_ok; intros _; by apply number_element_ok).
  - apply opt_ok. intros _. by apply element_tv_ok.
  - eapply Forall_impl; [exact Happ|]. by intros e [H _].
Qed.

Lemma app_types_ne t l :
  is_app_type t = false ->
  Forall (fun e => element_ok e /\ is_app_type (el_type e) = true) l ->
  Forall (fun e => el_type e <> t) l.
Proof. intros Ht H. eapply Forall_impl; [exact H|]. intros e [_ He] <-. congruence. Qed.

Lemma opt_types_ne t c e : el_type e <> t -> Forall (fun e => el_type e <> t) (opt c e).
Proof. intros H. destruct c; [by constructor|constructor]. Qed.

Lemma decode_finalBlockId_fresh c b :
  component_ok c -> fresh (element_tv tlv.FinalBlockId (component_wire c)) b ->
  decode_finalBlockId b = inr (if isGeneric c then c else Component_new).
Proof.
  intros Hc Hf. unfold decode_finalBlockId. pose proof Hf as (Hb & (_ & _ & Hv & _) & _).
  destruct (blockFromValue_encodes b (ctype c) (cvalue c)) as (b' & -> & Hf');
    [by apply block_ok_own|rewrite Hv; by apply encodes_element; apply Hc|].
  cbn. rewrite (Component_of_block_fresh _ _ c Hf') by done. cbn. f_equal.
  unfold isGeneric. by destruct (ctype c =? tlv.NameComponent).
Qed.

Lemma MetaInfo_decodes old m b :
  mi_ok m -> fresh (codec_element m) b -> MetaInfo_wireDecode b old = inr (mi_read_into old m).
Proof.
  intros Hm Hf. unfold MetaInfo_wireDecode.
  destruct (fresh_parsed _ _ (mi_elements m) Hf eq_refl (mi_elements_ok m Hm)) as (blks & -> & Hb).
  destruct Hm as (_ & Ht & Hp & Hc & _ & Happ). change (inr ?x ≫= ?k) with (k x). cbv beta.
  destruct (take_optional_opt tlv.ContentType _ _ _ _ tlv.ContentType_Blob (mi_type m)
    (fun e => u32 <$> readNonNegativeInteger_block e) Hb) as (blks1 & -> & Hb1); [done|..].
  { intros _ i Hi. rewrite (number_fresh tlv.ContentType (mi_type m)); [|unfold u64_range, u32_range in *; lia|done].
    cbn. by rewrite u32_id. }
  { intros Hn. apply negb_false_iff, Z.eqb_eq in Hn. done. }
  { repeat apply Forall_app_2; try (by apply opt_types_ne); by apply app_types_ne. }
  change (inr ?x ≫= ?k) with (k x). cbv beta iota.
  destruct (take_optional_opt tlv.FreshnessPeriod _ _ _ _ milliseconds_min
    (read_back milliseconds_min (mi_freshnessPeriod m)) read_milliseconds Hb1) as (blks2 & -> & Hb2); [done|..].
  { intros H0 i Hi. unfold read_back, read_milliseconds. rewrite H0. apply Z.leb_le in H0.
    unfold i64_range in Hp. rewrite (number_fresh tlv.FreshnessPeriod (mi_freshnessPeriod m));
      [|unfold u64_range; lia|done]. cbn. by rewrite i64_id. }
  { unfold read_back. by intros ->. }
  { repeat apply Forall_app_2; try (by apply opt_types_ne); by apply app_types_ne. }
  change (inr ?x ≫= ?k) with (k x). cbv beta iota.
  destruct (take_optional_opt tlv.FinalBlockId _ _ _ _ Component_new
    (if isGeneric (mi_finalBlockId m) then mi_finalBlockId m else Component_new) decode_finalBlockId Hb2)
    as (blks3 & -> & Hb3); [done|..].
  { intros _ i Hi. by apply decode_finalBlockId_fresh. }
  { intros H0. apply negb_false_iff, Z.eqb_eq in H0. destruct (mi_finalBlockId m) as [t v].
    unfold isGeneric. cbn in *. destruct (Z.eqb_spec t tlv.NameComponent) as [->|]; [|done].
    destruct v; [done|]. unfold Names.value_size in H0. cbn in H0. lia. }
  { by apply app_types_ne. }
  change (inr ?x ≫= ?k) with (k x). cbv beta iota. unfold mi_read_into.
  by rewrite (elements_of_fresh _ _ Hb3).
Qed.

Lemma tlv_only_read_header buf b e : tlv_only (read_header buf b e).
Proof.
  unfold read_header. apply tlv_only_bind.
  { destruct (readType_or_throw_eq (slice b e buf)) as [(n & r & _ & ->)|[_ [what ->]]]; auto with tlv_only. }
  intros [t r] _. apply tlv_only_bind.
  { destruct (readVarNumber_or_throw_eq r) as [(n & r' & _ & ->)|[_ [what ->]]]; auto with tlv_only. }
  intros [n r'] _. apply tlv_only_ret.
Qed.

Lemma tlv_only_blockFromValue b : tlv_only (blockFromValue b).
Proof.
  apply tlv_only_if; [apply tlv_only_error|]. apply tlv_only_bind; [apply tlv_only_read_header|].
  intros [[t n] p] _. apply tlv_only_if; auto with tlv_only.
Qed.

Lemma tlv_only_decode_finalBlockId e b : fresh e b -> tlv_only (decode_finalBlockId b).
Proof.
  intros _. apply tlv_only_bind; [apply tlv_only_blockFromValue|]. intros i _.
  apply tlv_only_bind; [apply tlv_only_if; auto with tlv_only|]. intros c _. apply tlv_only_ret.
Qed.

Lemma tlv_only_take_optional {A B} t blks (d : A) f (k : A * list Block -> exn + B) :
  all_fresh blks -> (forall e b, fresh e b -> tlv_only (f b)) ->
  (forall a rest, all_fresh rest -> tlv_only (k (a, rest))) ->
  tlv_only (x ← take_optional t blks d f; k x).
Proof.
  intros Hb Hf Hk. unfold take_optional. destruct Hb as [|b blks [e He] Hb].
  { apply (Hk _ []). constructor. }
  destruct (m_type b =? t).
  - specialize (Hf e b He). destruct (f b) as [ex|a]; [|by apply (Hk a)]. intros ? [= <-]. by apply Hf.
  - apply (Hk _ (b :: blks)). constructor; [by exists e|done].
Qed.

Lemma tlv_only_MetaInfo old e b : fresh e b -> tlv_only (MetaInfo_wireDecode b old).
Proof.
  intros Hf. eapply tlv_only_elements; [exact Hf|]. intros blks Hb.
  apply tlv_only_take_optional; [done|intros; apply tlv_only_fmap, tlv_only_readNonNegativeInteger|].
  intros t blks1 H1. apply tlv_only_take_optional; [done|apply tlv_only_read_milliseconds|].
  intros p blks2 H2. apply tlv_only_take_optional; [done|apply tlv_only_decode_finalBlockId|].
  intros c blks3 H3. apply tlv_only_ret.
Qed.
#[export] Hint Resolve tlv_only_MetaInfo : tlv_only.

#[export] Instance MetaInfo_codec_laws : CodecLaws MetaInfo.
Proof.
  split.
  - done.
  - apply mi_elements_ok.
  - by intros x [H _].
  - intros m E ? ? L (_ & _ & _ & _ & _ & Happ).
    assert (Forall element_ok (mi_appMetaInfo m)) as Hok.
    { eapply Forall_impl; [exact Happ|]. by intros e [H _]. }
    unfold codec_element, codec_encode, codec_elements, MetaInfo_codec, MetaInfo_wireEncode.
    eapply emits_eq.
    + eapply emits_bind; [by apply emits_for_prepend|].
      eapply emits_bind; [apply emits_nested, emits_Component_wireEncode|].
      eapply emits_bind; [apply emits_number|]. eapply emits_bind; [apply emits_number|].
      apply (emits_header _ _ (wires (mi_elements m))).
      unfold mi_elements. rewrite !wires_app, !octets_app. lia.
    + unfold mi_elements. cbn [el_wire element_tv]. unfold element.
      by rewrite !wires_app, <-!app_assoc.
    + done.
    + done.
  - apply MetaInfo_decodes.
  - intros e b Hf. unfold codec_decode, MetaInfo_codec. by eapply tlv_only_MetaInfo.
Qed.

(** ** SignatureInfo

    The encoder's loop goes backwards and appends, so the type-specific elements are
    written, and come back, in reverse order. *)
Definition locator_elements (k : option KeyLocator) : list Element :=
  match k with Some k => [codec_element k] | None => [] end.

Definition si_elements (s : SignatureInfo) : list Element :=
  number_element tlv.SignatureType (u64 (si_type s)) ::
  locator_elements (si_keyLocator s) ++ rev (si_otherTlvs s).

Definition si_element (s : SignatureInfo) : Element :=
  element_tv tlv.SignatureInfo (wires (si_elements s)).

Definition si_ok (s : SignatureInfo) : Prop :=
  u64_range (octets (wires (si_elements s))) /\ set_int (si_type s) /\
  from_option kl_ok True (si_keyLocator s) /\
  Forall (fun e => element_ok e /\ el_type e <> tlv.KeyLocator) (si_otherTlvs s).

Definition si_read (s : SignatureInfo) : SignatureInfo :=
  mkSignatureInfo (si_type s) (si_keyLocator s) (rev (si_otherTlvs s)) (Some (si_element s)).

Lemma others_ok s : si_ok s -> Forall element_ok (si_otherTlvs s).
Proof. intros (_ & _ & _ & H). eapply Forall_impl; [exact H|]. by intros e []. Qed.

Lemma si_elements_ok s : si_ok s -> Forall element_ok (si_elements s).
Proof.
  intros Hs. pose proof (others_ok s Hs) as Ho. destruct Hs as (_ & _ & Hk & _).
  constructor; [by apply number_element_ok|]. apply Forall_app. split; [|by apply Forall_rev].
  destruct (si_keyLocator s); [|constructor]. constructor; [by apply codec_element_ok|constructor].
Qed.

(** What is written in front of the type-specific elements. *)
Definition si_front (s : SignatureInfo) : list byte :=
  writeVarNumber tlv.SignatureInfo ++ writeVarNumber (octets (wires (si_elements s))) ++
  el_wire (number_element tlv.SignatureType (u64 (si_type s))) ++
  wires (locator_elements (si_keyLocator s)).

Lemma emits_SignatureInfo {E} `{HE : EncodingLaws E} s :
  si_ok s ->
  emits (SignatureInfo_wireEncode_to s)
    (si_front s) (wires (rev (si_otherTlvs s))) (octets (el_wire (si_element s))).
Proof.
  intros Hs. pose proof (others_ok s Hs) as Ho. destruct Hs as (_ & _ & Hk & _).
  assert (emits (match si_keyLocator s with Some k => KeyLocator_wireEncode k | None => mret 0 end)
    (wires (locator_elements (si_keyLocator s))) []
    (octets (wires (locator_elements (si_keyLocator s))))) as Hl.
  { destruct (si_keyLocator s) as [k|]; [|apply emits_ret]. cbn [locator_elements]. rewrite wires_one.
    exact (codec_emits k E Hk). }
  unfold SignatureInfo_wireEncode_to. eapply emits_eq.
  - eapply emits_bind; [by apply emits_for_append, Forall_rev|]. eapply emits_bind; [exact Hl|].
    eapply emits_bind; [apply emits_prependNonNegativeIntegerBlock|].
    apply (emits_header _ _ (wires (si_elements s))).
    unfold si_elements. rewrite wires_cons, wires_app, !octets_app. cbn [el_wire number_element element_tv]. lia.
  - unfold si_front. by rewrite ?app_nil_r, <-!app_assoc.
  - by rewrite ?app_nil_r.
  - done.
Qed.

Lemma SignatureInfo_wireEncode_spec s :
  si_ok s -> si_wire s = None ->
  SignatureInfo_wireEncode s =
    inr (mkSignatureInfo (si_type s) (si_keyLocator s) (si_otherTlvs s) (Some (si_element s)), si_element s).
Proof.
  intros Hs Hw. unfold SignatureInfo_wireEncode. rewrite Hw.
  destruct (make_block_sides (fun E _ => SignatureInfo_wireEncode_to s) tlv.SignatureInfo
    (wires (si_elements s)) (si_front s) (wires (rev (si_otherTlvs s)))) as (b & -> & Hf).
  - done.
  - apply Hs.
  - unfold si_front, element, si_elements. by rewrite wires_cons, wires_app, <-!app_assoc.
  - intros E I H L. by apply emits_SignatureInfo.
  - cbn. by rewrite (element_of_fresh _ _ Hf).
Qed.

Lemma i32_u64 z : set_int z -> i32 (u64 z) = z.
Proof.
  unfold set_int, i32, u64. intros H.
  destruct (Z.ltb_spec z 0).
  - replace (z mod _) with (z + 18446744073709551616)
      by (symmetry; rewrite <-(Z_mod_plus_full z 1); apply Z.mod_small; lia).
    replace (_ + _ + _) with (z + 2147483648 + 4294967296 * 4294967296) by lia.
    rewrite Z_mod_plus_full, Z.mod_small; lia.
  - rewrite (Z.mod_small z), Z.mod_small; lia.
Qed.

Lemma SignatureInfo_decodes s b :
  si_ok s -> fresh (si_element s) b -> SignatureInfo_of_block b = inr (si_read s).
Proof.
  intros Hs Hf. unfold SignatureInfo_of_block. rewrite (fresh_wire _ _ Hf). cbn [negb].
  destruct (fresh_parsed _ _ (si_elements s) Hf eq_refl (si_elements_ok s Hs)) as (blks & -> & Hb).
  change (inr ?x ≫= ?k) with (k x). cbv beta. rewrite (fresh_type _ _ _ Hf). change (negb _) with false. cbv iota.
  apply Forall2_cons_inv_l in Hb as (i & rest & Hi & Hb & ->). rewrite (fresh_type _ _ _ Hi).
  change (_ =? _) with true. cbv iota.
  destruct Hs as (_ & Ht & Hk & Ho). unfold read_int.
  rewrite (number_fresh tlv.SignatureType (u64 (si_type s)) i (u64_bounds _) Hi).
  change (i32 <$> inr ?x) with (@inr exn Z (i32 x)). rewrite (i32_u64 _ Ht).
  change (inr ?x ≫= ?k) with (k x). cbv beta.
  set (c := if si_keyLocator s then true else false).
  destruct (take_optional_opt tlv.KeyLocator c
    (codec_element (default KeyLocator_None (si_keyLocator s))) (rev (si_otherTlvs s)) rest None
    (si_keyLocator s) (fun e => Some <$> KeyLocator_wireDecode e)) as (blks' & -> & Hb').
  - unfold c. by destruct (si_keyLocator s).
  - done.
  - unfold c. intros Hc k Hfk. destruct (si_keyLocator s) as [l|]; [|done].
    rewrite (KeyLocator_decodes l k Hk Hfk). done.
  - unfold c. by destruct (si_keyLocator s).
  - apply Forall_rev. eapply Forall_impl; [exact Ho|]. by intros e [].
  - change (inr ?x ≫= ?k) with (k x). cbv beta iota.
    by rewrite (elements_of_fresh _ _ Hb'), (element_of_fresh _ _ Hf).
Qed.
