(* ===== verification/PacketWireSpec.v ===== *)
(** * PacketWireSpec: whole Interests and Data on the wire

    The formats of [WireFormatSpec] put together: what [wireEncode] of a Data and of an
    Interest writes, what a receiver that reads these octets from a stream gets, and what
    can go wrong when the octets come from anywhere. *)
From S2P Require Import Prelude Tlv Encoder Block BlockSpec Names NameWire Exclude ExcludeSpec WireFormat WireFormatSpec.

(** The rest of a computation that has succeeded so far. *)
Ltac next := change (inr ?x ≫= ?k) with (k x); cbv beta iota.

Lemma get_from_found {A} t els blks e (k : Block -> exn + A) r :
  Forall2 fresh els blks -> List.find (fun e => el_type e =? t) els = Some e ->
  (forall b, fresh e b -> k b = r) -> (b ← get_from t blks; k b) = r.
Proof. intros Hf He Hk. destruct (get_from_fresh _ _ _ _ Hf He) as (b & -> & Hb). by apply Hk. Qed.

(** ** Data *)
Definition data_value (d : Data) : Element := element_encoded (sig_value (da_signature d)).

Definition data_elements (d : Data) : list Element :=
  [name_element (da_name d); codec_element (da_metaInfo d); getContent d;
   si_element (sig_info (da_signature d)); data_value d].

Definition data_element (d : Data) : Element := element_tv tlv.Data (wires (data_elements d)).

Definition data_ok (d : Data) : Prop :=
  u64_range (octets (wires (data_elements d))) /\
  name_encodable (da_name d) /\ mi_ok (da_metaInfo d) /\
  (element_ok (getContent d) /\ el_type (getContent d) = tlv.Content) /\
  si_ok (sig_info (da_signature d)) /\
  (element_ok (data_value d) /\ el_type (data_value d) = tlv.SignatureValue).

(** What reading into [old] gives. *)
Definition data_read_into (old : MetaInfo) (d : Data) : Data :=
  mkData (da_name d) (mi_read_into old (da_metaInfo d)) (getContent d)
    (mkSignature (si_read (sig_info (da_signature d))) (data_value d)) (Some (data_element d)).

Lemma data_elements_ok d : data_ok d -> Forall element_ok (data_elements d).
Proof.
  intros (_ & Hn & Hm & [Hc _] & [Hs _] & [Hv _]). unfold data_elements. repeat constructor; try done.
  - by apply name_element_ok.
  - by apply codec_element_ok.
  - by apply element_tv_ok.
Qed.

Lemma Data_decodes old d b :
  data_ok d -> fresh (data_element d) b ->
  Data_wireDecode b old = inr (data_read_into (da_metaInfo old) d).
Proof.
  intros Hd Hf. unfold Data_wireDecode.
  destruct (fresh_parsed _ _ (data_elements d) Hf eq_refl (data_elements_ok d Hd)) as (blks & -> & Hb).
  destruct Hd as (_ & Hn & Hm & [_ Hc] & Hs & [_ Hv]). next.
  eapply get_from_found; [exact Hb|done|]. intros b1 H1. rewrite (name_element_decode _ _ Hn H1). next.
  eapply get_from_found; [exact Hb|done|]. intros b2 H2. rewrite (MetaInfo_decodes _ _ _ Hm H2). next.
  unfold data_elements in Hb. destruct (getContent d) as [ct cv cw] eqn:Ec. cbn in Hc. subst ct.
  eapply get_from_found; [exact Hb|done|]. intros b3 H3.
  eapply get_from_found; [exact Hb|done|]. intros b4 H4. rewrite (SignatureInfo_decodes _ _ Hs H4). next.
  destruct (data_value d) as [vt vv vw] eqn:Ev. cbn in Hv. subst vt.
  erewrite if_found_some; [|exact Hb|done|]; cycle 1.
  { intros b5 H5. unfold setValue. pose proof H5 as (_ & (_ & -> & _) & _). cbn. 
    by rewrite (element_of_fresh _ _ H5). }
  next. rewrite (element_of_fresh _ _ H3), (element_of_fresh _ _ Hf).
  unfold data_read_into. by rewrite Ec, Ev.
Qed.

Lemma emits_Data {E} `{HE : EncodingLaws E} d :
  data_ok d -> da_content d = getContent d -> data_value d = sig_value (da_signature d) ->
  emits (Data_wireEncode_to d (si_element (sig_info (da_signature d))))
    (el_wire (data_element d)) [] (octets (el_wire (data_element d))).
Proof.
  intros Hd Hc Hv. pose proof (data_elements_ok d Hd) as Hok. destruct Hd as (_ & _ & Hm & _).
  assert (forall e, element_ok e -> emits (prependElement e) (el_wire e) [] (octets (el_wire e))) as Hp.
  { intros e He. rewrite <-(el_bytes_ok e He). apply emits_prependElement. }
  unfold data_elements in Hok. rewrite !Forall_cons in Hok. destruct Hok as (_ & _ & H1 & H2 & H3 & _).
  unfold Data_wireEncode_to. rewrite <-Hv, Hc. eapply emits_eq.
  - eapply emits_bind; [by apply Hp|]. eapply emits_bind; [by apply Hp|].
    eapply emits_bind; [by apply Hp|]. eapply emits_bind; [exact (codec_emits _ E Hm)|].
    eapply emits_bind; [apply emits_Name_wireEncode|].
    apply (emits_header _ _ (wires (data_elements d))).
    unfold data_elements. rewrite !wires_cons, wires_nil, !octets_app, octets_nil.
    cbn [el_wire name_element element_tv]. unfold name_wire. lia.
  - unfold data_element, data_elements. cbn [el_wire element_tv]. unfold element.
    by rewrite !wires_cons, wires_nil, app_nil_r, <-!app_assoc.
  - done.
  - done.
Qed.

(** The packet whose lazily encoded parts have been encoded. *)
Definition data_prepared (d : Data) : Data :=
  let info := sig_info (da_signature d) in
  mkData (da_name d) (da_metaInfo d) (getContent d)
    (mkSignature (mkSignatureInfo (si_type info) (si_keyLocator info) (si_otherTlvs info)
      (Some (si_element info))) (data_value d)) None.

Lemma element_encoded_idem e : element_ok e -> element_encoded e = e.
Proof. intros He. unfold element_encoded. by rewrite element_ok_wire. Qed.

Lemma getContent_prepared d : data_ok d -> getContent (data_prepared d) = getContent d.
Proof.
  intros (_ & _ & _ & [Hc Ht] & _). unfold getContent at 1. cbn [data_prepared da_content].
  rewrite Ht. cbn. by apply element_encoded_idem.
Qed.

Lemma data_value_prepared d : data_ok d -> data_value (data_prepared d) = data_value d.
Proof. intros (_ & _ & _ & _ & _ & [Hv _]). unfold data_value at 1. cbn. by apply element_encoded_idem. Qed.

Lemma data_elements_prepared d : data_ok d -> data_elements (data_prepared d) = data_elements d.
Proof.
  intros Hd. unfold data_elements. by rewrite getContent_prepared, data_value_prepared.
Qed.

Lemma data_prepared_ok d : data_ok d -> data_ok (data_prepared d).
Proof.
  intros Hd. pose proof Hd as (H1 & H2 & H3 & H4 & H5 & H6). unfold data_ok.
  rewrite data_elements_prepared, getContent_prepared, data_value_prepared by done. done.
Qed.

Lemma data_read_prepared old d : data_ok d -> data_read_into old (data_prepared d) = data_read_into old d.
Proof.
  intros Hd. unfold data_read_into, data_element.
  by rewrite data_elements_prepared, getContent_prepared, data_value_prepared.
Qed.

Lemma Data_wireEncode_spec d :
  data_ok d -> da_wire d = None -> si_wire (sig_info (da_signature d)) = None ->
  signature_set (da_signature d) = true ->
  Data_wireEncode d = inr (data_read_into (da_metaInfo d) d, data_element d).
Proof.
  intros Hd Hw Hsw Hsig. unfold Data_wireEncode, Data_encodable. rewrite Hw, Hsig. cbn [negb].
  rewrite SignatureInfo_wireEncode_spec by (done || apply Hd). next.
  change (mret ?x ≫= ?k) with (k x). cbv beta iota. fold (data_value d).
  change (mkData _ _ _ _ None) with (data_prepared d).
  destruct (make_block_element (fun E _ => Data_wireEncode_to (data_prepared d)
    (si_element (sig_info (da_signature d)))) tlv.Data (wires (data_elements d))) as (b & -> & Hf).
  - done.
  - apply Hd.
  - intros E I H L. rewrite <-(data_elements_prepared d Hd).
    apply (emits_Data (data_prepared d)); [by apply data_prepared_ok|by rewrite getContent_prepared|].
    by rewrite data_value_prepared.
  - next. fold (data_element d) in Hf. change (mkElement _ _ _) with (data_element d) in Hf.
    rewrite (Data_decodes (data_prepared d) (data_prepared d) b); [|by apply data_prepared_ok|].
    + next. rewrite data_read_prepared by done. by rewrite (element_of_fresh _ _ Hf).
    + unfold data_element. by rewrite data_elements_prepared.
Qed.

(** ** Interests *)

(** The number of delegations a link object announces. *)
Definition has_delegations (link : Element) (n : Z) : Prop :=
  exists els content ds,
    tlv_stream (el_value link) els /\
    List.find (fun e => el_type e =? tlv.Content) els = Some content /\
    tlv_stream (el_value content) ds /\ n = Z.of_nat (length ds).

Lemma countDelegations_fresh link b n :
  fresh link b -> has_delegations link n -> countDelegationsFromWire b = inr n.
Proof.
  intros (Hb & (_ & _ & Hv & _) & Hs) (els & c & ds & H1 & H2 & H3 & ->). unfold countDelegationsFromWire.
  rewrite <-Hv in H1. destruct (parsed_stream b els (block_ok_own _ Hb) Hs H1) as (blks & -> & Hf).
  next. eapply get_from_found; [exact Hf|exact H2|]. intros i (Hi & (_ & _ & Hvi & _) & Hsi).
  rewrite <-Hvi in H3. destruct (parsed_stream i ds (block_ok_own _ Hi) Hsi H3) as (blks' & -> & Hf').
  next. by rewrite (Forall2_length _ _ _ Hf').
Qed.

Definition lifetime_written (i : Interest) : bool :=
  (0 <=? in_lifetime i) && negb (in_lifetime i =? DEFAULT_INTEREST_LIFETIME).

Definition interest_elements (i : Interest) : list Element :=
  [name_element (in_name i)] ++
  opt (hasSelectors i) (codec_element (in_selectors i)) ++
  [in_nonce i] ++
  opt (lifetime_written i) (number_element tlv.InterestLifetime (in_lifetime i)) ++
  opt (hasLink i) (in_link i) ++
  opt (hasLink i && hasSelectedDelegation i)
    (number_element tlv.SelectedDelegation (in_selectedDelegation i)).

Definition interest_element (i : Interest) : Element :=
  element_tv tlv.Interest (wires (interest_elements i)).

Definition link_ok (i : Interest) : Prop :=
  (hasLink i = true -> element_ok (in_link i) /\ el_type (in_link i) = tlv.Data) /\
  (hasSelectedDelegation i = true ->
     hasLink i = true /\
     u64_range (in_selectedDelegation i) /\
     exists n, has_delegations (in_link i) n /\ in_selectedDelegation i < n).

(** An Interest that has its nonce, one that [getNonce] can read. *)
Definition interest_ok (i : Interest) : Prop :=
  u64_range (octets (wires (interest_elements i))) /\
  name_encodable (in_name i) /\ sel_ok (in_selectors i) /\
  (element_ok (in_nonce i) /\ el_type (in_nonce i) = tlv.Nonce /\
   exists n, getNonce (el_value (in_nonce i)) = inr n) /\
  i64_range (in_lifetime i) /\ link_ok i.

(** A negative lifetime is not written: the default comes back. *)
Definition interest_read (i : Interest) : Interest :=
  mkInterest (in_name i) (sel_read (in_selectors i)) (in_nonce i)
    (read_back DEFAULT_INTEREST_LIFETIME (in_lifetime i))
    (if hasLink i then in_link i else element_none) (in_selectedDelegation i)
    (Some (interest_element i)).

Lemma interest_elements_ok i : interest_ok i -> Forall element_ok (interest_elements i).
Proof.
  intros (_ & Hn & Hs & [Hno _] & _ & [Hl _]). unfold interest_elements.
  repeat (apply Forall_app; split); try (apply opt_ok); try (constructor; [|constructor]).
  - by apply name_element_ok.
  - intros _. by apply codec_element_ok.
  - done.
  - intros _. by apply number_element_ok.
  - intros H. by apply Hl.
  - intros _. by apply number_element_ok.
Qed.

Lemma Selectors_read_empty s : Selectors_empty s = true -> sel_read s = Selectors_new.
Proof.
  destruct s as [mi ma k [ex] ch fr]. unfold Selectors_empty, sel_read, Exclude_empty. cbn. intros H.
  repeat (apply andb_prop in H as [H ?]). unfold read_back.
  destruct (Z.leb_spec 0 mi), (Z.leb_spec 0 ma), (Z.leb_spec 0 ch);
    try (rewrite ?Z.ltb_lt in *; lia).
  destruct k, ex, fr; done.
Qed.

(** An element whose type is known, in a form that shows it. *)
Definition typed (t : Z) (e : Element) : Element := mkElement t (el_value e) (el_wire e).
Lemma typed_eq t e : el_type e = t -> e = typed t e.
Proof. intros <-. by destruct e. Qed.
Lemma typed_opt t c e : (c = true -> el_type e = t) -> opt c e = opt c (typed t e).
Proof. intros H. destruct c; [|done]. cbn. by rewrite <-(typed_eq t e) by auto. Qed.

Lemma Interest_decodes i b :
  interest_ok i -> fresh (interest_element i) b -> Interest_wireDecode b = inr (interest_read i).
Proof.
  intros Hi Hf. unfold Interest_wireDecode.
  destruct (fresh_parsed _ _ (interest_elements i) Hf eq_refl (interest_elements_ok i Hi)) as (blks & -> & Hb).
  next. rewrite (fresh_type _ _ _ Hf). change (negb _) with false. cbv iota.
  destruct Hi as (_ & Hn & Hs & (_ & Hno & _) & Hl & Hlink & Hdel). unfold interest_elements in Hb.
  rewrite (typed_opt tlv.Data (hasLink i)) in Hb by (intros H; by apply Hlink).
  rewrite (typed_eq tlv.Nonce (in_nonce i) Hno) in Hb.
  eapply get_from_found; [exact Hb|find_field|]. intros b1 H1. rewrite (name_element_decode _ _ Hn H1). next.
  rewrite (if_found_opt tlv.Selectors _ _ (hasSelectors i) (codec_element (in_selectors i)) _
    (sel_read (in_selectors i)) _ Hb); [|find_field| |intros _ b2 H2; by apply Selectors_decodes].
  2:{ intros H. symmetry. by apply Selectors_read_empty, negb_false_iff. }
  next. eapply get_from_found; [exact Hb|find_field|]. intros b3 H3.
  rewrite (if_found_opt tlv.InterestLifetime _ _ (lifetime_written i)
    (number_element tlv.InterestLifetime (in_lifetime i)) _
    (read_back DEFAULT_INTEREST_LIFETIME (in_lifetime i)) _ Hb); [|find_field| |].
  2:{ unfold lifetime_written, read_back. destruct (0 <=? in_lifetime i); [|done]. cbn.
      intros H. by apply negb_false_iff, Z.eqb_eq in H as ->. }
  2:{ unfold lifetime_written. intros H b4 H4. apply andb_prop in H as [H0 _].
      unfold read_back, read_milliseconds. rewrite H0. apply Z.leb_le in H0. unfold i64_range in Hl.
      rewrite (number_fresh tlv.InterestLifetime (in_lifetime i)); [|unfold u64_range; lia|done].
      cbn. by rewrite i64_id. }
  next. pose proof (find_fresh tlv.Data _ _ Hb) as Hfl.
  replace (List.find _ _) with (if hasLink i then Some (typed tlv.Data (in_link i)) else None) in Hfl
    by find_field.
  rewrite (if_found_opt tlv.SelectedDelegation _ _ (hasLink i && hasSelectedDelegation i)
    (number_element tlv.SelectedDelegation (in_selectedDelegation i)) _ (in_selectedDelegation i) _ Hb);
    [|find_field| |].
  - next. rewrite (element_of_fresh _ _ H3), (element_of_fresh _ _ Hf), <-(typed_eq _ _ Hno).
    unfold interest_read. destruct (hasLink i) eqn:E.
    + destruct Hfl as (b5 & -> & H5). rewrite (element_of_fresh _ _ H5), <-(typed_eq tlv.Data); [done|].
      by apply Hlink.
    + by rewrite Hfl.
  - intros H. destruct (hasSelectedDelegation i) eqn:E.
    + destruct (Hdel eq_refl) as [Hk _]. by rewrite Hk in H.
    + unfold hasSelectedDelegation in E. by apply negb_false_iff, Z.eqb_eq in E.
  - intros H b6 H6. apply andb_prop in H as [Hk Hd]. rewrite Hk in Hfl.
    destruct Hfl as (b5 & -> & H5). rewrite <-(typed_eq tlv.Data) in H5 by (by apply Hlink).
    destruct (Hdel Hd) as (_ & Hu & n & Hcount & Hlt). unfold decode_delegation.
    rewrite (number_fresh _ _ _ Hu H6). next. rewrite (countDelegations_fresh _ _ _ H5 Hcount). next.
    by apply Z.ltb_lt in Hlt as ->.
Qed.

Lemma emits_Interest {E} `{HE : EncodingLaws E} i :
  interest_ok i ->
  emits (Interest_wireEncode_to i) (el_wire (interest_element i)) [] (octets (el_wire (interest_element i))).
Proof.
  intros Hi. pose proof (interest_elements_ok i Hi) as Hok.
  destruct Hi as (_ & _ & Hs & (Hno & _ & n & Hget) & _ & Hlink & Hdel).
  assert (forall e, element_ok e -> emits (prependElement e) (el_wire e) [] (octets (el_wire e))) as Hp.
  { intros e He. rewrite <-(el_bytes_ok e He). apply emits_prependElement. }
  set (deleg := opt (hasLink i && hasSelectedDelegation i)
    (number_element tlv.SelectedDelegation (in_selectedDelegation i))).
  set (link := opt (hasLink i) (in_link i)).
  unfold Interest_wireEncode_to. eapply emits_eq.
  - eapply (emits_bind _ _ (wires (link ++ deleg)) [] _ _ (octets (wires (link ++ deleg)))).
    { unfold link, deleg. destruct (hasLink i) eqn:Ek.
      - cbn [andb opt]. rewrite wires_app, wires_one. eapply emits_eq.
        + eapply emits_bind; [apply emits_number|]. eapply emits_bind; [by apply Hp, Hlink|apply emits_ret].
        + by rewrite app_nil_l.
        + done.
        + rewrite octets_app. lia.
      - destruct (hasSelectedDelegation i); [by destruct (Hdel eq_refl)|apply emits_ret]. }
    eapply emits_bind; [apply (emits_number (lifetime_written i))|].
    rewrite Hget. eapply emits_bind; [exact (emits_ret n)|].
    eapply emits_bind; [by apply Hp|].
    eapply emits_bind; [exact (emits_codec (hasSelectors i) (in_selectors i) (fun _ => Hs))|].
    eapply emits_bind; [apply emits_Name_wireEncode|].
    apply (emits_header _ _ (wires (interest_elements i))).
    unfold interest_elements. fold link deleg. rewrite !wires_app, !wires_one, !octets_app.
    cbn [el_wire name_element element_tv]. unfold name_wire. lia.
  - unfold interest_element, interest_elements. fold link deleg. cbn [el_wire element_tv]. unfold element.
    by rewrite !wires_app, !wires_one, <-!app_assoc.
  - done.
  - done.
Qed.

Lemma Interest_wireEncode_spec word i :
  in_wire i = None -> interest_ok (ensure_nonce word i) ->
  Interest_wireEncode word i =
    inr (interest_read (ensure_nonce word i), interest_element (ensure_nonce word i)).
Proof.
  intros Hw Hi. unfold Interest_wireEncode. rewrite Hw. cbv zeta. set (i' := ensure_nonce word i) in *.
  destruct (make_block_element (fun E _ => Interest_wireEncode_to i') tlv.Interest
    (wires (interest_elements i'))) as (b & -> & Hf);
    [done|apply Hi|intros E I H L; by apply emits_Interest|].
  next. change (mkElement _ _ _) with (interest_element i') in Hf.
  rewrite (Interest_decodes _ _ Hi Hf). next. by rewrite (element_of_fresh _ _ Hf).
Qed.

(** *** A nonce that cannot be read *)
Lemma readNonNegativeInteger_throws size bs ex :
  readNonNegativeInteger size bs = inl ex -> exists what, ex = TlvError what.
Proof.
  unfold readNonNegativeInteger. destruct (decide _); [destruct (_ <? _)%nat|];
    intros [= <-]; by eexists.
Qed.

Lemma getNonce_throws o ex : getNonce o = inl ex -> exists what, ex = TlvError what.
Proof.
  unfold getNonce. destruct (decide _); [done|].
  destruct (readNonNegativeInteger _ _) as [ex'|[]] eqn:E; [|done]. intros [= <-].
  by eapply readNonNegativeInteger_throws.
Qed.

Lemma emits_returns {A} (m : M Estimator.Estimator A) f b a e :
  emits m f b a -> exists e', m e = (e', inr a).
Proof. intros H. destruct (H e [] I) as (e' & E & _). by exists e'. Qed.

Lemma Interest_wireEncode_unreadable word i ex :
  in_wire i = None -> (hasSelectedDelegation i = true -> hasLink i = true) ->
  getNonce (el_value (in_nonce (ensure_nonce word i))) = inl ex ->
  Interest_wireEncode word i = inl ex.
Proof.
  intros Hw Hd Hex. unfold Interest_wireEncode. rewrite Hw. cbv zeta.
  assert (hasSelectedDelegation (ensure_nonce word i) = true -> hasLink (ensure_nonce word i) = true) as Hd'
    by (unfold ensure_nonce; by destruct (el_hasWire (in_nonce i))).
  clear Hd. revert Hd' Hex. generalize (ensure_nonce word i) as i'. clear Hw. intros i' Hd Hex.
  unfold make_block, Interest_wireEncode_to. set (e0 := Estimator.mkEstimator).
  assert (exists n, forall e, exists e', (if hasLink i'
     then n ← when_ (hasSelectedDelegation i')
           (prependNonNegativeIntegerBlock tlv.SelectedDelegation (in_selectedDelegation i'));
          m ← prependElement (in_link i'); mret (n + m)
     else if hasSelectedDelegation i' then throw (Aborted "!hasSelectedDelegation()") else mret 0) e
    = (e', inr n)) as (n & Hn).
  { destruct (hasLink i').
    - eexists. intros e. eapply emits_returns. eapply emits_bind; [apply emits_number|].
      eapply emits_bind; [apply emits_prependElement|apply emits_ret].
    - destruct (hasSelectedDelegation i'); [by discriminate Hd|]. exists 0. intros e. by exists e. }
  destruct (Hn e0) as (e1 & E1). rewrite (run_seq _ _ _ _ _ E1).
  destruct (emits_returns _ _ _ _ e1 (emits_number (lifetime_written i') tlv.InterestLifetime (in_lifetime i')))
    as (e2 & E2). unfold lifetime_written in E2. rewrite (run_seq _ _ _ _ _ E2). by rewrite Hex.
Qed.

(** A nonce that has just been set is one. *)
Lemma nonce_element_ok word :
  element_ok (nonce_element word) /\ el_type (nonce_element word) = tlv.Nonce /\
  exists n, getNonce (el_value (nonce_element word)) = inr n.
Proof.
  split; [|split; [done|]].
  2: { eexists. unfold getNonce. rewrite decide_True; [done|]. cbn [nonce_element el_value].
       by rewrite length_rev, length_be_encode. }
  unfold nonce_element. cbv zeta. apply element_tv_ok; [done|]. unfold octets.
  rewrite List.length_rev, length_be_encode. done.
Qed.

(** The nonce of a decoded Interest is the first nonce element of its wire. *)
Lemma Interest_wireDecode_nonce b i blks :
  Interest_wireDecode b = inr i -> parsed b = inr blks ->
  exists nb, get_from tlv.Nonce blks = inr nb /\ in_nonce i = element_of nb.
Proof.
  intros Hi Hp. unfold Interest_wireDecode in Hi. rewrite Hp in Hi. revert Hi. next.
  destruct (negb _); [done|]. intros Hi.
  do 3 (apply result_bind_inr in Hi as (? & _ & Hi)). apply result_bind_inr in Hi as (nb & Hnb & Hi).
  do 2 (apply result_bind_inr in Hi as (? & _ & Hi)). injection Hi as <-. by exists nb.
Qed.

(** ** Decoding anything *)
Lemma tlv_only_SignatureInfo e b : fresh e b -> tlv_only (SignatureInfo_of_block b).
Proof.
  intros Hf. apply tlv_only_if; [apply tlv_only_error|]. eapply tlv_only_elements; [exact Hf|].
  intros blks Hb. apply tlv_only_if; [apply tlv_only_error|]. destruct Hb as [|i rest [e' Hi] Hb]; [apply tlv_only_error|].
  apply tlv_only_if; [|apply tlv_only_error]. apply tlv_only_bind; [by eapply tlv_only_read_int|].
  intros type _. apply tlv_only_take_optional; [done|intros; eapply tlv_only_fmap, tlv_only_KeyLocator; eassumption|].
  intros k blks' _. apply tlv_only_ret.
Qed.

Lemma tlv_only_Data old e b : fresh e b -> tlv_only (Data_wireDecode b old).
Proof.
  intros Hf. eapply tlv_only_elements; [exact Hf|]. intros blks Hb.
  apply tlv_only_with_get; [done|]. intros e1 b1 H1.
  apply tlv_only_bind; [by eapply tlv_only_Name_wireDecode|]. intros name _.
  apply tlv_only_with_get; [done|]. intros e2 b2 H2.
  apply tlv_only_bind; [by eapply tlv_only_MetaInfo|]. intros meta _.
  apply tlv_only_with_get; [done|]. intros e3 b3 H3.
  apply tlv_only_with_get; [done|]. intros e4 b4 H4.
  apply tlv_only_bind; [by eapply tlv_only_SignatureInfo|]. intros info _.
  apply tlv_only_bind; [|intros; apply tlv_only_ret].
  apply tlv_only_if_found; [done|]. intros e5 b5 _. apply tlv_only_if; auto with tlv_only.
Qed.

Lemma tlv_only_countDelegations e b : fresh e b -> tlv_only (countDelegationsFromWire b).
Proof.
  intros Hf. eapply tlv_only_elements; [exact Hf|]. intros blks Hb.
  apply tlv_only_with_get; [done|]. intros e' i Hi. eapply tlv_only_elements; [exact Hi|].
  intros. apply tlv_only_ret.
Qed.

Lemma tlv_only_Interest e b : fresh e b -> tlv_only (Interest_wireDecode b).
Proof.
  intros Hf. eapply tlv_only_elements; [exact Hf|]. intros blks Hb. apply tlv_only_if; [apply tlv_only_error|].
  apply tlv_only_with_get; [done|]. intros e1 b1 H1.
  apply tlv_only_bind; [by eapply tlv_only_Name_wireDecode|]. intros name _.
  apply tlv_only_bind; [apply tlv_only_if_found; [done|apply tlv_only_Selectors]|]. intros sel _.
  apply tlv_only_bind; [apply tlv_only_get_from|]. intros nonce _.
  apply tlv_only_bind; [apply tlv_only_if_found; [done|apply tlv_only_read_milliseconds]|]. intros life _.
  apply tlv_only_bind; [|intros; apply tlv_only_ret]. apply tlv_only_if_found; [done|]. intros e6 b6 _.
  unfold decode_delegation. destruct (List.find _ blks) eqn:E; [|apply tlv_only_error].
  apply tlv_only_bind; [apply tlv_only_readNonNegativeInteger|]. intros n _.
  apply tlv_only_bind; [|intros; apply tlv_only_if; auto with tlv_only].
  apply find_some in E as [Hin _]. apply list_elem_of_In in Hin. unfold all_fresh in Hb.
  rewrite Forall_forall in Hb. destruct (Hb _ Hin) as [el Hel]. by eapply tlv_only_countDelegations.
Qed.

(** A receiver: an element of a stream of octets, and the packet in it. *)
Definition receive {A} (decode : Block -> exn + A) (is_ : list byte) : exn + A :=
  b ← Block_fromStream is_; decode b.

Lemma receive_element {A} (decode : Block -> exn + A) t v more r :
  u32_range t -> octets v <= MAX_SIZE_OF_BLOCK_FROM_STREAM ->
  (forall b, fresh (element_tv t v) b -> decode b = r) ->
  receive decode (element t v ++ more) = r.
Proof.
  intros Ht Hv Hd. destruct (fromStream_spec (element t v ++ more)) as (H & _).
  destruct (H t v (element t v) more) as (b & E & Hf); [done| |done|].
  { apply encodes_element; [done|]. unfold MAX_SIZE_OF_BLOCK_FROM_STREAM, u64_range, octets in *. lia. }
  unfold receive. rewrite E. next. by apply Hd.
Qed.

(** ** Properties *)

(** C27: an Interest without a wire is encoded with a nonce (a drawn word if it has none),
    and a receiver reads from the octets, whatever follows them, the same name, selectors,
    nonce, lifetime, link and selected delegation; unset numbers come back as -1 and an
    unset lifetime as the default.  A selected delegation without a link aborts, and a
    nonce that [getNonce] cannot read raises its TLV error. *)
Theorem interest_roundtrip word i (Hw : in_wire i = None) :
  (hasLink i = false -> hasSelectedDelegation i = true ->
   exists what, Interest_wireEncode word i = inl (Aborted what)) /\
  (forall ex, (hasSelectedDelegation i = true -> hasLink i = true) ->
   getNonce (el_value (in_nonce (ensure_nonce word i))) = inl ex ->
   Interest_wireEncode word i = inl ex /\ exists what, ex = TlvError what) /\
  (interest_ok (ensure_nonce word i) ->
   octets (wires (interest_elements (ensure_nonce word i))) <= MAX_SIZE_OF_BLOCK_FROM_STREAM ->
   exists i' w, Interest_wireEncode word i = inr (i', w) /\
     i' = interest_read (ensure_nonce word i) /\
     forall more, receive Interest_wireDecode (el_wire w ++ more) = inr i').
Proof.
  split_and!.
  - intros Hl Hd. exists "!hasSelectedDelegation()". unfold Interest_wireEncode. rewrite Hw. cbv zeta.
    assert (hasLink (ensure_nonce word i) = false /\ hasSelectedDelegation (ensure_nonce word i) = true)
      as [Hl' Hd'] by (unfold ensure_nonce; by destruct (el_hasWire (in_nonce i))).
    unfold make_block, Interest_wireEncode_to. by rewrite Hl', Hd'.
  - intros ex Hd Hex. split; [by apply Interest_wireEncode_unreadable|by eapply getNonce_throws].
  - intros Hi Hsz. eexists _, _. split; [by apply Interest_wireEncode_spec|]. split; [done|].
    intros more. apply receive_element; [done|done|]. intros b Hb. by apply Interest_decodes.
Qed.

(** C28: a signed Data packet without a wire is encoded, and a receiver reads from the
    octets, whatever follows them, the same name, meta information, content and signature,
    the type-specific elements of the signature information in reverse order.  The encoding object itself, which decodes
    its own wire, ends up with every application element of its meta information twice.
    A packet that is not signed raises an error. *)
Theorem data_roundtrip d (Hw : da_wire d = None) (Hs : si_wire (sig_info (da_signature d)) = None) :
  (signature_set (da_signature d) = false -> exists what, Data_wireEncode d = inl (TlvError what)) /\
  (signature_set (da_signature d) = true -> data_ok d ->
   octets (wires (data_elements d)) <= MAX_SIZE_OF_BLOCK_FROM_STREAM ->
   exists d' w, Data_wireEncode d = inr (d', w) /\
     mi_appMetaInfo (da_metaInfo d') = mi_appMetaInfo (da_metaInfo d) ++ mi_appMetaInfo (da_metaInfo d) /\
     forall more, exists r, receive Data_of_block (el_wire w ++ more) = inr r /\
       r = data_read_into MetaInfo_new d /\
       si_otherTlvs (sig_info (da_signature r)) = rev (si_otherTlvs (sig_info (da_signature d)))).
Proof.
  split.
  - intros Hu. eexists. unfold Data_wireEncode, Data_encodable. by rewrite Hw, Hu.
  - intros Hsig Hd Hsz. eexists _, _. split; [by apply Data_wireEncode_spec|]. split; [done|].
    intros more. eexists. split; [|done]. apply receive_element; [done|done|]. intros b Hb.
    unfold Data_of_block. by rewrite (Data_decodes _ d b).
Qed.

(** What may be thrown for octets from anywhere. *)
Definition wire_error (is_ : list byte) (ex : exn) : Prop :=
  (exists what, ex = TlvError what) \/
  (ex = Undefined "the end-of-stream iterator is dereferenced" /\
   exists t r n, readType is_ = Some (t, r) /\ readVarNumber r = Some (n, []) /\ 0 < n).

Lemma receive_errors {A} (decode : Block -> exn + A) is_ ex :
  (forall e b, fresh e b -> tlv_only (decode b)) -> receive decode is_ = inl ex -> wire_error is_ ex.
Proof.
  intros Hd. unfold receive. destruct (fromStream_spec is_) as (_ & Hs & He).
  destruct (Block_fromStream is_) as [ex'|b].
  - intros [= <-]. destruct (He ex' eq_refl) as [H|(t & r & n & -> & H1 & H2 & H3)]; [by left|].
    right. split; [done|]. exists t, r, n. split_and!; [done|done|lia].
  - next. intros E. left. destruct (Hs b eq_refl) as (t & v & w & more & _ & _ & _ & Hf).
    by eapply Hd.
Qed.

(** C29: whatever octets arrive, reading an Interest or a Data from them gives a packet or
    throws a TLV error: no decoder aborts, loops or reads out of range.  The one exception
    is a stream that ends right after the header of an element with a value, where
    [Block::fromStream] dereferences its end iterator. *)
Theorem decoding_safe is_ :
  (forall ex, receive Interest_wireDecode is_ = inl ex -> wire_error is_ ex) /\
  (forall ex, receive Data_of_block is_ = inl ex -> wire_error is_ ex).
Proof.
  split; intros ex; apply receive_errors; intros e b Hf; [by eapply tlv_only_Interest|by eapply tlv_only_Data].
Qed.

(** ** Examples *)
Definition demo_name : Name := [letter "a"; letter "b"].

(** A link object with two delegations. *)
Definition demo_link : Element :=
  element_tv tlv.Data (wires [name_element demo_name;
    element_tv tlv.Content (wires [element_tv 31 []; element_tv 31 []])]).

Definition demo_interest : Interest :=
  mkInterest demo_name (mkSelectors 1 (-1) (KeyLocator_Name demo_name) demo_filter (-1) true)
    element_none 100 demo_link 1 None.

Lemma demo_name_encodable : name_encodable demo_name.
Proof. split; [|by split]. repeat constructor; done. Qed.

Lemma demo_elements l :
  l = [name_element demo_name; element_tv tlv.Content (wires [element_tv 31 []; element_tv 31 []])] \/
  l = [element_tv 31 []; element_tv 31 []] -> Forall element_ok l.
Proof.
  by intros [->| ->]; repeat constructor; apply element_tv_ok.
Qed.

Lemma demo_interest_ok : interest_ok (ensure_nonce 16909060 demo_interest).
Proof.
  split; [by split|]. split; [exact demo_name_encodable|]. split.
  - split_and!; try done; [split; [done|exact demo_name_encodable]|].
    split; [apply filter_made_ok, demo_filter_made|done].
  - split; [apply nonce_element_ok|]. split; [done|]. split; [intros _|intros _].
    + split; [|done]. by apply element_tv_ok.
    + split; [done|]. split; [done|]. exists 2. split; [|done].
      eexists _, _, _. split; [apply tlv_stream_ok, demo_elements; by left|]. split; [reflexivity|].
      split; [apply tlv_stream_ok, demo_elements; by right|done].
Qed.

Lemma interest_roundtrip_witness :
  interest_ok (ensure_nonce 16909060 demo_interest) /\
  exists i' w, Interest_wireEncode 16909060 demo_interest = inr (i', w) /\
    octets (el_wire w) = 65 /\
    take 16 (el_wire w) = [Byte.x05; Byte.x3f; Byte.x07; Byte.x06; Byte.x08; Byte.x01; Byte.x61;
      Byte.x08; Byte.x01; Byte.x62; Byte.x09; Byte.x19; Byte.x0d; Byte.x01; Byte.x01; Byte.x1c] /\
    receive Interest_wireDecode (el_wire w ++ [Byte.x00]) = inr i'.
Proof.
  pose proof demo_interest_ok as Hi.
  split; [exact Hi|]. destruct (interest_roundtrip 16909060 demo_interest eq_refl) as (_ & _ & H).
  destruct H as (i' & w & E & Hi' & Hr); [exact Hi|vm_compute; discriminate|].
  exists i', w. split; [exact E|].
  vm_compute in E. injection E as <- <-. split; [vm_compute; reflexivity|].
  split; [vm_compute; reflexivity|]. apply Hr.
Defined.

(** A packet with two type-specific elements in its signature and one element of an
    application in its meta information. *)
Definition demo_data : Data :=
  mkData demo_name (mkMetaInfo 3 1000 (letter "b") [element_tv 200 [Byte.x07]])
    (mkElement tlv.Content [Byte.x48; Byte.x69] [])
    (mkSignature (mkSignatureInfo 255 (Some (KeyLocator_Name demo_name))
       [element_tv 201 []; element_tv 202 []] None)
       (element_tv tlv.SignatureValue [Byte.x00])) None.

Lemma demo_data_ok : data_ok demo_data.
Proof.
  split; [by split|]. split; [exact demo_name_encodable|]. split.
  - split_and!; try done.
    constructor; [|constructor]. split; [by apply element_tv_ok|done].
  - split; [split; [by apply element_tv_ok|done]|]. split; [|split; [by apply element_tv_ok|done]].
    split_and!; try done; [split; [done|exact demo_name_encodable]|].
    repeat constructor; try done; by apply element_tv_ok.
Qed.

Lemma data_roundtrip_witness :
  data_ok demo_data /\
  exists d' w, Data_wireEncode demo_data = inr (d', w) /\
    length (mi_appMetaInfo (da_metaInfo d')) = 2%nat /\
    octets (el_wire w) = 53 /\
    exists r, receive Data_of_block (el_wire w) = inr r /\
      da_name r = demo_name /\ el_value (da_content r) = [Byte.x48; Byte.x69] /\
      el_type <$> si_otherTlvs (sig_info (da_signature r)) = [202; 201].
Proof.
  pose proof demo_data_ok as Hd.
  split; [exact Hd|]. destruct (data_roundtrip demo_data eq_refl eq_refl) as [_ H].
  destruct H as (d' & w & E & Happ & Hr); [reflexivity|exact Hd|vm_compute; discriminate|].
  exists d', w. split; [exact E|]. split; [by rewrite Happ|]. split.
  - vm_compute in E. injection E as <- <-. vm_compute. reflexivity.
  - destruct (Hr []) as (r & Er & -> & Ho). rewrite app_nil_r in Er. eexists. split; [exact Er|]. by split_and!.
Defined.
