(* ===== verification/LpPacket.v ===== *)
(** * LpPacket: NDNLPv2 link packets

    Sources: [src/src/ndnSIM/ndn-cxx/src/lp/]: [tlv.hpp], [detail/field-info.{hpp,cpp}],
    [detail/field-decl.hpp], [fields.hpp], [nack-header.cpp], [cache-policy.cpp] and
    [packet.{hpp,cpp}].  A link packet is a list of header fields and a fragment of a
    network packet.  Its block member is kept as the elements [parse] finds in it, and
    its wire while it has one. *)
From S2P Require Import Prelude Tlv Encoder Block BlockSpec Names NameWire Exclude WireFormat.

Module lp_tlv.
Definition LpPacket : Z := 100.
Definition Fragment : Z := 80.
Definition Sequence : Z := 81.
Definition FragIndex : Z := 82.
Definition FragCount : Z := 83.
Definition HopCountTag : Z := 84.
Definition Nack : Z := 800.
Definition NackReason : Z := 801.
Definition NextHopFaceId : Z := 816.
Definition CachePolicy : Z := 820.
Definition CachePolicyType : Z := 821.
Definition IncomingFaceId : Z := 817.
Definition CongestionMark : Z := 832.
Definition HEADER3_MIN : Z := 800.
Definition HEADER3_MAX : Z := 959.
End lp_tlv.

(** ** Field declarations *)
Inductive FieldLocation := Header | Fragment.

Definition getLocationSortOrder (l : FieldLocation) : Z :=
  match l with Header => 1 | Fragment => 2 end.

(** [FieldDecl]: [f_encode] and [f_decodeHelper] are the helpers chosen by the type [V]. *)
Record FieldDecl (V : Type) := mkFieldDecl {
  f_location : FieldLocation;
  f_type : Z;
  f_repeatable : bool;
  f_encode : forall E, EncodingImpl E -> V -> M E Z;
  f_decodeHelper : Block -> exn + V
}.

Arguments mkFieldDecl {V}.
Arguments f_location {V} _.
Arguments f_type {V} _.
Arguments f_repeatable {V} _.
Arguments f_encode {V} _ E _ _.
Arguments f_decodeHelper {V} _ _.

Definition fd_decode {V} (F : FieldDecl V) (wire : Block) : exn + V :=
  if negb (m_type wire =? f_type F) then inl (TlvError "Unexpected TLV type")
  else f_decodeHelper F wire.

(** ** Nack header *)
Definition NackReason_NONE : Z := 0.
Definition NackReason_CONGESTION : Z := 50.
Definition NackReason_DUPLICATE : Z := 100.
Definition NackReason_NO_ROUTE : Z := 150.

Record NackHeader := mkNackHeader {
  nh_reason : Z;                  (** an [int], any value a wire has *)
  nh_wire : option Element
}.

#[export] Instance NackHeader_eq_dec : EqDecision NackHeader.
Proof. solve_decision. Defined.

Definition NackHeader_new : NackHeader := mkNackHeader NackReason_NONE None.

Definition NackHeader_wireEncode {E} `{!EncodingImpl E} (h : NackHeader) : M E Z :=
  length_ ← prependNonNegativeIntegerBlock lp_tlv.NackReason (u32 (nh_reason h));
  prependHeader lp_tlv.Nack length_.

Definition NackHeader_wireDecode (wire : Block) : exn + NackHeader :=
  if negb (m_type wire =? lp_tlv.Nack) then inl (TlvError "expecting Nack block") else
  elements ← parsed wire;
  match elements with
  | [] => mret (mkNackHeader NackReason_NONE (Some (element_of wire)))
  | it :: _ =>
      if m_type it =? lp_tlv.NackReason then
        reason ← readNonNegativeInteger_block it;
        mret (mkNackHeader (i32 reason) (Some (element_of wire)))
      else inl (TlvError "expecting NackReason block")
  end.

Definition getReason (h : NackHeader) : Z :=
  if (nh_reason h =? NackReason_CONGESTION) || (nh_reason h =? NackReason_DUPLICATE) ||
     (nh_reason h =? NackReason_NO_ROUTE)
  then nh_reason h else NackReason_NONE.

Definition setReason (reason : Z) (h : NackHeader) : NackHeader := mkNackHeader reason None.

(** ** Cache policy *)
Definition CachePolicyType_NONE : Z := 0.
Definition CachePolicyType_NO_CACHE : Z := 1.

Record CachePolicy := mkCachePolicy {
  cp_policy : Z;
  cp_wire : option Element
}.

#[export] Instance CachePolicy_eq_dec : EqDecision CachePolicy.
Proof. solve_decision. Defined.

Definition CachePolicy_new : CachePolicy := mkCachePolicy CachePolicyType_NONE None.

Definition CachePolicy_wireEncode {E} `{!EncodingImpl E} (p : CachePolicy) : M E Z :=
  if cp_policy p =? CachePolicyType_NONE then throw (TlvError "CachePolicyType must be set") else
  length_ ← prependNonNegativeIntegerBlock lp_tlv.CachePolicyType (u32 (cp_policy p));
  prependHeader lp_tlv.CachePolicy length_.

Definition getPolicy (p : CachePolicy) : Z :=
  if cp_policy p =? CachePolicyType_NO_CACHE then cp_policy p else CachePolicyType_NONE.

Definition setPolicy (policy : Z) (p : CachePolicy) : CachePolicy := mkCachePolicy policy None.

Definition CachePolicy_wireDecode (wire : Block) : exn + CachePolicy :=
  if negb (m_type wire =? lp_tlv.CachePolicy) then inl (TlvError "expecting CachePolicy block") else
  elements ← parsed wire;
  match elements with
  | it :: _ =>
      if m_type it =? lp_tlv.CachePolicyType then
        policy ← readNonNegativeInteger_block it;
        let p := mkCachePolicy (i32 policy) (Some (element_of wire)) in
        if getPolicy p =? CachePolicyType_NONE then inl (TlvError "unknown CachePolicyType")
        else mret p
      else inl (TlvError "expecting CachePolicyType block")
  | [] => inl (TlvError "expecting CachePolicyType block")
  end.

(** ** The fields *)

(** [EncodeHelper] and [DecodeHelper] of the three kinds of values. *)
Definition uint64_field (type : Z) : FieldDecl Z :=
  mkFieldDecl Header type false (fun E _ value => prependNonNegativeIntegerBlock type value)
    readNonNegativeInteger_block.

Definition fragment_encode (E : Type) `{!EncodingImpl E} (value : list byte) : M E Z :=
  length_ ← prependRange value;
  prependHeader lp_tlv.Fragment length_.

Definition fragment_decode (wire : Block) : exn + list byte :=
  if Block.value_size wire =? 0 then inl (TlvError "must not be empty") else inr (value wire).

Definition SequenceField : FieldDecl Z := uint64_field lp_tlv.Sequence.
Definition FragIndexField : FieldDecl Z := uint64_field lp_tlv.FragIndex.
Definition FragCountField : FieldDecl Z := uint64_field lp_tlv.FragCount.
Definition NackField : FieldDecl NackHeader :=
  mkFieldDecl Header lp_tlv.Nack false (fun E _ => NackHeader_wireEncode) NackHeader_wireDecode.
Definition NextHopFaceIdField : FieldDecl Z := uint64_field lp_tlv.NextHopFaceId.
Definition CachePolicyField : FieldDecl CachePolicy :=
  mkFieldDecl Header lp_tlv.CachePolicy false (fun E _ => CachePolicy_wireEncode) CachePolicy_wireDecode.
Definition IncomingFaceIdField : FieldDecl Z := uint64_field lp_tlv.IncomingFaceId.
Definition CongestionMarkField : FieldDecl Z := uint64_field lp_tlv.CongestionMark.
Definition HopCountTagField : FieldDecl Z := uint64_field lp_tlv.HopCountTag.
Definition FragmentField : FieldDecl (list byte) :=
  mkFieldDecl Fragment lp_tlv.Fragment false fragment_encode fragment_decode.

(** ** What is known of a type number *)
Record FieldInfo := mkFieldInfo {
  fi_tlvType : Z;
  fi_isRecognized : bool;
  fi_canIgnore : bool;
  fi_isRepeatable : bool;
  fi_locationSortOrder : Z
}.

(** A declaration without its values. *)
Definition erased {V} (F : FieldDecl V) : Z * bool * FieldLocation :=
  (f_type F, f_repeatable F, f_location F).

Definition FieldSet : list (Z * bool * FieldLocation) :=
  [erased FragmentField; erased SequenceField; erased FragIndexField; erased FragCountField;
   erased NackField; erased NextHopFaceIdField; erased CachePolicyField;
   erased IncomingFaceIdField; erased CongestionMarkField; erased HopCountTagField].

Definition ExtractFieldInfo (info : FieldInfo) (decl : Z * bool * FieldLocation) : FieldInfo :=
  let '(type, repeatable, location) := decl in
  if negb (type =? fi_tlvType info) then info
  else mkFieldInfo (fi_tlvType info) true false repeatable (getLocationSortOrder location).

Definition FieldInfo_of (tlv : Z) : FieldInfo :=
  let info := foldl ExtractFieldInfo
    (mkFieldInfo tlv false false false (getLocationSortOrder Header)) FieldSet in
  if fi_isRecognized info then info
  else mkFieldInfo (fi_tlvType info) (fi_isRecognized info)
    ((lp_tlv.HEADER3_MIN <=? tlv) && (tlv <=? lp_tlv.HEADER3_MAX) && (Z.land tlv 1 =? 1))
    (fi_isRepeatable info) (fi_locationSortOrder info).

Definition compareFieldSortOrder (first second : FieldInfo) : bool :=
  (fi_locationSortOrder first <? fi_locationSortOrder second) ||
  ((fi_locationSortOrder first =? fi_locationSortOrder second) &&
   (fi_tlvType first <? fi_tlvType second)).

(** ** The packet *)
Record LpPacket := mkLpPacket {
  lp_elements : list Element;
  lp_wire : option Element
}.

#[export] Instance LpPacket_eq_dec : EqDecision LpPacket.
Proof. solve_decision. Defined.

Definition LpPacket_new : LpPacket := mkLpPacket [] None.

(** An element as the block it is. *)
Definition block_of_element (e : Element) : exn + Block := Block_of_buffer (el_wire e).

(** [comparePos] *)
Definition comparePos (first : Element) (second : Z) : bool :=
  compareFieldSortOrder (FieldInfo_of (el_type first)) (FieldInfo_of second).

(** [std::lower_bound]: bisection of the [len] elements from [first] on. *)
Fixpoint lower_bound_loop (fuel : nat) (l : list Element) (type : Z) (first len : nat) : nat :=
  match fuel with
  | O => first
  | S fuel =>
      if (len =? 0)%nat then first else
      let half := Nat.div2 len in
      match l !! (first + half)%nat with
      | Some middle =>
          if comparePos middle type
          then lower_bound_loop fuel l type (first + half + 1) (len - half - 1)
          else lower_bound_loop fuel l type first half
      | None => first
      end
  end.
Definition lower_bound (l : list Element) (type : Z) : nat :=
  lower_bound_loop (length l) l type 0 (length l).

(** *** Fields *)
Section fields.
Context {V : Type} (F : FieldDecl V).

Definition has_type (e : Element) : bool := el_type e =? f_type F.

Definition lp_count (p : LpPacket) : nat := length (List.filter has_type (lp_elements p)).
Definition lp_has (p : LpPacket) : bool := (0 <? lp_count p)%nat.

(** The loop of [get] over the elements. *)
Fixpoint get_loop (elements : list Element) (count index : nat) : exn + V :=
  match elements with
  | [] => inl (OutOfRange "Index out of range")
  | e :: elements =>
      if negb (has_type e) then get_loop elements count index
      else if (count =? index)%nat then element ← block_of_element e; fd_decode F element
      else get_loop elements (S count) index
  end.
Definition lp_get (index : nat) (p : LpPacket) : exn + V := get_loop (lp_elements p) 0 index.

Fixpoint list_loop (elements : list Element) : exn + list V :=
  match elements with
  | [] => mret []
  | e :: elements =>
      if negb (has_type e) then list_loop elements
      else
        element ← block_of_element e;
        v ← fd_decode F element;
        output ← list_loop elements;
        mret (v :: output)
  end.
Definition lp_list (p : LpPacket) : exn + list V := list_loop (lp_elements p).

Definition lp_clear : M LpPacket unit :=
  modify (fun p => mkLpPacket (List.filter (fun e => negb (has_type e)) (lp_elements p)) None).

Definition lp_add (value : V) : M LpPacket unit :=
  p ← gets id;
  if negb (f_repeatable F) && lp_has p then throw (LengthError "Field cannot be repeated") else
  block ← lift_result (make_block (fun E _ => f_encode F E _ value));
  let pos := lower_bound (lp_elements p) (f_type F) in
  modify (fun p =>
    mkLpPacket (take pos (lp_elements p) ++ element_of block :: drop pos (lp_elements p)) None).

Definition lp_set (value : V) : M LpPacket unit := lp_clear ;; lp_add value.

(** The position of the index-th occurrence. *)
Fixpoint find_index (elements : list Element) (count index pos : nat) : option nat :=
  match elements with
  | [] => None
  | e :: elements =>
      if has_type e then
        if (count =? index)%nat then Some pos else find_index elements (S count) index (S pos)
      else find_index elements count index (S pos)
  end.

Definition lp_remove (index : nat) : M LpPacket unit :=
  p ← gets id;
  match find_index (lp_elements p) 0 index 0 with
  | Some pos => modify (fun p => mkLpPacket (delete pos (lp_elements p)) None)
  | None => throw (OutOfRange "Index out of range")
  end.
End fields.

(** A mutator as a function of the packet. *)
Definition applied (m : M LpPacket unit) (p : LpPacket) : exn + LpPacket :=
  match m p with (p, inr _) => inr p | (_, inl e) => inl e end.

(** *** Decoding *)

(** The checks of [wireDecode]; [prev] is the field before, if there is one. *)
Fixpoint check_fields (prev : option FieldInfo) (elements : list Element) : exn + unit :=
  match elements with
  | [] => mret tt
  | element :: elements =>
      let info := FieldInfo_of (el_type element) in
      if negb (fi_isRecognized info) && negb (fi_canIgnore info)
      then inl (TlvError "unrecognized field cannot be ignored")
      else
        match prev with
        | None => check_fields (Some info) elements
        | Some prev =>
            if (fi_tlvType info =? fi_tlvType prev) && negb (fi_isRepeatable info)
            then inl (TlvError "non-repeatable field cannot be repeated")
            else if negb (fi_tlvType info =? fi_tlvType prev) &&
                    negb (compareFieldSortOrder prev info)
            then inl (TlvError "fields are not in correct sort order")
            else check_fields (Some info) elements
        end
  end.

(** [Packet(const Block&)]: a bare network packet becomes a fragment. *)
Definition LpPacket_of_block (b : Block) : exn + LpPacket :=
  if (m_type b =? tlv.Interest) || (m_type b =? tlv.Data) then
    octets_ ← wire b;
    applied (lp_add FragmentField octets_) LpPacket_new
  else if negb (m_type b =? lp_tlv.LpPacket) then inl (TlvError "unrecognized TLV-TYPE")
  else
    elements ← parsed b;
    let elements := fmap (M := list) element_of elements in
    check_fields None elements;;
    mret (mkLpPacket elements (Some (element_of b))).

(** *** Encoding *)
Definition LpPacket_wireEncode_to {E} `{!EncodingImpl E} (p : LpPacket) : M E Z :=
  length_ ← for_elements (rev (lp_elements p)) prependElement 0;
  prependHeader lp_tlv.LpPacket length_.

(** The first element of a fragment that is all there is; parsing it, and its own
    elements, may throw. *)
Definition bare_packet (fragment : Element) : exn + Element :=
  block ← block_of_element fragment;
  elements ← parsed block;
  match elements with
  | [] => inl (Undefined "front() of an empty vector")
  | first :: _ => parsed first;; mret (element_of first)
  end.

(** [wireEncode() const]: the wire is kept, except for a bare packet. *)
Definition LpPacket_wireEncode (p : LpPacket) : exn + (LpPacket * Element) :=
  match lp_wire p with
  | Some w => inr (p, w)
  | None =>
      let encoded :=
        block ← make_block (fun E _ => LpPacket_wireEncode_to p);
        mret (mkLpPacket (lp_elements p) (Some (element_of block)), element_of block) in
      match lp_elements p with
      | [fragment] =>
          if has_type FragmentField fragment
          then bare ← bare_packet fragment; mret (p, bare)
          else encoded
      | _ => encoded
      end
  end.

(** *** Tags of a network packet, which link headers carry *)
Record Tags := mkTags {
  t_incomingFaceId : option Z;
  t_nextHopFaceId : option Z;
  t_cachePolicy : option CachePolicy;
  t_congestionMark : option Z;
  t_hopCount : option Z
}.

#[export] Instance Tags_eq_dec : EqDecision Tags.
Proof. solve_decision. Defined.

Definition no_tags : Tags := mkTags None None None None None.
