(* ===== verification/LpPacketSpec.v ===== *)
(** * LpPacketSpec: a link packet is a finite map from field types to elements

    Every packet that can be made has known fields, each at most once, in the canonical
    order; [lp_add], [lp_set], [lp_clear] and [lp_remove] are insertion and deletion; and
    encoding and decoding are inverse to each other, but for a packet that is nothing but
    a fragment, which is sent without any link header. *)
From Stdlib Require Import Sorted.
From S2P Require Import Prelude Tlv Encoder Block BlockSpec Names NameWire Exclude ExcludeSpec WireFormat WireFormatSpec PacketWireSpec LpPacket.

(** ** The order of the fields *)

(** Header fields by their types, then the fragment. *)
Definition rank (t : Z) : Z := if t =? lp_tlv.Fragment then 18446744073709551616 else t.

Lemma extract_other decls info :
  fi_tlvType info ∉ decls.*1.*1 -> foldl ExtractFieldInfo info decls = info.
Proof.
  induction decls as [|[[t r] l] decls IH]; [done|]. cbn. intros [Hne Hin]%not_elem_of_cons.
  destruct (Z.eqb_spec t (fi_tlvType info)); [congruence|]. cbn. by apply IH.
Qed.

Lemma FieldInfo_spec t :
  fi_tlvType (FieldInfo_of t) = t /\ fi_isRepeatable (FieldInfo_of t) = false /\
  fi_locationSortOrder (FieldInfo_of t) = if t =? lp_tlv.Fragment then 2 else 1.
Proof.
  destruct (decide (t ∈ FieldSet.*1.*1)) as [Hin|Hout].
  - revert Hin. change (FieldSet.*1.*1) with [80; 81; 82; 83; 800; 816; 820; 817; 832; 84].
    intros Hin. repeat (apply elem_of_cons in Hin as [->|Hin]; [vm_compute; done|]).
    by apply elem_of_nil in Hin.
  - unfold FieldInfo_of. rewrite extract_other by done. cbn. split_and!; [done..|].
    destruct (Z.eqb_spec t lp_tlv.Fragment) as [E|]; [|done]. destruct Hout. rewrite E. by left.
Qed.

Lemma compareFieldSortOrder_rank t t' :
  u32_range t -> u32_range t' ->
  compareFieldSortOrder (FieldInfo_of t) (FieldInfo_of t') = (rank t <? rank t').
Proof.
  intros H H'. unfold compareFieldSortOrder, rank, u32_range in *.
  destruct (FieldInfo_spec t) as (-> & _ & ->), (FieldInfo_spec t') as (-> & _ & ->).
  destruct (Z.eqb_spec t lp_tlv.Fragment), (Z.eqb_spec t' lp_tlv.Fragment); cbn;
    unfold lp_tlv.Fragment in *; destruct (Z.ltb_spec t t'); try done;
    first [lia|symmetry; apply Z.ltb_lt; lia|symmetry; apply Z.ltb_ge; lia].
Qed.

Lemma rank_inj t t' : u32_range t -> u32_range t' -> rank t = rank t' -> t = t'.
Proof.
  unfold rank, u32_range. intros H H'.
  destruct (Z.eqb_spec t lp_tlv.Fragment), (Z.eqb_spec t' lp_tlv.Fragment); lia.
Qed.

Definition el_rank (e : Element) : Z := rank (el_type e).
Definition known (e : Element) : Prop :=
  fi_isRecognized (FieldInfo_of (el_type e)) = true \/ fi_canIgnore (FieldInfo_of (el_type e)) = true.

(** The invariant of a packet. *)
Definition fields_sorted (els : list Element) : Prop :=
  StronglySorted (fun a b => el_rank a < el_rank b) els.

Record packet_ok (p : LpPacket) : Prop := {
  po_elements : Forall element_ok (lp_elements p);
  po_known : Forall known (lp_elements p);
  po_sorted : fields_sorted (lp_elements p);
  po_wire : forall w, lp_wire p = Some w ->
    element_ok w /\ el_type w = lp_tlv.LpPacket /\ el_value w = wires (lp_elements p)
}.

Definition field (t : Z) (els : list Element) : option Element :=
  List.find (fun e => el_type e =? t) els.

Lemma element_ok_type e : element_ok e -> u32_range (el_type e).
Proof. intros H. by destruct (encodes_split _ _ _ H) as (h & _ & _ & ? & _). Qed.

Lemma comparePos_rank e t :
  element_ok e -> u32_range t -> comparePos e t = (el_rank e <? rank t).
Proof. intros He Ht. apply compareFieldSortOrder_rank; [by apply element_ok_type|done]. Qed.

(** ** Bisection *)
Lemma lower_bound_loop_spec fuel l t first len n :
  (len <= fuel)%nat -> (first + len <= length l)%nat -> (first <= n <= first + len)%nat ->
  Forall (fun e => comparePos e t = true) (take n l) ->
  Forall (fun e => comparePos e t = false) (drop n l) ->
  lower_bound_loop fuel l t first len = n.
Proof.
  intros Hf Hl Hn Hlt Hge. revert first len Hf Hl Hn.
  induction fuel as [|fuel IH]; intros first len Hf Hl Hn; cbn [lower_bound_loop]; [lia|].
  destruct (Nat.eqb_spec len 0); [lia|].
  assert (Nat.div2 len < len)%nat as Hd by (apply Nat.lt_div2; lia). generalize dependent (Nat.div2 len).
  intros half Hd.
  destruct (lookup_lt_is_Some_2 l (first + half)) as [m Hm]; [lia|]. rewrite Hm.
  destruct (comparePos m t) eqn:Ec.
  - apply IH; [lia|lia|]. split; [|lia].
    destruct (decide (n <= first + half)%nat) as [Hle|]; [|lia]. exfalso.
    rewrite Forall_lookup in Hge. specialize (Hge (first + half - n)%nat m).
    rewrite lookup_drop in Hge. replace (n + _)%nat with (first + half)%nat in Hge by lia.
    rewrite Hge in Ec by done. done.
  - apply IH; [lia|lia|]. split; [lia|].
    destruct (decide (n <= first + half)%nat) as [Hle|Hgt]; [lia|]. exfalso.
    rewrite Forall_lookup in Hlt. specialize (Hlt (first + half)%nat m).
    rewrite lookup_take_lt in Hlt by lia. rewrite Hlt in Ec by done. done.
Qed.

(** A sorted list around a rank. *)
Lemma sorted_split els r :
  fields_sorted els ->
  exists n, (n <= length els)%nat /\ Forall (fun e => el_rank e < r) (take n els) /\
    Forall (fun e => r <= el_rank e) (drop n els).
Proof.
  induction 1 as [|e els Hs IH Hall]; [exists 0%nat; by split_and!|].
  destruct (decide (el_rank e < r)).
  - destruct IH as (n & Hn & H1 & H2). exists (S n). cbn. split_and!; [lia|by constructor|done].
  - exists 0%nat. split_and!; [lia|constructor|]. constructor; [lia|].
    eapply Forall_impl; [exact Hall|]. cbn. lia.
Qed.

Lemma lower_bound_spec els t :
  Forall element_ok els -> fields_sorted els -> u32_range t ->
  let n := lower_bound els t in
  (n <= length els)%nat /\ Forall (fun e => el_rank e < rank t) (take n els) /\
  Forall (fun e => rank t <= el_rank e) (drop n els).
Proof.
  intros Hok Hs Ht. destruct (sorted_split els (rank t) Hs) as (n & Hn & H1 & H2).
  enough (lower_bound els t = n) as -> by done.
  apply lower_bound_loop_spec; [lia|lia|lia| |].
  - pose proof (Forall_take _ n _ Hok). eapply Forall_impl; [by apply Forall_and; split; [|exact H1]|].
    intros e [He Hr]. rewrite comparePos_rank by done. by apply Z.ltb_lt.
  - pose proof (Forall_drop _ n _ Hok). eapply Forall_impl; [by apply Forall_and; split; [|exact H2]|].
    intros e [He Hr]. rewrite comparePos_rank by done. by apply Z.ltb_ge.
Qed.

(** ** Looking up a field *)
Lemma element_types_ok els : Forall element_ok els -> Forall (fun e => u32_range (el_type e)) els.
Proof. intros H. eapply Forall_impl; [exact H|]. apply element_ok_type. Qed.

Lemma field_none_below els t :
  Forall element_ok els -> Forall (fun e => el_rank e < rank t) els -> field t els = None.
Proof.
  intros Hok H. unfold field. induction H as [|e els He _ IH]; [done|].
  apply Forall_cons_1 in Hok as [_ Hok]. cbn. destruct (Z.eqb_spec (el_type e) t) as [<-|]; [|by apply IH].
  unfold el_rank in He. lia.
Qed.

(** The lookup in a sorted list, split at the rank of the type. *)
Lemma field_above els t :
  u32_range t -> Forall element_ok els -> fields_sorted els ->
  Forall (fun e => rank t <= el_rank e) els ->
  field t els = match els with e :: _ => if el_type e =? t then Some e else None | [] => None end.
Proof.
  intros Ht Hok Hs Hge. destruct els as [|e els]; [done|]. unfold field. cbn.
  destruct (Z.eqb_spec (el_type e) t) as [|Hne]; [done|].
  apply StronglySorted_inv in Hs as [_ Hall]. apply Forall_cons_1 in Hge as [He _].
  apply Forall_cons_1 in Hok as [Hoke Hok].
  fold (field t els). assert (Forall (fun e' => el_type e' <> t) els) as Hn.
  { eapply Forall_impl; [by apply Forall_and; split; [exact Hall|exact Hok]|]. intros e' [Hlt _] <-.
    unfold el_rank in *. lia. }
  clear -Hn. unfold field. induction Hn as [|e' els He _ IH]; [done|]. cbn.
  by apply Z.eqb_neq in He as ->.
Qed.

Lemma field_app t a b :
  field t (a ++ b) = match field t a with Some e => Some e | None => field t b end.
Proof. apply find_app. Qed.

Lemma field_type t els e : field t els = Some e -> el_type e = t.
Proof. intros H. apply find_some in H as [_ H]. by apply Z.eqb_eq in H. Qed.

Lemma field_in t els e : field t els = Some e -> e ∈ els.
Proof. intros H. apply find_some in H as [H _]. by apply list_elem_of_In. Qed.

Lemma field_filter_ne t t' els :
  t <> t' -> field t (List.filter (fun e => negb (el_type e =? t')) els) = field t els.
Proof.
  intros Hne. unfold field. induction els as [|e els IH]; [done|]. cbn.
  destruct (Z.eqb_spec (el_type e) t') as [E|]; cbn; [|by rewrite IH].
  destruct (Z.eqb_spec (el_type e) t); [congruence|done].
Qed.

Lemma field_filter_eq t els : field t (List.filter (fun e => negb (el_type e =? t)) els) = None.
Proof.
  unfold field. induction els as [|e els IH]; [done|]. cbn.
  destruct (el_type e =? t) eqn:E; cbn; [done|]. by rewrite E.
Qed.

Lemma lp_has_field {V} (F : FieldDecl V) p :
  lp_has F p = bool_decide (is_Some (field (f_type F) (lp_elements p))).
Proof.
  unfold lp_has, lp_count, field. change (has_type F) with (fun e => el_type e =? f_type F).
  induction (lp_elements p) as [|e els IH]; [done|]. cbn. destruct (el_type e =? f_type F); [done|exact IH].
Qed.

(** ** Fields and their values *)

(** What a declaration promises: the octets of a value, and that they are read back. *)
Class FieldLaws {V} (F : FieldDecl V) := {
  fl_value : V -> list byte;
  fl_ok : V -> Prop;
  fl_read : V -> V;
  fl_type_range : u32_range (f_type F);
  fl_recognized : fi_isRecognized (FieldInfo_of (f_type F)) = true;
  fl_not_repeatable : f_repeatable F = false;
  fl_size v : fl_ok v -> u64_range (octets (fl_value v));
  fl_emits v E (I : EncodingImpl E) (H : Holds E) : EncodingLaws E -> fl_ok v ->
    emits (f_encode F E I v) (element (f_type F) (fl_value v)) []
      (octets (element (f_type F) (fl_value v)));
  fl_decode v b : fl_ok v -> fresh (element_tv (f_type F) (fl_value v)) b ->
    fd_decode F b = inr (fl_read v)
}.

Definition field_element {V} (F : FieldDecl V) `{!FieldLaws F} (v : V) : Element :=
  element_tv (f_type F) (fl_value v).

Lemma fd_decode_fresh {V} (F : FieldDecl V) v b :
  fresh (element_tv (f_type F) v) b -> fd_decode F b = f_decodeHelper F b.
Proof. intros H. unfold fd_decode. by rewrite (fresh_type _ _ _ H), Z.eqb_refl. Qed.

Lemma uint64_field_laws t :
  u32_range t -> fi_isRecognized (FieldInfo_of t) = true -> FieldLaws (uint64_field t).
Proof.
  intros Ht Hr. refine {| fl_value := nonNegativeInteger; fl_ok := u64_range; fl_read := id |}; try done.
  - intros v _. apply nonNegativeInteger_range.
  - intros v E I H L _. apply emits_prependNonNegativeIntegerBlock.
  - intros v b Hv Hf. rewrite (fd_decode_fresh _ _ _ Hf). cbn. by apply (number_fresh t).
Defined.

#[export] Instance SequenceField_laws : FieldLaws SequenceField.
Proof. by apply uint64_field_laws. Defined.
#[export] Instance FragIndexField_laws : FieldLaws FragIndexField.
Proof. by apply uint64_field_laws. Defined.
#[export] Instance FragCountField_laws : FieldLaws FragCountField.
Proof. by apply uint64_field_laws. Defined.
#[export] Instance NextHopFaceIdField_laws : FieldLaws NextHopFaceIdField.
Proof. by apply uint64_field_laws. Defined.
#[export] Instance IncomingFaceIdField_laws : FieldLaws IncomingFaceIdField.
Proof. by apply uint64_field_laws. Defined.
#[export] Instance CongestionMarkField_laws : FieldLaws CongestionMarkField.
Proof. by apply uint64_field_laws. Defined.
#[export] Instance HopCountTagField_laws : FieldLaws HopCountTagField.
Proof. by apply uint64_field_laws. Defined.

#[export] Instance FragmentField_laws : FieldLaws FragmentField.
Proof.
  refine {| fl_value := fun v : list byte => v; fl_read := id;
            fl_ok := fun v => v <> [] /\ u64_range (octets v) |}; try done.
  - by intros v [_ H].
  - intros v E I H L _. cbn [f_encode FragmentField f_type]. unfold fragment_encode.
    apply (emits_finish _ (fun n => n) _ v (octets v)); [|done]. apply emits_prependRange.
  - intros v b [Hne Hv] Hf. rewrite (fd_decode_fresh _ _ _ Hf). cbn. unfold fragment_decode.
    destruct Hf as (Hb & (_ & _ & Ev & _) & _). cbn in Ev.
    rewrite (value_size_octets b (block_ok_own _ Hb)), Ev. unfold octets. by destruct v.
Defined.

(** A field whose value is one number element. *)
Lemma emits_nested_number {E} `{HE : EncodingLaws E} t t' n :
  emits (length_ ← prependNonNegativeIntegerBlock t' n; prependHeader t length_)
    (element t (el_wire (number_element t' n))) []
    (octets (element t (el_wire (number_element t' n)))).
Proof.
  eapply (emits_finish (prependNonNegativeIntegerBlock t' n) (fun n => n));
    [apply emits_prependNonNegativeIntegerBlock|done].
Qed.

Lemma i32_u32 z : set_int z -> i32 (u32 z) = z.
Proof.
  unfold set_int, i32, u32. intros H. rewrite Zplus_mod_idemp_l, Z.mod_small; lia.
Qed.

Lemma u32_u64_range z : u64_range (u32 z).
Proof. pose proof (u32_bounds z). unfold u32_range, u64_range in *. lia. Qed.

Lemma number_element_size t n : u32_range t -> u64_range (octets (el_wire (number_element t n))).
Proof.
  intros Ht. cbn. rewrite octets_element. pose proof (octets_nonNegativeInteger n) as [Hn _].
  pose proof (octets_nonneg (nonNegativeInteger n)).
  pose proof (sizeOfVarNumber_le t). pose proof (sizeOfVarNumber_le (octets (nonNegativeInteger n))).
  unfold u64_range. lia.
Qed.

Lemma parsed_number t n b t' :
  u32_range t -> fresh (element_tv t' (el_wire (number_element t n))) b ->
  exists i, parsed b = inr [i] /\ fresh (number_element t n) i.
Proof.
  intros Ht Hf. destruct (fresh_parsed _ _ [number_element t n] Hf) as (blks & Hp & Hb).
  - cbn. by rewrite app_nil_r.
  - repeat constructor. by apply number_element_ok.
  - inversion Hb as [|? i ? ? Hi Hnil]; subst. inversion Hnil; subst. by exists i.
Qed.

#[export] Instance NackField_laws : FieldLaws NackField.
Proof.
  refine {| fl_value := fun h => el_wire (number_element lp_tlv.NackReason (u32 (nh_reason h)));
            fl_ok := fun h => set_int (nh_reason h);
            fl_read := fun h => mkNackHeader (nh_reason h)
              (Some (element_tv lp_tlv.Nack (el_wire (number_element lp_tlv.NackReason (u32 (nh_reason h))))))
         |}; try done.
  - intros h _. by apply number_element_size.
  - intros h E I H L _. apply emits_nested_number.
  - intros h b Hh Hf. rewrite (fd_decode_fresh _ _ _ Hf). cbn [f_decodeHelper NackField].
    unfold NackHeader_wireDecode. rewrite (fresh_type _ _ _ Hf). change (negb _) with false. cbv iota.
    edestruct parsed_number as (i & -> & Hi); [|exact Hf|]; [done|]. next.
    rewrite (fresh_type _ _ _ Hi). change (_ =? _) with true. cbv iota.
    rewrite (number_fresh _ _ _ (u32_u64_range _) Hi).
    next. by rewrite (element_of_fresh _ _ Hf), i32_u32.
Defined.

#[export] Instance CachePolicyField_laws : FieldLaws CachePolicyField.
Proof.
  set (v := fun p => el_wire (number_element lp_tlv.CachePolicyType (u32 (cp_policy p)))).
  refine {| fl_value := v; fl_ok := fun p => cp_policy p = CachePolicyType_NO_CACHE;
            fl_read := fun p => mkCachePolicy (cp_policy p) (Some (element_tv lp_tlv.CachePolicy (v p)))
         |}; try done; subst v; cbn beta.
  - intros p _. by apply number_element_size.
  - intros p E I H L Hp. cbn [f_encode CachePolicyField]. unfold CachePolicy_wireEncode.
    rewrite Hp at 1. apply emits_nested_number.
  - intros p b Hp Hf. rewrite (fd_decode_fresh _ _ _ Hf). cbn [f_decodeHelper CachePolicyField].
    unfold CachePolicy_wireDecode. rewrite (fresh_type _ _ _ Hf). change (negb _) with false. cbv iota.
    edestruct parsed_number as (i & -> & Hi); [|exact Hf|]; [done|]. next.
    rewrite (fresh_type _ _ _ Hi), Z.eqb_refl.
    rewrite (number_fresh _ _ _ (u32_u64_range _) Hi). next. rewrite (element_of_fresh _ _ Hf), Hp. done.
Defined.

(** ** The operations keep the invariant and act as on a map *)
Lemma fields_sorted_app a b :
  fields_sorted a -> fields_sorted b ->
  (forall x y, x ∈ a -> y ∈ b -> el_rank x < el_rank y) -> fields_sorted (a ++ b).
Proof.
  intros Ha Hb. induction Ha as [|e a Ha IH Hall]; cbn; [done|]. intros H. constructor.
  - apply IH. intros x y Hx. apply H. by right.
  - apply Forall_app. split; [done|]. apply Forall_forall. intros y Hy. apply H; [by left|done].
Qed.

Lemma fields_sorted_sub (f : Element -> bool) els : fields_sorted els -> fields_sorted (List.filter f els).
Proof.
  induction 1 as [|e els Hs IH Hall]; [constructor|]. cbn. destruct (f e); [|done].
  constructor; [done|]. apply Forall_forall. intros x Hx. rewrite Forall_forall in Hall. apply Hall.
  apply list_elem_of_In, List.filter_In in Hx as [Hx _]. by apply list_elem_of_In.
Qed.

Lemma fields_sorted_take_drop n els :
  fields_sorted els -> fields_sorted (take n els) /\ fields_sorted (drop n els) /\
  (forall x y, x ∈ take n els -> y ∈ drop n els -> el_rank x < el_rank y).
Proof.
  intros Hs. revert n. induction Hs as [|e els Hs IH Hall]; intros n; [destruct n; split_and!; try constructor; set_solver|].
  destruct n as [|n]; cbn; [split_and!; [constructor|by constructor|set_solver]|].
  destruct (IH n) as (H1 & H2 & H3). split_and!; [|done|].
  - constructor; [done|]. by apply Forall_take.
  - intros x y [->|Hx]%elem_of_cons Hy; [|by apply H3].
    pose proof (Forall_drop _ n _ Hall) as Hd. rewrite Forall_forall in Hd. by apply Hd.
Qed.

Lemma Forall_filter_sub {A} (P : A -> Prop) f l : Forall P l -> Forall P (List.filter f l).
Proof. induction 1; cbn; [constructor|]. case_match; [by constructor|done]. Qed.

Lemma field_element_ok {V} (F : FieldDecl V) `{!FieldLaws F} v : fl_ok v -> element_ok (field_element F v).
Proof. intros Hv. apply element_tv_ok; [apply fl_type_range|by apply fl_size]. Qed.

Definition with_field (e : Element) (els : list Element) : list Element :=
  take (lower_bound els (el_type e)) els ++ e :: drop (lower_bound els (el_type e)) els.

Lemma with_field_ok p e :
  packet_ok p -> element_ok e -> known e -> field (el_type e) (lp_elements p) = None ->
  packet_ok (mkLpPacket (with_field e (lp_elements p)) None).
Proof.
  intros [Hok Hk Hs _] He Hke Hno. pose proof (element_ok_type e He) as Ht.
  destruct (lower_bound_spec _ _ Hok Hs Ht) as (_ & H1 & H2). unfold with_field.
  set (n := lower_bound _ _) in *. destruct (fields_sorted_take_drop n _ Hs) as (S1 & S2 & S3).
  assert (Forall (fun x => el_rank e < el_rank x) (drop n (lp_elements p))) as H2'.
  { rewrite <-(take_drop n (lp_elements p)), field_app, (field_none_below (take n _)) in Hno
      by (done || by apply Forall_take).
    rewrite Forall_forall in *. intros x Hx. specialize (H2 x Hx).
    assert (el_rank x <> rank (el_type e)); [|unfold el_rank in *; lia]. intros Heq.
    apply rank_inj in Heq; [|apply element_ok_type, Hok|done].
    - apply list_elem_of_In in Hx. apply (List.find_none _ _ Hno) in Hx. by apply Z.eqb_neq in Hx.
    - by apply (subseteq_drop n). }
  constructor; cbn [lp_elements lp_wire]; [| | |done].
  - apply Forall_app; split; [by apply Forall_take|]. constructor; [done|by apply Forall_drop].
  - apply Forall_app; split; [by apply Forall_take|]. constructor; [done|by apply Forall_drop].
  - apply fields_sorted_app; [done|by constructor|]. intros x y Hx [->|Hy]%elem_of_cons.
    + rewrite Forall_forall in H1. by apply H1.
    + by apply S3.
Qed.

Lemma field_with_field t e p :
  packet_ok p -> element_ok e -> field (el_type e) (lp_elements p) = None ->
  field t (with_field e (lp_elements p)) = if el_type e =? t then Some e else field t (lp_elements p).
Proof.
  intros [Hok _ Hs _] He Hno. unfold with_field. set (n := lower_bound _ _).
  pose proof (take_drop n (lp_elements p)) as E. rewrite <-E in Hno at 1. rewrite <-E at 3.
  rewrite !field_app in *. unfold field at 2. cbn.
  destruct (Z.eqb_spec (el_type e) t) as [<-|]; [|done].
  by destruct (field (el_type e) (take n _)).
Qed.

Section operations.
Context {V : Type} (F : FieldDecl V) `{!FieldLaws F}.

Lemma field_element_known v : known (field_element F v).
Proof. left. apply fl_recognized. Qed.

Lemma lp_add_run v p :
  fl_ok v -> field (f_type F) (lp_elements p) = None ->
  lp_add F v p = (mkLpPacket (with_field (field_element F v) (lp_elements p)) None, inr tt).
Proof.
  intros Hv Hno. unfold lp_add. rewrite run_gets. cbn [id].
  rewrite lp_has_field, Hno, bool_decide_false, andb_false_r by by intros [? [=]].
  destruct (make_block_element (fun E I => f_encode F E I v) (f_type F) (fl_value v)) as (b & -> & Hb).
  - apply fl_type_range.
  - by apply fl_size.
  - intros E I H L. by apply fl_emits.
  - rewrite run_lift_inr. change (mkElement _ _ _) with (field_element F v) in Hb.
    by rewrite (element_of_fresh _ _ Hb).
Qed.

Lemma lp_add_repeated v p :
  is_Some (field (f_type F) (lp_elements p)) ->
  lp_add F v p = (p, inl (LengthError "Field cannot be repeated")).
Proof.
  intros H. unfold lp_add. rewrite run_gets. cbn [id].
  by rewrite lp_has_field, bool_decide_true, fl_not_repeatable by done.
Qed.

Lemma lp_clear_run p :
  lp_clear F p =
    (mkLpPacket (List.filter (fun e => negb (el_type e =? f_type F)) (lp_elements p)) None, inr tt).
Proof. done. Qed.

Lemma lp_clear_ok p :
  packet_ok p -> packet_ok (lp_clear F p).1.
Proof.
  intros [H1 H2 H3 _]. constructor; cbn [lp_clear modify fst lp_elements lp_wire]; [| | |done].
  - by apply Forall_filter_sub.
  - by apply Forall_filter_sub.
  - by apply fields_sorted_sub.
Qed.

Lemma lp_set_run v p :
  packet_ok p -> fl_ok v ->
  exists p', lp_set F v p = (p', inr tt) /\ packet_ok p' /\ lp_wire p' = None /\
    forall t, field t (lp_elements p') =
      if f_type F =? t then Some (field_element F v) else field t (lp_elements p).
Proof.
  intros Hp Hv. pose proof (lp_clear_ok p Hp) as Hc. unfold lp_set.
  rewrite (run_seq _ _ _ _ _ (lp_clear_run p)), lp_add_run by (done || apply field_filter_eq).
  rewrite lp_clear_run in Hc. cbn [fst] in Hc. set (q := mkLpPacket _ _) in *.
  pose proof (field_element_ok F v Hv) as He.
  assert (field (el_type (field_element F v)) (lp_elements q) = None) as Hno by apply field_filter_eq.
  eexists. split; [done|]. split; [apply with_field_ok; [done|done|apply field_element_known|done]|].
  split; [done|]. intros t. cbn [lp_elements]. rewrite field_with_field by done. cbn [el_type field_element element_tv].
  destruct (Z.eqb_spec (f_type F) t) as [|Hne]; [done|]. by apply field_filter_ne.
Qed.

Lemma get_loop_first els :
  get_loop F els 0 0 =
    match field (f_type F) els with
    | Some e => element ← block_of_element e; fd_decode F element
    | None => inl (OutOfRange "Index out of range")
    end.
Proof.
  unfold field. induction els as [|e els IH]; [done|]. cbn [get_loop List.find]. unfold has_type.
  by destruct (el_type e =? f_type F).
Qed.

Lemma block_of_element_ok e : element_ok e -> exists b, block_of_element e = inr b /\ fresh e b.
Proof.
  intros He. unfold block_of_element, Block_of_buffer.
  destruct (Block_of_range_encodes (el_wire e) 0 (length (el_wire e)) (el_wire e) (el_type e) (el_value e))
    as (b & E & Hb); [lia|done|apply slice_all|done|]. exists b. split; [done|]. by destruct e.
Qed.

Lemma lp_get_element v p :
  fl_ok v -> field (f_type F) (lp_elements p) = Some (field_element F v) ->
  lp_get F 0 p = inr (fl_read v).
Proof.
  intros Hv Hf. unfold lp_get. rewrite get_loop_first, Hf.
  destruct (block_of_element_ok (field_element F v)) as (b & -> & Hb); [by apply field_element_ok|].
  next. by apply fl_decode.
Qed.

Lemma lp_get_absent p :
  field (f_type F) (lp_elements p) = None -> lp_get F 0 p = inl (OutOfRange "Index out of range").
Proof. intros Hf. unfold lp_get. by rewrite get_loop_first, Hf. Qed.
End operations.

(** ** Decoding *)
Definition info_of (e : Element) : FieldInfo := FieldInfo_of (el_type e).

(** The elements a packet may have behind the element [prev]. *)
Definition in_order (prev : option Element) (els : list Element) : Prop :=
  Forall known els /\ fields_sorted els /\
  (forall e, prev = Some e -> Forall (fun x => el_rank e < el_rank x) els).

Definition decides (P : Prop) (r : exn + unit) : Prop :=
  match r with inr _ => P | inl ex => (exists what, ex = TlvError what) /\ ~ P end.

Lemma decides_cons prev e els r :
  known e -> (forall e0, prev = Some e0 -> el_rank e0 < el_rank e) ->
  decides (in_order (Some e) els) r -> decides (in_order prev (e :: els)) r.
Proof.
  intros Hk Hlt. destruct r as [ex|[]]; cbn; unfold in_order.
  - intros [Hex Hno]. split; [done|]. intros (H1 & H2 & _). apply Hno.
    apply Forall_cons_1 in H1 as [_ H1]. apply StronglySorted_inv in H2 as [H2 Hall].
    split_and!; [done|done|]. by intros e0 [= <-].
  - intros (H1 & H2 & Hall). specialize (Hall e eq_refl). split_and!; [by constructor|by constructor|].
    intros e0 H0. specialize (Hlt e0 H0). constructor; [done|]. eapply Forall_impl; [exact Hall|]. cbn. lia.
Qed.

Lemma check_fields_spec els prev :
  Forall element_ok els -> (forall e, prev = Some e -> element_ok e) ->
  decides (in_order prev els) (check_fields (info_of <$> prev) els).
Proof.
  intros Hok. revert prev. induction Hok as [|e els He Hok IH]; intros prev Hp.
  { cbn. unfold in_order. split_and!; [constructor|constructor|intros; constructor]. }
  cbn [check_fields]. fold (info_of e). destruct (negb _ && negb _) eqn:Ek.
  { split; [eauto|]. intros (Hk & _). apply Forall_cons_1 in Hk as [Hk _]. unfold known in Hk.
    apply andb_prop in Ek as [E1 E2]. apply negb_true_iff in E1, E2. unfold info_of in *.
    destruct Hk; congruence. }
  assert (known e) as Hke.
  { unfold known. apply andb_false_iff in Ek as [E|E]; apply negb_false_iff in E; tauto. }
  specialize (IH (Some e) ltac:(congruence)).
  destruct prev as [e0|]; cbn [fmap option_fmap option_map] in *; [|by apply decides_cons].
  specialize (Hp e0 eq_refl). fold (info_of e0).
  destruct (FieldInfo_spec (el_type e)) as (E1 & E2 & _), (FieldInfo_spec (el_type e0)) as (E3 & _ & _).
  fold (info_of e) in E1, E2. fold (info_of e0) in E3. rewrite E1, E2, E3. cbn [negb]. rewrite andb_true_r.
  unfold info_of at 1 2. rewrite compareFieldSortOrder_rank by (by apply element_ok_type).
  fold (el_rank e0) (el_rank e).
  assert (el_rank e <= el_rank e0 -> ~ in_order (Some e0) (e :: els)) as Hno.
  { intros Hle (_ & _ & H). specialize (H e0 eq_refl). apply Forall_cons_1 in H as [H _]. lia. }
  destruct (Z.eqb_spec (el_type e) (el_type e0)) as [E|E].
  { split; [eauto|]. apply Hno. unfold el_rank. rewrite E. lia. }
  destruct (Z.ltb_spec (el_rank e0) (el_rank e)); cbn [negb andb]; [|split; [eauto|by apply Hno]].
  apply decides_cons; [done|by intros e1 [= <-]|done].
Qed.

(** What a block that shows [e] decodes to. *)
Definition bare_of (octets_ : list byte) : LpPacket :=
  mkLpPacket [element_tv lp_tlv.Fragment octets_] None.

Definition is_network (e : Element) : bool :=
  (el_type e =? tlv.Interest) || (el_type e =? tlv.Data).

Lemma LpPacket_of_network e b :
  fresh e b -> is_network e = true -> u64_range (octets (el_wire e)) ->
  LpPacket_of_block b = inr (bare_of (el_wire e)).
Proof.
  intros Hf Hn Hsz. pose proof Hf as (Hb & (_ & Ht & _ & Hw) & _). unfold LpPacket_of_block.
  unfold is_network in Hn. rewrite Ht, Hn, Hw. next.
  unfold applied. rewrite (lp_add_run FragmentField); [done| |done]. split; [|done]. by apply (wire_nonempty b _ (block_ok_own _ Hb)).
Qed.

Lemma LpPacket_of_lp e b :
  fresh e b -> el_type e = lp_tlv.LpPacket ->
  (forall p, LpPacket_of_block b = inr p ->
     packet_ok p /\ lp_wire p = Some e /\ tlv_stream (el_value e) (lp_elements p)) /\
  (forall els, tlv_stream (el_value e) els -> Forall known els -> fields_sorted els ->
     LpPacket_of_block b = inr (mkLpPacket els (Some e))) /\
  tlv_only (LpPacket_of_block b).
Proof.
  intros Hf Ht. pose proof Hf as (Hb & Hel & Hs). destruct Hel as (_ & Htb & Hv & _).
  unfold LpPacket_of_block. rewrite Htb, Ht. change (_ || _) with false. change (negb _) with false. cbv iota.
  destruct (parsed_total b (block_ok_own _ Hb) Hs) as [(els & blks & -> & Hst & Hall)|[what E]].
  - next. rewrite Hv in Hst. rewrite (elements_of_fresh _ _ Hall), (element_of_fresh _ _ Hf).
    pose proof (proj1 (tlv_stream_wires _ _) Hst) as [Ev Hok].
    pose proof (check_fields_spec els None Hok ltac:(done)) as Hc. cbn [fmap option_fmap option_map] in Hc.
    destruct (check_fields None els) as [ex|[]].
    + destruct Hc as [[what ->] Hno]. split_and!; [done| |apply tlv_only_error].
      intros els' Hst' Hk Hso. rewrite (tlv_stream_inj _ _ _ Hst' Hst) in Hk, Hso. destruct Hno. by split.
    + destruct Hc as (Hk & Hso & _). split_and!.
      * intros p [= <-]. split_and!; [|done|done]. constructor; [done..|]. intros w [= <-].
        split_and!; [by eapply is_element_ok; [apply block_ok_own|apply Hf]|done|done].
      * intros els' Hst' _ _. by rewrite (tlv_stream_inj _ _ _ Hst' Hst).
      * apply tlv_only_mret.
  - rewrite E. split_and!; [done| |apply tlv_only_error]. intros els Hst _ _. rewrite <-Hv in Hst.
    destruct (parsed_stream b els (block_ok_own _ Hb) Hs Hst) as (blks & E' & _). congruence.
Qed.

Lemma tlv_only_LpPacket e b :
  fresh e b -> u64_range (octets (el_wire e)) -> tlv_only (LpPacket_of_block b).
Proof.
  intros Hf Hsz. destruct (is_network e) eqn:Hn; [by rewrite (LpPacket_of_network e b)|].
  destruct (Z.eqb_spec (el_type e) lp_tlv.LpPacket) as [Ht|Ht]; [by apply (LpPacket_of_lp e b)|].
  unfold LpPacket_of_block. pose proof Hf as (_ & (_ & -> & _) & _). unfold is_network in Hn. rewrite Hn.
  apply Z.eqb_neq in Ht as ->. apply tlv_only_error.
Qed.

(** ** Encoding *)

(** A packet with a header: anything but a single fragment. *)
Definition headed (els : list Element) : Prop :=
  match els with [e] => el_type e <> lp_tlv.Fragment | _ => True end.

Definition lp_element (els : list Element) : Element := element_tv lp_tlv.LpPacket (wires els).

Lemma emits_LpPacket {E} `{HE : EncodingLaws E} p :
  Forall element_ok (lp_elements p) ->
  emits (LpPacket_wireEncode_to p) (el_wire (lp_element (lp_elements p))) []
    (octets (el_wire (lp_element (lp_elements p)))).
Proof.
  intros Hok. unfold LpPacket_wireEncode_to.
  eapply (emits_finish (for_elements (rev (lp_elements p)) prependElement 0) (fun n => n));
    [by apply emits_for_prepend|done].
Qed.

Lemma wireEncode_headed p :
  Forall element_ok (lp_elements p) -> lp_wire p = None -> headed (lp_elements p) ->
  u64_range (octets (wires (lp_elements p))) ->
  LpPacket_wireEncode p =
    inr (mkLpPacket (lp_elements p) (Some (lp_element (lp_elements p))), lp_element (lp_elements p)).
Proof.
  intros Hok Hw Hh Hsz. unfold LpPacket_wireEncode. rewrite Hw.
  destruct (make_block_element (fun E I => LpPacket_wireEncode_to p) lp_tlv.LpPacket
    (wires (lp_elements p))) as (b & -> & Hb).
  - done.
  - done.
  - intros E I H L. by apply emits_LpPacket.
  - change (mkElement _ _ _) with (lp_element (lp_elements p)) in Hb. next.
    rewrite (element_of_fresh _ _ Hb). destruct (lp_elements p) as [|e [|? ?]] eqn:El; [done| |done].
    cbn [headed] in Hh. apply Z.eqb_neq in Hh. change (el_type e =? lp_tlv.Fragment) with (has_type FragmentField e) in Hh.
    by rewrite Hh.
Qed.

Lemma headed_field t els e : field t els = Some e -> t <> lp_tlv.Fragment -> headed els.
Proof.
  destruct els as [|x [|? ?]]; [done| |done]. unfold field. cbn. intros H Hne.
  destruct (Z.eqb_spec (el_type x) t); [congruence|done].
Qed.

(** The elements of a network packet can be parsed. *)
Definition parsable (e : Element) : Prop := element_ok e /\ exists els, tlv_stream (el_value e) els.

Lemma fresh_parsable e b : fresh e b -> (exists l, parsed b = inr l) -> parsable e.
Proof.
  intros (Hb & Hel & Hs) [l Hp]. split; [by eapply is_element_ok; [apply block_ok_own|]|].
  destruct (parsed_total b (block_ok_own _ Hb) Hs) as [(els & _ & _ & Hst & _)|[? ?]]; [|congruence].
  exists els. destruct Hel as (_ & _ & <- & _). done.
Qed.

Lemma wireEncode_bare e :
  parsable e -> u64_range (octets (el_wire e)) ->
  LpPacket_wireEncode (bare_of (el_wire e)) = inr (bare_of (el_wire e), e).
Proof.
  intros [He [els Hst]] Hsz. unfold LpPacket_wireEncode, bare_of. cbn [lp_wire lp_elements].
  change (has_type FragmentField _) with true. cbv iota. unfold bare_packet.
  destruct (block_of_element_ok (element_tv lp_tlv.Fragment (el_wire e))) as (b & -> & Hb);
    [by apply element_tv_ok|]. next.
  destruct (fresh_parsed _ _ [e] Hb) as (blks & -> & Hf); [cbn; by rewrite app_nil_r|by constructor|].
  inversion Hf as [|? i ? ? Hi Hnil]; subst. inversion Hnil; subst. next.
  destruct Hi as (Hbi & Hei & Hsi). pose proof Hei as (_ & _ & Hv & _). rewrite <-Hv in Hst.
  destruct (parsed_stream i els (block_ok_own _ Hbi) Hsi Hst) as (blks' & -> & _). next.
  by rewrite (element_of_fresh e i).
Qed.

(** ** Adding one field *)
Lemma octets_wires_with_field e els :
  octets (wires (with_field e els)) = octets (wires els) + octets (el_wire e).
Proof.
  unfold with_field. set (n := lower_bound _ _).
  rewrite <-(take_drop n els) at 3. rewrite !wires_app, wires_cons, !octets_app. lia.
Qed.

Lemma applied_add {V} (F : FieldDecl V) `{!FieldLaws F} v p :
  packet_ok p -> fl_ok v -> field (f_type F) (lp_elements p) = None ->
  exists p', applied (lp_add F v) p = inr p' /\ packet_ok p' /\ lp_wire p' = None /\
    octets (wires (lp_elements p')) =
      octets (wires (lp_elements p)) + octets (el_wire (field_element F v)) /\
    forall t, field t (lp_elements p') =
      if f_type F =? t then Some (field_element F v) else field t (lp_elements p).
Proof.
  intros Hp Hv Hno. pose proof (field_element_ok F v Hv) as He. unfold applied.
  rewrite (lp_add_run F v p Hv Hno). eexists. split; [done|].
  split; [apply with_field_ok; [done|done|apply field_element_known|done]|]. split; [done|].
  split; [apply octets_wires_with_field|]. intros t. by apply field_with_field.
Qed.

(** ** Properties *)

(** C31: a link packet acts as a finite map from field types to values: [has] tells whether
    the field is there and [get] reads the value that was put in; [add] of a field that is
    there throws [std::length_error] and changes nothing, and otherwise, like [set], it
    puts the field in, whichever the order of the calls, at its place in the canonical
    order, and leaves all others alone; [clear] takes it out.  All keep the packet well
    formed. *)
Theorem lp_packet_map {V} (F : FieldDecl V) `{!FieldLaws F} (v : V) (p : LpPacket) :
  packet_ok p -> fl_ok v ->
  let els := lp_elements p in
  let puts r := exists p', r = (p', inr tt) /\ packet_ok p' /\ lp_get F 0 p' = inr (fl_read v) /\
    forall t, t <> f_type F -> field t (lp_elements p') = field t els in
  lp_has F p = bool_decide (is_Some (field (f_type F) els)) /\
  (lp_has F p = false -> puts (lp_add F v p) /\ lp_get F 0 p = inl (OutOfRange "Index out of range")) /\
  (lp_has F p = true -> lp_add F v p = (p, inl (LengthError "Field cannot be repeated"))) /\
  puts (lp_set F v p) /\
  (exists p', lp_clear F p = (p', inr tt) /\ packet_ok p' /\
    forall t, field t (lp_elements p') = if f_type F =? t then None else field t els).
Proof.
  intros Hp Hv els puts. pose proof (lp_has_field F p) as Hhas. fold els in Hhas.
  pose proof (field_element_ok F v Hv) as He.
  split_and!; [done| | | |].
  - rewrite Hhas. intros Hno%bool_decide_eq_false. apply eq_None_not_Some in Hno.
    split; [|by apply lp_get_absent]. rewrite (lp_add_run F v p Hv Hno). eexists. split; [done|].
    split; [by apply with_field_ok; [done|done|apply field_element_known|]|]. cbn [lp_elements]. split.
    + apply lp_get_element; [done|]. cbn [lp_elements]. rewrite field_with_field by done. by rewrite Z.eqb_refl.
    + intros t Ht. rewrite field_with_field by done. cbn [el_type field_element element_tv].
      by destruct (Z.eqb_spec (f_type F) t); [congruence|].
  - rewrite Hhas. intros Hin%bool_decide_eq_true. by apply lp_add_repeated.
  - destruct (lp_set_run F v p Hp Hv) as (p' & E & Hok & _ & Hf). exists p'. rewrite E. split; [done|].
    split; [done|]. split.
    + apply lp_get_element; [done|]. by rewrite Hf, Z.eqb_refl.
    + intros t Ht. rewrite Hf. by destruct (Z.eqb_spec (f_type F) t); [congruence|].
  - rewrite lp_clear_run. eexists. split; [done|]. split; [exact (lp_clear_ok F p Hp)|]. intros t. cbn [lp_elements].
    destruct (Z.eqb_spec (f_type F) t) as [<-|]; [apply field_filter_eq|by apply field_filter_ne].
Qed.

(** C32: encoding and decoding a well-formed link packet.  A packet with a header is
    written as one element whose decoding gives its fields; a packet that holds nothing
    but an Interest or Data is sent as that Interest or Data itself, which decodes to
    such a packet again.  Octets of a link packet that are decoded at all give a well-formed
    packet with exactly the fields in them, and they are if and only if the fields are
    known, in order and not repeated; any other element throws a TLV error. *)
Theorem lp_roundtrip (p : LpPacket) (e : Element) (b : Block) :
  packet_ok p -> lp_wire p = None -> u64_range (octets (wires (lp_elements p))) ->
  fresh e b -> u64_range (octets (el_wire e)) ->
  (headed (lp_elements p) -> exists w,
     LpPacket_wireEncode p = inr (mkLpPacket (lp_elements p) (Some w), w) /\
     forall bw, fresh w bw -> LpPacket_of_block bw = inr (mkLpPacket (lp_elements p) (Some w))) /\
  (is_network e = true -> parsable e ->
     LpPacket_of_block b = inr (bare_of (el_wire e)) /\
     LpPacket_wireEncode (bare_of (el_wire e)) = inr (bare_of (el_wire e), e)) /\
  (is_network e = false -> el_type e <> lp_tlv.LpPacket ->
     exists what, LpPacket_of_block b = inl (TlvError what)) /\
  (el_type e = lp_tlv.LpPacket -> forall els, tlv_stream (el_value e) els ->
     (Forall known els /\ fields_sorted els ->
        LpPacket_of_block b = inr (mkLpPacket els (Some e)) /\ packet_ok (mkLpPacket els (Some e))) /\
     (~ (Forall known els /\ fields_sorted els) ->
        exists what, LpPacket_of_block b = inl (TlvError what))).
Proof.
  intros Hp Hw Hsz Hf Hse. split_and!.
  - intros Hh. exists (lp_element (lp_elements p)). split; [by apply wireEncode_headed; [apply Hp|..]|].
    intros bw Hbw. destruct (LpPacket_of_lp _ bw Hbw eq_refl) as (_ & H & _).
    apply H; [apply tlv_stream_ok, Hp|apply Hp|apply Hp].
  - intros Hn Hpa. split; [by apply (LpPacket_of_network e)|by apply wireEncode_bare].
  - intros Hn Ht. unfold LpPacket_of_block. pose proof Hf as (_ & (_ & -> & _) & _).
    unfold is_network in Hn. rewrite Hn. apply Z.eqb_neq in Ht as ->. eauto.
  - intros Ht els Hst. destruct (LpPacket_of_lp e b Hf Ht) as (H1 & H2 & H3). split.
    + intros [Hk Hs]. pose proof (H2 els Hst Hk Hs) as E. split; [done|]. by destruct (H1 _ E).
    + intros Hno. destruct (LpPacket_of_block b) as [ex|q] eqn:E; [by destruct (H3 ex eq_refl) as [what ->]; eauto|].
      destruct (H1 q eq_refl) as ([_ Hk Hs _] & _ & Hst'). rewrite (tlv_stream_inj _ _ _ Hst' Hst) in *. by destruct Hno.
Qed.

(** ** Examples *)

(** A link packet with the Interest [demo_interest] and two header fields put in after it. *)
Definition demo_net : Element := interest_element (ensure_nonce 16909060 demo_interest).
Definition demo_bare : LpPacket := bare_of (el_wire demo_net).
Definition demo_link_packet : LpPacket :=
  (lp_add HopCountTagField 3 (lp_add CongestionMarkField 1 demo_bare).1).1.

Lemma demo_bare_ok : packet_ok demo_bare.
Proof.
  constructor; cbn [demo_bare bare_of lp_elements lp_wire]; [| | |done].
  - repeat constructor. apply element_tv_ok; [done|by vm_compute].
  - by repeat constructor.
  - repeat constructor.
Qed.

Lemma demo_net_ok : element_ok demo_net.
Proof. apply element_tv_ok; [done|exact (proj1 demo_interest_ok)]. Qed.

Lemma lp_packet_map_witness :
  packet_ok demo_bare /\ fl_ok (F := HopCountTagField) 3 /\
  exists p', lp_add HopCountTagField 3 demo_bare = (p', inr tt) /\
    lp_get HopCountTagField 0 p' = inr 3 /\ length (lp_elements p') = 2%nat.
Proof.
  pose proof demo_bare_ok as Hp. split; [exact Hp|]. assert (fl_ok (F := HopCountTagField) 3) as Hv by done. split; [exact Hv|].
  destruct (lp_packet_map HopCountTagField 3 demo_bare Hp Hv) as (_ & H & _).
  destruct H as [(p' & E & _ & Hg & _) _]; [reflexivity|]. exists p'. split; [exact E|]. split; [exact Hg|].
  vm_compute in E. injection E as <-. reflexivity.
Defined.

Lemma demo_link_packet_ok : packet_ok demo_link_packet /\ lp_wire demo_link_packet = None.
Proof.
  destruct (applied_add CongestionMarkField 1 demo_bare demo_bare_ok) as (p1 & E1 & K1 & _ & _ & F1); [done|done|].
  destruct (applied_add HopCountTagField 3 p1 K1) as (p2 & E2 & K2 & W2 & _); [done|by rewrite F1|].
  assert (demo_link_packet = p2) as ->; [|done]. unfold demo_link_packet, applied in *.
  destruct (lp_add CongestionMarkField 1 demo_bare) as [q1 [|]]; [done|]. injection E1 as ->. cbn [fst].
  destruct (lp_add HopCountTagField 3 p1) as [q2 [|]]; [done|]. by injection E2 as ->.
Qed.

Lemma lp_roundtrip_witness :
  exists w, LpPacket_wireEncode demo_link_packet = inr (mkLpPacket (lp_elements demo_link_packet) (Some w), w) /\
    el_type <$> lp_elements demo_link_packet = [84; 832; 80] /\
    (LpPacket_wireEncode demo_bare = inr (demo_bare, demo_net)) /\
    exists b, LpPacket_of_block b = inr demo_bare.
Proof.
  destruct demo_link_packet_ok as [Hp Hw].
  destruct (block_of_element_ok demo_net demo_net_ok) as (b & _ & Hb).
  assert (parsable demo_net) as Hpa.
  { split; [exact demo_net_ok|]. eexists. apply tlv_stream_ok, interest_elements_ok, demo_interest_ok. }
  destruct (lp_roundtrip demo_link_packet demo_net b Hp Hw) as (H1 & H2 & _).
  - vm_compute. split; [discriminate|reflexivity].
  - exact Hb.
  - vm_compute. split; [discriminate|reflexivity].
  - destruct H1 as (w & E & _); [by vm_compute|]. exists w. split; [exact E|].
    split; [vm_compute; reflexivity|]. destruct (H2 eq_refl Hpa) as [Hd He].
    split; [exact He|]. exists b. exact Hd.
Defined.
