(* ===== verification/LpFragmenter.v ===== *)
(** * LpFragmenter: cutting a network packet into link packets

    Source: [src/src/ndnSIM/NFD/daemon/face/lp-fragmenter.cpp].  Assertions are part of the
    model: one that failed would be the error [Aborted]. *)
From S2P Require Import Prelude Tlv Encoder Block BlockSpec Names NameWire Exclude WireFormat LpPacket.

Definition MAX_SINGLE_FRAG_OVERHEAD : Z := 1 + 9 + (1 + 1 + 8) + (1 + 9).
Definition MAX_FRAG_OVERHEAD : Z :=
  1 + 9 + (1 + 1 + 8) + (1 + 1 + 8) + (1 + 1 + 8) + (1 + 9).

(** The default of [Options::nMaxFragments]. *)
Definition DEFAULT_MAX_FRAGMENTS : Z := 400.

(** [BOOST_ASSERT] *)
Definition boost_assert (c : bool) (what : string) : exn + unit :=
  if c then mret tt else inl (Aborted what).

Definition el_size (e : Element) : Z := octets (el_wire e).

(** The sizes of the headers other than the fragment. *)
Definition header_sizes (elements : list Element) : Z :=
  foldr (fun e n => if negb (el_type e =? lp_tlv.Fragment) then el_size e + n else n) 0 elements.

(** The loop that fills the fragments; [fragBegin] and [fragEnd] are positions in the
    payload. *)
Fixpoint fill_frags (fuel : nat) (payload : list byte) (payloadSize : nat) (fragCount mtu : Z)
    (frags : list LpPacket) (fragIndex fragBegin fragEnd : nat) : exn + (list LpPacket * nat) :=
  if (length payload <=? fragBegin)%nat then mret (frags, fragIndex) else
  match fuel with
  | O => inl OutOfFuel
  | S fuel =>
      match frags !! fragIndex with
      | None => inl (Undefined "frags[fragIndex]")
      | Some frag =>
          frag ← applied (lp_add FragIndexField (Z.of_nat fragIndex)) frag;
          frag ← applied (lp_add FragCountField fragCount) frag;
          frag ← applied (lp_set FragmentField (slice fragBegin fragEnd payload)) frag;
          '(frag, w) ← LpPacket_wireEncode frag;
          boost_assert (el_size w <=? mtu) "frag.wireEncode().size() <= mtu";;
          fill_frags fuel payload payloadSize fragCount mtu (<[fragIndex := frag]> frags)
            (S fragIndex) fragEnd (Nat.min (length payload) (fragEnd + payloadSize))
      end
  end.

(** [fragmentPacket]; [None] stands for [false] with no packets.  [mtu] is a [size_t]. *)
Definition fragmentPacket (nMaxFragments : Z) (packet : LpPacket) (mtu : Z)
    : exn + option (list LpPacket) :=
  boost_assert (lp_has FragmentField packet) "packet.has<lp::FragmentField>()";;
  boost_assert (negb (lp_has FragIndexField packet)) "!packet.has<lp::FragIndexField>()";;
  boost_assert (negb (lp_has FragCountField packet)) "!packet.has<lp::FragCountField>()";;
  '(packet, w) ← LpPacket_wireEncode packet;
  if MAX_SINGLE_FRAG_OVERHEAD + el_size w <=? mtu then mret (Some [packet]) else
  netPkt ← lp_get FragmentField 0 packet;
  let netPktSize := octets netPkt in
  '(packet, packetWire) ← LpPacket_wireEncode packet;
  let firstHeaderSize :=
    if el_type packetWire =? lp_tlv.LpPacket then header_sizes (lp_elements packet) else 0 in
  if mtu <? MAX_FRAG_OVERHEAD + firstHeaderSize + 1 then mret None else
  let firstPayloadSize := Z.min netPktSize (mtu - firstHeaderSize - MAX_FRAG_OVERHEAD) in
  let payloadSize := mtu - MAX_FRAG_OVERHEAD in
  let fragCount := 1 + (netPktSize - firstPayloadSize) / payloadSize +
    (if (netPktSize - firstPayloadSize) mod payloadSize =? 0 then 0 else 1) in
  if nMaxFragments <? fragCount then mret None else
  let frags := packet :: replicate (Z.to_nat (fragCount - 1)) LpPacket_new in
  '(frags, fragIndex) ← fill_frags (Z.to_nat fragCount) netPkt (Z.to_nat payloadSize) fragCount mtu
                          frags 0 0 (Z.to_nat firstPayloadSize);
  boost_assert (Z.of_nat fragIndex =? fragCount) "fragIndex == fragCount";;
  mret (Some frags).
