(* ===== verification/LpFragmenterSpec.v ===== *)
(** * LpFragmenterSpec: what the fragmenter cuts

    The fragments of a packet carry its octets in order, none is empty, each fits the MTU
    with room for a sequence number, the first one has the other headers of the packet, and
    no assertion of the fragmenter fails. *)
From S2P Require Import Prelude Tlv Encoder Block BlockSpec Names NameWire Exclude ExcludeSpec WireFormat WireFormatSpec PacketWireSpec LpPacket LpPacketSpec LpFragmenter.

Lemma lp_has_none {V} (F : FieldDecl V) p : field (f_type F) (lp_elements p) = None -> lp_has F p = false.
Proof. intros H. rewrite lp_has_field, H. apply bool_decide_false. by intros [? [=]]. Qed.
Lemma lp_has_some {V} (F : FieldDecl V) p e : field (f_type F) (lp_elements p) = Some e -> lp_has F p = true.
Proof. intros H. rewrite lp_has_field, H. apply bool_decide_true. eauto. Qed.

(** ** Whole packets *)

(** A whole packet: it has a fragment and a hop count, and is not a fragment of another. *)
Record whole (p : LpPacket) (w : list byte) (hops : Z) : Prop := {
  wh_ok : packet_ok p;
  wh_wire : lp_wire p = None;
  wh_size : octets (wires (lp_elements p)) <= 9223372036854775000;
  wh_hops_range : u64_range hops;
  wh_fragment : field lp_tlv.Fragment (lp_elements p) = Some (element_tv lp_tlv.Fragment w);
  wh_hops : field lp_tlv.HopCountTag (lp_elements p) = Some (field_element HopCountTagField hops);
  wh_index : field lp_tlv.FragIndex (lp_elements p) = None;
  wh_count : field lp_tlv.FragCount (lp_elements p) = None
}.

Lemma whole_encode p w hops :
  whole p w hops ->
  LpPacket_wireEncode p =
    inr (mkLpPacket (lp_elements p) (Some (lp_element (lp_elements p))), lp_element (lp_elements p)) /\
  el_size (lp_element (lp_elements p)) <= 9223372036854775100 /\
  forall b, fresh (lp_element (lp_elements p)) b ->
    LpPacket_of_block b = inr (mkLpPacket (lp_elements p) (Some (lp_element (lp_elements p)))).
Proof.
  intros [Hp Hw Hsz _ _ Hh _ _].
  assert (u64_range (octets (wires (lp_elements p)))) as Hr.
  { pose proof (octets_nonneg (wires (lp_elements p))). unfold u64_range. lia. }
  split; [|split].
  - apply wireEncode_headed; [apply Hp|done| |done]. by eapply headed_field.
  - change (octets (element lp_tlv.LpPacket (wires (lp_elements p))) <= 9223372036854775100).
    rewrite octets_element.
    pose proof (sizeOfVarNumber_le lp_tlv.LpPacket).
    pose proof (sizeOfVarNumber_le (octets (wires (lp_elements p)))). lia.
  - intros b Hb. destruct (LpPacket_of_lp _ b Hb eq_refl) as (_ & H & _).
    apply H; [apply tlv_stream_ok, Hp|apply Hp|apply Hp].
Qed.

(** ** Sizes *)
Lemma header_sizes_app a b : header_sizes (a ++ b) = header_sizes a + header_sizes b.
Proof. unfold header_sizes. induction a as [|e a IH]; cbn; [done|]. rewrite IH. destruct (negb _); lia. Qed.

Lemma header_sizes_with_field e els :
  header_sizes (with_field e els) =
    header_sizes els + (if negb (el_type e =? lp_tlv.Fragment) then el_size e else 0).
Proof.
  unfold with_field. set (n := lower_bound _ _). rewrite <-(take_drop n els) at 3.
  rewrite !header_sizes_app. unfold header_sizes at 2. cbn [foldr]. fold (header_sizes (drop n els)).
  destruct (negb _); lia.
Qed.

Lemma header_sizes_filter els :
  octets (wires (List.filter (fun e => negb (el_type e =? lp_tlv.Fragment)) els)) = header_sizes els.
Proof.
  induction els as [|e els IH]; [done|]. unfold header_sizes. cbn [List.filter foldr]. fold (header_sizes els).
  destruct (negb _); [|done]. by rewrite wires_cons, octets_app, IH.
Qed.

Lemma header_sizes_nonneg els : 0 <= header_sizes els.
Proof. rewrite <-header_sizes_filter. apply octets_nonneg. Qed.

(** A number field with a one-octet type. *)
Lemma small_number_size t n : 0 <= t < 253 -> el_size (number_element t n) <= 10.
Proof.
  intros Ht. unfold el_size. cbn [el_wire number_element element_tv]. rewrite octets_element.
  pose proof (octets_nonNegativeInteger n) as [H8 _].
  assert (sizeOfVarNumber t = 1) as -> by (unfold sizeOfVarNumber; destruct (Z.ltb_spec t 253); [done|lia]).
  assert (sizeOfVarNumber (octets (nonNegativeInteger n)) = 1) as ->; [|lia].
  unfold sizeOfVarNumber. by destruct (Z.ltb_spec (octets (nonNegativeInteger n)) 253); [|lia].
Qed.

Lemma header_sizes_with_number t n els :
  0 <= t < 253 -> header_sizes (with_field (number_element t n) els) <= header_sizes els + 10.
Proof.
  intros Ht. rewrite header_sizes_with_field. pose proof (small_number_size t n Ht). destruct (negb _); lia.
Qed.

(** ** One fragment *)

(** [f] is number [i] of [n] fragments and carries [bytes]. *)
Record is_fragment (n i : nat) (bytes : list byte) (f : LpPacket) : Prop := {
  if_ok : packet_ok f;
  if_index : field lp_tlv.FragIndex (lp_elements f) = Some (number_element lp_tlv.FragIndex (Z.of_nat i));
  if_count : field lp_tlv.FragCount (lp_elements f) = Some (number_element lp_tlv.FragCount (Z.of_nat n));
  if_bytes : field lp_tlv.Fragment (lp_elements f) = Some (element_tv lp_tlv.Fragment bytes);
  if_nonempty : bytes <> [] /\ u64_range (octets bytes)
}.

Definition other_headers (t : Z) : Prop :=
  t <> lp_tlv.FragIndex /\ t <> lp_tlv.FragCount /\ t <> lp_tlv.Fragment.

(** The three calls of the loop's body, and the encoding in its assertion. *)
Definition cut_fragment (i : nat) (n : Z) (bytes : list byte) (base : LpPacket)
    : exn + (LpPacket * Element) :=
  frag ← applied (lp_add FragIndexField (Z.of_nat i)) base;
  frag ← applied (lp_add FragCountField n) frag;
  frag ← applied (lp_set FragmentField bytes) frag;
  LpPacket_wireEncode frag.

Lemma applied_set bytes p :
  packet_ok p -> bytes <> [] -> u64_range (octets bytes) ->
  exists p', applied (lp_set FragmentField bytes) p = inr p' /\ packet_ok p' /\ lp_wire p' = None /\
    octets (wires (lp_elements p')) =
      header_sizes (lp_elements p) + octets (element lp_tlv.Fragment bytes) /\
    forall t, field t (lp_elements p') =
      if lp_tlv.Fragment =? t then Some (element_tv lp_tlv.Fragment bytes) else field t (lp_elements p).
Proof.
  intros Hp Hne Hb. destruct (lp_set_run FragmentField bytes p Hp) as (p' & E & K & W & F); [by split|].
  exists p'. unfold applied. rewrite E. split_and!; [done..| |exact F].
  unfold lp_set in E. rewrite (run_seq _ _ _ _ _ (lp_clear_run FragmentField p)) in E.
  rewrite (lp_add_run FragmentField) in E; [|by split|apply field_filter_eq]. injection E as <-. cbn [lp_elements].
  pose proof (octets_wires_with_field (field_element FragmentField bytes)
    (List.filter (fun e => negb (el_type e =? lp_tlv.Fragment)) (lp_elements p))) as H.
  rewrite header_sizes_filter in H. exact H.
Qed.

Lemma cut_fragment_spec (n i : nat) bytes base mtu :
  packet_ok base -> field lp_tlv.FragIndex (lp_elements base) = None ->
  field lp_tlv.FragCount (lp_elements base) = None ->
  bytes <> [] -> u64_range mtu -> Z.of_nat i < 18446744073709551616 -> Z.of_nat n < 18446744073709551616 ->
  MAX_FRAG_OVERHEAD + header_sizes (lp_elements base) + octets bytes <= mtu ->
  exists f w, cut_fragment i (Z.of_nat n) bytes base = inr (f, w) /\
    is_fragment n i bytes f /\ el_size w <= mtu /\
    octets (wires (lp_elements f)) + 20 <= mtu /\ lp_wire f = Some w /\
    forall t, other_headers t -> field t (lp_elements f) = field t (lp_elements base).
Proof.
  intros Hp Hi Hc Hne Hmtu Hir Hnr Hsz. pose proof (header_sizes_nonneg (lp_elements base)).
  unfold u64_range, MAX_FRAG_OVERHEAD in *. pose proof (octets_nonneg bytes).
  destruct (applied_add FragIndexField (Z.of_nat i) base Hp) as (p1 & E1 & K1 & _ & _ & F1);
    [split; lia|done|].
  destruct (applied_add FragCountField (Z.of_nat n) p1 K1) as (p2 & E2 & K2 & _ & _ & F2);
    [split; lia|by rewrite F1|].
  destruct (applied_set bytes p2 K2 Hne) as (p3 & E3 & K3 & W3 & S3 & F3); [unfold u64_range; lia|].
  assert (header_sizes (lp_elements p2) <= header_sizes (lp_elements base) + 20) as Hh.
  { unfold applied in E1, E2.
    rewrite (lp_add_run FragIndexField) in E1; [|split; lia|done]. injection E1 as <-.
    rewrite (lp_add_run FragCountField) in E2; [|split; lia|by rewrite F1]. injection E2 as <-.
    cbn [lp_elements].
    etrans; [apply (header_sizes_with_number lp_tlv.FragCount); unfold lp_tlv.FragCount; lia|].
    pose proof (header_sizes_with_number lp_tlv.FragIndex (Z.of_nat i) (lp_elements base)
      ltac:(unfold lp_tlv.FragIndex; lia)) as S1.
    change (number_element lp_tlv.FragIndex (Z.of_nat i)) with (field_element FragIndexField (Z.of_nat i)) in S1. lia. }
  assert (octets (element lp_tlv.Fragment bytes) <= 10 + octets bytes) as Hf.
  { rewrite octets_element. change (sizeOfVarNumber lp_tlv.Fragment) with 1.
    pose proof (sizeOfVarNumber_le (octets bytes)). lia. }
  assert (octets (wires (lp_elements p3)) + 20 <= mtu) as Hroom by lia.
  assert (el_size (lp_element (lp_elements p3)) <= mtu) as Hfit.
  { change (octets (element lp_tlv.LpPacket (wires (lp_elements p3))) <= mtu). rewrite octets_element.
    change (sizeOfVarNumber lp_tlv.LpPacket) with 1. pose proof (sizeOfVarNumber_le (octets (wires (lp_elements p3)))). lia. }
  assert (field lp_tlv.FragIndex (lp_elements p3) = Some (field_element FragIndexField (Z.of_nat i))) as Hidx
    by (by rewrite F3, F2, F1).
  exists (mkLpPacket (lp_elements p3) (Some (lp_element (lp_elements p3)))), (lp_element (lp_elements p3)).
  unfold cut_fragment. rewrite E1. next. rewrite E2. next. rewrite E3. next.
  assert (u64_range (octets (wires (lp_elements p3)))) as Hr
    by (pose proof (octets_nonneg (wires (lp_elements p3))); unfold u64_range; lia).
  split; [apply wireEncode_headed; [apply K3|done|by eapply headed_field|done]|].
  split_and!; [|exact Hfit|exact Hroom|done|].
  - split; [|done|by rewrite F3, F2|by rewrite F3|split; [done|unfold u64_range; lia]].
    destruct K3 as [A B C _]. split; [done..|]. intros w [= <-]. cbn [lp_elements].
    split_and!; [by apply element_tv_ok|done|done].
  - intros t (T1 & T2 & T3). cbn [lp_elements]. rewrite F3, F2, F1.
    destruct (Z.eqb_spec lp_tlv.Fragment t) as [<-|_]; [by destruct T3|].
    destruct (Z.eqb_spec (f_type FragCountField) t) as [<-|_]; [by destruct T2|].
    destruct (Z.eqb_spec (f_type FragIndexField) t) as [<-|_]; [by destruct T1|done].
Qed.

(** ** The loop *)
Lemma fill_step fuel payload size n mtu frags i b e base f w :
  (b < length payload)%nat -> frags !! i = Some base ->
  cut_fragment i n (slice b e payload) base = inr (f, w) -> el_size w <= mtu ->
  fill_frags (S fuel) payload size n mtu frags i b e =
    fill_frags fuel payload size n mtu (<[i := f]> frags) (S i) e (Nat.min (length payload) (e + size)).
Proof.
  intros Hb Hi Hcut Hw. cbn [fill_frags]. destruct (Nat.leb_spec (length payload) b); [lia|]. rewrite Hi.
  unfold cut_fragment in Hcut. apply result_bind_inr in Hcut as (f1 & -> & Hcut). next.
  apply result_bind_inr in Hcut as (f2 & -> & Hcut). next.
  apply result_bind_inr in Hcut as (f3 & -> & Hcut). next. rewrite Hcut. next. by apply Z.leb_le in Hw as ->.
Qed.

(** Where the fragments are cut. *)
Section cuts.
Context (payload : list byte) (first size : nat).

Definition cut_at (i : nat) : nat :=
  match i with O => O | S i => Nat.min (length payload) (first + i * size) end.
Definition cut_piece (i : nat) : list byte := slice (cut_at i) (cut_at (S i)) payload.

Lemma cut_at_le i : (cut_at i <= cut_at (S i))%nat /\ (cut_at (S i) <= length payload)%nat.
Proof. destruct i; cbn [cut_at]; lia. Qed.

Lemma cut_at_next i : Nat.min (length payload) (cut_at (S i) + size) = cut_at (S (S i)).
Proof. cbn [cut_at]. lia. Qed.

Lemma cut_pieces n : concat (cut_piece <$> seq 0 n) = take (cut_at n) payload.
Proof.
  induction n as [|n IH]; [done|]. rewrite seq_S, fmap_app, concat_app, IH. cbn [fmap list_fmap concat plus].
  rewrite app_nil_r. unfold cut_piece, slice. destruct (cut_at_le n).
  rewrite <-(take_drop (cut_at n) (take (cut_at (S n)) payload)) at 1.
  rewrite take_take, skipn_firstn_comm. f_equal. f_equal. lia.
Qed.

Context (n : nat) (mtu : Z) (base : nat -> LpPacket).
Hypothesis Hinner : forall i, (i < n)%nat -> (cut_at i < length payload)%nat.
Hypothesis Hlast : cut_at n = length payload.

Lemma fill_frags_spec (good : nat -> LpPacket -> Prop) :
  (forall i, (i < n)%nat -> exists f w, cut_fragment i (Z.of_nat n) (cut_piece i) (base i) = inr (f, w) /\
     el_size w <= mtu /\ good i f) ->
  forall k i frags, (i + k = n)%nat -> length frags = n ->
  (forall j, (i <= j)%nat -> (j < n)%nat -> frags !! j = Some (base j)) ->
  exists frags', fill_frags k payload size (Z.of_nat n) mtu frags i (cut_at i) (cut_at (S i)) = inr (frags', n) /\
    length frags' = n /\ (forall j, (j < i)%nat -> frags' !! j = frags !! j) /\
    (forall j, (i <= j)%nat -> (j < n)%nat -> exists f, frags' !! j = Some f /\ good j f).
Proof.
  intros Hcut k. induction k as [|k IH]; intros i frags Hik Hlen Hbase.
  - assert (i = n) as -> by lia. exists frags. cbn [fill_frags]. rewrite Hlast, Nat.leb_refl.
    split_and!; [done..|]. intros j H1 H2. lia.
  - destruct (Hcut i) as (f & w & E & Hw & Hg); [lia|].
    erewrite fill_step; [|apply Hinner; lia|apply Hbase; lia|exact E|exact Hw].
    rewrite cut_at_next. destruct (IH (S i) (<[i := f]> frags)) as (frags' & -> & Hl & Hlt & Hge).
    + lia.
    + by rewrite length_insert.
    + intros j H1 H2. rewrite list_lookup_insert_ne by lia. apply Hbase; lia.
    + exists frags'. split_and!; [done|done| |].
      * intros j Hj. rewrite Hlt, list_lookup_insert_ne by lia. done.
      * intros j H1 H2. destruct (decide (j = i)) as [->|]; [|apply Hge; lia].
        exists f. rewrite Hlt, list_lookup_insert_eq by lia. done.
Qed.
End cuts.

(** ** How many *)
Lemma fragment_count total first size :
  0 < first <= total -> 0 < size ->
  let count := 1 + (total - first) / size + (if (total - first) mod size =? 0 then 0 else 1) in
  1 <= count /\ total <= first + (count - 1) * size /\
  (forall i, 1 <= i < count -> first + (i - 1) * size < total).
Proof.
  intros Hf Hs count. subst count.
  pose proof (Z.div_mod (total - first) size ltac:(lia)) as Hdm.
  pose proof (Z.mod_pos_bound (total - first) size ltac:(lia)) as Hm.
  assert (0 <= (total - first) / size) by (apply Z.div_pos; lia).
  set (q := (total - first) / size) in *. set (r := (total - first) mod size) in *.
  destruct (Z.eqb_spec r 0) as [E|E]; (split; [lia|]); (split; [nia|]); intros i Hi; nia.
Qed.

(** ** The whole fragmenter *)
Lemma whole_payload p w hops :
  whole p w hops -> w <> [] -> u64_range (octets w) /\
  lp_get FragmentField 0 (mkLpPacket (lp_elements p) (Some (lp_element (lp_elements p)))) = inr w.
Proof.
  intros [Hp _ _ _ Hfr _ _ _] Hne.
  assert (element_ok (element_tv lp_tlv.Fragment w)) as He.
  { destruct Hp as [Hok _ _ _]. rewrite Forall_forall in Hok. apply Hok. by eapply field_in. }
  destruct (encodes_split _ _ _ He) as (_ & _ & _ & _ & Hr). split; [exact Hr|].
  by rewrite (lp_get_element FragmentField w).
Qed.

(** The result of [fragmentPacket] for a packet too large for one frame. *)
Definition fragmented (p : LpPacket) (w : list byte) (mtu : Z) (frags : list LpPacket) : Prop :=
  let n := length frags in
  (0 < n)%nat /\ exists pieces, concat pieces = w /\ length pieces = n /\
  forall i, (i < n)%nat -> exists f bytes fw, frags !! i = Some f /\ pieces !! i = Some bytes /\
    is_fragment n i bytes f /\ lp_wire f = Some fw /\ el_size fw <= mtu /\
    octets (wires (lp_elements f)) + 20 <= mtu /\
    forall t, other_headers t -> field t (lp_elements f) = if (i =? 0)%nat then field t (lp_elements p) else None.

Lemma LpPacket_new_ok : packet_ok LpPacket_new.
Proof. by split; repeat constructor. Qed.

(** The assertions at the start of [fragmentPacket], and the first encoding. *)
Ltac pass_assertions :=
  unfold fragmentPacket;
  match goal with
  | Hfr : field lp_tlv.Fragment (lp_elements ?p) = Some _, Hi : field lp_tlv.FragIndex _ = None,
    Hc : field lp_tlv.FragCount _ = None, Henc : LpPacket_wireEncode _ = _ |- _ =>
      rewrite (lp_has_some FragmentField p _ Hfr), (lp_has_none FragIndexField p Hi),
        (lp_has_none FragCountField p Hc);
      cbn [boost_assert negb]; do 3 (change (mret ?x ≫= ?k) with (k x); cbv beta); rewrite Henc; next
  end.

Lemma fragmentPacket_small nMax p w hops mtu :
  whole p w hops -> MAX_SINGLE_FRAG_OVERHEAD + el_size (lp_element (lp_elements p)) <= mtu ->
  fragmentPacket nMax p mtu =
    inr (Some [mkLpPacket (lp_elements p) (Some (lp_element (lp_elements p)))]).
Proof.
  intros Hwh Hfit. destruct (whole_encode _ _ _ Hwh) as (Henc & _).
  destruct Hwh as [_ _ _ _ Hfr _ Hi Hc]. pass_assertions.
  by apply Z.leb_le in Hfit as ->.
Qed.

Lemma fragmentPacket_no_room nMax p w hops mtu :
  whole p w hops -> w <> [] -> mtu < MAX_SINGLE_FRAG_OVERHEAD + el_size (lp_element (lp_elements p)) ->
  mtu < MAX_FRAG_OVERHEAD + header_sizes (lp_elements p) + 1 -> fragmentPacket nMax p mtu = inr None.
Proof.
  intros Hwh Hne Hlarge Hroom. destruct (whole_encode _ _ _ Hwh) as (Henc & _).
  destruct (whole_payload _ _ _ Hwh Hne) as [_ Hget]. destruct Hwh as [_ _ _ _ Hfr _ Hi Hc]. pass_assertions.
  apply Z.leb_gt in Hlarge as ->. rewrite Hget. next. set (q := mkLpPacket (lp_elements p) _).
  change (LpPacket_wireEncode q) with (inr (A := exn) (q, lp_element (lp_elements p))). next.
  change (el_type (lp_element (lp_elements p)) =? lp_tlv.LpPacket) with true. cbv iota.
  change (lp_elements q) with (lp_elements p). by apply Z.ltb_lt in Hroom as ->.
Qed.

Lemma fragment_loop p w hdr mtu first size count :
  let q := mkLpPacket (lp_elements p) (Some (lp_element (lp_elements p))) in
  packet_ok q -> field lp_tlv.FragIndex (lp_elements p) = None -> field lp_tlv.FragCount (lp_elements p) = None ->
  hdr = header_sizes (lp_elements p) -> u64_range mtu ->
  0 < first <= octets w -> first + hdr + MAX_FRAG_OVERHEAD <= mtu -> size = mtu - MAX_FRAG_OVERHEAD -> 0 < size ->
  1 <= count < 18446744073709551616 -> octets w <= first + (count - 1) * size ->
  (forall i, 1 <= i < count -> first + (i - 1) * size < octets w) ->
  exists frags, fill_frags (Z.to_nat count) w (Z.to_nat size) count mtu
      (q :: replicate (Z.to_nat (count - 1)) LpPacket_new) 0 0 (Z.to_nat first) = inr (frags, Z.to_nat count) /\
    fragmented p w mtu frags /\ Z.of_nat (length frags) = count.
Proof.
  intros q Hq Hi Hc Hhdr Hmtu Hf Hroom Hsize Hs Hcount Hlast Hinner.
  set (n := Z.to_nat count). set (base := fun i : nat => if (i =? 0)%nat then q else LpPacket_new).
  set (F := Z.to_nat first). set (S_ := Z.to_nat size).
  assert (octets w = Z.of_nat (length w)) as Hw by done.
  assert (forall i, (i < n)%nat -> (cut_at w F S_ i < length w)%nat) as Hin.
  { intros [|i] Hlt; cbn [cut_at]; [lia|]. specialize (Hinner (Z.of_nat (S i)) ltac:(lia)).
    replace (Z.of_nat (S i) - 1) with (Z.of_nat i) in Hinner by lia.
    assert (Z.of_nat (F + i * S_) = first + Z.of_nat i * size) by (subst F S_; rewrite Nat2Z.inj_add, Nat2Z.inj_mul; lia).
    lia. }
  assert (cut_at w F S_ n = length w) as Hla.
  { destruct n as [|k] eqn:En; [lia|]. cbn [cut_at].
    assert (Z.of_nat (F + k * S_) = first + Z.of_nat k * size) by (subst F S_; rewrite Nat2Z.inj_add, Nat2Z.inj_mul; lia).
    replace (count - 1) with (Z.of_nat k) in Hlast by lia. lia. }
  set (good := fun i f => is_fragment n i (cut_piece w F S_ i) f /\
    (exists fw, lp_wire f = Some fw /\ el_size fw <= mtu) /\ octets (wires (lp_elements f)) + 20 <= mtu /\
    forall t, other_headers t -> field t (lp_elements f) = if (i =? 0)%nat then field t (lp_elements p) else None).
  destruct (fill_frags_spec w F S_ n mtu base Hin Hla good) with (k := n) (i := O)
    (frags := q :: replicate (Z.to_nat (count - 1)) LpPacket_new) as (frags & E & Hlen & _ & Hall).
  - intros i Hlt. destruct (cut_at_le w F S_ i) as [L1 L2]. specialize (Hin i Hlt).
    assert (length (cut_piece w F S_ i) = (cut_at w F S_ (S i) - cut_at w F S_ i)%nat) as Hl
      by (unfold cut_piece; by rewrite length_slice).
    assert (cut_at w F S_ i < cut_at w F S_ (S i))%nat as Hlt'.
    { destruct (decide (S i = n)) as [->|]; [lia|]. destruct i as [|i]; cbn [cut_at] in *; lia. }
    destruct (cut_fragment_spec n i (cut_piece w F S_ i) (base i) mtu) as (f & fw & Ef & Hfrag & Hfit & Hroomf & Hw' & Hother).
    + unfold base. destruct (i =? 0)%nat; [done|apply LpPacket_new_ok].
    + unfold base. by destruct (i =? 0)%nat.
    + unfold base. by destruct (i =? 0)%nat.
    + intros Hnil%(f_equal length). rewrite Hl in Hnil. cbn [length] in Hnil. lia.
    + done.
    + lia.
    + lia.
    + unfold octets. rewrite Hl. unfold base. destruct i as [|i]; cbn [Nat.eqb].
      * cbn [q lp_elements]. rewrite <-Hhdr. cbn [cut_at]. lia.
      * change (header_sizes (lp_elements LpPacket_new)) with 0. cbn [cut_at] in *. lia.
    + exists f, fw. split; [exact Ef|]. split; [lia|]. split; [done|]. split; [eauto|]. split; [done|].
      intros t Ht. rewrite (Hother t Ht). unfold base. by destruct (i =? 0)%nat.
  - done.
  - cbn [length]. rewrite length_replicate. lia.
  - intros j _ Hj. unfold base. destruct j as [|j]; [done|]. cbn [Nat.eqb lookup list_lookup].
    apply lookup_replicate. split; [done|lia].
  - exists frags. change (cut_at w F S_ 0) with O in E.
    replace (cut_at w F S_ 1) with F in E by (cbn [cut_at]; lia).
    unfold n in E. rewrite Z2Nat.id in E by lia. split; [exact E|]. split; [|lia].
    split; [lia|]. exists (cut_piece w F S_ <$> seq 0 n). rewrite Hlen. split_and!.
    + rewrite cut_pieces, Hla. by apply take_ge.
    + by rewrite length_fmap, length_seq.
    + intros i Hlt. destruct (Hall i ltac:(lia) Hlt) as (f & Ef & Hfr & (fw & Hfw & Hfit) & Hrf & Ho).
      exists f, (cut_piece w F S_ i), fw. split_and!; [done| |done..].
      rewrite list_lookup_fmap, lookup_seq_lt by done. done.
Qed.

Lemma fragmentPacket_large nMax p w hops mtu :
  whole p w hops -> w <> [] -> u64_range mtu -> u64_range nMax ->
  mtu < MAX_SINGLE_FRAG_OVERHEAD + el_size (lp_element (lp_elements p)) ->
  MAX_FRAG_OVERHEAD + header_sizes (lp_elements p) + 1 <= mtu ->
  fragmentPacket nMax p mtu = inr None \/
  exists frags, fragmentPacket nMax p mtu = inr (Some frags) /\ fragmented p w mtu frags /\
    Z.of_nat (length frags) <= nMax.
Proof.
  intros Hwh Hne Hmtu Hmax Hlarge Hroom. destruct (whole_encode _ _ _ Hwh) as (Henc & _).
  destruct (whole_payload _ _ _ Hwh Hne) as [Hwr Hget]. pose proof Hwh as [Hp _ _ _ Hfr Hh Hi Hc].
  pass_assertions.
  destruct (Z.leb_spec (MAX_SINGLE_FRAG_OVERHEAD + el_size (lp_element (lp_elements p))) mtu); [lia|].
  rewrite Hget. next. set (q := mkLpPacket (lp_elements p) (Some (lp_element (lp_elements p)))).
  change (LpPacket_wireEncode q) with (inr (A := exn) (q, lp_element (lp_elements p))). next.
  change (el_type (lp_element (lp_elements p)) =? lp_tlv.LpPacket) with true. cbv iota.
  change (lp_elements q) with (lp_elements p). set (hdr := header_sizes (lp_elements p)) in *.
  destruct (Z.ltb_spec mtu (MAX_FRAG_OVERHEAD + hdr + 1)); [lia|].
  pose proof (header_sizes_nonneg (lp_elements p)) as Hhdr. fold hdr in Hhdr.
  assert (0 < octets w) as Hpos by (unfold octets; destruct w; [done|cbn; lia]).
  set (first := Z.min (octets w) (mtu - hdr - MAX_FRAG_OVERHEAD)).
  set (size := mtu - MAX_FRAG_OVERHEAD).
  destruct (fragment_count (octets w) first size) as (H1 & H2 & H3); [subst first; lia|subst size; lia|].
  set (count := 1 + _ + _) in *. destruct (Z.ltb_spec nMax count); [by left|right].
  destruct (fragment_loop p w hdr mtu first size count) as (frags & E & Hfrags & Hlen); try done.
  - destruct Hp as [A B C _]. split; [done..|]. intros x [= <-]. split_and!; [|done|done].
    apply element_tv_ok; [done|]. destruct Hwh as [_ _ Hsz _ _ _ _ _]. cbn.
    pose proof (octets_nonneg (wires (lp_elements p))). unfold u64_range. lia.
  - subst first. lia.
  - subst first. lia.
  - subst size. lia.
  - unfold u64_range in *. lia.
  - fold q in E. rewrite E. next. rewrite Z2Nat.id by lia. rewrite Z.eqb_refl.
    exists frags. split; [done|]. split; [done|]. lia.
Qed.

(** ** Properties *)

(** [fragmentPacket] of a packet with a fragment never throws and fails no assertion.
    A packet that fits the MTU together with a sequence number is sent as it is.  If the
    MTU has no room for the headers and one octet there are no fragments; otherwise there
    is no more than the limit of them, or none.  They are numbered in order, none is empty,
    their octets are the octets of the packet, each is encoded, fits the MTU and leaves
    room for a sequence number; the first has the other headers of the packet and the rest
    have no others. *)
Theorem fragmentPacket_spec nMax p w hops mtu :
  whole p w hops -> w <> [] -> u64_range mtu -> u64_range nMax ->
  let tp := lp_element (lp_elements p) in
  let room := MAX_FRAG_OVERHEAD + header_sizes (lp_elements p) + 1 in
  (MAX_SINGLE_FRAG_OVERHEAD + el_size tp <= mtu ->
     fragmentPacket nMax p mtu = inr (Some [mkLpPacket (lp_elements p) (Some tp)])) /\
  (mtu < MAX_SINGLE_FRAG_OVERHEAD + el_size tp -> mtu < room -> fragmentPacket nMax p mtu = inr None) /\
  (mtu < MAX_SINGLE_FRAG_OVERHEAD + el_size tp -> room <= mtu ->
     fragmentPacket nMax p mtu = inr None \/
     exists frags, fragmentPacket nMax p mtu = inr (Some frags) /\ fragmented p w mtu frags /\
       Z.of_nat (length frags) <= nMax).
Proof.
  intros Hwh Hne Hmtu Hmax tp room. split; [by apply (fragmentPacket_small _ _ w hops)|]. split.
  - by apply (fragmentPacket_no_room _ _ w hops).
  - by apply (fragmentPacket_large _ _ w hops).
Qed.

(** ** Example *)

(** An Interest of 65 octets with a hop count. *)
Definition demo_whole : LpPacket := (lp_add HopCountTagField 3 demo_bare).1.

Lemma demo_whole_ok : whole demo_whole (el_wire demo_net) 3.
Proof.
  destruct (applied_add HopCountTagField 3 demo_bare demo_bare_ok) as (p & E & K & W & _ & F); [done|done|].
  assert (demo_whole = p) as ->.
  { unfold demo_whole, applied in *. destruct (lp_add HopCountTagField 3 demo_bare) as [q [|]]; [done|]. by injection E as ->. }
  split; [exact K|exact W| |done|by rewrite F|by rewrite F|by rewrite F|by rewrite F].
  assert (p = demo_whole) as ->.
  { unfold demo_whole, applied in *. destruct (lp_add HopCountTagField 3 demo_bare) as [q [|]]; [done|]. by injection E as ->. }
  by vm_compute.
Qed.

Lemma demo_fragments :
  exists frags, fragmentPacket 400 demo_whole 80 = inr (Some frags) /\ length frags = 3%nat.
Proof. eexists. split; [vm_compute; reflexivity|reflexivity]. Qed.

Lemma fragmentPacket_spec_witness :
  exists frags, fragmentPacket 400 demo_whole 80 = inr (Some frags) /\ length frags = 3%nat /\
    fragmented demo_whole (el_wire demo_net) 80 frags.
Proof.
  destruct (fragmentPacket_spec 400 demo_whole (el_wire demo_net) 3 80 demo_whole_ok) as (_ & _ & H);
    [done|by vm_compute|done|].
  destruct demo_fragments as (frags' & E' & Hl). destruct H as [E|(frags & E & Hf & _)];
    [by vm_compute|by vm_compute|rewrite E' in E; discriminate E|].
  exists frags. split; [exact E|]. split; [|exact Hf]. rewrite E' in E. injection E as <-. exact Hl.
Defined.
