(* ===== verification/Simulator.v ===== *)
(** * Simulator: simulated time and the event list

    Sources: [src/src/core/model/default-simulator-impl.cc], [map-scheduler.cc],
    [scheduler.h], [event-impl.cc] and [src/src/ndnSIM/utils/ndn-time.cpp].  An
    event is a value of the client's event type [E] instead of a bound member
    function; running it is the client's dispatch function.  One simulated node
    runs in one context, so the context field of an event key is left out. *)
From S2P Require Import Prelude.

(** Times are [ns3::Time] counts in nanoseconds, an [int64_t]. *)
Definition Seconds0 : Z := 0.
Definition MicroSeconds (us : Z) : Z := i64 (us * 1000).
Definition MilliSeconds (ms : Z) : Z := i64 (ms * 1000000).

(** [EventId]: the key of the scheduled event. *)
Record EventId := mkEventId { id_ts : Z; id_uid : Z }.

#[export] Instance EventId_eq_dec : EqDecision EventId.
Proof. solve_decision. Defined.

(** What a component needs from the simulator: the clock, scheduling and
    cancelling.  [pending w id e] says that [e] is queued under [id] and has not
    been cancelled. *)
Class Scheduler (W E : Type) := {
  sim_now : W -> Z;
  sim_schedule : Z -> E -> W -> W * EventId;
  sim_cancel : EventId -> W -> W;
  pending : W -> EventId -> E -> Prop
}.

Class SchedulerLaws (W E : Type) `{!Scheduler W E} : Prop := {
  now_schedule d (e : E) (w : W) : sim_now (sim_schedule d e w).1 = sim_now w;
  now_cancel id (w : W) : sim_now (sim_cancel id w) = sim_now w;
  pending_schedule d (e : E) (w : W) id (e' : E) :
    pending (sim_schedule d e w).1 id e' <->
    (id = (sim_schedule d e w).2 /\ e' = e) \/ pending w id e';
  pending_cancel id (w : W) id' (e : E) :
    pending (sim_cancel id w) id' e -> pending w id' e
}.

Arguments sim_now {W} E {_} w : rename.

(** A component [S] of the world that scheduling does not touch. *)
Class SchedulerFrame (W S E : Type) `{!Lens W S, !Scheduler W E} : Prop := {
  view_schedule d (e : E) (w : W) : view (sim_schedule d e w).1 = view (S := S) w;
  view_cancel id (w : W) : view (sim_cancel (E := E) id w) = view (S := S) w;
  now_put (s : S) (w : W) : sim_now E (put s w) = sim_now E w;
  pending_put (s : S) (w : W) id (e : E) : pending (put s w) id e <-> pending w id e
}.

(** What a client can ask about an event it scheduled: [EventId::IsRunning], and
    [Simulator::Remove], which takes the event out of the list at once. *)
Class EventList (W : Type) := {
  IsRunning : EventId -> W -> bool;
  sim_remove : EventId -> W -> W
}.

(** An [EventId] that was never assigned is expired. *)
Definition is_running {W} `{!EventList W} (id : option EventId) (w : W) : bool :=
  match id with Some id => IsRunning id w | None => false end.

(** The ndn-cxx steady clock ndnSIM installs reads the simulated time. *)
Definition StateClock_now {W} E `{!Scheduler W E} (w : W) : Z := sim_now E w.

Definition TimePoint_max : Z := INT64_MAX.

(** ** [DefaultSimulatorImpl] over a [MapScheduler] *)
Section simulator.
Context {E : Type}.

(** One entry of the event list: its key, the event and its cancel flag. *)
Record Event := mkEvent {
  key_ts : Z;
  key_uid : Z;
  ev_impl : E;
  ev_cancel : bool
}.

Record Sim := mkSim {
  m_currentTs : Z;
  m_currentUid : Z;
  m_uid : Z;
  m_events : list Event;
  m_stop : bool
}.

(** [operator< (EventKey, EventKey)]: time first, then scheduling order. *)
Definition key_ltb (ts uid ts' uid' : Z) : bool :=
  (ts <? ts') || ((ts =? ts') && (uid <? uid')).

Definition event_ltb (a b : Event) : bool :=
  key_ltb (key_ts a) (key_uid a) (key_ts b) (key_uid b).

(** [MapScheduler::Insert] into the ordered map. *)
Fixpoint map_insert (ev : Event) (l : list Event) : list Event :=
  match l with
  | [] => [ev]
  | e :: l' => if event_ltb e ev then e :: map_insert ev l' else ev :: l
  end.

Definition sim_init : Sim := mkSim 0 0 4 [] false.

(** [DefaultSimulatorImpl::Schedule]: uids are a [uint32_t]. *)
Definition Schedule (delay : Z) (e : E) (s : Sim) : Sim * EventId :=
  let tAbsolute := i64 (delay + m_currentTs s) in
  let ev := mkEvent (u64 tAbsolute) (m_uid s) e false in
  (mkSim (m_currentTs s) (m_currentUid s) (u32 (m_uid s + 1))
     (map_insert ev (m_events s)) (m_stop s),
   mkEventId (u64 tAbsolute) (m_uid s)).

(** [DefaultSimulatorImpl::ScheduleNow]. *)
Definition ScheduleNow (e : E) (s : Sim) : Sim * EventId :=
  let ev := mkEvent (u64 (m_currentTs s)) (m_uid s) e false in
  (mkSim (m_currentTs s) (m_currentUid s) (u32 (m_uid s + 1))
     (map_insert ev (m_events s)) (m_stop s),
   mkEventId (u64 (m_currentTs s)) (m_uid s)).

Definition has_id (id : EventId) (ev : Event) : bool :=
  (key_ts ev =? id_ts id) && (key_uid ev =? id_uid id).

(** [DefaultSimulatorImpl::IsExpired], for the events the queue can hold. *)
Definition IsExpired (id : EventId) (s : Sim) : bool :=
  (id_ts id <? m_currentTs s)
  || ((id_ts id =? m_currentTs s) && (id_uid id <=? m_currentUid s))
  || forallb (fun ev => negb (has_id id ev) || ev_cancel ev) (m_events s).

Definition cancel_event (id : EventId) (ev : Event) : Event :=
  if has_id id ev then mkEvent (key_ts ev) (key_uid ev) (ev_impl ev) true else ev.

Definition Cancel (id : EventId) (s : Sim) : Sim :=
  if IsExpired id s then s
  else mkSim (m_currentTs s) (m_currentUid s) (m_uid s)
         (map (cancel_event id) (m_events s)) (m_stop s).

(** [DefaultSimulatorImpl::Remove], for other than destroy events. *)
Definition Remove (id : EventId) (s : Sim) : Sim :=
  if IsExpired id s then s
  else mkSim (m_currentTs s) (m_currentUid s) (m_uid s)
         (List.filter (fun ev => negb (has_id id ev)) (m_events s)) (m_stop s).

(** [ProcessOneEvent] up to the invocation: remove the first event, move the
    clock to it, and return the event unless it was cancelled. *)
Definition RemoveNext (s : Sim) : option (Sim * option E) :=
  match m_events s with
  | [] => None
  | ev :: l =>
      Some (mkSim (key_ts ev) (key_uid ev) (m_uid s) l (m_stop s),
            if ev_cancel ev then None else Some (ev_impl ev))
  end.

Definition Stop (s : Sim) : Sim :=
  mkSim (m_currentTs s) (m_currentUid s) (m_uid s) (m_events s) true.

(** [m_stop = false] at the start of [Run]. *)
Definition Start (s : Sim) : Sim :=
  mkSim (m_currentTs s) (m_currentUid s) (m_uid s) (m_events s) false.

Definition IsFinished (s : Sim) : bool :=
  match m_events s with [] => true | _ => m_stop s end.

(** The queued, uncancelled events. *)
Definition queued (s : Sim) (id : EventId) (e : E) : Prop :=
  mkEvent (id_ts id) (id_uid id) e false ∈ m_events s.

(** *** Order of the event list *)
Definition event_le (a b : Event) : Prop := event_ltb b a = false.

(** The list is ordered and nothing is scheduled in the past. *)
Definition sim_ordered (s : Sim) : Prop :=
  StronglySorted event_le (m_events s) /\
  Forall (fun ev => m_currentTs s <= key_ts ev) (m_events s).

Lemma event_ltb_spec a b :
  event_ltb a b = true <->
  key_ts a < key_ts b \/ (key_ts a = key_ts b /\ key_uid a < key_uid b).
Proof.
  unfold event_ltb, key_ltb. rewrite orb_true_iff, andb_true_iff, !Z.ltb_lt, Z.eqb_eq. done.
Qed.

Lemma event_le_spec a b :
  event_le a b <->
  key_ts a < key_ts b \/ (key_ts a = key_ts b /\ key_uid a <= key_uid b).
Proof.
  unfold event_le. rewrite <-not_true_iff_false, event_ltb_spec. lia.
Qed.

Lemma map_insert_perm ev l : map_insert ev l ≡ₚ ev :: l.
Proof.
  induction l as [|e l IH]; simpl; [done|]. destruct (event_ltb e ev); [|done].
  rewrite IH. constructor.
Qed.

Lemma map_insert_sorted ev l :
  StronglySorted event_le l -> StronglySorted event_le (map_insert ev l).
Proof.
  induction 1 as [|e l Hl IH He]; simpl; [by repeat constructor|].
  destruct (event_ltb e ev) eqn:F.
  - constructor; [done|]. rewrite map_insert_perm. constructor; [|done].
    apply event_ltb_spec in F. apply event_le_spec. lia.
  - constructor; [by constructor|]. constructor; [done|].
    eapply Forall_impl; [exact He|]. intros x Hx. apply event_le_spec in Hx.
    assert (event_le ev e) as F' by done. apply event_le_spec in F'.
    apply event_le_spec. lia.
Qed.

Lemma queued_Schedule d e s id e' :
  queued (Schedule d e s).1 id e' <->
  (id = (Schedule d e s).2 /\ e' = e) \/ queued s id e'.
Proof.
  unfold queued, Schedule. cbn [fst snd m_events]. rewrite map_insert_perm, elem_of_cons.
  destruct id as [ts uid]; simpl. split.
  - intros [[= -> -> ->]|H]; auto.
  - intros [[[= -> ->] ->]|H]; auto.
Qed.

Lemma queued_Cancel id s id' e : queued (Cancel id s) id' e -> queued s id' e.
Proof.
  unfold queued, Cancel. destruct (IsExpired id s); [done|]. cbn [m_events].
  rewrite list_elem_of_fmap. intros [ev [Heq Hin]]. unfold cancel_event in Heq.
  destruct (has_id id ev); [done|]. by rewrite Heq.
Qed.

(** A cancelled id has no live event left in the queue. *)
Lemma Cancel_not_queued id s e :
  IsExpired id s = false -> ~ queued (Cancel id s) id e.
Proof.
  unfold queued, Cancel. intros ->. cbn [m_events].
  rewrite list_elem_of_fmap. intros [ev [Heq Hin]]. unfold cancel_event in Heq.
  destruct (has_id id ev) eqn:F; [done|]. rewrite <-Heq in F. unfold has_id in F.
  simpl in F. by rewrite !Z.eqb_refl in F.
Qed.

Lemma queued_Cancel_other id s id' e : id' <> id -> queued s id' e -> queued (Cancel id s) id' e.
Proof.
  unfold queued, Cancel. intros Hne Hq. destruct (IsExpired id s); [done|]. cbn [m_events].
  apply list_elem_of_fmap. eexists. split; [|exact Hq]. unfold cancel_event, has_id. cbn.
  destruct (Z.eqb_spec (id_ts id') (id_ts id)), (Z.eqb_spec (id_uid id') (id_uid id)); try done.
  destruct Hne. destruct id, id'. cbn in *. congruence.
Qed.

(** What is queued for later is running. *)
Lemma queued_running id s e : queued s id e -> m_currentTs s < id_ts id -> IsExpired id s = false.
Proof.
  intros Hq Hts. unfold IsExpired. rewrite (proj2 (Z.ltb_ge _ _)), (proj2 (Z.eqb_neq _ _)) by lia.
  cbn. apply not_true_is_false. intros H. rewrite forallb_forall in H.
  apply list_elem_of_In in Hq. specialize (H _ Hq). unfold has_id in H. cbn in H.
  by rewrite !Z.eqb_refl in H.
Qed.

(** What is running is queued. *)
Lemma running_queued id s : IsExpired id s = false -> exists e, queued s id e.
Proof.
  unfold IsExpired, queued. rewrite !orb_false_iff. intros [_ H].
  apply not_true_iff_false in H. rewrite forallb_forall in H.
  destruct (decide (Exists (fun ev => has_id id ev && negb (ev_cancel ev) = true) (m_events s)))
    as [Hex|Hno].
  - apply Exists_exists in Hex as (ev & Hin & Hev). apply andb_prop in Hev as [Hid Hc].
    apply andb_prop in Hid as [H1 H2]. apply Z.eqb_eq in H1, H2. exists (ev_impl ev).
    destruct ev as [ts uid e []], id as [ts' uid']; cbn in *; [done|by subst].
  - destruct H. intros ev Hin. apply list_elem_of_In in Hin.
    destruct (has_id id ev) eqn:E1; [|done]. destruct (ev_cancel ev) eqn:E2; [done|].
    destruct Hno. apply Exists_exists. exists ev. by rewrite E1, E2.
Qed.

(** What was queued is still queued, or is the event taken. *)
Lemma queued_RemoveNext s s' oe id e :
  RemoveNext s = Some (s', oe) -> queued s id e ->
  queued s' id e \/ (oe = Some e /\ m_currentTs s' = id_ts id).
Proof.
  unfold RemoveNext, queued. destruct (m_events s) as [|ev l]; [done|]. intros [= <- <-].
  rewrite elem_of_cons. intros [<-|H]; [by right|by left].
Qed.

Lemma queued_after_RemoveNext s s' oe id e :
  RemoveNext s = Some (s', oe) -> queued s' id e -> queued s id e.
Proof.
  unfold RemoveNext, queued. destruct (m_events s) as [|ev l]; [done|]. intros [= <- <-].
  rewrite elem_of_cons. by right.
Qed.

(** The event taken was queued at its time. *)
Lemma RemoveNext_queued s s' e :
  RemoveNext s = Some (s', Some e) ->
  exists id, queued s id e /\ m_currentTs s' = id_ts id.
Proof.
  unfold RemoveNext, queued. destruct (m_events s) as [|ev l]; [done|].
  destruct ev as [ts uid e' []]; cbn; [done|]. intros [= <- ->].
  exists (mkEventId ts uid). by split; [left|].
Qed.

(** Nothing is queued before the event taken. *)
Lemma RemoveNext_first s s' oe id e :
  RemoveNext s = Some (s', oe) -> sim_ordered s -> queued s id e -> m_currentTs s' <= id_ts id.
Proof.
  unfold RemoveNext, queued, sim_ordered. destruct (m_events s) as [|ev l]; [done|].
  intros [= <- <-] [Hs _]. rewrite elem_of_cons. cbn. intros [<-|Hin]; [done|].
  apply StronglySorted_cons in Hs as [Hev _]. rewrite Forall_forall in Hev.
  apply Hev, event_le_spec in Hin. cbn in Hin. lia.
Qed.

Lemma queued_ScheduleNow e s id e' :
  queued (ScheduleNow e s).1 id e' <->
  (id = (ScheduleNow e s).2 /\ e' = e) \/ queued s id e'.
Proof.
  unfold queued, ScheduleNow. cbn [fst snd m_events]. rewrite map_insert_perm, elem_of_cons.
  destruct id as [ts uid]; simpl. split.
  - intros [[= -> -> ->]|H]; auto.
  - intros [[[= -> ->] ->]|H]; auto.
Qed.

Lemma sim_ordered_ScheduleNow e s :
  0 <= m_currentTs s <= INT64_MAX -> sim_ordered s -> sim_ordered (ScheduleNow e s).1.
Proof.
  unfold INT64_MAX. intros Hn [Hs Hf]. unfold ScheduleNow.
  split; cbn [fst m_events m_currentTs].
  - by apply map_insert_sorted.
  - rewrite map_insert_perm. constructor; [|done]. simpl.
    rewrite u64_id; [lia|unfold u64_range; lia].
Qed.

Lemma sim_ordered_Schedule d e s :
  0 <= d -> 0 <= m_currentTs s -> d + m_currentTs s <= INT64_MAX ->
  sim_ordered s -> sim_ordered (Schedule d e s).1.
Proof.
  unfold INT64_MAX. intros Hd Hn Hmax [Hs Hf]. unfold Schedule.
  split; cbn [fst m_events m_currentTs].
  - by apply map_insert_sorted.
  - rewrite map_insert_perm. constructor; [|done]. simpl.
    rewrite i64_id, u64_id; [lia|unfold u64_range; lia|unfold i64_range; lia].
Qed.

Lemma Schedule_spec d e s s' id :
  Schedule d e s = (s', id) ->
  0 <= d -> 0 <= m_currentTs s -> d + m_currentTs s <= INT64_MAX -> 0 <= m_uid s < 4294967295 ->
  id = mkEventId (d + m_currentTs s) (m_uid s) /\
  m_currentTs s' = m_currentTs s /\ m_uid s' = m_uid s + 1 /\
  (sim_ordered s -> sim_ordered s') /\
  (forall i e', queued s' i e' <-> (i = id /\ e' = e) \/ queued s i e').
Proof.
  intros Es Hd Hn Hmax Hu. pose proof (sim_ordered_Schedule d e s Hd Hn Hmax) as Ho.
  pose proof (queued_Schedule d e s) as Hq. rewrite Es in Ho, Hq. cbn [fst snd] in Ho, Hq.
  unfold INT64_MAX in Hmax. unfold Schedule in Es.
  rewrite i64_id, u64_id, u32_id in Es by (unfold i64_range, u64_range, u32_range; lia).
  injection Es as <- <-. by split_and!.
Qed.

Lemma sim_ordered_Cancel id s : sim_ordered s -> sim_ordered (Cancel id s).
Proof.
  unfold sim_ordered, Cancel. destruct (IsExpired id s); [done|]. cbn [m_events m_currentTs].
  intros [Hs Hf]. split.
  - induction Hs as [|ev l Hl IH He]; simpl; constructor.
    + apply IH. by apply Forall_cons in Hf as [_ ?].
    + rewrite Forall_map. eapply Forall_impl; [exact He|]. intros x Hx. simpl.
      apply event_le_spec in Hx. apply event_le_spec.
      unfold cancel_event. by repeat case_match.
  - rewrite Forall_map. eapply Forall_impl; [exact Hf|]. intros x Hx. simpl.
    unfold cancel_event. by case_match.
Qed.

Lemma sim_ordered_RemoveNext s s' oe :
  RemoveNext s = Some (s', oe) -> sim_ordered s ->
  sim_ordered s' /\ m_currentTs s <= m_currentTs s'.
Proof.
  unfold RemoveNext, sim_ordered. destruct (m_events s) as [|ev l]; [done|].
  intros [= <- <-] [Hs Hf]. simpl. apply StronglySorted_cons in Hs as [Hev Hl].
  apply Forall_cons in Hf as [Hts Hf]. repeat split; [done| |done].
  eapply Forall_impl; [exact Hev|]. intros x Hx. apply event_le_spec in Hx. lia.
Qed.
End simulator.

Arguments Event : clear implicits.
Arguments Sim : clear implicits.

#[export] Instance Sim_scheduler E : Scheduler (Sim E) E := {
  sim_now := m_currentTs;
  sim_schedule := Schedule;
  sim_cancel := Cancel;
  pending := queued
}.

#[export] Instance Sim_event_list E : EventList (Sim E) := {
  IsRunning := fun id s => negb (IsExpired id s);
  sim_remove := Remove
}.

#[export] Instance Sim_scheduler_laws E : SchedulerLaws (Sim E) E.
Proof.
  split.
  - done.
  - intros id w. simpl. unfold Cancel. by case_match.
  - apply queued_Schedule.
  - apply queued_Cancel.
Qed.

(** *** A simulator next to the state of a program *)
Section product.
Context {E S : Type}.

#[export] Instance sim_lens : Lens (Sim E * S) (Sim E) := {
  view := fst;
  put := fun s w => (s, w.2)
}.

#[export] Instance state_lens : Lens (Sim E * S) S := {
  view := snd;
  put := fun s w => (w.1, s)
}.

#[export] Instance state_lens_laws : LensLaws (Sim E * S) S.
Proof. split; [done|by intros []|done]. Qed.

#[export] Instance product_scheduler : Scheduler (Sim E * S) E := {
  sim_now := fun w => m_currentTs w.1;
  sim_schedule := fun d e w =>
    let '(s, id) := Schedule d e w.1 in ((s, w.2), id);
  sim_cancel := fun id w => (Cancel id w.1, w.2);
  pending := fun w id e => queued w.1 id e
}.

#[export] Instance product_scheduler_laws : SchedulerLaws (Sim E * S) E.
Proof.
  split.
  - done.
  - intros id w. cbn. unfold Cancel. by case_match.
  - intros d e w. apply queued_Schedule.
  - intros id w. apply queued_Cancel.
Qed.

#[export] Instance product_frame : SchedulerFrame (Sim E * S) S E.
Proof. by split. Qed.
End product.

(** ** The event loop

    [ProcessOneEvent] and [Run] for a world [W] that contains the simulator and
    whose events are run by [dispatch].  [Run] takes fuel: the number of events
    it may process; an exception leaves the loop. *)
Section run.
Context {W E : Type} `{!Lens W (Sim E)} (dispatch : E -> M W unit).

Definition ProcessOneEvent : M W unit :=
  s ← gets view;
  match RemoveNext s with
  | None => mret tt
  | Some (s', oe) =>
      modify (put s');;
      match oe with
      | None => mret tt
      | Some e => dispatch e
      end
  end.

Fixpoint Run_loop (fuel : nat) : M W unit :=
  match fuel with
  | O => mret tt
  | S fuel =>
      s ← gets view;
      if IsFinished s then mret tt else ProcessOneEvent;; Run_loop fuel
  end.

Definition Run (fuel : nat) : M W unit := modify (over Start);; Run_loop fuel.

Lemma preserves_ProcessOneEvent (I : W -> Prop) :
  (forall w s' oe, I w -> RemoveNext (view w) = Some (s', oe) -> I (put s' w)) ->
  (forall e, preserves I (dispatch e)) ->
  preserves I ProcessOneEvent.
Proof.
  intros Hpop Hd w Hw. unfold ProcessOneEvent. run_simpl.
  destruct (RemoveNext (view w)) as [[s' [e|]]|] eqn:E1; cbn; [|eauto|done].
  apply Hd. eauto.
Qed.

Lemma preserves_Run (I : W -> Prop) fuel :
  (forall w s' oe, I w -> RemoveNext (view w) = Some (s', oe) -> I (put s' w)) ->
  (forall e, preserves I (dispatch e)) ->
  (forall w, I w -> I (over Start w)) ->
  preserves I (Run fuel).
Proof.
  intros Hpop Hd Hstart. unfold Run.
  apply preserves_bind; [by apply preserves_modify|intros _].
  induction fuel as [|fuel IH]; cbn [Run_loop]; [apply preserves_ret|].
  apply preserves_bind; [apply preserves_gets|]. intros s.
  destruct (IsFinished s); [apply preserves_ret|].
  apply preserves_bind; [by apply preserves_ProcessOneEvent|done].
Qed.
End run.

(** ** Properties *)

(** The event loop takes events in time order, and in scheduling order at
    one time: the event removed is at or before every event left in the list,
    the clock moves to its time and never backwards, and the list stays ordered. *)
Theorem event_order {E} (s s' : Sim E) (oe : option E) :
  sim_ordered s -> RemoveNext s = Some (s', oe) ->
  m_currentTs s <= m_currentTs s' /\ sim_ordered s' /\
  exists ev, m_events s = ev :: m_events s' /\ m_currentTs s' = key_ts ev /\
    m_currentUid s' = key_uid ev /\ Forall (event_le ev) (m_events s') /\
    oe = (if ev_cancel ev then None else Some (ev_impl ev)).
Proof.
  intros Hs Hr. destruct (sim_ordered_RemoveNext s s' oe Hr Hs) as [Ho Hle].
  split_and!; [done..|]. unfold RemoveNext in Hr.
  destruct Hs as [Hs _]. destruct (m_events s) as [|ev l] eqn:El; [done|].
  injection Hr as <- <-. exists ev. apply StronglySorted_cons in Hs as [Hev _].
  split_and!; done.
Qed.

Lemma event_order_witness :
  let s := (Schedule 5 true (Schedule 7 false sim_init).1).1 in
  exists ev, m_events s = ev :: m_events (mkSim 5 5 6 (tail (m_events s)) false) /\
    key_ts ev = 5.
Proof.
  intros s.
  destruct (event_order s (mkSim 5 5 6 (tail (m_events s)) false) (Some true))
    as (_ & _ & ev & H1 & H2 & _).
  - apply sim_ordered_Schedule; [lia|vm_compute; discriminate|vm_compute; discriminate|].
    apply sim_ordered_Schedule; [lia|vm_compute; discriminate|vm_compute; discriminate|].
    split; constructor.
  - vm_compute. reflexivity.
  - exists ev. split; [exact H1|]. symmetry. exact H2.
Defined.
