(* ===== verification/LpReassembler.v ===== *)
(** * LpReassembler: putting the fragments of a network packet together

    Source: [src/src/ndnSIM/NFD/daemon/face/lp-reassembler.{hpp,cpp}], with the timers of
    [NFD/core/scheduler.cpp], which ndnSIM maps to events of the simulator.  The reassembler
    runs next to the simulator; the event of its timer is a parameter. *)
From S2P Require Import Prelude Tlv Encoder Block BlockSpec Names NameWire Exclude WireFormat LpPacket LpFragmenter Simulator.

(** Endpoint and message identifier. *)
Definition Key : Type := Z * Z.

Record PartialPacket := mkPartialPacket {
  pp_fragments : list LpPacket;
  pp_fragCount : Z;
  pp_nReceivedFragments : Z;
  pp_dropTimer : option EventId
}.

(** A value-initialised structure. *)
Definition PartialPacket_new : PartialPacket := mkPartialPacket [] 0 0 None.

Record LpReassembler := mkLpReassembler {
  r_nMaxFragments : Z;
  r_reassemblyTimeout : Z;               (** nanoseconds *)
  r_partialPackets : gmap Key PartialPacket
}.

Definition LpReassembler_new : LpReassembler := mkLpReassembler DEFAULT_MAX_FRAGMENTS 500000000 ∅.

Section reassembler.
Context {E : Type} (timeoutPartialPacket_event : Key -> E).
Abbreviation world := (Sim E * LpReassembler)%type.

Definition partial_packets : M world (gmap Key PartialPacket) := gets (fun w => r_partialPackets w.2).
Definition set_partial_packets (m : gmap Key PartialPacket) : M world unit :=
  modify (fun w => (w.1, mkLpReassembler (r_nMaxFragments w.2) (r_reassemblyTimeout w.2) m)).
Definition put_partial (key : Key) (pp : PartialPacket) : M world unit :=
  m ← partial_packets; set_partial_packets (<[key := pp]> m).

(** [scheduler::cancel], which removes the event. *)
Definition scheduler_cancel (id : option EventId) : M world unit :=
  match id with
  | Some id => modify (fun w => (Remove id w.1, w.2))
  | None => mret tt
  end.

(** Erasing an entry destroys its timer, which cancels the event. *)
Definition erase_partial (key : Key) : M world unit :=
  m ← partial_packets;
  scheduler_cancel (m !! key ≫= pp_dropTimer);;
  set_partial_packets (delete key m).

Fixpoint fragment_payloads (fragments : list LpPacket) : exn + list byte :=
  match fragments with
  | [] => mret []
  | frag :: fragments =>
      bytes ← lp_get FragmentField 0 frag;
      rest ← fragment_payloads fragments;
      mret (bytes ++ rest)
  end.

Definition doReassembly (pp : PartialPacket) : exn + Block :=
  fragBuffer ← fragment_payloads (pp_fragments pp);
  Block_of_memory fragBuffer.

(** What a field says, or a default if it is absent. *)
Definition get_or (F : FieldDecl Z) (default_ : Z) (packet : LpPacket) : exn + Z :=
  if lp_has F packet then lp_get F 0 packet else mret default_.

(** [None] stands for [FALSE_RETURN]. *)
Definition receiveFragment (remoteEndpoint : Z) (packet : LpPacket)
    : M world (option (Block * LpPacket)) :=
  lift_result (boost_assert (lp_has FragmentField packet) "packet.has<lp::FragmentField>()");;
  fragIndex ← lift_result (get_or FragIndexField 0 packet);
  fragCount ← lift_result (get_or FragCountField 1 packet);
  if fragCount <=? fragIndex then mret None else
  nMax ← gets (fun w => r_nMaxFragments w.2);
  if nMax <? fragCount then mret None else
  if (fragIndex =? 0) && (fragCount =? 1) then
    bytes ← lift_result (lp_get FragmentField 0 packet);
    netPkt ← lift_result (Block_of_memory bytes);
    mret (Some (netPkt, packet))
  else if negb (lp_has SequenceField packet) then mret None else
  sequence ← lift_result (lp_get SequenceField 0 packet);
  let key : Key := (remoteEndpoint, u64 (sequence - fragIndex)) in
  m ← partial_packets;
  let pp := default PartialPacket_new (m !! key) in
  let is_new := pp_fragCount pp =? 0 in
  let pp := if is_new
            then mkPartialPacket (replicate (Z.to_nat fragCount) LpPacket_new) fragCount 0 (pp_dropTimer pp)
            else pp in
  put_partial key pp;;
  if negb (fragCount =? pp_fragCount pp) then mret None else
  match pp_fragments pp !! Z.to_nat fragIndex with
  | None => throw (Undefined "pp.fragments[fragIndex]")
  | Some old =>
      if lp_has SequenceField old then mret None else
      let pp := mkPartialPacket (<[Z.to_nat fragIndex := packet]> (pp_fragments pp)) (pp_fragCount pp)
                  (u64 (pp_nReceivedFragments pp + 1)) (pp_dropTimer pp) in
      put_partial key pp;;
      if pp_nReceivedFragments pp =? pp_fragCount pp then
        reassembled ← lift_result (doReassembly pp);
        erase_partial key;;
        mret (Some (reassembled, default LpPacket_new (head (pp_fragments pp))))
      else
        timeout ← gets (fun w => r_reassemblyTimeout w.2);
        id ← action (fun w =>
               let '(s, id) := Schedule timeout (timeoutPartialPacket_event key) w.1 in ((s, w.2), id));
        scheduler_cancel (pp_dropTimer pp);;
        put_partial key (mkPartialPacket (pp_fragments pp) (pp_fragCount pp)
                           (pp_nReceivedFragments pp) (Some id));;
        mret None
  end.

(** The number of fragments that [beforeTimeout] is told, if there still is an entry. *)
Definition timeoutPartialPacket (key : Key) : M world (option Z) :=
  m ← partial_packets;
  match m !! key with
  | None => mret None
  | Some pp => erase_partial key;; mret (Some (pp_nReceivedFragments pp))
  end.
End reassembler.
