(* ===== verification/PacketHeader.v ===== *)
(** * PacketHeader: the 12-byte simulation header

    Source: [src/src/ndnSIM/statim/packet-header.{hpp,cpp}].  A buffer iterator is
    the list of bytes from its position to the end of the ns-3 buffer. *)
From S2P Require Import Prelude Tlv Names.

Definition STATIM_NAME_HASH_COUNT : nat := 4.

(** [enum class PacketType : uint8_t].  A header can hold any octet in its type
    field ([Deserialize] stores the octet before it checks it), so the field is a
    number and these are its named values. *)
Definition UNPROCESSED : Z := 0x00.
Definition INTEREST : Z := 0x01.
Definition DATA : Z := 0x02.
Definition CONTROL : Z := 0x03.
Definition SELF_LEARNING_DISCOVERY : Z := 0x05.

Definition isValidPacketType (value : Z) : bool :=
  (value =? 0x00) || (value =? 0x01) || (value =? 0x02) || (value =? 0x03) || (value =? 0x05).

Record PacketHeader := mkPacketHeader {
  m_type : Z;               (** [uint8_t] *)
  m_outPorts : Z;           (** [uint32_t] *)
  m_packetInPort : Z;       (** [uint16_t] *)
  m_nameHashes : list Z;    (** four [uint8_t] *)
  m_switchId : Z            (** [uint8_t] *)
}.

#[export] Instance PacketHeader_eq_dec : EqDecision PacketHeader.
Proof. solve_decision. Defined.

Definition SERIALIZED_SIZE : nat := 12.

Definition header_default : PacketHeader :=
  mkPacketHeader UNPROCESSED 0 0 (replicate STATIM_NAME_HASH_COUNT 0xff) 0.

(** [clear] resets every field to its default. *)
Definition clear (_ : PacketHeader) : PacketHeader := header_default.

Definition setType (t : Z) (h : PacketHeader) : PacketHeader :=
  mkPacketHeader t (m_outPorts h) (m_packetInPort h) (m_nameHashes h) (m_switchId h).
Definition setOutPorts (ports : Z) (h : PacketHeader) : PacketHeader :=
  mkPacketHeader (m_type h) ports (m_packetInPort h) (m_nameHashes h) (m_switchId h).
Definition setPacketInPort (port : Z) (h : PacketHeader) : PacketHeader :=
  mkPacketHeader (m_type h) (m_outPorts h) port (m_nameHashes h) (m_switchId h).
Definition setNameHashes (hashes : list Z) (h : PacketHeader) : PacketHeader :=
  mkPacketHeader (m_type h) (m_outPorts h) (m_packetInPort h) hashes (m_switchId h).
Definition setSwitchId (id : Z) (h : PacketHeader) : PacketHeader :=
  mkPacketHeader (m_type h) (m_outPorts h) (m_packetInPort h) (m_nameHashes h) id.

(** [Serialize]: network byte order throughout. *)
Definition Serialize (h : PacketHeader) : list byte :=
  be_encode 1 (m_type h) ++ be_encode 4 (m_outPorts h) ++ be_encode 2 (m_packetInPort h)
  ++ (byte_of_Z <$> take STATIM_NAME_HASH_COUNT (m_nameHashes h))
  ++ be_encode 1 (m_switchId h).

(** [Deserialize]: the header left in the object and the number of bytes read. *)
Definition Deserialize (buf : list byte) : PacketHeader * Z :=
  let h := header_default in
  if (length buf <? SERIALIZED_SIZE)%nat then (h, 0)
  else
    let type := be_decode (take 1 buf) in
    let h := setType type h in
    if negb (isValidPacketType type) then (h, 0)
    else
      let h := setOutPorts (be_decode (take 4 (drop 1 buf))) h in
      let h := setPacketInPort (be_decode (take 2 (drop 5 buf))) h in
      let h := setNameHashes (byte_to_Z <$> take 4 (drop 7 buf)) h in
      let h := setSwitchId (be_decode (take 1 (drop 11 buf))) h in
      (h, Z.of_nat SERIALIZED_SIZE).

Definition isValid (h : PacketHeader) : bool :=
  isValidPacketType (m_type h) && (length (m_nameHashes h) =? STATIM_NAME_HASH_COUNT)%nat.

(** The number of hashes before the first wildcard. *)
Fixpoint hash_count (hashes : list Z) : Z :=
  match hashes with
  | [] => 0
  | h :: hashes => if h =? 0xff then 0 else 1 + hash_count hashes
  end.
Definition getNameHashCount (h : PacketHeader) : Z := hash_count (m_nameHashes h).

(** [std::hash<std::string>] is the implementation's; the code relies on nothing
    but it being a function of the string. *)
Class StringHash := std_hash : list byte -> Z.

Section hashes.
Context `{!StringHash}.

Definition computeComponentHash (component : Component) : Z :=
  u8 (u64 (std_hash (component_toUri component)) mod 0xfe).

Definition computeNameHashes (name : Name) (h : PacketHeader) : PacketHeader :=
  let hashes := computeComponentHash <$> take STATIM_NAME_HASH_COUNT name in
  setNameHashes (hashes ++ replicate (STATIM_NAME_HASH_COUNT - length hashes) 0xff) h.

(** [explicit PacketHeader(const ndn::Name&)] *)
Definition PacketHeader_of_name (name : Name) : PacketHeader :=
  computeNameHashes name header_default.

Lemma computeComponentHash_range c : 0 <= computeComponentHash c < 0xfe.
Proof.
  unfold computeComponentHash.
  pose proof (Z.mod_pos_bound (u64 (std_hash (component_toUri c))) 0xfe eq_refl).
  rewrite u8_id; unfold u8_range; lia.
Qed.
End hashes.

(** The fields are in their C++ ranges and there are four hashes. *)
Record header_wf (h : PacketHeader) : Prop := {
  wf_type : u8_range (m_type h);
  wf_outPorts : u32_range (m_outPorts h);
  wf_inPort : u16_range (m_packetInPort h);
  wf_hashes : Forall u8_range (m_nameHashes h);
  wf_hash_count : length (m_nameHashes h) = STATIM_NAME_HASH_COUNT;
  wf_switchId : u8_range (m_switchId h)
}.

Lemma header_default_wf : header_wf header_default.
Proof. split; try (vm_compute; by split); repeat constructor; done. Qed.

Lemma setters_wf h :
  header_wf h ->
  (forall t, u8_range t -> header_wf (setType t h)) /\
  (forall p, u32_range p -> header_wf (setOutPorts p h)) /\
  (forall p, u16_range p -> header_wf (setPacketInPort p h)) /\
  (forall i, u8_range i -> header_wf (setSwitchId i h)).
Proof. intros []. split_and!; intros; by split. Qed.

Lemma name_hashes_length `{!StringHash} name :
  length (m_nameHashes (PacketHeader_of_name name)) = 4%nat.
Proof.
  unfold PacketHeader_of_name, computeNameHashes, setNameHashes. cbn [m_nameHashes].
  rewrite length_app, length_replicate, length_fmap, length_take.
  unfold STATIM_NAME_HASH_COUNT. lia.
Qed.

Lemma computeNameHashes_wf `{!StringHash} name h :
  header_wf h -> header_wf (computeNameHashes name h).
Proof.
  intros []. split; try done; cbn [computeNameHashes setNameHashes m_nameHashes].
  - apply Forall_app. split.
    + apply Forall_fmap, Forall_forall. intros c _. cbn.
      pose proof (computeComponentHash_range c). unfold u8_range. lia.
    + apply Forall_replicate. by vm_compute.
  - apply (name_hashes_length name).
Qed.

Lemma length_Serialize h : header_wf h -> length (Serialize h) = SERIALIZED_SIZE.
Proof.
  intros []. unfold Serialize. rewrite !length_app, !length_be_encode, length_fmap, length_take.
  rewrite wf_hash_count0. done.
Qed.

Lemma be_decode_1 b : be_decode [b] = byte_to_Z b.
Proof. unfold be_decode. cbn. done. Qed.

Lemma hashes_of_length_4 (l : list Z) :
  length l = STATIM_NAME_HASH_COUNT -> exists a b c d, l = [a; b; c; d].
Proof. destruct l as [|a [|b [|c [|d [|]]]]]; try done. by exists a, b, c, d. Qed.

Lemma Deserialize_Serialize (h : PacketHeader) (rest : list byte) :
  header_wf h -> isValidPacketType (m_type h) = true ->
  Deserialize (Serialize h ++ rest) = (h, Z.of_nat SERIALIZED_SIZE).
Proof.
  intros Hwf Hv. pose proof (length_Serialize h Hwf) as Hlen.
  destruct Hwf as [Ht Ho Hi Hh Hc Hs]. destruct h as [t o i hs sw]. cbn [m_type m_outPorts
    m_packetInPort m_nameHashes m_switchId] in *.
  destruct (hashes_of_length_4 hs Hc) as (a & b & c & d & ->).
  repeat (apply Forall_cons in Hh as [? Hh]).
  unfold Deserialize. rewrite length_app, Hlen.
  destruct (Nat.ltb_spec (SERIALIZED_SIZE + length rest) SERIALIZED_SIZE) as [Hl|_]; [lia|].
  assert (be_decode (take 1 (Serialize (mkPacketHeader t o i [a; b; c; d] sw) ++ rest)) = t) as Et.
  { cbn. unfold be_decode. cbn. rewrite Z.shiftr_0_r. by apply byte_to_of_Z_id. }
  rewrite Et, Hv. cbn [negb]. f_equal.
  unfold setSwitchId, setNameHashes, setPacketInPort, setOutPorts, setType. cbn [m_type m_outPorts
    m_packetInPort m_nameHashes m_switchId].
  f_equal.
  - transitivity (be_decode (be_encode 4 o)); [done|]. apply be_roundtrip, Ho.
  - transitivity (be_decode (be_encode 2 i)); [done|]. apply be_roundtrip, Hi.
  - cbn. by rewrite !byte_to_of_Z_id.
  - transitivity (be_decode (be_encode 1 sw)); [done|]. apply be_roundtrip, Hs.
Qed.

(** ** Properties *)

(** Reading back a serialised header gives the header, whatever follows it
    in the buffer, for every header whose fields are in range and whose type is
    one of the five packet types. *)
Theorem header_roundtrip (h : PacketHeader) (rest : list byte) :
  header_wf h -> isValidPacketType (m_type h) = true ->
  Deserialize (Serialize h ++ rest) = (h, Z.of_nat SERIALIZED_SIZE).
Proof. apply Deserialize_Serialize. Qed.

Lemma header_roundtrip_witness :
  Deserialize (Serialize (mkPacketHeader INTEREST 0x80000001 7 [1; 2; 0xff; 0xff] 3) ++ [Byte.x2a])
  = (mkPacketHeader INTEREST 0x80000001 7 [1; 2; 0xff; 0xff] 3, 12).
Proof.
  apply (header_roundtrip (mkPacketHeader INTEREST 0x80000001 7 [1; 2; 0xff; 0xff] 3) [Byte.x2a]).
  - split; cbn; unfold u8_range, u16_range, u32_range, INTEREST; try lia;
      repeat constructor; try lia.
  - reflexivity.
Defined.

Lemma Deserialize_success buf :
  (12 <= length buf)%nat -> isValidPacketType (be_decode (take 1 buf)) = true ->
  exists h, Deserialize buf = (h, Z.of_nat SERIALIZED_SIZE) /\ header_wf h /\
    Serialize h = take SERIALIZED_SIZE buf /\ m_type h = be_decode (take 1 buf).
Proof.
  intros Hl Hv.
  do 12 (destruct buf as [|? buf]; [simpl in Hl; lia|]). clear Hl.
  unfold Deserialize. cbn [length Nat.ltb Nat.leb SERIALIZED_SIZE]. rewrite Hv. cbn [negb].
  eexists. split; [done|]. change (take 0 buf) with (@nil byte).
  unfold setSwitchId, setNameHashes, setPacketInPort, setOutPorts, setType.
  cbn [take drop m_type m_outPorts m_packetInPort m_nameHashes m_switchId] in *.
  split; [split|split; [|done]];
    cbn [m_type m_outPorts m_packetInPort m_nameHashes m_switchId].
  - rewrite be_decode_1. apply byte_to_Z_range.
  - apply (be_decode_range [_; _; _; _]).
  - apply (be_decode_range [_; _]).
  - repeat constructor; apply byte_to_Z_range.
  - done.
  - rewrite be_decode_1. apply byte_to_Z_range.
  - unfold Serialize.
    cbn [m_type m_outPorts m_packetInPort m_nameHashes m_switchId fmap list_fmap take
         STATIM_NAME_HASH_COUNT SERIALIZED_SIZE].
    by rewrite !be_encode_of_decode, !byte_of_to_Z by done.
Qed.

(** [Deserialize] reports zero bytes exactly for a truncated buffer or an
    unknown packet type; otherwise it reads twelve bytes and writing the header
    back gives those bytes. *)
Theorem header_deserialize_exact (buf : list byte) :
  ((Deserialize buf).2 = 0 <->
     (length buf < SERIALIZED_SIZE)%nat \/
     isValidPacketType (be_decode (take 1 buf)) = false) /\
  ((Deserialize buf).2 <> 0 ->
     (Deserialize buf).2 = Z.of_nat SERIALIZED_SIZE /\ header_wf (Deserialize buf).1 /\
     Serialize (Deserialize buf).1 = take SERIALIZED_SIZE buf).
Proof.
  destruct (decide (length buf < SERIALIZED_SIZE)%nat) as [Hl|Hl].
  { assert ((Deserialize buf).2 = 0) as E.
    { unfold Deserialize. by destruct (Nat.ltb_spec (length buf) SERIALIZED_SIZE); [|lia]. }
    rewrite E. naive_solver. }
  destruct (isValidPacketType (be_decode (take 1 buf))) eqn:Hv.
  - destruct (Deserialize_success buf) as (h & -> & Hwf & Hs & _);
      [unfold SERIALIZED_SIZE in Hl; lia|done|].
    split; [|done]. cbn. split; [done|]. intros [?|?]; [lia|done].
  - assert ((Deserialize buf).2 = 0) as E.
    { unfold Deserialize. destruct (Nat.ltb_spec (length buf) SERIALIZED_SIZE); [lia|].
      by rewrite Hv. }
    rewrite E. naive_solver.
Qed.

(** A header that was read is well formed. *)
Lemma Deserialize_wf packet :
  (Deserialize packet).2 = Z.of_nat SERIALIZED_SIZE -> header_wf (Deserialize packet).1.
Proof. intros H. apply header_deserialize_exact. by rewrite H. Qed.
