(* ===== verification/FlowTable.v ===== *)
(** * FlowTable: match fields, flow tables and the table pipeline

    Source: [src/src/ndnSIM/statim/pipeline/flow-table.{hpp,cpp}].  A header
    buffer and its length are the list of its bytes; a null buffer is the empty
    list, which every function below treats as the code treats null.  The current
    simulated time, which [isExpired] reads, is an argument. *)
From S2P Require Import Prelude Simulator.

(** ** Match fields *)
Record MatchField := mkMatchField {
  offset : Z;      (** first bit, [uint16_t] *)
  length_ : Z;     (** number of bits, [uint16_t] *)
  value : Z;       (** [uint32_t] *)
  wildcard : bool
}.

#[export] Instance MatchField_eq_dec : EqDecision MatchField.
Proof. solve_decision. Defined.

Definition MatchField_exact (bitOffset bitLength val : Z) : MatchField :=
  mkMatchField bitOffset bitLength val false.
Definition Wildcard (bitOffset bitLength : Z) : MatchField :=
  mkMatchField bitOffset bitLength 0 true.

Definition buf_at (buf : list byte) (i : Z) : Z :=
  byte_to_Z (default Byte.x00 (buf !! Z.to_nat i)).

(** [extractBits]: [numBits] bits from [startBit], most significant first. *)
Definition extractBits_step (buf : list byte) (startBit numBits result i : Z) : Z :=
  let bitPos := startBit + i in
  let byteIdx := bitPos / 8 in
  let bitInByte := 7 - bitPos mod 8 in
  if negb (Z.land (buf_at buf byteIdx) (Z.shiftl 1 bitInByte) =? 0)
  then Z.lor result (Z.shiftl 1 (numBits - 1 - i))
  else result.

Definition extractBits (buf : list byte) (startBit numBits : Z) : Z :=
  foldl (extractBits_step buf startBit numBits) 0 (seqZ 0 numBits).

(** [MatchField::matches] *)
Definition field_matches (f : MatchField) (buf : list byte) : bool :=
  if (length_ f =? 0) || (32 <? length_ f) then false
  else
    let endBit := offset f + length_ f in
    if Z.of_nat (length buf) <? (endBit + 7) / 8 then false
    else if wildcard f then true
    else extractBits buf (offset f) (length_ f) =? value f.

(** ** Actions and entries *)
Inductive FlowAction :=
| OUTPUT (portNumber : Z)
| OUTPUT_MULTICAST (portNumber : Z)
| GOTO_TABLE (gotoTableId : Z)
| PACKET_IN
| SET_FIELD (setFieldOffset setFieldLength : Z) (setFieldValue : list byte)
| DROP.

#[export] Instance FlowAction_eq_dec : EqDecision FlowAction.
Proof. solve_decision. Defined.

Record FlowEntry := mkFlowEntry {
  matchFields : list MatchField;
  priority : Z;
  actions : list FlowAction;
  expiry : Z;
  hasExpiry : bool
}.

#[export] Instance FlowEntry_eq_dec : EqDecision FlowEntry.
Proof. solve_decision. Defined.

Definition isExpired (now : Z) (e : FlowEntry) : bool := hasExpiry e && (expiry e <=? now).

Definition entry_matches (now : Z) (e : FlowEntry) (buf : list byte) : bool :=
  if isExpired now e then false else forallb (fun f => field_matches f buf) (matchFields e).

(** ** One table *)
Record FlowTable := mkFlowTable {
  m_tableId : Z;
  m_name : string;
  m_entries : list FlowEntry
}.

Definition priority_greater (a b : FlowEntry) : bool := priority b <? priority a.

Section table.
Context `{!StdSort}.

Definition sortEntries (t : FlowTable) : FlowTable :=
  mkFlowTable (m_tableId t) (m_name t) (std_sort priority_greater (m_entries t)).

Definition addEntry (entry : FlowEntry) (t : FlowTable) : FlowTable :=
  sortEntries (mkFlowTable (m_tableId t) (m_name t) (m_entries t ++ [entry])).

Definition removeIf (pred : FlowEntry -> bool) (t : FlowTable) : FlowTable :=
  mkFlowTable (m_tableId t) (m_name t)
    (List.filter (fun e => negb (pred e)) (m_entries t)).

Definition table_clear (t : FlowTable) : FlowTable :=
  mkFlowTable (m_tableId t) (m_name t) [].

Definition lookup (now : Z) (buf : list byte) (t : FlowTable) : option FlowEntry :=
  List.find (fun e => entry_matches now e buf) (m_entries t).
End table.

(** ** The pipeline *)
Record PipelineResult := mkPipelineResult {
  matched : bool;
  packetIn : bool;
  dropped : bool;
  outputPorts : gset Z;
  modifiedHeader : list byte
}.

#[export] Instance set_matched : Setter matched := fun f r =>
  mkPipelineResult (f (matched r)) (packetIn r) (dropped r) (outputPorts r) (modifiedHeader r).
#[export] Instance set_packetIn : Setter packetIn := fun f r =>
  mkPipelineResult (matched r) (f (packetIn r)) (dropped r) (outputPorts r) (modifiedHeader r).
#[export] Instance set_dropped : Setter dropped := fun f r =>
  mkPipelineResult (matched r) (packetIn r) (f (dropped r)) (outputPorts r) (modifiedHeader r).
#[export] Instance set_outputPorts : Setter outputPorts := fun f r =>
  mkPipelineResult (matched r) (packetIn r) (dropped r) (f (outputPorts r)) (modifiedHeader r).
#[export] Instance set_modifiedHeader : Setter modifiedHeader := fun f r =>
  mkPipelineResult (matched r) (packetIn r) (dropped r) (outputPorts r) (f (modifiedHeader r)).

Definition PipelineResult_init : PipelineResult := mkPipelineResult false false false ∅ [].

Definition find_table (tables : list FlowTable) (tableId : Z) : option FlowTable :=
  List.find (fun t => m_tableId t =? tableId) tables.

Fixpoint update_table (f : FlowTable -> FlowTable) (tableId : Z) (tables : list FlowTable)
    : list FlowTable :=
  match tables with
  | [] => []
  | t :: tables =>
      if m_tableId t =? tableId then f t :: tables else t :: update_table f tableId tables
  end.

Definition table_id_less (a b : FlowTable) : bool := m_tableId a <? m_tableId b.

Section pipeline.
Context `{!StdSort}.

(** [addTable]: the table vector after the call. *)
Definition addTable (tableId : Z) (name : string) (tables : list FlowTable)
    : list FlowTable :=
  match find_table tables tableId with
  | Some _ => tables
  | None => std_sort table_id_less (tables ++ [mkFlowTable tableId name []])
  end.

(** The mutable [getTable] adds a missing table and returns a reference;
    [with_table] is a mutation through that reference. *)
Definition getTable (tableId : Z) (tables : list FlowTable) : list FlowTable :=
  match find_table tables tableId with
  | Some _ => tables
  | None => addTable tableId "" tables
  end.

Definition with_table (tableId : Z) (f : FlowTable -> FlowTable) (tables : list FlowTable)
    : list FlowTable :=
  update_table f tableId (getTable tableId tables).

(** The const [getTable]. *)
Definition getTable_const (tableId : Z) (tables : list FlowTable) : exn + FlowTable :=
  match find_table tables tableId with
  | Some t => inr t
  | None => inl (OutOfRange "flow table does not exist")
  end.
End pipeline.

(** The action loop of one table visit: it returns from [process], or falls
    through with the next table id and whether a GOTO was seen. *)
Inductive ActionsOutcome :=
| Returned (result : PipelineResult)
| FellThrough (result : PipelineResult) (currentTableId : Z) (shouldContinue : bool).

Definition copy_n (val : list byte) (len off : nat) (buf : list byte) : list byte :=
  take off buf ++ take len val ++ drop (off + len) buf.

Fixpoint run_actions (acts : list FlowAction) (result : PipelineResult)
    (currentTableId : Z) (shouldContinue : bool) : ActionsOutcome :=
  match acts with
  | [] => FellThrough result currentTableId shouldContinue
  | a :: acts =>
      match a with
      | OUTPUT port =>
          Returned (result <| outputPorts ::= fun s => {[port]} ∪ s |> <| dropped := false |>)
      | OUTPUT_MULTICAST port =>
          run_actions acts (result <| outputPorts ::= fun s => {[port]} ∪ s |>)
            currentTableId shouldContinue
      | GOTO_TABLE tableId => run_actions acts result tableId true
      | PACKET_IN => Returned (result <| packetIn := true |>)
      | SET_FIELD off len val =>
          let size := Z.of_nat (length (modifiedHeader result)) in
          if (size <? off) || (size - off <? len) || (Z.of_nat (length val) <? len)
          then Returned (result <| dropped := true |> <| outputPorts := ∅ |>)
          else run_actions acts
                 (result <| modifiedHeader ::= copy_n val (Z.to_nat len) (Z.to_nat off) |>)
                 currentTableId shouldContinue
      | DROP => Returned (result <| dropped := true |>)
      end
  end.

Definition MAX_HOPS : nat := 32.

Fixpoint process_hops (hops : nat) (now : Z) (tables : list FlowTable)
    (result : PipelineResult) (currentTableId : Z) : PipelineResult :=
  match hops with
  | O => result <| dropped := true |>
  | S hops =>
      match find_table tables currentTableId with
      | None => result <| dropped := true |>
      | Some table =>
          match lookup now (modifiedHeader result) table with
          | None => result <| dropped := true |>
          | Some entry =>
              let result := result <| matched := true |> in
              match run_actions (actions entry) result currentTableId false with
              | Returned result => result
              | FellThrough result currentTableId shouldContinue =>
                  if negb shouldContinue
                  then if bool_decide (outputPorts result = ∅)
                       then result <| dropped := true |>
                       else result
                  else process_hops hops now tables result currentTableId
              end
          end
      end
  end.

(** [FlowTablePipeline::process] *)
Definition process (now : Z) (tables : list FlowTable) (headerBuf : list byte)
    (startTableId : Z) : PipelineResult :=
  if (length headerBuf =? 0)%nat then PipelineResult_init <| dropped := true |>
  else process_hops MAX_HOPS now tables
         (PipelineResult_init <| modifiedHeader := headerBuf |>) startTableId.

(** ** Header layout and field builders ([StatimField], in bits) *)
Definition TYPE_OFFSET : Z := 0.
Definition TYPE_LENGTH : Z := 8.
Definition OUT_PORTS_OFFSET : Z := 8.
Definition OUT_PORTS_LENGTH : Z := 32.
Definition IN_PORT_OFFSET : Z := 40.
Definition IN_PORT_LENGTH : Z := 16.
Definition NAME_HASH_BASE_OFFSET : Z := 56.
Definition NAME_HASH_LENGTH : Z := 8.
Definition SWITCH_ID_OFFSET : Z := 88.
Definition SWITCH_ID_LENGTH : Z := 8.

Definition nameHashOffset (idx : Z) : exn + Z :=
  if 4 <=? idx then inl (OutOfRange "name hash index must be below four")
  else inr (u16 (NAME_HASH_BASE_OFFSET + idx * NAME_HASH_LENGTH)).

Definition matchType (typeValue : Z) : MatchField :=
  MatchField_exact TYPE_OFFSET TYPE_LENGTH typeValue.
Definition matchTypeWildcard : MatchField := Wildcard TYPE_OFFSET TYPE_LENGTH.
Definition matchOutPortsZero : MatchField :=
  MatchField_exact OUT_PORTS_OFFSET OUT_PORTS_LENGTH 0.
Definition matchOutPortsWildcard : MatchField := Wildcard OUT_PORTS_OFFSET OUT_PORTS_LENGTH.

Definition matchOutPortByte (byteIdx value : Z) : exn + MatchField :=
  if 4 <=? byteIdx then inl (OutOfRange "output port byte index must be below four")
  else inr (MatchField_exact (u16 (OUT_PORTS_OFFSET + byteIdx * 8)) 8 value).

Definition matchNameHash (idx hashValue : Z) : exn + MatchField :=
  off ← nameHashOffset idx; mret (MatchField_exact off NAME_HASH_LENGTH hashValue).

Definition matchNameHashWildcard (idx : Z) : exn + MatchField :=
  off ← nameHashOffset idx; mret (Wildcard off NAME_HASH_LENGTH).

(** ** Bit extraction *)

(** Bit [pos] of a buffer, counted from its most significant bit. *)
Definition buf_bit (buf : list byte) (pos : Z) : bool :=
  Z.testbit (buf_at buf (pos / 8)) (7 - pos mod 8).

Lemma testbit_shiftl1 j k :
  0 <= j -> Z.testbit (Z.shiftl 1 j) k = bool_decide (j = k).
Proof.
  intros Hj. rewrite Z.shiftl_1_l, Z.pow2_bits_eqb by done.
  symmetry. destruct (Z.eqb_spec j k);
    [by apply bool_decide_eq_true_2|by apply bool_decide_eq_false_2].
Qed.

Lemma land_shiftl1 x k : 0 <= k -> negb (Z.land x (Z.shiftl 1 k) =? 0) = Z.testbit x k.
Proof.
  intros Hk. destruct (Z.testbit x k) eqn:E.
  - apply negb_true_iff, Z.eqb_neq. intros H0.
    assert (Z.testbit (Z.land x (Z.shiftl 1 k)) k = true) as Ht.
    { by rewrite Z.land_spec, E, testbit_shiftl1, bool_decide_true by done. }
    by rewrite H0, Z.bits_0 in Ht.
  - apply negb_false_iff, Z.eqb_eq, Z.bits_inj'. intros n Hn.
    rewrite Z.land_spec, Z.bits_0, testbit_shiftl1 by done.
    case_bool_decide as Hkn; [subst; by rewrite E|apply andb_false_r].
Qed.

Lemma extractBits_step_bit buf start n acc i k :
  0 <= start -> 0 <= i < n -> 0 <= k ->
  Z.testbit (extractBits_step buf start n acc i) k =
  Z.testbit acc k || (bool_decide (k = n - 1 - i) && buf_bit buf (start + i)).
Proof.
  intros Hs Hi Hk. unfold extractBits_step. rewrite land_shiftl1.
  2:{ pose proof (Z.mod_pos_bound (start + i) 8). lia. }
  fold (buf_bit buf (start + i)). destruct (buf_bit buf (start + i)).
  - rewrite Z.lor_spec, testbit_shiftl1 by lia. f_equal. rewrite andb_true_r.
    apply bool_decide_ext. lia.
  - by rewrite andb_false_r, orb_false_r.
Qed.

Lemma extractBits_foldl_bit buf start n m k :
  0 <= start -> 0 <= m <= n -> 0 <= k ->
  Z.testbit (foldl (extractBits_step buf start n) 0 (seqZ 0 m)) k =
  bool_decide (n - m <= k < n) && buf_bit buf (start + (n - 1 - k)).
Proof.
  intros Hs Hm Hk. assert (0 <= m) as Hm0 by lia. revert Hm.
  apply natlike_ind with (x := m); [| |done].
  - intros _. cbn. rewrite Z.bits_0, bool_decide_false by lia. done.
  - intros x Hx IH Hm. rewrite <-Z.add_1_r, seqZ_app by lia.
    rewrite foldl_app. change (seqZ (0 + x) 1) with [0 + x]. cbn [foldl].
    rewrite extractBits_step_bit, IH by lia.
    destruct (decide (k = n - 1 - x)) as [->|Hne].
    + rewrite (bool_decide_false (n - x <= _ < n)), (bool_decide_true (_ = _)),
        (bool_decide_true (n - (x + 1) <= _ < n)) by lia.
      cbn. f_equal. lia.
    + rewrite (bool_decide_false (k = n - 1 - (0 + x))) by lia. rewrite orb_false_r. f_equal.
      apply bool_decide_ext. lia.
Qed.

Lemma extractBits_bit buf start n k :
  0 <= start -> 0 <= n -> 0 <= k ->
  Z.testbit (extractBits buf start n) k =
  bool_decide (k < n) && buf_bit buf (start + (n - 1 - k)).
Proof.
  intros. unfold extractBits. rewrite extractBits_foldl_bit by lia. f_equal.
  apply bool_decide_ext. lia.
Qed.

Lemma testbit_byte_high b k : 8 <= k -> Z.testbit (byte_to_Z b) k = false.
Proof.
  intros Hk. pose proof (byte_to_Z_range b) as Hb. unfold u8_range in Hb.
  destruct (decide (byte_to_Z b = 0)) as [->|]; [apply Z.bits_0|].
  apply Z.bits_above_log2; [lia|]. apply Z.log2_lt_pow2; [lia|].
  apply Z.lt_le_trans with (2 ^ 8); [lia|]. by apply Z.pow_le_mono_r.
Qed.

(** Bit [k] of a big-endian number is bit [8 * length - 1 - k] of its buffer. *)
Lemma testbit_be_decode bs k :
  0 <= k < 8 * Z.of_nat (length bs) ->
  Z.testbit (be_decode bs) k = buf_bit bs (8 * Z.of_nat (length bs) - 1 - k).
Proof.
  revert k. induction bs as [|b bs IH] using rev_ind; intros k Hk; [simpl in Hk; lia|].
  rewrite length_app in *. simpl length in *. rewrite Nat2Z.inj_add in *.
  change (Z.of_nat 1) with 1 in *.
  rewrite be_decode_snoc.
  rewrite <-shiftl_lor_add by apply byte_to_Z_range. rewrite Z.lor_spec, Z.shiftl_spec by lia.
  unfold buf_bit, buf_at.
  destruct (decide (k < 8)) as [Hk8|Hk8].
  - rewrite Z.testbit_neg_r by lia. cbn [orb].
    replace ((8 * (Z.of_nat (length bs) + 1) - 1 - k) / 8) with (Z.of_nat (length bs))
      by (Z.div_mod_to_equations; lia).
    rewrite Nat2Z.id, lookup_app_r, Nat.sub_diag by lia. cbn. f_equal.
    Z.div_mod_to_equations; lia.
  - rewrite testbit_byte_high, orb_false_r, IH by lia. unfold buf_bit, buf_at.
    replace (8 * (Z.of_nat (length bs) + 1) - 1 - k)
      with (8 * Z.of_nat (length bs) - 1 - (k - 8)) by lia.
    rewrite lookup_app_l; [done|].
    set (q := _ / 8). assert (q < Z.of_nat (length bs)); [|lia].
    unfold q. Z.div_mod_to_equations; lia.
Qed.

Lemma buf_bit_drop_take buf i w p :
  (i + w <= length buf)%nat -> 0 <= p < 8 * Z.of_nat w ->
  buf_bit (take w (drop i buf)) p = buf_bit buf (8 * Z.of_nat i + p).
Proof.
  intros Hl Hp. unfold buf_bit, buf_at.
  replace (8 * Z.of_nat i + p) with (p + Z.of_nat i * 8) by lia.
  rewrite Z.div_add, Z.mod_add by lia. f_equal. f_equal. f_equal.
  assert (0 <= p / 8 < Z.of_nat w) as Hq by (Z.div_mod_to_equations; lia).
  rewrite lookup_take_lt, lookup_drop by lia. f_equal. lia.
Qed.

(** Byte-aligned extraction reads the big-endian number in those bytes. *)
Lemma extractBits_aligned buf i w :
  (i + w <= length buf)%nat ->
  extractBits buf (8 * Z.of_nat i) (8 * Z.of_nat w) = be_decode (take w (drop i buf)).
Proof.
  intros Hl. assert (length (take w (drop i buf)) = w) as Hw by (rewrite length_take, length_drop; lia).
  apply Z.bits_inj'. intros k Hk. rewrite extractBits_bit by lia.
  case_bool_decide as E; cbn [andb].
  - rewrite testbit_be_decode, Hw by (rewrite ?Hw; lia). rewrite buf_bit_drop_take by lia.
    f_equal; lia.
  - pose proof (be_decode_range (take w (drop i buf))) as Hr. rewrite Hw in Hr.
    symmetry. destruct (decide (be_decode (take w (drop i buf)) = 0)) as [->|].
    { apply Z.bits_0. }
    apply Z.bits_above_log2; [lia|]. apply Z.log2_lt_pow2; [lia|].
    eapply Z.lt_le_trans; [apply Hr|]. replace (256 ^ Z.of_nat w) with (2 ^ (8 * Z.of_nat w)).
    + apply Z.pow_le_mono_r; lia.
    + by rewrite Z.pow_mul_r by lia.
Qed.

(** ** Lookup in an ordered table *)
#[export] Instance priority_greater_swo : StrictWeakOrder priority_greater.
Proof. split; unfold priority_greater; intros *; rewrite ?Z.ltb_lt, ?Z.ltb_ge; lia. Qed.
#[export] Instance table_id_less_swo : StrictWeakOrder table_id_less.
Proof. split; unfold table_id_less; intros *; rewrite ?Z.ltb_lt, ?Z.ltb_ge; lia. Qed.

(** Entries in non-increasing priority. *)
Definition table_sorted (t : FlowTable) : Prop :=
  StronglySorted (fun a b => priority_greater b a = false) (m_entries t).

Lemma find_Some_split {A} (p : A -> bool) l x :
  List.find p l = Some x ->
  exists l1 l2, l = l1 ++ x :: l2 /\ p x = true /\ Forall (fun y => p y = false) l1.
Proof.
  induction l as [|y l IH]; [done|]. simpl. destruct (p y) eqn:E.
  - intros [= ->]. by exists [], l.
  - intros (l1 & l2 & -> & Hx & Hl1)%IH. exists (y :: l1), l2. split_and!; [done..|].
    by constructor.
Qed.

Lemma find_None_Forall {A} (p : A -> bool) l :
  List.find p l = None <-> Forall (fun y => p y = false) l.
Proof.
  rewrite Forall_forall. split.
  - intros H x Hx. apply (List.find_none p l H). by apply list_elem_of_In.
  - intros H. induction l as [|y l IH]; [done|]. simpl.
    rewrite H by set_solver. apply IH. set_solver.
Qed.

Lemma table_sorted_le t l1 e l2 x :
  table_sorted t -> m_entries t = l1 ++ e :: l2 -> x ∈ l2 -> priority x <= priority e.
Proof.
  unfold table_sorted. intros Hs Heq Hx. rewrite Heq in Hs.
  apply StronglySorted_app_1_r in Hs. apply StronglySorted_cons in Hs as [Hf _].
  rewrite Forall_forall in Hf. specialize (Hf x Hx). unfold priority_greater in Hf.
  apply Z.ltb_ge in Hf. done.
Qed.

(** In an ordered table the entry found has the highest priority of all the
    entries that match. *)
Lemma lookup_best now buf t e :
  table_sorted t -> lookup now buf t = Some e ->
  e ∈ m_entries t /\ entry_matches now e buf = true /\
  forall x, x ∈ m_entries t -> entry_matches now x buf = true -> priority x <= priority e.
Proof.
  intros Hs Hl. apply find_Some_split in Hl as (l1 & l2 & Heq & Hm & Hf).
  split_and!; [rewrite Heq; set_solver|done|].
  intros x Hx Hxm. rewrite Heq in Hx. apply elem_of_app in Hx as [Hx|Hx].
  - rewrite Forall_forall in Hf. by rewrite (Hf x Hx) in Hxm.
  - apply elem_of_cons in Hx as [->|Hx]; [lia|]. by eapply table_sorted_le.
Qed.

Lemma lookup_none now buf t :
  lookup now buf t = None <->
  forall x, x ∈ m_entries t -> entry_matches now x buf = false.
Proof. unfold lookup. rewrite find_None_Forall, Forall_forall. done. Qed.

(** The result does not depend on the order of entries of equal priority when
    the best matching entry is unique. *)
Lemma lookup_unique now buf t e :
  table_sorted t -> e ∈ m_entries t -> entry_matches now e buf = true ->
  (forall x, x ∈ m_entries t -> entry_matches now x buf = true -> x <> e ->
     priority x < priority e) ->
  lookup now buf t = Some e.
Proof.
  intros Hs He Hm Hu. destruct (lookup now buf t) as [x|] eqn:E.
  - apply lookup_best in E as (Hx & Hxm & Hmax); [|done].
    destruct (decide (x = e)) as [->|Hne]; [done|].
    specialize (Hu x Hx Hxm Hne). specialize (Hmax e He Hm). lia.
  - rewrite lookup_none in E. by rewrite (E e He) in Hm.
Qed.

Section table_facts.
Context {SS : StdSort} {SL : StdSortLaws}.

Lemma addEntry_sorted e t : table_sorted (addEntry e t).
Proof. unfold table_sorted, addEntry, sortEntries. simpl. apply std_sort_sorted, _. Qed.

Lemma addEntry_perm e t : m_entries (addEntry e t) ≡ₚ e :: m_entries t.
Proof.
  unfold addEntry, sortEntries. simpl. rewrite std_sort_perm. apply (Permutation_app_comm (m_entries t) [e]).
Qed.

Lemma StronglySorted_filter {A} (R : relation A) p l :
  StronglySorted R l -> StronglySorted R (List.filter p l).
Proof.
  induction 1 as [|x l Hl IH Hx]; simpl; [constructor|].
  destruct (p x); [|done]. constructor; [done|].
  rewrite Forall_forall in Hx |- *. intros y Hy. apply Hx.
  apply list_elem_of_In in Hy. apply List.filter_In in Hy as [Hy _]. by apply list_elem_of_In.
Qed.

Lemma removeIf_sorted p t : table_sorted t -> table_sorted (removeIf p t).
Proof. apply StronglySorted_filter. Qed.

Lemma elem_of_removeIf p t e :
  e ∈ m_entries (removeIf p t) <-> e ∈ m_entries t /\ p e = false.
Proof.
  unfold removeIf. simpl. rewrite !list_elem_of_In, List.filter_In, negb_true_iff. done.
Qed.
End table_facts.

(** Tables of a pipeline are found by id. *)
Lemma find_table_Some tables id t :
  find_table tables id = Some t -> t ∈ tables /\ m_tableId t = id.
Proof.
  intros (l1 & l2 & -> & H & _)%find_Some_split. apply Z.eqb_eq in H. split; [set_solver|done].
Qed.

Lemma find_table_update_eq f id tables t :
  (forall t, m_tableId (f t) = m_tableId t) -> find_table tables id = Some t ->
  find_table (update_table f id tables) id = Some (f t).
Proof.
  intros Hf. unfold find_table. induction tables as [|x l IH]; [done|]. simpl.
  destruct (m_tableId x =? id) eqn:E; simpl.
  - intros [= ->]. by rewrite Hf, E.
  - by rewrite E.
Qed.

Lemma find_table_update_ne f id id' tables :
  (forall t, m_tableId (f t) = m_tableId t) -> id' <> id ->
  find_table (update_table f id tables) id' = find_table tables id'.
Proof.
  intros Hf Hne. unfold find_table. induction tables as [|x l IH]; [done|]. simpl.
  destruct (Z.eqb_spec (m_tableId x) id) as [E|E]; simpl.
  - rewrite Hf. by destruct (Z.eqb_spec (m_tableId x) id') as [E'|E']; [lia|].
  - by rewrite IH.
Qed.

(** ** Properties *)

(** [extractBits] on byte-aligned bounds is the big-endian number stored in
    those bytes; on any bounds it has exactly the selected header bits, most
    significant first. *)
Theorem extractBits_spec (buf : list byte) (start n k : Z) (i w : nat) :
  (0 <= start -> 0 <= n -> 0 <= k ->
   Z.testbit (extractBits buf start n) k =
   bool_decide (k < n) && buf_bit buf (start + (n - 1 - k))) /\
  ((i + w <= length buf)%nat ->
   extractBits buf (8 * Z.of_nat i) (8 * Z.of_nat w) = be_decode (take w (drop i buf))).
Proof. split; [apply extractBits_bit|apply extractBits_aligned]. Qed.

Lemma extractBits_spec_witness :
  extractBits [Byte.x12; Byte.xab; Byte.x34] (8 * Z.of_nat 1) (8 * Z.of_nat 2) = 0xab34.
Proof.
  destruct (extractBits_spec [Byte.x12; Byte.xab; Byte.x34] 0 0 0 1 2) as [_ H].
  rewrite H by (simpl; lia). vm_compute. reflexivity.
Defined.
