(* ===== verification/SwitchPipeline.v ===== *)
(** * SwitchPipeline: the Statim tables

    Source: [src/src/ndnSIM/statim/pipeline/switch-pipeline.{hpp,cpp}].  Table 50
    dispatches on the packet type, table 51 is the flow-table FIB and tables 52-55
    turn the output-port bitmap into output actions, one byte each.  Methods are
    computations over the [SwitchPipeline] object; the simulated time is an
    argument of the two that look entries up. *)
From S2P Require Import Prelude Tlv Names Simulator PacketHeader FlowTable.

(** [StatimPort] and [StatimTableId] *)
Definition PORT_STATEFUL_MODULE : Z := 0xFFFF.
Definition PORT_CONTROLLER : Z := 0xFFFD.
Definition PORT_DROP : Z := 0.

Definition NDN_STATE : Z := 50.
Definition NDN_FIB : Z := 51.
Definition MULTI_BYTE1 : Z := 52.
Definition MULTI_BYTE2 : Z := 53.
Definition MULTI_BYTE3 : Z := 54.
Definition MULTI_BYTE4 : Z := 55.

Inductive SwitchCounter :=
| pipelineProcessed | fibLookupHits | fibLookupMisses | packetInsSent | flowModsApplied.

#[export] Instance SwitchCounter_eq_dec : EqDecision SwitchCounter.
Proof. solve_decision. Defined.

Record SwitchPipeline := mkSwitchPipeline {
  m_pipeline : list FlowTable;
  m_counters : counters SwitchCounter
}.

#[export] Instance set_m_pipeline : Setter m_pipeline := fun f s =>
  mkSwitchPipeline (f (m_pipeline s)) (m_counters s).
#[export] Instance set_m_counters : Setter m_counters := fun f s =>
  mkSwitchPipeline (m_pipeline s) (f (m_counters s)).

Definition switch_new : SwitchPipeline := mkSwitchPipeline [] counters_init.

Definition FIB_PRIORITY_BASE : Z := 2000.
Definition FIB_PRIORITY_STEP : Z := 1000.

Definition static_entry (fields : list MatchField) (prio : Z) (acts : list FlowAction)
    : FlowEntry := mkFlowEntry fields prio acts 0 false.

(** The entries of table 50, in the order [initPipeline] adds them. *)
Definition state_entries : list FlowEntry := [
  static_entry [matchType INTEREST; matchOutPortsZero] 4500 [GOTO_TABLE NDN_FIB];
  static_entry [matchType UNPROCESSED; matchOutPortsWildcard] 4000 [OUTPUT PORT_STATEFUL_MODULE];
  static_entry [matchType INTEREST; matchOutPortsWildcard] 4000 [GOTO_TABLE MULTI_BYTE1];
  static_entry [matchType DATA; matchOutPortsWildcard] 4000 [GOTO_TABLE MULTI_BYTE1];
  static_entry [matchType CONTROL; matchOutPortsWildcard] 3500 [PACKET_IN];
  static_entry [matchType SELF_LEARNING_DISCOVERY; matchOutPortsWildcard] 3000
    [GOTO_TABLE NDN_FIB] ].

(** The default entry of table 51. *)
Definition fib_drop : FlowEntry := static_entry [] 0 [DROP].

(** The port actions of one bitmap byte, most significant bit first. *)
Definition byte_port_actions (byteIndex byteVal : Z) : list FlowAction :=
  seqZ 1 8 ≫= fun i =>
    if Z.land (Z.shiftr byteVal (8 - i)) 1 =? 1
    then [OUTPUT_MULTICAST (u16 (byteIndex * 8 + i))] else [].

Definition multibyte_entry (byteIndex nextTableId : Z) (isLast : bool) (byteVal : Z)
    : exn + FlowEntry :=
  field ← matchOutPortByte byteIndex (u8 byteVal);
  mret (static_entry [field] 3000
          (SET_FIELD 0 1 [Byte.x00] :: byte_port_actions byteIndex byteVal
           ++ (if isLast then [] else [GOTO_TABLE nextTableId]))).

Section switch.
Context `{!StdSort}.

Definition initMulticastByteTable (tableId byteIndex nextTableId : Z) (isLast : bool)
    : M SwitchPipeline unit :=
  modify (fun s => s <| m_pipeline ::= getTable tableId |>);;
  for_each (seqZ 0 256) (fun byteVal =>
    entry ← lift_result (multibyte_entry byteIndex nextTableId isLast byteVal);
    modify (fun s => s <| m_pipeline ::= with_table tableId (addEntry entry) |>)).

Definition initPipeline : M SwitchPipeline unit :=
  modify (fun s => s <| m_pipeline ::= addTable NDN_STATE "NDNStateTable" |>);;
  modify (fun s => s <| m_pipeline ::= addTable NDN_FIB "NDNFibTable" |>);;
  modify (fun s => s <| m_pipeline ::= addTable MULTI_BYTE1 "MultiByte1Table" |>);;
  modify (fun s => s <| m_pipeline ::= addTable MULTI_BYTE2 "MultiByte2Table" |>);;
  modify (fun s => s <| m_pipeline ::= addTable MULTI_BYTE3 "MultiByte3Table" |>);;
  modify (fun s => s <| m_pipeline ::= addTable MULTI_BYTE4 "MultiByte4Table" |>);;
  for_each state_entries (fun e =>
    modify (fun s => s <| m_pipeline ::= with_table NDN_STATE (addEntry e) |>));;
  modify (fun s => s <| m_pipeline ::= with_table NDN_FIB (addEntry fib_drop) |>);;
  initMulticastByteTable MULTI_BYTE1 0 MULTI_BYTE2 false;;
  initMulticastByteTable MULTI_BYTE2 1 MULTI_BYTE3 false;;
  initMulticastByteTable MULTI_BYTE3 2 MULTI_BYTE4 false;;
  initMulticastByteTable MULTI_BYTE4 3 0 true.

(** [processPacket(const uint8_t*, size_t)] *)
Definition processPacket_buf (now : Z) (headerBuf : list byte)
    : M SwitchPipeline PipelineResult :=
  modify (fun s => s <| m_counters ::= bump pipelineProcessed |>);;
  if (length headerBuf <? SERIALIZED_SIZE)%nat
  then mret (PipelineResult_init <| dropped := true |>)
  else gets (fun s => process now (m_pipeline s) headerBuf NDN_STATE).

(** [processPacket(const PacketHeader&)] *)
Definition processPacket (now : Z) (header : PacketHeader) : M SwitchPipeline PipelineResult :=
  processPacket_buf now (Serialize header).

(** [fibPriority]: one step per non-wildcard hash among the first four. *)
Definition fibPriority (nameHashes : list Z) : Z :=
  let validCount :=
    Z.of_nat (length (List.filter (fun h => negb (h =? 0xFF))
                        (take STATIM_NAME_HASH_COUNT nameHashes))) in
  u32 (FIB_PRIORITY_BASE + validCount * FIB_PRIORITY_STEP).

Definition fib_hash_field (nameHashes : list Z) (i : Z) : exn + MatchField :=
  match nameHashes !! Z.to_nat i with
  | Some h => if negb (h =? 0xFF) then matchNameHash i h else matchNameHashWildcard i
  | None => matchNameHashWildcard i
  end.

(** The match fields [installFibEntry] and [removeFibEntry] build. *)
Definition fib_match_fields (nameHashes : list Z) : exn + list MatchField :=
  f0 ← fib_hash_field nameHashes 0;
  f1 ← fib_hash_field nameHashes 1;
  f2 ← fib_hash_field nameHashes 2;
  f3 ← fib_hash_field nameHashes 3;
  mret [matchTypeWildcard; f0; f1; f2; f3].

Definition same_match (e expected : MatchField) : bool :=
  Bool.eqb (wildcard e) (wildcard expected) &&
  (wildcard e || (value e =? value expected)).

(** The predicate of [removeFibEntry]. *)
Definition fib_entry_matches (prio : Z) (expected : list MatchField) (e : FlowEntry) : bool :=
  (priority e =? prio) && (length (matchFields e) =? length expected)%nat &&
  forallb (fun '(a, b) => same_match a b) (zip (matchFields e) expected).

Definition removeFibEntry (nameHashes : list Z) : M SwitchPipeline unit :=
  let prio := fibPriority nameHashes in
  expected ← lift_result (fib_match_fields nameHashes);
  modify (fun s => s <| m_pipeline ::=
    with_table NDN_FIB (removeIf (fib_entry_matches prio expected)) |>).

Definition installFibEntry (nameHashes : list Z) (outputPort expiry : Z)
    : M SwitchPipeline unit :=
  modify (fun s => s <| m_counters ::= bump flowModsApplied |>);;
  fields ← lift_result (fib_match_fields nameHashes);
  let entry := mkFlowEntry fields (fibPriority nameHashes)
                 [SET_FIELD 0 1 [Byte.x00]; OUTPUT_MULTICAST outputPort]
                 (if 0 <? expiry then expiry else 0) (0 <? expiry) in
  removeFibEntry nameHashes;;
  modify (fun s => s <| m_pipeline ::= with_table NDN_FIB (addEntry entry) |>).

(** [diagnoseFibLookup] *)
Record FibLookupDiagnostic := mkFibLookupDiagnostic {
  diag_matched : bool;
  diag_matchLength : Z;
  diag_outputPort : Z
}.

Fixpoint first_output (acts : list FlowAction) : option Z :=
  match acts with
  | [] => None
  | OUTPUT p :: _ | OUTPUT_MULTICAST p :: _ => Some p
  | _ :: acts => first_output acts
  end.

Definition diagnoseFibLookup (now : Z) (header : PacketHeader)
    : M SwitchPipeline FibLookupDiagnostic :=
  s ← gets id;
  fib ← lift_result (getTable_const NDN_FIB (m_pipeline s));
  mret (match lookup now (Serialize header) fib with
        | None => mkFibLookupDiagnostic false 0 0
        | Some entry =>
            match first_output (actions entry) with
            | None => mkFibLookupDiagnostic false 0 0
            | Some port =>
                mkFibLookupDiagnostic true
                  (Z.of_nat (length (List.filter (fun f => negb (wildcard f))
                                       (drop 1 (matchFields entry))))) port
            end
        end).
End switch.

(** [StatefulForwarder::encodeOutPortsMask]: port 1 is the most significant bit;
    ports outside 1..32 are left out. *)
Definition mask_step (mask port : Z) : Z :=
  if (1 <=? port) && (port <=? 32) then Z.lor mask (Z.shiftl 1 (32 - port)) else mask.

Definition encodeOutPortsMask (ports : gset Z) : Z := foldl mask_step 0 (set_elements ports).
