(* ===== verification/SwitchSpec.v ===== *)
(** * SwitchSpec: what the Statim tables promise

    The flow-table FIB is specified as a finite map from a route key (the four
    name hashes, 0xff for a wildcard) to an output port and an expiry.  This file
    shows that [SwitchPipeline] implements that map: [initPipeline] builds the
    empty one, [installFibEntry] and [removeFibEntry] insert and delete, and
    [processPacket] does what the packet type asks for, whatever order [std::sort]
    gives entries of equal priority. *)
From S2P Require Import Prelude Tlv Names Simulator PacketHeader FlowTable SwitchPipeline.

(** ** A pipeline as a map from table ids to bags of entries *)
Definition pipeline_refines (tables : list FlowTable) (spec : gmap Z (list FlowEntry)) : Prop :=
  NoDup (m_tableId <$> tables) /\
  forall id, match spec !! id, find_table tables id with
             | None, None => True
             | Some es, Some t => m_entries t ≡ₚ es /\ table_sorted t
             | _, _ => False
             end.

Lemma find_table_elem tables t :
  NoDup (m_tableId <$> tables) -> t ∈ tables -> find_table tables (m_tableId t) = Some t.
Proof.
  intros Hnd Ht. unfold find_table. induction tables as [|x l IH]; [set_solver|].
  rewrite fmap_cons, NoDup_cons in Hnd. destruct Hnd as [Hx Hnd]. simpl.
  apply elem_of_cons in Ht as [->|Ht]; [by rewrite Z.eqb_refl|].
  destruct (Z.eqb_spec (m_tableId x) (m_tableId t)) as [E|E]; [|by apply IH].
  destruct Hx. rewrite E. by apply list_elem_of_fmap_2.
Qed.

Lemma find_table_perm tables tables' id :
  NoDup (m_tableId <$> tables) -> tables ≡ₚ tables' ->
  find_table tables' id = find_table tables id.
Proof.
  intros Hnd Hp. assert (NoDup (m_tableId <$> tables')) as Hnd' by (by rewrite <-Hp).
  destruct (find_table tables id) as [t|] eqn:E.
  - apply find_table_Some in E as [Ht <-]. apply find_table_elem; [done|]. by rewrite <-Hp.
  - destruct (find_table tables' id) as [t|] eqn:E'; [|done].
    apply find_table_Some in E' as [Ht <-]. rewrite <-Hp in Ht.
    by rewrite (find_table_elem tables t) in E.
Qed.

Lemma update_table_ids f id tables :
  (forall t, m_tableId (f t) = m_tableId t) ->
  m_tableId <$> update_table f id tables = m_tableId <$> tables.
Proof.
  intros Hf. induction tables as [|x l IH]; [done|]. simpl.
  destruct (m_tableId x =? id); rewrite !fmap_cons; [by rewrite Hf|by rewrite IH].
Qed.

Section refine.
Context {SS : StdSort} {SL : StdSortLaws}.

Lemma refines_empty : pipeline_refines [] ∅.
Proof. split; [constructor|]. intros id. by rewrite lookup_empty. Qed.

Lemma refines_find tables spec id es :
  pipeline_refines tables spec -> spec !! id = Some es ->
  exists t, find_table tables id = Some t /\ m_entries t ≡ₚ es /\ table_sorted t.
Proof.
  intros [_ H] Hs. specialize (H id). rewrite Hs in H.
  destruct (find_table tables id) as [t|]; [|done]. by exists t.
Qed.

Lemma refines_find_None tables spec id :
  pipeline_refines tables spec -> spec !! id = None -> find_table tables id = None.
Proof. intros [_ H] Hs. specialize (H id). rewrite Hs in H. by case_match. Qed.

Lemma refines_perm tables spec id es es' :
  pipeline_refines tables spec -> spec !! id = Some es -> es ≡ₚ es' ->
  pipeline_refines tables (<[id := es']> spec).
Proof.
  intros [Hnd H] Hs Hp. split; [done|]. intros i. specialize (H i).
  rewrite lookup_insert. case_decide as E; [|done]. subst.
  rewrite Hs in H. destruct (find_table tables i); [|done]. by rewrite <-Hp.
Qed.

Lemma refines_addTable tables spec id name :
  pipeline_refines tables spec -> spec !! id = None ->
  pipeline_refines (addTable id name tables) (<[id := []]> spec).
Proof.
  intros Hr Hs. pose proof (refines_find_None _ _ _ Hr Hs) as Hf. destruct Hr as [Hnd H].
  unfold addTable. rewrite Hf. set (t := mkFlowTable id name []).
  assert (std_sort table_id_less (tables ++ [t]) ≡ₚ t :: tables) as Hp.
  { rewrite std_sort_perm. apply (Permutation_app_comm tables [t]). }
  assert (NoDup (m_tableId <$> t :: tables)) as Hnd'.
  { rewrite fmap_cons. constructor; [|done]. rewrite list_elem_of_fmap.
    intros (x & Hx & Hin). simpl in Hx. subst id. by rewrite find_table_elem in Hf. }
  split; [by rewrite Hp|]. intros i. rewrite (find_table_perm (t :: tables)) by done.
  rewrite lookup_insert. unfold find_table. simpl.
  destruct (Z.eqb_spec id i) as [->|Hne].
  - rewrite decide_True by done. split; [done|]. constructor.
  - rewrite decide_False by done. apply H.
Qed.

Lemma getTable_present tables spec id es :
  pipeline_refines tables spec -> spec !! id = Some es -> getTable id tables = tables.
Proof.
  intros Hr Hs. destruct (refines_find _ _ _ _ Hr Hs) as (t & Hf & _).
  unfold getTable. by rewrite Hf.
Qed.

Lemma refines_with_table tables spec id es es' f :
  (forall t, m_tableId (f t) = m_tableId t) ->
  pipeline_refines tables spec -> spec !! id = Some es ->
  (forall t, m_entries t ≡ₚ es -> table_sorted t ->
     m_entries (f t) ≡ₚ es' /\ table_sorted (f t)) ->
  pipeline_refines (with_table id f tables) (<[id := es']> spec).
Proof.
  intros Hid Hr Hs Hf. unfold with_table. rewrite (getTable_present _ _ _ _ Hr Hs).
  destruct (refines_find _ _ _ _ Hr Hs) as (t & Ht & Hp & Hsort). destruct Hr as [Hnd H].
  split; [by rewrite update_table_ids|]. intros i. rewrite lookup_insert.
  case_decide as E.
  - subst i. rewrite (find_table_update_eq f id tables t) by done. by apply Hf.
  - rewrite find_table_update_ne by done. apply H.
Qed.

Lemma refines_addEntry tables spec id es e :
  pipeline_refines tables spec -> spec !! id = Some es ->
  pipeline_refines (with_table id (addEntry e) tables) (<[id := e :: es]> spec).
Proof.
  intros Hr Hs. eapply refines_with_table; [done..|]. intros t Hp Hsort.
  split; [by rewrite addEntry_perm, Hp|apply addEntry_sorted].
Qed.

Lemma refines_removeIf tables spec id es p :
  pipeline_refines tables spec -> spec !! id = Some es ->
  pipeline_refines (with_table id (removeIf p) tables)
    (<[id := List.filter (fun e => negb (p e)) es]> spec).
Proof.
  intros Hr Hs. eapply refines_with_table; [done..|]. intros t Hp Hsort.
  split; [|by apply removeIf_sorted]. unfold removeIf. simpl.
  by apply filter_perm.
Qed.

(** Adding a sequence of entries to one table. *)
Lemma refines_add_all tables spec id es new :
  pipeline_refines tables spec -> spec !! id = Some es ->
  pipeline_refines (foldl (fun ts e => with_table id (addEntry e) ts) tables new)
    (<[id := reverse new ++ es]> spec).
Proof.
  revert tables spec es. induction new as [|e new IH]; intros tables spec es Hr Hs; simpl.
  { by rewrite insert_id. }
  pose proof (refines_addEntry tables spec id es e Hr Hs) as Hr'.
  eapply IH in Hr'; [|apply lookup_insert_eq]. rewrite insert_insert_eq in Hr'.
  by rewrite reverse_cons, <-app_assoc.
Qed.
End refine.

(** ** The specification of the switch *)

(** A route key is what the hashes of a prefix come to: four octets. *)
Definition route_key (nameHashes : list Z) : list Z :=
  (fun i => default 0xFF (nameHashes !! i)) <$> [0; 1; 2; 3]%nat.

Definition key_field (i h : Z) : MatchField :=
  if h =? 0xFF then Wildcard (NAME_HASH_BASE_OFFSET + i * 8) 8
  else MatchField_exact (NAME_HASH_BASE_OFFSET + i * 8) 8 h.

Definition key_fields (key : list Z) : list MatchField :=
  matchTypeWildcard :: zip_with key_field [0; 1; 2; 3] key.

Definition key_weight (key : list Z) : Z :=
  Z.of_nat (length (List.filter (fun h => negb (h =? 0xFF)) key)).

Definition route : Type := Z * Z.

(** The flow entry of a route: its port and its expiry (0 for none). *)
Definition fib_entry (key : list Z) (r : route) : FlowEntry :=
  mkFlowEntry (key_fields key) (2000 + key_weight key * 1000)
    [SET_FIELD 0 1 [Byte.x00]; OUTPUT_MULTICAST r.1]
    (if 0 <? r.2 then r.2 else 0) (0 <? r.2).

Definition multibyte_field (byteIndex byteVal : Z) : MatchField :=
  MatchField_exact (8 + byteIndex * 8) 8 byteVal.

Definition multibyte_spec_entry (byteIndex next : Z) (isLast : bool) (byteVal : Z) : FlowEntry :=
  static_entry [multibyte_field byteIndex byteVal] 3000
    (SET_FIELD 0 1 [Byte.x00] :: byte_port_actions byteIndex byteVal
     ++ (if isLast then [] else [GOTO_TABLE next])).

Definition multibyte_entries (byteIndex next : Z) (isLast : bool) : list FlowEntry :=
  multibyte_spec_entry byteIndex next isLast <$> seqZ 0 256.

Definition fib_entries (routes : gmap (list Z) route) : list FlowEntry :=
  fib_drop :: ((fun kr => fib_entry kr.1 kr.2) <$> map_to_list routes).

Definition switch_spec (routes : gmap (list Z) route) : gmap Z (list FlowEntry) :=
  <[NDN_FIB := fib_entries routes]>
  (<[MULTI_BYTE4 := multibyte_entries 3 0 true]>
  (<[MULTI_BYTE3 := multibyte_entries 2 MULTI_BYTE4 false]>
  (<[MULTI_BYTE2 := multibyte_entries 1 MULTI_BYTE3 false]>
  (<[MULTI_BYTE1 := multibyte_entries 0 MULTI_BYTE2 false]>
  {[NDN_STATE := state_entries]})))).

Definition route_key_wf (key : list Z) : Prop := length key = 4%nat /\ Forall u8_range key.

(** The switch implements the route map [routes]. *)
Definition switch_refines (s : SwitchPipeline) (routes : gmap (list Z) route) : Prop :=
  pipeline_refines (m_pipeline s) (switch_spec routes) /\
  forall key, is_Some (routes !! key) -> route_key_wf key.

Lemma pipeline_refines_perm tables spec spec' :
  pipeline_refines tables spec ->
  (forall id, option_Forall2 Permutation (spec !! id) (spec' !! id)) ->
  pipeline_refines tables spec'.
Proof.
  intros [Hnd H] Hp. split; [done|]. intros id. specialize (H id). specialize (Hp id).
  destruct Hp; destruct (find_table tables id); try done. naive_solver (by etrans).
Qed.

Lemma for_each_modify {W A} (f : A -> W -> W) (xs : list A) (w : W) :
  for_each xs (fun x => modify (f x)) w = (foldl (fun w x => f x w) w xs, inr tt).
Proof. revert w. induction xs as [|x xs IH]; intros w; [done|]. apply IH. Qed.

Ltac map_at := rewrite ?lookup_insert_ne by done; apply lookup_insert_eq.

Section switch_refine.
Context {SS : StdSort} {SL : StdSortLaws}.

Lemma multibyte_entry_ok k next isLast v :
  0 <= k < 4 -> 0 <= v < 256 ->
  multibyte_entry k next isLast v = inr (multibyte_spec_entry k next isLast v).
Proof.
  intros Hk Hv. unfold multibyte_entry, matchOutPortByte.
  destruct (Z.leb_spec 4 k); [lia|]. rewrite u8_id by (unfold u8_range; lia).
  rewrite u16_id by (unfold u16_range, OUT_PORTS_OFFSET; lia). done.
Qed.

Lemma initMulticastByteTable_ok id k next isLast s spec :
  0 <= k < 4 -> pipeline_refines (m_pipeline s) spec -> spec !! id = Some [] ->
  exists s', initMulticastByteTable id k next isLast s = (s', inr tt) /\
    pipeline_refines (m_pipeline s') (<[id := multibyte_entries k next isLast]> spec).
Proof.
  intros Hk Hr Hs. unfold initMulticastByteTable. rewrite run_modify.
  assert (s <| m_pipeline ::= getTable id |> = s) as ->.
  { destruct s; unfold set_field, set_m_pipeline; simpl in *.
    by rewrite (getTable_present _ _ _ _ Hr Hs). }
  assert (forall vs s es, Forall (fun v => 0 <= v < 256) vs ->
    pipeline_refines (m_pipeline s) (<[id := es]> spec) ->
    exists s', for_each vs (fun byteVal =>
        entry ← lift_result (multibyte_entry k next isLast byteVal);
        modify (fun s => s <| m_pipeline ::= with_table id (addEntry entry) |>)) s
      = (s', inr tt) /\
      pipeline_refines (m_pipeline s')
        (<[id := (multibyte_spec_entry k next isLast <$> vs) ++ es]> spec)) as Hloop.
  { clear s Hr. induction vs as [|v vs IH]; intros s es Hf Hr; [by exists s|].
    apply Forall_cons in Hf as [Hv Hf]. cbn [for_each].
    pose proof (refines_addEntry _ _ _ _ (multibyte_spec_entry k next isLast v) Hr
      (lookup_insert_eq spec id es)) as Hr'.
    rewrite insert_insert_eq in Hr'.
    set (s1 := s <| m_pipeline ::=
      with_table id (addEntry (multibyte_spec_entry k next isLast v)) |>).
    destruct (IH s1 (multibyte_spec_entry k next isLast v :: es) Hf Hr')
      as (s' & Hrun & Hr'').
    exists s'. split.
    - refine (eq_trans (run_seq _ _ _ _ tt _) Hrun). by rewrite multibyte_entry_ok.
    - eapply refines_perm in Hr''; [|apply lookup_insert_eq|].
      + rewrite insert_insert_eq in Hr''. exact Hr''.
      + rewrite fmap_cons. symmetry. apply Permutation_middle. }
  destruct (Hloop (seqZ 0 256) s []) as (s' & Hrun & Hr').
  - apply Forall_seqZ. lia.
  - by rewrite insert_id.
  - exists s'. split; [done|]. by rewrite app_nil_r in Hr'.
Qed.

Lemma foldl_m_pipeline (g : FlowEntry -> list FlowTable -> list FlowTable) es s :
  m_pipeline (foldl (fun s e => s <| m_pipeline ::= g e |>) s es) =
  foldl (fun ts e => g e ts) (m_pipeline s) es.
Proof. revert s. induction es as [|e es IH]; intros s; [done|]. apply IH. Qed.

Lemma initPipeline_refines_aux s0 :
  m_pipeline s0 = [] ->
  exists s, initPipeline s0 = (s, inr tt) /\ switch_refines s ∅.
Proof.
  intros Hs0. unfold initPipeline. rewrite !run_modify.
  match goal with |- context [(for_each _ _ ≫= _) ?s] => set (s1 := s) end.
  assert (pipeline_refines (m_pipeline s1)
    (<[MULTI_BYTE4 := []]> (<[MULTI_BYTE3 := []]> (<[MULTI_BYTE2 := []]>
    (<[MULTI_BYTE1 := []]> (<[NDN_FIB := []]> (<[NDN_STATE := []]> ∅))))))) as H1.
  { unfold s1, set_field, set_m_pipeline. cbn [m_pipeline]. rewrite Hs0.
    repeat (apply refines_addTable; [|by vm_compute]). apply refines_empty. }
  clearbody s1. clear s0 Hs0.
  erewrite run_seq; [|apply for_each_modify]. rewrite run_modify.
  match goal with |- context [(initMulticastByteTable MULTI_BYTE1 _ _ _ ≫= _) ?s] =>
    set (s2 := s) end.
  eassert (pipeline_refines (m_pipeline s2) _) as H2.
  { unfold s2, set_field at 1, set_m_pipeline. cbn [m_pipeline]. rewrite foldl_m_pipeline.
    eapply refines_addEntry; [apply refines_add_all; [exact H1|]|]; map_at. }
  clearbody s2. clear s1 H1.
  destruct (initMulticastByteTable_ok MULTI_BYTE1 0 MULTI_BYTE2 false s2 _ ltac:(lia) H2)
    as (s3 & E3 & H3); [by vm_compute|].
  destruct (initMulticastByteTable_ok MULTI_BYTE2 1 MULTI_BYTE3 false s3 _ ltac:(lia) H3)
    as (s4 & E4 & H4); [by vm_compute|].
  destruct (initMulticastByteTable_ok MULTI_BYTE3 2 MULTI_BYTE4 false s4 _ ltac:(lia) H4)
    as (s5 & E5 & H5); [by vm_compute|].
  destruct (initMulticastByteTable_ok MULTI_BYTE4 3 0 true s5 _ ltac:(lia) H5)
    as (s6 & E6 & H6); [by vm_compute|].
  exists s6. erewrite run_seq by exact E3. erewrite run_seq by exact E4.
  erewrite run_seq by exact E5. split; [exact E6|]. split; [|intros key []; by simplify_map_eq].
  eapply pipeline_refines_perm; [exact H6|]. clear. intros id. unfold switch_spec.
  rewrite !lookup_insert, lookup_singleton, lookup_empty.
  unfold NDN_STATE, NDN_FIB, MULTI_BYTE1, MULTI_BYTE2, MULTI_BYTE3, MULTI_BYTE4.
  repeat (case_decide; subst; try done); constructor; try done.
  rewrite app_nil_r. apply reverse_Permutation.
Qed.
End switch_refine.

(** ** Installing and removing routes *)
Lemma route_key_length hashes : length (route_key hashes) = 4%nat.
Proof. done. Qed.

Lemma route_key_wf_of hashes : Forall u8_range hashes -> route_key_wf (route_key hashes).
Proof.
  intros Hf. split; [done|]. apply Forall_fmap, Forall_forall. intros i _. cbn.
  destruct (hashes !! i) as [h|] eqn:E; [|done]. eapply Forall_lookup_1 in Hf; eauto.
Qed.

Lemma route_key_id key : length key = 4%nat -> route_key key = key.
Proof. destruct key as [|a [|b [|c [|d [|]]]]]; done. Qed.

Lemma fib_hash_field_ok hashes i :
  (i < 4)%nat ->
  fib_hash_field hashes (Z.of_nat i) =
  inr (key_field (Z.of_nat i) (default 0xFF (hashes !! i))).
Proof.
  intros Hi. unfold fib_hash_field, matchNameHash, matchNameHashWildcard, nameHashOffset.
  rewrite Nat2Z.id. destruct (Z.leb_spec 4 (Z.of_nat i)); [lia|].
  rewrite u16_id by (unfold u16_range, NAME_HASH_BASE_OFFSET, NAME_HASH_LENGTH; lia).
  unfold key_field. destruct (hashes !! i) as [h|]; [|done]. simpl.
  by destruct (Z.eqb_spec h 0xFF) as [->|].
Qed.

Lemma fib_match_fields_ok hashes :
  fib_match_fields hashes = inr (key_fields (route_key hashes)).
Proof.
  unfold fib_match_fields.
  pose proof (fib_hash_field_ok hashes 0 ltac:(lia)) as H0.
  pose proof (fib_hash_field_ok hashes 1 ltac:(lia)) as H1.
  pose proof (fib_hash_field_ok hashes 2 ltac:(lia)) as H2.
  pose proof (fib_hash_field_ok hashes 3 ltac:(lia)) as H3.
  change (Z.of_nat 0) with 0 in H0. change (Z.of_nat 1) with 1 in H1.
  change (Z.of_nat 2) with 2 in H2. change (Z.of_nat 3) with 3 in H3.
  by rewrite H0, H1, H2, H3.
Qed.

Lemma key_weight_bound key : length key = 4%nat -> 0 <= key_weight key <= 4.
Proof.
  intros Hl. unfold key_weight.
  pose proof (List.filter_length_le (fun h => negb (h =? 0xFF)) key). lia.
Qed.

Lemma fibPriority_ok hashes :
  fibPriority hashes = 2000 + key_weight (route_key hashes) * 1000.
Proof.
  pose proof (key_weight_bound (route_key hashes) eq_refl) as Hb.
  enough (key_weight (route_key hashes) =
    Z.of_nat (length (List.filter (fun h => negb (h =? 0xFF)) (take 4 hashes)))) as E.
  { unfold fibPriority, FIB_PRIORITY_BASE, FIB_PRIORITY_STEP, STATIM_NAME_HASH_COUNT.
    rewrite <-E. apply u32_id. unfold u32_range. lia. }
  unfold key_weight, route_key.
  destruct hashes as [|a [|b [|c [|d l]]]]; cbn -[Z.eqb];
    repeat (case_match; cbn -[Z.eqb]; try done).
Qed.

Lemma same_match_key i h h' :
  same_match (key_field i h') (key_field i h) = true <-> h' = h.
Proof.
  unfold same_match, key_field.
  destruct (Z.eqb_spec h' 0xFF), (Z.eqb_spec h 0xFF); subst; cbn; try rewrite Z.eqb_eq; naive_solver.
Qed.

Lemma fib_entry_matches_key key key' r :
  length key = 4%nat -> length key' = 4%nat ->
  fib_entry_matches (2000 + key_weight key * 1000) (key_fields key) (fib_entry key' r) = true
  <-> key' = key.
Proof.
  intros Hl Hl'. unfold fib_entry_matches.
  destruct key as [|a [|b [|c [|d [|]]]]]; try done.
  destruct key' as [|a' [|b' [|c' [|d' [|]]]]]; try done.
  cbn [priority fib_entry matchFields key_fields zip_with length Nat.eqb andb zip forallb].
  rewrite !andb_true_iff, !same_match_key, !Z.eqb_eq.
  split; [naive_solver|]. intros [= -> -> -> ->]. done.
Qed.

Lemma fib_drop_kept key :
  length key = 4%nat ->
  fib_entry_matches (2000 + key_weight key * 1000) (key_fields key) fib_drop = false.
Proof.
  intros Hl%key_weight_bound. unfold fib_entry_matches. cbn [priority fib_drop static_entry].
  destruct (Z.eqb_spec 0 (2000 + key_weight key * 1000)); [lia|done].
Qed.

Lemma filter_negb_id {A} (p : A -> bool) l :
  Forall (fun x => p x = false) l -> List.filter (fun x => negb (p x)) l = l.
Proof. induction 1 as [|x l Hx _ IH]; simpl; [done|]. by rewrite Hx, IH. Qed.

Lemma fib_entries_remove routes key :
  (forall k, is_Some (routes !! k) -> route_key_wf k) -> length key = 4%nat ->
  List.filter (fun e => negb (fib_entry_matches (2000 + key_weight key * 1000) (key_fields key) e))
    (fib_entries routes) ≡ₚ fib_entries (delete key routes).
Proof.
  intros Hwf Hl. set (p := fib_entry_matches _ _).
  assert (forall m, m ⊆ routes -> m !! key = None -> List.filter (fun e => negb (p e))
    ((fun kr => fib_entry kr.1 kr.2) <$> map_to_list m)
    = (fun kr => fib_entry kr.1 kr.2) <$> map_to_list m) as Hid.
  { intros m Hm Hk. apply filter_negb_id, Forall_fmap, Forall_forall. intros [k r] Hin. cbn.
    apply elem_of_map_to_list in Hin. apply not_true_iff_false. intros Hp.
    apply fib_entry_matches_key in Hp; [simplify_map_eq| done|].
    eapply lookup_weaken in Hin; [|exact Hm]. by apply Hwf. }
  unfold fib_entries. cbn [List.filter]. unfold p at 1. rewrite fib_drop_kept by done.
  cbn [negb]. constructor. destruct (routes !! key) as [r|] eqn:E.
  - etrans; [apply filter_perm; symmetry;
      apply (fmap_Permutation _ _ _ (map_to_list_delete routes key r E))|].
    cbn [fmap list_fmap List.filter fst snd].
    assert (p (fib_entry key r) = true) as -> by (by apply fib_entry_matches_key).
    cbn [negb]. rewrite Hid; [done|apply delete_subseteq|apply lookup_delete_eq].
  - rewrite delete_id by done. by rewrite Hid.
Qed.

Lemma fib_entries_insert routes key r :
  routes !! key = None -> fib_entry key r :: fib_entries routes ≡ₚ fib_entries (<[key := r]> routes).
Proof.
  intros Hk. unfold fib_entries. rewrite (map_to_list_insert _ _ _ Hk). cbn.
  constructor.
Qed.

Lemma switch_spec_fib routes es :
  <[NDN_FIB := es]> (switch_spec routes) =
  <[NDN_FIB := es]> (switch_spec ∅).
Proof. unfold switch_spec. by rewrite !insert_insert_eq. Qed.

Section switch_ops.
Context {SS : StdSort} {SL : StdSortLaws}.

Lemma switch_spec_lookup_fib routes : switch_spec routes !! NDN_FIB = Some (fib_entries routes).
Proof. apply lookup_insert_eq. Qed.

Lemma switch_spec_set_fib tables routes routes' es :
  pipeline_refines tables (<[NDN_FIB := es]> (switch_spec routes)) ->
  es ≡ₚ fib_entries routes' -> pipeline_refines tables (switch_spec routes').
Proof.
  intros Hr Hp. eapply refines_perm in Hr; [|apply lookup_insert_eq|exact Hp].
  rewrite insert_insert_eq, switch_spec_fib in Hr.
  unfold switch_spec at 1 in Hr. by rewrite insert_insert_eq in Hr.
Qed.

Lemma removeFibEntry_refines_aux s routes hashes :
  switch_refines s routes ->
  exists s', removeFibEntry hashes s = (s', inr tt) /\
    switch_refines s' (delete (route_key hashes) routes) /\
    SwitchPipeline.m_counters s' = SwitchPipeline.m_counters s.
Proof.
  intros [Hr Hwf]. unfold removeFibEntry. rewrite fib_match_fields_ok, run_lift_inr.
  eexists. split; [done|]. split; [|done]. split.
  - eapply switch_spec_set_fib.
    + apply refines_removeIf; [exact Hr|apply switch_spec_lookup_fib].
    + rewrite fibPriority_ok. by apply fib_entries_remove.
  - intros k [r Hk]. apply lookup_delete_Some in Hk as [_ Hk]. by apply Hwf.
Qed.

Lemma installFibEntry_refines_aux s routes hashes port exp :
  switch_refines s routes -> Forall u8_range hashes ->
  exists s', installFibEntry hashes port exp s = (s', inr tt) /\
    switch_refines s' (<[route_key hashes := (port, exp)]> routes) /\
    SwitchPipeline.m_counters s' = bump flowModsApplied (SwitchPipeline.m_counters s).
Proof.
  intros Hr Hf. unfold installFibEntry. rewrite run_modify, fib_match_fields_ok, run_lift_inr.
  cbv zeta.
  set (s1 := s <| SwitchPipeline.m_counters ::= bump flowModsApplied |>).
  destruct (removeFibEntry_refines_aux s1 routes hashes Hr)
    as (s' & E & [Hr' Hwf] & Hc).
  erewrite run_seq by exact E. eexists. split; [done|]. split; [|exact Hc]. split.
  - eapply switch_spec_set_fib.
    + apply refines_addEntry; [exact Hr'|apply switch_spec_lookup_fib].
    + rewrite fibPriority_ok.
      change (mkFlowEntry _ _ _ _ _) with (fib_entry (route_key hashes) (port, exp)).
      rewrite fib_entries_insert by apply lookup_delete_eq.
      by rewrite insert_delete_eq.
  - intros k Hk. destruct (decide (k = route_key hashes)) as [->|Hne].
    { by apply route_key_wf_of. }
    apply Hwf. by rewrite lookup_insert_ne, <-(lookup_delete_ne routes (route_key hashes)) in Hk.
Qed.
End switch_ops.

(** ** Looking a header up *)
Section lookup_spec.
Context {SS : StdSort} {SL : StdSortLaws}.

(** A table whose bag has a unique best match finds it, in any sorted order. *)
Lemma refines_lookup now buf tables spec id es e :
  pipeline_refines tables spec -> spec !! id = Some es ->
  e ∈ es -> entry_matches now e buf = true ->
  (forall x, x ∈ es -> entry_matches now x buf = true -> x <> e -> priority x < priority e) ->
  exists t, find_table tables id = Some t /\ lookup now buf t = Some e.
Proof.
  intros Hr Hs He Hm Hu. destruct (refines_find _ _ _ _ Hr Hs) as (t & Hf & Hp & Hsort).
  exists t. split; [done|]. apply lookup_unique; [done|by rewrite Hp|done|].
  intros x. rewrite Hp. apply Hu.
Qed.

Lemma refines_lookup_none now buf tables spec id es :
  pipeline_refines tables spec -> spec !! id = Some es ->
  (forall x, x ∈ es -> entry_matches now x buf = false) ->
  exists t, find_table tables id = Some t /\ lookup now buf t = None.
Proof.
  intros Hr Hs Hn. destruct (refines_find _ _ _ _ Hr Hs) as (t & Hf & Hp & _).
  exists t. split; [done|]. apply lookup_none. intros x. rewrite Hp. apply Hn.
Qed.
End lookup_spec.

(** The header fields the tables look at. *)
Definition hdr_type (buf : list byte) : Z := buf_at buf 0.
Definition hdr_out_mask (buf : list byte) : Z := be_decode (take 4 (drop 1 buf)).
Definition hdr_hashes (buf : list byte) : list Z :=
  (fun i => buf_at buf (7 + i)) <$> [0; 1; 2; 3].

Lemma buf_at_range buf i : u8_range (buf_at buf i).
Proof. apply byte_to_Z_range. Qed.

Lemma field_matches_byte buf (i : nat) v w :
  (i < length buf)%nat ->
  field_matches (mkMatchField (8 * Z.of_nat i) 8 v w) buf = w || (buf_at buf (Z.of_nat i) =? v).
Proof.
  intros Hi. unfold field_matches. cbn [length_ offset wildcard value].
  change ((8 =? 0) || (32 <? 8)) with false. cbv iota zeta.
  destruct (Z.ltb_spec (Z.of_nat (length buf)) ((8 * Z.of_nat i + 8 + 7) / 8)) as [Hlt|_].
  { exfalso. revert Hlt. apply Z.le_ngt, Z.lt_succ_r, Z.div_lt_upper_bound; lia. }
  destruct w; [done|]. cbn [orb]. f_equal.
  pose proof (extractBits_aligned buf i 1 ltac:(lia)) as E.
  change (8 * Z.of_nat 1) with 8 in E. rewrite E.
  destruct (lookup_lt_is_Some_2 buf i Hi) as [b Hb].
  rewrite (drop_S _ _ _ Hb). unfold buf_at. rewrite Nat2Z.id, Hb. cbn [take default].
  unfold be_decode. simpl. pose proof (byte_to_Z_range b) as Hr. unfold u8_range in Hr. done.
Qed.

Lemma field_matches_out_ports buf w :
  (5 <= length buf)%nat ->
  field_matches (mkMatchField 8 32 0 w) buf = w || (hdr_out_mask buf =? 0).
Proof.
  intros Hl. unfold field_matches. cbn [length_ offset wildcard value].
  change ((32 =? 0) || (32 <? 32)) with false. change ((8 + 32 + 7) / 8) with 5. cbv iota zeta.
  destruct (Z.ltb_spec (Z.of_nat (length buf)) 5); [lia|].
  destruct w; [done|]. cbn [orb]. unfold hdr_out_mask. f_equal.
  apply (extractBits_aligned buf 1 4). lia.
Qed.

(** *** The dispatch table *)
Inductive Dispatch := ToStateful | ToController | ToFib | ToMulticast | NoEntry.

Definition dispatch (buf : list byte) : Dispatch :=
  let ty := hdr_type buf in
  if ty =? UNPROCESSED then ToStateful
  else if ty =? INTEREST then (if hdr_out_mask buf =? 0 then ToFib else ToMulticast)
  else if ty =? DATA then ToMulticast
  else if ty =? CONTROL then ToController
  else if ty =? SELF_LEARNING_DISCOVERY then ToFib
  else NoEntry.

Definition dispatch_actions (d : Dispatch) : option (list FlowAction) :=
  match d with
  | ToStateful => Some [OUTPUT PORT_STATEFUL_MODULE]
  | ToController => Some [PACKET_IN]
  | ToFib => Some [GOTO_TABLE NDN_FIB]
  | ToMulticast => Some [GOTO_TABLE MULTI_BYTE1]
  | NoEntry => None
  end.

(** What an entry of the dispatch table tests. *)
Definition state_match (ty : Z) (noPorts : bool) (e : FlowEntry) : bool :=
  match matchFields e with
  | [f; g] => (ty =? value f) && (wildcard g || noPorts)
  | _ => false
  end.

Lemma state_entries_match now buf e :
  (5 <= length buf)%nat -> e ∈ state_entries ->
  entry_matches now e buf = state_match (hdr_type buf) (hdr_out_mask buf =? 0) e.
Proof.
  intros Hl He.
  assert (exists t p acts w, e = static_entry [matchType t; mkMatchField 8 32 0 w] p acts)
    as (t & p & acts & w & ->).
  { unfold state_entries in He. rewrite !elem_of_cons, elem_of_nil in He.
    destruct He as [->|[->|[->|[->|[->|[->|[]]]]]]]; by repeat eexists. }
  unfold entry_matches, isExpired, matchType, MatchField_exact, state_match.
  cbn [hasExpiry static_entry andb matchFields forallb wildcard value].
  rewrite (field_matches_out_ports buf w Hl).
  assert (field_matches (mkMatchField TYPE_OFFSET TYPE_LENGTH t false) buf
          = (hdr_type buf =? t)) as ->
    by (apply (field_matches_byte buf 0 t false); lia).
  by rewrite andb_true_r.
Qed.

(** [e] is the best entry for a type and an empty or non-empty bitmap. *)
Definition state_best (ty : Z) (noPorts : bool) (e : FlowEntry) : bool :=
  bool_decide (e ∈ state_entries) && state_match ty noPorts e &&
  forallb (fun x => negb (state_match ty noPorts x) || bool_decide (x = e)
                    || (priority x <? priority e)) state_entries.

Section dispatch.
Context {SS : StdSort} {SL : StdSortLaws}.

Lemma state_lookup_best now buf tables spec e :
  (5 <= length buf)%nat ->
  pipeline_refines tables spec -> spec !! NDN_STATE = Some state_entries ->
  state_best (hdr_type buf) (hdr_out_mask buf =? 0) e = true ->
  exists t, find_table tables NDN_STATE = Some t /\ lookup now buf t = Some e.
Proof.
  intros Hl Hr Hs Hb. unfold state_best in Hb. rewrite !andb_true_iff in Hb.
  destruct Hb as [[Hin%bool_decide_eq_true Hm] Hall].
  eapply refines_lookup; [done..|by rewrite state_entries_match|].
  intros x Hx Hxm Hne. rewrite state_entries_match in Hxm by done.
  rewrite List.forallb_forall in Hall. specialize (Hall x). rewrite <-list_elem_of_In in Hall.
  specialize (Hall Hx). rewrite Hxm, bool_decide_false in Hall by done. simpl in Hall. lia.
Qed.

Lemma state_lookup now buf tables spec :
  (5 <= length buf)%nat ->
  pipeline_refines tables spec -> spec !! NDN_STATE = Some state_entries ->
  exists t, find_table tables NDN_STATE = Some t /\
    actions <$> lookup now buf t = dispatch_actions (dispatch buf).
Proof.
  intros Hl Hr Hs. unfold dispatch.
  assert (forall i, state_best (hdr_type buf) (hdr_out_mask buf =? 0)
      (nth i state_entries fib_drop) = true ->
    exists t, find_table tables NDN_STATE = Some t /\
      actions <$> lookup now buf t = Some (actions (nth i state_entries fib_drop))) as Hpick.
  { intros i Hb. destruct (state_lookup_best now _ _ _ _ Hl Hr Hs Hb) as (t & Ht & Hlk).
    exists t. by rewrite Hlk. }
  destruct (Z.eqb_spec (hdr_type buf) UNPROCESSED) as [E|N0].
  { rewrite E in Hpick. apply (Hpick 1%nat). by destruct (_ =? 0). }
  destruct (Z.eqb_spec (hdr_type buf) INTEREST) as [E|N1].
  { rewrite E in Hpick. destruct (hdr_out_mask buf =? 0);
      [by apply (Hpick 0%nat)|by apply (Hpick 2%nat)]. }
  destruct (Z.eqb_spec (hdr_type buf) DATA) as [E|N2].
  { rewrite E in Hpick. apply (Hpick 3%nat). by destruct (_ =? 0). }
  destruct (Z.eqb_spec (hdr_type buf) CONTROL) as [E|N3].
  { rewrite E in Hpick. apply (Hpick 4%nat). by destruct (_ =? 0). }
  destruct (Z.eqb_spec (hdr_type buf) SELF_LEARNING_DISCOVERY) as [E|N4].
  { rewrite E in Hpick. apply (Hpick 5%nat). by destruct (_ =? 0). }
  destruct (refines_lookup_none now buf _ _ _ _ Hr Hs) as (t & Ht & Hn).
  - intros x Hx. rewrite state_entries_match by done.
    unfold state_entries in Hx. rewrite !elem_of_cons, elem_of_nil in Hx.
    unfold state_match.
    destruct Hx as [->|[->|[->|[->|[->|[->|[]]]]]]];
      cbn [matchFields static_entry value matchType MatchField_exact];
      by apply andb_false_intro1, Z.eqb_neq.
  - exists t. by rewrite Hn.
Qed.
End dispatch.

(** *** The multicast tables *)
Definition reset_type (buf : list byte) : list byte := Byte.x00 :: drop 1 buf.

Definition byte_ports (byteIndex byteVal : Z) : gset Z :=
  list_to_set ((seqZ 1 8 ≫= fun i =>
    if Z.land (Z.shiftr byteVal (8 - i)) 1 =? 1 then [u16 (byteIndex * 8 + i)] else []) : list Z).

Definition add_ports (ps : gset Z) (r : PipelineResult) : PipelineResult :=
  r <| outputPorts ::= fun s => ps ∪ s |>.

Lemma add_ports_empty r : add_ports ∅ r = r.
Proof. unfold add_ports, set_field, set_outputPorts. rewrite (left_id_L ∅ (∪)). by destruct r. Qed.

Lemma add_ports_add ps qs r : add_ports ps (add_ports qs r) = add_ports (qs ∪ ps) r.
Proof.
  unfold add_ports, set_field, set_outputPorts. cbn. f_equal.
  by rewrite (assoc_L (∪)), (comm_L (∪) ps qs).
Qed.

Lemma run_actions_multicast {A} (xs : list A) p (g : A -> Z) rest r t c :
  run_actions (((xs ≫= fun i : A => if p i : bool then [OUTPUT_MULTICAST (g i)] else [])
                : list FlowAction) ++ rest) r t c =
  run_actions rest (add_ports (list_to_set ((xs ≫= fun i : A => if p i : bool then [g i] else []) : list Z)) r) t c.
Proof.
  revert r. induction xs as [|x xs IH]; intros r.
  { cbn [mbind list_bind app list_to_set]. by rewrite add_ports_empty. }
  cbn [mbind list_bind]. destruct (p x); [|apply IH].
  cbn [app run_actions]. etrans; [apply IH|]. f_equal.
  change (r <| outputPorts ::= _ |>) with (add_ports {[g x]} r). apply add_ports_add.
Qed.

Lemma run_set_type acts r t c :
  (1 <= length (modifiedHeader r))%nat ->
  run_actions (SET_FIELD 0 1 [Byte.x00] :: acts) r t c =
  run_actions acts (r <| modifiedHeader ::= reset_type |>) t c.
Proof.
  intros Hl. cbn [run_actions].
  destruct (Z.ltb_spec (Z.of_nat (length (modifiedHeader r))) 0); [lia|].
  destruct (Z.ltb_spec (Z.of_nat (length (modifiedHeader r)) - 0) 1); [lia|].
  done.
Qed.

Lemma reset_type_idem buf : reset_type (reset_type buf) = reset_type buf.
Proof. done. Qed.

Lemma buf_at_reset buf i : 0 < i -> buf_at (reset_type buf) i = buf_at buf i.
Proof.
  intros Hi. unfold buf_at, reset_type. destruct (Z.to_nat i) as [|n] eqn:E; [lia|].
  destruct buf; [done|]. cbn. by rewrite drop_0.
Qed.

Lemma length_reset buf : (1 <= length buf)%nat -> length (reset_type buf) = length buf.
Proof. destruct buf; cbn; [lia|]. by rewrite drop_0. Qed.

Lemma byte_table_entry_matches now buf k next isLast v :
  0 <= k -> (Z.to_nat k + 1 < length buf)%nat ->
  entry_matches now (multibyte_spec_entry k next isLast v) buf = (buf_at buf (k + 1) =? v).
Proof.
  intros Hk Hl. unfold entry_matches, isExpired, multibyte_spec_entry, multibyte_field,
    MatchField_exact.
  cbn [hasExpiry static_entry andb matchFields forallb].
  pose proof (field_matches_byte buf (Z.to_nat k + 1) v false ltac:(lia)) as H.
  replace (8 * Z.of_nat (Z.to_nat k + 1)) with (8 + k * 8) in H by lia.
  replace (Z.of_nat (Z.to_nat k + 1)) with (k + 1) in H by lia.
  by rewrite H, andb_true_r.
Qed.

Lemma switch_spec_tables routes k next isLast id :
  (k, next, isLast, id) ∈ [(0, MULTI_BYTE2, false, MULTI_BYTE1); (1, MULTI_BYTE3, false, MULTI_BYTE2);
    (2, MULTI_BYTE4, false, MULTI_BYTE3); (3, 0, true, MULTI_BYTE4)] ->
  switch_spec routes !! id = Some (multibyte_entries k next isLast).
Proof.
  rewrite !elem_of_cons, elem_of_nil. unfold switch_spec.
  intros [[= -> -> -> ->]|[[= -> -> -> ->]|[[= -> -> -> ->]|[[= -> -> -> ->]|[]]]]];
    by rewrite ?lookup_insert_ne, ?lookup_insert_eq by done.
Qed.

(** One table visit: reset the type octet and add the ports [ps]. *)
Definition hop_result (ps : gset Z) (r : PipelineResult) : PipelineResult :=
  add_ports ps (r <| matched := true |> <| modifiedHeader ::= reset_type |>).

Lemma hop_result_twice ps qs r : hop_result qs (hop_result ps r) = hop_result (ps ∪ qs) r.
Proof.
  destruct r as [m p d o h]. unfold hop_result, add_ports, set_field, set_outputPorts, set_modifiedHeader,
    set_matched. cbn. f_equal.
  by rewrite (assoc_L (∪)), (comm_L (∪) qs ps).
Qed.

Lemma hop_buf_at ps r i :
  0 < i -> buf_at (modifiedHeader (hop_result ps r)) i = buf_at (modifiedHeader r) i.
Proof. destruct r. apply buf_at_reset. Qed.

Lemma hop_length ps r :
  length (modifiedHeader (hop_result ps r)) = S (Nat.pred (length (modifiedHeader r))).
Proof. destruct r as [? ? ? ? [|]]; cbn; [done|]. by rewrite drop_0. Qed.

Lemma switch_spec_state routes : switch_spec routes !! NDN_STATE = Some state_entries.
Proof. unfold switch_spec. by rewrite !lookup_insert_ne by done. Qed.

Ltac table_lookup := apply switch_spec_tables; rewrite !elem_of_cons; auto 10.

Section multicast.
Context {SS : StdSort} {SL : StdSortLaws}.

Lemma multicast_hop hops now tables spec id k next isLast r :
  0 <= k -> (Z.to_nat k + 1 < length (modifiedHeader r))%nat ->
  pipeline_refines tables spec -> spec !! id = Some (multibyte_entries k next isLast) ->
  process_hops (S hops) now tables r id =
  let r' := hop_result (byte_ports k (buf_at (modifiedHeader r) (k + 1))) r in
  if isLast
  then if bool_decide (outputPorts r' = ∅) then r' <| dropped := true |> else r'
  else process_hops hops now tables r' next.
Proof.
  intros Hk Hl Hr Hs. set (v := buf_at (modifiedHeader r) (k + 1)).
  destruct (refines_lookup now (modifiedHeader r) _ _ _ _
    (multibyte_spec_entry k next isLast v) Hr Hs) as (t & Ht & Hlk).
  - apply list_elem_of_fmap_2, elem_of_seqZ. apply (buf_at_range (modifiedHeader r) (k + 1)).
  - rewrite byte_table_entry_matches by done. apply Z.eqb_refl.
  - intros x Hx Hm Hne. exfalso. apply list_elem_of_fmap in Hx as (v' & -> & _).
    rewrite byte_table_entry_matches in Hm by done. apply Z.eqb_eq in Hm.
    by subst v'.
  - cbn [process_hops]. rewrite Ht, Hlk. cbv zeta.
    cbn [actions multibyte_spec_entry static_entry].
    rewrite run_set_type by (cbn; lia). unfold byte_port_actions.
    rewrite run_actions_multicast. fold (byte_ports k v).
    destruct isLast; [done|]. done.
Qed.

(** The four tables in sequence emit the ports of the four bitmap bytes. *)
Definition mask_ports (buf : list byte) : gset Z :=
  byte_ports 0 (buf_at buf 1) ∪ byte_ports 1 (buf_at buf 2)
  ∪ byte_ports 2 (buf_at buf 3) ∪ byte_ports 3 (buf_at buf 4).

Lemma multicast_chain hops now tables routes r :
  (5 <= length (modifiedHeader r))%nat -> outputPorts r = ∅ ->
  pipeline_refines tables (switch_spec routes) ->
  process_hops (4 + hops) now tables r MULTI_BYTE1 =
  let r' := hop_result (mask_ports (modifiedHeader r)) r in
  if bool_decide (outputPorts r' = ∅) then r' <| dropped := true |> else r'.
Proof.
  intros Hl Ho Hr. change (4 + hops)%nat with (S (S (S (S hops)))).
  rewrite (multicast_hop _ _ _ (switch_spec routes) _ 0 MULTI_BYTE2 false r);
    [|lia|lia|exact Hr|table_lookup]. cbv zeta iota.
  rewrite (multicast_hop _ _ _ (switch_spec routes) _ 1 MULTI_BYTE3 false);
    [|lia|rewrite hop_length; lia|exact Hr|table_lookup]. cbv zeta iota.
  rewrite (multicast_hop _ _ _ (switch_spec routes) _ 2 MULTI_BYTE4 false);
    [|lia|rewrite !hop_length; lia|exact Hr|table_lookup]. cbv zeta iota.
  rewrite (multicast_hop _ _ _ (switch_spec routes) _ 3 0 true);
    [|lia|rewrite !hop_length; lia|exact Hr|table_lookup]. cbv zeta iota.
  rewrite !hop_buf_at, !hop_result_twice by lia. by rewrite !(assoc_L (∪)).
Qed.
End multicast.

(** The ports a bitmap stands for: port [p] is bit [32 - p]. *)
Definition decode_mask (mask : Z) : gset Z :=
  list_to_set (List.filter (fun p => Z.testbit mask (32 - p)) (seqZ 1 32)).

Lemma elem_of_decode_mask mask p :
  p ∈ decode_mask mask <-> 1 <= p <= 32 /\ Z.testbit mask (32 - p) = true.
Proof.
  unfold decode_mask. rewrite elem_of_list_to_set, list_elem_of_In, List.filter_In,
    <-list_elem_of_In, elem_of_seqZ.
  split; intros [? ?]; (split; [lia|done]).
Qed.

Lemma land_shiftr_1 x k : 0 <= k -> (Z.land (Z.shiftr x k) 1 =? 1) = Z.testbit x k.
Proof.
  intros Hk. change 1 with (Z.ones 1) at 1. rewrite Z.land_ones by lia.
  rewrite <-(Z.add_0_l k) at 2. rewrite <-Z.shiftr_spec by lia. rewrite <-Z.bit0_mod.
  by destruct (Z.testbit _ 0).
Qed.

Lemma elem_of_byte_ports k v p :
  0 <= k < 4 ->
  p ∈ byte_ports k v <-> 1 <= p - 8 * k <= 8 /\ Z.testbit v (8 - (p - 8 * k)) = true.
Proof.
  intros Hk. unfold byte_ports. rewrite elem_of_list_to_set, list_elem_of_bind.
  split.
  - intros (i & Hp & Hi). apply elem_of_seqZ in Hi. rewrite land_shiftr_1 in Hp by lia.
    destruct (Z.testbit v (8 - i)) eqn:E; [|set_solver].
    apply list_elem_of_singleton in Hp. rewrite u16_id in Hp by (unfold u16_range; lia).
    replace (p - 8 * k) with i by lia. split; [lia|done].
  - intros [Hp Ht]. exists (p - 8 * k). rewrite land_shiftr_1 by lia. rewrite Ht.
    split; [|apply elem_of_seqZ; lia]. apply list_elem_of_singleton.
    rewrite u16_id by (unfold u16_range; lia). lia.
Qed.

Lemma mask_testbit buf p :
  (5 <= length buf)%nat -> 1 <= p <= 32 ->
  Z.testbit (hdr_out_mask buf) (32 - p) = Z.testbit (buf_at buf (1 + (p - 1) / 8)) (7 - (p - 1) mod 8).
Proof.
  intros Hl Hp. unfold hdr_out_mask.
  assert (length (take 4 (drop 1 buf)) = 4%nat) as H4 by (rewrite length_take, length_drop; lia).
  rewrite testbit_be_decode by (rewrite H4; lia). rewrite H4.
  rewrite buf_bit_drop_take by lia. unfold buf_bit.
  replace (8 * Z.of_nat 1 + (8 * Z.of_nat 4 - 1 - (32 - p))) with ((p - 1) + 1 * 8) by lia.
  rewrite Z.div_add, Z.mod_add by lia. f_equal. f_equal. lia.
Qed.

(** The ports the multicast tables emit are exactly those of the bitmap. *)
Lemma mask_ports_decode buf :
  (5 <= length buf)%nat -> mask_ports buf = decode_mask (hdr_out_mask buf).
Proof.
  intros Hl. apply leibniz_equiv, set_equiv. intros p. unfold mask_ports.
  rewrite !elem_of_union, !elem_of_byte_ports, elem_of_decode_mask by lia.
  assert (forall k, 0 <= k < 4 -> 1 <= p - 8 * k <= 8 ->
    Z.testbit (hdr_out_mask buf) (32 - p) = Z.testbit (buf_at buf (1 + k)) (8 - (p - 8 * k))) as Hb.
  { intros k Hk Hp. rewrite mask_testbit by lia.
    assert ((p - 1) / 8 = k) as -> by (Z.div_mod_to_equations; lia).
    f_equal. Z.div_mod_to_equations; lia. }
  split.
  - intros [[[[H1 H2]|[H1 H2]]|[H1 H2]]|[H1 H2]]; (split; [lia|]).
    + by rewrite (Hb 0) by lia.
    + by rewrite (Hb 1) by lia.
    + by rewrite (Hb 2) by lia.
    + by rewrite (Hb 3) by lia.
  - intros [Hp Ht].
    assert (p <= 8 \/ 9 <= p <= 16 \/ 17 <= p <= 24 \/ 25 <= p) as [H|[H|[H|H]]] by lia.
    + left; left; left. rewrite (Hb 0) in Ht by lia. split; [lia|done].
    + left; left; right. rewrite (Hb 1) in Ht by lia. split; [lia|done].
    + left; right. rewrite (Hb 2) in Ht by lia. split; [lia|done].
    + right. rewrite (Hb 3) in Ht by lia. split; [lia|done].
Qed.

(** *** The FIB table *)
Definition route_live (now : Z) (r : route) : bool := negb ((0 <? r.2) && (r.2 <=? now)).

(** The key of the first [n] hashes. *)
Definition prefix_key (n : nat) (hashes : list Z) : list Z :=
  take n hashes ++ replicate (4 - n) 0xFF.

(** Longest-prefix match over the live routes. *)
Fixpoint lpm (now : Z) (routes : gmap (list Z) route) (hashes : list Z) (n : nat)
    : option route :=
  match routes !! prefix_key n hashes with
  | Some r => if route_live now r then Some r
              else match n with O => None | S n => lpm now routes hashes n end
  | None => match n with O => None | S n => lpm now routes hashes n end
  end.

(** Routes installed from name hashes: some hashes, none of them the wildcard,
    padded with wildcards. *)
Definition key_prefix_shaped (key : list Z) : Prop :=
  exists l, key = l ++ replicate (4 - length l) 0xFF /\ (length l <= 4)%nat /\
            Forall (fun h => h <> 0xFF) l.

Definition routes_prefix_shaped (routes : gmap (list Z) route) : Prop :=
  forall key, is_Some (routes !! key) -> key_prefix_shaped key.

Lemma route_key_prefix_shaped hashes :
  (length hashes <= 4)%nat -> Forall (fun h => h <> 0xFF) hashes ->
  route_key hashes = hashes ++ replicate (4 - length hashes) 0xFF /\
  key_prefix_shaped (route_key hashes).
Proof.
  intros Hl Hf. assert (route_key hashes = hashes ++ replicate (4 - length hashes) 0xFF) as E.
  { destruct hashes as [|a [|b [|c [|d [|]]]]]; simpl in Hl; try done; lia. }
  split; [done|]. by exists hashes.
Qed.

(** [o] is the live route of the longest prefix of at most [n] hashes. *)
Definition is_longest (now : Z) (routes : gmap (list Z) route) (hs : list Z) (n : nat)
    (o : option route) : Prop :=
  match o with
  | Some r => exists m, (m <= n)%nat /\ routes !! prefix_key m hs = Some r /\
      route_live now r = true /\
      forall m' r', (m < m' <= n)%nat -> routes !! prefix_key m' hs = Some r' ->
        route_live now r' = false
  | None => forall m r, (m <= n)%nat -> routes !! prefix_key m hs = Some r ->
      route_live now r = false
  end.

Lemma is_longest_step now routes hs n o :
  is_longest now routes hs n o ->
  (forall r, routes !! prefix_key (S n) hs = Some r -> route_live now r = false) ->
  is_longest now routes hs (S n) o.
Proof.
  intros Ho Hdead. destruct o as [r|]; simpl in *.
  - destruct Ho as (m & Hm & Hr & Hlive & Hmax). exists m. split_and!; [lia|done..|].
    intros m' r' Hm'. destruct (decide (m' = S n)) as [->|]; [apply Hdead|]. apply Hmax. lia.
  - intros m r Hm. destruct (decide (m = S n)) as [->|]; [apply Hdead|]. apply Ho. lia.
Qed.

Lemma lpm_spec now routes hs n : is_longest now routes hs n (lpm now routes hs n).
Proof.
  assert (forall n r, routes !! prefix_key n hs = Some r -> route_live now r = true ->
    is_longest now routes hs n (Some r)) as Hhit.
  { intros m r Hr Hl. exists m. split_and!; [done..|]. intros m' r' Hm. lia. }
  induction n as [|n IH]; cbn [lpm].
  - destruct (routes !! prefix_key 0 hs) as [r|] eqn:E; [destruct (route_live now r) eqn:El|];
      [by apply Hhit| |]; intros m r' Hm; replace m with 0%nat by lia; congruence.
  - destruct (routes !! prefix_key (S n) hs) as [r|] eqn:E; [destruct (route_live now r) eqn:El|];
      [by apply Hhit| |]; apply is_longest_step; [done|congruence|done|congruence].
Qed.

Definition key_matches (key hs : list Z) : bool :=
  forallb (fun '(h, b) => (h =? 0xFF) || (b =? h)) (zip key hs).

Lemma key_field_matches buf i h :
  0 <= i -> (Z.to_nat i + 7 < length buf)%nat ->
  field_matches (key_field i h) buf = (h =? 0xFF) || (buf_at buf (7 + i) =? h).
Proof.
  intros Hi Hl. unfold key_field, NAME_HASH_BASE_OFFSET.
  pose proof (fun v w => field_matches_byte buf (Z.to_nat i + 7) v w ltac:(lia)) as H.
  replace (8 * Z.of_nat (Z.to_nat i + 7)) with (56 + i * 8) in H by lia.
  replace (Z.of_nat (Z.to_nat i + 7)) with (7 + i) in H by lia.
  destruct (h =? 0xFF); unfold Wildcard, MatchField_exact; by rewrite H.
Qed.

Lemma fib_entry_matches_hdr now buf key r :
  (11 <= length buf)%nat -> length key = 4%nat ->
  entry_matches now (fib_entry key r) buf = route_live now r && key_matches key (hdr_hashes buf).
Proof.
  intros Hl Hk. unfold entry_matches, isExpired, fib_entry, route_live.
  cbn [hasExpiry expiry matchFields].
  destruct key as [|a [|b [|c [|d [|]]]]]; try done.
  assert (forallb (fun f => field_matches f buf) (key_fields [a; b; c; d]) =
    key_matches [a; b; c; d] (hdr_hashes buf)) as ->.
  { unfold key_fields, key_matches. cbn [forallb zip_with zip hdr_hashes fmap list_fmap].
    rewrite !key_field_matches by lia.
    assert (field_matches matchTypeWildcard buf = true) as ->; [|done].
    apply (field_matches_byte buf 0 0 true). lia. }
  destruct (Z.ltb_spec 0 r.2); cbn [andb negb]; [|done]. by destruct (r.2 <=? now).
Qed.

(** The keys that match a header are those of prefixes of its hashes. *)
Lemma key_matches_padding j hs : key_matches (replicate j 0xFF) hs = true.
Proof. unfold key_matches. revert hs. induction j; intros [|h hs]; simpl; auto. Qed.

Lemma key_matches_cons h key b hs :
  key_matches (h :: key) (b :: hs) = ((h =? 0xFF) || (b =? h)) && key_matches key hs.
Proof. done. Qed.

Lemma key_matches_prefix l j hs :
  Forall (fun h => h <> 0xFF) l -> (length l <= length hs)%nat ->
  key_matches (l ++ replicate j 0xFF) hs = true <-> l = take (length l) hs.
Proof.
  revert hs. induction l as [|h l IH]; intros hs Hf Hl; cbn [app length take].
  { split; [done|]. intros _. apply key_matches_padding. }
  destruct hs as [|b hs]; [simpl in Hl; lia|]. apply Forall_cons in Hf as [Hh Hf].
  simpl in Hl. rewrite key_matches_cons, andb_true_iff, IH by (done || lia). cbn [take].
  destruct (Z.eqb_spec h 0xFF); [done|]. cbn [orb]. rewrite Z.eqb_eq. split.
  - intros [-> <-]. done.
  - intros [= -> <-]. done.
Qed.

Lemma key_matches_prefix_key m hs : key_matches (prefix_key m hs) hs = true.
Proof.
  unfold prefix_key. generalize (4 - m)%nat as j. intros j. revert hs.
  induction m as [|m IH]; intros [|b hs]; cbn [take app]; try apply key_matches_padding.
  rewrite key_matches_cons, Z.eqb_refl, orb_true_r. apply IH.
Qed.

Lemma filter_no_wildcard l :
  Forall (fun h => h <> 0xFF) l -> List.filter (fun h => negb (h =? 0xFF)) l = l.
Proof.
  induction 1 as [|h l Hh _ IH]; [done|]. simpl. rewrite IH. by destruct (Z.eqb_spec h 0xFF).
Qed.

Lemma key_weight_padded l :
  Forall (fun h => h <> 0xFF) l ->
  key_weight (l ++ replicate (4 - length l) 0xFF) = Z.of_nat (length l).
Proof.
  intros Hf. unfold key_weight. rewrite List.filter_app, length_app.
  rewrite (filter_no_wildcard l Hf).
  assert (forall j, List.filter (fun h => negb (h =? 0xFF)) (replicate j 0xFF) = []) as ->.
  { induction j; done. }
  simpl. lia.
Qed.

Lemma length_prefix_key m hs : length hs = 4%nat -> (m <= 4)%nat -> length (prefix_key m hs) = 4%nat.
Proof. intros. unfold prefix_key. rewrite length_app, length_take, length_replicate. lia. Qed.

(** A shaped key that matches is the key of one of the prefixes; the hashes it
    tests are at most those of any other shaped prefix key at least as long. *)
Lemma shaped_match_prefix key hs :
  length hs = 4%nat -> key_prefix_shaped key -> key_matches key hs = true ->
  exists n, (n <= 4)%nat /\ key = prefix_key n hs /\ key_weight key = Z.of_nat n /\
    Forall (fun h => h <> 0xFF) (take n hs).
Proof.
  intros Hh (l & -> & Hl & Hf) Hm. apply key_matches_prefix in Hm; [|done|lia].
  exists (length l). unfold prefix_key. rewrite <-Hm. split_and!; [lia|done| |done].
  by apply key_weight_padded.
Qed.

Lemma prefix_key_weight_le m n hs :
  length hs = 4%nat -> (n <= m <= 4)%nat -> Forall (fun h => h <> 0xFF) (take n hs) ->
  Z.of_nat n <= key_weight (prefix_key m hs).
Proof.
  intros Hh Hnm Hf. unfold prefix_key, key_weight.
  rewrite <-(take_drop n (take m hs)). rewrite take_take, Nat.min_l by lia.
  rewrite !List.filter_app, !length_app.
  rewrite (filter_no_wildcard _ Hf).
  rewrite length_take. lia.
Qed.

Section fib.
Context {SS : StdSort} {SL : StdSortLaws}.

Definition fib_actions (o : option route) : list FlowAction :=
  match o with
  | Some r => [SET_FIELD 0 1 [Byte.x00]; OUTPUT_MULTICAST r.1]
  | None => [DROP]
  end.

Lemma elem_of_fib_entries routes e :
  e ∈ fib_entries routes <->
  e = fib_drop \/ exists key r, routes !! key = Some r /\ e = fib_entry key r.
Proof.
  unfold fib_entries. rewrite elem_of_cons, list_elem_of_fmap. f_equiv. split.
  - intros ([key r] & -> & Hin%elem_of_map_to_list). by exists key, r.
  - intros (key & r & Hin & ->). exists (key, r). by rewrite elem_of_map_to_list.
Qed.

Lemma fib_drop_matches now buf : entry_matches now fib_drop buf = true.
Proof. done. Qed.

Lemma lpm_best now routes hs m r key r' :
  length hs = 4%nat -> routes_prefix_shaped routes -> (m <= 4)%nat ->
  routes !! prefix_key m hs = Some r ->
  (forall m' r', (m < m' <= 4)%nat -> routes !! prefix_key m' hs = Some r' ->
     route_live now r' = false) ->
  routes !! key = Some r' -> route_live now r' = true -> key_matches key hs = true ->
  key = prefix_key m hs \/ key_weight key < key_weight (prefix_key m hs).
Proof.
  intros Hhs Hshape Hm Hr Hmax Hkey Hlive Hmatch.
  destruct (shaped_match_prefix key hs) as (n & Hn & Hk & Hw & Hf); [done| |done|].
  { apply Hshape. by eexists. }
  destruct (shaped_match_prefix (prefix_key m hs) hs) as (n' & Hn' & Hk' & Hw' & Hf');
    [done| |apply key_matches_prefix_key|].
  { apply Hshape. by eexists. }
  assert (n <= m)%nat as Hnm.
  { destruct (decide (n <= m)%nat) as [|Hlt]; [done|]. exfalso.
    rewrite Hk in Hkey. rewrite (Hmax n r') in Hlive; [done|lia|done]. }
  pose proof (prefix_key_weight_le m n hs Hhs ltac:(lia) Hf) as Hle.
  rewrite Hw, Hw' in *. destruct (decide (n = n')) as [->|]; [left; congruence|right; lia].
Qed.

(** The FIB table finds the route [lpm] selects. *)
Lemma fib_lookup now buf tables routes :
  (11 <= length buf)%nat -> routes_prefix_shaped routes ->
  (forall key, is_Some (routes !! key) -> route_key_wf key) ->
  pipeline_refines tables (switch_spec routes) ->
  exists t e, find_table tables NDN_FIB = Some t /\ lookup now buf t = Some e /\
    actions e = fib_actions (lpm now routes (hdr_hashes buf) 4).
Proof.
  intros Hl Hshape Hwf Hr. set (hs := hdr_hashes buf).
  assert (forall key r, routes !! key = Some r ->
    entry_matches now (fib_entry key r) buf = route_live now r && key_matches key hs) as Hem.
  { intros key r Hk. apply fib_entry_matches_hdr; [done|]. apply Hwf. by eexists. }
  pose proof (switch_spec_lookup_fib routes) as Hs.
  pose proof (lpm_spec now routes hs 4) as Hlpm.
  destruct (lpm now routes hs 4) as [r|]; simpl in Hlpm.
  - destruct Hlpm as (m & Hm & Hmr & Hlive & Hmax).
    destruct (refines_lookup now buf _ _ _ _ (fib_entry (prefix_key m hs) r) Hr Hs)
      as (t & Ht & Hlk).
    + apply elem_of_fib_entries. right. eauto.
    + rewrite (Hem _ _ Hmr), Hlive. apply key_matches_prefix_key.
    + intros x Hx Hxm Hne. apply elem_of_fib_entries in Hx as [->|(key & r' & Hk & ->)].
      { cbn [priority fib_drop static_entry fib_entry].
        pose proof (key_weight_bound (prefix_key m hs)) as Hb.
        rewrite length_prefix_key in Hb by done. specialize (Hb eq_refl). lia. }
      rewrite (Hem _ _ Hk), andb_true_iff in Hxm. destruct Hxm as [Hl' Hkm].
      destruct (lpm_best now routes hs m r key r') as [->|Hlt]; [done..| |cbn [priority fib_entry]; lia].
      by simplify_map_eq.
    + exists t, (fib_entry (prefix_key m hs) r). done.
  - destruct (refines_lookup now buf _ _ _ _ fib_drop Hr Hs) as (t & Ht & Hlk).
    + apply elem_of_fib_entries. by left.
    + done.
    + intros x Hx Hxm Hne. apply elem_of_fib_entries in Hx as [->|(key & r' & Hk & ->)]; [done|].
      exfalso. rewrite (Hem _ _ Hk), andb_true_iff in Hxm. destruct Hxm as [Hl' Hkm].
      destruct (shaped_match_prefix key hs) as (n & Hn & -> & _); [done| |done|].
      { apply Hshape. by eexists. }
      by rewrite (Hlpm n r' Hn Hk) in Hl'.
    + exists t, fib_drop. done.
Qed.
End fib.

(** ** What [processPacket] computes *)
Definition switch_process (now : Z) (routes : gmap (list Z) route) (buf : list byte)
    : PipelineResult :=
  let hit := PipelineResult_init <| modifiedHeader := buf |> <| matched := true |> in
  let out ps := hit <| modifiedHeader := reset_type buf |> <| outputPorts := ps |> in
  match dispatch buf with
  | ToStateful => hit <| outputPorts := {[PORT_STATEFUL_MODULE]} |>
  | ToController => hit <| packetIn := true |>
  | ToFib =>
      match lpm now routes (hdr_hashes buf) 4 with
      | Some r => out {[r.1]}
      | None => hit <| dropped := true |>
      end
  | ToMulticast =>
      let ps := decode_mask (hdr_out_mask buf) in
      if bool_decide (ps = ∅) then out ∅ <| dropped := true |> else out ps
  | NoEntry => PipelineResult_init <| modifiedHeader := buf |> <| dropped := true |>
  end.

Lemma process_ok now buf tables routes :
  (12 <= length buf)%nat -> routes_prefix_shaped routes ->
  (forall key, is_Some (routes !! key) -> route_key_wf key) ->
  pipeline_refines tables (switch_spec routes) ->
  process now tables buf NDN_STATE = switch_process now routes buf.
Proof.
  intros Hl Hshape Hwf Hr. unfold process.
  destruct (Nat.eqb_spec (length buf) 0); [lia|].
  set (r0 := PipelineResult_init <| modifiedHeader := buf |>).
  change MAX_HOPS with (S (4 + 27)). cbn [process_hops].
  destruct (state_lookup now buf tables (switch_spec routes)) as (t & Ht & Hlk);
    [lia|done|apply switch_spec_state|].
  rewrite Ht. change (modifiedHeader r0) with buf. unfold switch_process.
  destruct (lookup now buf t) as [e|]; destruct (dispatch buf) eqn:Ed; try done;
    injection Hlk as ->; cbn [run_actions negb].
  - done.
  - done.
  - destruct (fib_lookup now buf tables routes) as (t' & e' & Ht' & Hlk' & Ha); [lia|done..|].
    cbn [Nat.add process_hops]. rewrite Ht'.
    change (modifiedHeader (set_field matched _ r0)) with buf. rewrite Hlk', Ha.
    destruct (lpm now routes (hdr_hashes buf) 4) as [r|]; [|done].
    cbn [fib_actions]. rewrite run_set_type by (cbn; lia). cbn [run_actions negb].
    cbn [outputPorts set_field set_outputPorts set_matched set_modifiedHeader r0
      PipelineResult_init].
    rewrite (right_id_L ∅ (∪)), bool_decide_false by set_solver.
    unfold r0, set_field, set_outputPorts, set_modifiedHeader, set_matched. cbn.
    f_equal. apply (right_id_L ∅ (∪)).
  - rewrite (multicast_chain 27 now tables routes); [|cbn; lia|done|done].
    cbv zeta. cbn [modifiedHeader set_field set_matched r0 set_modifiedHeader PipelineResult_init].
    rewrite mask_ports_decode by lia.
    unfold hop_result, add_ports, set_field, r0, set_outputPorts, set_modifiedHeader,
      set_matched, set_dropped. cbn.
    rewrite (right_id_L ∅ (∪)). case_bool_decide as E; [by rewrite E|done].
Qed.

(** ** The output-port bitmap *)
Lemma mask_step_bit mask p k :
  0 <= k -> Z.testbit (mask_step mask p) k =
  Z.testbit mask k || (bool_decide (1 <= p <= 32) && bool_decide (k = 32 - p)).
Proof.
  intros Hk. unfold mask_step.
  destruct (Z.leb_spec 1 p), (Z.leb_spec p 32); cbn [andb];
    try (rewrite (bool_decide_false (1 <= p <= 32)) by lia; by rewrite orb_false_r).
  rewrite (bool_decide_true (1 <= p <= 32)) by lia. rewrite Z.lor_spec, testbit_shiftl1 by lia.
  f_equal. apply bool_decide_ext. lia.
Qed.

Lemma mask_fold_bit l mask k :
  0 <= k -> Z.testbit (foldl mask_step mask l) k =
  Z.testbit mask k || bool_decide (k < 32 /\ 32 - k ∈ l).
Proof.
  intros Hk. revert mask. induction l as [|p l IH]; intros mask; cbn [foldl].
  { rewrite bool_decide_false by set_solver. by rewrite orb_false_r. }
  rewrite IH, mask_step_bit, <-orb_assoc by done. f_equal.
  apply Bool.eq_iff_eq_true. rewrite orb_true_iff, andb_true_iff, !bool_decide_eq_true, elem_of_cons.
  split; [intros [[H1 ->]|[H1 H2]]; split; [lia|left; lia|lia|by right]|].
  intros [H1 [H2|H2]]; [left; lia|by right].
Qed.

Lemma encodeOutPortsMask_bit ports k :
  0 <= k -> Z.testbit (encodeOutPortsMask ports) k = bool_decide (k < 32 /\ 32 - k ∈ ports).
Proof.
  intros Hk. unfold encodeOutPortsMask. rewrite mask_fold_bit, Z.bits_0 by done. cbn [orb].
  apply bool_decide_ext. by rewrite elem_of_set_elements.
Qed.

Lemma encodeOutPortsMask_range ports : u32_range (encodeOutPortsMask ports).
Proof.
  assert (0 <= encodeOutPortsMask ports) as H0.
  { unfold encodeOutPortsMask. enough (forall l m, 0 <= m -> 0 <= foldl mask_step m l) as H
      by (apply H; lia).
    induction l as [|p l IH]; intros m Hm; [done|]. cbn [foldl]. apply IH. unfold mask_step.
    case_match; [|done]. apply Z.lor_nonneg. split; [done|]. apply Z.shiftl_nonneg. lia. }
  split; [done|]. change 4294967296 with (2 ^ 32).
  destruct (decide (encodeOutPortsMask ports = 0)) as [->|]; [lia|].
  apply Z.log2_lt_pow2; [lia|]. apply Z.nle_gt. intros Hle.
  pose proof (Z.bit_log2 (encodeOutPortsMask ports) ltac:(lia)) as Hb.
  rewrite encodeOutPortsMask_bit in Hb by lia. apply bool_decide_eq_true in Hb. lia.
Qed.

Lemma decode_encode_mask ports p :
  p ∈ decode_mask (encodeOutPortsMask ports) <-> p ∈ ports /\ 1 <= p <= 32.
Proof.
  rewrite elem_of_decode_mask. split.
  - intros [Hp Hb]. rewrite encodeOutPortsMask_bit in Hb by lia.
    apply bool_decide_eq_true in Hb as [_ Hb]. by replace (32 - (32 - p)) with p in Hb by lia.
  - intros [Hin Hp]. split; [done|]. rewrite encodeOutPortsMask_bit by lia.
    apply bool_decide_eq_true. split; [lia|]. by replace (32 - (32 - p)) with p by lia.
Qed.

(** ** Headers on the wire *)
Lemma hdr_fields (h : PacketHeader) :
  header_wf h ->
  hdr_type (Serialize h) = m_type h /\ hdr_out_mask (Serialize h) = m_outPorts h /\
  hdr_hashes (Serialize h) = m_nameHashes h.
Proof.
  intros [Ht Hp _ Hh Hc _]. unfold Serialize. destruct (hashes_of_length_4 _ Hc) as (a & b & c & d & E).
  rewrite E in *. rewrite be_encode_1. cbn [be_encode app take fmap list_fmap STATIM_NAME_HASH_COUNT].
  split_and!.
  - by apply byte_to_of_Z_id.
  - unfold hdr_out_mask. cbn [drop take].
    apply (be_roundtrip 4 (m_outPorts h)). apply Hp.
  - rewrite !Forall_cons in Hh. destruct Hh as (Ha & Hb & Hc' & Hd & _).
    change ([byte_to_Z (byte_of_Z a); byte_to_Z (byte_of_Z b); byte_to_Z (byte_of_Z c);
             byte_to_Z (byte_of_Z d)] = [a; b; c; d]).
    by rewrite !byte_to_of_Z_id.
Qed.

Lemma testbit_above w x n : 0 <= x < 2 ^ w -> w <= n -> Z.testbit x n = false.
Proof.
  intros Hx Hn. destruct (decide (x = 0)) as [->|]; [apply Z.bits_0|].
  apply Z.bits_above_log2; [lia|]. apply Z.lt_le_trans with w; [|done].
  apply Z.log2_lt_pow2; lia.
Qed.

Lemma decode_mask_empty mask : u32_range mask -> decode_mask mask = ∅ <-> mask = 0.
Proof.
  intros Hr. split.
  - intros He. apply Z.bits_inj'. intros n Hn. rewrite Z.bits_0.
    destruct (Z.testbit mask n) eqn:E; [|done]. exfalso.
    assert (n < 32) as Hlt.
    { apply Z.nle_gt. intros Hle. rewrite (testbit_above 32 mask n) in E; [congruence|done|lia]. }
    assert (32 - n ∈ decode_mask mask) as Hin.
    { apply elem_of_decode_mask. replace (32 - (32 - n)) with n by lia. split; [lia|done]. }
    rewrite He in Hin. by apply elem_of_empty in Hin.
  - intros ->. apply leibniz_equiv, set_equiv. intros p. rewrite elem_of_decode_mask, Z.bits_0.
    set_solver.
Qed.

Lemma prefix_key_names `{!StringHash} (name : Name) n :
  (n <= 4)%nat ->
  prefix_key n (m_nameHashes (PacketHeader_of_name name)) =
  m_nameHashes (PacketHeader_of_name (take n name)).
Proof.
  intros Hn. unfold prefix_key, PacketHeader_of_name, computeNameHashes, setNameHashes,
    STATIM_NAME_HASH_COUNT. cbn [m_nameHashes].
  destruct name as [|a [|b [|c [|d l]]]];
    destruct n as [|[|[|[|[|n]]]]]; try lia; done.
Qed.

Lemma route_key_names `{!StringHash} (name : Name) :
  route_key (m_nameHashes (PacketHeader_of_name name)) = m_nameHashes (PacketHeader_of_name name).
Proof. apply route_key_id, name_hashes_length. Qed.

Lemma name_key_shaped `{!StringHash} (name : Name) :
  key_prefix_shaped (m_nameHashes (PacketHeader_of_name name)).
Proof.
  exists (computeComponentHash <$> take 4 name). split_and!; [done| |].
  - rewrite length_fmap, length_take. lia.
  - apply Forall_fmap, Forall_forall. intros c _. cbn.
    pose proof (computeComponentHash_range c). lia.
Qed.

(** The route of the longest live prefix of a name is the one [lpm] selects. *)
Lemma lpm_names `{!StringHash} now routes (name : Name) n r :
  (n <= 4)%nat -> (n <= length name)%nat ->
  routes !! m_nameHashes (PacketHeader_of_name (take n name)) = Some r ->
  route_live now r = true ->
  (forall m r, (n < m <= 4)%nat -> (m <= length name)%nat ->
     routes !! m_nameHashes (PacketHeader_of_name (take m name)) = Some r ->
     route_live now r = false) ->
  lpm now routes (m_nameHashes (PacketHeader_of_name name)) 4 = Some r.
Proof.
  intros Hn4 Hn Hr Hlive Hlonger.
  pose proof (lpm_spec now routes (m_nameHashes (PacketHeader_of_name name)) 4) as Hl.
  set (hs := m_nameHashes (PacketHeader_of_name name)) in *.
  assert (forall m, (m <= 4)%nat -> prefix_key m hs =
    m_nameHashes (PacketHeader_of_name (take (Nat.min m (length name)) name))) as Hpk.
  { intros m Hm4. unfold hs. rewrite prefix_key_names by done. do 2 f_equal.
    rewrite <-(take_ge name (length name)) at 1 by done. apply take_take. }
  assert (routes !! prefix_key n hs = Some r) as Hr'.
  { rewrite Hpk, Nat.min_l by lia. done. }
  destruct (lpm now routes hs 4) as [r'|]; simpl in Hl.
  - destruct Hl as (m & Hm4 & Hmr & Hlr & Hmax). rewrite Hpk in Hmr by done.
    destruct (decide (Nat.min m (length name) = n)) as [En|Hne]; [congruence|].
    exfalso. destruct (decide (Nat.min m (length name) <= n)%nat) as [Hle|Hgt].
    + rewrite (Hmax n r) in Hlive; [done|lia|done].
    + rewrite (Hlonger (Nat.min m (length name)) r') in Hlr; [done|lia|lia|done].
  - exfalso. rewrite (Hl n r) in Hlive; [done|lia|done].
Qed.

Lemma processPacket_ok now s routes h :
  switch_refines s routes -> routes_prefix_shaped routes -> header_wf h ->
  (processPacket now h s).2 = inr (switch_process now routes (Serialize h)).
Proof.
  intros [Hr Hk] Hshape Hwf. pose proof (length_Serialize _ Hwf) as Hl.
  unfold processPacket, processPacket_buf. rewrite run_modify, Hl.
  cbn [Nat.ltb SERIALIZED_SIZE Nat.leb gets snd]. f_equal.
  apply process_ok; [rewrite Hl; done|done..].
Qed.

(** ** Properties *)

(** [initPipeline] on a fresh pipeline succeeds, and the six tables it leaves
    are, up to the order of equal priorities, the specified dispatch table, an
    empty FIB with its default drop, and the four multicast tables. *)
Theorem initPipeline_refines {SS : StdSort} {SL : StdSortLaws} :
  exists s, initPipeline switch_new = (s, inr tt) /\ switch_refines s ∅.
Proof. by apply initPipeline_refines_aux. Qed.

Lemma initPipeline_refines_witness :
  exists s, @initPipeline InsertionSort.insertion_sort switch_new = (s, inr tt) /\
            switch_refines s ∅.
Proof.
  exact (@initPipeline_refines InsertionSort.insertion_sort InsertionSort.insertion_sort_laws).
Defined.

(** C11: on a switch that implements a route map, [removeFibEntry] deletes exactly
    the key of its hashes and [installFibEntry] replaces exactly the route of that
    key (so one key never has two entries), neither throws, and the other tables
    and the counters other than [flowModsApplied] stay. *)
Theorem fib_updates_refine {SS : StdSort} {SL : StdSortLaws}
    (s : SwitchPipeline) (routes : gmap (list Z) route) (hashes : list Z) (port exp : Z)
    (Hs : switch_refines s routes) (Hh : Forall u8_range hashes) :
  (exists s', removeFibEntry hashes s = (s', inr tt) /\
     switch_refines s' (delete (route_key hashes) routes) /\
     SwitchPipeline.m_counters s' = SwitchPipeline.m_counters s) /\
  (exists s', installFibEntry hashes port exp s = (s', inr tt) /\
     switch_refines s' (<[route_key hashes := (port, exp)]> routes) /\
     SwitchPipeline.m_counters s' = bump flowModsApplied (SwitchPipeline.m_counters s)).
Proof.
  split; [by apply removeFibEntry_refines_aux|by apply installFibEntry_refines_aux].
Qed.

(** A switch after [initPipeline], for the witnesses. *)
Definition switch_booted : SwitchPipeline :=
  (@initPipeline InsertionSort.insertion_sort switch_new).1.

Lemma switch_booted_refines : switch_refines switch_booted ∅.
Proof.
  unfold switch_booted. destruct (@initPipeline_refines_aux InsertionSort.insertion_sort
    InsertionSort.insertion_sort_laws switch_new eq_refl) as (s & E & H).
  rewrite E. exact H.
Qed.

Definition switch_one_route : SwitchPipeline :=
  (@installFibEntry InsertionSort.insertion_sort [7; 9] 3 0 switch_booted).1.

Lemma switch_one_route_refines :
  switch_refines switch_one_route {[ [7; 9; 0xFF; 0xFF] := (3, 0) ]}.
Proof.
  unfold switch_one_route.
  destruct (@installFibEntry_refines_aux InsertionSort.insertion_sort
    InsertionSort.insertion_sort_laws switch_booted ∅ [7; 9] 3 0 switch_booted_refines)
    as (s & E & H & _); [by repeat constructor|].
  rewrite E. exact H.
Qed.

Lemma fib_updates_refine_witness :
  exists s', @installFibEntry InsertionSort.insertion_sort [7; 9] 3 0 switch_booted = (s', inr tt) /\
    switch_refines s' {[ [7; 9; 0xFF; 0xFF] := (3, 0) ]}.
Proof.
  destruct (@fib_updates_refine InsertionSort.insertion_sort InsertionSort.insertion_sort_laws
    switch_booted ∅ [7; 9] 3 0 switch_booted_refines ltac:(by repeat constructor))
    as [_ (s' & E & H & _)].
  exists s'. split; [exact E|exact H].
Defined.

(** C1: on a switch that implements a route map, [processPacket] is the
    specification, for every buffer: a short buffer is dropped, UNPROCESSED goes to
    the stateful module, CONTROL to the controller, an INTEREST without output
    ports or a discovery to the port of the longest live prefix (or is dropped
    when there is none), an INTEREST with ports or DATA to exactly the ports of the
    bitmap with the type octet cleared, and any other type is dropped; the hop
    limit is never reached and [std::sort] never matters. *)
Theorem processPacket_refines
    (now : Z) (s : SwitchPipeline) (routes : gmap (list Z) route) (buf : list byte)
    (Hs : switch_refines s routes) (Hshape : routes_prefix_shaped routes) :
  processPacket_buf now buf s =
  (s <| SwitchPipeline.m_counters ::= bump pipelineProcessed |>,
   inr (if (length buf <? SERIALIZED_SIZE)%nat then PipelineResult_init <| dropped := true |>
        else switch_process now routes buf)).
Proof.
  destruct Hs as [Hr Hwf]. unfold processPacket_buf. rewrite run_modify.
  destruct (Nat.ltb_spec (length buf) SERIALIZED_SIZE) as [|Hl]; [done|].
  unfold gets. f_equal. f_equal. by apply process_ok.
Qed.

Lemma one_route_shaped : routes_prefix_shaped {[ [7; 9; 0xFF; 0xFF] := (3, 0) ]}.
Proof.
  intros key [r Hk]. apply lookup_singleton_Some in Hk as [<- _].
  exists [7; 9]. split_and!; [done|simpl; lia|by repeat constructor].
Qed.

Lemma processPacket_refines_witness :
  outputPorts <$> (processPacket_buf 5
    [Byte.x01; Byte.x00; Byte.x00; Byte.x00; Byte.x00; Byte.x00; Byte.x02; Byte.x07; Byte.x09;
     Byte.x05; Byte.xff; Byte.x00] switch_one_route).2 = inr {[3]}.
Proof.
  rewrite (processPacket_refines _ _ _ _ switch_one_route_refines one_route_shaped).
  vm_compute. reflexivity.
Defined.

(** The type-[ty] header the forwarder sends for a name. *)
Definition name_header `{!StringHash} (ty : Z) (name : Name) : PacketHeader :=
  setType ty (PacketHeader_of_name name).

Lemma name_header_wf `{!StringHash} ty name : u8_range ty -> header_wf (name_header ty name).
Proof. intros Ht. apply setters_wf; [|done]. apply computeNameHashes_wf, header_default_wf. Qed.

(** An Interest header without output ports leaves through the port of the
    longest prefix of its name that has a live route, for prefixes of at most four
    components. *)
Theorem interest_longest_prefix {SH : StringHash}
    (now : Z) (s : SwitchPipeline) (routes : gmap (list Z) route) (name : Name) (n : nat)
    (port exp : Z)
    (Hs : switch_refines s routes) (Hshape : routes_prefix_shaped routes)
    (Hn : (n <= 4)%nat /\ (n <= length name)%nat)
    (Hroute : routes !! m_nameHashes (PacketHeader_of_name (take n name)) = Some (port, exp))
    (Hlive : route_live now (port, exp) = true)
    (Hlonger : forall m r, (n < m <= 4)%nat -> (m <= length name)%nat ->
       routes !! m_nameHashes (PacketHeader_of_name (take m name)) = Some r ->
       route_live now r = false) :
  exists r, (processPacket now (name_header INTEREST name) s).2 = inr r /\
    outputPorts r = {[port]} /\ dropped r = false /\ packetIn r = false.
Proof.
  pose proof (name_header_wf INTEREST name ltac:(by vm_compute)) as Hwf.
  pose proof (hdr_fields _ Hwf) as (Ht & Hm & Hhs).
  rewrite (processPacket_ok now s routes) by done. eexists. split; [reflexivity|].
  unfold switch_process, dispatch. rewrite Ht, Hm, Hhs.
  change (m_type (name_header INTEREST name)) with INTEREST.
  change (m_outPorts (name_header INTEREST name)) with 0.
  change (m_nameHashes (name_header INTEREST name))
    with (m_nameHashes (PacketHeader_of_name name)).
  rewrite (lpm_names now routes name n (port, exp)) by tauto. done.
Qed.

(** A hash to run the examples with: the sum of the octets. *)
Definition sum_hash : StringHash := fun bs => foldr (fun b acc => byte_to_Z b + acc) 0 bs.

Definition demo_name : Name := [component_of_string "a"; component_of_string "b"].

Definition demo_key : list Z := m_nameHashes (@PacketHeader_of_name sum_hash (take 1 demo_name)).

Definition switch_demo : SwitchPipeline :=
  (@installFibEntry InsertionSort.insertion_sort demo_key 4 100 switch_booted).1.

Lemma switch_demo_refines : switch_refines switch_demo {[ demo_key := (4, 100) ]}.
Proof.
  unfold switch_demo.
  destruct (@installFibEntry_refines_aux InsertionSort.insertion_sort
    InsertionSort.insertion_sort_laws switch_booted ∅ demo_key 4 100 switch_booted_refines)
    as (s & E & H & _); [by repeat constructor|].
  rewrite E. exact H.
Qed.

Lemma demo_shaped : routes_prefix_shaped {[ demo_key := (4, 100) ]}.
Proof.
  intros key [r Hk]. apply lookup_singleton_Some in Hk as [<- _]. apply name_key_shaped.
Qed.

Lemma interest_longest_prefix_witness :
  exists r, (processPacket 99 (@name_header sum_hash INTEREST demo_name) switch_demo).2 = inr r /\
    outputPorts r = {[4]} /\ dropped r = false /\ packetIn r = false.
Proof.
  apply (@interest_longest_prefix sum_hash 99 switch_demo {[ demo_key := (4, 100) ]} demo_name 1
    4 100 switch_demo_refines demo_shaped).
  - split; [lia|simpl; lia].
  - vm_compute. reflexivity.
  - reflexivity.
  - intros m r Hm Hl Hk. simpl in Hl. assert (m = 2%nat) as -> by lia. vm_compute in Hk. discriminate.
Defined.

(** A header the stateful module returns, of type DATA or INTEREST with the
    bitmap of a port set that meets 1..32, leaves through exactly the ports of the
    set that the 32-bit bitmap can name, with the type octet reset. *)
Theorem multicast_exact (now : Z) (s : SwitchPipeline) (routes : gmap (list Z) route)
    (h : PacketHeader) (ports : gset Z)
    (Hs : switch_refines s routes) (Hshape : routes_prefix_shaped routes)
    (Hh : header_wf h) (Ht : m_type h = DATA \/ m_type h = INTEREST)
    (Hports : exists p, p ∈ ports /\ 1 <= p <= 32) :
  exists r, (processPacket now (setOutPorts (encodeOutPortsMask ports) h) s).2 = inr r /\
    (forall p, p ∈ outputPorts r <-> p ∈ ports /\ 1 <= p <= 32) /\
    dropped r = false /\ packetIn r = false /\
    modifiedHeader r =
      Serialize (setType UNPROCESSED (setOutPorts (encodeOutPortsMask ports) h)).
Proof.
  set (h' := setOutPorts (encodeOutPortsMask ports) h).
  assert (header_wf h') as Hwf by (by apply setters_wf; [|apply encodeOutPortsMask_range]).
  pose proof (hdr_fields _ Hwf) as (Hty & Hm & _).
  rewrite (processPacket_ok now s routes) by done. eexists. split; [reflexivity|].
  assert (encodeOutPortsMask ports <> 0) as Hnz.
  { intros H0. destruct Hports as (p & Hp & Hb).
    assert (p ∈ decode_mask (encodeOutPortsMask ports)) as Hin by (by apply decode_encode_mask).
    rewrite H0 in Hin. apply elem_of_decode_mask in Hin as [_ Hin]. by rewrite Z.bits_0 in Hin. }
  assert (decode_mask (encodeOutPortsMask ports) <> ∅) as Hne.
  { intros H0. apply Hnz. apply decode_mask_empty; [apply encodeOutPortsMask_range|done]. }
  unfold switch_process.
  assert (dispatch (Serialize h') = ToMulticast) as ->.
  { unfold dispatch. rewrite Hty, Hm. change (m_type h') with (m_type h).
    change (m_outPorts h') with (encodeOutPortsMask ports).
    destruct Ht as [-> | ->]; cbn; [done|]. by destruct (Z.eqb_spec (encodeOutPortsMask ports) 0). }
  rewrite Hm. change (m_outPorts h') with (encodeOutPortsMask ports). cbv zeta.
  rewrite bool_decide_false by done. cbn. split_and!; [|done..].
  apply decode_encode_mask.
Qed.

Lemma multicast_exact_witness :
  exists r, (processPacket 0 (setOutPorts (encodeOutPortsMask {[2; 31; 40]})
      (setType DATA header_default)) switch_one_route).2 = inr r /\
    (forall p, p ∈ outputPorts r <-> p ∈ ({[2; 31; 40]} : gset Z) /\ 1 <= p <= 32).
Proof.
  destruct (multicast_exact 0 switch_one_route {[ [7; 9; 0xFF; 0xFF] := (3, 0) ]}
    (setType DATA header_default) {[2; 31; 40]} switch_one_route_refines one_route_shaped)
    as (r & E & H & _).
  - apply setters_wf; [apply header_default_wf|by vm_compute].
  - by left.
  - exists 2. split; [rewrite !elem_of_union, !elem_of_singleton; lia|lia].
  - exists r. split; [exact E|exact H].
Defined.

(** The diagnostic lookup answers what forwarding would do: it reports a match
    exactly when some live route covers the header's hashes, with the port of the
    longest one, never throws on an initialised switch and changes nothing. *)
Theorem diagnose_agrees (now : Z) (s : SwitchPipeline) (routes : gmap (list Z) route)
    (h : PacketHeader)
    (Hs : switch_refines s routes) (Hshape : routes_prefix_shaped routes) (Hh : header_wf h) :
  exists d, diagnoseFibLookup now h s = (s, inr d) /\
    match lpm now routes (m_nameHashes h) 4 with
    | Some r => diag_matched d = true /\ diag_outputPort d = r.1
    | None => d = mkFibLookupDiagnostic false 0 0
    end.
Proof.
  pose proof (hdr_fields _ Hh) as (_ & _ & Hhs). destruct Hs as [Hr Hk].
  destruct (fib_lookup now (Serialize h) (m_pipeline s) routes) as (t & e & Ht & Hlk & Ha);
    [rewrite length_Serialize by done; vm_compute; lia|done..|].
  rewrite Hhs in Ha. unfold diagnoseFibLookup, getTable_const. rewrite run_gets.
  change (m_pipeline (id s)) with (m_pipeline s). rewrite Ht, run_lift_inr, Hlk, Ha.
  destruct (lpm now routes (m_nameHashes h) 4); eexists; done.
Qed.

Lemma diagnose_agrees_witness :
  exists d, diagnoseFibLookup 99 (@name_header sum_hash INTEREST demo_name) switch_demo
    = (switch_demo, inr d) /\ diag_matched d = true /\ diag_outputPort d = 4.
Proof.
  destruct (diagnose_agrees 99 switch_demo {[ demo_key := (4, 100) ]}
    (@name_header sum_hash INTEREST demo_name) switch_demo_refines demo_shaped) as (d & E & H).
  - apply name_header_wf. by vm_compute.
  - exists d. split; [exact E|exact H].
Defined.
