(* ===== verification/PortTable.v ===== *)
(** * PortTable: port numbers of a node's devices

    Source: [src/src/ndnSIM/statim/port-table.hpp].  A device pointer is a number
    that identifies the device; the send callback is stored and never called by
    the component, so it is left out. *)
From S2P Require Import Prelude.

Abbreviation NetDevice := Z.

Record PortTable := mkPortTable {
  m_portToDevice : gmap Z NetDevice;
  m_deviceToPort : gmap NetDevice Z;
  m_nextPort : Z                      (** [uint16_t] *)
}.

Definition CONTROLLER_PORT : Z := 65535.

Definition PortTable_new : PortTable := mkPortTable ∅ ∅ 1.

(** [addDevice]: the counter is post-incremented and wraps. *)
Definition addDevice (device : NetDevice) (t : PortTable) : PortTable * Z :=
  let port := m_nextPort t in
  (mkPortTable (<[port := device]> (m_portToDevice t)) (<[device := port]> (m_deviceToPort t))
     (u16 (port + 1)), port).

Definition getDevice (port : Z) (t : PortTable) : option NetDevice := m_portToDevice t !! port.
Definition getPort (device : NetDevice) (t : PortTable) : Z :=
  default 0 (m_deviceToPort t !! device).
Definition hasPort (port : Z) (t : PortTable) : bool :=
  bool_decide (is_Some (m_portToDevice t !! port)).
Definition port_count (t : PortTable) : nat := size (m_portToDevice t).

(** Adding devices one after the other. *)
Definition addDevices (devices : list NetDevice) (t : PortTable) : PortTable :=
  foldl (fun t d => (addDevice d t).1) t devices.

(** [devices] are the ports 1, 2, ... in order, and nothing else. *)
Definition ports_are (devices : list NetDevice) (t : PortTable) : Prop :=
  m_nextPort t = u16 (1 + Z.of_nat (length devices)) /\
  (forall p, getDevice p t = if 1 <=? p then devices !! Z.to_nat (p - 1) else None) /\
  (forall d i, devices !! i = Some d -> getPort d t = 1 + Z.of_nat i) /\
  (forall d, d ∉ devices -> getPort d t = 0).

Lemma ports_are_new : ports_are [] PortTable_new.
Proof.
  split_and!; try done. intros p. unfold getDevice, PortTable_new. cbn [m_portToDevice].
  rewrite lookup_empty. by case_match.
Qed.

Lemma ports_are_add devices d t :
  ports_are devices t -> d ∉ devices -> Z.of_nat (length devices) < 65535 ->
  ports_are (devices ++ [d]) (addDevice d t).1 /\
  (addDevice d t).2 = 1 + Z.of_nat (length devices).
Proof.
  intros (Hn & Hd & Hp & Hz) Hnew Hlen.
  rewrite u16_id in Hn by (unfold u16_range; lia). unfold addDevice. cbn [fst snd].
  split; [|done]. unfold ports_are, getDevice, getPort. cbn [m_nextPort m_portToDevice m_deviceToPort].
  rewrite Hn. split_and!.
  - rewrite length_app. f_equal. simpl. lia.
  - intros p. rewrite lookup_insert. destruct (decide (1 + Z.of_nat (length devices) = p)) as [<-|Hne].
    + destruct (Z.leb_spec 1 (1 + Z.of_nat (length devices))); [|lia].
      replace (Z.to_nat (1 + Z.of_nat (length devices) - 1)) with (length devices) by lia.
      by rewrite list_lookup_middle.
    + etrans; [apply Hd|]. destruct (Z.leb_spec 1 p); [|done].
      destruct (decide (Z.to_nat (p - 1) < length devices)%nat).
      * by rewrite lookup_app_l.
      * rewrite lookup_ge_None_2 by lia. rewrite lookup_ge_None_2; [done|].
        rewrite length_app. simpl. lia.
  - intros x i Hx. rewrite lookup_insert. apply lookup_app_Some in Hx as [Hx|[Hi Hx]].
    + rewrite decide_False by (intros ->; by apply list_elem_of_lookup_2 in Hx). by apply Hp.
    + apply list_lookup_singleton_Some in Hx as [Hi' ->]. rewrite decide_True by done. simpl. lia.
  - intros x Hx. rewrite not_elem_of_app, not_elem_of_cons in Hx. destruct Hx as [Hx [Hxd _]].
    rewrite lookup_insert_ne by done. by apply Hz.
Qed.

Lemma addDevices_snoc devices d t :
  addDevices (devices ++ [d]) t = (addDevice d (addDevices devices t)).1.
Proof. unfold addDevices. by rewrite foldl_app. Qed.

Lemma ports_are_addDevices devices :
  NoDup devices -> Z.of_nat (length devices) <= 65535 ->
  ports_are devices (addDevices devices PortTable_new).
Proof.
  induction devices as [|d devices IH] using rev_ind; intros Hnd Hlen.
  { apply ports_are_new. }
  rewrite length_app in Hlen. simpl in Hlen. apply NoDup_app in Hnd as (Hnd & Hdisj & _).
  rewrite addDevices_snoc. apply ports_are_add; [apply IH; [done|lia]| |lia].
  intros Hin. apply (Hdisj d Hin). set_solver.
Qed.

(** ** Properties *)

(** The first 65535 distinct devices get the ports 1, 2, 3, ... and the two
    maps stay inverse to each other; the next one gets port 0, the value [getPort]
    returns for an unknown device, and the one after takes port 1 over. *)
Theorem port_numbering (devices : list NetDevice) (d d' : NetDevice)
    (Hnd : NoDup devices) (Hlen : Z.of_nat (length devices) <= 65535) :
  let t := addDevices devices PortTable_new in
  (forall i x, devices !! i = Some x ->
     getPort x t = 1 + Z.of_nat i /\ getDevice (getPort x t) t = Some x) /\
  (forall p x, getDevice p t = Some x -> getPort x t = p) /\
  (Z.of_nat (length devices) = 65535 ->
     (addDevice d t).2 = 0 /\ (addDevice d' (addDevice d t).1).2 = 1 /\
     getDevice 1 (addDevice d' (addDevice d t).1).1 = Some d').
Proof.
  intros t. destruct (ports_are_addDevices devices Hnd Hlen) as (Hn & Hd & Hp & Hz).
  fold t in Hn, Hd, Hp, Hz. split_and!.
  - intros i x Hx. rewrite (Hp x i Hx). split; [done|]. rewrite Hd.
    destruct (Z.leb_spec 1 (1 + Z.of_nat i)); [|lia].
    by replace (Z.to_nat (1 + Z.of_nat i - 1)) with i by lia.
  - intros p x Hx. rewrite Hd in Hx. destruct (Z.leb_spec 1 p); [|done].
    rewrite (Hp _ _ Hx). lia.
  - intros Hfull. rewrite Hfull in Hn. change (m_nextPort t = 0) in Hn.
    unfold addDevice. cbn [fst snd m_nextPort]. rewrite Hn.
    split_and!; [done..|]. apply lookup_insert_eq.
Qed.

Lemma port_numbering_witness :
  getPort 11 (addDevices [10; 11] PortTable_new) = 2 /\
  getDevice 2 (addDevices [10; 11] PortTable_new) = Some 11.
Proof.
  destruct (port_numbering [10; 11] 0 0) as [H _];
    [apply (bool_decide_unpack _); vm_compute; exact I|simpl; lia|].
  destruct (H 1%nat 11 eq_refl) as [E D]. rewrite E in D. split; [exact E|exact D].
Defined.
