(* ===== verification/NameMap.v ===== *)
(** * NameMap: [std::map] keyed by names

    A [std::map<Name, A>] is a [gmap] from names, visited in name order: its
    comparison is [Name::compare], which [Names] shows to be the canonical order
    [compare].  Shared by the pending-Interest table, the temporary forwarding
    table and the content store. *)
From S2P Require Import Prelude Tlv Names.

Section name_map.
Context {A : Type}.
Implicit Types (m : gmap Name A) (p : Name).

Definition key_le (x y : Name * A) : Prop := le_of x.1 y.1.
#[export] Instance key_le_dec x y : Decision (key_le x y).
Proof. apply le_of_dec. Defined.
#[export] Instance key_le_trans : Transitive key_le.
Proof. intros x y z. unfold key_le. apply le_of_trans. Qed.
#[export] Instance key_le_total : Total key_le.
Proof. intros x y. exact (le_of_total x.1 y.1). Qed.

(** The entries in iteration order. *)
Definition ordered m : list (Name * A) := merge_sort key_le (map_to_list m).

Lemma ordered_perm m : ordered m ≡ₚ map_to_list m.
Proof. apply merge_sort_Permutation. Qed.

Lemma ordered_sorted m : StronglySorted key_le (ordered m).
Proof. apply StronglySorted_merge_sort; apply _. Qed.

Lemma elem_of_ordered m k v : (k, v) ∈ ordered m <-> m !! k = Some v.
Proof. by rewrite ordered_perm, elem_of_map_to_list. Qed.

Lemma length_ordered m : length (ordered m) = size m.
Proof. rewrite ordered_perm. apply length_map_to_list. Qed.

Lemma NoDup_ordered_keys m : NoDup (ordered m).*1.
Proof. rewrite ordered_perm. apply NoDup_fst_map_to_list. Qed.

(** [lower_bound]: skip the keys below [p]. *)
Fixpoint drop_below p (l : list (Name * A)) : list (Name * A) :=
  match l with
  | [] => []
  | kv :: l' => match compare kv.1 p with Lt => drop_below p l' | _ => l end
  end.

Fixpoint take_prefixed p (l : list (Name * A)) : list (Name * A) :=
  match l with
  | [] => []
  | kv :: l' => if isPrefixOf p kv.1 then kv :: take_prefixed p l' else []
  end.

(** The loop from [lower_bound(p)] while [p.isPrefixOf(key)]. *)
Definition prefix_range p m : list (Name * A) := take_prefixed p (drop_below p (ordered m)).

Lemma filter_none (q : Name * A -> bool) l :
  Forall (fun kv => q kv = false) l -> List.filter q l = [].
Proof. induction 1 as [|kv l Hkv _ IH]; [done|]. simpl. by rewrite Hkv. Qed.

Lemma take_prefixed_sorted p l :
  StronglySorted key_le l -> Forall (fun kv => le_of p kv.1) l ->
  take_prefixed p l = List.filter (fun kv => isPrefixOf p kv.1) l.
Proof.
  induction 1 as [|kv l Hl IH Hkv]; intros Hp; [done|]. apply Forall_cons in Hp as [Hle Hp].
  simpl. destruct (isPrefixOf p kv.1) eqn:E; [by rewrite IH|].
  symmetry. apply filter_none. rewrite Forall_forall in Hkv |- *. intros x Hx.
  destruct (isPrefixOf p x.1) eqn:Ex; [|done].
  apply isPrefixOf_spec in Ex. exfalso. revert E. apply not_false_iff_true, isPrefixOf_spec.
  eapply compare_list_prefix_convex; [exact Hle|exact (Hkv x Hx)|exact Ex].
Qed.

Lemma drop_below_sorted p l :
  StronglySorted key_le l ->
  List.filter (fun kv => isPrefixOf p kv.1) (drop_below p l) =
    List.filter (fun kv => isPrefixOf p kv.1) l /\
  StronglySorted key_le (drop_below p l) /\ Forall (fun kv => le_of p kv.1) (drop_below p l).
Proof.
  induction 1 as [|kv l Hl IH Hkv]; [by repeat constructor|]. cbn [drop_below].
  destruct (compare kv.1 p) eqn:E.
  1,3: split_and!; [done|by constructor|constructor].
  - apply compare_eq in E. rewrite <-E. apply le_of_refl.
  - apply compare_eq in E. rewrite <-E. exact Hkv.
  - unfold le_of. by rewrite compare_opp, E.
  - eapply Forall_impl; [exact Hkv|]. intros x Hx. etrans; [|exact Hx].
    unfold le_of. by rewrite compare_opp, E.
  - destruct IH as (IH & Hs & Hf). split_and!; [|done..]. simpl.
    destruct (isPrefixOf p kv.1) eqn:Ep; [|done].
    apply isPrefixOf_spec, compare_list_prefix in Ep.
    rewrite compare_opp, E in Ep. by destruct Ep.
Qed.

(** The keys that extend [p] form one interval, so the loop visits them all. *)
Lemma prefix_range_filter p m :
  prefix_range p m = List.filter (fun kv => isPrefixOf p kv.1) (ordered m).
Proof.
  unfold prefix_range. destruct (drop_below_sorted p (ordered m) (ordered_sorted m)) as (<- & Hs & Hf).
  by apply take_prefixed_sorted.
Qed.

Lemma elem_of_prefix_range p m k v :
  (k, v) ∈ prefix_range p m <-> m !! k = Some v /\ p `prefix_of` k.
Proof.
  rewrite prefix_range_filter, list_elem_of_In, List.filter_In, <-list_elem_of_In,
    elem_of_ordered, <-isPrefixOf_spec. done.
Qed.

Lemma NoDup_prefix_range p m : NoDup (prefix_range p m).*1.
Proof.
  rewrite prefix_range_filter. pose proof (NoDup_ordered_keys m) as H.
  induction (ordered m) as [|kv l IH]; [constructor|].
  rewrite fmap_cons, NoDup_cons in H. destruct H as [Hkv H]. simpl.
  destruct (isPrefixOf p kv.1); [|by apply IH]. rewrite fmap_cons. constructor; [|by apply IH].
  rewrite list_elem_of_fmap in *. intros (x & Hx & Hin). apply Hkv. exists x. split; [done|].
  apply list_elem_of_In in Hin. apply List.filter_In in Hin as [Hin _]. by apply list_elem_of_In.
Qed.

Lemma prefix_range_sorted p m : StronglySorted key_le (prefix_range p m).
Proof.
  rewrite prefix_range_filter. pose proof (ordered_sorted m) as H.
  induction H as [|kv l Hl IH Hkv]; simpl; [constructor|].
  destruct (isPrefixOf p kv.1); [|done]. constructor; [done|].
  rewrite Forall_forall in Hkv |- *. intros x Hx. apply Hkv. apply list_elem_of_In in Hx.
  apply List.filter_In in Hx as [Hx _]. by apply list_elem_of_In.
Qed.
End name_map.

(** ** The loop over the prefixes of a name

    [for (count = name.size();; --count) ... if (count == 0) break;] visits the
    prefixes of [name], the longest first. *)
Definition counts_down (name : Name) : list Z := reverse (seqZ 0 (name_size name + 1)).

Definition prefixes (name : Name) : list Name := getPrefix name <$> counts_down name.

Definition name_small (name : Name) : Prop := name_size name < 9223372036854775808.

Lemma elem_of_prefixes name p :
  name_small name -> p ∈ prefixes name <-> p `prefix_of` name.
Proof.
  intros Hs. unfold prefixes, counts_down, name_small, name_size in *.
  rewrite list_elem_of_fmap. split.
  - intros (k & -> & Hk). rewrite elem_of_reverse, elem_of_seqZ in Hk.
    rewrite getPrefix_take by lia. apply prefix_take.
  - intros Hp. exists (Z.of_nat (length p)). pose proof (prefix_length _ _ Hp).
    rewrite elem_of_reverse, elem_of_seqZ. split; [|lia]. rewrite getPrefix_take by lia.
    rewrite Nat2Z.id. destruct Hp as [k ->]. by rewrite take_app_length.
Qed.

(** Longest first: every earlier prefix is longer. *)
Lemma prefixes_longest_first name l1 p l2 :
  name_small name -> prefixes name = l1 ++ p :: l2 ->
  Forall (fun q => (length p < length q)%nat) l1.
Proof.
  intros Hs. unfold prefixes, counts_down, name_small, name_size in *.
  intros He. apply Forall_lookup. intros i q Hq.
  assert (i < length l1)%nat as Hi by (by eapply lookup_lt_Some).
  set (cs := reverse (seqZ 0 (Z.of_nat (length name) + 1))) in *.
  assert (forall j c, cs !! j = Some c -> c = Z.of_nat (length name) - Z.of_nat j /\
    (j <= length name)%nat) as Hcs.
  { intros j c Hj. assert (j < length cs)%nat as Hlt by (by eapply lookup_lt_Some).
    unfold cs in Hj, Hlt. rewrite length_reverse, length_seqZ in Hlt.
    rewrite reverse_lookup in Hj by (rewrite length_seqZ; lia).
    rewrite length_seqZ in Hj. apply lookup_seqZ in Hj as [-> Hj]. lia. }
  assert (forall j q, (getPrefix name <$> cs) !! j = Some q ->
    length q = (length name - j)%nat /\ (j <= length name)%nat) as Hlen.
  { intros j x Hx. rewrite list_lookup_fmap in Hx. destruct (cs !! j) as [c|] eqn:Ec; [|done].
    injection Hx as <-. apply Hcs in Ec as [-> Hj]. split; [|done].
    rewrite getPrefix_take by lia. rewrite length_take. lia. }
  destruct (Hlen i q) as [Hlq _]; [by rewrite He, lookup_app_l|].
  destruct (Hlen (length l1) p) as [Hlp Hl1]; [by rewrite He, list_lookup_middle|]. lia.
Qed.
