(* ===== verification/Packets.v ===== *)
(** * Packets: Interest and Data as the forwarder uses them

    Sources: [src/src/ndnSIM/ndn-cxx/src/interest.{hpp,cpp}] (nonce and lifetime),
    [data.hpp] and [src/src/ndnSIM/model/ndn-block-header.cpp].  A [Data] is its name,
    its content octets, the octets of its wire and its hop-count tag.  An [Interest] is
    its name, its nonce element, its lifetime, and what else its wire says.  The
    element of a decoded Interest lies in the buffer of its wire encoding, which
    all copies of the object share and [setNonce] overwrites; buffers are kept in
    a store. *)
From S2P Require Import Prelude Tlv Encoder Block BlockSpec Names NameWire Exclude WireFormat WireFormatSpec PacketWireSpec.

(** Where the octets of the nonce element are. *)
Inductive NonceBlock :=
| NoNonce
| OwnNonce (octets : list byte)
| WireNonce (buffer : Z).

#[export] Instance NonceBlock_eq_dec : EqDecision NonceBlock.
Proof. solve_decision. Defined.

(** The parts of an Interest that the forwarder only passes on, and the octets of its
    wire in front of the nonce and behind it, which nothing changes. *)
Record InterestRest := mkInterestRest {
  r_selectors : Selectors;
  r_link : Element;
  r_selectedDelegation : Z;
  r_before : list byte;
  r_after : list byte
}.

#[export] Instance InterestRest_eq_dec : EqDecision InterestRest.
Proof. solve_decision. Defined.

(** No selectors, no link, no wire. *)
Definition rest_none : InterestRest :=
  mkInterestRest Selectors_new element_none INVALID_SELECTED_DELEGATION_INDEX [] [].

Record Interest := mkInterest {
  i_name : Name;
  i_nonce : NonceBlock;
  i_lifetime : Z;          (** milliseconds, an [int64_t] *)
  i_rest : InterestRest
}.

#[export] Instance Interest_eq_dec : EqDecision Interest.
Proof. solve_decision. Defined.

(** The nonce octets inside each wire buffer. *)
Abbreviation WireStore := (gmap Z (list byte)).

(** What the wire encoding of an Interest says. *)
Record InterestWire := mkInterestWire {
  w_name : Name;
  w_nonce : list byte;
  w_lifetime : Z;
  w_rest : InterestRest
}.

Definition hasNonce (i : Interest) : bool := negb (bool_decide (i_nonce i = NoNonce)).

Definition nonce_octets (st : WireStore) (i : Interest) : option (list byte) :=
  match i_nonce i with
  | NoNonce => None
  | OwnNonce octets => Some octets
  | WireNonce b => Some (default [] (st !! b))
  end.

(** [wireDecode]: the nonce element stays in the buffer [b] of the wire. *)
Definition wireDecode (b : Z) (v : InterestWire) (st : WireStore) : WireStore * Interest :=
  (<[b := w_nonce v]> st, mkInterest (w_name v) (WireNonce b) (w_lifetime v) (w_rest v)).

(** The object behind an Interest without a wire. *)
Definition interest_object (octets : list byte) (i : Interest) : WireFormat.Interest :=
  WireFormat.mkInterest (i_name i) (r_selectors (i_rest i))
    (mkElement tlv.Nonce octets (element tlv.Nonce octets)) (i_lifetime i)
    (r_link (i_rest i)) (r_selectedDelegation (i_rest i)) None.

(** [wireEncode] of an Interest that has a nonce: the buffer of its wire as it is now, or
    a new encoding. *)
Definition wireEncode (st : WireStore) (i : Interest) : exn + list byte :=
  match i_nonce i with
  | WireNonce b => inr (r_before (i_rest i) ++ default [] (st !! b) ++ r_after (i_rest i))
  | OwnNonce octets => el_wire <$> (snd <$> Interest_wireEncode 0 (interest_object octets i))
  | NoNonce => inl (Undefined "an Interest without a nonce draws one")
  end.

(** The octets of a [uint32_t] in the memory of a little-endian host. *)
Definition nonce_memory (nonce : Z) : list byte := rev (be_encode 4 nonce).

(** [setNonce]: a four-octet nonce is overwritten inside the wire buffer; any other
    is replaced by an element of the object's own, and the wire is dropped. *)
Definition setNonce (nonce : Z) (i : Interest) (st : WireStore) : WireStore * Interest :=
  let own := mkInterest (i_name i) (OwnNonce (nonce_memory nonce)) (i_lifetime i) (i_rest i) in
  match i_nonce i with
  | WireNonce b =>
      if decide (length (default [] (st !! b)) = 4%nat)
      then (<[b := nonce_memory nonce]> st, i) else (st, own)
  | _ => (st, own)
  end.

Lemma length_nonce_memory n : length (nonce_memory n) = 4%nat.
Proof. unfold nonce_memory. by rewrite length_rev, length_be_encode. Qed.

Lemma getNonce_memory n : u32_range n -> getNonce (nonce_memory n) = inr n.
Proof.
  intros [H1 H2]. unfold getNonce. rewrite decide_True by apply length_nonce_memory.
  unfold nonce_memory. rewrite rev_involutive, be_decode_encode by done. f_equal.
  by apply Z.mod_small.
Qed.

(** [random::generateWord32]: a generator outside the sources, with state [R]. *)
Class RandomWord (R : Type) := generateWord32 : R -> R * Z.

Section nonce.
Context {R : Type} `{!RandomWord R}.

(** The loop of [refreshNonce]: draw words until one differs from the old nonce. *)
Fixpoint fresh_word (fuel : nat) (oldNonce : Z) (r : R) : option (R * Z) :=
  match fuel with
  | O => None
  | S fuel =>
      let '(r, newNonce) := generateWord32 r in
      if newNonce =? oldNonce then fresh_word fuel oldNonce r else Some (r, newNonce)
  end.

Definition refreshNonce (fuel : nat) (st : WireStore) (i : Interest) (r : R)
    : exn + (R * WireStore * Interest) :=
  match nonce_octets st i with
  | None => inr (r, st, i)
  | Some octets =>
      oldNonce ← getNonce octets;
      match fresh_word fuel oldNonce r with
      | Some (r, newNonce) => let '(st, i) := setNonce newNonce i st in inr (r, st, i)
      | None => inl OutOfFuel
      end
  end.

(** The generator's state after [n] words. *)
Definition word_state (n : nat) (r : R) : R := Nat.iter n (fun r => (generateWord32 r).1) r.

Lemma fresh_word_spec n fuel old r :
  (n < fuel)%nat -> (generateWord32 (word_state n r)).2 <> old ->
  exists r' m, fresh_word fuel old r = Some (r', (generateWord32 (word_state m r)).2) /\
    (generateWord32 (word_state m r)).2 <> old.
Proof.
  revert r fuel. induction n as [|n IH]; intros r fuel Hf Hw; (destruct fuel as [|fuel]; [lia|]);
    cbn [fresh_word]; destruct (generateWord32 r) as [r1 w1] eqn:E.
  - unfold word_state in Hw. simpl in Hw. rewrite E in Hw. simpl in Hw.
    destruct (Z.eqb_spec w1 old); [done|]. exists r1, 0%nat. cbn. rewrite E. done.
  - destruct (Z.eqb_spec w1 old) as [->|Hne]; [|exists r1, 0%nat; cbn; by rewrite E].
    assert (forall m, word_state (S m) r = word_state m r1) as Hs.
    { intros m. unfold word_state. by rewrite Nat.iter_succ_r, E. }
    rewrite Hs in Hw. destruct (IH r1 fuel) as (r' & m & -> & Hne); [lia|done|].
    exists r', (S m). by rewrite Hs.
Qed.
End nonce.

Record Data := mkData {
  d_name : Name;
  d_content : list byte;
  d_wire : list byte;     (** the octets of its wire, none if a setter dropped it *)
  d_hopCount : option Z   (** the [HopCountTag], a [uint64_t] *)
}.

#[export] Instance Data_eq_dec : EqDecision Data.
Proof. solve_decision. Defined.

Definition setHopCountTag (n : Z) (d : Data) : Data := mkData (d_name d) (d_content d) (d_wire d) (Some n).

(** ** From octets *)

(** What [BlockHeader] finds behind the Statim header. *)
Inductive NdnBlock :=
| BInterest (interest : InterestWire)
| BData (data : Data)
| BOther.

(** An element up to its value. *)
Definition element_header (e : Element) : list byte :=
  take (length (el_wire e) - length (el_value e)) (el_wire e).

(** The octets in front of the value of the first nonce, and behind it. *)
Fixpoint nonce_frame (elements : list Element) : list byte * list byte :=
  match elements with
  | [] => ([], [])
  | e :: rest =>
      if el_type e =? tlv.Nonce then (element_header e, concat (el_wire <$> rest))
      else let '(before, after) := nonce_frame rest in (el_wire e ++ before, after)
  end.

(** [Interest(block)] and [Data(block)].  Tags are not part of the wire form. *)
Definition decode_interest (block : Block) : exn + InterestWire :=
  i ← Interest_wireDecode block;
  elements ← parsed block;
  let '(before, after) := nonce_frame (fmap (M := list) element_of elements) in
  mret (mkInterestWire (in_name i) (el_value (in_nonce i)) (in_lifetime i)
    (mkInterestRest (in_selectors i) (in_link i) (in_selectedDelegation i)
       (element_header (element_of block) ++ before) after)).

Definition decode_data (block : Block) : exn + Data :=
  d ← Data_of_block block;
  mret (mkData (da_name d) (el_value (da_content d)) (el_wire (element_of block)) None).

(** [BlockHeader::Deserialize], and the packet of the type that the block has. *)
Definition decode_block (packet : list byte) : exn + NdnBlock :=
  block ← Block_fromStream packet;
  if m_type block =? tlv.Interest then BInterest <$> decode_interest block
  else if m_type block =? tlv.Data then BData <$> decode_data block
  else mret BOther.

(** ** Properties *)

Lemma element_header_value e : element_ok e -> element_header e ++ el_value e = el_wire e.
Proof.
  intros He. unfold element_header. destruct (encodes_split _ _ _ He) as (h & -> & _).
  rewrite length_app, Nat.add_sub, take_app_length. done.
Qed.

Lemma nonce_frame_octets els nonce :
  Forall element_ok els -> List.find (fun e => el_type e =? tlv.Nonce) els = Some nonce ->
  (nonce_frame els).1 ++ el_value nonce ++ (nonce_frame els).2 = concat (el_wire <$> els).
Proof.
  intros Hok. induction Hok as [|e els He _ IH]; [done|]. cbn [List.find nonce_frame].
  destruct (el_type e =? tlv.Nonce).
  - intros [= ->]. cbn. by rewrite app_assoc, element_header_value.
  - intros Hf. specialize (IH Hf). destruct (nonce_frame els) as [before after]. cbn in *.
    by rewrite <-IH, <-!app_assoc.
Qed.

(** A decoded Interest still shows the octets it was read from. *)
Lemma decode_interest_octets e b v :
  fresh e b -> decode_interest b = inr v ->
  r_before (w_rest v) ++ w_nonce v ++ r_after (w_rest v) = el_wire e.
Proof.
  intros Hf Hd. unfold decode_interest in Hd. apply result_bind_inr in Hd as (i & Hi & Hd).
  apply result_bind_inr in Hd as (blks & Hp & Hd).
  destruct (Interest_wireDecode_nonce _ _ _ Hi Hp) as (nb & Hnb & Hn).
  pose proof Hf as (Hb & (_ & _ & Hv & _) & Hs).
  destruct (parsed_total b (block_ok_own _ Hb) Hs) as [(els & blks' & Hp' & Hst & Hall)|[? Hp']];
    [|congruence].
  rewrite Hp in Hp'. injection Hp' as <-. apply tlv_stream_wires in Hst as [Ev Hok].
  assert (List.find (fun e => el_type e =? tlv.Nonce) els = Some (element_of nb)) as Hfind.
  { pose proof (find_fresh tlv.Nonce _ _ Hall) as H. unfold get_from in Hnb.
    destruct (List.find (fun e => el_type e =? tlv.Nonce) els) as [e'|].
    - destruct H as (b' & H & Hf'). rewrite H in Hnb. injection Hnb as ->. by rewrite (element_of_fresh _ _ Hf').
    - by rewrite H in Hnb. }
  rewrite (elements_of_fresh _ _ Hall), (element_of_fresh _ _ Hf) in Hd.
  pose proof (nonce_frame_octets _ _ Hok Hfind) as Ho. destruct (nonce_frame els) as [before after].
  injection Hd as <-. cbn [r_before r_after w_rest w_nonce]. cbn [fst snd] in Ho.
  rewrite Hn, <-app_assoc, Ho, <-Ev, Hv. apply element_header_value.
  apply (is_element_ok e b); [by apply block_ok_own|apply Hf].
Qed.


(** Decoding throws TLV errors only, but for a stream that ends right after a header. *)
Lemma tlv_only_decode_interest e b : fresh e b -> tlv_only (decode_interest b).
Proof.
  intros Hf. apply tlv_only_bind; [by eapply tlv_only_Interest|]. intros i _.
  apply tlv_only_bind; [by eapply tlv_only_parsed|]. intros els _.
  destruct (nonce_frame _). apply tlv_only_ret.
Qed.

Lemma decode_block_errors packet ex : decode_block packet = inl ex -> wire_error packet ex.
Proof.
  apply (receive_errors (fun block =>
    if m_type block =? tlv.Interest then BInterest <$> decode_interest block
    else if m_type block =? tlv.Data then BData <$> decode_data block
    else mret BOther)).
  intros e b Hf. apply tlv_only_if; [by eapply tlv_only_fmap, tlv_only_decode_interest|].
  apply tlv_only_if; [|apply tlv_only_mret]. apply tlv_only_fmap.
  apply tlv_only_bind; [by eapply tlv_only_Data|]. intros d _. apply tlv_only_ret.
Qed.

(** The wire that an Interest was decoded from. *)
Definition interest_octets (v : InterestWire) : list byte :=
  r_before (w_rest v) ++ w_nonce v ++ r_after (w_rest v).

Lemma decode_block_octets t v more block :
  u32_range t -> octets v <= MAX_SIZE_OF_BLOCK_FROM_STREAM ->
  decode_block (element t v ++ more) = inr block ->
  match block with
  | BInterest i => interest_octets i = element t v
  | BData d => d_wire d = element t v /\ d_hopCount d = None
  | BOther => t <> tlv.Interest /\ t <> tlv.Data
  end.
Proof.
  intros Ht Hv Hd. destruct (fromStream_spec (element t v ++ more)) as (H & _).
  destruct (H t v (element t v) more) as (b & E & Hf); [done| |done|].
  { apply encodes_element; [done|]. unfold MAX_SIZE_OF_BLOCK_FROM_STREAM, u64_range, octets in *. lia. }
  unfold decode_block in Hd. rewrite E in Hd. change (inr ?x ≫= ?k) with (k x) in Hd. cbv beta in Hd.
  change (fresh (element_tv t v) b) in Hf. rewrite (fresh_type _ _ _ Hf) in Hd.
  destruct (Z.eqb_spec t tlv.Interest) as [Hi|Hi].
  - destruct (decode_interest b) as [|i] eqn:Ei; [done|]. injection Hd as <-.
    exact (decode_interest_octets _ _ _ Hf Ei).
  - destruct (Z.eqb_spec t tlv.Data) as [Hda|Hda]; [|by injection Hd as <-].
    destruct (decode_data b) as [|d] eqn:Ed; [done|]. injection Hd as <-. unfold decode_data in Ed.
    apply result_bind_inr in Ed as (d' & _ & Ed).
    assert (d_wire d = el_wire (element_of b) /\ d_hopCount d = None) as [-> ->] by (by injection Ed as <-).
    by rewrite (element_of_fresh _ _ Hf).
Qed.

(** The octets of a well-formed packet are decoded to it, whatever follows them. *)
Lemma decode_block_data d more :
  data_ok d -> octets (wires (data_elements d)) <= MAX_SIZE_OF_BLOCK_FROM_STREAM ->
  decode_block (el_wire (data_element d) ++ more) =
    inr (BData (mkData (da_name d) (el_value (getContent d)) (el_wire (data_element d)) None)).
Proof.
  intros Hd Hs. apply (receive_element (fun block => if m_type block =? tlv.Interest then BInterest <$> decode_interest block
    else if m_type block =? tlv.Data then BData <$> decode_data block else mret BOther)); [done|exact Hs|].
  intros b Hb. change (fresh (data_element d) b) in Hb. rewrite (fresh_type _ _ _ Hb). cbn [data_element element_tv el_type].
  change (tlv.Data =? tlv.Interest) with false. change (tlv.Data =? tlv.Data) with true. cbv iota.
  unfold decode_data, Data_of_block. rewrite (Data_decodes _ d b Hd Hb). next.
  by rewrite (element_of_fresh _ _ Hb).
Qed.

Lemma decode_block_interest i more :
  interest_ok i -> octets (wires (interest_elements i)) <= MAX_SIZE_OF_BLOCK_FROM_STREAM ->
  exists v, decode_block (el_wire (interest_element i) ++ more) = inr (BInterest v) /\ w_name v = in_name i /\
    w_nonce v = el_value (in_nonce i) /\ w_lifetime v = read_back DEFAULT_INTEREST_LIFETIME (in_lifetime i).
Proof.
  intros Hi Hs.
  assert (forall b, fresh (interest_element i) b -> exists v, decode_interest b = inr v /\ w_name v = in_name i /\
    w_nonce v = el_value (in_nonce i) /\ w_lifetime v = read_back DEFAULT_INTEREST_LIFETIME (in_lifetime i)) as Hd.
  { intros b Hb. unfold decode_interest. rewrite (Interest_decodes i b Hi Hb). next.
    destruct (fresh_parsed _ _ (interest_elements i) Hb eq_refl (interest_elements_ok i Hi)) as (blks & -> & _). next.
    destruct (nonce_frame _) as [before after]. eexists. split; [reflexivity|]. done. }
  destruct (fromStream_spec (el_wire (interest_element i) ++ more)) as (H & _).
  destruct (H tlv.Interest (wires (interest_elements i)) (el_wire (interest_element i)) more) as (b & E & Hf); [done| |done|].
  { apply encodes_element; [done|]. apply Hi. }
  destruct (Hd b Hf) as (v & Ev & Hv). exists v. split; [|exact Hv]. unfold decode_block. rewrite E. next.
  change (fresh (interest_element i) b) in Hf. rewrite (fresh_type _ _ _ Hf). cbn [interest_element element_tv el_type].
  change (tlv.Interest =? tlv.Interest) with true. cbv iota. by rewrite Ev.
Qed.

(** C40: [refreshNonce] ends as soon as the generator yields a word other than the
    old nonce.  It leaves name and lifetime alone and gives the Interest a nonce
    that reads as a word other than the old one.  A four-octet nonce in a wire
    buffer is overwritten there, so every copy of the Interest has the new nonce
    from then on; any other nonce, and every other buffer, keeps its octets. *)
Theorem refreshNonce_fresh {R : Type} {RW : RandomWord R} (n fuel : nat) (st : WireStore)
    (i : Interest) (r : R) (octets : list byte) (old : Z)
    (Hfuel : (n < fuel)%nat)
    (Hoctets : nonce_octets st i = Some octets) (Hold : getNonce octets = inr old)
    (Hrange : forall s, u32_range (generateWord32 (R := R) s).2)
    (Hword : (generateWord32 (word_state n r)).2 <> old) :
  exists r' st' i' octets' new, refreshNonce fuel st i r = inr (r', st', i') /\
    i_name i' = i_name i /\ i_lifetime i' = i_lifetime i /\
    nonce_octets st' i' = Some octets' /\ getNonce octets' = inr new /\ new <> old /\
    (forall b, i_nonce i <> WireNonce b -> st' !! b = st !! b) /\
    (forall b copy, i_nonce i = WireNonce b -> i_nonce copy = WireNonce b ->
       length octets = 4%nat -> i' = i /\ nonce_octets st' copy = Some octets').
Proof.
  destruct (fresh_word_spec n fuel old r Hfuel Hword) as (r' & m & E & Hne).
  set (new := (generateWord32 (word_state m r)).2) in *.
  pose proof (getNonce_memory new (Hrange _)) as Hnew.
  unfold refreshNonce. rewrite Hoctets. cbn [mbind]. rewrite Hold. cbn. rewrite E.
  unfold setNonce. unfold nonce_octets in Hoctets.
  destruct (i_nonce i) as [|o|b] eqn:Ei; [done| |].
  - exists r', st. eexists _, _, new. split; [done|]. by split_and!.
  - injection Hoctets as Hoctets. rewrite Hoctets. destruct (decide (length octets = 4%nat)).
    + exists r'. eexists _, _, _, new. split; [done|]. unfold nonce_octets. rewrite Ei, lookup_insert_eq.
      split_and!; [done..| |].
      * intros b' Hb. rewrite lookup_insert_ne; [done|]. congruence.
      * intros b' copy [= <-] -> _. by rewrite lookup_insert_eq.
    + exists r', st. eexists _, _, new. split; [done|]. by split_and!.
Qed.

(** A counter as the generator, for the witnesses. *)
Definition counter_words : RandomWord Z := fun r => (r + 1, u32 r).

Lemma refreshNonce_fresh_witness :
  let i := mkInterest [] (WireNonce 0) 4000 rest_none in
  exists r' st' i', @refreshNonce Z counter_words 3 {[ 0 := nonce_memory 7 ]} i 7 = inr (r', st', i') /\
    nonce_octets st' i <> Some (nonce_memory 7).
Proof.
  destruct (@refreshNonce_fresh Z counter_words 1 3 {[ 0 := nonce_memory 7 ]}
    (mkInterest [] (WireNonce 0) 4000 rest_none) 7 (nonce_memory 7) 7)
    as (r' & st' & i' & o & new & E & _ & _ & _ & H1 & H2 & _ & H3).
  - lia.
  - reflexivity.
  - vm_compute. reflexivity.
  - intros s. apply u32_bounds.
  - vm_compute. discriminate.
  - exists r', st', i'. split; [exact E|].
    destruct (H3 0 (mkInterest [] (WireNonce 0) 4000 rest_none) eq_refl eq_refl eq_refl) as [_ H].
    rewrite H. intros [= Ho]. rewrite Ho in H1. vm_compute in H1. by injection H1 as <-.
Defined.
