(* ===== verification/LinkService.v ===== *)
(** * LinkService: a face's link service, which speaks NDNLPv2

    Sources: [src/src/ndnSIM/NFD/daemon/face/]: [link-service.cpp],
    [generic-link-service.{hpp,cpp}] and the base class of [transport.{hpp,cpp}].  A [Face]
    is a world of its own: the simulator, the service with its reassembler, the state of
    the transport, the frames the device was given and the packets handed to the
    forwarder above, which is not part of it. *)
From S2P Require Import Prelude Tlv Encoder Block BlockSpec Names NameWire Exclude WireFormat LpPacket LpFragmenter Simulator LpReassembler Packets.

(** What the signals [afterReceiveInterest], [afterReceiveData] and [afterReceiveNack] carry. *)
Inductive NetPacket :=
| NetInterest (interest : WireFormat.Interest) (tags : Tags)
| NetData (data : WireFormat.Data) (tags : Tags)
| NetNack (interest : WireFormat.Interest) (header : NackHeader) (tags : Tags).

#[export] Instance NetPacket_eq_dec : EqDecision NetPacket.
Proof. solve_decision. Defined.

Inductive LsCounter :=
| nInInterests | nOutInterests | nInData | nOutData | nInNacks | nOutNacks
| nFragmentationErrors | nOutOverMtu | nInLpInvalid | nReassemblyTimeouts | nInNetInvalid
| nInPackets | nOutPackets.

#[export] Instance LsCounter_eq_dec : EqDecision LsCounter.
Proof. solve_decision. Defined.

(** [Options], less those that only the constructors of fragmenter and reassembler read. *)
Record LsOptions := mkLsOptions {
  allowLocalFields : bool;
  allowFragmentation : bool;
  allowReassembly : bool
}.

Record GenericLinkService := mkGenericLinkService {
  s_options : LsOptions;
  s_nMaxFragments : Z;       (** of the fragmenter *)
  s_lastSeqNo : Z            (** a [uint64_t] *)
}.

Definition GenericLinkService_new (options : LsOptions) : GenericLinkService :=
  mkGenericLinkService options DEFAULT_MAX_FRAGMENTS (u64 (-2)).

Inductive TransportState := TS_UP | TS_DOWN | TS_CLOSING | TS_FAILED | TS_CLOSED.

#[export] Instance TransportState_eq_dec : EqDecision TransportState.
Proof. solve_decision. Defined.

Definition MTU_UNLIMITED : Z := -1.
Definition MTU_INVALID : Z := -2.

Record Transport := mkTransport {
  t_mtu : Z;                 (** an [ssize_t] *)
  t_state : TransportState;
  t_nOutBytes : Z;
  t_nInBytes : Z
}.

(** The constructor; no transport of the simulation sets its MTU. *)
Definition Transport_new : Transport := mkTransport MTU_INVALID TS_UP 0 0.

(** The events of a face. *)
Inductive FaceEvent := ReassemblyTimeout (key : Key).

#[export] Instance FaceEvent_eq_dec : EqDecision FaceEvent.
Proof. solve_decision. Defined.

Record Face (RW : Type) := mkFace {
  f_sim : Sim FaceEvent;
  f_words : RW;                        (** the generator behind [random::generateWord32] *)
  f_service : GenericLinkService;
  f_reassembler : LpReassembler;
  f_transport : Transport;
  f_counters : counters LsCounter;
  f_device : list (list byte);         (** frames handed to the device *)
  f_up : list NetPacket                (** packets handed to the forwarder *)
}.

Arguments mkFace {RW}.
Arguments f_sim {RW} _.
Arguments f_words {RW} _.
Arguments f_service {RW} _.
Arguments f_reassembler {RW} _.
Arguments f_transport {RW} _.
Arguments f_counters {RW} _.
Arguments f_device {RW} _.
Arguments f_up {RW} _.

#[export] Instance set_f_words {RW} : Setter (@f_words RW) := fun f s =>
  mkFace (f_sim s) (f (f_words s)) (f_service s) (f_reassembler s) (f_transport s) (f_counters s)
    (f_device s) (f_up s).
#[export] Instance set_f_service {RW} : Setter (@f_service RW) := fun f s =>
  mkFace (f_sim s) (f_words s) (f (f_service s)) (f_reassembler s) (f_transport s) (f_counters s)
    (f_device s) (f_up s).
#[export] Instance set_f_transport {RW} : Setter (@f_transport RW) := fun f s =>
  mkFace (f_sim s) (f_words s) (f_service s) (f_reassembler s) (f (f_transport s)) (f_counters s)
    (f_device s) (f_up s).
#[export] Instance set_f_counters {RW} : Setter (@f_counters RW) := fun f s =>
  mkFace (f_sim s) (f_words s) (f_service s) (f_reassembler s) (f_transport s) (f (f_counters s))
    (f_device s) (f_up s).
#[export] Instance set_f_device {RW} : Setter (@f_device RW) := fun f s =>
  mkFace (f_sim s) (f_words s) (f_service s) (f_reassembler s) (f_transport s) (f_counters s)
    (f (f_device s)) (f_up s).
#[export] Instance set_f_up {RW} : Setter (@f_up RW) := fun f s =>
  mkFace (f_sim s) (f_words s) (f_service s) (f_reassembler s) (f_transport s) (f_counters s)
    (f_device s) (f (f_up s)).

(** The reassembler with its clock. *)
#[export] Instance lens_reassembler {RW} : Lens (Face RW) (Sim FaceEvent * LpReassembler) := {
  view := fun s => (f_sim s, f_reassembler s);
  put := fun p s =>
    mkFace p.1 (f_words s) (f_service s) p.2 (f_transport s) (f_counters s) (f_device s) (f_up s)
}.

Section service.
Context {RW : Type} `{!RandomWord RW}.
Abbreviation face := (Face RW).

Definition ls_count (c : LsCounter) : M face unit := modify (fun s => s <| f_counters ::= bump c |>).

(** *** The base class of transports *)

(** A [ssize_t] compared with sizes. *)
Definition fits_mtu (mtu : Z) (e : Element) : bool :=
  (mtu =? MTU_UNLIMITED) || (el_size e <=? u64 mtu).

Definition valid_transition (old new : TransportState) : bool :=
  match old, new with
  | TS_UP, (TS_DOWN | TS_CLOSING | TS_FAILED) => true
  | TS_DOWN, (TS_UP | TS_CLOSING | TS_FAILED) => true
  | (TS_CLOSING | TS_FAILED), TS_CLOSED => true
  | _, _ => false
  end.

Definition set_t_state (st : TransportState) (t : Transport) : Transport :=
  mkTransport (t_mtu t) st (t_nOutBytes t) (t_nInBytes t).

Definition setState (newState : TransportState) : M face unit :=
  t ← gets f_transport;
  if decide (t_state t = newState) then mret tt
  else if negb (valid_transition (t_state t) newState) then throw (RuntimeError "invalid state transition")
  else modify (fun s => s <| f_transport ::= set_t_state newState |>).

(** [close] of a transport whose [doClose] sets the state to CLOSED. *)
Definition transport_close : M face unit :=
  t ← gets f_transport;
  match t_state t with
  | TS_UP | TS_DOWN => setState TS_CLOSING;; setState TS_CLOSED
  | _ => mret tt
  end.

Section send.
Context (doSend : Element -> M face unit).

Definition transport_send (packet : Element) : M face unit :=
  t ← gets f_transport;
  lift_result (boost_assert (fits_mtu (t_mtu t) packet) "packet.size() <= mtu");;
  match t_state t with
  | TS_UP =>
      ls_count nOutPackets;;
      modify (fun s => s <| f_transport ::= fun t =>
        mkTransport (t_mtu t) (t_state t) (u64 (t_nOutBytes t + el_size packet)) (t_nInBytes t) |>);;
      doSend packet
  | TS_DOWN => doSend packet
  | _ => mret tt
  end.

(** *** Sending *)

(** A tag becomes a field. *)
Definition add_tag (F : FieldDecl Z) (tag : option Z) (p : LpPacket) : exn + LpPacket :=
  match tag with Some n => applied (lp_add F n) p | None => mret p end.

Definition encodeLpFields (tags : Tags) (lpPacket : LpPacket) : M face LpPacket :=
  s ← gets f_service;
  p ← lift_result (if allowLocalFields (s_options s)
                   then add_tag IncomingFaceIdField (t_incomingFaceId tags) lpPacket
                   else mret lpPacket);
  p ← lift_result (add_tag CongestionMarkField (t_congestionMark tags) p);
  lift_result (applied (lp_add HopCountTagField (default 0 (t_hopCount tags))) p).

Definition assignSequence (pkt : LpPacket) : M face LpPacket :=
  modify (fun s => s <| f_service ::= fun s =>
    mkGenericLinkService (s_options s) (s_nMaxFragments s) (u64 (s_lastSeqNo s + 1)) |>);;
  s ← gets f_service;
  lift_result (applied (lp_set SequenceField (s_lastSeqNo s)) pkt).

Fixpoint assignSequences (pkts : list LpPacket) : M face (list LpPacket) :=
  match pkts with
  | [] => mret []
  | pkt :: pkts => pkt ← assignSequence pkt; pkts ← assignSequences pkts; mret (pkt :: pkts)
  end.

(** [sendPacket] of each fragment that fits. *)
Definition send_fragment (mtu : Z) (frag : LpPacket) : M face unit :=
  '(_, tp) ← lift_result (LpPacket_wireEncode frag);
  if negb (fits_mtu mtu tp) then ls_count nOutOverMtu else transport_send tp.

Definition sendNetPacket (pkt : LpPacket) : M face unit :=
  t ← gets f_transport;
  s ← gets f_service;
  let mtu := t_mtu t in
  frags ← (if allowFragmentation (s_options s) && negb (mtu =? MTU_UNLIMITED)
           then lift_result (fragmentPacket (s_nMaxFragments s) pkt (u64 mtu))
           else mret (Some [pkt]));
  match frags with
  | None => ls_count nFragmentationErrors
  | Some frags =>
      frags ← (if (1 <? length frags)%nat then assignSequences frags
               else
                 lift_result (boost_assert (0 <? length frags)%nat "frags.size() > 0");;
                 lift_result (boost_assert (negb (existsb (lp_has FragIndexField) (take 1 frags)))
                   "!frags.front().has<lp::FragIndexField>()");;
                 lift_result (boost_assert (negb (existsb (lp_has FragCountField) (take 1 frags)))
                   "!frags.front().has<lp::FragCountField>()");;
                 mret frags);
      for_each frags (send_fragment mtu)
  end.

(** [interest.wireEncode()]: an Interest without wire and nonce draws a word. *)
Definition interest_wire (interest : WireFormat.Interest) : M face Element :=
  word ← (if bool_decide (in_wire interest = None) && negb (el_hasWire (in_nonce interest))
          then action (fun s => let '(r, word) := generateWord32 (f_words s) in
                                (s <| f_words := r |>, word))
          else mret 0);
  lift_result (snd <$> Interest_wireEncode word interest).

(** [lp::Packet(const Block&)] of the wire of a packet. *)
Definition LpPacket_of_element (e : Element) : exn + LpPacket :=
  b ← block_of_element e; LpPacket_of_block b.

Definition doSendInterest (interest : WireFormat.Interest) (tags : Tags) : M face unit :=
  w ← interest_wire interest;
  lpPacket ← lift_result (LpPacket_of_element w);
  lpPacket ← encodeLpFields tags lpPacket;
  sendNetPacket lpPacket.

Definition doSendData (data : WireFormat.Data) (tags : Tags) : M face unit :=
  w ← lift_result (snd <$> Data_wireEncode data);
  lpPacket ← lift_result (LpPacket_of_element w);
  lpPacket ← encodeLpFields tags lpPacket;
  sendNetPacket lpPacket.

Definition doSendNack (interest : WireFormat.Interest) (header : NackHeader) (tags : Tags)
    : M face unit :=
  w ← interest_wire interest;
  lpPacket ← lift_result (LpPacket_of_element w);
  lpPacket ← lift_result (applied (lp_add NackField header) lpPacket);
  lpPacket ← encodeLpFields tags lpPacket;
  sendNetPacket lpPacket.

(** [LinkService::sendInterest], [sendData] and [sendNack], less the signals of tracers. *)
Definition sendInterest (interest : WireFormat.Interest) (tags : Tags) : M face unit :=
  ls_count nOutInterests;; doSendInterest interest tags.
Definition sendData (data : WireFormat.Data) (tags : Tags) : M face unit :=
  ls_count nOutData;; doSendData data tags.
Definition sendNack (interest : WireFormat.Interest) (header : NackHeader) (tags : Tags) : M face unit :=
  ls_count nOutNacks;; doSendNack interest header tags.
End send.

(** *** Receiving *)

(** [LinkService::receiveInterest], [receiveData] and [receiveNack]. *)
Definition hand_up (c : LsCounter) (p : NetPacket) : M face unit :=
  ls_count c;; modify (fun s => s <| f_up ::= fun l => l ++ [p] |>).

(** A field becomes a tag, if it is there. *)
Definition tag_of {V} (F : FieldDecl V) (firstPkt : LpPacket) : exn + option V :=
  if lp_has F firstPkt then Some <$> lp_get F 0 firstPkt else mret None.

Definition hop_count_tag (firstPkt : LpPacket) : exn + option Z :=
  option_map (fun n => u64 (n + 1)) <$> tag_of HopCountTagField firstPkt.

Definition decodeInterest (netPkt : Block) (firstPkt : LpPacket) : M face unit :=
  s ← gets f_service;
  lift_result (boost_assert (m_type netPkt =? tlv.Interest) "netPkt.type() == tlv::Interest");;
  lift_result (boost_assert (negb (lp_has NackField firstPkt)) "!firstPkt.has<lp::NackField>()");;
  interest ← lift_result (Interest_wireDecode netPkt);
  hopCount ← lift_result (hop_count_tag firstPkt);
  if lp_has NextHopFaceIdField firstPkt && negb (allowLocalFields (s_options s)) then mret tt else
  nextHop ← lift_result (tag_of NextHopFaceIdField firstPkt);
  if lp_has CachePolicyField firstPkt then ls_count nInNetInvalid else
  congestion ← lift_result (tag_of CongestionMarkField firstPkt);
  hand_up nInInterests (NetInterest interest (mkTags None nextHop None congestion hopCount)).

Definition decodeData (netPkt : Block) (firstPkt : LpPacket) : M face unit :=
  s ← gets f_service;
  lift_result (boost_assert (m_type netPkt =? tlv.Data) "netPkt.type() == tlv::Data");;
  data ← lift_result (Data_of_block netPkt);
  hopCount ← lift_result (hop_count_tag firstPkt);
  if lp_has NackField firstPkt then ls_count nInNetInvalid else
  if lp_has NextHopFaceIdField firstPkt then ls_count nInNetInvalid else
  cachePolicy ← (if allowLocalFields (s_options s) then lift_result (tag_of CachePolicyField firstPkt)
                 else mret None);
  congestion ← lift_result (tag_of CongestionMarkField firstPkt);
  hand_up nInData (NetData data (mkTags None None cachePolicy congestion hopCount)).

Definition decodeNack (netPkt : Block) (firstPkt : LpPacket) : M face unit :=
  lift_result (boost_assert (m_type netPkt =? tlv.Interest) "netPkt.type() == tlv::Interest");;
  lift_result (boost_assert (lp_has NackField firstPkt) "firstPkt.has<lp::NackField>()");;
  interest ← lift_result (Interest_wireDecode netPkt);
  header ← lift_result (lp_get NackField 0 firstPkt);
  if lp_has NextHopFaceIdField firstPkt then ls_count nInNetInvalid else
  if lp_has CachePolicyField firstPkt then ls_count nInNetInvalid else
  congestion ← lift_result (tag_of CongestionMarkField firstPkt);
  hand_up nInNacks (NetNack interest header (mkTags None None None congestion None)).

Definition decodeNetPacket (netPkt : Block) (firstPkt : LpPacket) : M face unit :=
  catch_tlv
    (if m_type netPkt =? tlv.Interest then
       if lp_has NackField firstPkt then decodeNack netPkt firstPkt else decodeInterest netPkt firstPkt
     else if m_type netPkt =? tlv.Data then decodeData netPkt firstPkt
     else ls_count nInNetInvalid)
    (ls_count nInNetInvalid).

Definition doReceivePacket (packet : Element) (remoteEndpoint : Z) : M face unit :=
  s ← gets f_service;
  catch_tlv
    (pkt ← lift_result (LpPacket_of_element packet);
     if negb (lp_has FragmentField pkt) then mret tt else
     if (lp_has FragIndexField pkt || lp_has FragCountField pkt) && negb (allowReassembly (s_options s))
     then mret tt else
     r ← zoom (receiveFragment ReassemblyTimeout remoteEndpoint pkt);
     match r with
     | Some (netPkt, firstPkt) => decodeNetPacket netPkt firstPkt
     | None => mret tt
     end)
    (ls_count nInLpInvalid).

(** [Transport::receive] *)
Definition transport_receive (packet : Element) (remoteEndpoint : Z) : M face unit :=
  t ← gets f_transport;
  lift_result (boost_assert (fits_mtu (t_mtu t) packet) "packet.size() <= mtu");;
  ls_count nInPackets;;
  modify (fun s => s <| f_transport ::= fun t =>
    mkTransport (t_mtu t) (t_state t) (t_nOutBytes t) (u64 (t_nInBytes t + el_size packet)) |>);;
  doReceivePacket packet remoteEndpoint.

(** The timer of the reassembler, whose signal the constructor connects to a counter. *)
Definition face_dispatch (e : FaceEvent) : M face unit :=
  match e with
  | ReassemblyTimeout key =>
      n ← zoom (timeoutPartialPacket key);
      match n with Some _ => ls_count nReassemblyTimeouts | None => mret tt end
  end.
End service.
