(* ===== verification/NetDeviceTransport.v ===== *)
(** * NetDeviceTransport: between a face and a device of the simulation

    Sources: [src/src/ndnSIM/model/ndn-net-device-transport.cpp] and
    [ndn-block-header.cpp].  A node that runs NFD but takes part in a Statim network puts
    the Statim header in front of the bare network packet and takes it off again; the hop
    count of a Data travels in the header's switch id.  A node that runs the Statim engine
    hands the frame to it. *)
From S2P Require Import Prelude PacketHeader Tlv Encoder Block BlockSpec Names NameWire Exclude WireFormat LpPacket LpFragmenter Simulator LpReassembler Packets LinkService.

(** The two switches of [L3Protocol]. *)
Record L3Options := mkL3Options {
  enableStatimPacket : bool;
  useStatimEngine : bool
}.

(** [BlockHeader::Serialize] writes the wire, [Deserialize] reads one from the buffer. *)
Definition BlockHeader_Serialize (block : Block) : exn + list byte := wire block.
Definition BlockHeader_Deserialize (buffer : list byte) : exn + Block := Block_fromStream buffer.

Section transport.
Context {RW : Type} `{!RandomWord RW} `{!StringHash} (l3 : L3Options).
Context (engine : list byte -> M (Face RW) unit).
Abbreviation face := (Face RW).

(** [m_netDevice->Send] of a packet to which headers were added. *)
Definition device_send (octets_ : list byte) : M face unit :=
  modify (fun s => s <| f_device ::= fun l => l ++ [octets_] |>).

(** The network packet inside a link packet, and its hop count. *)
Definition unwrap (lpBlock : Block) : exn + (Block * Z) :=
  if negb (m_type lpBlock =? lp_tlv.LpPacket) then mret (lpBlock, 0) else
  lpPkt ← LpPacket_of_block lpBlock;
  hopCount ← (if lp_has HopCountTagField lpPkt then lp_get HopCountTagField 0 lpPkt else mret 0);
  if lp_has FragmentField lpPkt then
    frag ← lp_get FragmentField 0 lpPkt;
    ndnBlock ← Block_of_memory frag;
    mret (ndnBlock, hopCount)
  else mret (lpBlock, hopCount).

Definition packet_name (ndnBlock : Block) : exn + Name :=
  if m_type ndnBlock =? tlv.Interest then in_name <$> Interest_wireDecode ndnBlock
  else if m_type ndnBlock =? tlv.Data then da_name <$> Data_of_block ndnBlock
  else mret [].

(** The Statim header and the octets behind it. *)
Definition statim_frame (lpBlock : Block) : exn + (PacketHeader * list byte) :=
  '(ndnBlock, hopCount) ← unwrap lpBlock;
  name ← packet_name ndnBlock;
  let statimHeader := PacketHeader_of_name name in
  let statimHeader := if m_type ndnBlock =? tlv.Data
                      then setSwitchId (u8 hopCount) statimHeader else statimHeader in
  payload ← BlockHeader_Serialize ndnBlock;
  mret (statimHeader, payload).

Definition doSend (packet : Element) : M face unit :=
  lpBlock ← lift_result (block_of_element packet);
  if enableStatimPacket l3 && negb (useStatimEngine l3) then
    '(statimHeader, payload) ← lift_result (statim_frame lpBlock);
    device_send (Serialize statimHeader ++ payload)
  else
    payload ← lift_result (BlockHeader_Serialize lpBlock);
    device_send payload.

(** The link packet a Statim frame becomes: the switch id as its hop count. *)
Definition from_statim (statimHeader : PacketHeader) (payload : list byte) : exn + Element :=
  ndnBlock ← BlockHeader_Deserialize payload;
  lpPkt ← LpPacket_of_block ndnBlock;
  lpPkt ← applied (lp_add HopCountTagField (m_switchId statimHeader)) lpPkt;
  snd <$> LpPacket_wireEncode lpPkt.

(** Nothing here catches an exception. *)
Definition receiveFromNetDevice (p : list byte) : M face unit :=
  if useStatimEngine l3 then engine p
  else if enableStatimPacket l3 then
    let '(statimHeader, n) := Deserialize p in
    if negb (n =? Z.of_nat SERIALIZED_SIZE) then mret tt else
    nfdPacket ← lift_result (from_statim statimHeader (drop SERIALIZED_SIZE p));
    transport_receive nfdPacket 0
  else
    header ← lift_result (BlockHeader_Deserialize p);
    nfdPacket ← lift_result (mret (element_of header));
    transport_receive nfdPacket 0.
End transport.
