(* ===== verification/LinkServiceSpec.v ===== *)
(** * LinkServiceSpec: what faces put on the wire and take off it

    A packet given to the link service of a node with NFD leaves its device as a Statim
    frame, and a Statim frame that arrives there is handed up as the packet in it; the
    header fields are lost on the way out, but for the hop count of a Data. *)
From S2P Require Import Prelude PacketHeader Tlv Encoder Block BlockSpec Names NameWire Exclude ExcludeSpec WireFormat WireFormatSpec PacketWireSpec LpPacket LpPacketSpec LpFragmenter LpFragmenterSpec Simulator LpReassembler Packets LinkService NetDeviceTransport.

(** The size of a number field. *)
Lemma number_field_size t n : u32_range t -> octets (el_wire (number_element t n)) <= 26.
Proof.
  intros Ht. cbn. rewrite octets_element. pose proof (octets_nonNegativeInteger n) as [Hn _].
  pose proof (sizeOfVarNumber_le t). pose proof (sizeOfVarNumber_le (octets (nonNegativeInteger n))). lia.
Qed.

(** ** Tags and header fields *)
Definition tags_ok (tags : Tags) : Prop :=
  from_option u64_range True (t_incomingFaceId tags) /\
  from_option u64_range True (t_congestionMark tags) /\
  from_option u64_range True (t_hopCount tags).

Definition local_tag (options : LsOptions) (tags : Tags) : option Z :=
  if allowLocalFields options then t_incomingFaceId tags else None.

(** The fields [encodeLpFields] adds. *)
Definition tag_field (options : LsOptions) (tags : Tags) (t : Z) : option Element :=
  if lp_tlv.HopCountTag =? t then Some (field_element HopCountTagField (default 0 (t_hopCount tags)))
  else if lp_tlv.CongestionMark =? t then field_element CongestionMarkField <$> t_congestionMark tags
  else if lp_tlv.IncomingFaceId =? t then field_element IncomingFaceIdField <$> local_tag options tags
  else None.

Definition orelse {A} (a b : option A) : option A := match a with Some _ => a | None => b end.

Lemma add_tag_run t tag p :
  let F := uint64_field t in
  u32_range t -> fi_isRecognized (FieldInfo_of t) = true -> from_option u64_range True tag ->
  packet_ok p -> lp_wire p = None -> field t (lp_elements p) = None ->
  exists p', add_tag F tag p = inr p' /\ packet_ok p' /\ lp_wire p' = None /\
    octets (wires (lp_elements p')) <= octets (wires (lp_elements p)) + 26 /\
    forall t', field t' (lp_elements p') =
      if t =? t' then number_element t <$> tag else field t' (lp_elements p).
Proof.
  intros F Ht Hr Htag Hp Hw Hno. destruct tag as [n|]; cbn [add_tag].
  - destruct (applied_add F (FieldLaws0 := uint64_field_laws t Ht Hr) n p Hp Htag Hno)
      as (p' & E & Hok & Hw' & Hsz & Hf).
    exists p'. rewrite E. pose proof (number_field_size t n Ht). split_and!; [done..| |].
    + rewrite Hsz. change (field_element F n) with (number_element t n). lia.
    + intros t'. rewrite Hf. done.
  - exists p. split_and!; [done..|lia|]. intros t'. destruct (Z.eqb_spec t t') as [<-|]; done.
Qed.

Lemma encodeLpFields_run {RW} (s : Face RW) tags p :
  tags_ok tags -> packet_ok p -> lp_wire p = None ->
  (forall t, is_Some (tag_field (s_options (f_service s)) (mkTags (Some 0) None None (Some 0) None) t) \/
     t = lp_tlv.IncomingFaceId -> field t (lp_elements p) = None) ->
  exists p', encodeLpFields tags p s = (s, inr p') /\ packet_ok p' /\ lp_wire p' = None /\
    octets (wires (lp_elements p')) <= octets (wires (lp_elements p)) + 78 /\
    forall t, field t (lp_elements p') =
      orelse (tag_field (s_options (f_service s)) tags t) (field t (lp_elements p)).
Proof.
  intros (H1 & H2 & H3) Hp Hw Hno. unfold encodeLpFields. rewrite run_gets.
  set (o := s_options (f_service s)) in *.
  assert ((if allowLocalFields o then add_tag IncomingFaceIdField (t_incomingFaceId tags) p else mret p)
    = add_tag (uint64_field lp_tlv.IncomingFaceId) (local_tag o tags) p) as ->.
  { unfold local_tag. by destruct (allowLocalFields o). }
  destruct (add_tag_run lp_tlv.IncomingFaceId (local_tag o tags) p) as (p1 & E1 & K1 & W1 & S1 & F1);
    [done|done| |done|done|apply Hno; by right|].
  { unfold local_tag. by destruct (allowLocalFields o). }
  rewrite E1, run_lift_inr. unfold CongestionMarkField.
  destruct (add_tag_run lp_tlv.CongestionMark (t_congestionMark tags) p1) as (p2 & E2 & K2 & W2 & S2 & F2);
    [done|done|done|done|done|rewrite F1; apply Hno; left; eauto|].
  rewrite E2, run_lift_inr. unfold HopCountTagField.
  destruct (add_tag_run lp_tlv.HopCountTag (Some (default 0 (t_hopCount tags))) p2)
    as (p3 & E3 & K3 & W3 & S3 & F3);
    [done|done|by destruct (t_hopCount tags)|done|done|rewrite F2, F1; apply Hno; left; eauto|].
  cbn [add_tag] in E3. exists p3. unfold lift_result. rewrite E3.
  split_and!; [done|done|done|lia|]. intros t. rewrite F3, F2, F1. unfold tag_field.
  destruct (lp_tlv.HopCountTag =? t) eqn:T1; [done|].
  destruct (Z.eqb_spec lp_tlv.CongestionMark t) as [<-|].
  { destruct (t_congestionMark tags); [done|]. cbn. symmetry. apply Hno. left. by eexists. }
  destruct (Z.eqb_spec lp_tlv.IncomingFaceId t) as [<-|]; [|done].
  destruct (local_tag o tags); [done|]. cbn. symmetry. apply Hno. by right.
Qed.

(** ** Sending a packet that needs no fragmentation *)
Lemma Block_of_memory_complete e :
  element_ok e -> exists b, Block_of_memory (el_wire e) = inr b /\ fresh e b.
Proof.
  intros He. destruct (encodes_split _ _ _ He) as (h & Ew & _).
  assert (exists b, Block_of_memory (el_wire e) = inr b) as [b E].
  { unfold Block_of_memory.
    rewrite (read_header_encodes _ 0 (length (el_wire e)) (el_wire e) (el_type e) (el_value e) []);
      [|lia|lia|by rewrite slice_all, app_nil_r|exact He]. next.
    rewrite Ew, length_app. unfold octets.
    destruct (Z.ltb_spec (Z.of_nat (length h + length (el_value e) -
      (0 + (length h + length (el_value e) - length (el_value e))))) (Z.of_nat (length (el_value e)))); [lia|eauto]. }
  exists b. split; [done|].
  destruct (Block_of_memory_ok _ _ E) as (t & v & w & more & Hf & Ebuf).
  pose proof Hf as (Hb & Hel & _). pose proof (is_element_ok _ _ (block_ok_own _ Hb) Hel) as Hw.
  destruct (encodes_inj w t v (el_wire e) (el_type e) (el_value e) more []) as (-> & -> & -> & _);
    [exact Hw|exact He|by rewrite app_nil_r|]. by destruct e.
Qed.

(** What the transport of a face of the simulation lets through. *)
Definition mtu_open (mtu : Z) : Prop := mtu = MTU_UNLIMITED \/ mtu = MTU_INVALID.

Lemma mtu_open_fits mtu e : mtu_open mtu -> el_size e <= 9223372036854775807 -> fits_mtu mtu e = true.
Proof.
  intros [->| ->] Hsz; [done|]. unfold fits_mtu. change (u64 MTU_INVALID) with 18446744073709551614.
  cbn. apply Z.leb_le. lia.
Qed.

(** The state after one packet went through the transport. *)
Definition sent_packet {RW} (tp : Element) (s : Face RW) : Face RW :=
  s <| f_counters ::= bump nOutPackets |>
    <| f_transport ::= fun t =>
         mkTransport (t_mtu t) (t_state t) (u64 (t_nOutBytes t + el_size tp)) (t_nInBytes t) |>.

Lemma run_lift_mret {W A B} (a : A) (k : A -> M W B) w : (lift_result (mret a) ≫= k) w = k a w.
Proof. done. Qed.

Lemma run_assert {RW B} c what (k : unit -> M (Face RW) B) s :
  c = true -> (lift_result (boost_assert c what) ≫= k) s = k tt s.
Proof. by intros ->. Qed.

Lemma transport_send_up {RW} doSend tp (s : Face RW) :
  mtu_open (t_mtu (f_transport s)) -> t_state (f_transport s) = TS_UP -> el_size tp <= 9223372036854775807 ->
  transport_send doSend tp s = doSend tp (sent_packet tp s).
Proof.
  intros Hm Hu Hsz. unfold transport_send. rewrite run_gets, run_assert by (by apply mtu_open_fits).
  by rewrite Hu.
Qed.

(** Nothing is fragmented: the invalid MTU of the simulation's transports, as a [size_t],
    is larger than any packet. *)
Lemma sendNetPacket_whole {RW} doSend p w hops (s : Face RW) :
  whole p w hops -> mtu_open (t_mtu (f_transport s)) -> t_state (f_transport s) = TS_UP ->
  sendNetPacket doSend p s =
    doSend (lp_element (lp_elements p)) (sent_packet (lp_element (lp_elements p)) s).
Proof.
  intros Hwh Hm Hu. destruct (whole_encode _ _ _ Hwh) as (Henc & Hsz & _).
  pose proof Hwh as [Hp Hw _ _ Hfr Hh Hi Hc]. unfold sendNetPacket. rewrite !run_gets. cbv zeta.
  set (tp := lp_element (lp_elements p)) in *.
  assert (forall q, lp_elements q = lp_elements p ->
    LpPacket_wireEncode q = inr (mkLpPacket (lp_elements p) (Some tp), tp) ->
    (frags ← (lift_result (boost_assert (0 <? length [q])%nat "frags.size() > 0");;
       lift_result (boost_assert (negb (existsb (lp_has FragIndexField) (take 1 [q])))
         "!frags.front().has<lp::FragIndexField>()");;
       lift_result (boost_assert (negb (existsb (lp_has FragCountField) (take 1 [q])))
         "!frags.front().has<lp::FragCountField>()");;
       mret [q]);
     for_each frags (send_fragment doSend (t_mtu (f_transport s)))) s = doSend tp (sent_packet tp s)) as Hone.
  { intros q Hq Eq. cbn [take existsb].
    rewrite (lp_has_none FragIndexField q), (lp_has_none FragCountField q) by (by rewrite Hq).
    rewrite !run_assoc, run_assert, !run_assoc, run_assert, !run_assoc, run_assert, run_ret by done.
    cbn [for_each].
    unfold send_fragment. rewrite !run_assoc, Eq, run_lift_inr.
    rewrite mtu_open_fits by first [exact Hm|lia]. cbn [negb].
    unfold mbind at 1, M_bind at 1. rewrite transport_send_up by first [exact Hm|exact Hu|lia].
    by destruct (doSend tp (sent_packet tp s)) as [s' [ex|[]]]. }
  destruct Hm as [Hm|Hm]; rewrite Hm in *.
  - change (MTU_UNLIMITED =? MTU_UNLIMITED) with true. rewrite andb_false_r, run_ret.
    cbn [length Nat.ltb Nat.leb]. by apply Hone.
  - destruct (allowFragmentation (s_options (f_service s))); cbn [andb]; [|rewrite run_ret; by apply Hone].
    change (negb (MTU_INVALID =? MTU_UNLIMITED)) with true. cbv iota.
    change (u64 MTU_INVALID) with 18446744073709551614.
    rewrite (fragmentPacket_small _ _ w hops) by (done || (fold tp; unfold MAX_SINGLE_FRAG_OVERHEAD; lia)).
    rewrite run_lift_inr. by apply Hone.
Qed.

(** ** From the link service to the device *)
Record network_element (e : Element) : Prop := {
  ne_ok : element_ok e;
  ne_network : is_network e = true;
  ne_size : octets (el_wire e) <= 4611686018427387904
}.

Lemma network_element_size e : network_element e -> u64_range (octets (el_wire e)).
Proof. intros [_ _ H]. pose proof (octets_nonneg (el_wire e)). unfold u64_range. lia. Qed.

Lemma LpPacket_of_element_network e :
  network_element e -> LpPacket_of_element e = inr (bare_of (el_wire e)).
Proof.
  intros He. unfold LpPacket_of_element.
  destruct (block_of_element_ok e (ne_ok _ He)) as (b & -> & Hb). next.
  apply LpPacket_of_network; [done|apply He|by apply network_element_size].
Qed.

Lemma bare_of_ok e : network_element e -> packet_ok (bare_of (el_wire e)).
Proof.
  intros He. constructor; cbn [bare_of lp_elements lp_wire]; [| | |done].
  - repeat constructor. apply element_tv_ok; [done|by apply network_element_size].
  - by repeat constructor.
  - repeat constructor.
Qed.

Lemma bare_of_size e :
  network_element e -> octets (wires (lp_elements (bare_of (el_wire e)))) <= 4611686018427388904.
Proof.
  intros He. pose proof (ne_size _ He). cbn [bare_of lp_elements]. rewrite wires_one.
  change (octets (element lp_tlv.Fragment (el_wire e)) <= 4611686018427388904). rewrite octets_element.
  pose proof (sizeOfVarNumber_le lp_tlv.Fragment). pose proof (sizeOfVarNumber_le (octets (el_wire e))). lia.
Qed.

Lemma bare_of_field w t :
  field t (lp_elements (bare_of w)) =
    if lp_tlv.Fragment =? t then Some (element_tv lp_tlv.Fragment w) else None.
Proof. done. Qed.

(** A packet without headers becomes a whole packet. *)
Lemma encode_bare {RW} e tags (s : Face RW) p :
  network_element e -> tags_ok tags -> packet_ok p -> lp_wire p = None ->
  octets (wires (lp_elements p)) <= 4611686018427389000 ->
  (forall t, t <> lp_tlv.Nack -> field t (lp_elements p) = field t (lp_elements (bare_of (el_wire e)))) ->
  exists p', encodeLpFields tags p s = (s, inr p') /\
    whole p' (el_wire e) (default 0 (t_hopCount tags)).
Proof.
  intros He Htags Hp Hw Hsz Hf.
  destruct (encodeLpFields_run s tags p Htags Hp Hw) as (p' & E & K & W & S & F).
  { intros t Ht. rewrite Hf, bare_of_field; destruct Ht as [[x Ht]| ->]; try done.
    - unfold tag_field in Ht. by destruct (Z.eqb_spec lp_tlv.Fragment t) as [<-|].
    - unfold tag_field in Ht. intros ->. done. }
  exists p'. split; [done|]. split; [done|done|lia| | | | |].
  - destruct Htags as (_ & _ & H). by destruct (t_hopCount tags).
  - rewrite F, Hf by done. by rewrite bare_of_field.
  - by rewrite F.
  - rewrite F, Hf by done. by rewrite bare_of_field.
  - rewrite F, Hf by done. by rewrite bare_of_field.
Qed.

(** The network packet comes out of the link packet again. *)
Lemma unwrap_whole p e hops :
  whole p (el_wire e) hops -> network_element e ->
  exists b b', block_of_element (lp_element (lp_elements p)) = inr b /\ unwrap b = inr (b', hops) /\ fresh e b'.
Proof.
  intros Hwh He. destruct (whole_encode _ _ _ Hwh) as (_ & _ & Hdec).
  assert (element_ok (lp_element (lp_elements p))) as Hok.
  { apply element_tv_ok; [done|]. destruct Hwh as [_ _ Hsz _ _ _ _ _].
    pose proof (octets_nonneg (wires (lp_elements p))). unfold u64_range. lia. }
  destruct (block_of_element_ok _ Hok) as (b & Eb & Hb). exists b. unfold unwrap.
  rewrite (fresh_type _ _ _ Hb), (Hdec b Hb). change (negb _) with false. cbv iota. next.
  set (q := mkLpPacket _ _). destruct Hwh as [_ _ _ Hr Hfr Hh _ _].
  rewrite (lp_has_some HopCountTagField q _ Hh), (lp_get_element HopCountTagField hops q) by assumption. next.
  rewrite (lp_has_some FragmentField q _ Hfr), (lp_get_element FragmentField (el_wire e) q); [|split|exact Hfr]; cycle 1.
  - destruct (encodes_split _ _ _ (ne_ok _ He)) as (h & -> & Hl & _). by destruct h; [simpl in Hl; lia|].
  - by apply network_element_size.
  - destruct (Block_of_memory_complete e (ne_ok _ He)) as (b' & E' & Hb').
    exists b'. next. change (fl_read (el_wire e)) with (el_wire e). rewrite E'. next. done.
Qed.

(** The face of a node with NFD in a Statim network, as the simulation sets it up. *)
Definition statim_face {RW} (l3 : L3Options) (s : Face RW) : Prop :=
  enableStatimPacket l3 = true /\ useStatimEngine l3 = false /\
  mtu_open (t_mtu (f_transport s)) /\ t_state (f_transport s) = TS_UP.

Definition out_header `{!StringHash} (e : Element) (n : Name) (hops : Z) : PacketHeader :=
  if el_type e =? tlv.Data then setSwitchId (u8 hops) (PacketHeader_of_name n) else PacketHeader_of_name n.

Lemma send_whole {RW} `{!StringHash} l3 (s : Face RW) p e n hops :
  statim_face l3 s -> whole p (el_wire e) hops -> network_element e ->
  (forall b, fresh e b -> packet_name b = inr n) ->
  sendNetPacket (doSend l3) p s =
    (sent_packet (lp_element (lp_elements p)) s
       <| f_device ::= fun l => l ++ [Serialize (out_header e n hops) ++ el_wire e] |>, inr tt).
Proof.
  intros (Hen & Hen' & Hm & Hu) Hwh He Hn. rewrite (sendNetPacket_whole _ _ _ _ _ Hwh Hm Hu).
  destruct (unwrap_whole _ _ _ Hwh He) as (b & b' & Eb & Eu & Hb'). unfold doSend.
  rewrite Eb, run_lift_inr, Hen, Hen'. cbn [andb negb]. unfold statim_frame. rewrite Eu. next.
  rewrite (Hn b' Hb'). next. unfold BlockHeader_Serialize. pose proof Hb' as (_ & (_ & Ht & _ & Hw) & _).
  rewrite Hw, Ht. next. rewrite run_lift_mret. done.
Qed.

(** ** Sending Interests, Data and Nacks *)
Lemma send_network {RW} `{!StringHash} l3 (s : Face RW) e n tags :
  statim_face l3 s -> network_element e -> tags_ok tags ->
  (forall b, fresh e b -> packet_name b = inr n) ->
  exists tp, (lpPacket ← lift_result (LpPacket_of_element e); lpPacket ← encodeLpFields tags lpPacket;
              sendNetPacket (doSend l3) lpPacket) s =
    (sent_packet tp s <| f_device ::= fun l =>
       l ++ [Serialize (out_header e n (default 0 (t_hopCount tags))) ++ el_wire e] |>, inr tt).
Proof.
  intros Hs He Htags Hn. rewrite LpPacket_of_element_network, run_lift_inr by done.
  destruct (encode_bare e tags s (bare_of (el_wire e))) as (p & E & Hwh); [done|done|by apply bare_of_ok|done| |done|].
  { pose proof (bare_of_size e He). lia. }
  exists (lp_element (lp_elements p)). rewrite (run_seq _ _ _ _ _ E). by apply send_whole.
Qed.

(** An Interest with a nonce, and no wire so far. *)
Lemma interest_wire_run {RW} `{!RandomWord RW} i (s : Face RW) :
  interest_ok i -> in_wire i = None -> interest_wire i s = (s, inr (interest_element i)).
Proof.
  intros Hi Hw. pose proof Hi as (_ & _ & _ & [Hno _] & _). unfold interest_wire.
  rewrite (element_ok_wire _ Hno), andb_false_r, run_ret. unfold lift_result. f_equal.
  assert (ensure_nonce 0 i = i) as E by (unfold ensure_nonce; by rewrite (element_ok_wire _ Hno)).
  rewrite Interest_wireEncode_spec by (by rewrite ?E). by rewrite E.
Qed.

Definition packet_fits (e : Element) : Prop := octets (el_value e) <= MAX_SIZE_OF_BLOCK_FROM_STREAM.

Lemma network_element_tv t v :
  t = tlv.Interest \/ t = tlv.Data -> octets v <= MAX_SIZE_OF_BLOCK_FROM_STREAM ->
  network_element (element_tv t v).
Proof.
  intros Ht Hv. unfold MAX_SIZE_OF_BLOCK_FROM_STREAM in Hv. pose proof (octets_nonneg v).
  split; [apply element_tv_ok; [by destruct Ht as [->| ->]|unfold u64_range; lia]|by destruct Ht as [->| ->]|].
  cbn [el_wire element_tv]. rewrite octets_element.
  pose proof (sizeOfVarNumber_le t). pose proof (sizeOfVarNumber_le (octets v)). lia.
Qed.

(** ** From the device to the forwarder *)
Definition received_packet {RW} (tp : Element) (s : Face RW) : Face RW :=
  s <| f_counters ::= bump nInPackets |>
    <| f_transport ::= fun t =>
         mkTransport (t_mtu t) (t_state t) (t_nOutBytes t) (u64 (t_nInBytes t + el_size tp)) |>.

(** A packet without fragment numbers goes straight through the reassembler. *)
Lemma receiveFragment_whole {RW} endpoint p e (s : Face RW) :
  field lp_tlv.Fragment (lp_elements p) = Some (element_tv lp_tlv.Fragment (el_wire e)) ->
  field lp_tlv.FragIndex (lp_elements p) = None -> field lp_tlv.FragCount (lp_elements p) = None ->
  1 <= r_nMaxFragments (f_reassembler s) -> network_element e ->
  exists b, Block_of_memory (el_wire e) = inr b /\ fresh e b /\
    zoom (receiveFragment ReassemblyTimeout endpoint p) s = (s, inr (Some (b, p))).
Proof.
  intros Hfr Hi Hc Hmax He. destruct (Block_of_memory_complete e (ne_ok _ He)) as (b & Eb & Hb).
  exists b. split; [done|]. split; [done|]. unfold zoom.
  assert (receiveFragment ReassemblyTimeout endpoint p (view s) = (view s, inr (Some (b, p)))) as ->.
  { unfold receiveFragment, get_or.
    rewrite (lp_has_some FragmentField p _ Hfr), (lp_has_none FragIndexField p Hi), (lp_has_none FragCountField p Hc).
    cbn [boost_assert]. rewrite !run_lift_mret. change (1 <=? 0) with false. cbv iota. rewrite run_gets.
    destruct (Z.ltb_spec (r_nMaxFragments (snd (view s))) 1) as [H|_]; [cbn in H; lia|].
    change ((0 =? 0) && (1 =? 1)) with true. cbv iota.
    rewrite (lp_get_element FragmentField (el_wire e) p); [|split|exact Hfr].
    - rewrite run_lift_inr. change (fl_read (el_wire e)) with (el_wire e). by rewrite Eb, run_lift_inr.
    - destruct (encodes_split _ _ _ (ne_ok _ He)) as (h & -> & Hl & _). by destruct h; [simpl in Hl; lia|].
    - by apply network_element_size. }
  by destruct s.
Qed.

Lemma receive_whole {RW} p e hops (s : Face RW) :
  whole p (el_wire e) hops -> network_element e -> mtu_open (t_mtu (f_transport s)) ->
  1 <= r_nMaxFragments (f_reassembler s) ->
  let tp := lp_element (lp_elements p) in
  let q := mkLpPacket (lp_elements p) (Some tp) in
  exists b, Block_of_memory (el_wire e) = inr b /\ fresh e b /\
    transport_receive tp 0 s =
      catch_tlv (decodeNetPacket b q) (ls_count nInLpInvalid) (received_packet tp s).
Proof.
  intros Hwh He Hm Hmax tp q. destruct (whole_encode _ _ _ Hwh) as (_ & Hsz & Hdec).
  assert (element_ok tp) as Hok.
  { apply element_tv_ok; [done|]. destruct Hwh as [_ _ H _ _ _ _ _].
    pose proof (octets_nonneg (wires (lp_elements p))). unfold u64_range. lia. }
  destruct (block_of_element_ok tp Hok) as (bt & Ebt & Hbt).
  destruct Hwh as [_ _ _ _ Hfr _ Hi Hc].
  destruct (receiveFragment_whole 0 q e (received_packet tp s)) as (b & Em & Hb & Er); [done..|].
  exists b. split; [done|]. split; [done|]. unfold transport_receive.
  rewrite run_gets, run_assert by (apply mtu_open_fits; [exact Hm|fold tp in Hsz; lia]).
  unfold ls_count at 1. rewrite !run_modify.
  unfold doReceivePacket. rewrite run_gets. unfold catch_tlv at 1 2. fold (received_packet tp s).
  unfold LpPacket_of_element. rewrite Ebt. next.
  rewrite (Hdec bt Hbt), run_lift_inr. fold tp q.
  rewrite (lp_has_some FragmentField q _ Hfr), (lp_has_none FragIndexField q Hi), (lp_has_none FragCountField q Hc).
  cbn [negb orb andb]. by rewrite (run_seq _ _ _ _ _ Er).
Qed.

Lemma from_statim_network h t v payload bl :
  header_wf h -> t = tlv.Interest \/ t = tlv.Data -> octets v <= MAX_SIZE_OF_BLOCK_FROM_STREAM ->
  Block_fromStream payload = inr bl -> fresh (element_tv t v) bl ->
  exists p, whole p (element t v) (m_switchId h) /\
    (forall t', t' <> lp_tlv.HopCountTag -> t' <> lp_tlv.Fragment -> field t' (lp_elements p) = None) /\
    from_statim h payload = inr (lp_element (lp_elements p)).
Proof.
  intros Hh Ht Hv Eb Hb. set (e := element_tv t v) in *. pose proof (network_element_tv t v Ht Hv) as He. fold e in He.
  assert (u64_range (m_switchId h)) as Hid by (destruct (wf_switchId h Hh); unfold u64_range; lia).
  destruct (applied_add HopCountTagField (m_switchId h) (bare_of (el_wire e))) as (p & E & K & W & S & F);
    [by apply bare_of_ok|done|done|].
  exists p. assert (whole p (el_wire e) (m_switchId h)) as Hwh.
  { split; [done|done| |done|by rewrite F|by rewrite F|by rewrite F|by rewrite F].
    pose proof (bare_of_size e He). rewrite S.
    change (field_element HopCountTagField (m_switchId h)) with (number_element lp_tlv.HopCountTag (m_switchId h)).
    pose proof (number_field_size lp_tlv.HopCountTag (m_switchId h) ltac:(done)). lia. }
  split; [done|]. split.
  - intros t' H1 H2. rewrite F, bare_of_field.
    destruct (Z.eqb_spec (f_type HopCountTagField) t'); [done|]. by destruct (Z.eqb_spec lp_tlv.Fragment t').
  - unfold from_statim, BlockHeader_Deserialize. rewrite Eb. next.
    rewrite (LpPacket_of_network e bl Hb (ne_network _ He) (network_element_size e He)). next.
    rewrite E. next. destruct (whole_encode _ _ _ Hwh) as (-> & _). done.
Qed.

(** What a whole packet is handed up as. *)
Definition hops_tags (n : Z) : Tags := mkTags None None None None (Some (u64 (n + 1))).

Definition handed_up {RW} (c : LsCounter) (p : NetPacket) (s : Face RW) : Face RW :=
  s <| f_counters ::= bump c |> <| f_up ::= fun l => l ++ [p] |>.

Lemma tag_of_absent {V} (F : FieldDecl V) p :
  field (f_type F) (lp_elements p) = None -> tag_of F p = inr None.
Proof. intros H. unfold tag_of. by rewrite lp_has_none. Qed.

Lemma hop_count_tag_whole p w hops :
  whole p w hops -> forall q, lp_elements q = lp_elements p -> hop_count_tag q = inr (Some (u64 (hops + 1))).
Proof.
  intros [_ _ _ Hr _ Hh _ _] q Hq. unfold hop_count_tag, tag_of.
  rewrite (lp_has_some HopCountTagField q _ ltac:(by rewrite Hq)),
    (lp_get_element HopCountTagField hops q); [done|done|by rewrite Hq].
Qed.

Section decode.
Context {RW : Type} (p : LpPacket) (w : list byte) (hops : Z) (s : Face RW).
Context (Hwh : whole p w hops).
Context (Hplain : forall t, t <> lp_tlv.HopCountTag -> t <> lp_tlv.Fragment -> field t (lp_elements p) = None).
Let q := mkLpPacket (lp_elements p) (Some (lp_element (lp_elements p))).

Lemma decode_whole_interest e b :
  fresh e b -> el_type e = tlv.Interest ->
  decodeNetPacket b q s =
    match Interest_wireDecode b with
    | inr i => (handed_up nInInterests (NetInterest i (hops_tags hops)) s, inr tt)
    | inl (TlvError _) => ls_count nInNetInvalid s
    | inl ex => (s, inl ex)
    end.
Proof.
  intros Hf Ht. pose proof Hf as (_ & (_ & Htb & _) & _). unfold decodeNetPacket. rewrite Htb, Ht, Z.eqb_refl.
  rewrite (lp_has_none NackField q) by by apply Hplain. unfold catch_tlv, decodeInterest.
  rewrite run_gets, Htb, Ht, run_assert, run_assert by (try done; by rewrite (lp_has_none NackField q) by by apply Hplain).
  destruct (Interest_wireDecode b) as [ex|i].
  { rewrite (run_raise _ _ s s ex) by done. by destruct ex. }
  rewrite run_lift_inr, (hop_count_tag_whole p w hops Hwh q eq_refl), run_lift_inr.
  rewrite (lp_has_none NextHopFaceIdField q), (lp_has_none CachePolicyField q) by by apply Hplain.
  cbn [andb]. rewrite !tag_of_absent by by apply Hplain. by rewrite !run_lift_inr.
Qed.

Lemma decode_whole_data e b :
  fresh e b -> el_type e = tlv.Data ->
  decodeNetPacket b q s =
    match Data_of_block b with
    | inr d => (handed_up nInData (NetData d (hops_tags hops)) s, inr tt)
    | inl (TlvError _) => ls_count nInNetInvalid s
    | inl ex => (s, inl ex)
    end.
Proof.
  intros Hf Ht. pose proof Hf as (_ & (_ & Htb & _) & _). unfold decodeNetPacket. rewrite Htb, Ht.
  change (tlv.Data =? tlv.Interest) with false. cbv iota. rewrite Z.eqb_refl.
  unfold catch_tlv, decodeData. rewrite run_gets, Htb, Ht, run_assert by done.
  destruct (Data_of_block b) as [ex|d].
  { rewrite (run_raise _ _ s s ex) by done. by destruct ex. }
  rewrite run_lift_inr, (hop_count_tag_whole p w hops Hwh q eq_refl), run_lift_inr.
  rewrite (lp_has_none NackField q), (lp_has_none NextHopFaceIdField q) by by apply Hplain. cbv iota.
  rewrite (tag_of_absent CachePolicyField), (tag_of_absent CongestionMarkField) by by apply Hplain.
  destruct (allowLocalFields _); by rewrite ?run_lift_inr, ?run_ret, ?run_lift_inr.
Qed.
End decode.

(** A Nack's header field is put in first. *)
Lemma send_nack {RW} `{!StringHash} l3 (s : Face RW) e n nack tags :
  statim_face l3 s -> network_element e -> tags_ok tags -> set_int (nh_reason nack) ->
  (forall b, fresh e b -> packet_name b = inr n) ->
  exists tp, (lpPacket ← lift_result (LpPacket_of_element e);
              lpPacket ← lift_result (applied (lp_add NackField nack) lpPacket);
              lpPacket ← encodeLpFields tags lpPacket;
              sendNetPacket (doSend l3) lpPacket) s =
    (sent_packet tp s <| f_device ::= fun l =>
       l ++ [Serialize (out_header e n (default 0 (t_hopCount tags))) ++ el_wire e] |>, inr tt).
Proof.
  intros Hs He Htags Hnack Hn. rewrite LpPacket_of_element_network, run_lift_inr by done.
  destruct (applied_add NackField nack (bare_of (el_wire e))) as (p1 & -> & K & W & S & F);
    [by apply bare_of_ok|done|done|]. rewrite run_lift_inr.
  destruct (encode_bare e tags s p1) as (p & E & Hwh); [done|done|done|done| | |].
  - pose proof (bare_of_size e He). rewrite S.
    change (el_wire (field_element NackField nack)) with
      (element lp_tlv.Nack (el_wire (number_element lp_tlv.NackReason (u32 (nh_reason nack))))).
    rewrite octets_element. pose proof (sizeOfVarNumber_le lp_tlv.Nack).
    pose proof (number_field_size lp_tlv.NackReason (u32 (nh_reason nack)) ltac:(done)).
    pose proof (sizeOfVarNumber_le (octets (el_wire (number_element lp_tlv.NackReason (u32 (nh_reason nack)))))). lia.
  - intros t Ht. rewrite F. destruct (Z.eqb_spec (f_type NackField) t) as [<-|]; [done|]. done.
  - exists (lp_element (lp_elements p)). rewrite (run_seq _ _ _ _ _ E). by apply send_whole.
Qed.

(** What the octets of a packet are decoded to by the link service. *)
Definition decoded {A} (decode : Block -> exn + A) (octets_ : list byte) : exn + A :=
  b ← Block_of_memory octets_; decode b.

(** The face [s] puts exactly the frame of [h] and [e] on its device. *)
Definition sends {RW} c (m : M (Face RW) unit) (h : PacketHeader) (e : Element) (s : Face RW) : Prop :=
  exists tp, m s = (sent_packet tp (s <| f_counters ::= bump c |>)
               <| f_device ::= fun l => l ++ [Serialize h ++ el_wire e] |>, inr tt).

(** What a receiver reads from an element. *)
Definition reads {A} (decode : Block -> exn + A) (e : Element) (a : A) : Prop :=
  forall b, fresh e b -> decode b = inr a.

(** [interest_on_wire i e i']: the Interest [i] goes out as the element [e], from which [i'] is read.
    An Interest without a wire is encoded; one that was received, or encoded before, has its wire. *)
Inductive interest_on_wire : WireFormat.Interest -> Element -> WireFormat.Interest -> Prop :=
| interest_without_wire i :
    interest_ok i -> in_wire i = None -> packet_fits (interest_element i) ->
    interest_on_wire i (interest_element i) (interest_read i)
| interest_with_wire i v i' :
    in_wire i = Some (element_tv tlv.Interest v) -> packet_fits (element_tv tlv.Interest v) ->
    reads Interest_wireDecode (element_tv tlv.Interest v) i' ->
    interest_on_wire i (element_tv tlv.Interest v) i'.

(** The same for Data; without a wire it has to be signed. *)
Inductive data_on_wire : WireFormat.Data -> Element -> WireFormat.Data -> Prop :=
| data_without_wire d :
    data_ok d -> da_wire d = None -> si_wire (sig_info (da_signature d)) = None ->
    signature_set (da_signature d) = true -> packet_fits (data_element d) ->
    data_on_wire d (data_element d) (data_read_into MetaInfo_new d)
| data_with_wire d v d' :
    da_wire d = Some (element_tv tlv.Data v) -> packet_fits (element_tv tlv.Data v) ->
    reads Data_of_block (element_tv tlv.Data v) d' ->
    data_on_wire d (element_tv tlv.Data v) d'.

Lemma reads_interest i : interest_ok i -> reads Interest_wireDecode (interest_element i) (interest_read i).
Proof. intros Hi b Hb. by apply Interest_decodes. Qed.

Lemma reads_data d : data_ok d -> reads Data_of_block (data_element d) (data_read_into MetaInfo_new d).
Proof. intros Hd b Hb. unfold Data_of_block. by rewrite (Data_decodes _ d b Hd Hb). Qed.

Lemma interest_on_wire_reads i e i' :
  interest_on_wire i e i' -> exists v, e = element_tv tlv.Interest v /\
    octets v <= MAX_SIZE_OF_BLOCK_FROM_STREAM /\ reads Interest_wireDecode e i'.
Proof. intros [i1 Hi _ Hf|i1 v i2 _ Hf Hr]; eexists; (split; [reflexivity|]); auto using reads_interest. Qed.

Lemma data_on_wire_reads d e d' :
  data_on_wire d e d' -> exists v, e = element_tv tlv.Data v /\
    octets v <= MAX_SIZE_OF_BLOCK_FROM_STREAM /\ reads Data_of_block e d'.
Proof. intros [d1 Hd _ _ _ Hf|d1 v d2 _ Hf Hr]; eexists; (split; [reflexivity|]); auto using reads_data. Qed.

(** What an application does: it encodes its Data before it sends it. *)
Lemma data_on_wire_encoded d d1 e :
  data_ok d -> da_wire d = None -> si_wire (sig_info (da_signature d)) = None ->
  signature_set (da_signature d) = true -> packet_fits (data_element d) ->
  Data_wireEncode d = inr (d1, e) -> data_on_wire d1 e (data_read_into MetaInfo_new d).
Proof.
  intros Hd Hw Hsw Hsig Hfit. rewrite Data_wireEncode_spec by done. intros [= <- <-].
  apply data_with_wire; [done|done|by apply reads_data].
Qed.

(** What a forwarder does: it sends the packet that it has read. *)
Lemma data_on_wire_received d :
  data_ok d -> packet_fits (data_element d) ->
  data_on_wire (data_read_into MetaInfo_new d) (data_element d) (data_read_into MetaInfo_new d).
Proof. intros Hd Hfit. apply data_with_wire; [done|done|by apply reads_data]. Qed.

Lemma interest_on_wire_received i :
  interest_ok i -> packet_fits (interest_element i) ->
  interest_on_wire (interest_read i) (interest_element i) (interest_read i).
Proof. intros Hi Hfit. apply interest_with_wire; [done|done|by apply reads_interest]. Qed.

(** The name in the header is the one in the octets. *)
Lemma interest_name e i b :
  el_type e = tlv.Interest -> reads Interest_wireDecode e i -> fresh e b -> packet_name b = inr (in_name i).
Proof.
  intros Ht Hr Hb. pose proof Hb as (_ & (_ & Htb & _) & _). unfold packet_name.
  by rewrite Htb, Ht, Z.eqb_refl, (Hr b Hb).
Qed.

Lemma data_name e d b :
  el_type e = tlv.Data -> reads Data_of_block e d -> fresh e b -> packet_name b = inr (da_name d).
Proof.
  intros Ht Hr Hb. pose proof Hb as (_ & (_ & Htb & _) & _). unfold packet_name. rewrite Htb, Ht.
  change (tlv.Data =? tlv.Interest) with false. change (tlv.Data =? tlv.Data) with true. cbv iota. by rewrite (Hr b Hb).
Qed.

Lemma interest_wire_on_wire {RW} `{!RandomWord RW} i e i' (s : Face RW) :
  interest_on_wire i e i' -> interest_wire i s = (s, inr e).
Proof.
  intros [i1 Hi Hw _|i1 v i2 Hw _ _]; [by apply interest_wire_run|]. unfold interest_wire. rewrite Hw.
  unfold Interest_wireEncode. by rewrite Hw.
Qed.

Lemma Data_wireEncode_on_wire d e d' : data_on_wire d e d' -> snd <$> Data_wireEncode d = inr e.
Proof.
  intros [d1 Hd Hw Hsw Hsig _|d1 v d2 Hw _ _]; [by rewrite Data_wireEncode_spec|].
  unfold Data_wireEncode. by rewrite Hw.
Qed.

Lemma sendInterest_run {RW : Type} `{!RandomWord RW} `{!StringHash} (l3 : L3Options) (tags : Tags) (s : Face RW) i e i' :
  statim_face l3 s -> tags_ok tags -> interest_on_wire i e i' ->
  sends nOutInterests (sendInterest (doSend l3) i tags) (PacketHeader_of_name (in_name i')) e s.
Proof.
  intros Hs Htags Hi. destruct (interest_on_wire_reads i e i' Hi) as (v & Ee & Hfit & Hr).
  pose proof (network_element_tv tlv.Interest v (or_introl eq_refl) Hfit) as He. rewrite <-Ee in He.
  assert (statim_face l3 (s <| f_counters ::= bump nOutInterests |>)) as Hs' by done.
  unfold sends, sendInterest, ls_count, doSendInterest. rewrite run_modify.
  rewrite (run_seq _ _ _ _ _ (interest_wire_on_wire i e i' _ Hi)).
  destruct (send_network l3 _ e (in_name i') tags Hs' He Htags) as (tp & E).
  { intros b Hb. apply (interest_name e); [by rewrite Ee|done|done]. }
  exists tp. unfold out_header in E. by rewrite Ee in E |- *.
Qed.

Lemma sendData_run {RW : Type} `{!RandomWord RW} `{!StringHash} (l3 : L3Options) (tags : Tags) (s : Face RW) d e d' :
  statim_face l3 s -> tags_ok tags -> data_on_wire d e d' ->
  sends nOutData (sendData (doSend l3) d tags)
    (setSwitchId (u8 (default 0 (t_hopCount tags))) (PacketHeader_of_name (da_name d'))) e s.
Proof.
  intros Hs Htags Hd. destruct (data_on_wire_reads d e d' Hd) as (v & Ee & Hfit & Hr).
  pose proof (network_element_tv tlv.Data v (or_intror eq_refl) Hfit) as He. rewrite <-Ee in He.
  assert (statim_face l3 (s <| f_counters ::= bump nOutData |>)) as Hs' by done.
  unfold sends, sendData, ls_count, doSendData. rewrite run_modify, (Data_wireEncode_on_wire d e d' Hd), run_lift_inr.
  destruct (send_network l3 _ e (da_name d') tags Hs' He Htags) as (tp & E).
  { intros b Hb. apply (data_name e); [by rewrite Ee|done|done]. }
  exists tp. unfold out_header in E. by rewrite Ee in E |- *.
Qed.

(** What a face makes of an Interest or a Data that came behind a header with switch id [id]. *)
Definition takes_in {RW} (t : Z) (w : list byte) (id : Z) (run : Face RW * (exn + unit)) (s : Face RW) : Prop :=
  exists tp, run =
    if t =? tlv.Interest then
      match decoded Interest_wireDecode w with
      | inr i => (handed_up nInInterests (NetInterest i (hops_tags id)) (received_packet tp s), inr tt)
      | inl _ => ls_count nInNetInvalid (received_packet tp s)
      end
    else
      match decoded Data_of_block w with
      | inr d => (handed_up nInData (NetData d (hops_tags id)) (received_packet tp s), inr tt)
      | inl _ => ls_count nInNetInvalid (received_packet tp s)
      end.

Lemma payload_in {RW : Type} (l3 : L3Options) (engine : list byte -> M (Face RW) unit) frame h t v bl (s : Face RW) :
  statim_face l3 s -> 1 <= r_nMaxFragments (f_reassembler s) -> Deserialize frame = (h, Z.of_nat SERIALIZED_SIZE) ->
  t = tlv.Interest \/ t = tlv.Data -> octets v <= MAX_SIZE_OF_BLOCK_FROM_STREAM ->
  Block_fromStream (drop SERIALIZED_SIZE frame) = inr bl -> fresh (element_tv t v) bl ->
  takes_in t (element t v) (m_switchId h) (receiveFromNetDevice l3 engine frame s) s.
Proof.
  intros (Hen & Hen' & Hm & _) Hmax Hd Ht Hv Eb Hbl. unfold receiveFromNetDevice. rewrite Hen, Hen', Hd, Z.eqb_refl.
  cbn [negb]. pose proof (Deserialize_wf frame) as Hh. rewrite Hd in Hh. specialize (Hh eq_refl). cbn [fst] in Hh.
  destruct (from_statim_network h t v _ bl Hh Ht Hv Eb Hbl) as (p & Hwh & Hplain & ->). rewrite run_lift_inr.
  pose proof (network_element_tv t v Ht Hv) as He. exists (lp_element (lp_elements p)).
  destruct (receive_whole p (element_tv t v) (m_switchId h) s Hwh He Hm Hmax) as (b & Em & Hb & ->).
  cbn [el_wire element_tv] in Em. unfold decoded. rewrite Em. next. unfold catch_tlv. destruct Ht as [->| ->].
  - rewrite (decode_whole_interest p _ (m_switchId h) _ Hwh Hplain _ _ Hb eq_refl). cbn [Z.eqb].
    rewrite Z.eqb_refl. pose proof (tlv_only_Interest _ _ Hb) as Ho.
    destruct (Interest_wireDecode b) as [ex|i]; [|done]. by destruct (Ho ex eq_refl) as [what ->].
  - rewrite (decode_whole_data p _ (m_switchId h) _ Hwh Hplain _ _ Hb eq_refl).
    change (tlv.Data =? tlv.Interest) with false. cbv iota. assert (tlv_only (Data_of_block b)) as Ho by (by eapply tlv_only_Data).
    destruct (Data_of_block b) as [ex|i]; [|done]. by destruct (Ho ex eq_refl) as [what ->].
Qed.

(** A frame with an Interest or a Data arrives. *)
Lemma frame_in {RW : Type} (l3 : L3Options) (engine : list byte -> M (Face RW) unit) (h : PacketHeader) t v more (s : Face RW) :
  statim_face l3 s -> 1 <= r_nMaxFragments (f_reassembler s) -> header_wf h ->
  isValidPacketType (PacketHeader.m_type h) = true ->
  t = tlv.Interest \/ t = tlv.Data -> octets v <= MAX_SIZE_OF_BLOCK_FROM_STREAM ->
  takes_in t (element t v) (m_switchId h)
    (receiveFromNetDevice l3 engine (Serialize h ++ element t v ++ more) s) s.
Proof.
  intros Hs Hmax Hh Hty Ht Hv. destruct (fromStream_spec (element t v ++ more)) as (H & _).
  destruct (H t v (element t v) more) as (bl & Eb & Hbl); [done|apply (ne_ok _ (network_element_tv t v Ht Hv))|exact Hv|].
  apply (payload_in l3 engine _ h t v bl); [done|done|by rewrite Deserialize_Serialize|done|done| |done].
  by rewrite <-(length_Serialize h Hh), drop_app_length.
Qed.

(** ** Properties *)

(** C7: what leaves a node with NFD on a Statim network.  An Interest or Data that has
    no wire is encoded; one that an application has encoded or the forwarder has received
    goes out as it is.  The link service puts the packet and its tags into a link packet,
    nothing is fragmented, and the transport sends exactly one frame: a fresh Statim header
    for the name in the packet's octets, and these octets.  Of the link header only the hop
    count of a Data survives, as the low octet of the switch id: a Nack leaves as the
    Interest it refuses. *)
Theorem statim_frames_out {RW : Type} `{!RandomWord RW} `{!StringHash} (l3 : L3Options) (tags : Tags) (s : Face RW) :
  statim_face l3 s -> tags_ok tags ->
  (forall i e i', interest_on_wire i e i' ->
     sends nOutInterests (sendInterest (doSend l3) i tags) (PacketHeader_of_name (in_name i')) e s /\
     forall nack, set_int (nh_reason nack) ->
       sends nOutNacks (sendNack (doSend l3) i nack tags) (PacketHeader_of_name (in_name i')) e s) /\
  (forall d e d', data_on_wire d e d' ->
     sends nOutData (sendData (doSend l3) d tags)
       (setSwitchId (u8 (default 0 (t_hopCount tags))) (PacketHeader_of_name (da_name d'))) e s).
Proof.
  intros Hs Htags. split; [|intros d e d'; by apply sendData_run].
  intros i e i' Hi. split; [by apply sendInterest_run|]. intros nack Hnack.
  destruct (interest_on_wire_reads i e i' Hi) as (v & Ee & Hfit & Hr).
  pose proof (network_element_tv tlv.Interest v (or_introl eq_refl) Hfit) as He. rewrite <-Ee in He.
  assert (statim_face l3 (s <| f_counters ::= bump nOutNacks |>)) as Hs' by done.
  unfold sends, sendNack, ls_count, doSendNack. rewrite run_modify.
  rewrite (run_seq _ _ _ _ _ (interest_wire_on_wire i e i' _ Hi)).
  destruct (send_nack l3 _ e (in_name i') nack tags Hs' He Htags Hnack) as (tp & E).
  { intros b Hb. apply (interest_name e); [by rewrite Ee|done|done]. }
  exists tp. unfold out_header in E. by rewrite Ee in E |- *.
Qed.

(** C8: what a face of a node with NFD on a Statim network makes of any octets from the
    device.  Without a readable Statim header they are ignored.  Otherwise the octets
    behind the header are read as an element; if there is none, the exception
    escapes.  An Interest or a Data is handed up as it is decoded, with one more hop than the
    switch id says, or counted as invalid if it cannot be decoded.  A link packet is received with the
    switch id added as its hop count, unless that throws, and the exception escapes.  The exception for
    any other type escapes too. *)
Theorem statim_frames_in {RW : Type} (l3 : L3Options) (engine : list byte -> M (Face RW) unit) frame (s : Face RW) :
  statim_face l3 s -> 1 <= r_nMaxFragments (f_reassembler s) ->
  let run := receiveFromNetDevice l3 engine frame s in
  let h := (Deserialize frame).1 in
  let readable := (Deserialize frame).2 =? Z.of_nat SERIALIZED_SIZE in
  let payload := drop SERIALIZED_SIZE frame in
  (readable = false -> run = (s, inr tt)) /\
  (readable = true -> forall ex, Block_fromStream payload = inl ex -> run = (s, inl ex)) /\
  (readable = true -> forall b, Block_fromStream payload = inr b ->
     (m_type b = tlv.Interest \/ m_type b = tlv.Data ->
        takes_in (m_type b) (el_wire (element_of b)) (m_switchId h) run s) /\
     (m_type b = lp_tlv.LpPacket ->
        (forall ex, LpPacket_of_block b = inl ex -> run = (s, inl ex)) /\
        (forall p, LpPacket_of_block b = inr p ->
           (forall ex, applied (lp_add HopCountTagField (m_switchId h)) p = inl ex -> run = (s, inl ex)) /\
           (forall p' ex, applied (lp_add HopCountTagField (m_switchId h)) p = inr p' ->
              LpPacket_wireEncode p' = inl ex -> run = (s, inl ex)) /\
           (forall p' q e, applied (lp_add HopCountTagField (m_switchId h)) p = inr p' ->
              LpPacket_wireEncode p' = inr (q, e) -> run = transport_receive e 0 s))) /\
     (m_type b <> tlv.Interest -> m_type b <> tlv.Data -> m_type b <> lp_tlv.LpPacket ->
        run = (s, inl (TlvError "unrecognized TLV-TYPE")))).
Proof.
  intros Hsf Hmax run h readable payload. pose proof Hsf as (Hen & Hen' & _).
  destruct (Deserialize frame) as [h' n] eqn:Ed. cbn [fst snd] in h, readable. subst h.
  assert (run = if negb readable then (s, inr tt)
                else (e ← lift_result (from_statim h' payload); transport_receive e 0) s) as Hrun.
  { subst run readable payload. unfold receiveFromNetDevice. rewrite Hen, Hen', Ed. by destruct (n =? _). }
  split; [intros Hno; by rewrite Hrun, Hno|]. split.
  { intros Hr ex Hex. rewrite Hrun, Hr. cbn [negb]. unfold from_statim, BlockHeader_Deserialize. by rewrite Hex. }
  intros Hr b Hb. rewrite Hrun, Hr. cbn [negb].
  destruct (fromStream_spec payload) as (_ & Hs & _). destruct (Hs b Hb) as (t & v & w & more & _ & _ & Hv & Hf).
  change (fresh (element_tv t v) b) in Hf. pose proof (fresh_type _ _ _ Hf) as Ht.
  assert (Hstart : from_statim h' payload =
    (lpPkt ← LpPacket_of_block b; lpPkt ← applied (lp_add HopCountTagField (m_switchId h')) lpPkt;
     snd <$> LpPacket_wireEncode lpPkt)) by (unfold from_statim, BlockHeader_Deserialize; by rewrite Hb).
  split_and!.
  - intros Hty. rewrite (element_of_fresh _ _ Hf). rewrite Ht in Hty |- *.
    pose proof (payload_in l3 engine frame h' t v b s Hsf Hmax) as H.
    assert (receiveFromNetDevice l3 engine frame s = run) as E by done. rewrite E, Hrun, Hr in H. apply H; try done.
    rewrite Ed. apply Z.eqb_eq in Hr. by rewrite Hr.
  - intros _. rewrite Hstart. split; [by intros ex ->|]. intros p ->. next.
    split_and!; [by intros ex ->|by intros p' ex -> E; next; rewrite E|].
    intros p' q e -> E. next. by rewrite E.
  - intros H1 H2 H3. rewrite Hstart. unfold LpPacket_of_block. by apply Z.eqb_neq in H1 as ->, H2 as ->, H3 as ->.
Qed.

(** ** Examples *)
Definition demo_l3 : L3Options := mkL3Options true false.

Definition demo_face : Face Z :=
  mkFace (mkSim 0 0 0 [] false) 5 (GenericLinkService_new (mkLsOptions false true true))
    LpReassembler_new Transport_new counters_init [] [].

(** A hash for the examples. *)
Definition demo_hash : StringHash := fun bs => Z.of_nat (length bs).

Definition demo_tags : Tags := mkTags None None None (Some 1) (Some 300).

(** The Data after its application has encoded it. *)
Definition demo_encoded : WireFormat.Data :=
  match Data_wireEncode demo_data with inr (d, _) => d | inl _ => demo_data end.

Lemma demo_encoded_on_wire :
  data_on_wire demo_encoded (data_element demo_data) (data_read_into MetaInfo_new demo_data).
Proof.
  apply (data_on_wire_encoded demo_data); [exact demo_data_ok|reflexivity..|vm_compute; discriminate|].
  unfold demo_encoded. by rewrite (Data_wireEncode_spec demo_data demo_data_ok eq_refl eq_refl eq_refl).
Qed.

Lemma statim_frames_out_witness :
  let i := ensure_nonce 16909060 demo_interest in
  exists octets_, f_device (sendInterest (RandomWord0 := counter_words) (doSend (H := demo_hash) demo_l3) i demo_tags demo_face).1 = [octets_] /\
    length octets_ = 77%nat /\
    f_device (sendNack (RandomWord0 := counter_words) (doSend (H := demo_hash) demo_l3) i
      (mkNackHeader NackReason_NO_ROUTE None) demo_tags demo_face).1 = [octets_] /\
    exists octets', f_device (sendData (doSend (H := demo_hash) demo_l3) demo_data demo_tags demo_face).1 = [octets'] /\
      f_device (sendData (doSend (H := demo_hash) demo_l3) demo_encoded demo_tags demo_face).1 = [octets'] /\
      octets' !! 11%nat = Some Byte.x2c.
Proof.
  pose proof demo_interest_ok as Hi. intros i.
  assert (statim_face demo_l3 demo_face) as Hf by (split_and!; try done; by right).
  assert (tags_ok demo_tags) as Ht by (by split_and!).
  destruct (@statim_frames_out Z counter_words demo_hash demo_l3 demo_tags demo_face Hf Ht) as [H1 H2].
  destruct (H1 i _ _ (interest_without_wire i Hi eq_refl ltac:(vm_compute; discriminate))) as [[tp E] Hn].
  destruct (Hn (mkNackHeader NackReason_NO_ROUTE None) ltac:(by split)) as [tp' E'].
  destruct (H2 demo_data _ _ (data_without_wire demo_data demo_data_ok eq_refl eq_refl eq_refl ltac:(vm_compute; discriminate)))
    as [tq Eq].
  destruct (H2 demo_encoded _ _ demo_encoded_on_wire) as [tr Er].
  eexists. rewrite E, E', Eq, Er. split; [reflexivity|]. split; [vm_compute; reflexivity|]. split; [reflexivity|].
  eexists. split; [reflexivity|]. split; [reflexivity|]. vm_compute. reflexivity.
Defined.

Lemma statim_frames_in_witness :
  let h := PacketHeader_of_name (H := demo_hash) demo_name in
  let frame := Serialize h ++ el_wire (interest_element (ensure_nonce 16909060 demo_interest)) in
  exists tp i, receiveFromNetDevice demo_l3 (fun _ => mret tt) frame demo_face =
      (handed_up nInInterests (NetInterest i (hops_tags 0)) (received_packet tp demo_face), inr tt) /\
    in_name i = demo_name /\
    receiveFromNetDevice demo_l3 (fun _ => mret tt) (Serialize h ++ [Byte.x07; Byte.x00]) demo_face =
      (demo_face, inl (TlvError "unrecognized TLV-TYPE")).
Proof.
  intros h frame. assert (statim_face demo_l3 demo_face) as Hf by (split_and!; try done; by right).
  assert (1 <= r_nMaxFragments (f_reassembler demo_face)) as Hmax by (vm_compute; discriminate).
  destruct (statim_frames_in demo_l3 (fun _ => mret tt) frame demo_face Hf Hmax) as (_ & _ & H).
  destruct (Block_fromStream (drop SERIALIZED_SIZE frame)) as [ex|b] eqn:Eb; [vm_compute in Eb; discriminate Eb|].
  destruct (H ltac:(vm_compute; reflexivity) b eq_refl) as (Ht & _).
  destruct (statim_frames_in demo_l3 (fun _ => mret tt) (Serialize h ++ [Byte.x07; Byte.x00]) demo_face Hf Hmax)
    as (_ & _ & H').
  vm_compute in Eb. injection Eb as <-. destruct Ht as (tp & E); [by left|].
  exists tp. eexists. split; [|split].
  - etrans; [exact E|]. clear. vm_compute (decoded _ _). cbn [m_type Z.eqb]. reflexivity.
  - reflexivity.
  - destruct (Block_fromStream (drop SERIALIZED_SIZE (Serialize h ++ [Byte.x07; Byte.x00]))) as [ex|b'] eqn:Eb;
      [vm_compute in Eb; discriminate Eb|].
    destruct (H' ltac:(vm_compute; reflexivity) b' eq_refl) as (_ & _ & Ho).
    vm_compute in Eb. injection Eb as <-. by apply Ho.
Defined.
