(* ===== verification/LpReassemblerSpec.v ===== *)
(** * LpReassemblerSpec: fragments in any order make the packet

    The reassembler's entry for a message is a function of the set of fragment numbers it
    has received.  Whatever the order, and with any fragments repeated, the last missing
    one completes the message, and what comes out is the octets the fragmenter cut. *)
From S2P Require Import Prelude Tlv Encoder Block BlockSpec Names NameWire Exclude ExcludeSpec WireFormat WireFormatSpec PacketWireSpec LpPacket LpPacketSpec LpFragmenter LpFragmenterSpec Simulator LpReassembler LinkService NetDeviceTransport LinkServiceSpec.

(** [f] is part [i] of the [n] of the message whose first part has number [start]. *)
Record is_part (n i : nat) (start : Z) (bytes : list byte) (f : LpPacket) : Prop := {
  ip_fragment : is_fragment n i bytes f;
  ip_sequence : field lp_tlv.Sequence (lp_elements f) =
    Some (number_element lp_tlv.Sequence (u64 (start + Z.of_nat i)))
}.

Section parts.
Context (n : nat) (start : Z) (piece : nat -> list byte) (part : nat -> LpPacket).
Hypothesis Hparts : forall i, (i < n)%nat -> is_part n i start (piece i) (part i).
Context {E : Type} (timeout_event : Key -> E) (endpoint : Z).
Abbreviation world := (Sim E * LpReassembler)%type.
Let key : Key := (endpoint, u64 start).

(** The fragments of an entry that has the numbers in [R]. *)
Definition slots (R : gset nat) : list LpPacket :=
  (fun i => if decide (i ∈ R) then part i else LpPacket_new) <$> seq 0 n.

Definition numbers (R : gset nat) : Prop := forall i, i ∈ R -> (i < n)%nat.

(** The entry of the message after the numbers in [R], which do not complete it. *)
Definition entry_is (R : gset nat) (w : world) : Prop :=
  numbers R /\
  if decide (R = ∅) then r_partialPackets w.2 !! key = None
  else exists timer, r_partialPackets w.2 !! key =
         Some (mkPartialPacket (slots R) (Z.of_nat n) (Z.of_nat (base.size R)) timer).

(** Everything else about the reassembler. *)
Definition others_kept (w w' : world) : Prop :=
  delete key (r_partialPackets w'.2) = delete key (r_partialPackets w.2) /\
  r_nMaxFragments w'.2 = r_nMaxFragments w.2 /\ r_reassemblyTimeout w'.2 = r_reassemblyTimeout w.2.

#[global] Instance others_kept_preorder : PreOrder others_kept.
Proof. split; [by intros w|]. intros a b c (H1 & H2 & H3) (H4 & H5 & H6). unfold others_kept. by rewrite H4, H5, H6. Qed.

Lemma slots_lookup R i : (i < n)%nat -> slots R !! i = Some (if decide (i ∈ R) then part i else LpPacket_new).
Proof. intros Hi. unfold slots. by rewrite list_lookup_fmap, lookup_seq_lt by done. Qed.

Lemma slots_insert R i : (i < n)%nat -> <[i := part i]> (slots R) = slots ({[i]} ∪ R).
Proof.
  intros Hi. apply list_eq. intros j. destruct (decide (j < n)%nat) as [Hj|Hj].
  - rewrite slots_lookup by done. destruct (decide (i = j)) as [<-|Hne].
    + rewrite list_lookup_insert_eq; [by rewrite decide_True by set_solver|].
      unfold slots. by rewrite length_fmap, length_seq.
    + rewrite list_lookup_insert_ne, slots_lookup by done.
      do 2 f_equal. destruct (decide (j ∈ R)), (decide (j ∈ {[i]} ∪ R)); set_solver.
  - rewrite !lookup_ge_None_2; [done| |]; unfold slots; rewrite ?length_insert, length_fmap, length_seq; lia.
Qed.

Lemma slots_empty : slots ∅ = replicate n LpPacket_new.
Proof.
  apply list_eq. intros j. destruct (decide (j < n)%nat) as [Hj|Hj].
  - by rewrite slots_lookup, lookup_replicate_2 by done.
  - rewrite !lookup_ge_None_2; [done| |]; unfold slots; rewrite ?length_replicate, ?length_fmap, ?length_seq; lia.
Qed.

Lemma slots_full R : numbers R -> base.size R = n -> slots R = part <$> seq 0 n.
Proof.
  intros Hn Hs. apply list_eq. intros j. destruct (decide (j < n)%nat) as [Hj|Hj].
  - rewrite slots_lookup, list_lookup_fmap, lookup_seq_lt by done. cbn. rewrite decide_True; [done|].
    assert (R = set_seq 0 n) as ->; [|by apply elem_of_set_seq; lia].
    apply set_eq. intros i. rewrite elem_of_set_seq. split; [intros Hi; specialize (Hn i Hi); lia|]. intros [_ Hi].
    destruct (decide (i ∈ R)) as [|Hni]; [done|]. exfalso.
    assert (base.size ({[i]} ∪ R) <= base.size (set_seq (C := gset nat) 0 n))%nat as Hle.
    { apply subseteq_size. intros k Hk. apply elem_of_set_seq.
      apply elem_of_union in Hk as [->%elem_of_singleton|Hk]; [lia|specialize (Hn k Hk); lia]. }
    rewrite size_union, size_singleton, size_set_seq in Hle by set_solver. lia.
  - rewrite !lookup_ge_None_2; [done| |]; unfold slots; rewrite ?length_fmap, length_seq; lia.
Qed.

(** *** What the fields of a part say *)
Hypothesis Hcount : (2 <= n)%nat /\ Z.of_nat n < 18446744073709551616.

Lemma part_numbers i :
  (i < n)%nat ->
  lp_has FragmentField (part i) = true /\ get_or FragIndexField 0 (part i) = inr (Z.of_nat i) /\
  get_or FragCountField 1 (part i) = inr (Z.of_nat n) /\ lp_has SequenceField (part i) = true /\
  lp_get SequenceField 0 (part i) = inr (u64 (start + Z.of_nat i)).
Proof.
  intros Hi. destruct (Hparts i Hi) as [[_ H1 H2 H3 _] H4]. unfold get_or. split_and!.
  - exact (lp_has_some FragmentField _ _ H3).
  - rewrite (lp_has_some FragIndexField _ _ H1), (lp_get_element FragIndexField (Z.of_nat i)); [done|split; lia|done].
  - rewrite (lp_has_some FragCountField _ _ H2), (lp_get_element FragCountField (Z.of_nat n)); [done|split; lia|done].
  - exact (lp_has_some SequenceField _ _ H4).
  - rewrite (lp_get_element SequenceField (u64 (start + Z.of_nat i))); [done|apply u64_bounds|done].
Qed.

Lemma part_payload i : (i < n)%nat -> lp_get FragmentField 0 (part i) = inr (piece i).
Proof.
  intros Hi. destruct (Hparts i Hi) as [[_ _ _ H3 Hne] _].
  by rewrite (lp_get_element FragmentField (piece i)).
Qed.

Lemma part_key i : (i < n)%nat -> u64 (u64 (start + Z.of_nat i) - Z.of_nat i) = u64 start.
Proof. intros Hi. unfold u64. rewrite Zminus_mod_idemp_l. f_equal. lia. Qed.

Lemma payloads_of_parts l :
  (forall i, i ∈ l -> (i < n)%nat) -> fragment_payloads (part <$> l) = inr (concat (piece <$> l)).
Proof.
  induction l as [|i l IH]; intros Hl; [done|]. cbn [fmap list_fmap fragment_payloads concat].
  rewrite part_payload by (apply Hl; by left). next. rewrite IH by (intros j Hj; apply Hl; by right). done.
Qed.

(** The entry that the reassembler looks up, or makes. *)
Lemma entry_lookup R w :
  entry_is R w -> R <> ∅ ->
  exists timer, r_partialPackets w.2 !! key =
    Some (mkPartialPacket (slots R) (Z.of_nat n) (Z.of_nat (base.size R)) timer).
Proof. intros [_ H] Hne. by rewrite decide_False in H. Qed.

Lemma entry_absent w : entry_is ∅ w -> r_partialPackets w.2 !! key = None.
Proof. intros [_ H]. by rewrite decide_True in H. Qed.

(** Receiving a part, up to the look at the slot it belongs to. *)
Definition store (pp : PartialPacket) (w : world) : world :=
  (w.1, mkLpReassembler (r_nMaxFragments w.2) (r_reassemblyTimeout w.2) (<[key := pp]> (r_partialPackets w.2))).

Definition entry (R : gset nat) (timer : option EventId) : PartialPacket :=
  mkPartialPacket (slots R) (Z.of_nat n) (Z.of_nat (base.size R)) timer.

Definition fill (i : nat) (pp : PartialPacket) : M world (option (Block * LpPacket)) :=
  let pp := mkPartialPacket (<[i := part i]> (pp_fragments pp)) (pp_fragCount pp)
              (u64 (pp_nReceivedFragments pp + 1)) (pp_dropTimer pp) in
  put_partial key pp;;
  if pp_nReceivedFragments pp =? pp_fragCount pp then
    reassembled ← lift_result (doReassembly pp);
    erase_partial key;;
    mret (Some (reassembled, default LpPacket_new (head (pp_fragments pp))))
  else
    timeout ← gets (fun w => r_reassemblyTimeout w.2);
    id ← action (fun w =>
           let '(s, id) := Schedule timeout (timeout_event key) w.1 in ((s, w.2), id));
    scheduler_cancel (pp_dropTimer pp);;
    put_partial key (mkPartialPacket (pp_fragments pp) (pp_fragCount pp)
                       (pp_nReceivedFragments pp) (Some id));;
    mret None.

Lemma receive_part i R w :
  (i < n)%nat -> entry_is R w -> Z.of_nat n <= r_nMaxFragments w.2 ->
  exists timer, receiveFragment timeout_event endpoint (part i) w =
    if decide (i ∈ R) then (store (entry R timer) w, inr None)
    else fill i (entry R timer) (store (entry R timer) w).
Proof.
  intros Hi HR Hmax. destruct (part_numbers i Hi) as (P1 & P2 & P3 & P4 & P5). unfold receiveFragment.
  rewrite P1, P2, P3, P4, P5. change (boost_assert true _) with (inr (A := exn) tt). rewrite !run_lift_inr.
  destruct (Z.leb_spec (Z.of_nat n) (Z.of_nat i)); [lia|]. rewrite run_gets.
  destruct (Z.ltb_spec (r_nMaxFragments w.2) (Z.of_nat n)); [lia|].
  destruct (Z.eqb_spec (Z.of_nat n) 1); [lia|]. rewrite andb_false_r. cbn [negb]. rewrite run_lift_inr.
  cbv zeta. unfold partial_packets at 1. rewrite run_gets, part_key by done. fold key.
  assert (exists timer, (let pp := default PartialPacket_new (r_partialPackets w.2 !! key) in
    if pp_fragCount pp =? 0 then mkPartialPacket (replicate (Z.to_nat (Z.of_nat n)) LpPacket_new) (Z.of_nat n) 0 (pp_dropTimer pp)
    else pp) = entry R timer) as [timer Epp].
  { destruct (decide (R = ∅)) as [->|Hne].
    - rewrite (entry_absent w HR). exists None. cbn [default pp_fragCount PartialPacket_new]. cbv zeta.
      change (0 =? 0) with true. cbv iota. unfold entry. by rewrite slots_empty, Nat2Z.id, size_empty.
    - destruct (entry_lookup R w HR Hne) as [timer ->]. exists timer. cbn [default pp_fragCount from_option id]. cbv zeta.
      cbn [pp_fragCount]. destruct (Z.eqb_spec (Z.of_nat n) 0); [lia|done]. }
  exists timer. cbv zeta in Epp. rewrite Epp.
  assert (forall (pp : PartialPacket) (k : unit -> M world (option (Block * LpPacket))) w',
    (put_partial key pp ≫= k) w' = k tt (store pp w')) as Hput by done.
  rewrite Hput. change (pp_fragCount (entry R timer)) with (Z.of_nat n). rewrite Z.eqb_refl. cbn [negb].
  rewrite Nat2Z.id. change (pp_fragments (entry R timer)) with (slots R). rewrite slots_lookup by done.
  destruct (decide (i ∈ R)) as [Hin|Hin]; [by rewrite P4|]. done.
Qed.

(** Cancelling a timer is about the simulator only. *)
Lemma run_cancel {B} id (k : unit -> M world B) w :
  exists s, (scheduler_cancel id ≫= k) w = k tt (s, w.2).
Proof. destruct id as [id|]; [by exists (Remove id w.1)|]. exists w.1. by destruct w. Qed.

Lemma store_entry R timer w :
  numbers R -> R <> ∅ -> entry_is R (store (entry R timer) w) /\ others_kept w (store (entry R timer) w).
Proof.
  intros Hn Hne. split.
  - split; [done|]. rewrite decide_False by done. exists timer. apply lookup_insert_eq.
  - split; [|done]. apply delete_insert_eq.
Qed.

Lemma insert_number R i :
  i ∉ R -> (i < n)%nat -> numbers R -> numbers ({[i]} ∪ R) /\ {[i]} ∪ R <> ∅ /\
  (base.size ({[i]} ∪ R) = S (base.size R))%nat.
Proof.
  intros Hi Hlt Hn. split_and!; [|set_solver|by rewrite size_union, size_singleton by set_solver].
  intros j [->%elem_of_singleton|Hj]%elem_of_union; [done|by apply Hn].
Qed.

Lemma numbers_size R : numbers R -> (base.size R <= n)%nat.
Proof.
  intros Hn. etrans; [apply (subseteq_size R (set_seq 0 n))|by rewrite size_set_seq].
  intros k Hk. apply elem_of_set_seq. specialize (Hn k Hk). lia.
Qed.

(** A part that was already received. *)
Lemma receive_again i R w :
  (i < n)%nat -> i ∈ R -> entry_is R w -> Z.of_nat n <= r_nMaxFragments w.2 ->
  exists w', receiveFragment timeout_event endpoint (part i) w = (w', inr None) /\ entry_is R w' /\ others_kept w w'.
Proof.
  intros Hi Hin HR Hmax. destruct (receive_part i R w Hi HR Hmax) as (timer & ->).
  rewrite decide_True by done. eexists. split; [done|]. apply store_entry; [apply HR|set_solver].
Qed.

(** The entry after one more part. *)
Lemma entry_insert R i timer :
  (i < n)%nat -> i ∉ R -> numbers R ->
  mkPartialPacket (<[i := part i]> (pp_fragments (entry R timer))) (pp_fragCount (entry R timer))
    (u64 (pp_nReceivedFragments (entry R timer) + 1)) (pp_dropTimer (entry R timer)) = entry ({[i]} ∪ R) timer.
Proof.
  intros Hi Hni Hn. destruct (insert_number R i Hni Hi Hn) as (Hn' & _ & Hs). pose proof (numbers_size _ Hn').
  unfold entry. cbn [pp_fragments pp_fragCount pp_nReceivedFragments pp_dropTimer].
  rewrite slots_insert by done. f_equal. rewrite Hs, u64_id by (unfold u64_range; lia). lia.
Qed.

(** A new part that does not complete the message. *)
Lemma receive_new i R w :
  (i < n)%nat -> i ∉ R -> S (base.size R) <> n -> entry_is R w -> Z.of_nat n <= r_nMaxFragments w.2 ->
  exists w', receiveFragment timeout_event endpoint (part i) w = (w', inr None) /\
    entry_is ({[i]} ∪ R) w' /\ others_kept w w'.
Proof.
  intros Hi Hni Hs HR Hmax. destruct (receive_part i R w Hi HR Hmax) as (timer & ->).
  rewrite decide_False by done. unfold fill. rewrite entry_insert by (done || apply HR).
  destruct (insert_number R i Hni Hi (proj1 HR)) as (Hn' & Hne & Hsz).
  set (R' := {[i]} ∪ R) in *. cbv zeta. change (pp_nReceivedFragments (entry R' timer)) with (Z.of_nat (base.size R')).
  change (pp_fragCount (entry R' timer)) with (Z.of_nat n). rewrite (proj2 (Z.eqb_neq _ _)) by lia.
  change ((put_partial key ?pp ≫= ?k) ?w) with (k tt (store pp w)). cbv beta. rewrite run_gets, run_action.
  set (w1 := (match Schedule _ _ _ with pair _ _ => _ end)).
  match goal with |- context [(scheduler_cancel ?id ≫= ?k) ?w0] => destruct (run_cancel id k w0) as (sim & ->) end.
  change ((put_partial key ?pp ≫= ?k) ?w) with (k tt (store pp w)). cbv beta.
  eexists. split; [reflexivity|]. change (mkPartialPacket _ _ _ (Some ?x)) with (entry R' (Some x)).
  assert (w1.1.2 = (store (entry R' timer) (store (entry R timer) w)).2) as Hw1
    by (unfold w1; by destruct (Schedule _ _ _)).
  split.
  - by apply store_entry.
  - unfold store. cbn [fst snd]. rewrite Hw1. split; [|done]. cbn [fst snd store r_partialPackets].
    by rewrite !delete_insert_eq.
Qed.

(** The part that completes it. *)
Lemma receive_last i R w b :
  (i < n)%nat -> i ∉ R -> S (base.size R) = n -> entry_is R w -> Z.of_nat n <= r_nMaxFragments w.2 ->
  Block_of_memory (concat (piece <$> seq 0 n)) = inr b ->
  exists w', receiveFragment timeout_event endpoint (part i) w = (w', inr (Some (b, part 0%nat))) /\
    entry_is ∅ w' /\ others_kept w w'.
Proof.
  intros Hi Hni Hs HR Hmax Hb. destruct (receive_part i R w Hi HR Hmax) as (timer & ->).
  rewrite decide_False by done. unfold fill. rewrite entry_insert by (done || apply HR).
  destruct (insert_number R i Hni Hi (proj1 HR)) as (Hn' & Hne & Hsz).
  set (R' := {[i]} ∪ R) in *. cbv zeta. change (pp_nReceivedFragments (entry R' timer)) with (Z.of_nat (base.size R')).
  change (pp_fragCount (entry R' timer)) with (Z.of_nat n). rewrite (proj2 (Z.eqb_eq _ _)) by lia.
  change ((put_partial key ?pp ≫= ?k) ?w) with (k tt (store pp w)). cbv beta.
  assert (slots R' = part <$> seq 0 n) as Hfull by (apply slots_full; [done|lia]).
  assert (doReassembly (entry R' timer) = inr b) as ->.
  { unfold doReassembly. cbn [pp_fragments entry]. rewrite Hfull, payloads_of_parts; [exact Hb|].
    intros j Hj%elem_of_seq. lia. }
  rewrite run_lift_inr. unfold erase_partial. rewrite run_assoc. unfold partial_packets at 1. rewrite run_gets, run_assoc.
  match goal with |- context [(scheduler_cancel ?id ≫= ?k) ?w0] => destruct (run_cancel id k w0) as (sim & ->) end.
  unfold set_partial_packets. rewrite run_modify.
  assert (head (pp_fragments (entry R' timer)) = Some (part 0%nat)) as Hhd.
  { cbn [pp_fragments entry]. rewrite Hfull. by destruct n; [lia|]. }
  rewrite Hhd. eexists. split; [reflexivity|]. cbn [fst snd store r_partialPackets]. split.
  - split; [set_solver|]. rewrite decide_True by done. apply lookup_delete_eq.
  - split; [|done]. cbn [fst snd r_partialPackets]. by rewrite delete_delete_eq, !delete_insert_eq.
Qed.
End parts.

(** ** A whole message, in any order *)

(** One fragment after the other from the same endpoint. *)
Fixpoint receive_all {E} (timeout_event : Key -> E) (endpoint : Z) (frags : list LpPacket)
    : M (Sim E * LpReassembler) (list (option (Block * LpPacket))) :=
  match frags with
  | [] => mret []
  | frag :: frags =>
      r ← receiveFragment timeout_event endpoint frag;
      rs ← receive_all timeout_event endpoint frags;
      mret (r :: rs)
  end.

(** The numbers [arrivals] are below [n], and only [last] is missing in them. *)
Definition all_but (n : nat) (arrivals : list nat) (last : nat) : Prop :=
  (last < n)%nat /\ last ∉ arrivals /\
  (forall i, i ∈ arrivals -> (i < n)%nat) /\ (forall i, (i < n)%nat -> i = last \/ i ∈ arrivals).

Lemma receive_all_run {E} (timeout_event : Key -> E) endpoint n start piece part last :
  (forall i, (i < n)%nat -> is_part n i start (piece i) (part i)) ->
  (2 <= n)%nat /\ Z.of_nat n < 18446744073709551616 -> (last < n)%nat ->
  forall arrivals R w, last ∉ R -> last ∉ arrivals -> (forall i, i ∈ arrivals -> (i < n)%nat) ->
  entry_is n start part endpoint R w -> Z.of_nat n <= r_nMaxFragments w.2 ->
  exists w', receive_all timeout_event endpoint (part <$> arrivals) w =
      (w', inr (replicate (length arrivals) None)) /\
    entry_is n start part endpoint (list_to_set arrivals ∪ R) w' /\ others_kept start endpoint w w'.
Proof.
  intros Hparts Hcount Hlast arrivals. induction arrivals as [|i arrivals IH]; intros R w HlR Hla Hlt HR Hmax.
  { exists w. split; [done|]. assert (list_to_set [] ∪ R = R) as -> by set_solver. done. }
  assert (i < n)%nat as Hi by (apply Hlt; by left). assert (last <> i) as Hne by (intros ->; by destruct Hla; left).
  assert (exists R' w', receiveFragment timeout_event endpoint (part i) w = (w', inr None) /\
    entry_is n start part endpoint R' w' /\ others_kept start endpoint w w' /\ R' = {[i]} ∪ R)
    as (R' & w1 & E1 & HR1 & K1 & ->).
  { destruct (decide (i ∈ R)) as [Hin|Hni].
    - destruct (receive_again n start piece part Hparts timeout_event endpoint Hcount i R w Hi Hin HR Hmax)
        as (w' & E1 & H1 & K1). exists R, w'. split_and!; [done..|]. set_solver.
    - assert (S (base.size R) <> n) as Hs.
      { assert (numbers n ({[last]} ∪ ({[i]} ∪ R))) as Hn.
        { intros j Hj. rewrite !elem_of_union, !elem_of_singleton in Hj. destruct Hj as [->|[->|Hj]]; [done..|].
          by apply (proj1 HR). }
        assert (base.size ({[last]} ∪ ({[i]} ∪ R)) <= n)%nat as Hle by (eapply numbers_size; eauto).
        rewrite !size_union, !size_singleton in Hle by set_solver. lia. }
      destruct (receive_new n start piece part Hparts timeout_event endpoint Hcount i R w Hi Hni Hs HR Hmax)
        as (w' & E1 & H1 & K1). eauto 10. }
  destruct (IH ({[i]} ∪ R) w1) as (w2 & E2 & HR2 & K2); [set_solver| |..].
  - intros H. apply Hla. by right.
  - intros j Hj. apply Hlt. by right.
  - done.
  - destruct K1 as (_ & -> & _). exact Hmax.
  - exists w2. cbn [fmap list_fmap receive_all length replicate]. rewrite (run_seq _ _ _ _ _ E1).
    rewrite (run_seq _ _ _ _ _ E2). split; [done|]. split; [|by etrans].
    replace (list_to_set (i :: arrivals) ∪ R) with (list_to_set arrivals ∪ ({[i]} ∪ R)) by (cbn; set_solver). done.
Qed.

Lemma message_received {E} (timeout_event : Key -> E) endpoint n start piece part last arrivals w b :
  (forall i, (i < n)%nat -> is_part n i start (piece i) (part i)) ->
  (2 <= n)%nat /\ Z.of_nat n < 18446744073709551616 -> all_but n arrivals last ->
  r_partialPackets w.2 !! ((endpoint, u64 start) : Key) = None -> Z.of_nat n <= r_nMaxFragments w.2 ->
  Block_of_memory (concat (piece <$> seq 0 n)) = inr b ->
  exists w1 w2, receive_all timeout_event endpoint (part <$> arrivals) w =
      (w1, inr (replicate (length arrivals) None)) /\
    receiveFragment timeout_event endpoint (part last) w1 = (w2, inr (Some (b, part 0%nat))) /\
    r_partialPackets w2.2 = r_partialPackets w.2.
Proof.
  intros Hparts Hcount (Hlast & Hnot & Hlt & Hcover) Hnone Hmax Hb.
  assert (entry_is n start part endpoint ∅ w) as H0 by (split; [set_solver|by rewrite decide_True]).
  destruct (receive_all_run timeout_event endpoint n start piece part last Hparts Hcount Hlast
    arrivals ∅ w) as (w1 & E1 & HR1 & K1); [set_solver|done..|].
  rewrite (right_id_L ∅ (∪)) in HR1.
  destruct (receive_last n start piece part Hparts timeout_event endpoint Hcount last (list_to_set arrivals) w1 b)
    as (w2 & E2 & HR2 & K2); [done|by rewrite elem_of_list_to_set| |done| |exact Hb|].
  - assert (set_seq 0 n = {[last]} ∪ list_to_set (C := gset nat) arrivals) as Hset.
    { apply set_eq. intros i. rewrite elem_of_set_seq, elem_of_union, elem_of_singleton, elem_of_list_to_set.
      split; [intros [_ Hi]; by apply Hcover|]. intros [->|Hi]; [lia|]. specialize (Hlt i Hi). lia. }
    pose proof (size_set_seq (C := gset nat) 0 n) as Hs.
    rewrite Hset, size_union, size_singleton in Hs by (rewrite disjoint_singleton_l, elem_of_list_to_set; exact Hnot). lia.
  - destruct K1 as (_ & -> & _). exact Hmax.
  - exists w1, w2. split; [exact E1|]. split; [exact E2|].
    assert (others_kept start endpoint w w2) as (Hd & _) by (by etrans).
    apply map_eq. intros k. destruct (decide (k = (endpoint, u64 start))) as [->|Hk].
    + rewrite Hnone. by apply (entry_absent n start part endpoint).
    + apply (f_equal (fun m => m !! k)) in Hd. by rewrite !lookup_delete_ne in Hd by done.
Qed.

(** ** The fragmenter, the sequence numbers and the wire *)

Lemma octets_filter_le f els : octets (wires (List.filter f els)) <= octets (wires els).
Proof.
  induction els as [|e els IH]; [done|]. cbn [List.filter]. pose proof (octets_nonneg (el_wire e)).
  destruct (f e); rewrite !wires_cons, !octets_app; lia.
Qed.

(** A fragment after [assignSequence]. *)
Record sequenced (sequence : Z) (f f' : LpPacket) : Prop := {
  sq_ok : packet_ok f';
  sq_wire : lp_wire f' = None;
  sq_size : octets (wires (lp_elements f')) <= octets (wires (lp_elements f)) + 10;
  sq_field t : field t (lp_elements f') =
    if lp_tlv.Sequence =? t then Some (number_element lp_tlv.Sequence sequence) else field t (lp_elements f)
}.

Lemma set_sequence sequence f :
  packet_ok f -> u64_range sequence ->
  exists f', applied (lp_set SequenceField sequence) f = inr f' /\ sequenced sequence f f'.
Proof.
  intros Hf Hs. destruct (lp_set_run SequenceField sequence f Hf) as (f' & E & K & W & F); [exact Hs|].
  exists f'. unfold applied. rewrite E. split; [done|]. split; [done..| |exact F].
  unfold lp_set in E. rewrite (run_seq _ _ _ _ _ (lp_clear_run SequenceField f)) in E.
  rewrite (lp_add_run SequenceField) in E; [|exact Hs|apply field_filter_eq]. injection E as <-. cbn [lp_elements].
  rewrite octets_wires_with_field.
  pose proof (octets_filter_le (fun e => negb (el_type e =? lp_tlv.Sequence)) (lp_elements f)).
  pose proof (small_number_size lp_tlv.Sequence sequence ltac:(unfold lp_tlv.Sequence; lia)) as Hn.
  change (octets (el_wire (field_element SequenceField sequence)) <= 10) in Hn. lia.
Qed.

Lemma assignSequences_run {RW} (frags : list LpPacket) (s : Face RW) :
  Forall packet_ok frags ->
  exists s' sent, assignSequences frags s = (s', inr sent) /\ length sent = length frags /\
    forall i f, frags !! i = Some f -> exists f', sent !! i = Some f' /\
      sequenced (u64 (s_lastSeqNo (f_service s) + 1 + Z.of_nat i)) f f'.
Proof.
  intros Hall. revert s. induction Hall as [|f frags Hf _ IH]; intros s.
  - exists s, []. split_and!; [done..|]. by intros i f.
  - set (s1 := s <| f_service ::= fun s =>
      mkGenericLinkService (s_options s) (s_nMaxFragments s) (u64 (s_lastSeqNo s + 1)) |>).
    destruct (set_sequence (s_lastSeqNo (f_service s1)) f Hf) as (f' & Ef & Hf'); [apply u64_bounds|].
    destruct (IH s1) as (s' & sent & E & Hlen & Hsent). exists s', (f' :: sent).
    assert (assignSequence f s = (s1, inr f')) as E1.
    { unfold assignSequence. rewrite run_modify, run_gets. fold s1. by rewrite Ef. }
    cbn [assignSequences]. rewrite (run_seq _ _ _ _ _ E1), (run_seq _ _ _ _ _ E). split; [done|].
    split; [cbn [length]; by rewrite Hlen|]. intros [|i] g Hg; cbn [lookup list_lookup] in Hg.
    + injection Hg as <-. exists f'. split; [done|]. by rewrite Z.add_0_r.
    + destruct (Hsent i g Hg) as (g' & Hg' & Hs). exists g'. split; [done|].
      replace (u64 (s_lastSeqNo (f_service s) + 1 + Z.of_nat (S i)))
        with (u64 (s_lastSeqNo (f_service s1) + 1 + Z.of_nat i)); [done|].
      change (s_lastSeqNo (f_service s1)) with (u64 (s_lastSeqNo (f_service s) + 1)).
      unfold u64. rewrite <-Z.add_assoc, Zplus_mod_idemp_l. f_equal. lia.
Qed.

(** [r] is what the other side decodes from the frame in which [f] is sent. *)
Definition delivered (mtu : Z) (f r : LpPacket) : Prop :=
  exists q tp, LpPacket_wireEncode f = inr (q, tp) /\ fits_mtu mtu tp = true /\ LpPacket_of_element tp = inr r.

Lemma sequenced_delivered mtu sequence f f' :
  u64_range mtu -> octets (wires (lp_elements f)) + 20 <= mtu -> sequenced sequence f f' ->
  exists r, delivered mtu f' r /\ lp_elements r = lp_elements f' /\ packet_ok r.
Proof.
  intros Hm Hsz [Hok Hw Hs Hf]. unfold u64_range in Hm.
  assert (u64_range (octets (wires (lp_elements f')))) as Hr
    by (pose proof (octets_nonneg (wires (lp_elements f'))); unfold u64_range; lia).
  assert (element_ok (lp_element (lp_elements f'))) as He by (by apply element_tv_ok).
  set (r := mkLpPacket (lp_elements f') (Some (lp_element (lp_elements f')))).
  assert (field lp_tlv.Sequence (lp_elements f') = Some (number_element lp_tlv.Sequence sequence)) as Hseq
    by (by rewrite Hf, Z.eqb_refl).
  exists r. split; [|split; [done|]].
  - exists r, (lp_element (lp_elements f')). split_and!.
    + apply wireEncode_headed; [apply Hok|done|by eapply headed_field|done].
    + unfold fits_mtu. apply orb_true_iff. right. rewrite u64_id by exact Hm. apply Z.leb_le.
      change (octets (element lp_tlv.LpPacket (wires (lp_elements f'))) <= mtu). rewrite octets_element.
      change (sizeOfVarNumber lp_tlv.LpPacket) with 1.
      pose proof (sizeOfVarNumber_le (octets (wires (lp_elements f')))). lia.
    + unfold LpPacket_of_element. destruct (block_of_element_ok _ He) as (b & -> & Hb). next.
      destruct (LpPacket_of_lp _ b Hb eq_refl) as (_ & H & _). apply H; [apply tlv_stream_ok, Hok|apply Hok|apply Hok].
  - destruct Hok as [A B C _]. split; [done..|]. intros w [= <-]. split_and!; [exact He|done|done].
Qed.

Lemma Forall_choice {A B} (P : A -> B -> Prop) l :
  Forall (fun x => exists y, P x y) l -> exists l', Forall2 P l l'.
Proof.
  induction 1 as [|x l [y Hy] _ [l' IH]]; [by exists []|]. exists (y :: l'). by constructor.
Qed.

(** The fragments of a message, numbered, sent and decoded. *)
Lemma frames_of_message {RW} p w mtu frags (s : Face RW) :
  u64_range mtu -> fragmented p w mtu frags ->
  let start := s_lastSeqNo (f_service s) + 1 in
  exists s' sent received pieces, assignSequences frags s = (s', inr sent) /\
    Forall2 (delivered mtu) sent received /\ length received = length frags /\
    concat (pieces <$> seq 0 (length frags)) = w /\
    (forall i, (i < length frags)%nat ->
       is_part (length frags) i start (pieces i) (default LpPacket_new (received !! i))) /\
    forall t, other_headers t -> t <> lp_tlv.Sequence ->
      field t (lp_elements (default LpPacket_new (head received))) = field t (lp_elements p).
Proof.
  intros Hm (Hpos & pieces & Hw & Hlp & Hfrags) start.
  destruct (assignSequences_run frags s) as (s' & sent & E & Hls & Hsent).
  { apply Forall_lookup. intros i f Hf. pose proof (lookup_lt_Some _ _ _ Hf) as Hi.
    destruct (Hfrags i Hi) as (f0 & bytes & fw & Hf0 & _ & [Hok _ _ _ _] & _). by simplify_eq. }
  assert (exists received, Forall2 (fun f' r => delivered mtu f' r /\ lp_elements r = lp_elements f' /\ packet_ok r)
    sent received) as [received Hrec].
  { apply Forall_choice, Forall_lookup. intros i f' Hf'. pose proof (lookup_lt_Some _ _ _ Hf') as Hi.
    destruct (Hfrags i ltac:(lia)) as (f & bytes & fw & Hf & _ & _ & _ & _ & Hsz & _).
    destruct (Hsent i f Hf) as (g & Hg & Hseq). simplify_eq. by eapply sequenced_delivered. }
  assert (forall i, (i < length frags)%nat -> exists f f' r bytes, frags !! i = Some f /\ received !! i = Some r /\
    pieces !! i = Some bytes /\ is_fragment (length frags) i bytes f /\ packet_ok r /\
    lp_elements r = lp_elements f' /\ sequenced (u64 (start + Z.of_nat i)) f f' /\
    forall t, other_headers t -> field t (lp_elements f) = if (i =? 0)%nat then field t (lp_elements p) else None) as Hall.
  { intros i Hi. destruct (Hfrags i Hi) as (f & bytes & fw & Hf & Hb & Hfr & _ & _ & _ & Ho).
    destruct (Hsent i f Hf) as (f' & Hf' & Hseq).
    destruct (Forall2_lookup_l _ _ _ _ _ Hrec Hf') as (r & Hr & _ & Hel & Hok). eauto 20. }
  exists s', sent, received, (fun i => default [] (pieces !! i)). split_and!; [exact E| | | | |].
  - eapply Forall2_impl; [exact Hrec|]. by intros f' r [H _].
  - by rewrite <-(Forall2_length _ _ _ Hrec).
  - rewrite <-Hw. f_equal. apply list_eq. intros i. destruct (decide (i < length frags)%nat) as [Hi|Hi].
    + rewrite list_lookup_fmap, lookup_seq_lt by done. cbn.
      destruct (Hall i Hi) as (? & ? & ? & bytes & _ & _ & -> & _). done.
    + rewrite !lookup_ge_None_2; [done| |]; rewrite ?length_fmap, ?length_seq; lia.
  - intros i Hi. destruct (Hall i Hi) as (f & f' & r & bytes & Hf & -> & -> & [A B C D N] & Hok & Hel & [_ _ _ Hq] & _).
    cbn [default from_option id]. split; [split; [done|by rewrite Hel, Hq, ?B, ?C, ?D..|done]|]. by rewrite Hel, Hq.
  - intros t Ht Hnt. destruct (Hall 0%nat Hpos) as (f & f' & r & bytes & Hf & Hr & _ & _ & _ & Hel & [_ _ _ Hq] & Ho).
    rewrite head_lookup, Hr. cbn [default from_option id]. rewrite Hel, Hq.
    destruct (Z.eqb_spec lp_tlv.Sequence t) as [<-|_]; [done|]. by apply Ho.
Qed.

(** More than one fragment means the packet was cut. *)
Lemma fragments_fragmented nMax p w hops mtu frags :
  whole p w hops -> w <> [] -> u64_range mtu -> u64_range nMax ->
  fragmentPacket nMax p mtu = inr (Some frags) -> (2 <= length frags)%nat ->
  fragmented p w mtu frags /\ Z.of_nat (length frags) <= nMax.
Proof.
  intros Hwh Hne Hm Hmax E Hlen.
  destruct (Z.le_gt_cases (MAX_SINGLE_FRAG_OVERHEAD + el_size (lp_element (lp_elements p))) mtu) as [Hfit|Hlarge].
  { rewrite (fragmentPacket_small _ _ w hops) in E by done. injection E as <-. cbn [length] in Hlen. lia. }
  destruct (Z.lt_ge_cases mtu (MAX_FRAG_OVERHEAD + header_sizes (lp_elements p) + 1)) as [Hno|Hroom].
  { by rewrite (fragmentPacket_no_room _ _ w hops) in E. }
  destruct (fragmentPacket_large nMax p w hops mtu) as [E'|(frags' & E' & H)]; try done; rewrite E' in E; [done|].
  by injection E as <-.
Qed.

(** ** Property *)

(** C30: a packet cut by [fragmentPacket] is put together again by the other end, whatever
    the order in which its frames arrive and with any of them repeated.  The link service
    numbers the fragments, every frame still fits the MTU with the number in it and is
    decoded; as long as one frame is missing [receiveFragment] reports nothing, and when
    it comes the result is the network packet that was cut and the first fragment, which has the other
    headers of the link packet.  The table of partial packets is as before. *)
Theorem reassembly_any_order {RW} p w hops mtu nMax frags b (s : Face RW) :
  whole p w hops -> w <> [] -> u64_range mtu -> u64_range nMax ->
  fragmentPacket nMax p mtu = inr (Some frags) -> (2 <= length frags)%nat -> Block_of_memory w = inr b ->
  exists s' sent received, assignSequences frags s = (s', inr sent) /\
    Forall2 (delivered mtu) sent received /\ length received = length frags /\
    (forall t, other_headers t -> t <> lp_tlv.Sequence ->
       field t (lp_elements (default LpPacket_new (head received))) = field t (lp_elements p)) /\
    forall E (timeout_event : Key -> E) endpoint arrivals last (r : Sim E * LpReassembler),
      all_but (length frags) arrivals last ->
      r_partialPackets r.2 !! ((endpoint, u64 (s_lastSeqNo (f_service s) + 1)) : Key) = None ->
      Z.of_nat (length frags) <= r_nMaxFragments r.2 ->
      let part i := default LpPacket_new (received !! i) in
      exists r1 r2, receive_all timeout_event endpoint (part <$> arrivals) r =
          (r1, inr (replicate (length arrivals) None)) /\
        receiveFragment timeout_event endpoint (part last) r1 =
          (r2, inr (Some (b, default LpPacket_new (head received)))) /\
        r_partialPackets r2.2 = r_partialPackets r.2.
Proof.
  intros Hwh Hne Hm Hmax Efr Hlen Hb.
  destruct (fragments_fragmented nMax p w hops mtu frags) as [Hfr Hn]; [done..|].
  destruct (frames_of_message p w mtu frags s Hm Hfr) as (s' & sent & received & pieces & E & Hd & Hl & Hw & Hp & Hh).
  exists s', sent, received. split_and!; [done..|]. intros E' ev endpoint arrivals last r Hall Hnone Hrm part.
  rewrite head_lookup. unfold u64_range in Hmax.
  apply (message_received ev endpoint (length frags) _ pieces part last arrivals r b Hp); [lia|done..|].
  by rewrite Hw.
Qed.

Lemma demo_arrivals : all_but 3 [2; 0; 0]%nat 1.
Proof.
  split; [lia|]. split; [rewrite !not_elem_of_cons; split_and!; [lia..|apply not_elem_of_nil]|]. split.
  - intros i Hi. rewrite !elem_of_cons in Hi. destruct Hi as [->|[->|[->|Hi]]]; [lia..|by apply not_elem_of_nil in Hi].
  - intros i Hi. destruct i as [|[|[|i]]]; [right; right; left|by left|right; left|lia].
Qed.

(** The Interest in three frames: the last one first, the first one twice. *)
Lemma reassembly_any_order_witness :
  exists frags b r (s : Face unit), fragmentPacket 400 demo_whole 80 = inr (Some frags) /\
    length frags = 3%nat /\ all_but 3 [2; 0; 0]%nat 1 /\
    r_partialPackets (snd r) = ∅ /\
    exists received r1 r2,
      receive_all (E := FaceEvent) ReassemblyTimeout 7 received r = (r1, inr [None; None; None]) /\
      exists f first, receiveFragment ReassemblyTimeout 7 f r1 = (r2, inr (Some (b, first))) /\
        r_partialPackets r2.2 = ∅.
Proof.
  destruct (Block_of_memory_complete demo_net demo_net_ok) as (b & Eb & _).
  destruct demo_fragments as (frags & E & Hl).
  pose proof demo_arrivals as Ha.
  set (s := mkFace (sim_init (E := FaceEvent)) tt
    (GenericLinkService_new (mkLsOptions false true true)) LpReassembler_new
    Transport_new counters_init [] []).
  assert (u64_range 80) as H2 by (vm_compute; split; [discriminate|reflexivity]).
  assert (u64_range 400) as H3 by (vm_compute; split; [discriminate|reflexivity]).
  assert (2 <= length frags)%nat as H4 by (rewrite Hl; repeat constructor).
  destruct (reassembly_any_order demo_whole (el_wire demo_net) 3 80 400 frags b s demo_whole_ok
    ltac:(done) H2 H3 E H4 Eb) as (s' & sent & received & _ & _ & _ & _ & H).
  rewrite Hl in H. set (r := (sim_init (E := FaceEvent), LpReassembler_new)).
  destruct (H FaceEvent ReassemblyTimeout 7 [2; 0; 0]%nat 1%nat r Ha) as (r1 & r2 & E1 & E2 & E3);
    [reflexivity|vm_compute; discriminate|].
  exists frags, b, r, s. split; [exact E|]. split; [exact Hl|]. split; [exact Ha|]. split; [reflexivity|].
  eexists _, r1, r2. split; [exact E1|]. eexists _, _. split; [exact E2|exact E3].
Defined.
