(* ===== verification/PendingInterestTable.v ===== *)
(** * PendingInterestTable: pending Interests by name

    Source: [src/src/ndnSIM/statim/state/pending-interest-table.{hpp,cpp}].  The
    clock function is read once per operation; the value it returns is the
    argument [now].  The table keeps a copy of the first Interest of a name, whose
    nonce lies in the wire buffer the original has, too: the comparison of nonces
    reads the store of buffers. *)
From S2P Require Import Prelude Tlv Names NameMap WireFormat Packets.

Record IngressRecord := mkIngress {
  r_port : Z;
  r_insertedAt : Z;      (** nanoseconds *)
  r_lifetime : Z         (** microseconds *)
}.

#[export] Instance IngressRecord_eq_dec : EqDecision IngressRecord.
Proof. solve_decision. Defined.

Record PitEntry := mkPitEntry {
  e_interest : Interest;
  e_ingress : list IngressRecord
}.

Abbreviation PendingInterestTable := (gmap Name PitEntry).

Inductive InsertStatus := Created | Aggregated | Duplicate.

#[export] Instance InsertStatus_eq_dec : EqDecision InsertStatus.
Proof. solve_decision. Defined.

Record PitInsertResult := mkPitInsertResult {
  status : InsertStatus;
  pit_interest : Interest
}.

Definition accepted (r : PitInsertResult) : bool := negb (bool_decide (status r = Duplicate)).

(** [duration_cast<microseconds>] of a lifetime in milliseconds. *)
Definition us_of_ms (ms : Z) : Z := i64 (ms * 1000).

(** [insertedAt + lifetime], as a nanosecond time point. *)
Definition ingress_deadline (r : IngressRecord) : Z :=
  i64 (r_insertedAt r + i64 (r_lifetime r * 1000)).

Definition ingress_live (now : Z) (r : IngressRecord) : bool := now <? ingress_deadline r.

(** [pruneExpiredIngress] *)
Definition pruneExpiredIngress (now : Z) (e : PitEntry) : PitEntry :=
  mkPitEntry (e_interest e)
    (List.filter (fun r => negb (ingress_deadline r <=? now)) (e_ingress e)).

(** Both Interests have a nonce and the nonces are equal; reading a nonce of an odd
    size throws. *)
Definition same_nonce (st : WireStore) (first interest : Interest) : exn + bool :=
  match nonce_octets st first, nonce_octets st interest with
  | Some a, Some b => x ← getNonce a; y ← getNonce b; mret (x =? y)
  | _, _ => mret false
  end.

Definition insert (st : WireStore) (now : Z) (interest : Interest) (port : Z)
    (t : PendingInterestTable) : exn + (PendingInterestTable * PitInsertResult) :=
  let record := mkIngress port now (us_of_ms (i_lifetime interest)) in
  match t !! i_name interest with
  | Some e =>
      let first := e_interest e in
      same ← same_nonce st first interest;
      if same : bool then mret (t, mkPitInsertResult Duplicate first)
      else
        let e := pruneExpiredIngress now e in
        mret (<[i_name interest := mkPitEntry first (e_ingress e ++ [record])]> t,
              mkPitInsertResult Aggregated first)
  | None =>
      mret (<[i_name interest := mkPitEntry interest [record]]> t,
            mkPitInsertResult Created interest)
  end.

(** One step of [takeDataMatchPorts]: consume the entry of one prefix. *)
Definition take_step (acc : PendingInterestTable * gset Z) (p : Name)
    : PendingInterestTable * gset Z :=
  match acc.1 !! p with
  | Some e => (delete p acc.1, acc.2 ∪ list_to_set (r_port <$> e_ingress e))
  | None => acc
  end.

Definition takeDataMatchPorts (dataName : Name) (t : PendingInterestTable)
    : PendingInterestTable * gset Z :=
  foldl take_step (t, ∅) (prefixes dataName).

Definition findByPrefix (prefix : Name) (t : PendingInterestTable) : list Interest :=
  (fun kv => e_interest kv.2) <$> prefix_range prefix t.

Definition erase (name : Name) (t : PendingInterestTable) : PendingInterestTable * bool :=
  (delete name t, bool_decide (is_Some (t !! name))).

(** ** Invariant

    Every entry is stored under its Interest's name and has an ingress record. *)
Definition pit_wf (t : PendingInterestTable) : Prop :=
  map_Forall (fun n e => i_name (e_interest e) = n /\ e_ingress e <> []) t.

Lemma pit_wf_empty : pit_wf ∅.
Proof. apply map_Forall_empty. Qed.

Lemma pit_wf_insert st now i port t t' res :
  insert st now i port t = inr (t', res) -> pit_wf t -> pit_wf t'.
Proof.
  intros E Hwf. unfold insert in E. destruct (t !! i_name i) as [e|] eqn:Ht.
  - destruct (same_nonce _ _ _) as [ex|[]]; cbn in E; [done|by injection E as <- <-|].
    injection E as <- <-. apply map_Forall_insert_2; [|done].
    destruct (Hwf _ _ Ht) as [Hn _]. cbn. split; [done|]. by destruct (List.filter _ _).
  - injection E as <- <-. by apply map_Forall_insert_2.
Qed.

(** The remembered Interests have their nonces in buffers of their own, allocated
    before [next]. *)
Record wires_ok (next : Z) (t : PendingInterestTable) : Prop := {
  wk_buffer n e : t !! n = Some e -> exists b, i_nonce (e_interest e) = WireNonce b /\ b < next;
  wk_distinct n m e f : t !! n = Some e -> t !! m = Some f ->
    i_nonce (e_interest e) = i_nonce (e_interest f) -> n = m
}.

Lemma wires_ok_empty next : wires_ok next ∅.
Proof. split; intros *; rewrite lookup_empty; done. Qed.

Lemma wires_ok_later next next' t : next <= next' -> wires_ok next t -> wires_ok next' t.
Proof.
  intros Hle [H1 H2]. split; [|done]. intros n e He. destruct (H1 n e He) as (b & ? & ?).
  exists b. split; [done|lia].
Qed.

(** [b] is allocated and no remembered Interest has its nonce there. *)
Definition unused (next b : Z) (t : PendingInterestTable) : Prop :=
  b < next /\ forall n e, t !! n = Some e -> i_nonce (e_interest e) <> WireNonce b.

Lemma wires_ok_insert next b st now i port t t' res :
  wires_ok next t -> unused next b t -> i_nonce i = WireNonce b ->
  insert st now i port t = inr (t', res) -> wires_ok next t'.
Proof.
  intros [H1 H2] [Hb Hu] Hi E. unfold insert in E. destruct (t !! i_name i) as [e|] eqn:Ht.
  - destruct (same_nonce _ _ _) as [ex|[]]; cbn in E; [done|by injection E as <- <-|].
    injection E as <- <-.
    assert (forall n f, <[i_name i := mkPitEntry (e_interest e)
      (e_ingress (pruneExpiredIngress now e) ++ [mkIngress port now (us_of_ms (i_lifetime i))])]> t !! n
        = Some f -> exists f', t !! n = Some f' /\ e_interest f = e_interest f') as Hold.
    { intros n f. rewrite lookup_insert. case_decide as En; [|by exists f].
      subst n. intros [= <-]. by exists e. }
    split.
    + intros n f Hf. destruct (Hold n f Hf) as (f' & Hf' & ->). by eapply H1.
    + intros n m f g Hf Hg. destruct (Hold n f Hf) as (f' & Hf' & ->).
      destruct (Hold m g Hg) as (g' & Hg' & ->). by eapply H2.
  - injection E as <- <-. split.
    + intros n f. rewrite lookup_insert. case_decide; [intros [= <-]; by exists b|by apply H1].
    + intros n m f g. rewrite !lookup_insert. do 2 case_decide; [by intros; congruence|..].
      * intros [= <-] Hg. cbn. rewrite Hi. intros Hn. by destruct (Hu m g Hg).
      * intros Hf [= <-]. cbn. rewrite Hi. intros Hn. by destruct (Hu n f Hf).
      * by apply H2.
Qed.

Lemma wires_ok_subset next t t' :
  (forall n e, t' !! n = Some e -> t !! n = Some e) -> wires_ok next t -> wires_ok next t'.
Proof. intros Hs [H1 H2]. split; eauto. Qed.

Lemma same_nonce_spec st first i :
  match same_nonce st first i with
  | inl ex => exists a b, nonce_octets st first = Some a /\ nonce_octets st i = Some b /\
      (getNonce a = inl ex \/ getNonce b = inl ex)
  | inr true => exists a b n, nonce_octets st first = Some a /\ nonce_octets st i = Some b /\
      getNonce a = inr n /\ getNonce b = inr n
  | inr false => forall a b n, nonce_octets st first = Some a -> nonce_octets st i = Some b ->
      getNonce a = inr n -> getNonce b <> inr n
  end.
Proof.
  unfold same_nonce. destruct (nonce_octets st first) as [a|] eqn:Ea; [|done].
  destruct (nonce_octets st i) as [b|] eqn:Eb; [|done].
  cbn. destruct (getNonce a) as [ex|x] eqn:Ga; cbn; [exists a, b; auto|].
  destruct (getNonce b) as [ex|y] eqn:Gb; cbn; [exists a, b; auto|].
  destruct (Z.eqb_spec x y) as [<-|Hne]; [exists a, b, x; by split_and!|].
  intros a' b' n [= <-] [= <-]. congruence.
Qed.

Lemma take_step_table t ps p : (take_step (t, ps) p).1 = delete p t.
Proof.
  unfold take_step. cbn [fst snd]. destruct (t !! p) as [e|] eqn:E; [done|]. cbn.
  by rewrite delete_id.
Qed.

Lemma take_steps l t ps :
  (forall n, (foldl take_step (t, ps) l).1 !! n = if decide (n ∈ l) then None else t !! n) /\
  (forall q, q ∈ (foldl take_step (t, ps) l).2 <->
     q ∈ ps \/ exists n e r, n ∈ l /\ t !! n = Some e /\ r ∈ e_ingress e /\ r_port r = q).
Proof.
  revert t ps. induction l as [|p l IH]; intros t ps; cbn [foldl].
  { split; [intros n; by rewrite decide_False by apply not_elem_of_nil|]. intros q.
    split; [by left|]. intros [Hq|(n & e & r & Hn & _)]; [done|]. by apply elem_of_nil in Hn. }
  destruct (take_step (t, ps) p) as [t' ps'] eqn:Es.
  assert (t' = delete p t) as ->.
  { pose proof (take_step_table t ps p) as H. by rewrite Es in H. }
  destruct (IH (delete p t) ps') as [IH1 IH2]. split.
  - intros n. rewrite IH1. rewrite lookup_delete.
    destruct (decide (n ∈ p :: l)) as [Hin|Hin]; rewrite elem_of_cons in Hin;
      destruct (decide (n ∈ l)); destruct (decide (p = n)); naive_solver.
  - intros q. rewrite IH2.
    assert (q ∈ ps' <-> q ∈ ps \/ exists e r, t !! p = Some e /\ r ∈ e_ingress e /\ r_port r = q)
      as ->.
    { apply (f_equal snd) in Es. unfold take_step in Es. cbn [fst snd] in Es.
      destruct (t !! p) as [e|] eqn:E; cbn in Es; subst ps'; [|naive_solver].
      rewrite elem_of_union, elem_of_list_to_set, list_elem_of_fmap. naive_solver. }
    split.
    + intros [[Hq|(e & r & He & Hr & Hp)]|(n & e & r & Hn & He & Hr & Hp)]; [by left|..].
      * right. exists p, e, r. split; [by left|done].
      * apply lookup_delete_Some in He as [_ He]. right. exists n, e, r.
        split; [by right|done].
    + intros [Hq|(n & e & r & Hn & He & Hr & Hp)]; [by left; left|].
      destruct (decide (n = p)) as [->|Hne]; [left; right; by exists e, r|].
      apply elem_of_cons in Hn as [->|Hn]; [done|].
      right. exists n, e, r. split; [done|]. by rewrite lookup_delete_ne.
Qed.

Lemma pit_wf_take dataName t : pit_wf t -> pit_wf (takeDataMatchPorts dataName t).1.
Proof.
  intros Hwf n e He. unfold takeDataMatchPorts in He.
  destruct (take_steps (prefixes dataName) t ∅) as [H _]. rewrite H in He.
  destruct (decide _); [done|]. by apply Hwf.
Qed.

Lemma take_subset dataName t n e :
  (takeDataMatchPorts dataName t).1 !! n = Some e -> t !! n = Some e.
Proof.
  unfold takeDataMatchPorts. destruct (take_steps (prefixes dataName) t ∅) as [H _]. rewrite H.
  by destruct (decide _).
Qed.

Lemma takeDataMatchPorts_spec dataName t :
  name_small dataName ->
  (forall n, (takeDataMatchPorts dataName t).1 !! n =
     if decide (n `prefix_of` dataName) then None else t !! n) /\
  (forall q, q ∈ (takeDataMatchPorts dataName t).2 <->
     exists n e r, n `prefix_of` dataName /\ t !! n = Some e /\ r ∈ e_ingress e /\ r_port r = q).
Proof.
  intros Hs. unfold takeDataMatchPorts.
  destruct (take_steps (prefixes dataName) t ∅) as [H1 H2]. split.
  - intros n. rewrite H1. pose proof (elem_of_prefixes dataName n Hs).
    destruct (decide (n ∈ _)), (decide (n `prefix_of` _)); tauto.
  - intros q. rewrite H2. setoid_rewrite (elem_of_prefixes dataName); [|done].
    split; [intros [Hq|Hq]; [by apply elem_of_empty in Hq|done]|by right].
Qed.

Lemma find_by_prefix_elem prefix t i :
  i ∈ findByPrefix prefix t <->
  exists n e, t !! n = Some e /\ prefix `prefix_of` n /\ i = e_interest e.
Proof.
  unfold findByPrefix. rewrite list_elem_of_fmap. split.
  - intros ([n e] & -> & Hin). apply elem_of_prefix_range in Hin as [He Hp]. by exists n, e.
  - intros (n & e & He & Hp & ->). exists (n, e). by rewrite elem_of_prefix_range.
Qed.

(** ** Properties *)

(** What [insert] does to the entry of the Interest's name, on every branch: a
    first Interest creates an entry with one ingress; a repeated nonce is a
    duplicate and changes nothing; any other Interest aggregates, which drops the
    expired ingresses, appends the new one and keeps the first Interest.  Other
    names are untouched and the table stays well formed.  It throws exactly when
    there is an entry and one of the two nonces is of an odd size. *)
Theorem pit_insert_spec (st : WireStore) (now : Z) (i : Interest) (port : Z)
    (t : PendingInterestTable) :
  let record := mkIngress port now (us_of_ms (i_lifetime i)) in
  match insert st now i port t with
  | inl ex => exists e a b, t !! i_name i = Some e /\
      nonce_octets st (e_interest e) = Some a /\ nonce_octets st i = Some b /\
      (getNonce a = inl ex \/ getNonce b = inl ex)
  | inr (t', res) =>
      (forall n, n <> i_name i -> t' !! n = t !! n) /\
      (pit_wf t -> pit_wf t') /\
      match t !! i_name i with
      | None => status res = Created /\ pit_interest res = i /\
          t' !! i_name i = Some (mkPitEntry i [record])
      | Some e =>
          pit_interest res = e_interest e /\
          ((status res = Duplicate /\ t' = t /\
            exists a b n, nonce_octets st (e_interest e) = Some a /\ nonce_octets st i = Some b /\
              getNonce a = inr n /\ getNonce b = inr n)
           \/
           (status res = Aggregated /\
            (forall a b n, nonce_octets st (e_interest e) = Some a -> nonce_octets st i = Some b ->
               getNonce a = inr n -> getNonce b <> inr n) /\
            t' !! i_name i = Some (mkPitEntry (e_interest e)
              (List.filter (ingress_live now) (e_ingress e) ++ [record]))))
      end
  end.
Proof.
  intros record. pose proof (pit_wf_insert st now i port t) as Hwf. unfold insert in *.
  fold record in Hwf |- *. destruct (t !! i_name i) as [e|] eqn:Ht.
  2: { split_and!; [|by eapply Hwf|done..|apply lookup_insert_eq].
       intros n Hn. by rewrite lookup_insert_ne. }
  pose proof (same_nonce_spec st (e_interest e) i) as Hs.
  assert (List.filter (fun r => negb (ingress_deadline r <=? now)) (e_ingress e)
    = List.filter (ingress_live now) (e_ingress e)) as Hfilter.
  { apply List.filter_ext. intros r. unfold ingress_live.
    destruct (Z.leb_spec (ingress_deadline r) now), (Z.ltb_spec now (ingress_deadline r)); lia || done. }
  destruct (same_nonce st (e_interest e) i) as [ex|[]]; cbn in *.
  - destruct Hs as (a & b & ?). by exists e, a, b.
  - split_and!; [done|by eapply Hwf|done|]. left. by split_and!.
  - split_and!; [|by eapply Hwf|done|].
    + intros n Hn. by rewrite lookup_insert_ne.
    + right. split_and!; [done|done|]. by rewrite lookup_insert_eq, Hfilter.
Qed.

(** The demo table: an Interest for [/a] with nonce 1, and the buffers of two
    Interests. *)
Definition demo_store : WireStore := {[ 1 := nonce_memory 1; 2 := nonce_memory 2 ]}.
Definition demo_interest (buffer : Z) : Interest :=
  mkInterest [component_of_string "a"] (WireNonce buffer) 4000 rest_none.
Definition demo_pit : PendingInterestTable :=
  {[ [component_of_string "a"] := mkPitEntry (demo_interest 1) [mkIngress 3 0 4000000] ]}.

Lemma demo_pit_wf : pit_wf demo_pit.
Proof. by apply map_Forall_singleton. Qed.

Lemma pit_insert_spec_witness :
  match insert demo_store 5000000000 (demo_interest 2) 4 demo_pit with
  | inr (t', res) => pit_wf t' /\ status res = Aggregated
  | inl _ => False
  end.
Proof.
  pose proof (pit_insert_spec demo_store 5000000000 (demo_interest 2) 4 demo_pit) as H.
  cbv zeta in H. destruct (insert demo_store 5000000000 (demo_interest 2) 4 demo_pit)
    as [ex|[t' res]] eqn:E.
  - apply (f_equal (fun r => match r with inl _ => true | inr _ => false end)) in E.
    vm_compute in E. discriminate E.
  - destruct H as (_ & Hwf & H). split; [apply Hwf, demo_pit_wf|].
    apply (f_equal (fun r => match r with inr (_, x) => status x | inl _ => Created end)) in E.
    etrans; [symmetry; exact E|]. vm_compute. reflexivity.
Defined.

(** Data consumes the entries of all its name's prefixes, the root included,
    and no others; the ports it returns are those of every ingress record of these
    entries, whether or not the record's lifetime has elapsed. *)
Theorem pit_take_spec (dataName : Name) (t : PendingInterestTable) (Hs : name_small dataName) :
  let '(t', ports) := takeDataMatchPorts dataName t in
  (forall n, t' !! n = if decide (n `prefix_of` dataName) then None else t !! n) /\
  (forall q, q ∈ ports <->
     exists n e r, n `prefix_of` dataName /\ t !! n = Some e /\ r ∈ e_ingress e /\ r_port r = q) /\
  (pit_wf t -> pit_wf t' /\
     (ports = ∅ <-> forall n, n `prefix_of` dataName -> t !! n = None)).
Proof.
  pose proof (takeDataMatchPorts_spec dataName t Hs) as [H1 H2].
  pose proof (pit_wf_take dataName t) as Hwf.
  destruct (takeDataMatchPorts dataName t) as [t' ports]. cbn [fst snd] in *.
  split_and!; [done..|]. intros Ht. split; [by apply Hwf|]. split.
  - intros -> n Hn. destruct (t !! n) as [e|] eqn:E; [|done]. exfalso.
    destruct (Ht _ _ E) as [_ Hne]. destruct (e_ingress e) as [|r l] eqn:El; [done|].
    apply (not_elem_of_empty (C := gset Z) (r_port r)). apply H2. exists n, e, r.
    rewrite El. split_and!; [done..|by left|done].
  - intros Hnone. apply leibniz_equiv, set_equiv. intros q. rewrite H2.
    split; [|intros Hq; by apply elem_of_empty in Hq].
    intros (n & e & r & Hn & He & _). by rewrite Hnone in He.
Qed.

Lemma pit_take_spec_witness :
  let t := {[ [component_of_string "a"] :=
    mkPitEntry (demo_interest 1) [mkIngress 3 0 4000000; mkIngress 4 0 4000000] ]} in
  let name := [component_of_string "a"; component_of_string "x"] in
  4 ∈ (takeDataMatchPorts name t).2.
Proof.
  intros t name. pose proof (pit_take_spec name t ltac:(vm_compute; reflexivity)) as H.
  destruct (takeDataMatchPorts name t) as [t' ports]. destruct H as (_ & H & _). apply H.
  exists [component_of_string "a"]. eexists _, (mkIngress 4 0 4000000).
  split_and!; [by exists [component_of_string "x"]|vm_compute; reflexivity| |reflexivity].
  right. left.
Defined.

(** [findByPrefix] lists exactly the remembered Interests whose names extend
    the prefix, one per name, in name order: the loop from [lower_bound] misses
    none, although it stops at the first name outside the prefix. *)
Theorem pit_findByPrefix_spec (prefix : Name) (t : PendingInterestTable) :
  (forall i, i ∈ findByPrefix prefix t <->
     exists n e, t !! n = Some e /\ prefix `prefix_of` n /\ i = e_interest e) /\
  (pit_wf t -> NoDup (i_name <$> findByPrefix prefix t) /\
     StronglySorted le_of (i_name <$> findByPrefix prefix t)).
Proof.
  split; [apply find_by_prefix_elem|]. unfold findByPrefix.
  intros Hwf.
    assert (i_name <$> ((fun kv => e_interest kv.2) <$> prefix_range prefix t)
            = (prefix_range prefix t).*1) as ->.
    { rewrite <-list_fmap_compose. apply list_fmap_ext. intros j [n e] Hj. cbn.
      apply list_elem_of_lookup_2, elem_of_prefix_range in Hj as [He _].
      by destruct (Hwf _ _ He). }
    split; [apply NoDup_prefix_range|].
    pose proof (prefix_range_sorted prefix t) as Hsort.
    induction Hsort as [|kv l Hl IH Hkv]; [constructor|].
    rewrite fmap_cons. constructor; [done|]. by apply Forall_fmap.
Qed.

Lemma pit_findByPrefix_spec_witness : NoDup (i_name <$> findByPrefix [] demo_pit).
Proof.
  destruct (pit_findByPrefix_spec [] demo_pit) as [_ H]. apply H, demo_pit_wf.
Defined.
