(* ===== verification/TemporaryForwardingTable.v ===== *)
(** * TemporaryForwardingTable: leased next hops by prefix

    Source: [src/src/ndnSIM/statim/state/temporary-forwarding-table.{hpp,cpp}].
    A [ForwardingEntry] is the map of its next hops: port to deadline, in
    nanoseconds.  The clock is read once per operation: the argument [now]. *)
From S2P Require Import Prelude Tlv Names NameMap.

Abbreviation ForwardingEntry := (gmap Z Z).
Abbreviation TemporaryForwardingTable := (gmap Name ForwardingEntry).

Record TfibInsertResult := mkTfibInsertResult {
  prefixCreated : bool;
  hopAdded : bool
}.

(** [pruneExpiredHops]: a hop whose deadline has been reached is erased. *)
Definition pruneExpiredHops (now : Z) (e : ForwardingEntry) : ForwardingEntry :=
  filter (fun kv => now < kv.2) e.

(** [std::map::emplace] of a hop: an existing hop stays. *)
Definition emplace_hop (port deadline : Z) (e : ForwardingEntry) : ForwardingEntry * bool :=
  match e !! port with
  | Some _ => (e, false)
  | None => (<[port := deadline]> e, true)
  end.

Definition insertUntil (now : Z) (prefix : Name) (port deadline : Z)
    (t : TemporaryForwardingTable) : TemporaryForwardingTable * TfibInsertResult :=
  let '(e, created) := match t !! prefix with
                       | None => (∅, true)
                       | Some e => (pruneExpiredHops now e, false)
                       end in
  let '(e, added) := emplace_hop port deadline e in
  (<[prefix := e]> t, mkTfibInsertResult created added).

(** [insert]: the lifetime is in microseconds; both clock reads give [now]. *)
Definition insert (now : Z) (prefix : Name) (port lifetime : Z) (t : TemporaryForwardingTable)
    : TemporaryForwardingTable * TfibInsertResult :=
  insertUntil now prefix port (i64 (now + i64 (lifetime * 1000))) t.

Definition pruneAndFind (now : Z) (prefix : Name) (t : TemporaryForwardingTable)
    : TemporaryForwardingTable * option ForwardingEntry :=
  match t !! prefix with
  | None => (t, None)
  | Some e =>
      let e := pruneExpiredHops now e in
      if bool_decide (e = ∅) then (delete prefix t, None) else (<[prefix := e]> t, Some e)
  end.

Definition findExact (now : Z) (prefix : Name) (t : TemporaryForwardingTable)
    : TemporaryForwardingTable * option ForwardingEntry := pruneAndFind now prefix t.

(** The loop of [findLongestPrefix] over the prefixes, the longest first. *)
Fixpoint find_first (now : Z) (ps : list Name) (t : TemporaryForwardingTable)
    : TemporaryForwardingTable * option ForwardingEntry :=
  match ps with
  | [] => (t, None)
  | p :: ps =>
      match pruneAndFind now p t with
      | (t, Some e) => (t, Some e)
      | (t, None) => find_first now ps t
      end
  end.

Definition findLongestPrefix (now : Z) (name : Name) (t : TemporaryForwardingTable)
    : TemporaryForwardingTable * option ForwardingEntry := find_first now (prefixes name) t.

Definition erase (prefix : Name) (t : TemporaryForwardingTable)
    : TemporaryForwardingTable * bool :=
  (delete prefix t, bool_decide (is_Some (t !! prefix))).

(** ** The live hops: what a lookup at time [now] may use *)
Definition live (now : Z) (t : TemporaryForwardingTable) (prefix : Name) : ForwardingEntry :=
  pruneExpiredHops now (default ∅ (t !! prefix)).

Lemma lookup_prune now e port d :
  pruneExpiredHops now e !! port = Some d <-> e !! port = Some d /\ now < d.
Proof. unfold pruneExpiredHops. by rewrite map_lookup_filter_Some. Qed.

Lemma prune_prune now now' e :
  now <= now' -> pruneExpiredHops now' (pruneExpiredHops now e) = pruneExpiredHops now' e.
Proof.
  intros Hle. apply map_eq. intros port. apply option_eq. intros d.
  rewrite !lookup_prune. split; [tauto|]. intros [H1 H2]. split_and!; [done|lia|done].
Qed.

Lemma live_insert_eq now t p e : live now (<[p := e]> t) p = pruneExpiredHops now e.
Proof. unfold live. by rewrite lookup_insert_eq. Qed.

Lemma live_insert_ne now t p q e : p <> q -> live now (<[p := e]> t) q = live now t q.
Proof. intros Hne. unfold live. by rewrite lookup_insert_ne. Qed.

Lemma live_delete_ne now t p q : p <> q -> live now (delete p t) q = live now t q.
Proof. intros Hne. unfold live. by rewrite lookup_delete_ne. Qed.

Lemma live_delete_eq now t p : live now (delete p t) p = ∅.
Proof. unfold live. by rewrite lookup_delete_eq. Qed.

(** Pruning is not observable now or later. *)
Lemma pruneAndFind_live now prefix t :
  (forall now' q, now <= now' -> live now' (pruneAndFind now prefix t).1 q = live now' t q) /\
  (pruneAndFind now prefix t).2 =
    (if bool_decide (live now t prefix = ∅) then None else Some (live now t prefix)).
Proof.
  unfold pruneAndFind. destruct (t !! prefix) as [e|] eqn:E.
  - assert (live now t prefix = pruneExpiredHops now e) as Hl by (unfold live; by rewrite E).
    rewrite Hl. case_bool_decide as Hempty; cbn [fst snd]; (split; [|done]);
      intros now' q Hle; destruct (decide (prefix = q)) as [<-|Hne].
    + rewrite live_delete_eq. unfold live. rewrite E. cbn.
      by rewrite <-(prune_prune now now' e Hle), Hempty.
    + by apply live_delete_ne.
    + rewrite live_insert_eq, prune_prune by done. unfold live. by rewrite E.
    + by apply live_insert_ne.
  - split; [done|]. unfold live. rewrite E. by rewrite bool_decide_true.
Qed.

Lemma find_first_live now ps t :
  (forall now' q, now <= now' -> live now' (find_first now ps t).1 q = live now' t q) /\
  match (find_first now ps t).2 with
  | Some e => exists l1 p l2, ps = l1 ++ p :: l2 /\ e = live now t p /\ e <> ∅ /\
      Forall (fun q => live now t q = ∅) l1
  | None => Forall (fun q => live now t q = ∅) ps
  end.
Proof.
  revert t. induction ps as [|p ps IH]; intros t; cbn [find_first]; [split; [done|constructor]|].
  destruct (pruneAndFind_live now p t) as [Hlive Hfound].
  destruct (pruneAndFind now p t) as [t1 [e|]] eqn:E; cbn [fst snd] in *.
  - split; [done|]. case_bool_decide as Hempty; [done|]. injection Hfound as ->.
    exists [], p, ps. split_and!; [done..|constructor].
  - case_bool_decide as Hempty; [|done]. destruct (IH t1) as [IH1 IH2]. split.
    { intros now' q Hle. rewrite IH1 by done. by apply Hlive. }
    destruct (find_first now ps t1).2 as [e|].
    + destruct IH2 as (l1 & q & l2 & -> & -> & Hne & Hl1). exists (p :: l1), q, l2.
      rewrite Hlive in * by lia. split_and!; [done..|]. constructor; [done|].
      eapply Forall_impl; [exact Hl1|]. intros x Hx. by rewrite <-Hlive.
    + constructor; [done|]. eapply Forall_impl; [exact IH2|]. intros x Hx. by rewrite <-Hlive.
Qed.

(** ** Properties *)

(** [findLongestPrefix] returns the live hops, all of them and only those, of
    the longest prefix of the name that has any, and none when no prefix has any;
    the pruning it does on the way changes no live hop of any prefix, now or
    later. *)
Theorem findLongestPrefix_spec (now : Z) (name : Name) (t : TemporaryForwardingTable)
    (Hs : name_small name) :
  (forall now' q, now <= now' ->
     live now' (findLongestPrefix now name t).1 q = live now' t q) /\
  match (findLongestPrefix now name t).2 with
  | Some e => exists p, p `prefix_of` name /\ e = live now t p /\ e <> ∅ /\
      forall q, q `prefix_of` name -> live now t q <> ∅ -> (length q <= length p)%nat
  | None => forall q, q `prefix_of` name -> live now t q = ∅
  end.
Proof.
  unfold findLongestPrefix. destruct (find_first_live now (prefixes name) t) as [H1 H2].
  split; [done|]. destruct (find_first now (prefixes name) t).2 as [e|].
  - destruct H2 as (l1 & p & l2 & Hps & -> & Hne & Hl1). exists p.
    assert (p `prefix_of` name) as Hp.
    { apply elem_of_prefixes; [done|]. rewrite Hps. apply elem_of_app. right. left. }
    split_and!; [done..|]. intros q Hq Hlive.
    assert (q ∉ l1) as Hq1.
    { intros Hin. rewrite Forall_forall in Hl1. by apply Hlive, Hl1. }
    apply (elem_of_prefixes name q Hs) in Hq as Hq'. rewrite Hps in Hq'.
    apply elem_of_app in Hq' as [?|Hq']; [done|]. apply elem_of_cons in Hq' as [->|Hq2]; [done|].
    apply list_elem_of_split in Hq2 as (l3 & l4 & ->).
    pose proof (prefixes_longest_first name (l1 ++ p :: l3) q l4 Hs) as Hlong.
    rewrite Hps, <-app_assoc in Hlong. specialize (Hlong eq_refl).
    apply Forall_app in Hlong as [_ Hlong]. apply Forall_cons in Hlong as [Hlong _]. lia.
  - intros q Hq. apply (elem_of_prefixes name q Hs) in Hq. rewrite Forall_forall in H2. by apply H2.
Qed.

(** What [insertUntil] publishes: at the present and any later time the prefix
    has the hops it had, plus the new one unless its port was still live, whose
    deadline is then not renewed; the result says which case occurred, an expired
    hop of the same port is replaced, and no other prefix changes. *)
Theorem insertUntil_spec (now : Z) (prefix : Name) (port deadline : Z)
    (t : TemporaryForwardingTable) :
  let '(t', res) := insertUntil now prefix port deadline t in
  prefixCreated res = bool_decide (t !! prefix = None) /\
  hopAdded res = bool_decide (live now t prefix !! port = None) /\
  (forall now' q, q <> prefix -> live now' t' q = live now' t q) /\
  (forall now', now <= now' ->
     live now' t' prefix =
       if hopAdded res then pruneExpiredHops now' (<[port := deadline]> (live now t prefix))
       else live now' t prefix).
Proof.
  unfold insertUntil, live.
  assert (pruneExpiredHops now ∅ = ∅) as Hempty by done.
  destruct (t !! prefix) as [e|] eqn:E; cbn [default id from_option]; rewrite ?Hempty; unfold emplace_hop.
  - destruct (pruneExpiredHops now e !! port) as [d|] eqn:Ep; cbn [fst snd prefixCreated hopAdded];
      rewrite ?Ep; split_and!; try done.
    + intros now' q Hq. by rewrite lookup_insert_ne.
    + intros now' Hle. rewrite lookup_insert_eq. cbn. by apply prune_prune.
    + intros now' q Hq. by rewrite lookup_insert_ne.
    + intros now' Hle. by rewrite lookup_insert_eq.
  - rewrite lookup_empty. cbn [prefixCreated hopAdded]. split_and!; try done.
    + intros now' q Hq. by rewrite lookup_insert_ne.
    + intros now' Hle. by rewrite lookup_insert_eq.
Qed.

Lemma findLongestPrefix_spec_witness :
  let a := [component_of_string "a"] in
  let t := (insertUntil 0 a 3 10 ∅).1 in
  (forall q, q `prefix_of` (a ++ a) -> live 10 t q = ∅) /\
  (findLongestPrefix 9 (a ++ a) t).2 = Some {[ 3 := 10 ]}.
Proof.
  intros a t. split; [|vm_compute; reflexivity].
  assert (name_small (a ++ a)) as Hs by (vm_compute; reflexivity).
  destruct (findLongestPrefix_spec 10 (a ++ a) t Hs) as [_ H].
  destruct (findLongestPrefix 10 (a ++ a) t).2 as [e|] eqn:E; [|exact H].
  exfalso. vm_compute in E. discriminate.
Defined.

Lemma insertUntil_spec_witness :
  let a := [component_of_string "a"] in
  let t := (insertUntil 0 a 3 10 ∅).1 in
  live 20 (insertUntil 12 a 3 30 t).1 a = {[ 3 := 30 ]} /\
  hopAdded (insertUntil 5 a 3 30 t).2 = false.
Proof.
  intros a t. split.
  - pose proof (insertUntil_spec 12 a 3 30 t) as H.
    destruct (insertUntil 12 a 3 30 t) as [t' res]. destruct H as (_ & Ha & _ & H).
    cbn [fst]. rewrite (H 20) by lia. rewrite Ha. vm_compute. reflexivity.
  - vm_compute. reflexivity.
Defined.
