(* ===== verification/ContentStore.v ===== *)
(** * ContentStore: the bounded Data cache

    Source: [src/src/ndnSIM/statim/stateful/content-store.hpp].  [std::rand] is a
    generator with a state of its own, outside the sources; the trimming loops
    consume its values in the order of the source. *)
From S2P Require Import Prelude Tlv Names NameMap Packets.

(** [std::rand]: non-negative [int]s. *)
Class StdRand (R : Type) := std_rand : R -> R * Z.

Record ContentStore := mkContentStore {
  m_cache : gmap Name Data;
  m_maxSize : Z
}.

Definition ContentStore_new (maxSize : Z) : ContentStore := mkContentStore ∅ maxSize.
Definition default_max_size : Z := 100.

Definition find (name : Name) (cs : ContentStore) : option Data := m_cache cs !! name.
Definition cs_clear (cs : ContentStore) : ContentStore := mkContentStore ∅ (m_maxSize cs).
Definition cs_size (m : gmap Name Data) : Z := Z.of_nat (size m).

Section content_store.
Context {R : Type} `{!StdRand R}.

(** The coin-flip scan: [it] walks the names in order. *)
Fixpoint coin_scan (it : list Name) (maxSize : Z) (cache : gmap Name Data) (r : R)
    : gmap Name Data * R :=
  match it with
  | [] => (cache, r)
  | n :: it =>
      if maxSize <? cs_size cache then
        let '(r, v) := std_rand r in
        if Z.rem v 2 =? 1 then coin_scan it maxSize (delete n cache) r
        else coin_scan it maxSize cache r
      else (cache, r)
  end.

(** [while (size > max) erase(begin())]: the names still present, in order. *)
Fixpoint erase_front (it : list Name) (maxSize : Z) (cache : gmap Name Data) : gmap Name Data :=
  match it with
  | [] => cache
  | n :: it => if maxSize <? cs_size cache then erase_front it maxSize (delete n cache) else cache
  end.

Definition trimToCapacity (cs : ContentStore) (r : R) : ContentStore * R :=
  if m_maxSize cs =? 0 then (mkContentStore ∅ 0, r)
  else
    let '(cache, r) := coin_scan (ordered (m_cache cs)).*1 (m_maxSize cs) (m_cache cs) r in
    (mkContentStore (erase_front (ordered cache).*1 (m_maxSize cs) cache) (m_maxSize cs), r).

Definition insert (data : Data) (cs : ContentStore) (r : R) : ContentStore * R :=
  if m_maxSize cs =? 0 then (cs, r)
  else trimToCapacity (mkContentStore (<[d_name data := data]> (m_cache cs)) (m_maxSize cs)) r.

Definition setMaxSize (maxSize : Z) (cs : ContentStore) (r : R) : ContentStore * R :=
  trimToCapacity (mkContentStore (m_cache cs) maxSize) r.

(** ** Facts *)
Lemma coin_scan_subset it maxSize cache r : (coin_scan it maxSize cache r).1 ⊆ cache.
Proof.
  revert cache r. induction it as [|n it IH]; intros cache r; cbn [coin_scan]; [done|].
  destruct (_ <? _); [|done]. destruct (std_rand r) as [r' v].
  destruct (_ =? 1); [|apply IH]. etrans; [apply IH|apply delete_subseteq].
Qed.

Lemma coin_scan_noop it maxSize cache r :
  cs_size cache <= maxSize -> coin_scan it maxSize cache r = (cache, r).
Proof. intros Hs. destruct it; [done|]. cbn. by destruct (Z.ltb_spec maxSize (cs_size cache)); [lia|]. Qed.

Lemma erase_front_subset it maxSize cache : erase_front it maxSize cache ⊆ cache.
Proof.
  revert cache. induction it as [|n it IH]; intros cache; cbn [erase_front]; [done|].
  destruct (_ <? _); [|done]. etrans; [apply IH|apply delete_subseteq].
Qed.

Lemma erase_front_noop it maxSize cache :
  cs_size cache <= maxSize -> erase_front it maxSize cache = cache.
Proof. intros Hs. destruct it; [done|]. cbn. by destruct (Z.ltb_spec maxSize (cs_size cache)); [lia|]. Qed.

(** Erasing the present names from the front reaches the bound exactly. *)
Lemma erase_front_size it maxSize cache :
  0 <= maxSize -> NoDup it -> (forall n, n ∈ it <-> is_Some (cache !! n)) ->
  cs_size (erase_front it maxSize cache) = Z.min (cs_size cache) maxSize.
Proof.
  intros Hm. revert cache. induction it as [|n it IH]; intros cache Hnd Hdom; cbn [erase_front].
  - assert (cache = ∅) as ->; [|change (cs_size ∅) with 0; lia].
    apply map_empty. intros n. destruct (cache !! n) eqn:E; [|done].
    assert (n ∈ @nil Name) as Hn by (apply Hdom; by eexists). by apply elem_of_nil in Hn.
  - destruct (Z.ltb_spec maxSize (cs_size cache)); [|lia].
    apply NoDup_cons in Hnd as [Hn Hnd]. rewrite IH; [|done|].
    + unfold cs_size in *. rewrite map_size_delete_Some by (apply Hdom; left). lia.
    + intros x. specialize (Hdom x). rewrite elem_of_cons in Hdom.
      destruct (decide (x = n)) as [->|Hne].
      * rewrite lookup_delete_eq. split; [done|]. by intros [].
      * rewrite lookup_delete_ne by done. tauto.
Qed.

Lemma erase_front_ordered maxSize cache :
  0 <= maxSize -> cs_size (erase_front (ordered cache).*1 maxSize cache) = Z.min (cs_size cache) maxSize.
Proof.
  intros Hm. apply erase_front_size; [done|apply NoDup_ordered_keys|].
  intros n. rewrite list_elem_of_fmap. split.
  - intros ([k d] & -> & Hin). apply elem_of_ordered in Hin. by eexists.
  - intros [d Hd]. exists (n, d). by rewrite elem_of_ordered.
Qed.

Lemma trimToCapacity_spec cs r :
  0 <= m_maxSize cs ->
  let cs' := (trimToCapacity cs r).1 in
  m_maxSize cs' = m_maxSize cs /\ m_cache cs' ⊆ m_cache cs /\
  cs_size (m_cache cs') <= m_maxSize cs /\
  (cs_size (m_cache cs) <= m_maxSize cs -> trimToCapacity cs r = (cs, r)).
Proof.
  intros Hm. unfold trimToCapacity. destruct (Z.eqb_spec (m_maxSize cs) 0) as [E|Hne].
  - cbn. split_and!; [done|apply map_empty_subseteq|done|].
    intros Hs. destruct cs as [cache mx]. cbn in *. subst mx.
    assert (cache = ∅) as ->; [|done]. apply map_size_empty_inv. unfold cs_size in Hs. lia.
  - destruct (coin_scan _ _ _ _) as [cache r'] eqn:E. cbn.
    assert (cache ⊆ m_cache cs) as Hsub.
    { pose proof (coin_scan_subset (ordered (m_cache cs)).*1 (m_maxSize cs) (m_cache cs) r) as H.
      by rewrite E in H. }
    split_and!; [done| | |].
    + etrans; [apply erase_front_subset|done].
    + rewrite erase_front_ordered by lia. lia.
    + intros Hs. rewrite coin_scan_noop in E by done. injection E as <- <-.
      rewrite erase_front_noop by done. by destruct cs.
Qed.
End content_store.

(** ** Properties *)

(** The cache never exceeds its capacity: after [insert] or [setMaxSize],
    whatever [std::rand] returns, at most [m_maxSize] packets remain, each of them
    cached before or just inserted; when nothing exceeds the capacity nothing is
    evicted and no random number is drawn; zero capacity disables caching. *)
Theorem contentStore_bound {R : Type} {SR : StdRand R} (cs : ContentStore) (data : Data)
    (maxSize : Z) (r : R) (Hcap : 0 <= m_maxSize cs /\ 0 <= maxSize) :
  (let cs' := (insert data cs r).1 in
   (cs_size (m_cache cs) <= m_maxSize cs -> cs_size (m_cache cs') <= m_maxSize cs) /\
   (0 < m_maxSize cs -> m_cache cs' ⊆ <[d_name data := data]> (m_cache cs)) /\
   (m_maxSize cs = 0 -> cs' = cs) /\
   (cs_size (<[d_name data := data]> (m_cache cs)) <= m_maxSize cs -> 0 < m_maxSize cs ->
      insert data cs r = (mkContentStore (<[d_name data := data]> (m_cache cs)) (m_maxSize cs), r) /\
      find (d_name data) cs' = Some data)) /\
  (let cs' := (setMaxSize maxSize cs r).1 in
   m_maxSize cs' = maxSize /\ cs_size (m_cache cs') <= maxSize /\ m_cache cs' ⊆ m_cache cs).
Proof.
  destruct Hcap as [Hc Hm]. split; cbv zeta.
  - unfold insert. set (cs1 := mkContentStore (<[d_name data := data]> (m_cache cs)) (m_maxSize cs)).
    destruct (trimToCapacity_spec cs1 r Hc) as (H1 & H2 & H3 & H4).
    destruct (Z.eqb_spec (m_maxSize cs) 0) as [E|Hne]; cbn [fst]; split_and!;
      try done; try lia.
    intros Hs Hpos. rewrite (H4 Hs). split; [done|]. unfold find. cbn. apply lookup_insert_eq.
  - unfold setMaxSize. destruct (trimToCapacity_spec (mkContentStore (m_cache cs) maxSize) r Hm)
      as (H1 & H2 & H3 & _). done.
Qed.

Definition counter_rand : StdRand Z := fun r => (r + 1, r mod 2147483648).

Lemma contentStore_bound_witness :
  let d := mkData [component_of_string "a"] [] [] None in
  let cs := (@insert Z counter_rand d (ContentStore_new 1) 0).1 in
  cs_size (m_cache (@insert Z counter_rand (mkData [] [] [] None) cs 0).1) <= 1.
Proof.
  intros d cs.
  destruct (@contentStore_bound Z counter_rand cs (mkData [] [] [] None) 0 0) as [[H _] _].
  - vm_compute. split; discriminate.
  - apply H. vm_compute. discriminate.
Defined.
