(* ===== verification/ControlMessage.v ===== *)
(** * ControlMessage: what the local and the flow-table controller exchange

    Source: [src/src/ndnSIM/statim/control/control-message.hpp]. *)
From S2P Require Import Prelude Tlv Names.

Inductive ControlMessageType := TYPE_PACKET_IN | TYPE_FLOW_MOD | TYPE_SYNC_ACK.

#[export] Instance ControlMessageType_eq_dec : EqDecision ControlMessageType.
Proof. solve_decision. Defined.

Record ControlMessage := mkControlMessage {
  msg_type : ControlMessageType;
  nameHashes : list Z;
  prefixLen : Z;
  outputPort : Z;
  msg_prefix : Name;
  msg_seq : Z;
  routeExpiry : Z     (** nanoseconds; zero for none *)
}.

#[export] Instance ControlMessage_eq_dec : EqDecision ControlMessage.
Proof. solve_decision. Defined.

Definition ControlMessage_default : ControlMessage :=
  mkControlMessage TYPE_PACKET_IN [] 0 0 [] 0 0.

Definition with_type (t : ControlMessageType) (m : ControlMessage) : ControlMessage :=
  mkControlMessage t (nameHashes m) (prefixLen m) (outputPort m) (msg_prefix m) (msg_seq m)
    (routeExpiry m).

Definition isExpiredAt (now : Z) (m : ControlMessage) : bool :=
  negb (routeExpiry m =? 0) && (routeExpiry m <=? now).

(** [FlowTableController::sameUpdate] *)
Definition sameUpdate (lhs rhs : ControlMessage) : bool :=
  bool_decide (msg_prefix lhs = msg_prefix rhs) && (msg_seq lhs =? msg_seq rhs)
  && (prefixLen lhs =? prefixLen rhs) && (outputPort lhs =? outputPort rhs)
  && bool_decide (nameHashes lhs = nameHashes rhs) && (routeExpiry lhs =? routeExpiry rhs).

Lemma sameUpdate_spec lhs rhs :
  sameUpdate lhs rhs = true <-> with_type (msg_type rhs) lhs = rhs.
Proof.
  unfold sameUpdate, with_type. rewrite !andb_true_iff, !bool_decide_eq_true, !Z.eqb_eq.
  destruct lhs, rhs; cbn. split; [naive_solver|]. intros [=]. naive_solver.
Qed.

Lemma with_type_idem t t' m : with_type t (with_type t' m) = with_type t m.
Proof. done. Qed.

Lemma with_type_same m : with_type (msg_type m) m = m.
Proof. by destruct m. Qed.

Lemma sameUpdate_refl t m : sameUpdate (with_type t m) m = true.
Proof. apply sameUpdate_spec. rewrite with_type_idem. apply with_type_same. Qed.
