(* ===== verification/LocalRouteController.v ===== *)
(** * LocalRouteController: temporary routes and their reconciliation

    Source: [src/src/ndnSIM/statim/control/local-route-controller.{hpp,cpp}].
    The controller is one component of a world [W] (a [Lens]); timers are events
    [LrcEvent] of the world's [Scheduler]; the two callbacks are computations of
    the world, [None] for an unset [std::function].  A method that throws leaves
    the changes made before the throw. *)
From S2P Require Import Prelude Tlv Names NameMap Simulator TemporaryForwardingTable ControlMessage.

Inductive LrcEvent :=
| ExpireEntryBySeq (prefix : Name) (seq : Z)
| ControllerRetryTimeout (prefix : Name) (seq : Z).

Inductive LrcCounter :=
| tempUpdates | controlPackets | syncCompletions | staleTraceUpdatesRejected
| staleSyncAcksRejected | noPendingSyncAcksRejected | controllerRetries
| temporaryRouteWithdrawals | expiredSyncAcksRejected.

#[export] Instance LrcCounter_eq_dec : EqDecision LrcCounter.
Proof. solve_decision. Defined.

Record PendingControllerRequest := mkPendingControllerRequest {
  req_seq : Z;
  retriesLeft : Z;     (** [int] *)
  timer : EventId;
  req_msg : ControlMessage
}.

Record LocalRouteController := mkLocalRouteController {
  m_temporaryFib : TemporaryForwardingTable;
  m_seqMap : gmap Name Z;
  m_highestSeenSeq : gmap Name Z;
  m_routeExpiries : gmap Name Z;
  m_lifetimeTimers : gmap Name EventId;
  m_pendingControllerRequests : gmap Name PendingControllerRequest;
  m_controllerDelay : Z;
  m_entryLifetime : Z;
  m_controllerRetryTimeout : Z;
  m_controllerRetryLimit : Z;
  m_generationGuardEnabled : bool;
  m_counters : counters LrcCounter
}.

#[export] Instance set_m_temporaryFib : Setter m_temporaryFib := fun f s =>
  mkLocalRouteController (f (m_temporaryFib s)) (m_seqMap s) (m_highestSeenSeq s)
    (m_routeExpiries s) (m_lifetimeTimers s) (m_pendingControllerRequests s) (m_controllerDelay
    s) (m_entryLifetime s) (m_controllerRetryTimeout s) (m_controllerRetryLimit s)
    (m_generationGuardEnabled s) (m_counters s).
#[export] Instance set_m_seqMap : Setter m_seqMap := fun f s =>
  mkLocalRouteController (m_temporaryFib s) (f (m_seqMap s)) (m_highestSeenSeq s)
    (m_routeExpiries s) (m_lifetimeTimers s) (m_pendingControllerRequests s) (m_controllerDelay
    s) (m_entryLifetime s) (m_controllerRetryTimeout s) (m_controllerRetryLimit s)
    (m_generationGuardEnabled s) (m_counters s).
#[export] Instance set_m_highestSeenSeq : Setter m_highestSeenSeq := fun f s =>
  mkLocalRouteController (m_temporaryFib s) (m_seqMap s) (f (m_highestSeenSeq s))
    (m_routeExpiries s) (m_lifetimeTimers s) (m_pendingControllerRequests s) (m_controllerDelay
    s) (m_entryLifetime s) (m_controllerRetryTimeout s) (m_controllerRetryLimit s)
    (m_generationGuardEnabled s) (m_counters s).
#[export] Instance set_m_routeExpiries : Setter m_routeExpiries := fun f s =>
  mkLocalRouteController (m_temporaryFib s) (m_seqMap s) (m_highestSeenSeq s) (f
    (m_routeExpiries s)) (m_lifetimeTimers s) (m_pendingControllerRequests s) (m_controllerDelay
    s) (m_entryLifetime s) (m_controllerRetryTimeout s) (m_controllerRetryLimit s)
    (m_generationGuardEnabled s) (m_counters s).
#[export] Instance set_m_lifetimeTimers : Setter m_lifetimeTimers := fun f s =>
  mkLocalRouteController (m_temporaryFib s) (m_seqMap s) (m_highestSeenSeq s) (m_routeExpiries
    s) (f (m_lifetimeTimers s)) (m_pendingControllerRequests s) (m_controllerDelay s)
    (m_entryLifetime s) (m_controllerRetryTimeout s) (m_controllerRetryLimit s)
    (m_generationGuardEnabled s) (m_counters s).
#[export] Instance set_m_pendingControllerRequests : Setter m_pendingControllerRequests := fun f
    s =>
  mkLocalRouteController (m_temporaryFib s) (m_seqMap s) (m_highestSeenSeq s) (m_routeExpiries
    s) (m_lifetimeTimers s) (f (m_pendingControllerRequests s)) (m_controllerDelay s)
    (m_entryLifetime s) (m_controllerRetryTimeout s) (m_controllerRetryLimit s)
    (m_generationGuardEnabled s) (m_counters s).
#[export] Instance set_m_controllerDelay : Setter m_controllerDelay := fun f s =>
  mkLocalRouteController (m_temporaryFib s) (m_seqMap s) (m_highestSeenSeq s) (m_routeExpiries
    s) (m_lifetimeTimers s) (m_pendingControllerRequests s) (f (m_controllerDelay s))
    (m_entryLifetime s) (m_controllerRetryTimeout s) (m_controllerRetryLimit s)
    (m_generationGuardEnabled s) (m_counters s).
#[export] Instance set_m_entryLifetime : Setter m_entryLifetime := fun f s =>
  mkLocalRouteController (m_temporaryFib s) (m_seqMap s) (m_highestSeenSeq s) (m_routeExpiries
    s) (m_lifetimeTimers s) (m_pendingControllerRequests s) (m_controllerDelay s) (f
    (m_entryLifetime s)) (m_controllerRetryTimeout s) (m_controllerRetryLimit s)
    (m_generationGuardEnabled s) (m_counters s).
#[export] Instance set_m_controllerRetryTimeout : Setter m_controllerRetryTimeout := fun f s =>
  mkLocalRouteController (m_temporaryFib s) (m_seqMap s) (m_highestSeenSeq s) (m_routeExpiries
    s) (m_lifetimeTimers s) (m_pendingControllerRequests s) (m_controllerDelay s)
    (m_entryLifetime s) (f (m_controllerRetryTimeout s)) (m_controllerRetryLimit s)
    (m_generationGuardEnabled s) (m_counters s).
#[export] Instance set_m_controllerRetryLimit : Setter m_controllerRetryLimit := fun f s =>
  mkLocalRouteController (m_temporaryFib s) (m_seqMap s) (m_highestSeenSeq s) (m_routeExpiries
    s) (m_lifetimeTimers s) (m_pendingControllerRequests s) (m_controllerDelay s)
    (m_entryLifetime s) (m_controllerRetryTimeout s) (f (m_controllerRetryLimit s))
    (m_generationGuardEnabled s) (m_counters s).
#[export] Instance set_m_generationGuardEnabled : Setter m_generationGuardEnabled := fun f s =>
  mkLocalRouteController (m_temporaryFib s) (m_seqMap s) (m_highestSeenSeq s) (m_routeExpiries
    s) (m_lifetimeTimers s) (m_pendingControllerRequests s) (m_controllerDelay s)
    (m_entryLifetime s) (m_controllerRetryTimeout s) (m_controllerRetryLimit s) (f
    (m_generationGuardEnabled s)) (m_counters s).
#[export] Instance set_m_counters : Setter m_counters := fun f s =>
  mkLocalRouteController (m_temporaryFib s) (m_seqMap s) (m_highestSeenSeq s) (m_routeExpiries
    s) (m_lifetimeTimers s) (m_pendingControllerRequests s) (m_controllerDelay s)
    (m_entryLifetime s) (m_controllerRetryTimeout s) (m_controllerRetryLimit s)
    (m_generationGuardEnabled s) (f (m_counters s)).

(** The constructor; one second is the default controller delay. *)
Definition LocalRouteController_new : LocalRouteController :=
  mkLocalRouteController ∅ ∅ ∅ ∅ ∅ ∅ 1000000000 0 0 3 false counters_init.

Definition fibSize (s : LocalRouteController) : nat := size (m_seqMap s).
Definition pendingRequestCount (s : LocalRouteController) : nat :=
  size (m_pendingControllerRequests s).

Definition getHighestSeenSeq (prefix : Name) (s : LocalRouteController) : option Z :=
  m_highestSeenSeq s !! prefix.

Definition setEntryLifetime (lifetime : Z) : M LocalRouteController unit :=
  if lifetime <? 0 then throw (InvalidArgument "Route lifetime must be nonnegative")
  else modify (fun s => s <| m_entryLifetime := lifetime |>).

(** Drop the entry of one prefix from the temporary FIB. *)
Definition tfib_erase (prefix : Name) (s : LocalRouteController) : LocalRouteController :=
  s <| m_temporaryFib ::= fun t => (TemporaryForwardingTable.erase prefix t).1 |>.

Definition count (c : LrcCounter) (s : LocalRouteController) : LocalRouteController :=
  s <| m_counters ::= bump c |>.

Section controller.
Context {W : Type} {LW : Lens W LocalRouteController} {SW : Scheduler W LrcEvent}.
Context (flowTableSyncRequestCb : option (ControlMessage -> M W unit)).
Context (syncCompleteCb : option (Name -> M W unit)).

Definition get : M W LocalRouteController := gets view.
Definition upd (f : LocalRouteController -> LocalRouteController) : M W unit := modify (over f).
Definition schedule (delay : Z) (e : LrcEvent) : M W EventId := action (sim_schedule delay e).
Definition cancel (id : EventId) : M W unit := modify (sim_cancel (E := LrcEvent) id).
Definition now : M W Z := gets (sim_now LrcEvent).

(** Cancel and forget a prefix's lifetime timer, if it has one. *)
Definition cancel_lifetime_timer (prefix : Name) : M W unit :=
  s ← get;
  match m_lifetimeTimers s !! prefix with
  | Some id => cancel id;; upd (fun s => s <| m_lifetimeTimers ::= delete prefix |>)
  | None => mret tt
  end.

(** Cancel and forget a prefix's pending request, if it has one. *)
Definition cancel_pending_request (prefix : Name) : M W unit :=
  s ← get;
  match m_pendingControllerRequests s !! prefix with
  | Some rec =>
      cancel (timer rec);; upd (fun s => s <| m_pendingControllerRequests ::= delete prefix |>)
  | None => mret tt
  end.

(** The request to the flow-table controller at the end of [applyTraceUpdate]. *)
Definition request_sync (prefix : Name) (hashes : list Z) (pLen port seq expiry : Z) : M W unit :=
  match flowTableSyncRequestCb with
  | None => mret tt
  | Some cb =>
      upd (count controlPackets);;
      let msg := mkControlMessage TYPE_PACKET_IN hashes pLen port prefix seq expiry in
      s ← get;
      (if 0 <? m_controllerRetryTimeout s then
         cancel_pending_request prefix;;
         s ← get;
         id ← schedule (m_controllerRetryTimeout s) (ControllerRetryTimeout prefix seq);
         let rec := mkPendingControllerRequest seq (m_controllerRetryLimit s) id msg in
         upd (fun s => s <| m_pendingControllerRequests ::= <[prefix := rec]> |>)
       else mret tt);;
      cb msg
  end.

(** The generation guard: true to go on, false when the update is stale. *)
Definition guard_admits (prefix : Name) (seq : Z) : M W bool :=
  s ← get;
  if m_generationGuardEnabled s then
    match m_highestSeenSeq s !! prefix with
    | Some highest =>
        if seq <=? highest then upd (count staleTraceUpdatesRejected);; mret false
        else upd (fun s => s <| m_highestSeenSeq ::= <[prefix := seq]> |>);; mret true
    | None => upd (fun s => s <| m_highestSeenSeq ::= <[prefix := seq]> |>);; mret true
    end
  else mret true.

(** The admitted part: replace the old decision and arm the lifetime timer. *)
Definition admit_route (prefix : Name) (port seq lifetime expiry : Z) : M W unit :=
  s ← get;
  (match m_seqMap s !! prefix with
   | Some _ => upd (tfib_erase prefix)
   | None => mret tt
   end);;
  upd (fun s => s <| m_seqMap ::= <[prefix := seq]> |>);;
  upd (fun s => s <| m_routeExpiries ::= <[prefix := expiry]> |>);;
  t ← now;
  let tableDeadline := if 0 <? lifetime then i64 (t + lifetime) else TimePoint_max in
  upd (fun s => s <| m_temporaryFib ::= fun fib =>
    (TemporaryForwardingTable.insertUntil t prefix port tableDeadline fib).1 |>);;
  upd (count tempUpdates);;
  cancel_lifetime_timer prefix;;
  if 0 <? lifetime then
    id ← schedule lifetime (ExpireEntryBySeq prefix seq);
    upd (fun s => s <| m_lifetimeTimers ::= <[prefix := id]> |>)
  else mret tt.

Definition applyTraceUpdate (prefix : Name) (hashes : list Z) (pLen port seq ttl : Z)
    : M W bool :=
  if ttl <? 0 then throw (InvalidArgument "Routing-protocol lifetime must be nonnegative")
  else
    let suppliedLifetime := MicroSeconds ttl in
    s ← get;
    if (0 <? suppliedLifetime) && (0 <? m_entryLifetime s)
       && negb (suppliedLifetime =? m_entryLifetime s)
    then throw (InvalidArgument
           "Configured route lifetime differs from the routing-protocol lifetime")
    else
      let lifetime := if 0 <? suppliedLifetime then suppliedLifetime else m_entryLifetime s in
      t ← now;
      let expiry := if 0 <? lifetime then i64 (t + lifetime) else 0 in
      go ← guard_admits prefix seq;
      if negb go then mret false
      else
        s ← get;
        if match m_seqMap s !! prefix with Some current => seq <=? current | None => false end
        then upd (count staleTraceUpdatesRejected);; mret false
        else
          admit_route prefix port seq lifetime expiry;;
          request_sync prefix hashes pLen port seq expiry;;
          mret true.

Definition handleControlResponse (message : ControlMessage) : M W bool :=
  if negb (bool_decide (msg_type message = TYPE_SYNC_ACK)) then mret false
  else
    let prefix := msg_prefix message in
    s ← get;
    match m_seqMap s !! prefix with
    | None =>
        (if m_generationGuardEnabled s &&
            match m_highestSeenSeq s !! prefix with
            | Some highest => msg_seq message <=? highest
            | None => false
            end
         then upd (count staleSyncAcksRejected)
         else upd (count noPendingSyncAcksRejected));;
        mret false
    | Some current =>
        if (m_generationGuardEnabled s && negb (current =? msg_seq message))
           || (negb (m_generationGuardEnabled s) && negb (msg_seq message =? 0)
               && negb (current =? msg_seq message))
        then upd (count staleSyncAcksRejected);; mret false
        else
          match m_routeExpiries s !! prefix with
          | None => throw (OutOfRange "map::at")
          | Some expiry =>
              t ← now;
              if (0 <? expiry) && (expiry <=? t)
              then upd (count expiredSyncAcksRejected);; mret false
              else if negb (routeExpiry message =? expiry)
              then upd (count staleSyncAcksRejected);; mret false
              else
                upd (count syncCompletions);;
                upd (tfib_erase prefix);;
                upd (fun s => s <| m_seqMap ::= delete prefix |>);;
                upd (fun s => s <| m_routeExpiries ::= delete prefix |>);;
                cancel_lifetime_timer prefix;;
                cancel_pending_request prefix;;
                (match syncCompleteCb with Some cb => cb prefix | None => mret tt end);;
                mret true
          end
    end.

Definition expireEntryBySeq (prefix : Name) (seq : Z) : M W unit :=
  s ← get;
  (if bool_decide (m_seqMap s !! prefix = Some seq) then
     upd (tfib_erase prefix);;
     upd (fun s => s <| m_seqMap ::= delete prefix |>);;
     upd (fun s => s <| m_routeExpiries ::= delete prefix |>);;
     s ← get;
     match m_pendingControllerRequests s !! prefix with
     | Some rec =>
         if req_seq rec =? seq then
           cancel (timer rec);;
           upd (fun s => s <| m_pendingControllerRequests ::= delete prefix |>)
         else mret tt
     | None => mret tt
     end
   else mret tt);;
  upd (fun s => s <| m_lifetimeTimers ::= delete prefix |>).

Definition onControllerRetryTimeout (prefix : Name) (seq : Z) : M W unit :=
  s ← get;
  match m_pendingControllerRequests s !! prefix with
  | None => mret tt
  | Some rec =>
      if negb (req_seq rec =? seq) then mret tt
      else if negb (bool_decide (m_seqMap s !! prefix = Some seq)) then
        upd (fun s => s <| m_pendingControllerRequests ::= delete prefix |>)
      else if 0 <? retriesLeft rec then
        upd (fun s => s <| m_pendingControllerRequests ::= <[prefix :=
          mkPendingControllerRequest (req_seq rec) (i32 (retriesLeft rec - 1)) (timer rec)
            (req_msg rec)]> |>);;
        upd (count controllerRetries);;
        upd (count controlPackets);;
        (match flowTableSyncRequestCb with Some cb => cb (req_msg rec) | None => mret tt end);;
        s ← get;
        match m_pendingControllerRequests s !! prefix with
        | Some rec =>
            if req_seq rec =? seq then
              id ← schedule (m_controllerRetryTimeout s) (ControllerRetryTimeout prefix seq);
              upd (fun s => s <| m_pendingControllerRequests ::= <[prefix :=
                mkPendingControllerRequest (req_seq rec) (retriesLeft rec) id (req_msg rec)]> |>)
            else mret tt
        | None => mret tt
        end
      else
        upd (count temporaryRouteWithdrawals);;
        upd (tfib_erase prefix);;
        upd (fun s => s <| m_seqMap ::= delete prefix |>);;
        upd (fun s => s <| m_routeExpiries ::= delete prefix |>);;
        cancel_lifetime_timer prefix;;
        upd (fun s => s <| m_pendingControllerRequests ::= delete prefix |>)
  end.

(** The timer events. *)
Definition run_event (e : LrcEvent) : M W unit :=
  match e with
  | ExpireEntryBySeq prefix seq => expireEntryBySeq prefix seq
  | ControllerRetryTimeout prefix seq => onControllerRetryTimeout prefix seq
  end.
End controller.

(** ** Running the methods *)
Create HintDb world.
#[export] Hint Rewrite @view_over @view_schedule @view_cancel @now_put @now_schedule @now_cancel
  using typeclasses eauto : world.

(** A generation owns its prefix's next-hop decision: [s] is consistent. *)
Record lrc_wf (s : LocalRouteController) : Prop := {
  wf_expiry p : is_Some (m_routeExpiries s !! p) <-> is_Some (m_seqMap s !! p);
  wf_fib p e : m_temporaryFib s !! p = Some e ->
    is_Some (m_seqMap s !! p) /\ exists port d, e = {[ port := d ]};
  wf_timer p : is_Some (m_lifetimeTimers s !! p) -> is_Some (m_seqMap s !! p);
  wf_request p r : m_pendingControllerRequests s !! p = Some r ->
    msg_prefix (req_msg r) = p /\ msg_seq (req_msg r) = req_seq r
}.

Lemma lrc_wf_new : lrc_wf LocalRouteController_new.
Proof.
  split; intros *; cbn; rewrite ?lookup_empty; done.
Qed.

(** The state after an admitted update, before the request is sent. *)
Definition admitted (t : Z) (prefix : Name) (port seq lifetime expiry : Z) (id : EventId)
    (s : LocalRouteController) : LocalRouteController :=
  s <| m_temporaryFib ::= <[prefix := {[ port :=
          if 0 <? lifetime then i64 (t + lifetime) else TimePoint_max ]}]> |>
    <| m_seqMap ::= <[prefix := seq]> |>
    <| m_routeExpiries ::= <[prefix := expiry]> |>
    <| m_lifetimeTimers ::= (if 0 <? lifetime then <[prefix := id]> else delete prefix) |>
    <| m_counters ::= bump tempUpdates |>.

(** The state after a prefix's transaction ended. *)
Definition withdrawn (prefix : Name) (s : LocalRouteController) : LocalRouteController :=
  s <| m_temporaryFib ::= delete prefix |>
    <| m_seqMap ::= delete prefix |>
    <| m_routeExpiries ::= delete prefix |>
    <| m_lifetimeTimers ::= delete prefix |>
    <| m_pendingControllerRequests ::= delete prefix |>.

Lemma lrc_ext s s' :
  m_temporaryFib s = m_temporaryFib s' -> m_seqMap s = m_seqMap s' ->
  m_highestSeenSeq s = m_highestSeenSeq s' -> m_routeExpiries s = m_routeExpiries s' ->
  m_lifetimeTimers s = m_lifetimeTimers s' ->
  m_pendingControllerRequests s = m_pendingControllerRequests s' ->
  m_controllerDelay s = m_controllerDelay s' -> m_entryLifetime s = m_entryLifetime s' ->
  m_controllerRetryTimeout s = m_controllerRetryTimeout s' ->
  m_controllerRetryLimit s = m_controllerRetryLimit s' ->
  m_generationGuardEnabled s = m_generationGuardEnabled s' -> m_counters s = m_counters s' ->
  s = s'.
Proof. destruct s, s'. cbn. by intros -> -> -> -> -> -> -> -> -> -> -> ->. Qed.

Lemma lrc_wf_count c s : lrc_wf s -> lrc_wf (count c s).
Proof. intros []. by split. Qed.

Lemma lrc_wf_admitted t prefix port seq lifetime expiry id s :
  lrc_wf s -> lrc_wf (admitted t prefix port seq lifetime expiry id s).
Proof.
  intros [H1 H2 H3 H4]. split; cbn.
  - intros p. rewrite !lookup_insert. by case_decide.
  - intros p e. rewrite !lookup_insert. case_decide; [|apply H2].
    intros [= <-]. split; [by eexists|]. by eexists _, _.
  - intros p. rewrite lookup_insert. case_decide as E; [by eexists|].
    intros Hp. apply H3. destruct (0 <? lifetime).
    + by rewrite lookup_insert_ne in Hp.
    + by rewrite lookup_delete_ne in Hp.
  - done.
Qed.

Lemma lrc_wf_withdrawn prefix s : lrc_wf s -> lrc_wf (withdrawn prefix s).
Proof.
  intros [H1 H2 H3 H4]. split; cbn.
  - intros p. rewrite !lookup_delete. by case_decide.
  - intros p e. rewrite !lookup_delete. case_decide; [done|apply H2].
  - intros p. rewrite !lookup_delete. case_decide; [by intros []|apply H3].
  - intros p r. rewrite lookup_delete. case_decide; [done|apply H4].
Qed.

Section controller_facts.
Context {W : Type} {LW : Lens W LocalRouteController} {SW : Scheduler W LrcEvent}.
Context {LL : LensLaws W LocalRouteController} {SL : SchedulerLaws W LrcEvent}.
Context {SF : SchedulerFrame W LocalRouteController LrcEvent}.
Implicit Types (w : W) (s : LocalRouteController).

Lemma over_over (f g : LocalRouteController -> LocalRouteController) w :
  over f (over g w) = over (fun s => f (g s)) w.
Proof. unfold over. by rewrite view_put, put_put. Qed.

Lemma now_over f w : sim_now LrcEvent (over f w) = sim_now LrcEvent w.
Proof. apply now_put. Qed.

Lemma pending_over f w id e : pending (over f w) id e <-> pending w id e.
Proof. apply pending_put. Qed.

Lemma run_get {A} (k : LocalRouteController -> M W A) w : (get ≫= k) w = k (view w) w.
Proof. done. Qed.

Lemma run_upd {A} f (k : unit -> M W A) w : (upd f ≫= k) w = k tt (over f w).
Proof. done. Qed.

Lemma cancel_lifetime_timer_run prefix w :
  exists w', cancel_lifetime_timer prefix w = (w', inr tt) /\
    view w' = view w <| m_lifetimeTimers ::= delete prefix |> /\
    sim_now LrcEvent w' = sim_now LrcEvent w /\
    (forall id e, pending w' id e -> pending w id e).
Proof.
  unfold cancel_lifetime_timer. rewrite run_get.
  destruct (m_lifetimeTimers (view w) !! prefix) as [id|] eqn:E.
  - eexists. split; [reflexivity|]. autorewrite with world. split_and!; [done| |].
    + rewrite now_over. apply now_cancel.
    + intros id' e He. rewrite pending_over in He. by apply pending_cancel in He.
  - exists w. split_and!; try done. unfold set_field, set_m_lifetimeTimers.
    rewrite delete_id by done. by destruct (view w).
Qed.

Lemma cancel_pending_request_run prefix w :
  exists w', cancel_pending_request prefix w = (w', inr tt) /\
    view w' = view w <| m_pendingControllerRequests ::= delete prefix |> /\
    sim_now LrcEvent w' = sim_now LrcEvent w /\
    (forall id e, pending w' id e -> pending w id e).
Proof.
  unfold cancel_pending_request. rewrite run_get.
  destruct (m_pendingControllerRequests (view w) !! prefix) as [r|] eqn:E.
  - eexists. split; [reflexivity|]. autorewrite with world. split_and!; [done| |].
    + rewrite now_over. apply now_cancel.
    + intros id' e He. rewrite pending_over in He. by apply pending_cancel in He.
  - exists w. split_and!; try done. unfold set_field, set_m_pendingControllerRequests.
    rewrite delete_id by done. by destruct (view w).
Qed.

Lemma run_now {A} (k : Z -> M W A) w : (now ≫= k) w = k (sim_now LrcEvent w) w.
Proof. done. Qed.

Lemma run_schedule {A} d e (k : EventId -> M W A) w :
  (schedule d e ≫= k) w = k (sim_schedule d e w).2 (sim_schedule d e w).1.
Proof. apply run_action. Qed.

Lemma fib_replace t prefix port d s :
  lrc_wf s ->
  (TemporaryForwardingTable.insertUntil t prefix port d
     (match m_seqMap s !! prefix with
      | Some _ => (TemporaryForwardingTable.erase prefix (m_temporaryFib s)).1
      | None => m_temporaryFib s
      end)).1 = <[prefix := {[ port := d ]}]> (m_temporaryFib s).
Proof.
  intros Hwf. unfold TemporaryForwardingTable.insertUntil, TemporaryForwardingTable.erase.
  destruct (m_seqMap s !! prefix) as [x|] eqn:E; cbn [fst].
  - rewrite lookup_delete_eq. unfold emplace_hop. rewrite lookup_empty. cbn.
    by rewrite insert_delete_eq.
  - destruct (m_temporaryFib s !! prefix) as [e|] eqn:F.
    { apply (wf_fib s Hwf) in F as [[y Hy] _]. congruence. }
    unfold emplace_hop. by rewrite lookup_empty.
Qed.

Lemma admit_route_run prefix port seq lifetime expiry w :
  lrc_wf (view w) ->
  exists w' id, admit_route prefix port seq lifetime expiry w = (w', inr tt) /\
    view w' = admitted (sim_now LrcEvent w) prefix port seq lifetime expiry id (view w) /\
    sim_now LrcEvent w' = sim_now LrcEvent w /\
    (0 < lifetime -> pending w' id (ExpireEntryBySeq prefix seq)).
Proof.
  intros Hwf. unfold admit_route. rewrite run_get.
  set (w1 := match m_seqMap (view w) !! prefix with
             | Some _ => over (tfib_erase prefix) w | None => w end).
  rewrite (run_seq _ _ w w1 tt) by (unfold w1; by destruct (m_seqMap (view w) !! prefix)).
  assert (view w1 = view w <| m_temporaryFib :=
    match m_seqMap (view w) !! prefix with
    | Some _ => (TemporaryForwardingTable.erase prefix (m_temporaryFib (view w))).1
    | None => m_temporaryFib (view w)
    end |>) as Hv1.
  { unfold w1. destruct (m_seqMap (view w) !! prefix); [by rewrite view_over|by destruct (view w)]. }
  assert (sim_now LrcEvent w1 = sim_now LrcEvent w) as Hn1.
  { unfold w1. destruct (m_seqMap (view w) !! prefix); [apply now_over|done]. }
  clearbody w1. rewrite !run_upd, run_now. cbv zeta. rewrite !run_upd, !over_over, !now_over, Hn1.
  match goal with |- context [over ?g w1] => set (w2 := over g w1) end.
  destruct (cancel_lifetime_timer_run prefix w2) as (w3 & E3 & Hv3 & Hn3 & Hp3).
  rewrite (run_seq _ _ _ _ _ E3).
  assert (forall f, view w2 <| m_lifetimeTimers ::= delete prefix |> <| m_lifetimeTimers ::= f |> =
    view w <| m_temporaryFib ::= <[prefix := {[ port :=
        if 0 <? lifetime then i64 (sim_now LrcEvent w + lifetime) else TimePoint_max ]}]> |>
      <| m_seqMap ::= <[prefix := seq]> |>
      <| m_routeExpiries ::= <[prefix := expiry]> |>
      <| m_lifetimeTimers ::= fun m => f (delete prefix m) |>
      <| m_counters ::= bump tempUpdates |>) as Hv.
  { intros f. unfold w2. rewrite view_over, Hv1. apply lrc_ext; try reflexivity.
    apply (fib_replace (sim_now LrcEvent w) prefix port _ (view w) Hwf). }
  assert (sim_now LrcEvent w3 = sim_now LrcEvent w) as Hn.
  { rewrite Hn3. unfold w2. by rewrite now_over. }
  clearbody w2. clear Hv1 Hn1 Hp3. destruct (Z.ltb_spec 0 lifetime) as [Hl|Hl].
  - rewrite run_schedule. eexists _, _. split; [reflexivity|]. split_and!.
    + rewrite view_over, view_schedule, Hv3, Hv. unfold admitted.
      destruct (Z.ltb_spec 0 lifetime); [|lia].
      apply lrc_ext; try reflexivity. apply insert_delete_eq.
    + by rewrite now_over, now_schedule.
    + intros _. apply pending_over, pending_schedule. by left.
  - eexists _, (mkEventId 0 0). split; [reflexivity|]. split_and!; [|done|lia].
    rewrite Hv3. specialize (Hv (fun x => x)). unfold admitted.
    destruct (Z.ltb_spec 0 lifetime); [lia|]. etrans; [|exact Hv]. by apply lrc_ext.
Qed.
End controller_facts.
