(* ===== verification/LocalRouteControllerSpec.v ===== *)
(** * LocalRouteControllerSpec: what the local route controller promises

    The methods of [LocalRouteController] branch by branch, the state machine
    [lrc_step] they refine, and the invariants of its reachable states. *)
From S2P Require Import Prelude Tlv Names NameMap Simulator TemporaryForwardingTable ControlMessage.
From S2P Require Import LocalRouteController.

(** ** The decisions of the methods *)

(** The guard has seen this generation of the prefix or a later one. *)
Definition seen_stale (s : LocalRouteController) (prefix : Name) (seq : Z) : bool :=
  m_generationGuardEnabled s &&
  match m_highestSeenSeq s !! prefix with Some highest => seq <=? highest | None => false end.

(** The prefix has temporary state of this generation or a later one. *)
Definition held_stale (s : LocalRouteController) (prefix : Name) (seq : Z) : bool :=
  match m_seqMap s !! prefix with Some current => seq <=? current | None => false end.

Definition noted (prefix : Name) (seq : Z) (s : LocalRouteController) : LocalRouteController :=
  if m_generationGuardEnabled s then s <| m_highestSeenSeq ::= <[prefix := seq]> |> else s.

Definition route_lifetime (s : LocalRouteController) (ttl : Z) : Z :=
  if 0 <? MicroSeconds ttl then MicroSeconds ttl else m_entryLifetime s.

Definition route_expiry (t lifetime : Z) : Z := if 0 <? lifetime then i64 (t + lifetime) else 0.

Definition lifetime_conflict (s : LocalRouteController) (ttl : Z) : bool :=
  (0 <? MicroSeconds ttl) && (0 <? m_entryLifetime s)
  && negb (MicroSeconds ttl =? m_entryLifetime s).

(** The temporary route of a prefix without its pending request. *)
Definition route_erased (prefix : Name) (s : LocalRouteController) : LocalRouteController :=
  s <| m_temporaryFib ::= delete prefix |>
    <| m_seqMap ::= delete prefix |>
    <| m_routeExpiries ::= delete prefix |>
    <| m_lifetimeTimers ::= delete prefix |>.

Definition request_dropped (prefix : Name) (s : LocalRouteController) : LocalRouteController :=
  s <| m_pendingControllerRequests ::= delete prefix |>.

Definition request_put (prefix : Name) (r : PendingControllerRequest) (s : LocalRouteController)
    : LocalRouteController :=
  s <| m_pendingControllerRequests ::= <[prefix := r]> |>.

(** A request was counted and, with retries on, recorded under its timer. *)
Definition requested (prefix : Name) (id : EventId) (msg : ControlMessage)
    (s : LocalRouteController) : LocalRouteController :=
  (if 0 <? m_controllerRetryTimeout s
   then request_put prefix
          (mkPendingControllerRequest (msg_seq msg) (m_controllerRetryLimit s) id msg)
   else fun s => s) (count controlPackets s).

Lemma withdrawn_split prefix s : withdrawn prefix s = request_dropped prefix (route_erased prefix s).
Proof. reflexivity. Qed.

Section spec.
Context {W : Type} {LW : Lens W LocalRouteController} {SW : Scheduler W LrcEvent}.
Context {LL : LensLaws W LocalRouteController} {SL : SchedulerLaws W LrcEvent}.
Context {SF : SchedulerFrame W LocalRouteController LrcEvent}.
Implicit Types (w : W) (s : LocalRouteController).

Lemma over_id w f : f (view w) = view w -> over (W := W) (S := LocalRouteController) f w = w.
Proof. intros H. unfold over. rewrite H. apply put_view. Qed.

Lemma guard_admits_run prefix seq w :
  guard_admits prefix seq w =
    if seen_stale (view w) prefix seq then (over (count staleTraceUpdatesRejected) w, inr false)
    else (over (noted prefix seq) w, inr true).
Proof.
  unfold guard_admits, seen_stale. rewrite run_get.
  assert (forall f, m_generationGuardEnabled (view w) = true ->
    over (fun s => s <| m_highestSeenSeq ::= f |>) w = over (fun s =>
      if m_generationGuardEnabled s then s <| m_highestSeenSeq ::= f |> else s) w) as Hover.
  { intros f H. unfold over. by rewrite H. }
  destruct (m_generationGuardEnabled (view w)) eqn:G; simpl.
  - destruct (m_highestSeenSeq (view w) !! prefix) as [h|].
    + destruct (seq <=? h); [done|]. rewrite run_upd. unfold noted. by rewrite <-Hover.
    + rewrite run_upd. unfold noted. by rewrite <-Hover.
  - rewrite over_id; [done|]. unfold noted. by rewrite G.
Qed.

Lemma lrc_wf_noted prefix seq s : lrc_wf s -> lrc_wf (noted prefix seq s).
Proof. intros Hs. unfold noted. destruct (m_generationGuardEnabled s); [|done]. by destruct Hs. Qed.

(** The request: a new record replaces the pending one when retries are on. *)
Lemma request_sync_run cb prefix hashes pLen port seq expiry w :
  let msg := mkControlMessage TYPE_PACKET_IN hashes pLen port prefix seq expiry in
  exists w1 id,
    request_sync (Some cb) prefix hashes pLen port seq expiry w = cb msg w1 /\
    view w1 = requested prefix id msg (view w) /\
    sim_now LrcEvent w1 = sim_now LrcEvent w /\
    (0 < m_controllerRetryTimeout (view w) -> pending w1 id (ControllerRetryTimeout prefix seq)) /\
    (m_pendingControllerRequests (view w) !! prefix = None ->
       forall id' e, pending w id' e -> pending w1 id' e).
Proof.
  intros msg. unfold request_sync, requested. rewrite run_upd. cbv zeta. fold msg. rewrite run_get.
  rewrite view_over. set (w0 := over (count controlPackets) w).
  assert (view w0 = count controlPackets (view w)) as Hv0 by apply view_over.
  change (m_controllerRetryTimeout (count controlPackets (view w)))
    with (m_controllerRetryTimeout (view w)).
  destruct (Z.ltb_spec 0 (m_controllerRetryTimeout (view w))) as [Hr|Hr].
  - destruct (cancel_pending_request_run prefix w0) as (w2 & E2 & Hv2 & Hn2 & _).
    assert (m_pendingControllerRequests (view w) !! prefix = None -> w2 = w0) as Hsame.
    { intros Hnone. unfold cancel_pending_request in E2. rewrite run_get, Hv0 in E2.
      cbn [m_pendingControllerRequests count set_field] in E2.
      change (m_pendingControllerRequests (count controlPackets (view w)))
        with (m_pendingControllerRequests (view w)) in E2.
      rewrite Hnone in E2. by injection E2. }
    assert (m_controllerRetryTimeout (view w2) = m_controllerRetryTimeout (view w)) as Ht
      by (rewrite Hv2, Hv0; reflexivity).
    eexists _, _. split_and!.
    + erewrite run_seq; [reflexivity|].
      rewrite (run_seq _ _ _ _ _ E2), run_get, run_schedule, Ht. reflexivity.
    + rewrite view_over, view_schedule, Hv2, Hv0. apply lrc_ext; try reflexivity.
      cbn. by rewrite insert_delete_eq.
    + rewrite now_over, now_schedule, Hn2. apply now_over.
    + intros _. apply pending_over, pending_schedule. by left.
    + intros Hnone id' e He. apply pending_over, pending_schedule. right.
      rewrite Hsame by done. by apply pending_over.
  - exists w0, (mkEventId 0 0). split_and!; [done|done|apply now_over|lia|].
    intros _ id' e He. by apply pending_over.
Qed.

(** The world in which [applyTraceUpdate] calls the request callback: what it has
    stored and armed by then. *)
Record published (cb : bool) (prefix : Name) (port seq lifetime : Z) (msg : ControlMessage)
    (w w1 : W) : Prop := {
  pub_now : sim_now LrcEvent w1 = sim_now LrcEvent w;
  pub_view : exists id id',
    let s1 := admitted (sim_now LrcEvent w) prefix port seq lifetime (routeExpiry msg) id
                (noted prefix seq (view w)) in
    view w1 = (if cb then requested prefix id' msg s1 else s1) /\
    (cb = true -> 0 < m_controllerRetryTimeout (view w) ->
       pending w1 id' (ControllerRetryTimeout prefix seq)) /\
    (0 < lifetime -> m_pendingControllerRequests (view w) !! prefix = None ->
       pending w1 id (ExpireEntryBySeq prefix seq))
}.

Lemma applyTraceUpdate_run cb prefix hashes pLen port seq ttl w :
  0 <= ttl -> lifetime_conflict (view w) ttl = false ->
  applyTraceUpdate cb prefix hashes pLen port seq ttl w =
    if seen_stale (view w) prefix seq then (over (count staleTraceUpdatesRejected) w, inr false)
    else
      let w' := over (noted prefix seq) w in
      if held_stale (view w) prefix seq
      then (over (count staleTraceUpdatesRejected) w', inr false)
      else
        let lifetime := route_lifetime (view w) ttl in
        let expiry := route_expiry (sim_now LrcEvent w) lifetime in
        (admit_route prefix port seq lifetime expiry;;
         request_sync cb prefix hashes pLen port seq expiry;; mret true) w'.
Proof.
  intros Httl Hconf. unfold applyTraceUpdate. destruct (Z.ltb_spec ttl 0); [lia|].
  cbv zeta. rewrite run_get. fold (lifetime_conflict (view w) ttl). rewrite Hconf, run_now.
  pose proof (guard_admits_run prefix seq w) as Hg.
  destruct (seen_stale (view w) prefix seq).
  { rewrite (run_seq _ _ _ _ _ Hg). done. }
  rewrite (run_seq _ _ _ _ _ Hg). cbn [negb]. rewrite run_get, view_over.
  replace (m_seqMap (noted prefix seq (view w))) with (m_seqMap (view w))
    by (unfold noted; by destruct (m_generationGuardEnabled (view w))).
  fold (held_stale (view w) prefix seq).
  destruct (held_stale (view w) prefix seq); [by rewrite run_upd|].
  unfold route_lifetime, route_expiry. done.
Qed.

Lemma admit_publish cb prefix hashes pLen port seq lifetime expiry w :
  lrc_wf (view w) ->
  let msg := mkControlMessage TYPE_PACKET_IN hashes pLen port prefix seq expiry in
  exists w1,
    (admit_route prefix port seq lifetime expiry;;
     request_sync cb prefix hashes pLen port seq expiry;; mret true) (over (noted prefix seq) w)
      = (match cb with Some f => f msg;; mret true | None => mret true end) w1 /\
    published (if cb then true else false) prefix port seq lifetime msg w w1.
Proof.
  intros Hwf msg. set (w0 := over (noted prefix seq) w).
  assert (view w0 = noted prefix seq (view w)) as Hv0 by apply view_over.
  assert (sim_now LrcEvent w0 = sim_now LrcEvent w) as Hn0 by apply now_over.
  destruct (admit_route_run prefix port seq lifetime expiry w0) as (w2 & id & E2 & Hv2 & Hn2 & Hp2).
  { rewrite Hv0. by apply lrc_wf_noted. }
  rewrite Hv0, Hn0 in Hv2. rewrite Hn0 in Hn2. rewrite (run_seq _ _ _ _ _ E2).
  clearbody w0. destruct cb as [f|].
  - destruct (request_sync_run f prefix hashes pLen port seq expiry w2)
      as (w1 & id' & E1 & Hv1 & Hn1 & Hr1 & Hk1). exists w1. split.
    { unfold mbind, M_bind. rewrite E1. done. }
    assert (m_controllerRetryTimeout (view w2) = m_controllerRetryTimeout (view w) /\
      m_pendingControllerRequests (view w2) = m_pendingControllerRequests (view w)) as (Ht & Hq).
    { rewrite Hv2. unfold noted. by destruct (m_generationGuardEnabled (view w)). }
    rewrite Ht in Hr1. rewrite Hq in Hk1.
    split; [by rewrite Hn1|]. exists id, id'. cbv zeta. split_and!.
    + by rewrite Hv1, Hv2.
    + done.
    + intros Hlt Hnone. auto.
  - exists w2. split; [done|]. split; [done|]. exists id, id. split_and!; [done|done|auto].
Qed.

(** *** Responses *)
Lemma erase_route_run prefix w :
  exists w1,
    (forall A (k : M W A),
       (upd (tfib_erase prefix);;
        upd (fun s => s <| m_seqMap ::= delete prefix |>);;
        upd (fun s => s <| m_routeExpiries ::= delete prefix |>);;
        cancel_lifetime_timer prefix;; k) w = k w1) /\
    view w1 = route_erased prefix (view w) /\ sim_now LrcEvent w1 = sim_now LrcEvent w /\
    (forall id e, pending w1 id e -> pending w id e).
Proof.
  set (g := fun s => tfib_erase prefix s <| m_seqMap ::= delete prefix |>
    <| m_routeExpiries ::= delete prefix |>).
  destruct (cancel_lifetime_timer_run prefix (over g w)) as (w2 & E2 & Hv2 & Hn2 & Hp2).
  exists w2. split.
  { intros A k. by rewrite !run_upd, !over_over, (run_seq _ _ _ _ _ E2). }
  split.
  - rewrite Hv2, view_over. unfold g. by apply lrc_ext.
  - split; [by rewrite Hn2, now_over|]. intros id e He. apply Hp2 in He. by rewrite pending_over in He.
Qed.

(** The acknowledgement belongs to the temporary route its prefix has now. *)
Definition ack_matches (t : Z) (s : LocalRouteController) (message : ControlMessage) : Prop :=
  msg_type message = TYPE_SYNC_ACK /\
  exists current expiry,
    m_seqMap s !! msg_prefix message = Some current /\
    (msg_seq message = current \/ (m_generationGuardEnabled s = false /\ msg_seq message = 0)) /\
    m_routeExpiries s !! msg_prefix message = Some expiry /\
    routeExpiry message = expiry /\ ~ (0 < expiry <= t).

#[export] Instance ack_matches_dec t s message : Decision (ack_matches t s message).
Proof.
  unfold ack_matches. apply and_dec; [apply _|].
  destruct (m_seqMap s !! msg_prefix message) as [current|]; [|right; naive_solver].
  destruct (m_routeExpiries s !! msg_prefix message) as [expiry|]; [|right; naive_solver].
  destruct (decide ((msg_seq message = current \/
      (m_generationGuardEnabled s = false /\ msg_seq message = 0)) /\
    routeExpiry message = expiry /\ ~ (0 < expiry <= t))); [left|right]; naive_solver.
Defined.

Lemma ack_accepted_run cb message w :
  ack_matches (sim_now LrcEvent w) (view w) message ->
  exists w1,
    handleControlResponse cb message w
      = (match cb with Some f => f (msg_prefix message);; mret true | None => mret true end) w1 /\
    view w1 = withdrawn (msg_prefix message) (count syncCompletions (view w)) /\
    sim_now LrcEvent w1 = sim_now LrcEvent w.
Proof.
  intros (Ht & current & expiry & Hc & Hseq & He & Hre & Hlive). unfold handleControlResponse.
  rewrite bool_decide_true by done. cbn [negb]. cbv zeta. rewrite run_get, Hc, He.
  replace (_ || _) with false; [|symmetry; apply orb_false_iff;
    rewrite !andb_false_iff, !negb_false_iff, !Z.eqb_eq;
    destruct Hseq as [->|[-> ->]]; split; auto].
  rewrite run_now. destruct (andb_true_iff (0 <? expiry) (expiry <=? sim_now LrcEvent w)) as [Ha _].
  destruct ((0 <? expiry) && _); [specialize (Ha eq_refl); lia|].
  rewrite Hre, Z.eqb_refl. cbn [negb]. rewrite run_upd.
  destruct (erase_route_run (msg_prefix message) (over (count syncCompletions) w))
    as (w2 & E2 & Hv2 & Hn2 & _). rewrite E2.
  destruct (cancel_pending_request_run (msg_prefix message) w2) as (w3 & E3 & Hv3 & Hn3 & _).
  exists w3. rewrite (run_seq _ _ _ _ _ E3). split_and!.
  - unfold mbind, M_bind. by destruct cb.
  - rewrite Hv3, Hv2, view_over. by apply lrc_ext.
  - by rewrite Hn3, Hn2, now_over.
Qed.

Lemma ack_rejected_run cb message w :
  lrc_wf (view w) ->
  ~ ack_matches (sim_now LrcEvent w) (view w) message ->
  handleControlResponse cb message w = (w, inr false) \/
  exists c, c ∈ [staleSyncAcksRejected; noPendingSyncAcksRejected; expiredSyncAcksRejected] /\
    handleControlResponse cb message w = (over (count c) w, inr false).
Proof.
  intros Hwf Hno. unfold handleControlResponse.
  destruct (decide (msg_type message = TYPE_SYNC_ACK)) as [Ht|Ht];
    [rewrite bool_decide_true by done|rewrite bool_decide_false by done; by left].
  cbn [negb]. cbv zeta. rewrite run_get. right.
  destruct (m_seqMap (view w) !! msg_prefix message) as [current|] eqn:Hc.
  2: { case_match; eexists; (split; [|reflexivity]); rewrite !elem_of_cons; auto. }
  case_match eqn:Hg.
  { eexists. split; [|reflexivity]. rewrite !elem_of_cons. auto. }
  destruct (proj2 (wf_expiry _ Hwf (msg_prefix message))) as [expiry He]; [by eexists|].
  rewrite He, run_now. case_match eqn:Hx.
  { eexists. split; [|reflexivity]. rewrite !elem_of_cons. auto. }
  destruct (Z.eqb_spec (routeExpiry message) expiry) as [Hre|Hre]; cbn [negb];
    [exfalso|eexists; split; [|reflexivity]; rewrite !elem_of_cons; by auto].
  apply Hno. split; [done|]. exists current, expiry. split_and!; [done| |done|done|].
  - apply orb_false_iff in Hg. rewrite !andb_false_iff, !negb_false_iff, !Z.eqb_eq in Hg.
    destruct (m_generationGuardEnabled (view w)); naive_solver.
  - apply andb_false_iff in Hx. rewrite Z.ltb_ge, Z.leb_gt in Hx. lia.
Qed.

(** *** Timers *)
Lemma expire_current_run prefix seq w :
  m_seqMap (view w) !! prefix = Some seq ->
  exists w1,
    expireEntryBySeq prefix seq w = (w1, inr tt) /\
    view w1 = (match m_pendingControllerRequests (view w) !! prefix with
               | Some r => if req_seq r =? seq then request_dropped prefix else fun s => s
               | None => fun s => s
               end) (route_erased prefix (view w)) /\
    sim_now LrcEvent w1 = sim_now LrcEvent w /\ (forall id e, pending w1 id e -> pending w id e).
Proof.
  intros Hs. unfold expireEntryBySeq. rewrite run_get, bool_decide_true by done.
  set (w0 := over (fun s => s <| m_routeExpiries ::= delete prefix |>)
    (over (fun s => s <| m_seqMap ::= delete prefix |>) (over (tfib_erase prefix) w))).
  assert (view w0 = tfib_erase prefix (view w) <| m_seqMap ::= delete prefix |>
    <| m_routeExpiries ::= delete prefix |>) as Hv0 by (unfold w0; by rewrite !view_over).
  assert (sim_now LrcEvent w0 = sim_now LrcEvent w) as Hn0
    by (unfold w0; by rewrite !now_over).
  assert (forall id (e : LrcEvent), pending w0 id e -> pending w id e) as Hp0
    by (intros id e; unfold w0; by rewrite !pending_over).
  assert (m_pendingControllerRequests (view w0) = m_pendingControllerRequests (view w)) as Hq
    by (rewrite Hv0; reflexivity).
  repeat (rewrite run_assoc, run_upd). fold w0. rewrite run_assoc, run_get, Hq. clearbody w0.
  destruct (m_pendingControllerRequests (view w) !! prefix) as [r|].
  2: { eexists. split; [reflexivity|]. split; [|split; [by rewrite now_over|intros id e; rewrite pending_over; apply Hp0]].
       rewrite view_over, Hv0. by apply lrc_ext. }
  destruct (req_seq r =? seq).
  - eexists. split; [reflexivity|]. split.
    + rewrite !view_over, view_cancel, Hv0. by apply lrc_ext.
    + split; [by rewrite !now_over, now_cancel|]. intros id e. rewrite !pending_over.
      intros He%pending_cancel. by apply Hp0.
  - eexists. split; [reflexivity|]. split; [|split; [by rewrite now_over|intros id e; rewrite pending_over; apply Hp0]].
    rewrite view_over, Hv0. by apply lrc_ext.
Qed.

Lemma expire_superseded_run prefix seq w :
  m_seqMap (view w) !! prefix <> Some seq ->
  expireEntryBySeq prefix seq w
    = (over (fun s => s <| m_lifetimeTimers ::= delete prefix |>) w, inr tt).
Proof.
  intros Hs. unfold expireEntryBySeq. by rewrite run_get, bool_decide_false by done.
Qed.

(** What a retry does with its request: one attempt less. *)
Definition retried (r : PendingControllerRequest) : PendingControllerRequest :=
  mkPendingControllerRequest (req_seq r) (i32 (retriesLeft r - 1)) (timer r) (req_msg r).

(** After the retry was sent: a request still pending gets its next timer. *)
Definition rearm (prefix : Name) (seq : Z) : M W unit :=
  s ← get;
  match m_pendingControllerRequests s !! prefix with
  | Some rec =>
      if req_seq rec =? seq then
        id ← schedule (m_controllerRetryTimeout s) (ControllerRetryTimeout prefix seq);
        upd (request_put prefix
               (mkPendingControllerRequest (req_seq rec) (retriesLeft rec) id (req_msg rec)))
      else mret tt
  | None => mret tt
  end.

Lemma retry_none_run cb prefix seq w :
  (forall r, m_pendingControllerRequests (view w) !! prefix = Some r -> req_seq r <> seq) ->
  onControllerRetryTimeout cb prefix seq w = (w, inr tt).
Proof.
  intros H. unfold onControllerRetryTimeout. rewrite run_get.
  destruct (m_pendingControllerRequests (view w) !! prefix) as [r|]; [|done].
  specialize (H r eq_refl). by rewrite (proj2 (Z.eqb_neq _ _) H).
Qed.

Lemma retry_superseded_run cb prefix seq r w :
  m_pendingControllerRequests (view w) !! prefix = Some r -> req_seq r = seq ->
  m_seqMap (view w) !! prefix <> Some seq ->
  onControllerRetryTimeout cb prefix seq w = (over (request_dropped prefix) w, inr tt).
Proof.
  intros Hr Hseq Hs. unfold onControllerRetryTimeout. rewrite run_get, Hr.
  by rewrite (proj2 (Z.eqb_eq _ _) Hseq), bool_decide_false by done.
Qed.

Lemma retry_again_run cb prefix seq r w :
  m_pendingControllerRequests (view w) !! prefix = Some r -> req_seq r = seq ->
  m_seqMap (view w) !! prefix = Some seq -> 0 < retriesLeft r ->
  onControllerRetryTimeout cb prefix seq w =
    ((match cb with Some f => f (req_msg r) | None => mret tt end);; rearm prefix seq)
      (over (fun s => request_put prefix (retried r)
               (count controlPackets (count controllerRetries s))) w).
Proof.
  intros Hr Hseq Hs Hl. unfold onControllerRetryTimeout. rewrite run_get, Hr.
  rewrite (proj2 (Z.eqb_eq _ _) Hseq), bool_decide_true by done. cbn [negb].
  rewrite (proj2 (Z.ltb_lt _ _) Hl), !run_upd, !over_over. done.
Qed.

Lemma retry_exhausted_run cb prefix seq r w :
  m_pendingControllerRequests (view w) !! prefix = Some r -> req_seq r = seq ->
  m_seqMap (view w) !! prefix = Some seq -> retriesLeft r <= 0 ->
  exists w1,
    onControllerRetryTimeout cb prefix seq w = (w1, inr tt) /\
    view w1 = withdrawn prefix (count temporaryRouteWithdrawals (view w)) /\
    sim_now LrcEvent w1 = sim_now LrcEvent w /\ (forall id e, pending w1 id e -> pending w id e).
Proof.
  intros Hr Hseq Hs Hl. unfold onControllerRetryTimeout. rewrite run_get, Hr.
  rewrite (proj2 (Z.eqb_eq _ _) Hseq), bool_decide_true by done. cbn [negb].
  destruct (Z.ltb_spec 0 (retriesLeft r)); [lia|]. rewrite run_upd.
  destruct (erase_route_run prefix (over (count temporaryRouteWithdrawals) w))
    as (w2 & E2 & Hv2 & Hn2 & Hp2). rewrite E2. eexists. split; [reflexivity|]. split.
  - rewrite view_over, Hv2, view_over. by apply lrc_ext.
  - split; [by rewrite now_over, Hn2, now_over|]. intros id e. rewrite pending_over. intros He%Hp2.
    by rewrite pending_over in He.
Qed.
End spec.

(** ** The controller as a state machine

    One step is what a method does to the state between two points where other
    code can run. *)
Inductive lrc_step : LocalRouteController -> LocalRouteController -> Prop :=
| step_count c s : lrc_step s (count c s)
| step_note prefix seq s :
    seen_stale s prefix seq = false -> lrc_step s (noted prefix seq s)
| step_admit t prefix port seq lifetime expiry id s :
    seen_stale s prefix seq = false -> held_stale s prefix seq = false ->
    lrc_step s (admitted t prefix port seq lifetime expiry id (noted prefix seq s))
| step_request prefix r s :
    m_seqMap s !! prefix = Some (req_seq r) -> retriesLeft r = m_controllerRetryLimit s ->
    msg_prefix (req_msg r) = prefix -> msg_seq (req_msg r) = req_seq r ->
    lrc_step s (request_put prefix r s)
| step_retry prefix r s :
    m_pendingControllerRequests s !! prefix = Some r ->
    m_seqMap s !! prefix = Some (req_seq r) -> 0 < retriesLeft r ->
    lrc_step s (request_put prefix (retried r) s)
| step_rearm prefix r id s :
    m_pendingControllerRequests s !! prefix = Some r ->
    lrc_step s (request_put prefix
      (mkPendingControllerRequest (req_seq r) (retriesLeft r) id (req_msg r)) s)
| step_drop_request prefix s : lrc_step s (request_dropped prefix s)
| step_erase_route prefix s : lrc_step s (route_erased prefix s)
| step_forget_timer prefix s : lrc_step s (s <| m_lifetimeTimers ::= delete prefix |>)
| step_prune fib s :                          (* a lookup drops expired entries *)
    fib ⊆ m_temporaryFib s -> lrc_step s (s <| m_temporaryFib := fib |>).

Abbreviation lrc_steps := (rtc lrc_step).

Lemma lrc_steps_cons s s' s'' : lrc_step s s' -> lrc_steps s' s'' -> lrc_steps s s''.
Proof. apply rtc_l. Qed.

Lemma withdrawn_steps prefix s : lrc_steps s (withdrawn prefix s).
Proof.
  rewrite withdrawn_split.
  eapply lrc_steps_cons; [apply (step_erase_route prefix)|]. apply rtc_once.
  apply step_drop_request.
Qed.

Lemma lrc_wf_request_put prefix r s :
  lrc_wf s -> msg_prefix (req_msg r) = prefix -> msg_seq (req_msg r) = req_seq r ->
  lrc_wf (request_put prefix r s).
Proof.
  intros [H1 H2 H3 H4] Hp Hs. split; try done. intros p r'. cbn.
  rewrite lookup_insert. case_decide as E; [|apply H4]. intros [= <-]. by subst p.
Qed.

Lemma lrc_wf_step s s' : lrc_step s s' -> lrc_wf s -> lrc_wf s'.
Proof.
  destruct 1 as [| | |prefix r s| prefix r s Hr |prefix r id s Hr |prefix s|prefix s|prefix s
    |fib s Hsub]; intros Hwf.
  - by apply lrc_wf_count.
  - by apply lrc_wf_noted.
  - by apply lrc_wf_admitted, lrc_wf_noted.
  - by apply lrc_wf_request_put.
  - destruct (wf_request s Hwf _ _ Hr). by apply lrc_wf_request_put.
  - destruct (wf_request s Hwf _ _ Hr). by apply lrc_wf_request_put.
  - destruct Hwf as [H1 H2 H3 H4]. split; try done. intros p r'. cbn.
    rewrite lookup_delete. case_decide; [done|apply H4].
  - destruct (lrc_wf_withdrawn prefix s Hwf) as [H1 H2 H3 _]. destruct Hwf as [_ _ _ H4]. by split.
  - destruct Hwf as [H1 H2 H3 H4]. split; try done. intros p. cbn.
    rewrite lookup_delete. case_decide; [by intros []|apply H3].
  - destruct Hwf as [H1 H2 H3 H4]. split; try done. intros p e He. cbn in He.
    apply H2. by eapply lookup_weaken.
Qed.

Lemma lrc_wf_steps s s' : lrc_steps s s' -> lrc_wf s -> lrc_wf s'.
Proof. induction 1; eauto using lrc_wf_step. Qed.

(** Looking a name up only drops entries whose hop has expired. *)
Lemma pruneAndFind_subset t p fib :
  (forall q e, fib !! q = Some e -> exists port d, e = {[ port := d ]}) ->
  (pruneAndFind t p fib).1 ⊆ fib.
Proof.
  intros Hs. unfold pruneAndFind. destruct (fib !! p) as [e|] eqn:E; [|done].
  case_bool_decide as Hp; cbn [fst]; [apply delete_subseteq|].
  destruct (Hs p e E) as (port & d & ->). unfold pruneExpiredHops in *.
  rewrite map_filter_singleton in *. case_decide; [|done]. by rewrite insert_id.
Qed.

Lemma findLongestPrefix_subset t name fib :
  (forall q e, fib !! q = Some e -> exists port d, e = {[ port := d ]}) ->
  (findLongestPrefix t name fib).1 ⊆ fib.
Proof.
  unfold findLongestPrefix. generalize (prefixes name) as ps. intros ps.
  revert fib. induction ps as [|p ps IH]; intros fib Hs; cbn [find_first]; [done|].
  pose proof (pruneAndFind_subset t p fib Hs) as Hsub.
  destruct (pruneAndFind t p fib) as [fib' [e|]]; [done|]. cbn in Hsub.
  etrans; [|exact Hsub]. apply IH. intros q e He. eapply Hs. by eapply lookup_weaken.
Qed.

Lemma lookup_prunes t name s :
  lrc_wf s -> lrc_steps s (s <| m_temporaryFib ::= fun fib => (findLongestPrefix t name fib).1 |>).
Proof.
  intros Hwf. apply rtc_once. apply (step_prune (findLongestPrefix t name (m_temporaryFib s)).1).
  apply findLongestPrefix_subset. intros q e He. by apply (wf_fib s Hwf q e He).
Qed.

(** A method that only takes steps of the machine from a consistent state. *)
Definition steps_only {W A} `{!Lens W LocalRouteController} (m : M W A) : Prop :=
  forall w, lrc_wf (view w) -> lrc_steps (view w) (view (m w).1).

Section refinement.
Context {W : Type} {LW : Lens W LocalRouteController} {SW : Scheduler W LrcEvent}.
Context {LL : LensLaws W LocalRouteController} {SL : SchedulerLaws W LrcEvent}.
Context {SF : SchedulerFrame W LocalRouteController LrcEvent}.
Implicit Types (w : W) (s : LocalRouteController).

Lemma steps_only_ret {A} (a : A) : steps_only (W := W) (mret a).
Proof. intros w _. apply rtc_refl. Qed.

Lemma steps_only_bind {A B} (m : M W A) (k : A -> M W B) :
  steps_only m -> (forall a, steps_only (k a)) -> steps_only (m ≫= k).
Proof.
  intros Hm Hk w Hwf. pose proof (Hm w Hwf) as H1. unfold mbind, M_bind.
  destruct (m w) as [w' [e|a]]; [done|]. cbn in H1. etrans; [exact H1|].
  apply Hk. by eapply lrc_wf_steps.
Qed.

Lemma steps_only_over (f : LocalRouteController -> LocalRouteController) (A : Type) (r : A) :
  (forall s, lrc_wf s -> lrc_steps s (f s)) -> steps_only (W := W) (fun w => (over f w, inr r)).
Proof. intros H w Hwf. cbn. rewrite view_over. by apply H. Qed.

Lemma steps_only_opt {A} (cb : option (A -> M W unit)) a :
  (forall f, cb = Some f -> forall a, steps_only (f a)) ->
  steps_only (match cb with Some f => f a | None => mret tt end).
Proof. intros H. destruct cb as [f|]; [by apply H|apply steps_only_ret]. Qed.

Lemma steps_count c s : lrc_steps s (count c s).
Proof. apply rtc_once, step_count. Qed.

Lemma admitted_steps (cb : bool) prefix port seq lifetime msg w w1 :
  msg_prefix msg = prefix -> msg_seq msg = seq ->
  seen_stale (view w) prefix seq = false -> held_stale (view w) prefix seq = false ->
  published cb prefix port seq lifetime msg w w1 -> lrc_steps (view w) (view w1).
Proof.
  intros Hp Hm Hs Hh [_ (id & id' & Hv & _)].
  set (s1 := admitted _ _ _ _ _ _ _ _) in Hv.
  assert (lrc_step (view w) s1) as Ha by by apply step_admit.
  assert (m_seqMap s1 !! prefix = Some seq) as Hseq by apply lookup_insert_eq.
  eapply lrc_steps_cons; [exact Ha|]. rewrite Hv. clearbody s1. clear Hv.
  destruct cb; [|apply rtc_refl]. unfold requested.
  destruct (0 <? m_controllerRetryTimeout s1); [|apply steps_count].
  eapply lrc_steps_cons; [apply (step_count controlPackets)|]. apply rtc_once.
  apply step_request; cbn; [by rewrite Hm|done..].
Qed.

Lemma rearm_steps prefix seq : steps_only (W := W) (rearm prefix seq).
Proof.
  intros w Hwf. unfold rearm. rewrite run_get.
  destruct (m_pendingControllerRequests (view w) !! prefix) as [r|] eqn:Hr; [|apply rtc_refl].
  destruct (req_seq r =? seq); [|apply rtc_refl]. rewrite run_schedule. cbn.
  rewrite view_over, view_schedule. apply rtc_once. by apply step_rearm.
Qed.

Lemma applyTraceUpdate_steps cb prefix hashes pLen port seq ttl :
  (forall f, cb = Some f -> forall m, steps_only (f m)) ->
  steps_only (applyTraceUpdate (W := W) cb prefix hashes pLen port seq ttl).
Proof.
  intros Hcb w Hwf.
  destruct (Z.ltb_spec ttl 0) as [Hneg|Hpos].
  { unfold applyTraceUpdate. by rewrite (proj2 (Z.ltb_lt _ _) Hneg). }
  destruct (lifetime_conflict (view w) ttl) eqn:Hc.
  { unfold applyTraceUpdate. destruct (Z.ltb_spec ttl 0); [lia|]. cbv zeta. rewrite run_get.
    unfold lifetime_conflict in Hc. by rewrite Hc. }
  rewrite applyTraceUpdate_run by done.
  destruct (seen_stale (view w) prefix seq) eqn:Hs.
  { cbn. rewrite view_over. apply steps_count. }
  cbv zeta. destruct (held_stale (view w) prefix seq) eqn:Hh.
  { cbn. rewrite !view_over. eapply lrc_steps_cons; [by apply (step_note prefix seq)|].
    apply steps_count. }
  destruct (admit_publish cb prefix hashes pLen port seq (route_lifetime (view w) ttl)
    (route_expiry (sim_now LrcEvent w) (route_lifetime (view w) ttl)) w Hwf) as (w1 & E & Hp).
  rewrite E. clear E. apply admitted_steps in Hp as H1; [|done..].
  etrans; [exact H1|]. pose proof (lrc_wf_steps _ _ H1 Hwf) as Hwf1. clear Hp H1.
  destruct cb as [f|]; [|apply rtc_refl].
  apply steps_only_bind; [by apply Hcb|intros; apply steps_only_ret|done].
Qed.

Lemma handleControlResponse_steps cb message :
  (forall f, cb = Some f -> forall p, steps_only (f p)) ->
  steps_only (handleControlResponse (W := W) cb message).
Proof.
  intros Hcb w Hwf.
  destruct (decide (ack_matches (sim_now LrcEvent w) (view w) message)) as [Hm|Hm].
  - destruct (ack_accepted_run cb message w Hm) as (w1 & E & Hv & _). rewrite E. clear E.
    assert (lrc_steps (view w) (view w1)) as H1.
    { rewrite Hv. eapply lrc_steps_cons; [apply (step_count syncCompletions)|].
      apply withdrawn_steps. }
    etrans; [exact H1|]. destruct cb as [f|]; [|apply rtc_refl].
    apply steps_only_bind; [by apply Hcb|intros; apply steps_only_ret|by eapply lrc_wf_steps].
  - destruct (ack_rejected_run cb message w Hwf Hm) as [->|(c & _ & ->)]; [apply rtc_refl|].
    cbn. rewrite view_over. apply steps_count.
Qed.

Lemma expireEntryBySeq_steps prefix seq : steps_only (W := W) (expireEntryBySeq prefix seq).
Proof.
  intros w Hwf. destruct (decide (m_seqMap (view w) !! prefix = Some seq)) as [Hs|Hs].
  - destruct (expire_current_run prefix seq w Hs) as (w1 & -> & Hv & _). cbn [fst]. rewrite Hv.
    eapply lrc_steps_cons; [apply (step_erase_route prefix)|].
    destruct (m_pendingControllerRequests (view w) !! prefix) as [r|]; [|apply rtc_refl].
    destruct (req_seq r =? seq); [|apply rtc_refl]. apply rtc_once, step_drop_request.
  - rewrite expire_superseded_run by done. cbn. rewrite view_over.
    apply rtc_once, step_forget_timer.
Qed.

Lemma onControllerRetryTimeout_steps cb prefix seq :
  (forall f, cb = Some f -> forall m, steps_only (f m)) ->
  steps_only (W := W) (onControllerRetryTimeout cb prefix seq).
Proof.
  intros Hcb w Hwf.
  destruct (m_pendingControllerRequests (view w) !! prefix) as [r|] eqn:Hr.
  2: { rewrite retry_none_run; [apply rtc_refl|]. intros r. by rewrite Hr. }
  destruct (decide (req_seq r = seq)) as [Hq|Hq].
  2: { rewrite retry_none_run; [apply rtc_refl|]. intros r'. rewrite Hr. by intros [= <-]. }
  destruct (decide (m_seqMap (view w) !! prefix = Some seq)) as [Hs|Hs].
  2: { rewrite (retry_superseded_run cb prefix seq r w Hr Hq Hs). cbn. rewrite view_over.
       apply rtc_once, step_drop_request. }
  destruct (Z.lt_ge_cases 0 (retriesLeft r)) as [Hl|Hl].
  - rewrite (retry_again_run cb prefix seq r w Hr Hq Hs Hl).
    set (w1 := over _ w).
    assert (lrc_steps (view w) (view w1)) as H1.
    { unfold w1. rewrite view_over. eapply lrc_steps_cons; [apply (step_count controllerRetries)|].
      eapply lrc_steps_cons; [apply (step_count controlPackets)|]. apply rtc_once.
      apply step_retry; [done|by rewrite Hq|done]. }
    etrans; [exact H1|]. apply steps_only_bind; [|intros; apply rearm_steps|by eapply lrc_wf_steps].
    by apply steps_only_opt.
  - destruct (retry_exhausted_run cb prefix seq r w Hr Hq Hs Hl) as (w1 & -> & Hv & _).
    cbn [fst]. rewrite Hv.
    eapply lrc_steps_cons; [apply (step_count temporaryRouteWithdrawals)|]. apply withdrawn_steps.
Qed.
End refinement.

(** The guard's record of a prefix never falls back, and covers what is held. *)
Lemma step_guard s s' : lrc_step s s' -> m_generationGuardEnabled s' = m_generationGuardEnabled s.
Proof.
  destruct 1; try reflexivity; unfold noted; by destruct (m_generationGuardEnabled s) eqn:?.
Qed.

Lemma steps_guard s s' : lrc_steps s s' -> m_generationGuardEnabled s' = m_generationGuardEnabled s.
Proof. induction 1 as [|s1 s2 s3 H1 _ IH]; [done|]. by rewrite IH, (step_guard _ _ H1). Qed.

Lemma step_highest s s' p h :
  lrc_step s s' -> m_generationGuardEnabled s = true -> m_highestSeenSeq s !! p = Some h ->
  exists h', m_highestSeenSeq s' !! p = Some h' /\ h <= h'.
Proof.
  intros Hstep G Hh. assert (forall q seq, seen_stale s q seq = false ->
    exists h', m_highestSeenSeq (noted q seq s) !! p = Some h' /\ h <= h') as Hnote.
  { intros q seq Hs. unfold noted. rewrite G. cbn. rewrite lookup_insert.
    case_decide as E; [|by exists h]. subst. exists seq. split; [done|].
    unfold seen_stale in *. rewrite G, Hh in *. cbn in *. lia. }
  destruct Hstep; try (exists h; split; [exact Hh|lia]); by apply Hnote.
Qed.

Lemma steps_highest s s' p h :
  lrc_steps s s' -> m_generationGuardEnabled s = true -> m_highestSeenSeq s !! p = Some h ->
  m_generationGuardEnabled s' = true /\
  exists h', m_highestSeenSeq s' !! p = Some h' /\ h <= h'.
Proof.
  intros Hs. revert h. induction Hs as [s|s1 s2 s3 H1 _ IH]; intros h G Hh; [by eauto with lia|].
  destruct (step_highest s1 s2 p h H1 G Hh) as (h2 & Hh2 & Hle).
  destruct (IH h2) as (G3 & h3 & Hh3 & Hle3); [by rewrite (step_guard s1 s2 H1)|done|].
  split; [done|]. exists h3. split; [done|lia].
Qed.

(** Under the guard every held generation has been noted. *)
Definition held_noted (s : LocalRouteController) : Prop :=
  m_generationGuardEnabled s = true -> forall p q, m_seqMap s !! p = Some q ->
  exists h, m_highestSeenSeq s !! p = Some h /\ q <= h.

Lemma held_noted_step s s' : lrc_step s s' -> held_noted s -> held_noted s'.
Proof.
  intros Hstep Hn G. rewrite (step_guard _ _ Hstep) in G. specialize (Hn G).
  assert (forall m : gmap Name Z, (forall p, m !! p = None \/ m !! p = m_seqMap s !! p) ->
    forall p q, m !! p = Some q -> exists h, m_highestSeenSeq s' !! p = Some h /\ q <= h) as Hsub.
  { intros m Hm p q Hq. destruct (Hm p) as [E|E]; rewrite E in Hq; [done|].
    destruct (Hn p q Hq) as (h & Hh & Hle).
    destruct (step_highest _ _ _ _ Hstep G Hh) as (h' & Hh' & Hle').
    exists h'. split; [done|lia]. }
  destruct Hstep; try (apply Hsub; intros p; by right).
  - apply Hsub. intros p. right. unfold noted. by destruct (m_generationGuardEnabled s).
  - intros p q. cbn. rewrite lookup_insert. case_decide as E.
    + intros [= <-]. subst p. exists seq. split; [|lia].
      unfold noted. rewrite G. apply lookup_insert_eq.
    + apply Hsub. intros p'. right. unfold noted. by destruct (m_generationGuardEnabled s).
  - apply Hsub. intros p. cbn. rewrite lookup_delete. case_decide; auto.
Qed.

(** Under the guard a generation of a prefix has one hop in all its life: once
    it is noted, no later step gives it another. *)
Record only_hop (p : Name) (seq : Z) (hop : ForwardingEntry) (s : LocalRouteController) : Prop := {
  oh_guard : m_generationGuardEnabled s = true;
  oh_noted : exists h, m_highestSeenSeq s !! p = Some h /\ seq <= h;
  oh_entry e : m_seqMap s !! p = Some seq -> m_temporaryFib s !! p = Some e -> e = hop
}.

Lemma only_hop_step p seq hop s s' : lrc_step s s' -> only_hop p seq hop s -> only_hop p seq hop s'.
Proof.
  intros Hstep [G (h & Hh & Hle) He]. split.
  - by rewrite (step_guard _ _ Hstep).
  - destruct (step_highest _ _ _ _ Hstep G Hh) as (h' & Hh' & ?). exists h'. split; [done|lia].
  - destruct Hstep as [|q q' s|t q q' port lifetime expiry id s Hs| | | | |q s| |fib s Hsub]; try apply He.
    + unfold noted. destruct (m_generationGuardEnabled s); apply He.
    + intros e. cbn. rewrite !lookup_insert. case_decide as E.
      * intros [= ->]. subst q. unfold seen_stale in Hs. rewrite G, Hh in Hs. cbn in Hs. lia.
      * unfold noted. destruct (m_generationGuardEnabled s); apply He.
    + intros e. cbn. rewrite !lookup_delete. case_decide; [done|apply He].
    + intros e Hq Hf. apply He; [exact Hq|]. by eapply lookup_weaken.
Qed.

Lemma only_hop_steps p seq hop s s' : lrc_steps s s' -> only_hop p seq hop s -> only_hop p seq hop s'.
Proof. induction 1; eauto using only_hop_step. Qed.

(** ** A silent flow-table controller *)
Section silence.
Context (prefix : Name) (seq : Z).
Abbreviation world := (Sim LrcEvent * LocalRouteController)%type.

(** A callback that loses every request. *)
Definition lost : option (ControlMessage -> M world unit) := Some (fun _ => mret tt).

(** One retry timer is queued and the prefix has a request with [n] retries left. *)
Definition waiting (w : world) (n : nat) : Prop :=
  exists uid r,
    m_events w.1 = [mkEvent (m_currentTs w.1 + m_controllerRetryTimeout w.2) uid
                      (ControllerRetryTimeout prefix seq) false] /\
    m_pendingControllerRequests w.2 !! prefix = Some r /\ req_seq r = seq /\
    retriesLeft r = Z.of_nat n /\ m_seqMap w.2 !! prefix = Some seq /\
    m_lifetimeTimers w.2 !! prefix = None.

Abbreviation run_one := (ProcessOneEvent (run_event lost)).
Abbreviation retries w := (m_counters w.2 controllerRetries).

Lemma u64_add_l a b : u64 (u64 a + b) = u64 (a + b).
Proof. unfold u64. by rewrite Z.add_mod_idemp_l by lia. Qed.

Lemma waiting_pop w n :
  waiting w n ->
  exists s' r, RemoveNext w.1 = Some (s', Some (ControllerRetryTimeout prefix seq)) /\
    m_currentTs s' = m_currentTs w.1 + m_controllerRetryTimeout w.2 /\ m_events s' = [] /\
    m_pendingControllerRequests w.2 !! prefix = Some r /\ req_seq r = seq /\
    retriesLeft r = Z.of_nat n /\ m_seqMap w.2 !! prefix = Some seq /\
    m_lifetimeTimers w.2 !! prefix = None.
Proof.
  intros (uid & r & He & Hrest). unfold RemoveNext. rewrite He. eexists _, r.
  split; [reflexivity|]. done.
Qed.

Lemma waiting_retry w n :
  waiting w (S n) -> Z.of_nat (S n) <= 2147483647 ->
  0 <= m_currentTs w.1 -> 0 < m_controllerRetryTimeout w.2 ->
  m_currentTs w.1 + 2 * m_controllerRetryTimeout w.2 <= INT64_MAX ->
  exists w', run_one w = (w', inr tt) /\ waiting w' n /\
    m_currentTs w'.1 = m_currentTs w.1 + m_controllerRetryTimeout w.2 /\
    m_controllerRetryTimeout w'.2 = m_controllerRetryTimeout w.2 /\
    retries w' = u64 (retries w + 1) /\ m_stop w'.1 = m_stop w.1.
Proof.
  intros Hw Hn Ht HR Hmax.
  destruct (waiting_pop w (S n) Hw) as (s' & r & Hpop & Ht' & He' & Hr & Hq & Hl & Hs & Hlt).
  unfold ProcessOneEvent. rewrite run_gets. change (view w) with (w.1). rewrite Hpop, run_modify.
  cbn [run_event]. change (put s' w) with (s', w.2). set (w1 := (s', w.2)).
  rewrite (retry_again_run (LW := state_lens) lost prefix seq r w1 Hr Hq Hs) by lia.
  cbn [lost]. rewrite run_ret. set (w2 := over _ w1).
  assert (w2 = (s', request_put prefix (retried r)
    (count controlPackets (count controllerRetries w.2)))) as -> by reflexivity.
  unfold rearm. rewrite run_get. cbn [view state_lens snd]. cbn [request_put m_pendingControllerRequests
    set_field set_m_pendingControllerRequests]. rewrite lookup_insert_eq.
  change (req_seq (retried r)) with (req_seq r). rewrite (proj2 (Z.eqb_eq _ _) Hq), run_schedule.
  eexists. split; [reflexivity|]. split_and!; [|by cbn|by cbn|by cbn|cbn].
  2: { unfold RemoveNext in Hpop. destruct (m_events w.1); [done|]. by injection Hpop as <- _. }
  unfold waiting. cbn. rewrite He'. cbn. eexists _, _. split_and!.
  - rewrite i64_id, u64_id; [|unfold u64_range, INT64_MAX in *; lia|unfold i64_range, INT64_MAX in *; lia].
    rewrite Z.add_comm. reflexivity.
  - apply lookup_insert_eq.
  - done.
  - cbn. rewrite Hl, i32_id by lia. lia.
  - done.
  - done.
Qed.

Lemma waiting_exhausted w :
  waiting w 0 ->
  exists w', run_one w = (w', inr tt) /\ m_events w'.1 = [] /\
    m_currentTs w'.1 = m_currentTs w.1 + m_controllerRetryTimeout w.2 /\
    w'.2 = withdrawn prefix (count temporaryRouteWithdrawals w.2).
Proof.
  intros Hw.
  destruct (waiting_pop w 0 Hw) as (s' & r & Hpop & Ht' & He' & Hr & Hq & Hl & Hs & Hlt).
  unfold ProcessOneEvent. rewrite run_gets. change (view w) with (w.1). rewrite Hpop, run_modify.
  cbn [run_event]. change (put s' w) with (s', w.2).
  unfold onControllerRetryTimeout. rewrite run_get. cbn [view state_lens snd]. rewrite Hr.
  rewrite (proj2 (Z.eqb_eq _ _) Hq), bool_decide_true by done. cbn [negb]. rewrite Hl.
  change (0 <? Z.of_nat 0) with false. cbv iota. unfold cancel_lifetime_timer.
  rewrite !run_upd, run_assoc, run_get.
  match goal with |- context [match m_lifetimeTimers (view ?x) !! _ with _ => _ end] =>
    change (m_lifetimeTimers (view x)) with (m_lifetimeTimers w.2) end.
  rewrite Hlt, run_ret. eexists.
  split; [reflexivity|]. split_and!; [done|done|]. apply lrc_ext; try reflexivity.
  symmetry. by apply delete_id.
Qed.

Lemma run_waiting n fuel w :
  waiting w n -> Z.of_nat n <= 2147483647 -> (S n <= fuel)%nat -> m_stop w.1 = false ->
  0 <= m_currentTs w.1 -> 0 < m_controllerRetryTimeout w.2 -> u64_range (retries w) ->
  m_currentTs w.1 + (Z.of_nat n + 1) * m_controllerRetryTimeout w.2 <= INT64_MAX ->
  exists w', Run_loop (run_event lost) fuel w = (w', inr tt) /\ m_events w'.1 = [] /\
    m_currentTs w'.1 = m_currentTs w.1 + (Z.of_nat n + 1) * m_controllerRetryTimeout w.2 /\
    retries w' = u64 (retries w + Z.of_nat n) /\
    m_temporaryFib w'.2 !! prefix = None /\ m_seqMap w'.2 !! prefix = None /\
    m_pendingControllerRequests w'.2 !! prefix = None.
Proof.
  revert fuel w. induction n as [|n IH]; intros [|fuel] w Hw Hn Hf Hstop Ht HR Hc Hmax;
    [lia| |lia|]; cbn [Run_loop]; rewrite run_gets.
  - destruct (waiting_exhausted w Hw) as (w' & E & He & Ht' & Hv).
    assert (IsFinished (view w) = false) as Hfin.
    { destruct Hw as (uid & r & Hev & _). unfold IsFinished. cbn. by rewrite Hev. }
    rewrite Hfin, (run_seq _ _ _ _ _ E). exists w'. split_and!.
    + destruct fuel; [done|]. cbn [Run_loop]. rewrite run_gets. unfold IsFinished.
      cbn [view sim_lens]. by rewrite He.
    + done.
    + lia.
    + rewrite Hv. cbn. unfold withdrawn, count. cbn. rewrite bump_ne by done.
      by rewrite Z.add_0_r, u64_id.
    + rewrite Hv. apply lookup_delete_eq.
    + rewrite Hv. apply lookup_delete_eq.
    + rewrite Hv. apply lookup_delete_eq.
  - destruct (waiting_retry w n Hw) as (w1 & E & Hw1 & Ht1 & HR1 & Hc1 & Hs1);
      [done|done|done|nia|].
    assert (IsFinished (view w) = false) as Hfin.
    { destruct Hw as (uid & r & Hev & _). unfold IsFinished. cbn. by rewrite Hev. }
    rewrite Hfin, (run_seq _ _ _ _ _ E).
    destruct (IH fuel w1) as (w' & E' & He' & Ht' & Hc' & Hrest);
      [done|lia|lia|congruence|lia|lia|rewrite Hc1; apply u64_bounds|nia|].
    exists w'. split_and!; [done|done|nia| |by apply Hrest..].
    rewrite Hc', Hc1, u64_add_l. f_equal. lia.
Qed.

(** With no event queued, a method that schedules nothing leaves the simulator alone. *)
Definition quiet {A} (m : M world A) : Prop := forall w, m_events w.1 = [] -> (m w).1.1 = w.1.

Lemma quiet_bind {A B} (m : M world A) (k : A -> M world B) :
  quiet m -> (forall a, quiet (k a)) -> quiet (m ≫= k).
Proof.
  intros Hm Hk w Hw. unfold mbind, M_bind. specialize (Hm w Hw).
  destruct (m w) as [w' [e|a]]; [done|]. cbn in Hm. rewrite Hk by congruence. done.
Qed.

Lemma quiet_ret {A} (a : A) : quiet (mret a).
Proof. done. Qed.
Lemma quiet_get : quiet get.
Proof. done. Qed.
Lemma quiet_now : quiet now.
Proof. done. Qed.
Lemma quiet_upd f : quiet (upd f).
Proof. done. Qed.
Lemma quiet_cancel id : quiet (cancel id).
Proof.
  intros w Hw. cbn. unfold Cancel, IsExpired. rewrite Hw. cbn. by rewrite orb_true_r.
Qed.

Lemma quiet_cancel_lifetime_timer p : quiet (cancel_lifetime_timer p).
Proof.
  apply quiet_bind; [apply quiet_get|intros s]. destruct (m_lifetimeTimers s !! p); [|done].
  apply quiet_bind; [apply quiet_cancel|done].
Qed.

Lemma quiet_cancel_pending_request p : quiet (cancel_pending_request p).
Proof.
  apply quiet_bind; [apply quiet_get|intros s].
  destruct (m_pendingControllerRequests s !! p); [|done].
  apply quiet_bind; [apply quiet_cancel|done].
Qed.

Lemma quiet_admit_route port lifetime expiry :
  lifetime <= 0 -> quiet (admit_route prefix port seq lifetime expiry).
Proof.
  intros Hl. unfold admit_route. cbv zeta. destruct (Z.ltb_spec 0 lifetime); [lia|].
  repeat (apply quiet_bind; [first [apply quiet_get|apply quiet_now|apply quiet_upd|
    apply quiet_cancel_lifetime_timer|idtac]|intros ?]); try done.
  by destruct (m_seqMap a !! prefix).
Qed.

Lemma request_lost_sim hashes pLen port expiry w :
  m_events w.1 = [] -> 0 < m_controllerRetryTimeout w.2 ->
  (request_sync lost prefix hashes pLen port seq expiry w).1.1
    = (Schedule (m_controllerRetryTimeout w.2) (ControllerRetryTimeout prefix seq) w.1).1.
Proof.
  intros He HR. unfold request_sync, lost. rewrite run_upd, run_get. set (w0 := over _ w).
  assert (w0.1 = w.1) as H0 by reflexivity.
  assert (m_controllerRetryTimeout (view w0) = m_controllerRetryTimeout w.2) as HR0 by reflexivity.
  clearbody w0. rewrite HR0, (proj2 (Z.ltb_lt _ _) HR), run_assoc.
  destruct (cancel_pending_request_run prefix w0) as (w1 & E1 & Hv1 & _).
  pose proof (quiet_cancel_pending_request prefix w0) as Hq. rewrite E1, H0 in Hq. cbn in Hq.
  rewrite (run_seq _ _ _ _ _ E1), run_assoc, run_get, run_assoc, run_schedule. cbn.
  change (w1.2) with (view w1). rewrite Hv1, Hq by done.
  cbn [m_controllerRetryTimeout set_field set_m_pendingControllerRequests]. by rewrite HR0.
Qed.

Lemma lost_update_waiting hashes pLen port w n :
  lrc_wf w.2 -> m_events w.1 = [] -> m_entryLifetime w.2 = 0 ->
  0 < m_controllerRetryTimeout w.2 -> m_controllerRetryLimit w.2 = Z.of_nat n ->
  seen_stale w.2 prefix seq = false -> held_stale w.2 prefix seq = false ->
  0 <= m_currentTs w.1 -> m_currentTs w.1 + m_controllerRetryTimeout w.2 <= INT64_MAX ->
  exists w1, applyTraceUpdate lost prefix hashes pLen port seq 0 w = (w1, inr true) /\
    waiting w1 n /\ m_currentTs w1.1 = m_currentTs w.1 /\
    m_controllerRetryTimeout w1.2 = m_controllerRetryTimeout w.2 /\
    retries w1 = retries w.
Proof.
  intros Hwf He Hlife HR Hlim Hs Hh Ht Hmax.
  assert (route_lifetime w.2 0 = 0) as Hl by (unfold route_lifetime; by rewrite Hlife).
  rewrite applyTraceUpdate_run; [|lia|done].
  change (view w) with w.2. rewrite Hs, Hh, Hl. cbv zeta.
  change (route_expiry (sim_now LrcEvent w) 0) with 0.
  destruct (admit_publish (LW := state_lens) lost prefix hashes pLen port seq 0 0 w Hwf) as (w1 & E & Hp).
  set (w0 := over (noted prefix seq) w) in *.
  assert (lrc_wf (view w0)) as Hwf0 by (by apply lrc_wf_noted).
  assert (m_controllerRetryTimeout w0.2 = m_controllerRetryTimeout w.2) as HR0.
  { unfold w0, over, noted. cbn. by destruct (m_generationGuardEnabled w.2). }
  assert (w1.1 = (Schedule (m_controllerRetryTimeout w.2) (ControllerRetryTimeout prefix seq) w.1).1)
    as Hsim.
  { destruct (admit_route_run (LW := state_lens) prefix port seq 0 0 w0 Hwf0) as (w2 & id & E2 & Hv2 & _).
    pose proof (quiet_admit_route port 0 0 ltac:(lia) w0 He) as Hq. rewrite E2 in Hq. cbn in Hq.
    rewrite (run_seq _ _ _ _ _ E2) in E.
    assert (m_controllerRetryTimeout w2.2 = m_controllerRetryTimeout w.2) as HR2.
    { change w2.2 with (view w2). rewrite Hv2. exact HR0. }
    pose proof (request_lost_sim hashes pLen port 0 w2) as Hr.
    rewrite Hq, HR2 in Hr. specialize (Hr He HR). unfold mbind, M_bind in E.
    destruct (request_sync _ _ _ _ _ _ _ w2) as [w3 [e|[]]]; cbn in E, Hr; [done|].
    injection E as <-. exact Hr. }
  destruct Hp as [Hn (id & id' & Hv & _)].
  rewrite E. exists w1. split; [done|]. clear E.
  assert (m_lifetimeTimers w1.2 !! prefix = None /\ m_seqMap w1.2 !! prefix = Some seq /\
    m_controllerRetryTimeout w1.2 = m_controllerRetryTimeout w.2 /\ retries w1 = retries w /\
    m_pendingControllerRequests w1.2 !! prefix = Some (mkPendingControllerRequest seq (Z.of_nat n) id'
      (mkControlMessage TYPE_PACKET_IN hashes pLen port prefix seq 0)))
    as (H1 & H2 & H3 & H4 & H5).
  { change w1.2 with (view w1). rewrite Hv. cbn [lost]. unfold requested.
    set (s1 := admitted _ _ _ _ _ _ _ _).
    assert (m_controllerRetryTimeout s1 = m_controllerRetryTimeout w.2) as -> by exact HR0.
    rewrite (proj2 (Z.ltb_lt _ _) HR). cbn. unfold noted.
    destruct (m_generationGuardEnabled w.2); cbn;
      rewrite lookup_delete_eq, !lookup_insert_eq, Hlim; done. }
  split_and!; [|by rewrite Hsim|done|done].
  unfold waiting. rewrite Hsim, H3. cbn. rewrite He. cbn. eexists _, _. split_and!; [|exact H5|done..].
  rewrite i64_id, u64_id; [|unfold u64_range, INT64_MAX in *; lia|unfold i64_range, INT64_MAX in *; lia].
  rewrite Z.add_comm. reflexivity.
Qed.
End silence.

(** *** What can be called

    The methods, the timers and the lookup of the engine, which prunes the temporary table;
    anything else leaves the controller alone. *)
Definition consistent (s : LocalRouteController) : Prop := lrc_wf s /\ held_noted s.

Section calls.
Context {W : Type} {LW : Lens W LocalRouteController} {SW : Scheduler W LrcEvent}.
Context {LL : LensLaws W LocalRouteController} {SL : SchedulerLaws W LrcEvent}.
Context {SF : SchedulerFrame W LocalRouteController LrcEvent}.
Context (request : option (ControlMessage -> M W unit)) (complete : option (Name -> M W unit)).

Inductive lrc_call : relation W :=
| call_update prefix hashes pLen port seq ttl w :
    lrc_call w (applyTraceUpdate request prefix hashes pLen port seq ttl w).1
| call_response message w : lrc_call w (handleControlResponse complete message w).1
| call_timer e w : lrc_call w (run_event request e w).1
| call_lookup t name w :
    lrc_call w (over (fun s => s <| m_temporaryFib ::= fun fib => (findLongestPrefix t name fib).1 |>) w)
| call_elsewhere w w' : view w' = view w -> lrc_call w w'.

Hypothesis request_steps : forall f, request = Some f -> forall m, steps_only (f m).
Hypothesis complete_steps : forall f, complete = Some f -> forall p, steps_only (f p).

Lemma call_steps w w' : lrc_call w w' -> lrc_wf (view w) -> lrc_steps (view w) (view w').
Proof.
  intros H Hwf. destruct H as [prefix hashes pLen port seq ttl w|message w|e w|t name w|w w' E].
  - exact (applyTraceUpdate_steps request prefix hashes pLen port seq ttl request_steps w Hwf).
  - exact (handleControlResponse_steps complete message complete_steps w Hwf).
  - destruct e as [p q|p q]; [exact (expireEntryBySeq_steps p q w Hwf)|].
    exact (onControllerRetryTimeout_steps request p q request_steps w Hwf).
  - rewrite view_over. by apply lookup_prunes.
  - rewrite E. apply rtc_refl.
Qed.

Lemma calls_steps w w' :
  rtc lrc_call w w' -> lrc_wf (view w) -> lrc_wf (view w') /\ lrc_steps (view w) (view w').
Proof.
  induction 1 as [w|w1 w2 w3 H _ IH]; intros Hwf; [split; [done|apply rtc_refl]|].
  pose proof (call_steps _ _ H Hwf) as Hs. destruct (IH (lrc_wf_steps _ _ Hs Hwf)) as [H3 Hs'].
  split; [done|]. by etrans.
Qed.

(** With the guard on, a generation once noted is rejected for ever. *)
Lemma noted_rejects cb prefix hashes pLen port seq ttl h s (w : W) :
  m_generationGuardEnabled s = true -> m_highestSeenSeq s !! prefix = Some h ->
  lrc_steps s (view w) -> seq <= h -> 0 <= ttl -> lifetime_conflict (view w) ttl = false ->
  applyTraceUpdate cb prefix hashes pLen port seq ttl w
    = (over (count staleTraceUpdatesRejected) w, inr false).
Proof.
  intros G Hh Hs Hle Httl Hc. destruct (steps_highest _ _ _ _ Hs G Hh) as (G' & h' & Hh' & Hle').
  rewrite applyTraceUpdate_run by done. unfold seen_stale. rewrite G', Hh'. cbn [andb].
  destruct (Z.leb_spec seq h'); [done|lia].
Qed.

(** The next retry is armed for a request that is still pending. *)
Lemma rearm_timer_run prefix seq (w : W) :
  match m_pendingControllerRequests (view w) !! prefix with
  | Some r =>
      if req_seq r =? seq then
        exists id w1, rearm prefix seq w = (w1, inr tt) /\
          (id, w1) = (let '(w', id) := sim_schedule (m_controllerRetryTimeout (view w)) (ControllerRetryTimeout prefix seq) w in
                      (id, over (request_put prefix (mkPendingControllerRequest (req_seq r) (retriesLeft r) id (req_msg r))) w')) /\
          pending w1 id (ControllerRetryTimeout prefix seq)
      else rearm prefix seq w = (w, inr tt)
  | None => rearm prefix seq w = (w, inr tt)
  end.
Proof.
  unfold rearm. rewrite run_get.
  destruct (m_pendingControllerRequests (view w) !! prefix) as [r|]; [|done].
  destruct (req_seq r =? seq); [|done]. rewrite run_schedule.
  pose proof (pending_schedule (m_controllerRetryTimeout (view w)) (ControllerRetryTimeout prefix seq) w
    (sim_schedule (m_controllerRetryTimeout (view w)) (ControllerRetryTimeout prefix seq) w).2
    (ControllerRetryTimeout prefix seq)) as Hp.
  destruct (sim_schedule _ _ w) as [w' id]. cbn [fst snd] in *. exists id. eexists.
  split; [reflexivity|]. split; [done|]. unfold over. rewrite pending_put. apply Hp. by left.
Qed.
End calls.

(** ** Properties *)

Definition demo_world (guard : bool) (retry limit : Z) : Sim LrcEvent * LocalRouteController :=
  (sim_init, LocalRouteController_new <| m_generationGuardEnabled := guard |>
     <| m_controllerRetryTimeout := retry |> <| m_controllerRetryLimit := limit |>).

Lemma demo_world_wf guard retry limit : lrc_wf (view (demo_world guard retry limit)).
Proof. destruct lrc_wf_new. by split. Qed.

Definition demo_prefix : Name := [component_of_string "a"].

(** C21: [applyTraceUpdate] on every branch: a negative or conflicting lifetime
    throws and changes nothing; a generation that the guard has seen, or that is
    not newer than the one held, only counts a rejection; any other update
    replaces the prefix's route by one hop with the lease deadline, arms the
    lifetime timer and (with retries on) the retry timer, and only then runs the
    request callback. *)
Theorem trace_update_spec {W} `{!Lens W LocalRouteController, !Scheduler W LrcEvent}
    `{!LensLaws W LocalRouteController, !SchedulerLaws W LrcEvent}
    `{!SchedulerFrame W LocalRouteController LrcEvent}
    cb prefix hashes pLen port seq ttl (w : W) :
  lrc_wf (view w) ->
  let s := view w in
  let run := applyTraceUpdate cb prefix hashes pLen port seq ttl w in
  let lifetime := route_lifetime s ttl in
  let msg := mkControlMessage TYPE_PACKET_IN hashes pLen port prefix seq
               (route_expiry (sim_now LrcEvent w) lifetime) in
  (ttl < 0 \/ lifetime_conflict s ttl = true ->
     exists what, run = (w, inl (InvalidArgument what))) /\
  (0 <= ttl -> lifetime_conflict s ttl = false ->
     (seen_stale s prefix seq = true ->
        run = (over (count staleTraceUpdatesRejected) w, inr false)) /\
     (seen_stale s prefix seq = false -> held_stale s prefix seq = true ->
        run = (over (fun s => count staleTraceUpdatesRejected (noted prefix seq s)) w, inr false)) /\
     (seen_stale s prefix seq = false -> held_stale s prefix seq = false ->
        exists w1,
          run = (match cb with Some f => f msg;; mret true | None => mret true end) w1 /\
          published (if cb then true else false) prefix port seq lifetime msg w w1)).
Proof.
  intros Hwf s run lifetime msg. split.
  - intros H. unfold run, applyTraceUpdate. destruct (Z.ltb_spec ttl 0); [by eexists|].
    destruct H as [|H]; [lia|]. cbv zeta. rewrite run_get. unfold lifetime_conflict in H.
    fold s. rewrite H. by eexists.
  - intros Httl Hc. unfold run. rewrite applyTraceUpdate_run by done. fold s. split_and!.
    + by intros ->.
    + intros -> ->. cbv zeta. by rewrite over_over.
    + intros -> ->. cbv zeta. by apply admit_publish.
Qed.

Lemma trace_update_spec_witness :
  exists w1, applyTraceUpdate None demo_prefix [97] 1 7 5 0 (demo_world true 0 3) = (w1, inr true) /\
    m_seqMap w1.2 !! demo_prefix = Some 5.
Proof.
  destruct (trace_update_spec None demo_prefix [97] 1 7 5 0 (demo_world true 0 3)
    (demo_world_wf _ _ _)) as [_ H].
  destruct (H ltac:(lia) eq_refl) as (_ & _ & H3).
  destruct (H3 eq_refl eq_refl) as (w1 & E & Hp).
  exists w1. split; [exact E|]. destruct Hp as [_ (id & id' & Hv & _)].
  change (w1.2) with (view w1). rewrite Hv. cbn. apply lookup_insert_eq.
Defined.

(** C22: a completion notice is accepted exactly when it acknowledges the
    temporary route its prefix has now: same generation, same lease deadline, not
    expired.  An accepted one withdraws the route with its timers and its pending
    request before the callback runs; any other changes at most one rejection
    counter, and no notice makes the controller throw. *)
Theorem control_response_spec {W} `{!Lens W LocalRouteController, !Scheduler W LrcEvent}
    `{!LensLaws W LocalRouteController, !SchedulerLaws W LrcEvent}
    `{!SchedulerFrame W LocalRouteController LrcEvent} cb message (w : W) :
  lrc_wf (view w) ->
  let run := handleControlResponse cb message w in
  (ack_matches (sim_now LrcEvent w) (view w) message ->
     exists w1,
       run = (match cb with Some f => f (msg_prefix message);; mret true | None => mret true end) w1 /\
       view w1 = withdrawn (msg_prefix message) (count syncCompletions (view w)) /\
       sim_now LrcEvent w1 = sim_now LrcEvent w) /\
  (~ ack_matches (sim_now LrcEvent w) (view w) message ->
     run = (w, inr false) \/
     exists c, c ∈ [staleSyncAcksRejected; noPendingSyncAcksRejected; expiredSyncAcksRejected] /\
       run = (over (count c) w, inr false)).
Proof.
  intros Hwf run. split; [apply ack_accepted_run|by apply ack_rejected_run].
Qed.

Lemma control_response_spec_witness :
  let m := mkControlMessage TYPE_SYNC_ACK [97] 1 7 demo_prefix 5 0 in
  handleControlResponse None m (demo_world true 0 3)
    = (over (count noPendingSyncAcksRejected) (demo_world true 0 3), inr false) /\
  (handleControlResponse None m (demo_world true 0 3)).2 = inr false.
Proof.
  intros m. split; [reflexivity|].
  destruct (control_response_spec None m (demo_world true 0 3) (demo_world_wf _ _ _)) as [_ H].
  destruct H as [->|(c & _ & ->)]; [|reflexivity|reflexivity].
  intros (_ & current & expiry & Hc & _). cbn in Hc. by rewrite lookup_empty in Hc.
Defined.

(** C23: every method and every timer of the controller only takes steps of the
    abstract machine [lrc_step] on the controller's state, whatever branch it
    takes, when the two callbacks do. *)
Theorem lrc_refines {W} `{!Lens W LocalRouteController, !Scheduler W LrcEvent}
    `{!LensLaws W LocalRouteController, !SchedulerLaws W LrcEvent}
    `{!SchedulerFrame W LocalRouteController LrcEvent}
    (request : option (ControlMessage -> M W unit)) (complete : option (Name -> M W unit)) :
  (forall f, request = Some f -> forall m, steps_only (f m)) ->
  (forall f, complete = Some f -> forall p, steps_only (f p)) ->
  (forall prefix hashes pLen port seq ttl,
     steps_only (applyTraceUpdate request prefix hashes pLen port seq ttl)) /\
  (forall message, steps_only (handleControlResponse complete message)) /\
  (forall e, steps_only (run_event request e)).
Proof.
  intros Hr Hc. split_and!.
  - intros. by apply applyTraceUpdate_steps.
  - intros. by apply handleControlResponse_steps.
  - intros [p q|p q]; [apply expireEntryBySeq_steps|by apply onControllerRetryTimeout_steps].
Qed.

Lemma lrc_refines_witness :
  steps_only (applyTraceUpdate (W := Sim LrcEvent * LocalRouteController) (Some (fun _ => mret tt))
    demo_prefix [97] 1 7 5 0).
Proof.
  destruct (lrc_refines (W := Sim LrcEvent * LocalRouteController)
    (Some (fun _ => mret tt)) None) as [H _].
  - intros f [= <-] m. apply steps_only_ret.
  - intros f H. discriminate H.
  - apply H.
Defined.

(** C24: whatever is called and whatever fires, a controller stays consistent from its
    constructor on: each prefix with a temporary route has a recorded lease, its temporary
    entry has exactly one next hop, no timer or entry is left without its route, and with
    the guard on the held generation has been noted.  A generation that the guard
    has noted for a prefix is never admitted again, and no earlier one, whatever is called in
    between (completion, expiry and withdrawal included): such an update only counts a
    rejection.  The callbacks may do the same to the controller as its methods. *)
Theorem lrc_consistent {W} `{!Lens W LocalRouteController, !Scheduler W LrcEvent}
    `{!LensLaws W LocalRouteController, !SchedulerLaws W LrcEvent}
    `{!SchedulerFrame W LocalRouteController LrcEvent}
    (request : option (ControlMessage -> M W unit)) (complete : option (Name -> M W unit)) :
  (forall f, request = Some f -> forall m, steps_only (f m)) ->
  (forall f, complete = Some f -> forall p, steps_only (f p)) ->
  consistent LocalRouteController_new /\
  forall w0 w : W, consistent (view w0) -> rtc (lrc_call request complete) w0 w ->
    consistent (view w) /\
    forall prefix hashes pLen port seq ttl h,
      m_generationGuardEnabled (view w0) = true -> m_highestSeenSeq (view w0) !! prefix = Some h ->
      seq <= h -> 0 <= ttl -> lifetime_conflict (view w) ttl = false ->
      applyTraceUpdate request prefix hashes pLen port seq ttl w
        = (over (count staleTraceUpdatesRejected) w, inr false).
Proof.
  intros Hr Hc. split; [split; [apply lrc_wf_new|intros _ p q H; cbn in H; by rewrite lookup_empty in H]|].
  intros w0 w Hw0 Hrun. destruct (calls_steps request complete Hr Hc w0 w Hrun (proj1 Hw0)) as [Hwf Hs].
  split; [split; [done|]|].
  - clear -Hs Hw0. destruct Hw0 as [_ Hn]. induction Hs; eauto using held_noted_step.
  - intros. by eapply noted_rejects.
Qed.

Lemma lrc_consistent_witness :
  let w0 : Sim LrcEvent * LocalRouteController := (sim_init, noted demo_prefix 5 (demo_world true 0 3).2) in
  let w := (applyTraceUpdate None demo_prefix [97] 1 7 6 0 w0).1 in
  consistent (view w) /\ (applyTraceUpdate None demo_prefix [97] 1 7 5 0 w).2 = inr false.
Proof.
  intros w0 w. destruct (lrc_consistent (W := Sim LrcEvent * LocalRouteController) None None) as [_ H].
  - intros f Hf. discriminate Hf.
  - intros f Hf. discriminate Hf.
  - destruct (H w0 w) as [Hok Hrej].
    + split; [apply lrc_wf_noted, demo_world_wf|]. intros _ p q Hq. cbn in Hq. by rewrite lookup_empty in Hq.
    + apply rtc_once. apply call_update.
    + split; [exact Hok|]. rewrite (Hrej demo_prefix [97] 1 7 5 0 5); [reflexivity|reflexivity| |lia|lia|reflexivity].
      apply lookup_insert_eq.
Defined.

(** C25: what the two timers of the controller do, on every branch.  The end of a lease removes the route of
    its generation, with the pending request of that generation, and nothing of any other
    generation but the record of the timer.  A retry timer does nothing without a request of its generation and
    drops the request of a generation that the prefix has no longer.  Otherwise, while attempts
    are left, one less is left, the request is sent again, and if it is then still pending the next timer is
    armed after one retry timeout.  With no attempt left, the route, its lease and its request are
    withdrawn and no timer is armed: a request that is never answered is repeated at most as often as
    its limit says. *)
Theorem timers_spec {W} `{!Lens W LocalRouteController, !Scheduler W LrcEvent}
    `{!LensLaws W LocalRouteController, !SchedulerLaws W LrcEvent}
    `{!SchedulerFrame W LocalRouteController LrcEvent}
    (cb : option (ControlMessage -> M W unit)) prefix seq (w : W) :
  let s := view w in
  let request := m_pendingControllerRequests s !! prefix in
  let expire := run_event cb (ExpireEntryBySeq prefix seq) w in
  let retry := run_event cb (ControllerRetryTimeout prefix seq) w in
  (m_seqMap s !! prefix <> Some seq ->
     expire = (over (fun s => s <| m_lifetimeTimers ::= delete prefix |>) w, inr tt)) /\
  (m_seqMap s !! prefix = Some seq ->
     exists w1, expire = (w1, inr tt) /\ sim_now LrcEvent w1 = sim_now LrcEvent w /\
       (forall id e, pending w1 id e -> pending w id e) /\
       view w1 = (match request with
                  | Some r => if req_seq r =? seq then request_dropped prefix else fun s => s
                  | None => fun s => s
                  end) (route_erased prefix s)) /\
  ((forall r, request = Some r -> req_seq r <> seq) -> retry = (w, inr tt)) /\
  (forall r, request = Some r -> req_seq r = seq ->
     (m_seqMap s !! prefix <> Some seq -> retry = (over (request_dropped prefix) w, inr tt)) /\
     (m_seqMap s !! prefix = Some seq -> retriesLeft r <= 0 ->
        exists w1, retry = (w1, inr tt) /\ sim_now LrcEvent w1 = sim_now LrcEvent w /\
          (forall id e, pending w1 id e -> pending w id e) /\
          view w1 = withdrawn prefix (count temporaryRouteWithdrawals s)) /\
     (m_seqMap s !! prefix = Some seq -> 0 < retriesLeft r ->
        let w1 := over (fun s => request_put prefix (retried r) (count controlPackets (count controllerRetries s))) w in
        let sent := (match cb with Some f => f (req_msg r) | None => mret tt end) w1 in
        (forall ex, sent.2 = inl ex -> retry = (sent.1, inl ex)) /\
        (sent.2 = inr tt ->
         (forall r', m_pendingControllerRequests (view sent.1) !! prefix = Some r' -> req_seq r' = seq ->
            exists w2 id, retry = (w2, inr tt) /\ pending w2 id (ControllerRetryTimeout prefix seq) /\
              view w2 = request_put prefix
                (mkPendingControllerRequest seq (retriesLeft r') id (req_msg r')) (view sent.1) /\
              id = (sim_schedule (m_controllerRetryTimeout (view sent.1))
                      (ControllerRetryTimeout prefix seq) sent.1).2) /\
         ((forall r', m_pendingControllerRequests (view sent.1) !! prefix = Some r' -> req_seq r' <> seq) ->
            retry = (sent.1, inr tt))))).
Proof.
  intros s request expire retry. split_and!.
  - apply expire_superseded_run.
  - intros Hs. destruct (expire_current_run prefix seq w Hs) as (w1 & E & Hv & Hn & Hp). by exists w1.
  - apply retry_none_run.
  - intros r Hr Hseq. split_and!.
    + intros Hs. by apply (retry_superseded_run cb prefix seq r).
    + intros Hs Hl. destruct (retry_exhausted_run cb prefix seq r w Hr Hseq Hs Hl) as (w1 & E & Hv & Hn & Hp). by exists w1.
    + intros Hs Hl w1 sent. pose proof (retry_again_run cb prefix seq r w Hr Hseq Hs Hl) as E.
      change (retry = (match cb with Some f => f (req_msg r) | None => mret tt end;; rearm prefix seq) w1) in E.
      unfold mbind, M_bind in E. fold sent in E. destruct sent as [w2 [ex|[]]]; cbn [fst snd].
      { split; [by intros ex' [= <-]|done]. }
      split; [done|]. intros _. pose proof (rearm_timer_run prefix seq w2) as Hre. split.
      * intros r' Hr' Hseq'. rewrite Hr', Hseq', Z.eqb_refl in Hre. destruct Hre as (id & w3 & E3 & Eid & Hp).
        exists w3, id. rewrite E, E3. pose proof (view_schedule (S := LocalRouteController)
          (m_controllerRetryTimeout (view w2)) (ControllerRetryTimeout prefix seq) w2) as Hv.
        destruct (sim_schedule _ _ w2) as [w' id']. injection Eid as -> ->. cbn [fst snd] in *.
        split_and!; [done|done| |done]. by rewrite view_over, Hv.
      * intros Hno. rewrite E. destruct (m_pendingControllerRequests (view w2) !! prefix) as [r'|]; [|done].
        specialize (Hno r' eq_refl). by rewrite (proj2 (Z.eqb_neq _ _) Hno) in Hre.
Qed.

Lemma timers_spec_witness :
  let s := requested demo_prefix (mkEventId 0 0) (mkControlMessage TYPE_PACKET_IN [97] 1 7 demo_prefix 5 0)
             (admitted 0 demo_prefix 7 5 0 0 (mkEventId 0 0) (demo_world true 1000 0).2) in
  let w : Sim LrcEvent * LocalRouteController := (sim_init, s) in
  exists w1, run_event lost (ControllerRetryTimeout demo_prefix 5) w = (w1, inr tt) /\
    m_seqMap (view w1) !! demo_prefix = None.
Proof.
  intros s w. destruct (timers_spec (W := Sim LrcEvent * LocalRouteController) lost demo_prefix 5 w) as (_ & _ & _ & H).
  destruct (H (mkPendingControllerRequest 5 0 (mkEventId 0 0) (mkControlMessage TYPE_PACKET_IN [97] 1 7 demo_prefix 5 0)))
    as (_ & Hx & _); [vm_compute; reflexivity|reflexivity|].
  destruct Hx as (w1 & E & _ & _ & Hv); [vm_compute; reflexivity|vm_compute; discriminate|].
  exists w1. split; [exact E|]. rewrite Hv. apply lookup_delete_eq.
Defined.

(** Retries end.  In a controller without leases and with no other event queued, an update whose requests are all lost is retried
    exactly [m_controllerRetryLimit] times, at multiples of the retry timeout, and one
    timeout after the last retry the temporary route, its generation and its
    pending request are gone and no event is left. *)
Theorem retries_bounded prefix hashes pLen port seq (n fuel : nat)
    (w : Sim LrcEvent * LocalRouteController) :
  let s := w.2 in let t := m_currentTs w.1 in let R := m_controllerRetryTimeout s in
  lrc_wf s -> m_events w.1 = [] -> m_entryLifetime s = 0 -> 0 < R ->
  m_controllerRetryLimit s = Z.of_nat n -> Z.of_nat n <= 2147483647 ->
  seen_stale s prefix seq = false -> held_stale s prefix seq = false ->
  0 <= t -> t + (Z.of_nat n + 1) * R <= INT64_MAX ->
  u64_range (m_counters s controllerRetries) -> (S n <= fuel)%nat ->
  exists w',
    (applyTraceUpdate lost prefix hashes pLen port seq 0;; Run (run_event lost) fuel) w
      = (w', inr tt) /\
    m_events w'.1 = [] /\ m_currentTs w'.1 = t + (Z.of_nat n + 1) * R /\
    m_counters w'.2 controllerRetries = u64 (m_counters s controllerRetries + Z.of_nat n) /\
    m_temporaryFib w'.2 !! prefix = None /\ m_seqMap w'.2 !! prefix = None /\
    m_pendingControllerRequests w'.2 !! prefix = None.
Proof.
  intros s t R Hwf He Hlife HR Hlim Hn Hs Hh Ht Hmax Hc Hf.
  assert (t + R <= INT64_MAX) as H1 by (clearbody t R; nia).
  destruct (lost_update_waiting prefix seq hashes pLen port w n) as (w1 & E & Hw & Ht1 & HR1 & Hc1);
    [done..|exact H1|].
  rewrite (run_seq _ _ _ _ _ E). unfold Run. rewrite run_modify.
  set (w2 := over Start w1).
  destruct (run_waiting prefix seq n fuel w2) as (w' & E' & He' & Ht' & Hc' & Hrest).
  - exact Hw.
  - exact Hn.
  - exact Hf.
  - reflexivity.
  - change (0 <= m_currentTs w1.1). rewrite Ht1. exact Ht.
  - change (0 < m_controllerRetryTimeout w1.2). rewrite HR1. exact HR.
  - change (u64_range (m_counters w1.2 controllerRetries)). rewrite Hc1. exact Hc.
  - change (m_currentTs w1.1 + (Z.of_nat n + 1) * m_controllerRetryTimeout w1.2 <= INT64_MAX).
    rewrite Ht1, HR1. exact Hmax.
  - exists w'. split; [exact E'|]. split; [exact He'|]. split_and!; [| |apply Hrest..].
    + rewrite Ht'. change (m_currentTs w2.1) with (m_currentTs w1.1).
      change (m_controllerRetryTimeout w2.2) with (m_controllerRetryTimeout w1.2). by rewrite Ht1, HR1.
    + rewrite Hc'. change (m_counters w2.2) with (m_counters w1.2). by rewrite Hc1.
Qed.

Lemma retries_bounded_witness :
  exists w',
    (applyTraceUpdate lost demo_prefix [97] 1 7 5 0;; Run (run_event lost) 10)
      (demo_world true 1000 3) = (w', inr tt) /\
    m_currentTs w'.1 = 4000 /\ m_temporaryFib w'.2 !! demo_prefix = None.
Proof.
  destruct (retries_bounded demo_prefix [97] 1 7 5 3 10 (demo_world true 1000 3))
    as (w' & E & _ & Ht & _ & Hf & _).
  - apply demo_world_wf.
  - reflexivity.
  - reflexivity.
  - reflexivity.
  - reflexivity.
  - lia.
  - reflexivity.
  - reflexivity.
  - discriminate.
  - vm_compute. discriminate.
  - split; [discriminate|reflexivity].
  - lia.
  - exists w'. split; [exact E|]. split; [exact Ht|exact Hf].
Defined.
