(* ===== verification/SimTime.v ===== *)
(** * SimTime: seconds as doubles and the fixed-point numbers behind [ns3::Time]

    Sources: [src/src/core/model/nstime.h], [time.cc], [int64x64-128.h] and
    [int64x64-128.cc].  A [double] is a binary64 and a [long double] an x87
    extended number, both computed by the Standard Library's [SpecFloat].  An
    [int64x64_t] is its 128-bit word [_v].  The resolution is the default one:
    nanoseconds.  The random variables of ns-3 are an interface. *)
From Stdlib Require Import Floats.SpecFloat.
From S2P Require Import Prelude.

(** ** Floating-point numbers *)
Abbreviation double := spec_float.
Abbreviation long_double := spec_float.

Definition dadd : double -> double -> double := SFadd 53 1024.
Definition dsub : double -> double -> double := SFsub 53 1024.
Definition dmul : double -> double -> double := SFmul 53 1024.
Definition ddiv : double -> double -> double := SFdiv 53 1024.
Definition dopp : double -> double := SFopp.
Definition dltb : double -> double -> bool := SFltb.
Definition dleb : double -> double -> bool := SFleb.
Definition double_of_Z (z : Z) : double := binary_normalize 53 1024 z 0 false.
Definition dzero : double := S754_zero false.
Definition done_ : double := double_of_Z 1.

(** [std::max] returns its first argument unless it is less than the second. *)
Definition dmax (a b : double) : double := if dltb a b then b else a.

(** [std::min] returns its first argument unless the second is less. *)
Definition dmin (a b : double) : double := if dltb b a then b else a.

(** Conversions between the formats round to nearest even. *)
Definition round_to (prec emax : Z) (f : spec_float) : spec_float :=
  match f with
  | S754_finite s m e => binary_round prec emax s m e
  | f => f
  end.
Definition to_long (f : double) : long_double := round_to 64 16384 f.
Definition to_double (f : long_double) : double := round_to 53 1024 f.
Definition long_of_Z (z : Z) : long_double := binary_normalize 64 16384 z 0 false.

(** Conversion to an integer type truncates. *)
Definition trunc (f : spec_float) : Z :=
  match f with
  | S754_finite s m e => cond_Zopp s (Z.shiftl (Zpos m) e)
  | _ => 0
  end.

(** The fraction [std::modf] returns for a nonnegative number. *)
Definition modf_fraction (f : long_double) : long_double :=
  match f with
  | S754_finite s m e =>
      if 0 <=? e then S754_zero s
      else binary_normalize 64 16384 (Zpos m mod 2 ^ (- e)) e s
  | f => f
  end.

(** ** [int64x64_t] *)
Definition u128 (z : Z) : Z := z mod 2 ^ 128.
Definition i128 (z : Z) : Z := (z + 2 ^ 127) mod 2 ^ 128 - 2 ^ 127.
Definition HP_MASK_LO : Z := 0xffffffffffffffff.
Definition HP_MAX_64 : long_double := long_of_Z (2 ^ 64).

Definition magnitude (v : Z) : Z := u128 (Z.abs v).
Definition with_sign (negative : bool) (result : Z) : Z :=
  i128 (if negative then - result else result).

Definition int64x64_of_long (value : long_double) : Z :=
  let negative := SFltb value (S754_zero false) in
  let v := if negative then SFopp value else value in
  let round := SFdiv 64 16384 (long_of_Z 1) (long_of_Z 2) in
  let flo := SFadd 64 16384 (SFmul 64 16384 (modf_fraction v) HP_MAX_64) round in
  let hi := trunc v in
  let lo := u64 (trunc flo) in
  let hi := if SFleb HP_MAX_64 flo then hi + 1 else hi in
  let v := Z.lor (i128 (Z.shiftl hi 64)) lo in
  i128 (if negative then - v else v).

Definition int64x64_of_double (value : double) : Z := int64x64_of_long (to_long value).
Definition int64x64_of_int (v : Z) : Z := i128 (Z.shiftl v 64).
Definition GetHigh (v : Z) : Z := i64 (Z.shiftr v 64).

Definition GetDouble (v : Z) : double :=
  let negative := v <? 0 in
  let value := magnitude v in
  let fhi := long_of_Z (Z.shiftr value 64) in
  let flo := SFdiv 64 16384 (long_of_Z (Z.land value HP_MASK_LO)) HP_MAX_64 in
  let retval := SFadd 64 16384 fhi flo in
  to_double (if negative then SFopp retval else retval).

(** The program aborts when the product does not fit: [None]. *)
Definition Umul (a b : Z) : option Z :=
  let aL := Z.land a HP_MASK_LO in
  let bL := Z.land b HP_MASK_LO in
  let aH := Z.land (Z.shiftr a 64) HP_MASK_LO in
  let bH := Z.land (Z.shiftr b 64) HP_MASK_LO in
  let loPart := u128 (aL * bL) in
  let midPart := u128 (u128 (aL * bH) + u128 (aH * bL)) in
  let hiPart := u128 (aH * bH) in
  if negb (Z.shiftr hiPart 64 =? 0) then None
  else
    let result := u128 (Z.shiftr loPart 64 + Z.land midPart HP_MASK_LO) in
    let res1 := u128 (Z.shiftl (u128 (Z.shiftr midPart 64 + Z.land hiPart HP_MASK_LO)) 64) in
    Some (u128 (result + res1)).

Definition Mul (v o : Z) : option Z :=
  let negative := xorb (v <? 0) (o <? 0) in
  result ← Umul (magnitude v) (magnitude o);
  Some (with_sign negative result).

Definition UmulByInvert (a b : Z) : Z :=
  let ah := Z.shiftr a 64 in
  let bh := Z.shiftr b 64 in
  let al := Z.land a HP_MASK_LO in
  let bl := Z.land b HP_MASK_LO in
  let hi := u128 (ah * bh) in
  let mid := Z.shiftr (u128 (u128 (ah * bl) + u128 (al * bh))) 64 in
  u128 (hi + mid).

Definition MulByInvert (v o : Z) : Z :=
  with_sign (v <? 0) (UmulByInvert (magnitude v) (u128 o)).

(** [Udiv]: long division, a run of fraction bits per round.  Every inner step
    raises [shift] towards 64 and every round adds [shift >= 1] digits, so 64
    steps of fuel are enough for each loop. *)
Definition DIGITS : Z := 64.

Fixpoint skip_trailing (fuel : nat) (shift den : Z) : Z * Z :=
  match fuel with
  | O => (shift, den)
  | S fuel =>
      if (shift <? DIGITS) && negb (Z.testbit den 0)
      then skip_trailing fuel (shift + 1) (Z.shiftr den 1)
      else (shift, den)
  end.

Fixpoint skip_leading (fuel : nat) (digis shift rem : Z) : Z * Z :=
  match fuel with
  | O => (shift, rem)
  | S fuel =>
      if (digis + shift <? DIGITS) && negb (Z.testbit rem 127)
      then skip_leading fuel digis (shift + 1) (u128 (Z.shiftl rem 1))
      else (shift, rem)
  end.

Fixpoint cast_off (fuel : nat) (digis shift rem den : Z) : Z * Z :=
  match fuel with
  | O => (shift, den)
  | S fuel =>
      if (digis + shift <? DIGITS) && (negb (Z.testbit den 0) || (rem <? den))
      then cast_off fuel digis (shift + 1) rem (Z.shiftr den 1)
      else (shift, den)
  end.

Fixpoint udiv_rounds (fuel : nat) (digis shift rem den result : Z) : Z * Z :=
  match fuel with
  | O => (digis, result)
  | S fuel =>
      if (digis <? DIGITS) && negb (rem =? 0) then
        let '(shift, rem) := skip_leading 64 digis shift rem in
        let '(shift, den) := cast_off 64 digis shift rem den in
        let quo := rem / den in
        let rem := rem mod den in
        udiv_rounds fuel (digis + shift) 0 rem den (u128 (u128 (Z.shiftl result shift) + quo))
      else (digis, result)
  end.

Definition Udiv (a b : Z) : Z :=
  let '(shift, den) := skip_trailing 64 0 b in
  let '(digis, result) := udiv_rounds 64 0 shift (a mod b) den (a / b) in
  if digis <? DIGITS then u128 (Z.shiftl result (DIGITS - digis)) else result.

Definition Invert (v : Z) : Z :=
  let result := i128 (Udiv (Z.shiftl 1 64) v) in
  let tmp := MulByInvert (Z.shiftl v 64) result in
  if GetHigh tmp =? 1 then result else i128 (result + 1).

(** ** Seconds *)
Definition NS_PER_S : Z := 1000000000.

(** [Resolution::info[Time::S]], as [SetResolution] fills it for nanoseconds. *)
Definition timeFrom_S : Z := int64x64_of_int NS_PER_S.
Definition timeTo_S : Z := Invert NS_PER_S.

(** [Time::GetSeconds] is [To (Time::S).GetDouble ()]. *)
Definition GetSeconds (t : Z) : double := GetDouble (MulByInvert (int64x64_of_int t) timeTo_S).

(** [Seconds (double)] is [From (int64x64_t (value), Time::S)]; [None] when the
    multiplication aborts the program. *)
Definition Seconds (value : double) : option Z :=
  GetHigh <$> Mul (int64x64_of_double value) timeFrom_S.

(** An int64x64 multiplication that overflows aborts the simulation. *)
Definition abort_if_none {W A} (o : option A) : M W A :=
  match o with Some a => mret a | None => throw (Aborted "High precision 128 bits multiplication error") end.

(** [Time::GetMilliSeconds] divides the count of nanoseconds. *)
Definition GetMilliSeconds (t : Z) : Z := Z.quot t 1000000.

(** ** [UniformRandomVariable]

    Automatic streams are numbered by the run; [uv_create] gives the variable of
    one stream number. *)
Class UniformStreams (R : Type) := {
  uv_create : Z -> R;
  uv_SetStream : Z -> R -> R;
  uv_GetValue : double -> double -> R -> R * double
}.

Example seconds_1 : Seconds (double_of_Z 1) = Some 1000000000.
Proof. vm_compute. reflexivity. Qed.
Example get_seconds_1 : GetSeconds 1000000000 = double_of_Z 1.
Proof. vm_compute. reflexivity. Qed.
