(* ===== verification/FlowTableController.v ===== *)
(** * FlowTableController: the switch-side controller

    Source: [src/src/ndnSIM/statim/control/flow-table-controller.{hpp,cpp}].  The
    fields of the three legs (control request, FlowMod, completion notice) that
    the code names [m_controlLossRate], [m_flowModLossRate], [m_syncAckLossRate]
    and so on are one [LegState] per leg.  A [UniformRandomVariable] is a value
    of a type [R]; creating one draws its stream from the world. *)
From Stdlib Require Import Floats.SpecFloat.
From S2P Require Import Prelude Tlv Names Simulator SimTime ControlMessage.

Inductive FtcEvent :=
| AcceptControl (message : ControlMessage)
| AttemptFlowMod (message : ControlMessage)
| DeliverSyncAck (message : ControlMessage).

Inductive FtcCounter :=
| packetIns | packetInsDelivered | packetInsDropped | duplicatePacketIns
| stalePacketInsRejected | conflictingPacketInsRejected | flowModAttempts | flowModsApplied
| flowModsDropped | flowModsNoApplySink | staleFlowModEventsSuppressed
| duplicateFlowModEventsSuppressed | syncAckAttempts | syncAcksSent | syncAcksDropped
| idempotentAckReplays | expiredPacketInsRejected | expiredFlowModsRejected
| expiredSyncAcksSuppressed | flowModsRejectedBySink.

#[export] Instance FtcCounter_eq_dec : EqDecision FtcCounter.
Proof. solve_decision. Defined.

(** [UniformRandomVariable] of ns-3: [create_uniform] is [CreateObject], which
    takes the next automatic stream of the run. *)
Class UniformRandomVariable (W R : Type) := {
  create_uniform : W -> W * R;
  SetStream : Z -> R -> R;
  GetValue : double -> double -> R -> R * double
}.

Record DelayProfile := mkDelayProfile {
  controlExtra : Z;
  flowModExtra : Z;
  syncAckExtra : Z
}.

Definition DelayProfile_default : DelayProfile := mkDelayProfile 0 0 0.

Record PrefixState := mkPrefixState {
  hasAccepted : bool;
  highestAccepted : Z;
  acceptedMessage : ControlMessage;
  hasApplied : bool;
  highestApplied : Z;
  appliedMessage : ControlMessage
}.

Definition PrefixState_default : PrefixState :=
  mkPrefixState false 0 ControlMessage_default false 0 ControlMessage_default.

(** Loss, budget, delay, jitter and the two random variables of one leg. *)
Record LegState (R : Type) := mkLegState {
  lossRate : double;
  dropFirstN : Z;
  legDelay : Z;
  legJitter : Z;
  lossRand : option R;
  delayRand : option R
}.

Arguments mkLegState {R}.
Arguments lossRate {R} _.
Arguments dropFirstN {R} _.
Arguments legDelay {R} _.
Arguments legJitter {R} _.
Arguments lossRand {R} _.
Arguments delayRand {R} _.

#[export] Instance set_lossRate {R} : Setter (lossRate (R := R)) := fun f s =>
  mkLegState (f (lossRate s)) (dropFirstN s) (legDelay s) (legJitter s) (lossRand s)
    (delayRand s).
#[export] Instance set_dropFirstN {R} : Setter (dropFirstN (R := R)) := fun f s =>
  mkLegState (lossRate s) (f (dropFirstN s)) (legDelay s) (legJitter s) (lossRand s)
    (delayRand s).
#[export] Instance set_legDelay {R} : Setter (legDelay (R := R)) := fun f s =>
  mkLegState (lossRate s) (dropFirstN s) (f (legDelay s)) (legJitter s) (lossRand s)
    (delayRand s).
#[export] Instance set_legJitter {R} : Setter (legJitter (R := R)) := fun f s =>
  mkLegState (lossRate s) (dropFirstN s) (legDelay s) (f (legJitter s)) (lossRand s)
    (delayRand s).
#[export] Instance set_lossRand {R} : Setter (lossRand (R := R)) := fun f s =>
  mkLegState (lossRate s) (dropFirstN s) (legDelay s) (legJitter s) (f (lossRand s))
    (delayRand s).
#[export] Instance set_delayRand {R} : Setter (delayRand (R := R)) := fun f s =>
  mkLegState (lossRate s) (dropFirstN s) (legDelay s) (legJitter s) (lossRand s) (f
    (delayRand s)).

Inductive Leg := Control | FlowMod | SyncAck.

Record FlowTableController (R : Type) := mkFlowTableController {
  ftc_controllerDelay : Z;
  ftc_generationGuardEnabled : bool;
  m_control : LegState R;
  m_flowMod : LegState R;
  m_syncAck : LegState R;
  m_prefixStates : gmap Name PrefixState;
  m_delayProfiles : gmap Z DelayProfile;
  ftc_counters : counters FtcCounter
}.

Arguments mkFlowTableController {R}.
Arguments ftc_controllerDelay {R} _.
Arguments ftc_generationGuardEnabled {R} _.
Arguments m_control {R} _.
Arguments m_flowMod {R} _.
Arguments m_syncAck {R} _.
Arguments m_prefixStates {R} _.
Arguments m_delayProfiles {R} _.
Arguments ftc_counters {R} _.

#[export] Instance set_ftc_controllerDelay {R} : Setter (ftc_controllerDelay (R := R)) := fun f s =>
  mkFlowTableController (f (ftc_controllerDelay s)) (ftc_generationGuardEnabled s)
    (m_control s) (m_flowMod s) (m_syncAck s) (m_prefixStates s) (m_delayProfiles s)
    (ftc_counters s).
#[export] Instance set_ftc_generationGuardEnabled {R} : Setter (ftc_generationGuardEnabled (R := R)) := fun f s =>
  mkFlowTableController (ftc_controllerDelay s) (f (ftc_generationGuardEnabled s))
    (m_control s) (m_flowMod s) (m_syncAck s) (m_prefixStates s) (m_delayProfiles s)
    (ftc_counters s).
#[export] Instance set_m_control {R} : Setter (m_control (R := R)) := fun f s =>
  mkFlowTableController (ftc_controllerDelay s) (ftc_generationGuardEnabled s) (f (m_control
    s)) (m_flowMod s) (m_syncAck s) (m_prefixStates s) (m_delayProfiles s) (ftc_counters s).
#[export] Instance set_m_flowMod {R} : Setter (m_flowMod (R := R)) := fun f s =>
  mkFlowTableController (ftc_controllerDelay s) (ftc_generationGuardEnabled s) (m_control s)
    (f (m_flowMod s)) (m_syncAck s) (m_prefixStates s) (m_delayProfiles s) (ftc_counters s).
#[export] Instance set_m_syncAck {R} : Setter (m_syncAck (R := R)) := fun f s =>
  mkFlowTableController (ftc_controllerDelay s) (ftc_generationGuardEnabled s) (m_control s)
    (m_flowMod s) (f (m_syncAck s)) (m_prefixStates s) (m_delayProfiles s) (ftc_counters s).
#[export] Instance set_m_prefixStates {R} : Setter (m_prefixStates (R := R)) := fun f s =>
  mkFlowTableController (ftc_controllerDelay s) (ftc_generationGuardEnabled s) (m_control s)
    (m_flowMod s) (m_syncAck s) (f (m_prefixStates s)) (m_delayProfiles s) (ftc_counters s).
#[export] Instance set_m_delayProfiles {R} : Setter (m_delayProfiles (R := R)) := fun f s =>
  mkFlowTableController (ftc_controllerDelay s) (ftc_generationGuardEnabled s) (m_control s)
    (m_flowMod s) (m_syncAck s) (m_prefixStates s) (f (m_delayProfiles s)) (ftc_counters s).
#[export] Instance set_ftc_counters {R} : Setter (ftc_counters (R := R)) := fun f s =>
  mkFlowTableController (ftc_controllerDelay s) (ftc_generationGuardEnabled s) (m_control s)
    (m_flowMod s) (m_syncAck s) (m_prefixStates s) (m_delayProfiles s) (f (ftc_counters s)).

Definition leg_of {R} (l : Leg) (s : FlowTableController R) : LegState R :=
  match l with Control => m_control s | FlowMod => m_flowMod s | SyncAck => m_syncAck s end.

Definition leg_over {R} (l : Leg) (f : LegState R -> LegState R) (s : FlowTableController R)
    : FlowTableController R :=
  match l with
  | Control => s <| m_control ::= f |>
  | FlowMod => s <| m_flowMod ::= f |>
  | SyncAck => s <| m_syncAck ::= f |>
  end.

Definition LegState_new {R} (lossRand : option R) : LegState R :=
  mkLegState dzero 0 0 0 lossRand None.

(** The constructor creates one random variable. *)
Definition FlowTableController_new {R} (syncAckLossRand : R) : FlowTableController R :=
  mkFlowTableController 1000000000 false (LegState_new None) (LegState_new None)
    (LegState_new (Some syncAckLossRand)) ∅ ∅ counters_init.

(** *** The setters *)
Definition setControllerDelay {R} (delay : Z) (s : FlowTableController R) :=
  s <| ftc_controllerDelay := delay |>.
Definition setGenerationGuardEnabled {R} (enabled : bool) (s : FlowTableController R) :=
  s <| ftc_generationGuardEnabled := enabled |>.
Definition setLossRate {R} (l : Leg) (p : double) : FlowTableController R -> FlowTableController R :=
  leg_over l (fun g => g <| lossRate := p |>).
Definition setDropFirstN {R} (l : Leg) (n : Z) : FlowTableController R -> FlowTableController R :=
  leg_over l (fun g => g <| dropFirstN := n |>).
Definition setLegDelay {R} (l : Leg) (delay : Z) : FlowTableController R -> FlowTableController R :=
  leg_over l (fun g => g <| legDelay := delay |>).
Definition setLegJitter {R} (l : Leg) (jitter : Z)
    : FlowTableController R -> FlowTableController R :=
  leg_over l (fun g => g <| legJitter := jitter |>).
Definition setGenerationDelayProfile {R} (seq : Z) (profile : DelayProfile)
    (s : FlowTableController R) :=
  s <| m_delayProfiles ::= <[seq := profile]> |>.
Definition clearGenerationDelayProfiles {R} (s : FlowTableController R) :=
  s <| m_delayProfiles := ∅ |>.

Definition getDelayProfile {R} (seq : Z) (s : FlowTableController R) : DelayProfile :=
  default DelayProfile_default (m_delayProfiles s !! seq).

Definition getHighestAccepted {R} (prefix : Name) (s : FlowTableController R) : option Z :=
  match m_prefixStates s !! prefix with
  | Some st => if hasAccepted st then Some (highestAccepted st) else None
  | None => None
  end.

Definition getHighestApplied {R} (prefix : Name) (s : FlowTableController R) : option (Z * Z) :=
  match m_prefixStates s !! prefix with
  | Some st =>
      if hasApplied st then Some (highestApplied st, outputPort (appliedMessage st)) else None
  | None => None
  end.

Section controller.
Context {W R : Type} {LW : Lens W (FlowTableController R)} {SW : Scheduler W FtcEvent}.
Context {UR : UniformRandomVariable W R}.
Context (flowModApplyCb : option (ControlMessage -> M W bool)).
Context (syncAckCb : option (ControlMessage -> M W unit)).

Definition ftc_get : M W (FlowTableController R) := gets view.
Definition ftc_upd (f : FlowTableController R -> FlowTableController R) : M W unit :=
  modify (over f).
Definition ftc_count (c : FtcCounter) : M W unit :=
  ftc_upd (fun s => s <| ftc_counters ::= bump c |>).

(** [ensureRandom]: the random variable behind a pointer, created if null. *)
Definition ensureRandom (random : option R) : M W R :=
  match random with
  | Some r => mret r
  | None => action create_uniform
  end.

Definition ensure_loss (l : Leg) : M W unit :=
  s ← ftc_get;
  r ← ensureRandom (lossRand (leg_of l s));
  ftc_upd (leg_over l (fun g => g <| lossRand := Some r |>)).

Definition ensure_delay (l : Leg) : M W unit :=
  s ← ftc_get;
  r ← ensureRandom (delayRand (leg_of l s));
  ftc_upd (leg_over l (fun g => g <| delayRand := Some r |>)).

Definition assignStreams (firstStream : Z) : M W Z :=
  for_each [Control; FlowMod; SyncAck] ensure_loss;;
  for_each [Control; FlowMod; SyncAck] ensure_delay;;
  for_each [(Control, 0); (FlowMod, 1); (SyncAck, 2)] (fun '(l, k) =>
    ftc_upd (leg_over l (fun g => g <| lossRand ::= fmap (SetStream (firstStream + k)) |>)));;
  for_each [(Control, 3); (FlowMod, 4); (SyncAck, 5)] (fun '(l, k) =>
    ftc_upd (leg_over l (fun g => g <| delayRand ::= fmap (SetStream (firstStream + k)) |>)));;
  mret 6.

Definition shouldDrop (l : Leg) : M W bool :=
  s ← ftc_get;
  let g := leg_of l s in
  if 0 <? dropFirstN g then
    ftc_upd (leg_over l (fun g => g <| dropFirstN ::= fun n => n - 1 |>));; mret true
  else if dleb (lossRate g) dzero then mret false
  else if dleb (double_of_Z 1) (lossRate g) then mret true
  else
    r ← ensureRandom (lossRand g);
    let '(r, x) := GetValue dzero (double_of_Z 1) r in
    ftc_upd (leg_over l (fun g => g <| lossRand := Some r |>));;
    mret (dltb x (lossRate g)).

Definition sampleDelay (base jitter : Z) (l : Leg) : M W Z :=
  let seconds := GetSeconds base in
  let width := dmax dzero (GetSeconds jitter) in
  seconds ←
    (if dltb dzero width then
       s ← ftc_get;
       r ← ensureRandom (delayRand (leg_of l s));
       let '(r, x) := GetValue (dopp width) width r in
       ftc_upd (leg_over l (fun g => g <| delayRand := Some r |>));;
       mret (dadd seconds x)
     else mret seconds);
  abort_if_none (Seconds (dmax dzero seconds)).

Definition ftc_schedule (delay : Z) (e : FtcEvent) : M W unit :=
  modify (fun w => (sim_schedule delay e w).1).
Definition ftc_now : M W Z := gets (sim_now FtcEvent).

Definition deliverSyncAck (message : ControlMessage) : M W unit :=
  ftc_count syncAckAttempts;;
  t ← ftc_now;
  if isExpiredAt t message then ftc_count expiredSyncAcksSuppressed
  else
    drop ← shouldDrop SyncAck;
    if (drop : bool) then ftc_count syncAcksDropped
    else
      (match syncAckCb with Some cb => cb (with_type TYPE_SYNC_ACK message) | None => mret tt end);;
      ftc_count syncAcksSent.

Definition scheduleSyncAck (message : ControlMessage) (replay : bool) : M W unit :=
  (if replay then ftc_count idempotentAckReplays else mret tt);;
  s ← ftc_get;
  let profile := getDelayProfile (msg_seq message) s in
  delay ← sampleDelay (i64 (legDelay (m_syncAck s) + syncAckExtra profile))
            (legJitter (m_syncAck s)) SyncAck;
  if delay <=? 0 then deliverSyncAck message
  else ftc_schedule delay (DeliverSyncAck message).

(** A successful installation is recorded under the guard. *)
Definition record_applied (message : ControlMessage) : M W unit :=
  s ← ftc_get;
  if ftc_generationGuardEnabled s then
    ftc_upd (fun s => s <| m_prefixStates ::= fun states =>
      let st := default PrefixState_default (states !! msg_prefix message) in
      <[msg_prefix message := mkPrefixState (hasAccepted st) (highestAccepted st)
          (acceptedMessage st) true (msg_seq message) message]> states |>)
  else mret tt.

Definition attemptFlowMod (message : ControlMessage) : M W unit :=
  ftc_count flowModAttempts;;
  t ← ftc_now;
  if isExpiredAt t message then ftc_count expiredFlowModsRejected
  else
    s ← ftc_get;
    let st := m_prefixStates s !! msg_prefix message in
    if ftc_generationGuardEnabled s &&
       match st with
       | None => true
       | Some st => negb (hasAccepted st) || (msg_seq message <? highestAccepted st)
       end
    then ftc_count staleFlowModEventsSuppressed
    else if ftc_generationGuardEnabled s &&
       match st with
       | None => false
       | Some st => hasApplied st && (highestApplied st =? msg_seq message)
       end
    then ftc_count duplicateFlowModEventsSuppressed;; scheduleSyncAck message true
    else
      drop ← shouldDrop FlowMod;
      if (drop : bool) then ftc_count flowModsDropped
      else
        match flowModApplyCb with
        | None => ftc_count flowModsNoApplySink
        | Some cb =>
            applied ← cb (with_type TYPE_FLOW_MOD message);
            if negb (applied : bool) then ftc_count flowModsRejectedBySink
            else
              ftc_count flowModsApplied;;
              record_applied message;;
              scheduleSyncAck message false
        end.

(** The end of [acceptControl]: the FlowMod attempt is scheduled. *)
Definition schedule_FlowMod (message : ControlMessage) : M W unit :=
  s ← ftc_get;
  let profile := getDelayProfile (msg_seq message) s in
  delay ← sampleDelay
            (i64 (i64 (ftc_controllerDelay s + legDelay (m_flowMod s)) + flowModExtra profile))
            (legJitter (m_flowMod s)) FlowMod;
  ftc_schedule delay (AttemptFlowMod message).

Definition acceptControl (message : ControlMessage) : M W unit :=
  ftc_count packetInsDelivered;;
  t ← ftc_now;
  if isExpiredAt t message then ftc_count expiredPacketInsRejected
  else
    s ← ftc_get;
    if ftc_generationGuardEnabled s then
      let state := default PrefixState_default (m_prefixStates s !! msg_prefix message) in
      ftc_upd (fun s => s <| m_prefixStates ::= <[msg_prefix message := state]> |>);;
      if hasAccepted state && (msg_seq message <? highestAccepted state)
      then ftc_count stalePacketInsRejected
      else if hasAccepted state && (msg_seq message =? highestAccepted state) then
        ftc_count duplicatePacketIns;;
        if negb (sameUpdate message (acceptedMessage state))
        then ftc_count conflictingPacketInsRejected
        else if hasApplied state && (highestApplied state =? msg_seq message)
        then scheduleSyncAck message true
        else schedule_FlowMod message
      else
        ftc_upd (fun s => s <| m_prefixStates ::= <[msg_prefix message :=
          mkPrefixState true (msg_seq message) message (hasApplied state)
            (highestApplied state) (appliedMessage state)]> |>);;
        schedule_FlowMod message
    else schedule_FlowMod message.

Definition submitFlowUpdate (message : ControlMessage) : M W unit :=
  ftc_count packetIns;;
  drop ← shouldDrop Control;
  if (drop : bool) then ftc_count packetInsDropped
  else
    s ← ftc_get;
    let profile := getDelayProfile (msg_seq message) s in
    delay ← sampleDelay (i64 (legDelay (m_control s) + controlExtra profile))
              (legJitter (m_control s)) Control;
    if delay <=? 0 then acceptControl message
    else ftc_schedule delay (AcceptControl message).

(** The scheduled events. *)
Definition ftc_event (e : FtcEvent) : M W unit :=
  match e with
  | AcceptControl message => acceptControl message
  | AttemptFlowMod message => attemptFlowMod message
  | DeliverSyncAck message => deliverSyncAck message
  end.
End controller.
