(* ===== verification/FlowTableControllerSpec.v ===== *)
(** * FlowTableControllerSpec: what the switch-side controller promises

    The generation order the guard keeps, the accounting of attempts, and the
    idempotence of repeated requests, for [FlowTableController]. *)
From Stdlib Require Import Floats.SpecFloat.
From S2P Require Import Prelude Tlv Names Simulator SimTime ControlMessage FlowTableController.

(** Creating a random variable touches neither the controller nor the events. *)
Class UniformFrame (W R S E : Type) `{!Lens W S, !Scheduler W E, !UniformRandomVariable W R}
    : Prop := {
  view_create (w : W) : view (create_uniform (R := R) w).1 = view (S := S) w;
  now_create (w : W) : sim_now E (create_uniform (R := R) w).1 = sim_now E w;
  pending_create (w : W) id (e : E) : pending (create_uniform (R := R) w).1 id e <-> pending w id e
}.

(** ** Generations *)
Section order.
Context {R : Type}.
Implicit Types (s : FlowTableController R) (m : ControlMessage).

(** The prefix has accepted the message's generation or a later one. *)
Definition granted s m : Prop :=
  exists st, m_prefixStates s !! msg_prefix m = Some st /\ hasAccepted st = true /\
    msg_seq m <= highestAccepted st.

(** The message is of the generation its prefix accepted last. *)
Definition current s m : Prop :=
  exists st, m_prefixStates s !! msg_prefix m = Some st /\ hasAccepted st = true /\
    msg_seq m = highestAccepted st.

#[export] Instance current_dec s m : Decision (current s m).
Proof.
  unfold current. destruct (m_prefixStates s !! msg_prefix m) as [st|]; [|right; naive_solver].
  destruct (decide (hasAccepted st = true /\ msg_seq m = highestAccepted st));
    [left|right]; naive_solver.
Defined.

(** What is recorded for a prefix is about it, and the installed generation is
    an accepted one. *)
Record prefix_wf (p : Name) (st : PrefixState) : Prop := {
  pw_accepted : hasAccepted st = true ->
    msg_prefix (acceptedMessage st) = p /\ msg_seq (acceptedMessage st) = highestAccepted st;
  pw_applied : hasApplied st = true ->
    hasAccepted st = true /\ highestApplied st <= highestAccepted st /\
    msg_prefix (appliedMessage st) = p /\ msg_seq (appliedMessage st) = highestApplied st
}.

Definition ftc_wf s : Prop :=
  ftc_generationGuardEnabled s = true /\
  forall p st, m_prefixStates s !! p = Some st -> prefix_wf p st.

(** The highest generations of a prefix only grow. *)
Record st_later (st st' : PrefixState) : Prop := {
  sl_accepted : hasAccepted st = true ->
    hasAccepted st' = true /\ highestAccepted st <= highestAccepted st';
  sl_applied : hasApplied st = true ->
    hasApplied st' = true /\ highestApplied st <= highestApplied st'
}.

Definition later s s' : Prop :=
  forall p st, m_prefixStates s !! p = Some st ->
    exists st', m_prefixStates s' !! p = Some st' /\ st_later st st'.

#[export] Instance later_preorder : PreOrder later.
Proof.
  split.
  - intros s p st H. exists st. split; [done|]. by split.
  - intros s1 s2 s3 H12 H23 p st H1.
    destruct (H12 p st H1) as (st2 & H2 & Ha & Hb). destruct (H23 p st2 H2) as (st3 & H3 & Ha' & Hb').
    exists st3. split; [done|]. split.
    + intros G. destruct (Ha G) as [G2 ?]. destruct (Ha' G2). split; [done|lia].
    + intros G. destruct (Hb G) as [G2 ?]. destruct (Hb' G2). split; [done|lia].
Qed.

Lemma granted_later s s' m : later s s' -> granted s m -> granted s' m.
Proof.
  intros Hl (st & H & Ha & Hle). destruct (Hl _ _ H) as (st' & H' & Ha' & _).
  exists st'. destruct (Ha' Ha). split_and!; [done..|lia].
Qed.

(** A change of one prefix's state that only raises its generations. *)
Lemma later_insert s p st' :
  (forall st, m_prefixStates s !! p = Some st -> st_later st st') ->
  later s (s <| m_prefixStates ::= <[p := st']> |>).
Proof.
  intros H q st Hq. cbn. rewrite lookup_insert. case_decide as E; [|by exists st; split].
  subst q. exists st'. split; [done|]. by apply H.
Qed.

Lemma ftc_wf_insert s p st : ftc_wf s -> prefix_wf p st ->
  ftc_wf (s <| m_prefixStates ::= <[p := st]> |>).
Proof.
  intros [G H] Hst. split; [done|]. intros q st'. cbn. rewrite lookup_insert.
  case_decide as E; [|apply H]. intros [= <-]. by subst q.
Qed.

(** A change outside the guard and the prefix states. *)
Definition silent (f : FlowTableController R -> FlowTableController R) : Prop :=
  forall s, m_prefixStates (f s) = m_prefixStates s /\
    ftc_generationGuardEnabled (f s) = ftc_generationGuardEnabled s.

Lemma silent_count c : silent (fun s => s <| ftc_counters ::= bump c |>).
Proof. done. Qed.
Lemma silent_leg l g : silent (leg_over l g).
Proof. by destruct l. Qed.

Lemma silent_wf f s : silent f -> ftc_wf s -> ftc_wf (f s).
Proof. intros Hf [G H]. destruct (Hf s) as [Hp Hg]. split; [congruence|]. by rewrite Hp. Qed.
Lemma silent_later f s : silent f -> later s (f s).
Proof. intros Hf p st H. destruct (Hf s) as [Hp _]. exists st. rewrite Hp. split; [done|]. by split. Qed.
End order.

Create HintDb ftc.
#[export] Hint Resolve silent_count silent_leg : ftc.

Section invariant.
Context {W R : Type} {LW : Lens W (FlowTableController R)} {SW : Scheduler W FtcEvent}.
Context {UR : UniformRandomVariable W R}.
Context {LL : LensLaws W (FlowTableController R)} {SL : SchedulerLaws W FtcEvent}.
Context {SF : SchedulerFrame W (FlowTableController R) FtcEvent}.
Context {UF : UniformFrame W R (FlowTableController R) FtcEvent}.
Implicit Types (w : W) (s : FlowTableController R) (m : ControlMessage).

Lemma run_ftc_get {A} (k : FlowTableController R -> M W A) w : (ftc_get ≫= k) w = k (view w) w.
Proof. done. Qed.
Lemma run_ftc_upd {A} f (k : unit -> M W A) w : (ftc_upd f ≫= k) w = k tt (over f w).
Proof. done. Qed.
Lemma run_ftc_count {A} c (k : unit -> M W A) w :
  (ftc_count c ≫= k) w = k tt (over (fun s => s <| ftc_counters ::= bump c |>) w).
Proof. done. Qed.
Lemma run_ftc_now {A} (k : Z -> M W A) w : (ftc_now ≫= k) w = k (sim_now FtcEvent w) w.
Proof. done. Qed.

(** The guard is on, the states are consistent, and every queued FlowMod attempt
    is of a generation its prefix has accepted. *)
Definition ftc_inv w : Prop :=
  ftc_wf (view w) /\ forall id m, pending w id (AttemptFlowMod m) -> granted (view w) m.

(** [m] keeps the invariant and never lowers a generation. *)
Definition orderly {A} (m : M W A) : Prop :=
  forall w, ftc_inv w -> ftc_inv (m w).1 /\ later (view w) (view (m w).1).

Lemma orderly_ret {A} (a : A) : orderly (mret a).
Proof. by intros w H. Qed.

Lemma orderly_throw {A} e : orderly (throw (A := A) e).
Proof. by intros w H. Qed.

Lemma orderly_gets {A} (f : W -> A) : orderly (gets f).
Proof. by intros w H. Qed.

Lemma orderly_bind {A B} (m : M W A) (k : A -> M W B) :
  orderly m -> (forall a, orderly (k a)) -> orderly (m ≫= k).
Proof.
  intros Hm Hk w Hw. destruct (Hm w Hw) as [H1 H2]. unfold mbind, M_bind.
  destruct (m w) as [w' [e|a]]; [done|]. destruct (Hk a w' H1) as [H3 H4].
  split; [done|by etrans].
Qed.

(** Rule for code that runs after a read of the state. *)
Lemma orderly_get_bind {B} (k : FlowTableController R -> M W B) :
  (forall w, ftc_inv w -> ftc_inv (k (view w) w).1 /\ later (view w) (view (k (view w) w).1)) ->
  orderly (ftc_get ≫= k).
Proof. intros H w Hw. by apply H. Qed.

Lemma ftc_now_over f w : sim_now FtcEvent (over f w) = sim_now FtcEvent w.
Proof. apply now_put. Qed.

Lemma ftc_pending_over f w id (e : FtcEvent) : pending (over f w) id e <-> pending w id e.
Proof. apply pending_put. Qed.

Lemma ftc_inv_over f w :
  ftc_inv w -> ftc_wf (f (view w)) -> later (view w) (f (view w)) -> ftc_inv (over f w).
Proof.
  intros [H1 H2] Hwf Hl. split; rewrite view_over; [done|]. intros id m Hp.
  apply pending_put in Hp. eapply granted_later; eauto.
Qed.

(** [m] keeps the invariant and every prefix's state. *)
Definition steady {A} (m : M W A) : Prop :=
  forall w, ftc_inv w -> ftc_inv (m w).1 /\ m_prefixStates (view (m w).1) = m_prefixStates (view w).

Lemma steady_orderly {A} (m : M W A) : steady m -> orderly m.
Proof.
  intros H w Hw. destruct (H w Hw) as [H1 H2]. split; [done|].
  intros p st Hp. exists st. rewrite H2. split; [done|]. by split.
Qed.

Lemma steady_ret {A} (a : A) : steady (mret a).
Proof. by intros w H. Qed.
Lemma steady_throw {A} e : steady (throw (A := A) e).
Proof. by intros w H. Qed.
Lemma steady_gets {A} (f : W -> A) : steady (gets f).
Proof. by intros w H. Qed.

Lemma steady_bind {A B} (m : M W A) (k : A -> M W B) :
  steady m -> (forall a, steady (k a)) -> steady (m ≫= k).
Proof.
  intros Hm Hk w Hw. destruct (Hm w Hw) as [H1 H2]. unfold mbind, M_bind.
  destruct (m w) as [w' [e|a]]; [done|]. destruct (Hk a w' H1) as [H3 H4].
  split; [done|by etrans].
Qed.

Lemma steady_upd f : silent f -> steady (ftc_upd f).
Proof.
  intros Hf w Hw. cbn. split.
  - apply ftc_inv_over; [done|apply silent_wf; [done|apply Hw]|by apply silent_later].
  - rewrite view_over. apply Hf.
Qed.

Lemma steady_ensureRandom r : steady (ensureRandom r).
Proof.
  destruct r as [r|]; [apply steady_ret|]. intros w [H1 H2].
  unfold ensureRandom, action. pose proof (view_create (S := FlowTableController R) w) as Hv.
  pose proof (pending_create (S := FlowTableController R) w) as Hp.
  destruct (create_uniform w) as [w' r']. cbn in *. split.
  - split; rewrite Hv; [done|]. intros id m Hm. apply Hp in Hm. eauto.
  - by rewrite Hv.
Qed.

Hint Resolve steady_ret steady_throw steady_gets steady_upd steady_ensureRandom : ftc.

Lemma steady_count c : steady (ftc_count c).
Proof. apply steady_upd, silent_count. Qed.
Hint Resolve steady_count : ftc.

(** Walks through a computation that only makes silent changes. *)
Ltac steady :=
  repeat first
    [ solve [eauto with ftc]
    | apply steady_bind; [|intros ?]
    | progress cbv zeta
    | match goal with
      | |- steady (match ?x with _ => _ end) => destruct x
      end ].

Lemma steady_shouldDrop l : steady (shouldDrop l).
Proof. unfold shouldDrop. steady. Qed.

Lemma steady_sampleDelay base jitter l : steady (sampleDelay base jitter l).
Proof. unfold sampleDelay, abort_if_none. steady. Qed.
Hint Resolve steady_shouldDrop steady_sampleDelay : ftc.

(** The same walk for [orderly], down to the steady parts. *)
Ltac orderly :=
  repeat first
    [ solve [eauto with ftc]
    | solve [apply steady_orderly; steady]
    | apply orderly_bind; [|intros ?]
    | progress cbv zeta
    | match goal with
      | |- orderly (match ?x with _ => _ end) => destruct x
      end ].

Definition no_FlowMod (e : FtcEvent) : Prop := forall m, e <> AttemptFlowMod m.

Lemma ftc_inv_schedule d e w :
  ftc_inv w -> (forall m, e = AttemptFlowMod m -> granted (view w) m) ->
  ftc_inv (sim_schedule d e w).1.
Proof.
  intros [H1 H2] He. split; rewrite view_schedule; [done|]. intros id m Hp.
  apply pending_schedule in Hp as [[_ Heq]|Hp]; [by apply He|by eapply H2].
Qed.

Lemma orderly_schedule d e : no_FlowMod e -> orderly (ftc_schedule d e).
Proof.
  intros He w Hw. cbn. split.
  - apply ftc_inv_schedule; [done|]. intros m Hm. by destruct (He m).
  - by rewrite view_schedule.
Qed.

Section callbacks.
Context (flowModApplyCb : option (ControlMessage -> M W bool)).
Context (syncAckCb : option (ControlMessage -> M W unit)).
(** The sink installs a route and does not call the controller back. *)
Hypothesis apply_steady : forall cb, flowModApplyCb = Some cb -> forall m, steady (cb m).
Hypothesis ack_orderly : forall cb, syncAckCb = Some cb -> forall m, orderly (cb m).

Lemma orderly_deliverSyncAck m : orderly (deliverSyncAck syncAckCb m).
Proof. unfold deliverSyncAck. orderly. Qed.
Hint Resolve orderly_deliverSyncAck : ftc.

Lemma orderly_scheduleSyncAck m replay : orderly (scheduleSyncAck syncAckCb m replay).
Proof. unfold scheduleSyncAck. orderly. by apply orderly_schedule. Qed.
Hint Resolve orderly_scheduleSyncAck : ftc.

(** *** Code that runs when a generation is granted, or current *)
Definition orderly_when (P : FlowTableController R -> Prop) {A} (c : M W A) : Prop :=
  forall w, ftc_inv w -> P (view w) -> ftc_inv (c w).1 /\ later (view w) (view (c w).1).

Lemma orderly_when_weaken P {A} (c : M W A) : orderly c -> orderly_when P c.
Proof. intros H w Hw _. by apply H. Qed.

(** A condition on the prefix states survives a steady computation. *)
Definition on_states (P : FlowTableController R -> Prop) : Prop :=
  forall s s', m_prefixStates s = m_prefixStates s' -> P s -> P s'.

Lemma on_states_granted m : on_states (fun s => granted s m).
Proof. intros s s' H (st & ?). exists st. by rewrite <-H. Qed.
Lemma on_states_current m : on_states (fun s => current s m).
Proof. intros s s' H (st & ?). exists st. by rewrite <-H. Qed.

Lemma orderly_when_steady P {A B} (c : M W A) (k : A -> M W B) :
  on_states P -> steady c -> (forall a, orderly_when P (k a)) -> orderly_when P (c ≫= k).
Proof.
  intros HP Hc Hk w Hw Hg. destruct (Hc w Hw) as [H1 H2].
  pose proof (steady_orderly _ Hc w Hw) as [_ H3]. unfold mbind, M_bind.
  destruct (c w) as [w' [e|a]]; [done|]. cbn in *.
  destruct (Hk a w' H1) as [H4 H5]; [by eapply HP|]. split; [done|by etrans].
Qed.

Lemma schedule_FlowMod_orderly m : orderly_when (fun s => granted s m) (schedule_FlowMod m).
Proof.
  unfold schedule_FlowMod. apply orderly_when_steady; [apply on_states_granted|steady|intros s].
  cbv zeta. apply orderly_when_steady; [apply on_states_granted|steady|intros d].
  intros w Hw Hg. cbn. split; [|by rewrite view_schedule].
  apply ftc_inv_schedule; [done|]. by intros m' [= <-].
Qed.

Lemma record_applied_orderly m : orderly_when (fun s => current s m) (record_applied m).
Proof.
  intros w Hw (st & Hst & Ha & Heq). unfold record_applied. rewrite run_ftc_get.
  destruct Hw as [[G Hwf] Hev]. rewrite G. cbn [ftc_upd modify fst].
  set (f := fun s : FlowTableController R => _).
  assert (f (view w) = view w <| m_prefixStates ::= <[msg_prefix m := mkPrefixState true
      (highestAccepted st) (acceptedMessage st) true (msg_seq m) m]> |>) as Hf.
  { unfold f, set_field, set_m_prefixStates. rewrite Hst. cbn [default from_option id]. by rewrite Ha. }
  pose proof (Hwf _ _ Hst) as [Hacc Happ].
  assert (later (view w) (f (view w))) as Hl.
  { rewrite Hf. apply later_insert. rewrite Hst. intros ? [= <-]. split; [done|].
    intros Hap. destruct (Happ Hap) as (_ & ? & _). split; [done|]. cbn. lia. }
  split; [|by rewrite view_over]. apply ftc_inv_over; [by split|rewrite Hf|done].
  apply ftc_wf_insert; [done|]. split; [by intros _; apply Hacc|].
  intros _. cbn. split_and!; [done|lia|done|done].
Qed.

Lemma attemptFlowMod_orderly m :
  orderly_when (fun s => granted s m) (attemptFlowMod flowModApplyCb syncAckCb m).
Proof.
  unfold attemptFlowMod. apply orderly_when_steady; [apply on_states_granted|steady|intros _].
  apply orderly_when_steady; [apply on_states_granted|steady|intros t].
  destruct (isExpiredAt t m); [apply orderly_when_weaken; orderly|].
  intros w Hw (st & Hst & Ha & Hle). rewrite run_ftc_get. destruct Hw as [[G Hwf] Hev].
  cbv zeta. rewrite G, Hst, Ha. cbn [andb negb orb].
  destruct (Z.ltb_spec (msg_seq m) (highestAccepted st)) as [Hlt|Hge].
  { apply (steady_orderly _ (steady_count _)). by split. }
  destruct (hasApplied st && _).
  { apply orderly_bind; [orderly|intros _; orderly|by split]. }
  assert (orderly_when (fun s => current s m)
    (drop ← shouldDrop FlowMod;
     if (drop : bool) then ftc_count flowModsDropped
     else match flowModApplyCb with
          | None => ftc_count flowModsNoApplySink
          | Some cb =>
              applied ← cb (with_type TYPE_FLOW_MOD m);
              if negb applied then ftc_count flowModsRejectedBySink
              else ftc_count flowModsApplied;; record_applied m;;
                   scheduleSyncAck syncAckCb m false
          end)) as Hrest.
  { pose proof (on_states_current m) as Hs.
    apply orderly_when_steady; [done|steady|intros [|]]; [apply orderly_when_weaken; orderly|].
    destruct flowModApplyCb as [cb|]; [|apply orderly_when_weaken; orderly].
    apply orderly_when_steady; [done|by apply apply_steady|intros [|]]; cbn [negb];
      [|apply orderly_when_weaken; orderly].
    apply orderly_when_steady; [done|steady|intros _].
    intros w' Hw' Hc'. destruct (record_applied_orderly m w' Hw' Hc') as [H1 H2].
    unfold mbind, M_bind. destruct (record_applied m w') as [w'' [e|[]]]; [done|].
    destruct (orderly_scheduleSyncAck m false w'' H1) as [H3 H4]. split; [done|by etrans]. }
  apply Hrest; [by split|]. exists st. split_and!; [done..|lia].
Qed.

(** Replace one prefix's state by a later, consistent one, and go on. *)
Lemma orderly_at_insert {A} (k : M W A) p st' w :
  ftc_inv w -> prefix_wf p st' ->
  (forall st, m_prefixStates (view w) !! p = Some st -> st_later st st') ->
  orderly_when (fun s => m_prefixStates s !! p = Some st') k ->
  let run := (ftc_upd (fun s => s <| m_prefixStates ::= <[p := st']> |>);; k) w in
  ftc_inv run.1 /\ later (view w) (view run.1).
Proof.
  intros Hw Hst Hl Hk. cbv zeta. rewrite run_ftc_upd. set (w1 := over _ w).
  assert (view w1 = view w <| m_prefixStates ::= <[p := st']> |>) as Hv by apply view_over.
  assert (later (view w) (view w1)) as Hl1 by (rewrite Hv; by apply later_insert).
  destruct (Hk w1) as [H1 H2].
  - apply ftc_inv_over; [done|apply ftc_wf_insert; [apply Hw|done]|by apply later_insert].
  - rewrite Hv. apply lookup_insert_eq.
  - split; [done|by etrans].
Qed.

Lemma acceptControl_orderly m : orderly (acceptControl syncAckCb m).
Proof.
  unfold acceptControl. apply orderly_bind; [orderly|intros _]. apply orderly_bind; [orderly|intros t].
  destruct (isExpiredAt t m); [orderly|]. intros w Hw. rewrite run_ftc_get.
  pose proof Hw as [[G Hwf] _]. rewrite G. cbv zeta.
  set (st := default PrefixState_default (m_prefixStates (view w) !! msg_prefix m)).
  assert (prefix_wf (msg_prefix m) st /\
    forall st0, m_prefixStates (view w) !! msg_prefix m = Some st0 -> st_later st0 st) as [Hst Hl].
  { unfold st. destruct (m_prefixStates (view w) !! msg_prefix m) as [st0|] eqn:E; cbn.
    - split; [by apply Hwf|]. intros ? [= <-]. by split.
    - by split. }
  clearbody st. apply orderly_at_insert; [done..|]. clear w Hw G Hwf Hl.
  destruct (hasAccepted st) eqn:Ha; cbn [andb].
  - destruct (Z.ltb_spec (msg_seq m) (highestAccepted st)) as [Hlt|Hge];
      [apply orderly_when_weaken; orderly|].
    destruct (Z.eqb_spec (msg_seq m) (highestAccepted st)) as [Heq|Hne].
    + assert (orderly_when (fun s => granted s m) (schedule_FlowMod m)) as Hsf
        by apply schedule_FlowMod_orderly.
      apply orderly_when_steady; [by intros s s' <-|steady|intros _].
      destruct (negb _); [apply orderly_when_weaken; orderly|].
      destruct (hasApplied st && _); [apply orderly_when_weaken; orderly|].
      intros w Hw Hl. apply Hsf; [done|]. exists st. split_and!; [done..|lia].
    + intros w Hw Hp. apply orderly_at_insert; [done| | |].
      * split; [by intros _|]. intros Hap. destruct (pw_applied _ _ Hst Hap) as (_ & ? & ? & ?).
        cbn. split_and!; [done|lia|done|done].
      * rewrite Hp. intros ? [= <-]. split; cbn; [|done]. intros _. split; [done|lia].
      * intros w' Hw' Hp'. apply schedule_FlowMod_orderly; [done|].
        eexists. split; [exact Hp'|]. cbn. split; [done|lia].
  - intros w Hw Hp. apply orderly_at_insert; [done| | |].
    + split; [by intros _|]. intros Hap. destruct (pw_applied _ _ Hst Hap). congruence.
    + rewrite Hp. intros ? [= <-]. split; [congruence|done].
    + intros w' Hw' Hp'. apply schedule_FlowMod_orderly; [done|].
      eexists. split; [exact Hp'|]. cbn. split; [done|lia].
Qed.

Lemma submitFlowUpdate_orderly m : orderly (submitFlowUpdate syncAckCb m).
Proof.
  pose proof (acceptControl_orderly m). unfold submitFlowUpdate. orderly. by apply orderly_schedule.
Qed.

Lemma ftc_event_orderly e w :
  ftc_inv w -> (forall m, e = AttemptFlowMod m -> granted (view w) m) ->
  let w' := (ftc_event flowModApplyCb syncAckCb e w).1 in ftc_inv w' /\ later (view w) (view w').
Proof.
  intros Hw He. destruct e as [m|m|m].
  - by apply acceptControl_orderly.
  - apply attemptFlowMod_orderly; [done|by apply He].
  - by apply orderly_deliverSyncAck.
Qed.
End callbacks.
End invariant.

(** ** Accounting

    A weighted sum of the counters, modulo 2^64, and computations that shift it
    by a known amount when they return. *)
Definition all_counters : list FtcCounter :=
  [packetIns; packetInsDelivered; packetInsDropped; duplicatePacketIns; stalePacketInsRejected;
   conflictingPacketInsRejected; flowModAttempts; flowModsApplied; flowModsDropped;
   flowModsNoApplySink; staleFlowModEventsSuppressed; duplicateFlowModEventsSuppressed;
   syncAckAttempts; syncAcksSent; syncAcksDropped; idempotentAckReplays; expiredPacketInsRejected;
   expiredFlowModsRejected; expiredSyncAcksSuppressed; flowModsRejectedBySink].

Definition weighted (wt : FtcCounter -> Z) (l : list FtcCounter) (cs : counters FtcCounter) : Z :=
  foldr (fun c acc => wt c * cs c + acc) 0 l.

Definition balance (wt : FtcCounter -> Z) (cs : counters FtcCounter) : Z :=
  u64 (weighted wt all_counters cs).

Lemma weighted_bump_notin wt l c cs : c ∉ l -> weighted wt l (bump c cs) = weighted wt l cs.
Proof.
  induction l as [|x l IH]; [done|]. rewrite not_elem_of_cons. intros [Hne Hin]. cbn.
  fold (weighted wt l (bump c cs)) (weighted wt l cs). rewrite IH, bump_ne by done. done.
Qed.

Lemma weighted_bump wt l c cs :
  NoDup l -> c ∈ l -> u64 (weighted wt l (bump c cs)) = u64 (weighted wt l cs + wt c).
Proof.
  induction 1 as [|x l Hx Hl IH]; [by rewrite elem_of_nil|]. rewrite elem_of_cons. cbn.
  fold (weighted wt l (bump c cs)) (weighted wt l cs). intros [<-|Hin].
  - rewrite weighted_bump_notin, bump_eq by done.
    unfold u64. rewrite Z.add_mod, Z.mul_mod_idemp_r, <-Z.add_mod by lia. f_equal. lia.
  - rewrite bump_ne by (by intros ->).
    replace (wt x * cs x + weighted wt l cs + wt c)
      with (wt x * cs x + (weighted wt l cs + wt c)) by lia.
    unfold u64 in *. rewrite Z.add_mod, IH, <-Z.add_mod by (done || lia). done.
Qed.

Lemma balance_bump wt c cs : balance wt (bump c cs) = u64 (balance wt cs + wt c).
Proof.
  unfold balance. rewrite weighted_bump.
  - unfold u64. by rewrite Z.add_mod_idemp_l by lia.
  - apply (bool_decide_unpack _). vm_compute. done.
  - destruct c; unfold all_counters; rewrite !elem_of_cons; auto 25.
Qed.

Section accounting.
Context {W R : Type} {LW : Lens W (FlowTableController R)} {SW : Scheduler W FtcEvent}.
Context {UR : UniformRandomVariable W R}.
Context {LL : LensLaws W (FlowTableController R)} {SL : SchedulerLaws W FtcEvent}.
Context {SF : SchedulerFrame W (FlowTableController R) FtcEvent}.
Context {UF : UniformFrame W R (FlowTableController R) FtcEvent}.
Context (wt : FtcCounter -> Z).
Implicit Types (w : W).

Abbreviation total w := (balance wt (ftc_counters (view (S := FlowTableController R) w))).

(** When [m] returns, the sum has moved by [k]. *)
Definition shifts (k : Z) {A} (m : M W A) : Prop :=
  forall w w' a, m w = (w', inr a) -> total w' = u64 (total w + k).

Lemma u64_total w k : u64 (total w + k) = u64 (u64 (total w) + k).
Proof. unfold u64. by rewrite Z.add_mod_idemp_l by lia. Qed.

Lemma u64_total_0 w : u64 (total w + 0) = total w.
Proof. unfold balance, u64. by rewrite Z.add_0_r, Z.mod_mod by lia. Qed.

Lemma shifts_pure {A} (m : M W A) :
  (forall w, ftc_counters (view (m w).1) = ftc_counters (view (S := FlowTableController R) w)) ->
  shifts 0 m.
Proof. intros H w w' a E. specialize (H w). rewrite E in H. cbn in H. by rewrite H, u64_total_0. Qed.

Lemma shifts_bind k1 k2 {A B} (m : M W A) (f : A -> M W B) :
  shifts k1 m -> (forall a, shifts (k2 - k1) (f a)) -> shifts k2 (m ≫= f).
Proof.
  intros Hm Hf w w' b. unfold mbind, M_bind. destruct (m w) as [w1 [e|a]] eqn:E; [done|].
  intros E2. rewrite (Hf a _ _ _ E2), (Hm _ _ _ E). unfold u64.
  rewrite Z.add_mod_idemp_l by lia. f_equal. lia.
Qed.

Lemma shifts_bind_0 k {A B} (m : M W A) (f : A -> M W B) :
  shifts 0 m -> (forall a, shifts k (f a)) -> shifts k (m ≫= f).
Proof. intros Hm Hf. eapply shifts_bind; [done|]. intros a. by rewrite Z.sub_0_r. Qed.

Lemma shifts_ret {A} (a : A) : shifts 0 (mret a).
Proof. by apply shifts_pure. Qed.
Lemma shifts_throw k {A} e : shifts k (throw (A := A) e).
Proof. by intros w w' a. Qed.
Lemma shifts_gets {A} (f : W -> A) : shifts 0 (gets f).
Proof. by apply shifts_pure. Qed.

Lemma shifts_get : shifts 0 ftc_get.
Proof. apply shifts_gets. Qed.
Lemma shifts_now : shifts 0 ftc_now.
Proof. apply shifts_gets. Qed.

Lemma shifts_upd f :
  (forall s, ftc_counters (f s) = ftc_counters s) -> shifts 0 (ftc_upd f).
Proof. intros Hf. apply shifts_pure. intros w. cbn. by rewrite view_over, Hf. Qed.

Lemma shifts_leg l g : shifts 0 (ftc_upd (leg_over l g)).
Proof. apply shifts_upd. by destruct l. Qed.

Lemma shifts_count k c : k = wt c -> shifts k (ftc_count c).
Proof.
  intros -> w w' a. cbn. intros [= <- <-]. rewrite view_over. apply balance_bump.
Qed.

Lemma shifts_count_bind c k {B} (f : unit -> M W B) :
  shifts (k - wt c) (f tt) -> shifts k (ftc_count c ≫= f).
Proof. intros Hf. eapply shifts_bind; [by apply shifts_count|]. by intros []. Qed.

Lemma shifts_schedule d e : shifts 0 (ftc_schedule d e).
Proof. apply shifts_pure. intros w. cbn. by rewrite view_schedule. Qed.

Lemma shifts_ensureRandom r : shifts 0 (ensureRandom r).
Proof.
  destruct r as [r|]; [apply shifts_ret|]. apply shifts_pure. intros w. unfold ensureRandom, action.
  pose proof (view_create (S := FlowTableController R) w) as Hv.
  destruct (create_uniform w). cbn in *. by rewrite Hv.
Qed.

Lemma shifts_record_applied m : shifts 0 (record_applied m).
Proof.
  apply shifts_pure. intros w. unfold record_applied. rewrite run_ftc_get.
  destruct (ftc_generationGuardEnabled (view w)); [|done]. cbn. by rewrite view_over.
Qed.
End accounting.

#[export] Hint Resolve shifts_ret shifts_throw shifts_gets shifts_get shifts_now shifts_leg shifts_schedule
  shifts_ensureRandom shifts_record_applied : shifts.

(** Walks through a handler: counters are charged, everything else is free. *)
Ltac shifts_step :=
  first
    [ solve [eauto with shifts]
    | apply shifts_upd; reflexivity
    | apply shifts_count; reflexivity
    | apply shifts_count_bind
    | apply shifts_bind_0; [|intros ?]
    | progress cbv zeta
    | match goal with
      | |- shifts _ _ (match ?x with _ => _ end) => destruct x
      end ].
Ltac shifts := repeat shifts_step.

(** One attempt against its outcomes. *)
Definition flowmod_weight (c : FtcCounter) : Z :=
  match c with
  | flowModAttempts => 1
  | expiredFlowModsRejected | staleFlowModEventsSuppressed | duplicateFlowModEventsSuppressed
  | flowModsDropped | flowModsNoApplySink | flowModsRejectedBySink | flowModsApplied => -1
  | _ => 0
  end.

(** One completion notice against its outcomes. *)
Definition ack_weight (c : FtcCounter) : Z :=
  match c with
  | syncAckAttempts => 1
  | expiredSyncAcksSuppressed | syncAcksDropped | syncAcksSent => -1
  | _ => 0
  end.

Section accounted.
Context {W R : Type} {LW : Lens W (FlowTableController R)} {SW : Scheduler W FtcEvent}.
Context {UR : UniformRandomVariable W R}.
Context {LL : LensLaws W (FlowTableController R)} {SL : SchedulerLaws W FtcEvent}.
Context {SF : SchedulerFrame W (FlowTableController R) FtcEvent}.
Context {UF : UniformFrame W R (FlowTableController R) FtcEvent}.
Context (wt : FtcCounter -> Z) (Hwt : wt = flowmod_weight \/ wt = ack_weight).
Context (flowModApplyCb : option (ControlMessage -> M W bool)).
Context (syncAckCb : option (ControlMessage -> M W unit)).
Hypothesis apply_shifts : forall cb, flowModApplyCb = Some cb -> forall m, shifts (R := R) wt 0 (cb m).
Hypothesis ack_shifts : forall cb, syncAckCb = Some cb -> forall m, shifts (R := R) wt 0 (cb m).

Lemma shifts_shouldDrop l : shifts (R := R) wt 0 (shouldDrop (W := W) l).
Proof. unfold shouldDrop. shifts. Qed.

Lemma shifts_sampleDelay base jitter l : shifts (R := R) wt 0 (sampleDelay (W := W) base jitter l).
Proof. unfold sampleDelay, abort_if_none. shifts. Qed.
Hint Resolve shifts_shouldDrop shifts_sampleDelay : shifts.

Lemma shifts_deliverSyncAck m : shifts (R := R) wt 0 (deliverSyncAck syncAckCb m).
Proof. unfold deliverSyncAck. destruct Hwt as [-> | ->]; shifts. Qed.
Hint Resolve shifts_deliverSyncAck : shifts.

Lemma shifts_scheduleSyncAck m replay :
  shifts (R := R) wt 0 (scheduleSyncAck syncAckCb m replay).
Proof.
  unfold scheduleSyncAck. apply shifts_bind_0.
  - destruct replay; [|shifts]. apply shifts_count. by destruct Hwt as [-> | ->].
  - intros _. shifts.
Qed.
Hint Resolve shifts_scheduleSyncAck : shifts.

Lemma shifts_schedule_FlowMod m : shifts (R := R) wt 0 (schedule_FlowMod (W := W) m).
Proof. unfold schedule_FlowMod. shifts. Qed.
Hint Resolve shifts_schedule_FlowMod : shifts.

Lemma shifts_attemptFlowMod m : shifts (R := R) wt 0 (attemptFlowMod flowModApplyCb syncAckCb m).
Proof.
  unfold attemptFlowMod. apply shifts_count_bind. apply shifts_bind_0; [shifts|intros t].
  pose proof (shifts_scheduleSyncAck m) as Hack. pose proof shifts_shouldDrop as Hdrop.
  destruct Hwt as [Heq|Heq]; rewrite Heq in *; cbn [flowmod_weight ack_weight].
  all: destruct (isExpiredAt t m); [by apply shifts_count|].
  all: apply shifts_bind_0; [shifts|intros s]; cbv zeta.
  all: destruct (_ && _); [by apply shifts_count|].
  all: destruct (_ && _); [apply shifts_count_bind; apply Hack|].
  all: apply shifts_bind_0; [apply Hdrop|intros [|]]; [by apply shifts_count|].
  all: destruct flowModApplyCb as [cb|]; [|by apply shifts_count].
  all: apply shifts_bind_0; [by apply apply_shifts|intros [|]]; cbn [negb]; [|by apply shifts_count].
  all: apply shifts_count_bind, shifts_bind_0; [shifts|intros _; apply Hack].
Qed.

Lemma shifts_acceptControl m : shifts (R := R) wt 0 (acceptControl syncAckCb m).
Proof.
  pose proof (shifts_scheduleSyncAck m) as Hack. pose proof (shifts_schedule_FlowMod m) as Hfm.
  unfold acceptControl. destruct Hwt as [Heq|Heq]; rewrite Heq in *; shifts.
Qed.

Lemma shifts_submitFlowUpdate m : shifts (R := R) wt 0 (submitFlowUpdate syncAckCb m).
Proof.
  pose proof (shifts_acceptControl m) as Hac. pose proof shifts_shouldDrop as Hdrop.
  pose proof shifts_sampleDelay as Hsd.
  unfold submitFlowUpdate. destruct Hwt as [Heq|Heq]; rewrite Heq in *; shifts.
Qed.
End accounted.

(** ** Frames of the helpers *)
Section frames.
Context {W R : Type} {LW : Lens W (FlowTableController R)} {SW : Scheduler W FtcEvent}.
Context {UR : UniformRandomVariable W R}.
Context {LL : LensLaws W (FlowTableController R)} {SL : SchedulerLaws W FtcEvent}.
Context {SF : SchedulerFrame W (FlowTableController R) FtcEvent}.
Context {UF : UniformFrame W R (FlowTableController R) FtcEvent}.
Implicit Types (w : W).
Context (Rel : relation W) `{!PreOrder Rel}.
Hypothesis rel_leg : forall l g w, Rel w (over (leg_over l g) w).
Hypothesis rel_create : forall w, Rel w (create_uniform (R := R) w).1.

Lemma respects_ensureRandom r : respects Rel (ensureRandom (R := R) r).
Proof. destruct r; [apply respects_ret, _|]. by apply respects_action. Qed.

Lemma respects_leg l g : respects Rel (ftc_upd (leg_over (R := R) l g)).
Proof. by apply respects_modify. Qed.

Lemma respects_ftc_get : respects Rel ftc_get.
Proof. apply respects_gets, _. Qed.
Hint Resolve respects_ensureRandom respects_leg respects_ftc_get : respects.

Lemma respects_shouldDrop l : respects Rel (shouldDrop l).
Proof. unfold shouldDrop. respects. Qed.

Lemma respects_sampleDelay base jitter l : respects Rel (sampleDelay base jitter l).
Proof. unfold sampleDelay, abort_if_none. respects. Qed.
End frames.

(** ** Properties *)

(** A sink that refuses anything but the current, unexpired generation. *)
Definition checked {W R} `{!Lens W (FlowTableController R), !Scheduler W FtcEvent}
    (cb : ControlMessage -> M W bool) (m : ControlMessage) : M W bool :=
  t ← ftc_now;
  s ← ftc_get;
  if bool_decide (current s m) && negb (isExpiredAt t m) then cb m
  else throw (InvalidArgument "not the current generation").

(** A sink that refuses only what has expired. *)
Definition unexpired {W} `{!Scheduler W FtcEvent}
    (cb : ControlMessage -> M W bool) (m : ControlMessage) : M W bool :=
  t ← ftc_now;
  if negb (isExpiredAt t m) then cb m else throw (InvalidArgument "expired").

(** What a replayed acknowledgement may do: nothing to the prefix states, no
    FlowMod attempted and none scheduled. *)
Record calm_rel {W R} `{!Lens W (FlowTableController R), !Scheduler W FtcEvent} (w w' : W)
    : Prop := {
  calm_states : m_prefixStates (view w') = m_prefixStates (view w);
  calm_attempts : ftc_counters (view w') flowModAttempts = ftc_counters (view w) flowModAttempts;
  calm_events id m : pending w' id (AttemptFlowMod m) -> pending w id (AttemptFlowMod m)
}.

#[export] Instance calm_preorder {W R} `{!Lens W (FlowTableController R), !Scheduler W FtcEvent} :
  PreOrder (calm_rel (W := W)).
Proof.
  split; [by split|]. intros w1 w2 w3 [H1 H2 H3] [H1' H2' H3'].
  split; [by etrans|by etrans|eauto].
Qed.

Section replay.
Context {W R : Type} {LW : Lens W (FlowTableController R)} {SW : Scheduler W FtcEvent}.
Context {UR : UniformRandomVariable W R}.
Context {LL : LensLaws W (FlowTableController R)} {SL : SchedulerLaws W FtcEvent}.
Context {SF : SchedulerFrame W (FlowTableController R) FtcEvent}.
Context {UF : UniformFrame W R (FlowTableController R) FtcEvent}.
Implicit Types (w : W).

Lemma calm_over f w :
  (forall s, m_prefixStates (f s) = m_prefixStates s /\
    ftc_counters (f s) flowModAttempts = ftc_counters s flowModAttempts) ->
  calm_rel w (over f w).
Proof.
  intros Hf. destruct (Hf (view w)). split; [by rewrite view_over..|].
  intros id m Hp. by apply pending_put in Hp.
Qed.

Lemma calm_leg l g w : calm_rel w (over (leg_over l g) w).
Proof. apply calm_over. by destruct l. Qed.

Lemma calm_create w : calm_rel w (create_uniform (R := R) w).1.
Proof. split; [by rewrite view_create..|]. intros id m. by rewrite pending_create. Qed.

Lemma calm_count c : c <> flowModAttempts -> respects (calm_rel (R := R)) (ftc_count (W := W) c).
Proof.
  intros Hc w. apply calm_over. intros s. split; [done|]. cbn. by rewrite bump_ne.
Qed.

Lemma calm_schedule d e : no_FlowMod e -> respects (calm_rel (R := R)) (ftc_schedule (W := W) d e).
Proof.
  intros He w. cbn. split; [by rewrite view_schedule..|]. intros id m Hp.
  apply pending_schedule in Hp as [[_ Heq]|]; [|done]. by destruct (He m).
Qed.

Lemma calm_scheduleSyncAck syncAckCb m replay :
  (forall cb, syncAckCb = Some cb -> forall m, respects (calm_rel (R := R)) (cb m)) ->
  respects (calm_rel (R := R)) (scheduleSyncAck (W := W) syncAckCb m replay).
Proof.
  intros Hcb. pose proof calm_leg. pose proof calm_create.
  pose proof (respects_shouldDrop (R := R) calm_rel) as Hdrop.
  pose proof (respects_sampleDelay (R := R) calm_rel) as Hdelay.
  pose proof calm_count. pose proof calm_schedule.
  unfold scheduleSyncAck, deliverSyncAck. respects; try (by apply calm_count); try (by apply Hcb).
  by apply calm_schedule.
Qed.
End replay.

(** One random source and a world to run the controller in. *)
Definition demo_ftc_world : Type := Sim FtcEvent * FlowTableController Z.

#[export] Instance demo_random : UniformRandomVariable (Sim FtcEvent * FlowTableController Z) Z := {
  create_uniform := fun w => (w, 0);
  SetStream := fun k _ => k;
  GetValue := fun lo hi r => (r + 1, lo)
}.

#[export] Instance demo_frame :
  UniformFrame (Sim FtcEvent * FlowTableController Z) Z (FlowTableController Z) FtcEvent.
Proof. by split. Qed.

Definition demo_name : Name := [component_of_string "a"].
Definition demo_update (seq : Z) : ControlMessage :=
  mkControlMessage TYPE_PACKET_IN [97] 1 7 demo_name seq 0.

(** A guarded controller that has applied generation 5 of the prefix. *)
Definition demo_applied : FlowTableController Z :=
  FlowTableController_new 0 <| ftc_generationGuardEnabled := true |>
    <| m_prefixStates := {[ demo_name := mkPrefixState true 5 (demo_update 5) true 5 (demo_update 5) ]} |>.

Lemma demo_applied_inv : ftc_inv (W := Sim FtcEvent * FlowTableController Z) (sim_init, demo_applied).
Proof.
  split; [split; [done|]|].
  - intros p st Hst. cbn in Hst. apply lookup_singleton_Some in Hst as [<- <-].
    split; intros _; cbn; split_and!; done || lia.
  - intros id m Hm. cbn in Hm. unfold queued in Hm. cbn in Hm. by apply elem_of_nil in Hm.
Qed.

Section properties.
Context {W R : Type} {LW : Lens W (FlowTableController R)} {SW : Scheduler W FtcEvent}.
Context {UR : UniformRandomVariable W R}.
Context {LL : LensLaws W (FlowTableController R)} {SL : SchedulerLaws W FtcEvent}.
Context {SF : SchedulerFrame W (FlowTableController R) FtcEvent}.
Context {UF : UniformFrame W R (FlowTableController R) FtcEvent}.
Implicit Types (w : W) (m : ControlMessage).

(** C35: with the guard on, requests and events keep the controller's states
    consistent (an applied generation is an accepted one, the recorded messages
    are of their generations, every queued FlowMod attempt is of a generation
    its prefix has accepted) and never lower a prefix's highest accepted or
    highest applied generation, whatever is lost, delayed, reordered or repeated.
    The event is run in a world it was queued in and taken out of. *)
Theorem generations_ordered (apply : option (ControlMessage -> M W bool))
    (ack : option (ControlMessage -> M W unit)) w0 :
  (forall cb, apply = Some cb -> forall m, steady (cb m)) ->
  (forall cb, ack = Some cb -> forall m, orderly (cb m)) ->
  ftc_inv w0 ->
  (forall m, let w' := (submitFlowUpdate ack m w0).1 in
     ftc_inv w' /\ later (view w0) (view w')) /\
  (forall id e w, pending w0 id e -> view w = view w0 ->
     (forall id' e', pending w id' e' -> pending w0 id' e') ->
     let w' := (ftc_event apply ack e w).1 in ftc_inv w' /\ later (view w0) (view w')).
Proof.
  intros Ha Hk Hw0. split.
  - intros m. by apply submitFlowUpdate_orderly.
  - intros id e w He Hv Hp. cbv zeta. rewrite <-Hv. destruct Hw0 as [Hwf Hev].
    apply ftc_event_orderly; [done..| |].
    + split; rewrite Hv; [done|]. intros id' m Hm. by eapply Hev, Hp.
    + intros m ->. rewrite Hv. by eapply Hev.
Qed.

(** C36: which FlowMods an attempt gives to the switch.  With the generation guard on or off, never one whose
    lease has expired; with the guard on, in a consistent controller and for a generation
    its prefix has accepted (as every queued attempt is), only the generation that the prefix accepted
    last.  An attempt runs exactly the same when the sink refuses everything else. *)
Theorem installs_only_current cb (ack : option (ControlMessage -> M W unit)) m w :
  attemptFlowMod (Some cb) ack m w = attemptFlowMod (Some (unexpired cb)) ack m w /\
  (ftc_inv w -> granted (view w) m ->
     attemptFlowMod (Some cb) ack m w = attemptFlowMod (Some (checked cb)) ack m w).
Proof.
  assert (forall w1 : W, sim_now FtcEvent (shouldDrop (R := R) FlowMod w1).1 = sim_now FtcEvent w1) as Hnow.
  { apply (respects_shouldDrop (agree_on (sim_now FtcEvent))).
    - intros l g w'. apply ftc_now_over.
    - intros w'. apply now_create. }
  unfold attemptFlowMod. rewrite !run_ftc_count, !run_ftc_now, ftc_now_over.
  set (w1 := over _ w). destruct (isExpiredAt (sim_now FtcEvent w) m) eqn:Hexp; [done|].
  assert (sim_now FtcEvent w1 = sim_now FtcEvent w) as Hw1n by apply ftc_now_over. split.
  - rewrite !run_ftc_get. cbv zeta. destruct (_ && _); [done|]. destruct (_ && _); [done|].
    apply run_ext. intros w2 drop E. pose proof (Hnow w1) as Hn2. rewrite E in Hn2. cbn [fst] in Hn2.
    destruct drop; [done|].
    enough (unexpired cb (with_type TYPE_FLOW_MOD m) w2 = cb (with_type TYPE_FLOW_MOD m) w2) as Hc
      by (unfold mbind, M_bind; by rewrite Hc).
    unfold unexpired. rewrite run_ftc_now, Hn2, Hw1n.
    change (isExpiredAt (sim_now FtcEvent w) (with_type TYPE_FLOW_MOD m))
      with (isExpiredAt (sim_now FtcEvent w) m). by rewrite Hexp.
  - intros Hw Hg.
    assert (ftc_inv w1 /\ m_prefixStates (view w1) = m_prefixStates (view w)) as [Hw1 Hs1]
      by apply (steady_count flowModAttempts w Hw).
    destruct Hg as (st & Hst & Ha & Hle). pose proof Hw1 as [[G _] _].
    rewrite !run_ftc_get. cbv zeta. rewrite G, Hs1, Hst, Ha. cbn [andb negb orb].
    destruct (Z.ltb_spec (msg_seq m) (highestAccepted st)) as [|Hge]; [done|].
    destruct (hasApplied st && _); [done|].
    pose proof (steady_shouldDrop FlowMod w1 Hw1) as [_ Hs2].
    apply run_ext. intros w2 drop E. pose proof (Hnow w1) as Hn2. rewrite E in Hs2, Hn2. cbn [fst] in *.
    destruct drop; [done|].
    enough (checked cb (with_type TYPE_FLOW_MOD m) w2 = cb (with_type TYPE_FLOW_MOD m) w2) as Hc
      by (unfold mbind, M_bind; by rewrite Hc).
    unfold checked. rewrite run_ftc_now, run_ftc_get, Hn2, Hw1n.
    change (isExpiredAt (sim_now FtcEvent w) (with_type TYPE_FLOW_MOD m))
      with (isExpiredAt (sim_now FtcEvent w) m).
    rewrite Hexp, bool_decide_true; [done|].
    exists st. rewrite Hs2, Hs1. split_and!; [done..|]. cbn. lia.
Qed.

(** Every FlowMod attempt and every completion notice is counted under
    exactly one outcome: when a request or an event returns, the attempts have
    grown by as much as their outcomes together, modulo 2^64. *)
Theorem attempts_accounted (apply : option (ControlMessage -> M W bool))
    (ack : option (ControlMessage -> M W unit)) (run : M W unit) w w' :
  (forall cb, apply = Some cb -> forall m w, ftc_counters (view (cb m w).1) = ftc_counters (view (S := FlowTableController R) w)) ->
  (forall cb, ack = Some cb -> forall m w, ftc_counters (view (cb m w).1) = ftc_counters (view (S := FlowTableController R) w)) ->
  (exists m, run = submitFlowUpdate ack m) \/ (exists e, run = ftc_event apply ack e) ->
  run w = (w', inr tt) ->
  let c := ftc_counters (view (S := FlowTableController R) w) in
  let c' := ftc_counters (view (S := FlowTableController R) w') in
  let flowmods c := c expiredFlowModsRejected + c staleFlowModEventsSuppressed
    + c duplicateFlowModEventsSuppressed + c flowModsDropped + c flowModsNoApplySink
    + c flowModsRejectedBySink + c flowModsApplied in
  let acks c := c expiredSyncAcksSuppressed + c syncAcksDropped + c syncAcksSent in
  u64 (c' flowModAttempts - flowmods c') = u64 (c flowModAttempts - flowmods c) /\
  u64 (c' syncAckAttempts - acks c') = u64 (c syncAckAttempts - acks c).
Proof.
  intros Ha Hk Hrun E c c' flowmods acks.
  assert (forall wt, wt = flowmod_weight \/ wt = ack_weight -> balance wt c' = balance wt c) as Hb.
  { intros wt Hwt. unfold c, c'. rewrite <-(u64_total_0 wt w). assert (shifts (R := R) wt 0 run) as Hs.
    { pose proof (shifts_submitFlowUpdate wt Hwt apply ack) as H1.
      pose proof (shifts_attemptFlowMod wt Hwt apply ack) as H2.
      pose proof (shifts_acceptControl wt Hwt apply ack) as H3.
      pose proof (shifts_deliverSyncAck wt Hwt apply ack) as H4.
      destruct Hrun as [[m ->]|[[m|m|m] ->]]; [apply H1|apply H3|apply H2|apply H4];
        intros; apply shifts_pure; intros; eauto. }
    exact (Hs _ _ _ E). }
  pose proof (Hb _ (or_introl eq_refl)) as H1. pose proof (Hb _ (or_intror eq_refl)) as H2.
  unfold balance in H1, H2. cbn [weighted all_counters foldr flowmod_weight ack_weight] in H1, H2.
  split; [etrans; [|etrans; [exact H1|]]|etrans; [|etrans; [exact H2|]]];
    f_equal; unfold flowmods, acks; lia.
Qed.

(** A repeated request for a generation that is already installed only
    replays its completion notice: no prefix state changes, nothing is attempted
    and no FlowMod is scheduled. *)
Theorem replay_idempotent (ack : option (ControlMessage -> M W unit)) m w st :
  (forall cb, ack = Some cb -> forall m, respects (calm_rel (R := R)) (cb m)) ->
  ftc_inv w -> m_prefixStates (view w) !! msg_prefix m = Some st ->
  hasApplied st = true -> highestApplied st = msg_seq m -> highestAccepted st = msg_seq m ->
  sameUpdate m (acceptedMessage st) = true ->
  calm_rel w (acceptControl ack m w).1.
Proof.
  intros Hk Hw Hst Hap Hap' Hacc Hsame. pose proof Hw as [[G Hwf] _].
  destruct (pw_applied _ _ (Hwf _ _ Hst) Hap) as (Ha & _).
  unfold acceptControl. rewrite run_ftc_count. set (w1 := over _ w).
  assert (calm_rel w w1) as H1 by (apply calm_over; intros s; split; [done|]; cbn; by rewrite bump_ne).
  assert (ftc_inv w1 /\ view w1 = view w <| ftc_counters ::= bump packetInsDelivered |>) as [Hw1 Hv1].
  { split; [by apply (steady_count packetInsDelivered w Hw)|apply view_over]. }
  clearbody w1. etrans; [exact H1|]. rewrite run_ftc_now.
  destruct (isExpiredAt _ m); [by apply calm_count|]. rewrite run_ftc_get.
  assert (ftc_generationGuardEnabled (view w1) = true) as -> by (by rewrite Hv1).
  assert (m_prefixStates (view w1) = m_prefixStates (view w)) as Hs1 by (by rewrite Hv1).
  rewrite Hs1, Hst. cbn [default from_option id]. cbv zeta. rewrite run_ftc_upd. set (w2 := over _ w1).
  assert (calm_rel w1 w2) as H2.
  { split; [|by unfold w2; rewrite view_over|by intros id m' Hp; apply pending_put in Hp].
    unfold w2. rewrite view_over. cbn. rewrite Hs1. by apply insert_id. }
  clearbody w2. etrans; [exact H2|]. rewrite Ha, Hacc, Z.ltb_irrefl, Z.eqb_refl. cbn [andb].
  apply (respects_bind (calm_rel (R := R))); [by apply calm_count|intros _]. rewrite Hsame. cbn [negb].
  rewrite Hap, Hap', Z.eqb_refl. cbn [andb]. by apply calm_scheduleSyncAck.
Qed.

Definition budget (l : Leg) w : Z := dropFirstN (leg_of l (view (S := FlowTableController R) w)).

Lemma shouldDrop_budget l w :
  0 < budget l w ->
  shouldDrop l w = (over (leg_over l (fun g => g <| dropFirstN ::= fun n => n - 1 |>)) w, inr true).
Proof.
  intros H. unfold shouldDrop, budget in *. rewrite run_ftc_get. cbv zeta.
  by rewrite (proj2 (Z.ltb_lt _ _) H), run_ftc_upd.
Qed.

Lemma submit_dropped ack m w :
  0 < budget Control w ->
  exists w', submitFlowUpdate ack m w = (w', inr tt) /\
    view w' = leg_over Control (fun g => g <| dropFirstN ::= fun n => n - 1 |>)
      (view w <| ftc_counters ::= fun c => bump packetInsDropped (bump packetIns c) |>) /\
    (forall id e, pending w' id e <-> pending w id e).
Proof.
  intros H. unfold submitFlowUpdate. rewrite run_ftc_count. set (w1 := over _ w).
  assert (view w1 = view w <| ftc_counters ::= bump packetIns |>) as Hv by apply view_over.
  assert (0 < budget Control w1) as H1 by (unfold budget in *; by rewrite Hv).
  rewrite (run_seq _ _ _ _ _ (shouldDrop_budget Control w1 H1)). eexists. split; [reflexivity|].
  split; [rewrite !view_over, Hv; reflexivity|]. intros id e.
  rewrite !ftc_pending_over. apply ftc_pending_over.
Qed.

(** The deterministic budget: of any run of requests no longer than
    [m_controlDropFirstN] every one is lost; each uses up one unit of the budget
    and is counted as submitted and dropped, and nothing is delivered, scheduled
    or recorded. *)
Theorem first_n_dropped (ack : option (ControlMessage -> M W unit)) (ms : list ControlMessage) w :
  Z.of_nat (length ms) <= budget Control w ->
  exists w', for_each ms (submitFlowUpdate ack) w = (w', inr tt) /\
    budget Control w' = budget Control w - Z.of_nat (length ms) /\
    (forall c, ftc_counters (view w') c =
       if decide (c = packetIns \/ c = packetInsDropped)
       then Nat.iter (length ms) (fun n => u64 (n + 1)) (ftc_counters (view w) c)
       else ftc_counters (view w) c) /\
    m_prefixStates (view w') = m_prefixStates (view w) /\
    (forall id e, pending w' id e <-> pending w id e).
Proof.
  revert w. induction ms as [|m ms IH]; intros w Hlen; cbn [for_each length] in *.
  { exists w. split_and!; [done|lia| |done|done]. intros c. by case_decide. }
  destruct (submit_dropped ack m w) as (w1 & E & Hv & Hp); [lia|].
  assert (budget Control w1 = budget Control w - 1) as Hb by (unfold budget; by rewrite Hv).
  destruct (IH w1) as (w' & E' & Hb' & Hc' & Hs' & Hp'); [lia|].
  exists w'. rewrite (run_seq _ _ _ _ _ E). split_and!; [done|lia| | |].
  - intros c. rewrite Hc', Nat.iter_succ_r, Hv. cbn. case_decide as Hd.
    + destruct Hd as [-> | ->].
      * by rewrite (bump_ne packetInsDropped), bump_eq by done.
      * by rewrite bump_eq, bump_ne by done.
    + rewrite !bump_ne by naive_solver. done.
  - rewrite Hs', Hv. done.
  - intros id e. by rewrite Hp'.
Qed.
End properties.

(** *** The properties at a concrete controller *)
Abbreviation ftc_world := (Sim FtcEvent * FlowTableController Z)%type.

Lemma generations_ordered_witness :
  let w0 : ftc_world := (sim_init, demo_applied) in
  let w' := (submitFlowUpdate None (demo_update 6) w0).1 in
  ftc_inv w' /\ later (view w0) (view w').
Proof.
  intros w0. destruct (generations_ordered (W := ftc_world) (R := Z) None None w0) as [H _].
  - intros cb E. discriminate E.
  - intros cb E. discriminate E.
  - exact demo_applied_inv.
  - apply H.
Defined.

Lemma installs_only_current_witness :
  let w : ftc_world := (sim_init, demo_applied) in
  attemptFlowMod (Some (fun _ => throw (InvalidArgument "sink"))) None (demo_update 4) w
    = (over (fun s => s <| ftc_counters ::= fun c =>
         bump staleFlowModEventsSuppressed (bump flowModAttempts c) |>) w, inr tt).
Proof.
  intros w. destruct (installs_only_current (W := ftc_world) (R := Z)
    (fun _ => throw (InvalidArgument "sink")) None (demo_update 4) w) as [_ H]. rewrite H.
  - reflexivity.
  - exact demo_applied_inv.
  - exists (mkPrefixState true 5 (demo_update 5) true 5 (demo_update 5)).
    split; [reflexivity|]. split; [reflexivity|]. discriminate.
Defined.

Lemma attempts_accounted_witness :
  let w : ftc_world := (sim_init, demo_applied) in
  let w' := (ftc_event None None (AttemptFlowMod (demo_update 4)) w).1 in
  u64 (ftc_counters w'.2 syncAckAttempts - (ftc_counters w'.2 expiredSyncAcksSuppressed
    + ftc_counters w'.2 syncAcksDropped + ftc_counters w'.2 syncAcksSent)) = 0.
Proof.
  intros w w'.
  destruct (attempts_accounted (W := ftc_world) (R := Z) None None
    (ftc_event None None (AttemptFlowMod (demo_update 4))) w w') as [_ H].
  - intros cb E. discriminate E.
  - intros cb E. discriminate E.
  - right. exists (AttemptFlowMod (demo_update 4)). reflexivity.
  - reflexivity.
  - exact H.
Defined.

Lemma replay_idempotent_witness :
  let w : ftc_world := (sim_init, demo_applied) in
  calm_rel w (acceptControl None (demo_update 5) w).1.
Proof.
  intros w.
  apply (replay_idempotent (W := ftc_world) (R := Z) None (demo_update 5) w
    (mkPrefixState true 5 (demo_update 5) true 5 (demo_update 5))).
  - intros cb E. discriminate E.
  - exact demo_applied_inv.
  - reflexivity.
  - reflexivity.
  - reflexivity.
  - reflexivity.
  - reflexivity.
Defined.

Lemma first_n_dropped_witness :
  let w : ftc_world := (sim_init, setDropFirstN Control 3 demo_applied) in
  exists w', for_each [demo_update 6; demo_update 7] (submitFlowUpdate None) w = (w', inr tt) /\
    budget Control w' = 1.
Proof.
  intros w.
  destruct (first_n_dropped (W := ftc_world) (R := Z) None [demo_update 6; demo_update 7] w)
    as (w' & E & Hb & _).
  - vm_compute. discriminate.
  - exists w'. split; [exact E|]. rewrite Hb. reflexivity.
Defined.

(** A sampled delay can come out a nanosecond short of the configured one. *)
Lemma sampled_delay_truncates :
  (sampleDelay 123456789 0 FlowMod ((sim_init, demo_applied) : ftc_world)).2 = inr 123456788.
Proof. vm_compute. reflexivity. Qed.
