(* ===== verification/StatefulForwarder.v ===== *)
(** * StatefulForwarder: the switch and the local route controller of a node

    Source: [src/src/ndnSIM/statim/stateful/stateful-forwarder.{hpp,cpp}].
    [encodeOutPortsMask] is in [SwitchPipeline]. *)
From S2P Require Import Prelude Tlv Names Simulator PacketHeader FlowTable SwitchPipeline.
From S2P Require Import TemporaryForwardingTable ControlMessage LocalRouteController.

Inductive SfCounter :=
| pullPlansCreated | pendingInterestPullsPlanned | tracePacketsParsed | traceUpdatesAccepted.

#[export] Instance SfCounter_eq_dec : EqDecision SfCounter.
Proof. solve_decision. Defined.

Record StatefulForwarder := mkStatefulForwarder {
  m_switch : SwitchPipeline;
  m_temporaryController : LocalRouteController;
  sf_enableInterestReforwarding : bool;
  sf_counters : counters SfCounter
}.

#[export] Instance set_m_switch : Setter m_switch := fun f s =>
  mkStatefulForwarder (f (m_switch s)) (m_temporaryController s)
    (sf_enableInterestReforwarding s) (sf_counters s).
#[export] Instance set_m_temporaryController : Setter m_temporaryController := fun f s =>
  mkStatefulForwarder (m_switch s) (f (m_temporaryController s))
    (sf_enableInterestReforwarding s) (sf_counters s).
#[export] Instance set_sf_enableInterestReforwarding : Setter sf_enableInterestReforwarding := fun f s =>
  mkStatefulForwarder (m_switch s) (m_temporaryController s) (f
    (sf_enableInterestReforwarding s)) (sf_counters s).
#[export] Instance set_sf_counters : Setter sf_counters := fun f s =>
  mkStatefulForwarder (m_switch s) (m_temporaryController s) (sf_enableInterestReforwarding
    s) (f (sf_counters s)).

(** The constructor runs [initPipeline]. *)
Definition StatefulForwarder_new `{!StdSort} : StatefulForwarder :=
  mkStatefulForwarder (initPipeline switch_new).1 LocalRouteController_new false counters_init.

Definition getTemporaryFibSize (s : StatefulForwarder) : nat := fibSize (m_temporaryController s).

Definition sf_setEnableInterestReforwarding (enable : bool) (s : StatefulForwarder)
    : StatefulForwarder :=
  s <| sf_enableInterestReforwarding := enable |>.

Section stateful.
Context {W : Type} {LS : Lens W StatefulForwarder} {LW : Lens W LocalRouteController}.
Context {SW : Scheduler W LrcEvent} `{!StringHash}.
Context (flowTableSyncRequestCb : option (ControlMessage -> M W unit)).

(** [StatefulForwarder::applyTraceUpdate]: the hashes and the length of the
    prefix, at most [STATIM_NAME_HASH_COUNT] of them, for the controller. *)
Definition sf_applyTraceUpdate (prefix : Name) (portNumber seq ttl : Z) : M W bool :=
  let nameHashes := m_nameHashes (PacketHeader_of_name prefix) in
  let prefixLen := Z.min (name_size prefix) (Z.of_nat STATIM_NAME_HASH_COUNT) in
  updated ← applyTraceUpdate flowTableSyncRequestCb prefix nameHashes prefixLen portNumber seq ttl;
  (if (updated : bool)
   then modify (over (fun s => s <| sf_counters ::= bump traceUpdatesAccepted |>))
   else mret tt);;
  mret updated.
End stateful.
