(* ===== verification/ControllerFrames.v ===== *)
(** * ControllerFrames: what the two controllers do to the rest of the world

    Every method of the two controllers is built from updates of its own state,
    scheduling, cancelling and its callbacks.  A relation on worlds that these
    respect is respected by the methods; an invariant about the messages in
    flight is kept by them. *)
From Stdlib Require Import Floats.SpecFloat.
From S2P Require Import Prelude Tlv Names Simulator SimTime TemporaryForwardingTable.
From S2P Require Import ControlMessage LocalRouteController FlowTableController.

(** No method of the switch-side controller turns its generation guard on or off. *)
Definition guard_kept {R} (f : FlowTableController R -> FlowTableController R) : Prop :=
  forall s, ftc_generationGuardEnabled (f s) = ftc_generationGuardEnabled s.

Lemma guard_kept_leg {R} l g : guard_kept (R := R) (leg_over l g).
Proof. by destruct l. Qed.

Section central.
Context {W R : Type} {LW : Lens W (FlowTableController R)} {SW : Scheduler W FtcEvent}.
Context {UR : UniformRandomVariable W R}.
Context (Rel : relation W) `{!PreOrder Rel}.
(** Messages of one kind stay of this kind when only their type changes. *)
Context (ok : ControlMessage -> Prop).
Hypothesis ok_type : forall t m, ok m -> ok (with_type t m).
Hypothesis rel_upd : forall (f : FlowTableController R -> FlowTableController R) w,
  guard_kept f -> Rel w (over f w).
Hypothesis rel_create : forall w, Rel w (create_uniform (R := R) w).1.
Hypothesis rel_schedule : forall d e m w,
  e ∈ [AcceptControl m; AttemptFlowMod m; DeliverSyncAck m] -> ok m -> Rel w (sim_schedule d e w).1.
Context (apply : option (ControlMessage -> M W bool)).
Context (ack : option (ControlMessage -> M W unit)).
Hypothesis apply_rel : forall cb, apply = Some cb -> forall m, ok m -> respects Rel (cb m).
Hypothesis ack_rel : forall cb, ack = Some cb -> forall m, ok m -> respects Rel (cb m).

Lemma frame_ftc_upd f : guard_kept f -> respects Rel (ftc_upd (R := R) f).
Proof. intros Hf. apply respects_modify. auto. Qed.
Lemma frame_ftc_leg l g : respects Rel (ftc_upd (R := R) (leg_over l g)).
Proof. apply frame_ftc_upd, guard_kept_leg. Qed.
Lemma frame_ftc_count c : respects Rel (ftc_count (R := R) c).
Proof. by apply frame_ftc_upd. Qed.
Lemma frame_ftc_get : respects Rel (ftc_get (R := R)).
Proof. apply respects_gets, _. Qed.
Lemma frame_ftc_now : respects Rel ftc_now.
Proof. apply respects_gets, _. Qed.
Lemma frame_ensureRandom r : respects Rel (ensureRandom (R := R) r).
Proof. destruct r; [apply respects_ret, _|]. by apply respects_action. Qed.
Lemma frame_ftc_schedule d e m :
  e ∈ [AcceptControl m; AttemptFlowMod m; DeliverSyncAck m] -> ok m -> respects Rel (ftc_schedule d e).
Proof. intros He Hm. apply respects_modify. intros w. by eapply rel_schedule. Qed.
Hint Resolve frame_ftc_leg frame_ftc_count frame_ftc_get frame_ftc_now frame_ensureRandom : respects.
Hint Extern 1 (respects Rel (ftc_upd _)) => by apply frame_ftc_upd : respects.

Lemma frame_shouldDrop l : respects Rel (shouldDrop (R := R) l).
Proof. unfold shouldDrop. respects. Qed.
Lemma frame_sampleDelay base jitter l : respects Rel (sampleDelay (R := R) base jitter l).
Proof. unfold sampleDelay, abort_if_none. respects. Qed.
Hint Resolve frame_shouldDrop frame_sampleDelay : respects.

(** Closes a scheduling leaf for the message at hand. *)
Ltac ftc_leaf m :=
  first
    [ by eauto
    | by apply (frame_ftc_schedule _ _ m); [rewrite !elem_of_cons; auto|] ].

Lemma frame_deliverSyncAck m : ok m -> respects Rel (deliverSyncAck ack m).
Proof. intros Hm. unfold deliverSyncAck. respects; ftc_leaf m. Qed.

Lemma frame_scheduleSyncAck m replay : ok m -> respects Rel (scheduleSyncAck ack m replay).
Proof.
  intros Hm. pose proof (frame_deliverSyncAck m Hm). unfold scheduleSyncAck. respects; ftc_leaf m.
Qed.

Lemma frame_schedule_FlowMod m : ok m -> respects Rel (schedule_FlowMod (R := R) m).
Proof. intros Hm. unfold schedule_FlowMod. respects; ftc_leaf m. Qed.

Lemma frame_record_applied m : respects Rel (record_applied (R := R) m).
Proof. unfold record_applied. respects. Qed.
Hint Resolve frame_record_applied : respects.

Lemma frame_attemptFlowMod m : ok m -> respects Rel (attemptFlowMod apply ack m).
Proof.
  intros Hm. pose proof (frame_scheduleSyncAck m) as Hack. unfold attemptFlowMod. respects; ftc_leaf m.
Qed.

Lemma frame_acceptControl m : ok m -> respects Rel (acceptControl ack m).
Proof.
  intros Hm. pose proof (frame_scheduleSyncAck m true Hm). pose proof (frame_schedule_FlowMod m Hm).
  unfold acceptControl. respects; ftc_leaf m.
Qed.

Lemma frame_submitFlowUpdate m : ok m -> respects Rel (submitFlowUpdate ack m).
Proof.
  intros Hm. pose proof (frame_acceptControl m Hm). unfold submitFlowUpdate. respects; ftc_leaf m.
Qed.

Lemma frame_ftc_event e m :
  e ∈ [AcceptControl m; AttemptFlowMod m; DeliverSyncAck m] -> ok m ->
  respects Rel (ftc_event apply ack e).
Proof.
  intros He Hm. rewrite !elem_of_cons, elem_of_nil in He. destruct He as [->|[->|[->|[]]]].
  - by apply frame_acceptControl.
  - by apply frame_attemptFlowMod.
  - by apply frame_deliverSyncAck.
Qed.
End central.

Section route.
Context {W : Type} {LW : Lens W LocalRouteController} {SW : Scheduler W LrcEvent}.
Context {LL : LensLaws W LocalRouteController}.
Context (I : W -> Prop) (ok : ControlMessage -> Prop).

(** An update that only stores requests whose messages are ok or were stored. *)
Definition requests_ok (s : LocalRouteController) : Prop :=
  forall p r, m_pendingControllerRequests s !! p = Some r -> ok (req_msg r).

Hypothesis inv_reads : forall w, I w -> requests_ok (view w).
Hypothesis inv_upd : forall f w, I w -> requests_ok (f (view w)) -> I (over f w).
Hypothesis inv_schedule : forall d (e : LrcEvent) w, I w -> I (sim_schedule d e w).1.
Hypothesis inv_cancel : forall id w, I w -> I (sim_cancel (E := LrcEvent) id w).
Context (request : option (ControlMessage -> M W unit)) (complete : option (Name -> M W unit)).
Hypothesis request_inv : forall cb, request = Some cb -> forall m, ok m -> preserves I (cb m).
Hypothesis complete_inv : forall cb, complete = Some cb -> forall p, preserves I (cb p).

Lemma inv_get_bind {A} (k : LocalRouteController -> M W A) :
  (forall s, requests_ok s -> preserves I (k s)) -> preserves I (get ≫= k).
Proof. intros Hk w Hw. apply Hk; [by apply inv_reads|done]. Qed.

Lemma inv_upd_same f :
  (forall s, m_pendingControllerRequests (f s) = m_pendingControllerRequests s) ->
  preserves I (upd f).
Proof.
  intros Hf w Hw. apply inv_upd; [done|]. intros p r. rewrite Hf. by apply inv_reads.
Qed.

Lemma inv_upd_delete p : preserves I (upd (fun s => s <| m_pendingControllerRequests ::= delete p |>)).
Proof.
  intros w Hw. apply inv_upd; [done|]. intros q r. cbn. rewrite lookup_delete.
  case_decide; [done|]. by apply inv_reads.
Qed.

Lemma inv_upd_insert p r :
  ok (req_msg r) ->
  preserves I (upd (fun s => s <| m_pendingControllerRequests ::= <[p := r]> |>)).
Proof.
  intros Hr w Hw. apply inv_upd; [done|]. intros q r'. cbn. rewrite lookup_insert.
  case_decide; [by intros [= <-]|]. by apply inv_reads.
Qed.

Lemma inv_cancel_m id : preserves I (cancel id).
Proof. intros w Hw. by apply inv_cancel. Qed.

Lemma inv_schedule_m d e : preserves I (schedule d e).
Proof. apply preserves_action. intros w. apply inv_schedule. Qed.

Lemma inv_now : preserves I now.
Proof. apply preserves_gets. Qed.
Hint Resolve inv_upd_delete inv_cancel_m inv_schedule_m inv_now : preserves.

Ltac inv_walk :=
  repeat first
    [ solve [eauto with preserves]
    | apply inv_upd_same; reflexivity
    | apply inv_get_bind; intros ? ?
    | apply preserves_bind; [|intros ?]
    | progress cbv zeta
    | match goal with
      | |- preserves _ (match ?x with _ => _ end) => destruct x eqn:?
      end ].

Lemma inv_cancel_lifetime_timer p : preserves I (cancel_lifetime_timer p).
Proof. unfold cancel_lifetime_timer. inv_walk. Qed.
Lemma inv_cancel_pending_request p : preserves I (cancel_pending_request p).
Proof. unfold cancel_pending_request. inv_walk. Qed.
Hint Resolve inv_cancel_lifetime_timer inv_cancel_pending_request : preserves.

Lemma inv_guard_admits p q : preserves I (guard_admits p q).
Proof. unfold guard_admits. inv_walk. Qed.

Lemma inv_admit_route p port q lifetime expiry : preserves I (admit_route p port q lifetime expiry).
Proof. unfold admit_route. inv_walk. Qed.
Hint Resolve inv_guard_admits inv_admit_route : preserves.

Lemma inv_request_sync p hashes pLen port q expiry :
  ok (mkControlMessage TYPE_PACKET_IN hashes pLen port p q expiry) ->
  preserves I (request_sync request p hashes pLen port q expiry).
Proof.
  intros Hm. unfold request_sync. destruct request as [cb|]; [|apply preserves_ret].
  inv_walk; try by apply inv_upd_insert. all: by apply (request_inv _ eq_refl).
Qed.

Lemma inv_applyTraceUpdate p hashes pLen port q ttl :
  (forall expiry, ok (mkControlMessage TYPE_PACKET_IN hashes pLen port p q expiry)) ->
  preserves I (applyTraceUpdate request p hashes pLen port q ttl).
Proof.
  intros Hm. unfold applyTraceUpdate. inv_walk. all: by apply inv_request_sync.
Qed.

Lemma inv_handleControlResponse m : preserves I (handleControlResponse complete m).
Proof.
  unfold handleControlResponse. inv_walk. all: by apply (complete_inv _ eq_refl).
Qed.

Lemma inv_expireEntryBySeq p q : preserves I (expireEntryBySeq p q).
Proof. unfold expireEntryBySeq. inv_walk. Qed.

Lemma inv_onControllerRetryTimeout p q : preserves I (onControllerRetryTimeout request p q).
Proof.
  assert (forall cb, request = Some cb -> forall s p r, requests_ok s ->
    m_pendingControllerRequests s !! p = Some r -> preserves I (cb (req_msg r))) as Hcb.
  { intros cb E s p' r Hs Hr. eapply request_inv; [done|]. by eapply Hs. }
  unfold onControllerRetryTimeout. inv_walk; try (apply inv_upd_insert; cbn; eauto).
Qed.

Lemma inv_run_event e : preserves I (run_event request e).
Proof. destruct e; [apply inv_expireEntryBySeq|apply inv_onControllerRetryTimeout]. Qed.
End route.
