(* ===== verification/ForwardingEngine.v ===== *)
(** * ForwardingEngine: the packet handlers of one node

    Source: [src/src/ndnSIM/statim/forwarding-engine.{hpp,cpp}].  A [Node] is the
    engine with the simulator it runs in, the random sources it draws from and
    the record of what its devices were given to send.  A
    received packet is its octets, the first twelve of them the Statim header.  Log lines
    and the lines written to [std::cerr] are left out; the steering flags behind them are state and are kept. *)
From Stdlib Require Import Floats.SpecFloat.
From S2P Require Import Prelude Tlv Names Simulator SimTime PacketHeader FlowTable SwitchPipeline.
From S2P Require Import PortTable NameMap Packets PendingInterestTable TemporaryForwardingTable.
From S2P Require Import ContentStore ControlMessage LocalRouteController FlowTableController.
From S2P Require Import StatefulForwarder.

Inductive FeCounter :=
| interestsReceived | dataReceived | traceInterestsHandled | traceUpdatesHandled
| flowTableUpdatesApplied | temporaryFibInterestTransmissions | flowTableFibInterestTransmissions
| statimLookupMisses | noRouteRejections | pendingPullsScheduled | pendingPullsSent
| pullInvocations | csHits | pitDuplicates | malformedPackets.

#[export] Instance FeCounter_eq_dec : EqDecision FeCounter.
Proof. solve_decision. Defined.

(** Everything that can be queued at a node. *)
Inductive FeEvent :=
| RouteTimer (e : LrcEvent)
| ControlLeg (e : FtcEvent)
| ProcessInterestAfterDelay (inPort : Z) (interest : Interest) (header : PacketHeader)
| ProcessDataAfterDelay (inPort : Z) (data : Data) (header : PacketHeader)
| DoDelayedPullSend (interest : Interest) (port : Z).

(** A frame handed to a device: the Statim header and the NDN octets behind it. *)
Record Sent := mkSent {
  s_device : NetDevice;
  s_header : PacketHeader;
  s_payload : list byte
}.

Record ForwardingEngine (R : Type) := mkForwardingEngine {
  m_portTable : PortTable;
  m_pit : PendingInterestTable;
  m_cs : ContentStore;
  m_statefulModule : StatefulForwarder;
  m_centralController : FlowTableController R;
  m_statefulDelay : Z;
  m_configuredFlowTableLifetime : Z;
  m_configuredTemporaryLifetime : Z;
  m_enableTemporaryFib : bool;
  m_enableInterestReforwarding : bool;
  m_interestReforwardingLimit : Z;
  m_nodeId : Z;
  m_experimentTelemetryEnabled : bool;
  m_tempSteerPending : bool;
  m_flowSteerPending : bool;
  m_tempSteerSeq : Z;
  m_flowSteerSeq : Z;
  m_tempSteerPrefix : Name;
  m_flowSteerPrefix : Name;
  fe_counters : counters FeCounter
}.

Arguments mkForwardingEngine {R}.
Arguments m_portTable {R} _.
Arguments m_pit {R} _.
Arguments m_cs {R} _.
Arguments m_statefulModule {R} _.
Arguments m_centralController {R} _.
Arguments m_statefulDelay {R} _.
Arguments m_configuredFlowTableLifetime {R} _.
Arguments m_configuredTemporaryLifetime {R} _.
Arguments m_enableTemporaryFib {R} _.
Arguments m_enableInterestReforwarding {R} _.
Arguments m_interestReforwardingLimit {R} _.
Arguments m_nodeId {R} _.
Arguments m_experimentTelemetryEnabled {R} _.
Arguments m_tempSteerPending {R} _.
Arguments m_flowSteerPending {R} _.
Arguments m_tempSteerSeq {R} _.
Arguments m_flowSteerSeq {R} _.
Arguments m_tempSteerPrefix {R} _.
Arguments m_flowSteerPrefix {R} _.
Arguments fe_counters {R} _.

#[export] Instance set_m_portTable {R} : Setter (@m_portTable R) := fun f s =>
  mkForwardingEngine (f (m_portTable s)) (m_pit s) (m_cs s) (m_statefulModule s)
    (m_centralController s) (m_statefulDelay s) (m_configuredFlowTableLifetime s)
    (m_configuredTemporaryLifetime s) (m_enableTemporaryFib s) (m_enableInterestReforwarding s)
    (m_interestReforwardingLimit s) (m_nodeId s) (m_experimentTelemetryEnabled s)
    (m_tempSteerPending s) (m_flowSteerPending s) (m_tempSteerSeq s) (m_flowSteerSeq s)
    (m_tempSteerPrefix s) (m_flowSteerPrefix s) (fe_counters s).
#[export] Instance set_m_pit {R} : Setter (@m_pit R) := fun f s =>
  mkForwardingEngine (m_portTable s) (f (m_pit s)) (m_cs s) (m_statefulModule s)
    (m_centralController s) (m_statefulDelay s) (m_configuredFlowTableLifetime s)
    (m_configuredTemporaryLifetime s) (m_enableTemporaryFib s) (m_enableInterestReforwarding s)
    (m_interestReforwardingLimit s) (m_nodeId s) (m_experimentTelemetryEnabled s)
    (m_tempSteerPending s) (m_flowSteerPending s) (m_tempSteerSeq s) (m_flowSteerSeq s)
    (m_tempSteerPrefix s) (m_flowSteerPrefix s) (fe_counters s).
#[export] Instance set_m_cs {R} : Setter (@m_cs R) := fun f s =>
  mkForwardingEngine (m_portTable s) (m_pit s) (f (m_cs s)) (m_statefulModule s)
    (m_centralController s) (m_statefulDelay s) (m_configuredFlowTableLifetime s)
    (m_configuredTemporaryLifetime s) (m_enableTemporaryFib s) (m_enableInterestReforwarding s)
    (m_interestReforwardingLimit s) (m_nodeId s) (m_experimentTelemetryEnabled s)
    (m_tempSteerPending s) (m_flowSteerPending s) (m_tempSteerSeq s) (m_flowSteerSeq s)
    (m_tempSteerPrefix s) (m_flowSteerPrefix s) (fe_counters s).
#[export] Instance set_m_statefulModule {R} : Setter (@m_statefulModule R) := fun f s =>
  mkForwardingEngine (m_portTable s) (m_pit s) (m_cs s) (f (m_statefulModule s))
    (m_centralController s) (m_statefulDelay s) (m_configuredFlowTableLifetime s)
    (m_configuredTemporaryLifetime s) (m_enableTemporaryFib s) (m_enableInterestReforwarding s)
    (m_interestReforwardingLimit s) (m_nodeId s) (m_experimentTelemetryEnabled s)
    (m_tempSteerPending s) (m_flowSteerPending s) (m_tempSteerSeq s) (m_flowSteerSeq s)
    (m_tempSteerPrefix s) (m_flowSteerPrefix s) (fe_counters s).
#[export] Instance set_m_centralController {R} : Setter (@m_centralController R) := fun f s =>
  mkForwardingEngine (m_portTable s) (m_pit s) (m_cs s) (m_statefulModule s) (f
    (m_centralController s)) (m_statefulDelay s) (m_configuredFlowTableLifetime s)
    (m_configuredTemporaryLifetime s) (m_enableTemporaryFib s) (m_enableInterestReforwarding s)
    (m_interestReforwardingLimit s) (m_nodeId s) (m_experimentTelemetryEnabled s)
    (m_tempSteerPending s) (m_flowSteerPending s) (m_tempSteerSeq s) (m_flowSteerSeq s)
    (m_tempSteerPrefix s) (m_flowSteerPrefix s) (fe_counters s).
#[export] Instance set_m_statefulDelay {R} : Setter (@m_statefulDelay R) := fun f s =>
  mkForwardingEngine (m_portTable s) (m_pit s) (m_cs s) (m_statefulModule s)
    (m_centralController s) (f (m_statefulDelay s)) (m_configuredFlowTableLifetime s)
    (m_configuredTemporaryLifetime s) (m_enableTemporaryFib s) (m_enableInterestReforwarding s)
    (m_interestReforwardingLimit s) (m_nodeId s) (m_experimentTelemetryEnabled s)
    (m_tempSteerPending s) (m_flowSteerPending s) (m_tempSteerSeq s) (m_flowSteerSeq s)
    (m_tempSteerPrefix s) (m_flowSteerPrefix s) (fe_counters s).
#[export] Instance set_m_configuredFlowTableLifetime {R} : Setter (@m_configuredFlowTableLifetime R) := fun f s =>
  mkForwardingEngine (m_portTable s) (m_pit s) (m_cs s) (m_statefulModule s)
    (m_centralController s) (m_statefulDelay s) (f (m_configuredFlowTableLifetime s))
    (m_configuredTemporaryLifetime s) (m_enableTemporaryFib s) (m_enableInterestReforwarding s)
    (m_interestReforwardingLimit s) (m_nodeId s) (m_experimentTelemetryEnabled s)
    (m_tempSteerPending s) (m_flowSteerPending s) (m_tempSteerSeq s) (m_flowSteerSeq s)
    (m_tempSteerPrefix s) (m_flowSteerPrefix s) (fe_counters s).
#[export] Instance set_m_configuredTemporaryLifetime {R} : Setter (@m_configuredTemporaryLifetime R) := fun f s =>
  mkForwardingEngine (m_portTable s) (m_pit s) (m_cs s) (m_statefulModule s)
    (m_centralController s) (m_statefulDelay s) (m_configuredFlowTableLifetime s) (f
    (m_configuredTemporaryLifetime s)) (m_enableTemporaryFib s) (m_enableInterestReforwarding s)
    (m_interestReforwardingLimit s) (m_nodeId s) (m_experimentTelemetryEnabled s)
    (m_tempSteerPending s) (m_flowSteerPending s) (m_tempSteerSeq s) (m_flowSteerSeq s)
    (m_tempSteerPrefix s) (m_flowSteerPrefix s) (fe_counters s).
#[export] Instance set_m_enableTemporaryFib {R} : Setter (@m_enableTemporaryFib R) := fun f s =>
  mkForwardingEngine (m_portTable s) (m_pit s) (m_cs s) (m_statefulModule s)
    (m_centralController s) (m_statefulDelay s) (m_configuredFlowTableLifetime s)
    (m_configuredTemporaryLifetime s) (f (m_enableTemporaryFib s)) (m_enableInterestReforwarding
    s) (m_interestReforwardingLimit s) (m_nodeId s) (m_experimentTelemetryEnabled s)
    (m_tempSteerPending s) (m_flowSteerPending s) (m_tempSteerSeq s) (m_flowSteerSeq s)
    (m_tempSteerPrefix s) (m_flowSteerPrefix s) (fe_counters s).
#[export] Instance set_m_enableInterestReforwarding {R} : Setter (@m_enableInterestReforwarding R) := fun f s =>
  mkForwardingEngine (m_portTable s) (m_pit s) (m_cs s) (m_statefulModule s)
    (m_centralController s) (m_statefulDelay s) (m_configuredFlowTableLifetime s)
    (m_configuredTemporaryLifetime s) (m_enableTemporaryFib s) (f (m_enableInterestReforwarding
    s)) (m_interestReforwardingLimit s) (m_nodeId s) (m_experimentTelemetryEnabled s)
    (m_tempSteerPending s) (m_flowSteerPending s) (m_tempSteerSeq s) (m_flowSteerSeq s)
    (m_tempSteerPrefix s) (m_flowSteerPrefix s) (fe_counters s).
#[export] Instance set_m_interestReforwardingLimit {R} : Setter (@m_interestReforwardingLimit R) := fun f s =>
  mkForwardingEngine (m_portTable s) (m_pit s) (m_cs s) (m_statefulModule s)
    (m_centralController s) (m_statefulDelay s) (m_configuredFlowTableLifetime s)
    (m_configuredTemporaryLifetime s) (m_enableTemporaryFib s) (m_enableInterestReforwarding s)
    (f (m_interestReforwardingLimit s)) (m_nodeId s) (m_experimentTelemetryEnabled s)
    (m_tempSteerPending s) (m_flowSteerPending s) (m_tempSteerSeq s) (m_flowSteerSeq s)
    (m_tempSteerPrefix s) (m_flowSteerPrefix s) (fe_counters s).
#[export] Instance set_m_nodeId {R} : Setter (@m_nodeId R) := fun f s =>
  mkForwardingEngine (m_portTable s) (m_pit s) (m_cs s) (m_statefulModule s)
    (m_centralController s) (m_statefulDelay s) (m_configuredFlowTableLifetime s)
    (m_configuredTemporaryLifetime s) (m_enableTemporaryFib s) (m_enableInterestReforwarding s)
    (m_interestReforwardingLimit s) (f (m_nodeId s)) (m_experimentTelemetryEnabled s)
    (m_tempSteerPending s) (m_flowSteerPending s) (m_tempSteerSeq s) (m_flowSteerSeq s)
    (m_tempSteerPrefix s) (m_flowSteerPrefix s) (fe_counters s).
#[export] Instance set_m_experimentTelemetryEnabled {R} : Setter (@m_experimentTelemetryEnabled R) := fun f s =>
  mkForwardingEngine (m_portTable s) (m_pit s) (m_cs s) (m_statefulModule s)
    (m_centralController s) (m_statefulDelay s) (m_configuredFlowTableLifetime s)
    (m_configuredTemporaryLifetime s) (m_enableTemporaryFib s) (m_enableInterestReforwarding s)
    (m_interestReforwardingLimit s) (m_nodeId s) (f (m_experimentTelemetryEnabled s))
    (m_tempSteerPending s) (m_flowSteerPending s) (m_tempSteerSeq s) (m_flowSteerSeq s)
    (m_tempSteerPrefix s) (m_flowSteerPrefix s) (fe_counters s).
#[export] Instance set_m_tempSteerPending {R} : Setter (@m_tempSteerPending R) := fun f s =>
  mkForwardingEngine (m_portTable s) (m_pit s) (m_cs s) (m_statefulModule s)
    (m_centralController s) (m_statefulDelay s) (m_configuredFlowTableLifetime s)
    (m_configuredTemporaryLifetime s) (m_enableTemporaryFib s) (m_enableInterestReforwarding s)
    (m_interestReforwardingLimit s) (m_nodeId s) (m_experimentTelemetryEnabled s) (f
    (m_tempSteerPending s)) (m_flowSteerPending s) (m_tempSteerSeq s) (m_flowSteerSeq s)
    (m_tempSteerPrefix s) (m_flowSteerPrefix s) (fe_counters s).
#[export] Instance set_m_flowSteerPending {R} : Setter (@m_flowSteerPending R) := fun f s =>
  mkForwardingEngine (m_portTable s) (m_pit s) (m_cs s) (m_statefulModule s)
    (m_centralController s) (m_statefulDelay s) (m_configuredFlowTableLifetime s)
    (m_configuredTemporaryLifetime s) (m_enableTemporaryFib s) (m_enableInterestReforwarding s)
    (m_interestReforwardingLimit s) (m_nodeId s) (m_experimentTelemetryEnabled s)
    (m_tempSteerPending s) (f (m_flowSteerPending s)) (m_tempSteerSeq s) (m_flowSteerSeq s)
    (m_tempSteerPrefix s) (m_flowSteerPrefix s) (fe_counters s).
#[export] Instance set_m_tempSteerSeq {R} : Setter (@m_tempSteerSeq R) := fun f s =>
  mkForwardingEngine (m_portTable s) (m_pit s) (m_cs s) (m_statefulModule s)
    (m_centralController s) (m_statefulDelay s) (m_configuredFlowTableLifetime s)
    (m_configuredTemporaryLifetime s) (m_enableTemporaryFib s) (m_enableInterestReforwarding s)
    (m_interestReforwardingLimit s) (m_nodeId s) (m_experimentTelemetryEnabled s)
    (m_tempSteerPending s) (m_flowSteerPending s) (f (m_tempSteerSeq s)) (m_flowSteerSeq s)
    (m_tempSteerPrefix s) (m_flowSteerPrefix s) (fe_counters s).
#[export] Instance set_m_flowSteerSeq {R} : Setter (@m_flowSteerSeq R) := fun f s =>
  mkForwardingEngine (m_portTable s) (m_pit s) (m_cs s) (m_statefulModule s)
    (m_centralController s) (m_statefulDelay s) (m_configuredFlowTableLifetime s)
    (m_configuredTemporaryLifetime s) (m_enableTemporaryFib s) (m_enableInterestReforwarding s)
    (m_interestReforwardingLimit s) (m_nodeId s) (m_experimentTelemetryEnabled s)
    (m_tempSteerPending s) (m_flowSteerPending s) (m_tempSteerSeq s) (f (m_flowSteerSeq s))
    (m_tempSteerPrefix s) (m_flowSteerPrefix s) (fe_counters s).
#[export] Instance set_m_tempSteerPrefix {R} : Setter (@m_tempSteerPrefix R) := fun f s =>
  mkForwardingEngine (m_portTable s) (m_pit s) (m_cs s) (m_statefulModule s)
    (m_centralController s) (m_statefulDelay s) (m_configuredFlowTableLifetime s)
    (m_configuredTemporaryLifetime s) (m_enableTemporaryFib s) (m_enableInterestReforwarding s)
    (m_interestReforwardingLimit s) (m_nodeId s) (m_experimentTelemetryEnabled s)
    (m_tempSteerPending s) (m_flowSteerPending s) (m_tempSteerSeq s) (m_flowSteerSeq s) (f
    (m_tempSteerPrefix s)) (m_flowSteerPrefix s) (fe_counters s).
#[export] Instance set_m_flowSteerPrefix {R} : Setter (@m_flowSteerPrefix R) := fun f s =>
  mkForwardingEngine (m_portTable s) (m_pit s) (m_cs s) (m_statefulModule s)
    (m_centralController s) (m_statefulDelay s) (m_configuredFlowTableLifetime s)
    (m_configuredTemporaryLifetime s) (m_enableTemporaryFib s) (m_enableInterestReforwarding s)
    (m_interestReforwardingLimit s) (m_nodeId s) (m_experimentTelemetryEnabled s)
    (m_tempSteerPending s) (m_flowSteerPending s) (m_tempSteerSeq s) (m_flowSteerSeq s)
    (m_tempSteerPrefix s) (f (m_flowSteerPrefix s)) (fe_counters s).
#[export] Instance set_fe_counters {R} : Setter (@fe_counters R) := fun f s =>
  mkForwardingEngine (m_portTable s) (m_pit s) (m_cs s) (m_statefulModule s)
    (m_centralController s) (m_statefulDelay s) (m_configuredFlowTableLifetime s)
    (m_configuredTemporaryLifetime s) (m_enableTemporaryFib s) (m_enableInterestReforwarding s)
    (m_interestReforwardingLimit s) (m_nodeId s) (m_experimentTelemetryEnabled s)
    (m_tempSteerPending s) (m_flowSteerPending s) (m_tempSteerSeq s) (m_flowSteerSeq s)
    (m_tempSteerPrefix s) (m_flowSteerPrefix s) (f (fe_counters s)).

Record Node (R RW SR : Type) := mkNode {
  n_sim : Sim FeEvent;
  n_engine : ForwardingEngine R;
  n_streams : Z;
  n_words : RW;
  n_rand : SR;
  n_sent : list Sent;
  n_wires : WireStore;
  n_nextWire : Z
}.

Arguments mkNode {R RW SR}.
Arguments n_sim {R RW SR} _.
Arguments n_engine {R RW SR} _.
Arguments n_streams {R RW SR} _.
Arguments n_words {R RW SR} _.
Arguments n_rand {R RW SR} _.
Arguments n_sent {R RW SR} _.
Arguments n_wires {R RW SR} _.
Arguments n_nextWire {R RW SR} _.

#[export] Instance set_n_sim {R RW SR} : Setter (@n_sim R RW SR) := fun f s =>
  mkNode (f (n_sim s)) (n_engine s) (n_streams s) (n_words s) (n_rand s) (n_sent s) (n_wires s)
    (n_nextWire s).
#[export] Instance set_n_engine {R RW SR} : Setter (@n_engine R RW SR) := fun f s =>
  mkNode (n_sim s) (f (n_engine s)) (n_streams s) (n_words s) (n_rand s) (n_sent s) (n_wires s)
    (n_nextWire s).
#[export] Instance set_n_streams {R RW SR} : Setter (@n_streams R RW SR) := fun f s =>
  mkNode (n_sim s) (n_engine s) (f (n_streams s)) (n_words s) (n_rand s) (n_sent s) (n_wires s)
    (n_nextWire s).
#[export] Instance set_n_words {R RW SR} : Setter (@n_words R RW SR) := fun f s =>
  mkNode (n_sim s) (n_engine s) (n_streams s) (f (n_words s)) (n_rand s) (n_sent s) (n_wires s)
    (n_nextWire s).
#[export] Instance set_n_rand {R RW SR} : Setter (@n_rand R RW SR) := fun f s =>
  mkNode (n_sim s) (n_engine s) (n_streams s) (n_words s) (f (n_rand s)) (n_sent s) (n_wires s)
    (n_nextWire s).
#[export] Instance set_n_sent {R RW SR} : Setter (@n_sent R RW SR) := fun f s =>
  mkNode (n_sim s) (n_engine s) (n_streams s) (n_words s) (n_rand s) (f (n_sent s)) (n_wires s)
    (n_nextWire s).
#[export] Instance set_n_wires {R RW SR} : Setter (@n_wires R RW SR) := fun f s =>
  mkNode (n_sim s) (n_engine s) (n_streams s) (n_words s) (n_rand s) (n_sent s) (f (n_wires s))
    (n_nextWire s).
#[export] Instance set_n_nextWire {R RW SR} : Setter (@n_nextWire R RW SR) := fun f s =>
  mkNode (n_sim s) (n_engine s) (n_streams s) (n_words s) (n_rand s) (n_sent s) (n_wires s) (f
    (n_nextWire s)).

(** ** The components of a node as parts of its world *)
Section lenses.
Context {R RW SR : Type}.
Abbreviation node := (Node R RW SR).

#[export] Instance lens_sim : Lens node (Sim FeEvent) := {
  view := n_sim;
  put := fun s w => w <| n_sim := s |>
}.

#[export] Instance lens_engine : Lens node (ForwardingEngine R) := {
  view := n_engine;
  put := fun e w => w <| n_engine := e |>
}.

#[export] Instance lens_stateful : Lens node StatefulForwarder := {
  view := fun w => m_statefulModule (n_engine w);
  put := fun s w => w <| n_engine ::= fun e => e <| m_statefulModule := s |> |>
}.

#[export] Instance lens_switch : Lens node SwitchPipeline := {
  view := fun w => m_switch (m_statefulModule (n_engine w));
  put := fun s w => w <| n_engine ::= fun e =>
    e <| m_statefulModule ::= fun sf => sf <| m_switch := s |> |> |>
}.

#[export] Instance lens_route : Lens node LocalRouteController := {
  view := fun w => m_temporaryController (m_statefulModule (n_engine w));
  put := fun s w => w <| n_engine ::= fun e =>
    e <| m_statefulModule ::= fun sf => sf <| m_temporaryController := s |> |> |>
}.

#[export] Instance lens_central : Lens node (FlowTableController R) := {
  view := fun w => m_centralController (n_engine w);
  put := fun s w => w <| n_engine ::= fun e => e <| m_centralController := s |> |>
}.

(** The node's simulator, for the events of one component. *)
Definition node_scheduler {E : Type} (wrap : E -> FeEvent) : Scheduler node E := {|
  sim_now := fun w => m_currentTs (n_sim w);
  sim_schedule := fun d e w =>
    let '(s, id) := Schedule d (wrap e) (n_sim w) in (w <| n_sim := s |>, id);
  sim_cancel := fun id w => w <| n_sim ::= Cancel id |>;
  pending := fun w id e => queued (n_sim w) id (wrap e)
|}.

#[export] Instance sched_engine : Scheduler node FeEvent := node_scheduler (fun e => e).
#[export] Instance sched_route : Scheduler node LrcEvent := node_scheduler RouteTimer.
#[export] Instance sched_central : Scheduler node FtcEvent := node_scheduler ControlLeg.
End lenses.

#[export] Instance node_uniform {R RW SR} `{!UniformStreams R} :
  UniformRandomVariable (Node R RW SR) R := {
  create_uniform := fun w => (w <| n_streams ::= fun n => u64 (n + 1) |>, uv_create (n_streams w));
  SetStream := uv_SetStream;
  GetValue := uv_GetValue
}.

(** ** Construction and configuration *)
Definition ForwardingEngine_new {R} `{!StdSort, !UniformStreams R} (stream : Z)
    : ForwardingEngine R :=
  let sf := StatefulForwarder_new in
  let central := setControllerDelay (m_controllerDelay (m_temporaryController sf))
                   (FlowTableController_new (uv_create stream)) in
  mkForwardingEngine PortTable_new ∅ (ContentStore_new default_max_size) sf central 0 0 0
    true true 30 0 false false false 0 0 [] [] counters_init.

Section setters.
Context {R : Type}.
Implicit Types (e : ForwardingEngine R).

Definition fe_setControllerDelay (delay : Z) e :=
  e <| m_centralController ::= setControllerDelay delay |>.
Definition setStatefulDelay (delay : Z) e := e <| m_statefulDelay := delay |>.
Definition setInterestReforwardingLimit (n : Z) e := e <| m_interestReforwardingLimit := n |>.
Definition setEnableTemporaryFib (v : bool) e := e <| m_enableTemporaryFib := v |>.
Definition setEnableInterestReforwarding (v : bool) e :=
  e <| m_enableInterestReforwarding := v |>
    <| m_statefulModule ::= sf_setEnableInterestReforwarding v |>.
Definition fe_setGenerationGuardEnabled (enabled : bool) e :=
  e <| m_statefulModule ::= (fun sf => sf <| m_temporaryController ::= fun c =>
         c <| m_generationGuardEnabled := enabled |> |>) |>
    <| m_centralController ::= setGenerationGuardEnabled enabled |>.
Definition setControllerRetryTimeout (t : Z) e :=
  e <| m_statefulModule ::= (fun sf => sf <| m_temporaryController ::= fun c =>
         c <| m_controllerRetryTimeout := t |> |>) |>.
Definition setControllerRetryLimit (n : Z) e :=
  e <| m_statefulModule ::= (fun sf => sf <| m_temporaryController ::= fun c =>
         c <| m_controllerRetryLimit := n |> |>) |>.
Definition setControllerLegDelays (control flowMod syncAck : Z) e :=
  e <| m_centralController ::= (fun c => setLegDelay SyncAck syncAck
         (setLegDelay FlowMod flowMod (setLegDelay Control control c))) |>.
Definition setControllerLegJitters (control flowMod syncAck : Z) e :=
  e <| m_centralController ::= (fun c => setLegJitter SyncAck syncAck
         (setLegJitter FlowMod flowMod (setLegJitter Control control c))) |>.
Definition fe_setLossRate (l : Leg) (p : double) e :=
  e <| m_centralController ::= setLossRate l p |>.
Definition setNodeId (id : Z) e := e <| m_nodeId := id |>.
Definition setExperimentTelemetryEnabled (enabled : bool) e :=
  let e := e <| m_experimentTelemetryEnabled := enabled |> in
  if enabled then e
  else e <| m_tempSteerPending := false |> <| m_flowSteerPending := false |>.

Definition setFlowTableFibEntryLifetime (lifetime : Z) : M (ForwardingEngine R) unit :=
  if lifetime <? 0 then throw (InvalidArgument "Route lifetime must be nonnegative")
  else modify (fun e => e <| m_configuredFlowTableLifetime := lifetime |>).

(** The local route controller's own setter, on the engine's controller. *)
Definition route_setEntryLifetime (lifetime : Z) : M (ForwardingEngine R) unit := fun e =>
  let sf := m_statefulModule e in
  let '(c, r) := setEntryLifetime lifetime (m_temporaryController sf) in
  (e <| m_statefulModule := sf <| m_temporaryController := c |> |>, r).

Definition setTemporaryFibEntryLifetime (lifetime : Z) : M (ForwardingEngine R) unit :=
  if lifetime <? 0 then throw (InvalidArgument "Route lifetime must be nonnegative")
  else
    modify (fun e => e <| m_configuredTemporaryLifetime := lifetime |>);;
    route_setEntryLifetime lifetime.

(** Both configured lifetimes, when set, must equal the saved one. *)
Definition validateRouteLifetime (lifetime : Z) e : exn + unit :=
  if ((0 <? m_configuredFlowTableLifetime e)
      && negb (lifetime =? m_configuredFlowTableLifetime e))
     || ((0 <? m_configuredTemporaryLifetime e)
      && negb (lifetime =? m_configuredTemporaryLifetime e))
  then inl (InvalidArgument "Both configured FIB lifetimes must equal the saved TI lifetime")
  else inr tt.
End setters.

(** ** Handlers *)
Section handlers.
Context {R RW SR : Type} `{!UniformStreams R, !RandomWord RW, !StdRand SR}.
Context `{!StringHash, !StdSort}.
(** How many words [refreshNonce] may draw before the model gives up. *)
Context (nonce_fuel : nat).
Abbreviation node := (Node R RW SR).
Implicit Types (w : node).

Definition fe_get : M node (ForwardingEngine R) := gets n_engine.
Definition fe_upd (f : ForwardingEngine R -> ForwardingEngine R) : M node unit := modify (over f).
Definition fe_count (c : FeCounter) : M node unit :=
  fe_upd (fun e => e <| fe_counters ::= bump c |>).
Definition fe_now : M node Z := gets (fun w => m_currentTs (n_sim w)).
Definition fe_schedule (delay : Z) (e : FeEvent) : M node unit :=
  modify (fun w => (sim_schedule delay e w).1).

Definition assignControllerStreams (firstStream : Z) : M node Z :=
  assignStreams (R := R) firstStream.

(** *** Sending *)
Definition sendToPort (outPort : Z) (header : PacketHeader) (payload : list byte) : M node unit :=
  e ← fe_get;
  match getDevice outPort (m_portTable e) with
  | None => mret tt
  | Some dev => modify (fun w => w <| n_sent ::= fun l => l ++ [mkSent dev header payload] |>)
  end.

Definition out_header (name : Name) : PacketHeader :=
  setOutPorts 0 (setType UNPROCESSED (PacketHeader_of_name name)).

Definition sendInterestToPort (outPort : Z) (interest : Interest) : M node unit :=
  wires ← gets n_wires;
  payload ← lift_result (wireEncode wires interest);
  sendToPort outPort (out_header (i_name interest)) payload.

Definition data_header (data : Data) : PacketHeader :=
  match d_hopCount data with
  | Some n => setSwitchId (u8 n) (out_header (d_name data))
  | None => out_header (d_name data)
  end.

(** Every Data in the engine has been decoded, so [wireEncode] returns its wire. *)
Definition sendDataToPort (outPort : Z) (data : Data) : M node unit :=
  sendToPort outPort (data_header data) (d_wire data).

(** *** Installing a route for the switch-side controller *)
Definition onFlowTableFlowMod (message : ControlMessage) : M node bool :=
  t ← fe_now;
  if isExpiredAt t message then mret false
  else
    fe_count flowTableUpdatesApplied;;
    e ← fe_get;
    (if m_experimentTelemetryEnabled e then
       fe_upd (fun e => e <| m_flowSteerPending := true |> <| m_flowSteerSeq := msg_seq message |>
                 <| m_flowSteerPrefix := msg_prefix message |>)
     else mret tt);;
    zoom (installFibEntry (nameHashes message) (outputPort message) (routeExpiry message));;
    mret true.

(** *** The callbacks the constructor installs *)
Definition on_sync_ack (message : ControlMessage) : M node unit :=
  handleControlResponse None message;; mret tt.
Definition on_sync_request (message : ControlMessage) : M node unit :=
  submitFlowUpdate (Some on_sync_ack) message.

(** *** Resending remembered Interests *)
Definition refresh (interest : Interest) : M node Interest := fun w =>
  match refreshNonce nonce_fuel (n_wires w) interest (n_words w) with
  | inr (r, wires, i) => (w <| n_words := r |> <| n_wires := wires |>, inr i)
  | inl e => (w, inl e)
  end.

Definition pullPendingInterests (prefix : Name) (newPort : Z) : M node unit :=
  e ← fe_get;
  let MAX_PULL_COUNT := m_interestReforwardingLimit e in
  fe_count pullInvocations;;
  let pending := findByPrefix prefix (m_pit e) in
  for_each (take (Z.to_nat MAX_PULL_COUNT) pending) (fun pendingInterest =>
    retx ← refresh pendingInterest;
    fe_count pendingPullsScheduled;;
    fe_schedule (MilliSeconds 0) (DoDelayedPullSend retx newPort)).

Definition doDelayedPullSend (interest : Interest) (port : Z) : M node unit :=
  fe_count pendingPullsSent;;
  sendInterestToPort port interest.

(** *** Trace Data *)
Definition getTraceSequence (data : Data) : exn + Z :=
  c ← name_at (d_name data) (-1);
  toSequenceNumber c.

Definition handleTraceData (inPort : Z) (data : Data) (returnPorts : gset Z) (lifetime : Z)
    : M node unit :=
  e ← fe_get;
  lift_result (validateRouteLifetime (MicroSeconds lifetime) e);;
  seq ← lift_result (getTraceSequence data);
  let prefix := extractDataNameFromTrace (d_name data) in
  if bool_decide (prefix = []) then mret tt
  else
    fe_count traceUpdatesHandled;;
    for_each (set_elements returnPorts) (fun port =>
      updated ← sf_applyTraceUpdate (Some on_sync_request) prefix port seq lifetime;
      e ← fe_get;
      (if m_experimentTelemetryEnabled e && updated then
         fe_upd (fun e => e <| m_tempSteerPending := true |> <| m_tempSteerSeq := seq |>
                   <| m_tempSteerPrefix := prefix |>)
       else mret tt);;
      if updated && m_enableInterestReforwarding e then pullPendingInterests prefix port
      else mret tt).

(** *** Interests *)
Definition processStatefulInterest (inPort : Z) (interest : Interest) (header : PacketHeader)
    : M node unit :=
  fe_count interestsReceived;;
  let name := i_name interest in
  e ← fe_get;
  (if m_experimentTelemetryEnabled e && judgeNameIsTrace name
   then fe_count traceInterestsHandled else mret tt);;
  t ← fe_now;
  wires ← gets n_wires;
  inserted ← lift_result (PendingInterestTable.insert wires t interest inPort (m_pit e));
  let '(pit, pitResult) := inserted in
  fe_upd (fun e => e <| m_pit := pit |>);;
  if negb (accepted pitResult) then fe_count pitDuplicates
  else
    match ContentStore.find name (m_cs e) with
    | Some cached => fe_count csHits;; sendDataToPort inPort cached
    | None =>
        let header := setPacketInPort inPort (computeNameHashes name header) in
        fe_schedule (m_statefulDelay e) (ProcessInterestAfterDelay inPort interest header)
    end.

(** The first matching ordinary Interest consumes a steering flag. *)
Definition note_steering (usedTemporaryFib : bool) (interest : Interest) : M node unit :=
  e ← fe_get;
  if m_experimentTelemetryEnabled e && usedTemporaryFib && m_tempSteerPending e
     && isPrefixOf (m_tempSteerPrefix e) (i_name interest)
  then fe_upd (fun e => e <| m_tempSteerPending := false |>)
  else if m_experimentTelemetryEnabled e && negb usedTemporaryFib && m_flowSteerPending e
     && isPrefixOf (m_flowSteerPrefix e) (i_name interest)
  then fe_upd (fun e => e <| m_flowSteerPending := false |>)
  else mret tt.

(** The second pass and the sending loop: [usedTemporaryFib] says which FIB is
    to choose the egress. *)
Definition forward_interest (inPort : Z) (interest : Interest) (usedTemporaryFib : bool)
    (header : PacketHeader) : M node unit :=
  t ← fe_now;
  pass2 ← zoom (processPacket t header);
  if dropped pass2 || bool_decide (outputPorts pass2 = ∅) then
    fe_count statimLookupMisses;; fe_count noRouteRejections
  else
    for_each (set_elements (outputPorts pass2)) (fun port =>
      if port =? inPort then mret tt
      else
        note_steering usedTemporaryFib interest;;
        fe_count (if usedTemporaryFib then temporaryFibInterestTransmissions
                  else flowTableFibInterestTransmissions);;
        sendInterestToPort port interest).

Definition processInterestAfterDelay (inPort : Z) (interest : Interest) (header : PacketHeader)
    : M node unit :=
  t ← fe_now;
  e ← fe_get;
  let '(fib, entry) := findLongestPrefix t (i_name interest)
                         (m_temporaryFib (m_temporaryController (m_statefulModule e))) in
  modify (over (fun c => c <| m_temporaryFib := fib |>));;
  let forward := forward_interest inPort interest in
  match entry with
  | Some hops =>
      if m_enableTemporaryFib e then
        let ports : gset Z := dom hops in
        if bool_decide (ports = ∅) then fe_count statimLookupMisses
        else forward true (setOutPorts (encodeOutPortsMask ports) (setType INTEREST header))
      else forward false (setOutPorts 0 (setType INTEREST header))
  | None => forward false (setOutPorts 0 (setType INTEREST header))
  end.

(** *** Data *)
Definition processStatefulData (inPort : Z) (data : Data) (header : PacketHeader) : M node unit :=
  fe_count dataReceived;;
  let hopCount := u8 (m_switchId header + 1) in
  let data := setHopCountTag hopCount data in
  let header := setSwitchId hopCount header in
  e ← fe_get;
  fe_schedule (m_statefulDelay e) (ProcessDataAfterDelay inPort data header).

(** The saved Trace Interest's lifetime, in microseconds; zero if there is none. *)
Definition saved_lifetime (name : Name) (pit : PendingInterestTable) : Z :=
  match List.find (fun i => bool_decide (i_name i = name)) (findByPrefix name pit) with
  | Some i => us_of_ms (i_lifetime i)
  | None => 0
  end.

Definition processDataAfterDelay (inPort : Z) (data : Data) (header : PacketHeader)
    : M node unit :=
  let name := d_name data in
  let isTrace := judgeNameIsTrace name in
  e ← fe_get;
  let routeLifetime := if isTrace then saved_lifetime name (m_pit e) else 0 in
  let '(pit, returnPorts) := takeDataMatchPorts name (m_pit e) in
  fe_upd (fun e => e <| m_pit := pit |>);;
  if bool_decide (returnPorts = ∅) then mret tt
  else if isTrace && (routeLifetime <=? 0) then fe_count malformedPackets
  else
    (if isTrace then handleTraceData inPort data returnPorts routeLifetime
     else fun w =>
       let e := n_engine w in
       let '(cs, r) := ContentStore.insert data (m_cs e) (n_rand w) in
       (w <| n_rand := r |> <| n_engine := e <| m_cs := cs |> |>, inr tt));;
    t ← fe_now;
    let header := setOutPorts (encodeOutPortsMask returnPorts)
                    (setType DATA (computeNameHashes name header)) in
    pass2 ← zoom (processPacket t header);
    if dropped pass2 || bool_decide (outputPorts pass2 = ∅) then mret tt
    else for_each (set_elements (outputPorts pass2)) (fun port => sendDataToPort port data).

(** *** Reception *)

(** [std::make_shared<Interest>(block)]: the block has a buffer of its own. *)
Definition make_interest (v : InterestWire) : M node Interest := fun w =>
  let b := n_nextWire w in
  let '(wires, i) := wireDecode b v (n_wires w) in
  (w <| n_wires := wires |> <| n_nextWire := b + 1 |>, inr i).

Definition onReceiveRawPacket (inPort : Z) (packet : list byte) : M node unit :=
  let '(statimHeader, n) := Deserialize packet in
  if negb (n =? Z.of_nat SERIALIZED_SIZE) then fe_count malformedPackets
  else
    let statimHeader := setPacketInPort inPort statimHeader in
    t ← fe_now;
    pass1 ← zoom (processPacket t statimHeader);
    if packetIn pass1 then mret tt
    else if bool_decide (PORT_STATEFUL_MODULE ∈ outputPorts pass1) then
      (* RemoveHeader reads the header again, with the wire's in-port *)
      let statimHeader := (Deserialize packet).1 in
      catch_tlv
        (block ← lift_result (decode_block (drop SERIALIZED_SIZE packet));
         match block with
         | BInterest v =>
             interest ← make_interest v;
             processStatefulInterest inPort interest statimHeader
         | BData data => processStatefulData inPort data statimHeader
         | BOther => fe_count malformedPackets
         end)
        (fe_count malformedPackets)
    else fe_count noRouteRejections.

(** *** The queued events and the run of the node *)
Definition fe_dispatch (ev : FeEvent) : M node unit :=
  match ev with
  | RouteTimer e => run_event (Some on_sync_request) e
  | ControlLeg e => ftc_event (Some onFlowTableFlowMod) (Some on_sync_ack) e
  | ProcessInterestAfterDelay inPort interest header =>
      processInterestAfterDelay inPort interest header
  | ProcessDataAfterDelay inPort data header => processDataAfterDelay inPort data header
  | DoDelayedPullSend interest port => doDelayedPullSend interest port
  end.
End handlers.
