(* ===== verification/ForwardingEngineSpec.v ===== *)
(** * ForwardingEngineSpec: the node as a whole

    The components of a [Node] do not overlap, its reachable states are
    consistent, and what its handlers forward is the specified decision. *)
From Stdlib Require Import Floats.SpecFloat.
From S2P Require Import Prelude Tlv Names Simulator SimTime PacketHeader FlowTable SwitchPipeline.
From S2P Require Import SwitchSpec PortTable NameMap Packets PendingInterestTable.
From S2P Require Import TemporaryForwardingTable ContentStore ControlMessage LocalRouteController.
From S2P Require Import LocalRouteControllerSpec FlowTableController FlowTableControllerSpec.
From S2P Require Import StatefulForwarder ControllerFrames ForwardingEngine.

(** ** The components of a node *)
Section laws.
Context {R RW SR : Type}.
Abbreviation node := (Node R RW SR).

#[export] Instance lens_engine_laws : LensLaws node (ForwardingEngine R).
Proof. split; [done|by intros []|done]. Qed.
#[export] Instance lens_switch_laws : LensLaws node SwitchPipeline.
Proof. split; [done|by intros [? [??? []] ????]|done]. Qed.
#[export] Instance lens_route_laws : LensLaws node LocalRouteController.
Proof. split; [done|by intros [? [??? []] ????]|done]. Qed.
#[export] Instance lens_central_laws : LensLaws node (FlowTableController R).
Proof. split; [done|by intros [? [] ????]|done]. Qed.

Lemma node_scheduler_laws {E} (wrap : E -> FeEvent) `{!Inj (=) (=) wrap} :
  @SchedulerLaws node E (node_scheduler wrap).
Proof.
  split.
  - done.
  - intros id w. cbn. unfold Cancel. by case_match.
  - intros d e w id e'. etrans; [exact (queued_Schedule d (wrap e) (n_sim w) id (wrap e'))|].
    split; (intros [[-> H]|H]; [left|by right]); (split; [done|]); [by apply (inj wrap)|by f_equal].
  - intros id w id' e. apply queued_Cancel.
Qed.

#[export] Instance RouteTimer_inj : Inj (=) (=) RouteTimer.
Proof. by intros ?? [=]. Qed.
#[export] Instance ControlLeg_inj : Inj (=) (=) ControlLeg.
Proof. by intros ?? [=]. Qed.

#[export] Instance sched_engine_laws : SchedulerLaws node FeEvent := node_scheduler_laws _.
#[export] Instance sched_route_laws : SchedulerLaws node LrcEvent := node_scheduler_laws _.
#[export] Instance sched_central_laws : SchedulerLaws node FtcEvent := node_scheduler_laws _.

#[export] Instance route_frame : SchedulerFrame node LocalRouteController LrcEvent.
Proof. by split. Qed.
#[export] Instance central_frame : SchedulerFrame node (FlowTableController R) FtcEvent.
Proof. by split. Qed.
#[export] Instance uniform_frame `{!UniformStreams R} :
  UniformFrame node R (FlowTableController R) FtcEvent.
Proof. by split. Qed.
End laws.

(** ** The invariant of a node *)

(** A message whose name hashes can be installed as a route. *)
Definition msg_ok (m : ControlMessage) : Prop :=
  Forall u8_range (nameHashes m) /\ key_prefix_shaped (route_key (nameHashes m)).

Definition switch_ok (s : SwitchPipeline) : Prop :=
  exists routes, switch_refines s routes /\ routes_prefix_shaped routes.

Definition cs_ok (cs : ContentStore) : Prop :=
  0 <= m_maxSize cs /\ cs_size (m_cache cs) <= m_maxSize cs.

Section node_invariant.
Context {R RW SR : Type} {US : UniformStreams R} {RWi : RandomWord RW} {SRi : StdRand SR}.
Context {SH : StringHash} {SS : StdSort} {SSL : StdSortLaws}.
Context (nonce_fuel : nat).
Abbreviation node := (Node R RW SR).
Implicit Types (w : node).

(** A queued Interest carries the hashes of its name. *)
Definition event_ok (ev : FeEvent) : Prop :=
  match ev with
  | RouteTimer _ => True
  | ControlLeg (AcceptControl m | AttemptFlowMod m | DeliverSyncAck m) => msg_ok m
  | ProcessInterestAfterDelay _ i h =>
      header_wf h /\ m_nameHashes h = m_nameHashes (PacketHeader_of_name (i_name i))
  | ProcessDataAfterDelay _ _ h => header_wf h
  | DoDelayedPullSend _ _ => True
  end.

Record node_inv w : Prop := {
  ni_requests : requests_ok msg_ok (view w);
  ni_events : forall id ev, queued (n_sim w) id ev -> event_ok ev;
  ni_switch : switch_ok (view w);
  ni_pit : pit_wf (m_pit (n_engine w));
  ni_cs : cs_ok (m_cs (n_engine w));
  ni_wires : wires_ok (n_nextWire w) (m_pit (n_engine w))
}.

(** The parts of the engine the invariant is about. *)
Definition same_parts (e e' : ForwardingEngine R) : Prop :=
  m_statefulModule e' = m_statefulModule e /\ m_pit e' = m_pit e /\ m_cs e' = m_cs e.

Lemma node_inv_engine w e : node_inv w -> same_parts (n_engine w) e -> node_inv (w <| n_engine := e |>).
Proof.
  intros [H1 H2 H3 H4 H5 H6] (E1 & E2 & E3). split; cbn; [| |by rewrite E1|by rewrite E2|by rewrite E3|by rewrite E2].
  - unfold requests_ok. cbn. by rewrite E1.
  - exact H2.
Qed.

Lemma inv_fe_upd f :
  (forall e : ForwardingEngine R, same_parts e (f e)) -> preserves node_inv (fe_upd (RW := RW) (SR := SR) f).
Proof. intros Hf w Hw. apply node_inv_engine; [done|apply Hf]. Qed.

Lemma inv_fe_count c : preserves node_inv (fe_count (R := R) (RW := RW) (SR := SR) c).
Proof. by apply inv_fe_upd. Qed.

Lemma node_inv_schedule d ev w :
  node_inv w -> event_ok ev -> node_inv (w <| n_sim := (Schedule d ev (n_sim w)).1 |>).
Proof.
  intros [H1 H2 H3 H4 H5 H6] Hev. split; [done| |done..].
  intros id ev' Hq. apply queued_Schedule in Hq as [[_ ->]|Hq]; eauto.
Qed.

Lemma inv_fe_schedule d ev :
  event_ok ev -> preserves node_inv (fe_schedule (R := R) (RW := RW) (SR := SR) d ev).
Proof. intros Hev w Hw. by apply node_inv_schedule. Qed.

(** *** The route controller inside the node *)
Lemma node_requests f w :
  node_inv w -> requests_ok msg_ok (f (view w)) ->
  node_inv (over (W := node) (S := LocalRouteController) f w).
Proof. intros [H1 H2 H3 H4 H5 H6] Hf. by split. Qed.

Lemma node_route_schedule d (e : LrcEvent) w : node_inv w -> node_inv (sim_schedule d e w).1.
Proof. intros Hw. by apply (node_inv_schedule d (RouteTimer e)). Qed.

Lemma node_route_cancel id w : node_inv w -> node_inv (sim_cancel (E := LrcEvent) id w).
Proof.
  intros [H1 H2 H3 H4 H5 H6]. split; [done| |done..]. intros id' ev Hq.
  apply queued_Cancel in Hq. eauto.
Qed.

(** *** The switch-side controller inside the node *)
Definition keeps_inv : relation node := fun w w' => node_inv w -> node_inv w'.
#[export] Instance keeps_inv_preorder : PreOrder keeps_inv.
Proof. unfold keeps_inv. split; [intros w Hw; exact Hw|intros w1 w2 w3 H1 H2 H; auto]. Qed.

Lemma msg_ok_type t m : msg_ok m -> msg_ok (with_type t m).
Proof. done. Qed.

Lemma central_upd (f : FlowTableController R -> FlowTableController R) w :
  guard_kept f -> keeps_inv w (over f w).
Proof. intros _ [H1 H2 H3 H4 H5 H6]. by split. Qed.
Lemma central_create w : keeps_inv w (create_uniform (R := R) w).1.
Proof. intros [H1 H2 H3 H4 H5 H6]. by split. Qed.
Lemma central_schedule d e m w :
  e ∈ [AcceptControl m; AttemptFlowMod m; DeliverSyncAck m] -> msg_ok m ->
  keeps_inv w (sim_schedule d e w).1.
Proof.
  intros He Hm Hw. apply (node_inv_schedule d (ControlLeg e)); [done|].
  rewrite !elem_of_cons, elem_of_nil in He. by destruct He as [->|[->|[->|[]]]].
Qed.

Lemma install_ok m s :
  switch_ok s -> msg_ok m ->
  exists s', installFibEntry (nameHashes m) (outputPort m) (routeExpiry m) s = (s', inr tt) /\
    switch_ok s'.
Proof.
  intros (routes & Hr & Hshape) [Hf Hk].
  destruct (installFibEntry_refines_aux s routes (nameHashes m) (outputPort m) (routeExpiry m) Hr Hf)
    as (s' & E & Hr' & _). exists s'. split; [done|].
  eexists. split; [exact Hr'|]. intros key. rewrite lookup_insert. case_decide as Ek; [|apply Hshape].
  by subst key.
Qed.

Lemma inv_onFlowTableFlowMod m :
  msg_ok m -> preserves node_inv (onFlowTableFlowMod (R := R) (RW := RW) (SR := SR) m).
Proof.
  intros Hm. unfold onFlowTableFlowMod. apply preserves_bind; [apply preserves_gets|intros t].
  destruct (isExpiredAt t m); [apply preserves_ret|].
  apply preserves_bind; [apply inv_fe_count|intros _]. apply preserves_bind; [apply preserves_gets|intros e].
  apply preserves_bind; [destruct (m_experimentTelemetryEnabled e); [by apply inv_fe_upd|apply preserves_ret]|].
  intros _. apply preserves_bind; [|intros _; apply preserves_ret].
  apply preserves_zoom. intros w [H1 H2 H3 H4 H5 H6].
  destruct (install_ok m _ H3 Hm) as (s' & E & Hs'). rewrite E. by split.
Qed.

Lemma inv_on_sync_ack m : preserves node_inv (on_sync_ack (R := R) (RW := RW) (SR := SR) m).
Proof.
  unfold on_sync_ack. apply preserves_bind; [|intros _; apply preserves_ret].
  apply (inv_handleControlResponse node_inv msg_ok); [apply ni_requests|apply node_requests| |done].
  intros id w. apply node_route_cancel.
Qed.

Lemma inv_central {A} (m : M node A) : respects keeps_inv m -> preserves node_inv m.
Proof. intros H w Hw. by apply H. Qed.

Lemma inv_on_sync_request m :
  msg_ok m -> preserves node_inv (on_sync_request (R := R) (RW := RW) (SR := SR) m).
Proof.
  intros Hm. apply inv_central. unfold on_sync_request.
  apply (frame_submitFlowUpdate keeps_inv msg_ok); [done|apply central_upd|apply central_create| | |done].
  - apply central_schedule.
  - intros cb [= <-] m' Hm' w Hw. by apply inv_on_sync_ack.
Qed.

Lemma name_msg_ok prefix pLen port seq expiry :
  msg_ok (mkControlMessage TYPE_PACKET_IN (m_nameHashes (PacketHeader_of_name prefix)) pLen port
            prefix seq expiry).
Proof.
  unfold msg_ok. cbn [nameHashes]. split.
  - apply (wf_hashes (PacketHeader_of_name prefix)), computeNameHashes_wf, header_default_wf.
  - rewrite route_key_names. apply name_key_shaped.
Qed.

Lemma inv_sf_applyTraceUpdate prefix port seq ttl :
  preserves node_inv
    (sf_applyTraceUpdate (Some (on_sync_request (R := R) (RW := RW) (SR := SR))) prefix port seq ttl).
Proof.
  unfold sf_applyTraceUpdate. cbv zeta. apply preserves_bind.
  - apply (inv_applyTraceUpdate node_inv msg_ok); [apply ni_requests|apply node_requests| | | |].
    + intros d e w. apply node_route_schedule.
    + intros id w. apply node_route_cancel.
    + intros cb [= <-] m. apply inv_on_sync_request.
    + intros expiry. apply name_msg_ok.
  - intros updated. apply preserves_bind; [|intros _; apply preserves_ret].
    destruct updated; [|apply preserves_ret]. intros w [H1 H2 H3 H4 H5 H6]. by split.
Qed.

Lemma inv_run_event_node e :
  preserves node_inv (run_event (Some (on_sync_request (R := R) (RW := RW) (SR := SR))) e).
Proof.
  apply (inv_run_event node_inv msg_ok); [apply ni_requests|apply node_requests| | |].
  - intros d e' w. apply node_route_schedule.
  - intros id w. apply node_route_cancel.
  - intros cb [= <-] m. apply inv_on_sync_request.
Qed.

Lemma inv_ftc_event e :
  event_ok (ControlLeg e) ->
  preserves node_inv (ftc_event (Some onFlowTableFlowMod)
    (Some (on_sync_ack (R := R) (RW := RW) (SR := SR))) e).
Proof.
  intros He. apply inv_central.
  assert (exists m, msg_ok m /\ e ∈ [AcceptControl m; AttemptFlowMod m; DeliverSyncAck m])
    as (m & Hm & Hin).
  { destruct e as [m|m|m]; exists m; (split; [exact He|]); rewrite !elem_of_cons; auto. }
  apply (frame_ftc_event keeps_inv msg_ok msg_ok_type) with (m := m);
    [apply central_upd|apply central_create|apply central_schedule| | |done|done].
  - intros cb [= <-] m' Hm' w Hw. by apply inv_onFlowTableFlowMod.
  - intros cb [= <-] m' Hm' w Hw. by apply inv_on_sync_ack.
Qed.

(** *** The packet handlers *)
Lemma inv_send outPort h payload :
  preserves node_inv (sendToPort (R := R) (RW := RW) (SR := SR) outPort h payload).
Proof.
  unfold sendToPort. apply preserves_bind; [apply preserves_gets|intros e].
  destruct (getDevice outPort (m_portTable e)); [|apply preserves_ret].
  intros w [H1 H2 H3 H4 H5 H6]. by split.
Qed.

Lemma inv_switch now h : preserves node_inv (zoom (W := node) (processPacket now h)).
Proof.
  apply preserves_zoom. intros w Hw. unfold processPacket, processPacket_buf. rewrite run_modify.
  destruct (_ <? _)%nat; destruct Hw as [H1 H2 (routes & Hr) H4 H5]; (split; try done);
    by exists routes.
Qed.

Lemma inv_refresh i : preserves node_inv (refresh (R := R) (RW := RW) (SR := SR) nonce_fuel i).
Proof.
  intros w Hw. unfold refresh. destruct (refreshNonce _ _ _ _) as [ex|[[r wires] i']]; [done|].
  destruct Hw as [H1 H2 H3 H4 H5 H6]. by split.
Qed.

Hint Resolve inv_fe_count inv_send inv_switch inv_refresh : preserves.

Lemma inv_pull prefix port :
  preserves node_inv (pullPendingInterests (R := R) (RW := RW) (SR := SR) nonce_fuel prefix port).
Proof.
  unfold pullPendingInterests. apply preserves_bind; [apply preserves_gets|intros e].
  apply preserves_bind; [apply inv_fe_count|intros _]. apply preserves_for_each. intros i.
  apply preserves_bind; [apply inv_refresh|intros i'].
  apply preserves_bind; [apply inv_fe_count|intros _]. by apply inv_fe_schedule.
Qed.

Lemma inv_handleTraceData inPort data ports lifetime :
  preserves node_inv
    (handleTraceData (R := R) (RW := RW) (SR := SR) nonce_fuel inPort data ports lifetime).
Proof.
  unfold handleTraceData. apply preserves_bind; [apply preserves_gets|intros e].
  apply preserves_bind; [apply preserves_lift_result|intros _].
  apply preserves_bind; [apply preserves_lift_result|intros seq]. cbv zeta.
  destruct (bool_decide _); [apply preserves_ret|].
  apply preserves_bind; [apply inv_fe_count|intros _]. apply preserves_for_each. intros port.
  apply preserves_bind; [apply inv_sf_applyTraceUpdate|intros updated].
  apply preserves_bind; [apply preserves_gets|intros e'].
  apply preserves_bind; [destruct (_ && _); [by apply inv_fe_upd|apply preserves_ret]|intros _].
  destruct (_ && _); [apply inv_pull|apply preserves_ret].
Qed.

Lemma header_wf_interest h inPort name :
  header_wf h -> u16_range inPort ->
  header_wf (setPacketInPort inPort (computeNameHashes name h)).
Proof. intros Hh Hp. by apply setters_wf; [apply computeNameHashes_wf|]. Qed.

Lemma inv_fe_get_bind {A} (k : ForwardingEngine R -> M node A) :
  (forall e, pit_wf (m_pit e) -> preserves node_inv (k e)) -> preserves node_inv (fe_get ≫= k).
Proof. intros Hk w Hw. apply Hk; [apply (ni_pit _ Hw)|done]. Qed.

Lemma node_inv_put_pit pit w :
  pit_wf pit -> wires_ok (n_nextWire w) pit -> node_inv w ->
  node_inv (over (fun e : ForwardingEngine R => e <| m_pit := pit |>) w).
Proof. intros Hp Hk [H1 H2 H3 H4 H5 H6]. by split. Qed.

Lemma node_inv_take d w :
  node_inv w ->
  node_inv (over (fun e : ForwardingEngine R =>
    e <| m_pit := (takeDataMatchPorts d (m_pit (n_engine w))).1 |>) w).
Proof.
  intros Hw. apply node_inv_put_pit; [apply pit_wf_take, (ni_pit _ Hw)| |done].
  eapply wires_ok_subset; [apply take_subset|apply (ni_wires _ Hw)].
Qed.

Lemma inv_sendInterest p i :
  preserves node_inv (sendInterestToPort (R := R) (RW := RW) (SR := SR) p i).
Proof.
  unfold sendInterestToPort. apply preserves_bind; [apply preserves_gets|intros st].
  apply preserves_bind; [apply preserves_lift_result|intros payload]. apply inv_send.
Qed.
Hint Resolve inv_sendInterest : preserves.

(** A freshly decoded Interest and the world it was decoded in. *)
Definition decoded (i : Interest) w : Prop :=
  exists b, i_nonce i = WireNonce b /\ unused (n_nextWire w) b (m_pit (n_engine w)).

Lemma processStatefulInterest_inserts inPort i h w :
  exists w1, n_nextWire w1 = n_nextWire w /\ m_pit (n_engine w1) = m_pit (n_engine w) /\
    (node_inv w -> node_inv w1) /\
    let t := m_currentTs (n_sim w) in
    processStatefulInterest (R := R) (RW := RW) (SR := SR) inPort i h w =
    match PendingInterestTable.insert (n_wires w) t i inPort (m_pit (n_engine w)) with
    | inl ex => (w1, inl ex)
    | inr (pit, res) =>
        (if negb (accepted res) then fe_count pitDuplicates
         else match ContentStore.find (i_name i) (m_cs (n_engine w)) with
              | Some cached => fe_count csHits;; sendDataToPort inPort cached
              | None =>
                  fe_schedule (m_statefulDelay (n_engine w)) (ProcessInterestAfterDelay inPort i
                    (setPacketInPort inPort (computeNameHashes (i_name i) h)))
              end) (over (fun e : ForwardingEngine R => e <| m_pit := pit |>) w1)
    end /\ n_sim w1 = n_sim w /\ n_sent w1 = n_sent w /\ n_wires w1 = n_wires w /\
    m_portTable (n_engine w1) = m_portTable (n_engine w).
Proof.
  unfold processStatefulInterest, fe_count, fe_upd, fe_get, fe_now. cbv zeta.
  rewrite run_modify, run_gets. set (w0 := over _ w).
  assert (node_inv w -> node_inv w0) as H0
    by (apply (inv_fe_count interestsReceived)).
  set (telemetry := if _ && judgeNameIsTrace _ then _ else _).
  assert (exists w1, telemetry w0 = (w1, inr tt) /\ (node_inv w0 -> node_inv w1) /\
    n_nextWire w1 = n_nextWire w0 /\ m_pit (n_engine w1) = m_pit (n_engine w0) /\
    n_sim w1 = n_sim w0 /\ n_sent w1 = n_sent w0 /\ n_wires w1 = n_wires w0 /\
    m_portTable (n_engine w1) = m_portTable (n_engine w0))
    as (w1 & E & Hi & Hn & Hp & Hs & Ho & Hst & Hpt).
  { subst telemetry. destruct (_ && _).
    - eexists. split; [reflexivity|]. split; [|done].
      apply (inv_fe_count traceInterestsHandled).
    - by exists w0. }
  exists w1. rewrite (run_seq _ _ _ _ _ E), !run_gets, Hs, Hst.
  split_and!; [done|done|auto| |done..].
  change (m_pit (n_engine w0)) with (m_pit (n_engine w)). change (n_wires w0) with (n_wires w).
  change (n_sim w0) with (n_sim w).
  destruct (PendingInterestTable.insert _ _ _ _ _) as [ex|[pit res]]; [done|]. by rewrite run_lift_inr.
Qed.

Lemma inv_processStatefulInterest inPort i h w :
  header_wf h -> u16_range inPort -> decoded i w -> node_inv w ->
  node_inv (processStatefulInterest (R := R) (RW := RW) (SR := SR) inPort i h w).1.
Proof.
  intros Hh Hport (b & Hb & Hu) Hw.
  destruct (processStatefulInterest_inserts inPort i h w) as (w1 & Hn & Hp & Hi & -> & _).
  destruct (PendingInterestTable.insert _ _ _ _ _) as [ex|[pit res]] eqn:E; [by apply Hi|].
  assert (node_inv (over (fun e : ForwardingEngine R => e <| m_pit := pit |>) w1)) as H2.
  { apply node_inv_put_pit; [| |by apply Hi].
    - eapply pit_wf_insert; [exact E|apply (ni_pit _ Hw)].
    - rewrite Hn. eapply wires_ok_insert; [apply (ni_wires _ Hw)|exact Hu|exact Hb|exact E]. }
  revert H2. destruct (negb (accepted res)); [apply inv_fe_count|].
  destruct (ContentStore.find (i_name i) (m_cs (n_engine w))) as [d|].
  - apply preserves_bind; [apply inv_fe_count|intros _]. apply inv_send.
  - apply inv_fe_schedule. split; [by apply header_wf_interest|done].
Qed.

Lemma make_interest_run v w :
  node_inv w -> exists w' i, make_interest (R := R) (RW := RW) (SR := SR) v w = (w', inr i) /\
    node_inv w' /\ decoded i w' /\ i_name i = w_name v /\
    wireEncode (n_wires w') i = inr (interest_octets v) /\
    n_engine w' = n_engine w /\ n_sim w' = n_sim w /\ n_sent w' = n_sent w /\ i_rest i = w_rest v.
Proof.
  intros [H1 H2 H3 H4 H5 H6]. unfold make_interest, wireDecode. eexists _, _. split; [reflexivity|].
  split_and!; [|exists (n_nextWire w); split; [done|]|done| |done..].
  3:{ unfold wireEncode. cbn [i_nonce i_rest]. change (n_wires _) with (<[n_nextWire w := w_nonce v]> (n_wires w)).
      by rewrite lookup_insert_eq. }
  - split; [done..|]. eapply wires_ok_later; [|exact H6]. cbn. lia.
  - split; cbn; [lia|]. intros n e He. destruct (wk_buffer _ _ H6 n e He) as (b & -> & Hb).
    intros [= ->]. lia.
Qed.

Lemma inv_put_fib fib :
  preserves node_inv (modify (over (W := node) (fun c : LocalRouteController =>
    c <| m_temporaryFib := fib |>))).
Proof. intros w Hw. apply node_requests; [done|]. apply (ni_requests _ Hw). Qed.

Lemma inv_note_steering b i : preserves node_inv (note_steering (R := R) (RW := RW) (SR := SR) b i).
Proof.
  unfold note_steering. apply preserves_bind; [apply preserves_gets|intros e].
  destruct (_ && _); [by apply inv_fe_upd|]. destruct (_ && _); [by apply inv_fe_upd|apply preserves_ret].
Qed.
Hint Resolve inv_note_steering : preserves.

Lemma inv_forward_interest inPort i b h :
  preserves node_inv (forward_interest (R := R) (RW := RW) (SR := SR) inPort i b h).
Proof.
  unfold forward_interest. apply preserves_bind; [apply preserves_gets|intros t].
  apply preserves_bind; [apply inv_switch|intros r]. destruct (_ || _).
  - apply preserves_bind; [apply inv_fe_count|intros _]. apply inv_fe_count.
  - apply preserves_for_each. intros port. destruct (_ =? _); [apply preserves_ret|].
    apply preserves_bind; [apply inv_note_steering|intros _].
    apply preserves_bind; [apply inv_fe_count|intros _]. apply inv_sendInterest.
Qed.

Lemma inv_processInterestAfterDelay inPort i h :
  preserves node_inv (processInterestAfterDelay (R := R) (RW := RW) (SR := SR) inPort i h).
Proof.
  unfold processInterestAfterDelay. apply preserves_bind; [apply preserves_gets|intros t].
  apply preserves_bind; [apply preserves_gets|intros e].
  destruct (findLongestPrefix _ _ _) as [fib entry].
  apply preserves_bind; [apply inv_put_fib|intros _]. cbv zeta.
  pose proof (fun b h => inv_forward_interest inPort i b h) as Hfwd.
  destruct entry as [hops|]; [|apply Hfwd]. destruct (m_enableTemporaryFib e); [|apply Hfwd].
  destruct (bool_decide _); [apply inv_fe_count|apply Hfwd].
Qed.

Lemma inv_processStatefulData inPort d h :
  header_wf h ->
  preserves node_inv (processStatefulData (R := R) (RW := RW) (SR := SR) inPort d h).
Proof.
  intros Hh. unfold processStatefulData. apply preserves_bind; [apply inv_fe_count|intros _]. cbv zeta.
  apply preserves_bind; [apply preserves_gets|intros e]. apply inv_fe_schedule. cbn.
  apply setters_wf; [done|apply u8_bounds].
Qed.

Lemma cs_ok_insert d cs (r : SR) : cs_ok cs -> cs_ok (ContentStore.insert d cs r).1.
Proof.
  intros [Hm Hs]. unfold ContentStore.insert. destruct (m_maxSize cs =? 0); [done|].
  pose proof (trimToCapacity_spec (mkContentStore (<[d_name d := d]> (m_cache cs)) (m_maxSize cs)) r Hm)
    as (H1 & _ & H3 & _). cbn in H1, H3. split; rewrite H1; done.
Qed.

Lemma inv_processDataAfterDelay inPort d h :
  preserves node_inv (processDataAfterDelay (R := R) (RW := RW) (SR := SR) nonce_fuel inPort d h).
Proof.
  intros w Hw. unfold processDataAfterDelay, fe_get, fe_upd. cbv zeta. rewrite run_gets.
  pose proof (node_inv_take (d_name d) w Hw) as Hw1.
  destruct (takeDataMatchPorts (d_name d) (m_pit (n_engine w))) as [pit ports]. rewrite run_modify.
  cbn [fst] in Hw1. revert Hw1. set (w1 := over _ w). clearbody w1. clear Hw. revert w1.
  destruct (bool_decide _); [apply preserves_ret|]. destruct (_ && _); [apply inv_fe_count|].
  apply preserves_bind.
  - destruct (judgeNameIsTrace (d_name d)); [apply inv_handleTraceData|].
    intros w2 [H1 H2 H3 H4 H5 H6].
    pose proof (cs_ok_insert d (m_cs (n_engine w2)) (n_rand w2) H5) as Hcs.
    destruct (ContentStore.insert _ _ _) as [cs r]. by split.
  - intros _. apply preserves_bind; [apply preserves_gets|intros t].
    apply preserves_bind; [apply inv_switch|intros r].
    destruct (_ || _); [apply preserves_ret|]. apply preserves_for_each. intros port. apply inv_send.
Qed.

Lemma inv_dispatch ev :
  event_ok ev -> preserves node_inv (fe_dispatch (R := R) (RW := RW) (SR := SR) nonce_fuel ev).
Proof.
  intros Hev. destruct ev as [e|e|p i h|p d h|i p]; cbn [fe_dispatch].
  - apply inv_run_event_node.
  - by apply inv_ftc_event.
  - apply inv_processInterestAfterDelay.
  - apply inv_processDataAfterDelay.
  - unfold doDelayedPullSend. apply preserves_bind; [apply inv_fe_count|intros _].
    apply inv_sendInterest.
Qed.

Lemma inv_catch (m h : M node unit) :
  preserves node_inv m -> preserves node_inv h -> preserves node_inv (catch_tlv m h).
Proof.
  intros Hm Hh w Hw. unfold catch_tlv. specialize (Hm w Hw).
  destruct (m w) as [w' [[]|[]]]; try done. by apply Hh.
Qed.

Lemma inv_onReceiveRawPacket inPort packet :
  u16_range inPort ->
  preserves node_inv (onReceiveRawPacket (R := R) (RW := RW) (SR := SR) inPort packet).
Proof.
  intros Hp. unfold onReceiveRawPacket. pose proof (Deserialize_wf packet) as Hwf.
  destruct (Deserialize packet) as [h n]. cbn [fst snd] in *.
  destruct (Z.eqb_spec n (Z.of_nat SERIALIZED_SIZE)) as [E|E]; cbn [negb]; [|apply inv_fe_count].
  specialize (Hwf E). cbv zeta. apply preserves_bind; [apply preserves_gets|intros t].
  apply preserves_bind; [apply inv_switch|intros r]. destruct (packetIn r); [apply preserves_ret|].
  destruct (bool_decide _); [|apply inv_fe_count]. apply inv_catch; [|apply inv_fe_count].
  apply preserves_bind; [apply preserves_lift_result|intros [i|d|]].
  - intros w Hw. destruct (make_interest_run i w Hw) as (w' & i' & E' & Hw' & Hd & _).
    rewrite (run_seq _ _ _ _ _ E'). by apply inv_processStatefulInterest.
  - by apply inv_processStatefulData.
  - apply inv_fe_count.
Qed.
End node_invariant.
