(* ===== verification/NodeSpec.v ===== *)
(** * NodeSpec: the reachable states of a node

    A node receives packets and runs its queued events, with any loss, delay and
    order of both; in every state it reaches that way its tables and its two
    controllers are consistent, and the controllers only move forward. *)
From Stdlib Require Import Floats.SpecFloat.
From S2P Require Import Prelude Tlv Encoder BlockSpec Names WireFormat Simulator SimTime PacketHeader FlowTable SwitchPipeline.
From S2P Require Import SwitchSpec PortTable NameMap Packets PendingInterestTable.
From S2P Require Import TemporaryForwardingTable ContentStore ControlMessage LocalRouteController.
From S2P Require Import LocalRouteControllerSpec FlowTableController FlowTableControllerSpec.
From S2P Require Import StatefulForwarder ControllerFrames ForwardingEngine ForwardingEngineSpec.

Section node.
Context {R RW SR : Type} {US : UniformStreams R} {RWi : RandomWord RW} {SRi : StdRand SR}.
Context {SH : StringHash} {SS : StdSort} {SSL : StdSortLaws}.
Context (nonce_fuel : nat).
Abbreviation node := (Node R RW SR).
Abbreviation request := (Some (on_sync_request (R := R) (RW := RW) (SR := SR))).
Abbreviation lrc w := (view (S := LocalRouteController) w).
Abbreviation ftc w := (view (S := FlowTableController R) w).
Implicit Types (w : node).

(** ** What a node can do next

    [step_elapse] is a stretch of the run in which other nodes' events move the
    clock and number events of their own. *)
Inductive node_step : relation node :=
| step_receive inPort packet w :
    u16_range inPort -> node_step w (onReceiveRawPacket inPort packet w).1
| step_event w : node_step w (ProcessOneEvent (fe_dispatch nonce_fuel) w).1
| step_elapse ts uid n w :
    m_currentTs (n_sim w) <= ts -> Forall (fun ev => ts <= key_ts ev) (m_events (n_sim w)) ->
    node_step w (w <| n_sim ::= fun s => mkSim ts uid n (m_events s) (m_stop s) |>).

(** ** Steps that leave the controllers alone *)
Definition quiet : relation node := fun w w' =>
  lrc w' = lrc w /\ ftc w' = ftc w /\
  forall id e, queued (n_sim w') id (ControlLeg e) -> queued (n_sim w) id (ControlLeg e).

#[export] Instance quiet_preorder : PreOrder quiet.
Proof.
  split; [by unfold quiet|]. intros w1 w2 w3 (A1 & A2 & A3) (B1 & B2 & B3).
  split_and!; [congruence|congruence|auto].
Qed.

Lemma node_quiet_upd (f : ForwardingEngine R -> ForwardingEngine R) :
  (forall e, m_temporaryController (m_statefulModule (f e)) = m_temporaryController (m_statefulModule e)
     /\ m_centralController (f e) = m_centralController e) ->
  respects quiet (fe_upd (RW := RW) (SR := SR) f).
Proof. intros Hf w. destruct (Hf (n_engine w)) as [H1 H2]. by split_and!. Qed.

Lemma quiet_count c : respects quiet (fe_count (R := R) (RW := RW) (SR := SR) c).
Proof. by apply node_quiet_upd. Qed.

Lemma quiet_schedule d ev :
  (forall e, ev <> ControlLeg e) -> respects quiet (fe_schedule (R := R) (RW := RW) (SR := SR) d ev).
Proof.
  intros He w. split_and!; [done..|]. intros id e Hq.
  apply queued_Schedule in Hq as [[_ E]|Hq]; [by destruct (He e)|done].
Qed.

Lemma quiet_zoom_switch {A} (m : M SwitchPipeline A) : respects quiet (zoom (W := node) m).
Proof. intros w. unfold zoom. destruct (m (view w)). by split_and!. Qed.

Lemma quiet_send p h b : respects quiet (sendToPort (R := R) (RW := RW) (SR := SR) p h b).
Proof.
  intros w. unfold sendToPort, fe_get. rewrite run_gets.
  destruct (getDevice p (m_portTable (n_engine w))); by split_and!.
Qed.

Lemma quiet_refresh i : respects quiet (refresh (R := R) (RW := RW) (SR := SR) nonce_fuel i).
Proof.
  intros w. unfold refresh. destruct (refreshNonce _ _ _ _) as [ex|[[r wires] i']]; by split_and!.
Qed.

Lemma quiet_make_interest v : respects quiet (make_interest (R := R) (RW := RW) (SR := SR) v).
Proof. intros w. by split_and!. Qed.

Hint Resolve quiet_count quiet_zoom_switch quiet_send quiet_refresh
  quiet_make_interest : respects.
Hint Extern 1 (respects quiet (fe_upd _)) => by apply node_quiet_upd : respects.
Hint Extern 1 (respects quiet (fe_schedule _ _)) => by apply quiet_schedule : respects.

Lemma quiet_onFlowTableFlowMod m :
  respects quiet (onFlowTableFlowMod (R := R) (RW := RW) (SR := SR) m).
Proof. unfold onFlowTableFlowMod, fe_now, fe_get. respects. Qed.

Lemma quiet_pull prefix port :
  respects quiet (pullPendingInterests (R := R) (RW := RW) (SR := SR) nonce_fuel prefix port).
Proof. unfold pullPendingInterests, fe_get. respects. Qed.

Lemma quiet_doDelayedPullSend i port :
  respects quiet (doDelayedPullSend (R := R) (RW := RW) (SR := SR) i port).
Proof. unfold doDelayedPullSend, sendInterestToPort. respects. Qed.

Lemma quiet_processStatefulInterest inPort i h :
  respects quiet (processStatefulInterest (R := R) (RW := RW) (SR := SR) inPort i h).
Proof. unfold processStatefulInterest, fe_get, fe_now, sendDataToPort. respects. Qed.

Lemma quiet_processStatefulData inPort d h :
  respects quiet (processStatefulData (R := R) (RW := RW) (SR := SR) inPort d h).
Proof. unfold processStatefulData, fe_get. respects. Qed.

Lemma quiet_onReceiveRawPacket inPort packet :
  respects quiet (onReceiveRawPacket (R := R) (RW := RW) (SR := SR) inPort packet).
Proof.
  assert (forall m h : M node unit, respects quiet m -> respects quiet h ->
    respects quiet (catch_tlv m h)) as Hcatch.
  { intros m h Hm Hh w. unfold catch_tlv. specialize (Hm w).
    destruct (m w) as [w' [[]|[]]]; try done. etrans; [exact Hm|apply Hh]. }
  pose proof quiet_processStatefulInterest. pose proof quiet_processStatefulData.
  unfold onReceiveRawPacket, fe_now. destruct (Deserialize packet) as [h n].
  respects. apply Hcatch; respects.
Qed.

(** ** Invariants about the controllers

    An invariant that quiet steps and the entry points of the controllers keep
    is kept by everything a node does. *)
Section walk.
Context (I : node -> Prop).
Hypothesis I_quiet : forall w w', quiet w w' -> I w -> I w'.
Hypothesis I_prune : forall t name w, I w ->
  I (over (W := node) (fun c : LocalRouteController =>
       c <| m_temporaryFib ::= fun fib => (findLongestPrefix t name fib).1 |>) w).
Hypothesis I_trace : forall prefix port seq ttl,
  preserves I (sf_applyTraceUpdate request prefix port seq ttl).

Lemma preserves_quiet {A} (m : M node A) : respects quiet m -> preserves I m.
Proof. intros Hm w Hw. by eapply I_quiet; [apply Hm|]. Qed.

Hint Resolve quiet_pull quiet_onFlowTableFlowMod : respects.

Lemma walk_handleTraceData inPort data ports lifetime :
  preserves I (handleTraceData nonce_fuel inPort data ports lifetime).
Proof.
  unfold handleTraceData, fe_get. apply preserves_bind; [apply preserves_gets|intros e].
  apply preserves_bind; [apply preserves_lift_result|intros _].
  apply preserves_bind; [apply preserves_lift_result|intros seq]. cbv zeta.
  destruct (bool_decide _); [apply preserves_ret|].
  apply preserves_bind; [by apply preserves_quiet, quiet_count|intros _].
  apply preserves_for_each. intros port. apply preserves_bind; [apply I_trace|intros updated].
  apply preserves_quiet. respects.
Qed.

Lemma walk_processDataAfterDelay inPort d h :
  preserves I (processDataAfterDelay nonce_fuel inPort d h).
Proof.
  unfold processDataAfterDelay, fe_get, fe_now. cbv zeta.
  apply preserves_bind; [apply preserves_gets|intros e].
  destruct (takeDataMatchPorts _ _) as [pit ports].
  apply preserves_bind; [apply preserves_quiet; respects|intros _].
  destruct (bool_decide _); [apply preserves_ret|].
  destruct (_ && _); [apply preserves_quiet; respects|]. apply preserves_bind.
  - destruct (judgeNameIsTrace (d_name d)); [apply walk_handleTraceData|].
    apply preserves_quiet. intros w.
    destruct (ContentStore.insert d (m_cs (n_engine w)) (n_rand w)). by split_and!.
  - intros _. apply preserves_quiet. unfold sendDataToPort. respects.
Qed.

Lemma walk_processInterestAfterDelay inPort i h :
  preserves I (processInterestAfterDelay inPort i h).
Proof.
  intros w Hw. unfold processInterestAfterDelay, fe_now, fe_get. rewrite !run_gets.
  pose proof (I_prune (m_currentTs (n_sim w)) (i_name i) w Hw) as Hp.
  set (fib0 := m_temporaryFib (m_temporaryController (m_statefulModule (n_engine w)))).
  destruct (findLongestPrefix (m_currentTs (n_sim w)) (i_name i) fib0) as [fib entry] eqn:E.
  rewrite run_modify.
  assert (over (fun c : LocalRouteController => c <| m_temporaryFib := fib |>) w =
    over (fun c : LocalRouteController => c <| m_temporaryFib ::= fun fib =>
      (findLongestPrefix (m_currentTs (n_sim w)) (i_name i) fib).1 |>) w) as ->.
  { unfold over, set_field, set_m_temporaryFib. cbn [view lens_route]. fold fib0. by rewrite E. }
  revert Hp. apply preserves_quiet.
  unfold forward_interest, note_steering, fe_get, fe_now, sendInterestToPort. respects.
Qed.

Hypothesis I_route : forall e, preserves I (run_event request e).
Hypothesis I_control : forall e w, I w ->
  (exists w0 id, I w0 /\ quiet w0 w /\ queued (n_sim w0) id (ControlLeg e)) ->
  I (fe_dispatch nonce_fuel (ControlLeg e) w).1.

Lemma walk_dispatch ev w :
  I w -> (exists w0 id, I w0 /\ quiet w0 w /\ queued (n_sim w0) id ev) ->
  I (fe_dispatch nonce_fuel ev w).1.
Proof.
  intros Hw Hq. destruct ev as [e|e|p i h|p d h|i p].
  - by apply I_route.
  - by apply I_control.
  - by apply walk_processInterestAfterDelay.
  - by apply walk_processDataAfterDelay.
  - by apply preserves_quiet; [apply quiet_doDelayedPullSend|].
Qed.

Lemma quiet_RemoveNext w s oe :
  RemoveNext (n_sim w) = Some (s, oe) -> quiet w (w <| n_sim := s |>).
Proof.
  unfold RemoveNext. destruct (m_events (n_sim w)) as [|ev l] eqn:El; [done|].
  intros [= <- _]. split_and!; [done..|]. intros id e. unfold queued. cbn. rewrite El.
  by right.
Qed.

Lemma walk_step w w' : node_step w w' -> I w -> I w'.
Proof.
  intros Hs Hw. destruct Hs as [inPort packet w Hp|w|ts uid n w Ht Hf].
  - by eapply I_quiet; [apply quiet_onReceiveRawPacket|].
  - unfold ProcessOneEvent. rewrite run_gets.
    destruct (RemoveNext (view w)) as [[s [ev|]]|] eqn:E; rewrite ?run_modify; [|..|done].
    + apply walk_dispatch; [by eapply I_quiet; [eapply quiet_RemoveNext|]|].
      destruct (RemoveNext_queued _ _ _ E) as (id & Hq & _). exists w, id.
      split_and!; [done|by eapply quiet_RemoveNext|done].
    + by eapply I_quiet; [eapply quiet_RemoveNext|].
  - revert Hw. apply I_quiet. by split_and!.
Qed.

Lemma walk_run w w' : rtc node_step w w' -> I w -> I w'.
Proof. induction 1; eauto using walk_step. Qed.
End walk.

(** ** The route controller only takes steps of its machine *)
Definition route_steps : relation node := fun w w' => lrc_wf (lrc w) -> lrc_steps (lrc w) (lrc w').

#[local] Instance route_steps_preorder : PreOrder route_steps.
Proof.
  split; [intros w _; apply rtc_refl|]. intros w1 w2 w3 H1 H2 Hw. specialize (H1 Hw).
  etrans; [exact H1|]. apply H2. by eapply lrc_wf_steps.
Qed.

Lemma route_steps_same w w' : lrc w' = lrc w -> route_steps w w'.
Proof. unfold route_steps. intros -> _. apply rtc_refl. Qed.

Definition route_ok (s0 : LocalRouteController) w : Prop :=
  lrc_wf (lrc w) /\ lrc_steps s0 (lrc w).

Lemma route_ok_steps s0 w w' : route_steps w w' -> route_ok s0 w -> route_ok s0 w'.
Proof.
  intros H [Hwf Hs]. specialize (H Hwf). split; [by eapply lrc_wf_steps|by etrans].
Qed.

Lemma on_sync_ack_steps m : steps_only (on_sync_ack (R := R) (RW := RW) (SR := SR) m).
Proof.
  apply steps_only_bind; [|intros; apply steps_only_ret]. by apply handleControlResponse_steps.
Qed.

Lemma central_same (f : FlowTableController R -> FlowTableController R) w :
  guard_kept f -> route_steps w (over f w).
Proof. intros _. by apply route_steps_same. Qed.

Lemma on_sync_request_steps m : steps_only (on_sync_request (R := R) (RW := RW) (SR := SR) m).
Proof.
  apply (frame_submitFlowUpdate route_steps (fun _ => True)); [done|apply central_same|..|done].
  - intros w. by apply route_steps_same.
  - intros d e m' w _ _. by apply route_steps_same.
  - intros cb [= <-] m' _. apply on_sync_ack_steps.
Qed.

Lemma ftc_event_steps e :
  steps_only (ftc_event (Some onFlowTableFlowMod)
    (Some (on_sync_ack (R := R) (RW := RW) (SR := SR))) e).
Proof.
  assert (exists m, e ∈ [AcceptControl m; AttemptFlowMod m; DeliverSyncAck m]) as [m He].
  { destruct e as [m|m|m]; exists m; rewrite !elem_of_cons; auto. }
  apply (frame_ftc_event route_steps (fun _ => True)) with (m := m);
    [done|apply central_same|..|exact He|done].
  - intros w. by apply route_steps_same.
  - intros d e' m' w _ _. by apply route_steps_same.
  - intros cb [= <-] m' _ w. apply route_steps_same. apply quiet_onFlowTableFlowMod.
  - intros cb [= <-] m' _. apply on_sync_ack_steps.
Qed.

Lemma sf_applyTraceUpdate_steps prefix port seq ttl :
  steps_only (sf_applyTraceUpdate request prefix port seq ttl).
Proof.
  apply steps_only_bind.
  - apply applyTraceUpdate_steps. intros f [= <-] m. apply on_sync_request_steps.
  - intros []; (apply steps_only_bind; [|intros; apply steps_only_ret]).
    + intros w. by apply route_steps_same.
    + apply steps_only_ret.
Qed.

Lemma run_event_steps e : steps_only (run_event request e).
Proof.
  destruct e; [apply expireEntryBySeq_steps|apply onControllerRetryTimeout_steps].
  intros f [= <-] m. apply on_sync_request_steps.
Qed.

Lemma node_route_ok s0 w w' : rtc node_step w w' -> route_ok s0 w -> route_ok s0 w'.
Proof.
  apply walk_run.
  - intros w1 w2 (Hl & _). by apply route_ok_steps, route_steps_same.
  - intros t name w1. apply route_ok_steps. intros Hwf. rewrite view_over. by apply lookup_prunes.
  - intros prefix port seq ttl w1. apply route_ok_steps. exact (sf_applyTraceUpdate_steps _ _ _ _ w1).
  - intros e w1. apply route_ok_steps. exact (run_event_steps _ w1).
  - intros e w1 H1 _. revert H1. apply route_ok_steps. exact (ftc_event_steps _ w1).
Qed.

(** ** The switch-side controller keeps its order of generations *)
Definition central_ok (w0 w : node) : Prop := ftc_inv w /\ later (ftc w0) (ftc w).

Lemma central_ok_orderly w0 {A} (m : M node A) : orderly m -> preserves (central_ok w0) m.
Proof. intros Hm w [H1 H2]. destruct (Hm w H1). split; [done|by etrans]. Qed.

Lemma central_ok_quiet w0 w w' : quiet w w' -> central_ok w0 w -> central_ok w0 w'.
Proof.
  intros (_ & Hf & Hq) [[H1 H2] H3]. split; [|by rewrite Hf]. split; rewrite Hf; [done|].
  intros id m Hp. apply (H2 id m), Hq, Hp.
Qed.

Lemma central_ok_route w0 (f : LocalRouteController -> LocalRouteController) w :
  central_ok w0 w -> central_ok w0 (over (W := node) f w).
Proof. intros [[H1 H2] H3]. split; [by split|done]. Qed.

Lemma central_ok_route_schedule w0 d (e : LrcEvent) w :
  central_ok w0 w -> central_ok w0 (sim_schedule d e w).1.
Proof.
  intros [[H1 H2] H3]. split; [split; [done|]|done]. intros id m Hp.
  apply queued_Schedule in Hp as [[_ E]|Hp]; [done|exact (H2 id m Hp)].
Qed.

Lemma central_ok_route_cancel w0 id w :
  central_ok w0 w -> central_ok w0 (sim_cancel (E := LrcEvent) id w).
Proof.
  intros [[H1 H2] H3]. split; [split; [done|]|done]. intros id' m Hp.
  apply queued_Cancel in Hp. exact (H2 id' m Hp).
Qed.

(** No message is singled out here. *)
Lemma requests_any s : requests_ok (fun _ => True) s.
Proof. done. Qed.

Lemma on_sync_ack_orderly m : orderly (on_sync_ack (R := R) (RW := RW) (SR := SR) m).
Proof.
  apply orderly_bind; [|intros; apply orderly_ret]. intros w Hw.
  apply (inv_handleControlResponse (central_ok w) (fun _ => True)); [done|..].
  - intros f w' H _. by apply central_ok_route.
  - intros id w'. apply central_ok_route_cancel.
  - done.
  - split; [done|reflexivity].
Qed.

Lemma on_sync_request_orderly m : orderly (on_sync_request (R := R) (RW := RW) (SR := SR) m).
Proof. apply submitFlowUpdate_orderly. intros cb [= <-] m'. apply on_sync_ack_orderly. Qed.

Lemma sf_applyTraceUpdate_central w0 prefix port seq ttl :
  preserves (central_ok w0) (sf_applyTraceUpdate request prefix port seq ttl).
Proof.
  apply preserves_bind.
  - apply (inv_applyTraceUpdate (central_ok w0) (fun _ => True)); [done|..|done].
    + intros f w H _. by apply central_ok_route.
    + intros d e w. apply central_ok_route_schedule.
    + intros id w. apply central_ok_route_cancel.
    + intros cb [= <-] m _. apply central_ok_orderly, on_sync_request_orderly.
  - intros []; (apply preserves_bind; [|intros _; apply preserves_ret]); [|apply preserves_ret].
    intros w [[H1 H2] H3]. split; [by split|done].
Qed.

Lemma run_event_central w0 e : preserves (central_ok w0) (run_event request e).
Proof.
  apply (inv_run_event (central_ok w0) (fun _ => True)); [done|..].
  - intros f w H _. by apply central_ok_route.
  - intros d e' w. apply central_ok_route_schedule.
  - intros id w. apply central_ok_route_cancel.
  - intros cb [= <-] m _. apply central_ok_orderly, on_sync_request_orderly.
Qed.

Lemma onFlowTableFlowMod_steady m :
  steady (onFlowTableFlowMod (R := R) (RW := RW) (SR := SR) m).
Proof.
  intros w Hw. pose proof (quiet_onFlowTableFlowMod m w) as Hq. split.
  - apply (central_ok_quiet w w _ Hq). split; [done|reflexivity].
  - destruct Hq as (_ & -> & _). done.
Qed.

Lemma node_central_ok w0 w w' : rtc node_step w w' -> central_ok w0 w -> central_ok w0 w'.
Proof.
  apply walk_run.
  - intros w1 w2. apply central_ok_quiet.
  - intros t name w1. apply central_ok_route.
  - apply sf_applyTraceUpdate_central.
  - apply run_event_central.
  - intros e w1 [Hi Hl] (w2 & id & [[_ Hq] _] & (_ & Hf & _) & Hin).
    destruct (ftc_event_orderly (Some (onFlowTableFlowMod (RW := RW) (SR := SR)))
      (Some on_sync_ack)) with e w1 as [H1 H2]; [|by intros cb [= <-] m; apply on_sync_ack_orderly|done|..].
    + intros cb [= <-] m. apply onFlowTableFlowMod_steady.
    + intros m ->. rewrite Hf. exact (Hq id m Hin).
    + split; [done|by etrans].
Qed.

(** The switch of the generation guard stays where it is. *)
Definition guarded w : bool := ftc_generationGuardEnabled (ftc w).
Abbreviation same_guard := (agree_on guarded).

Lemma same_guard_upd (f : FlowTableController R -> FlowTableController R) w :
  guard_kept f -> same_guard w (over f w).
Proof. intros Hf. unfold agree_on, guarded. by rewrite view_over. Qed.

Lemma same_guard_ack m : respects same_guard (on_sync_ack (R := R) (RW := RW) (SR := SR) m).
Proof.
  apply respects_bind; [apply _| |intros _; apply respects_ret, _]. intros w.
  by apply (inv_handleControlResponse (fun w' => guarded w' = guarded w) (fun _ => True)).
Qed.

Lemma same_guard_request m : respects same_guard (on_sync_request (R := R) (RW := RW) (SR := SR) m).
Proof.
  apply (frame_submitFlowUpdate same_guard (fun _ => True)); [done|apply same_guard_upd|done|done| |done].
  intros cb [= <-] m' _. apply same_guard_ack.
Qed.

Lemma same_guard_ftc_event e : respects same_guard
  (ftc_event (Some onFlowTableFlowMod) (Some (on_sync_ack (R := R) (RW := RW) (SR := SR))) e).
Proof.
  assert (exists m, e ∈ [AcceptControl m; AttemptFlowMod m; DeliverSyncAck m]) as [m He].
  { destruct e as [m|m|m]; exists m; rewrite !elem_of_cons; auto. }
  apply (frame_ftc_event same_guard (fun _ => True)) with (m := m);
    [done|apply same_guard_upd|done|done| | |exact He|done].
  - intros cb [= <-] m' _ w. unfold agree_on, guarded. by destruct (quiet_onFlowTableFlowMod m' w) as (_ & -> & _).
  - intros cb [= <-] m' _. apply same_guard_ack.
Qed.

Lemma node_guarded g w w' : rtc node_step w w' -> guarded w = g -> guarded w' = g.
Proof.
  apply (walk_run (fun w => guarded w = g)).
  - intros w1 w2 (_ & Hf & _). unfold guarded. by rewrite Hf.
  - done.
  - intros prefix port seq ttl. apply preserves_bind.
    + apply (inv_applyTraceUpdate (fun w => guarded w = g) (fun _ => True)); [done..| |done].
      intros cb [= <-] m _ w1 <-. apply same_guard_request.
    + intros []; (apply preserves_bind; [by intros w1|intros _; apply preserves_ret]).
  - intros e. apply (inv_run_event (fun w => guarded w = g) (fun _ => True)); [done..|].
    intros cb [= <-] m _ w1 <-. apply same_guard_request.
  - intros e w1 <- _. apply same_guard_ftc_event.
Qed.

(** ** The wire buffers of Interests

    A buffer keeps its octets, but for a nonce of four octets, which a resending may have
    overwritten with four others. *)
Definition buffer w (b : Z) : list byte := default [] (n_wires w !! b).

Definition nonce_renewed (o o' : list byte) : Prop :=
  o' = o \/ (length o = 4%nat /\ length o' = 4%nat).

Definition wires_kept : relation node := fun w w' =>
  n_nextWire w <= n_nextWire w' /\
  forall b, b < n_nextWire w -> nonce_renewed (buffer w b) (buffer w' b).

#[export] Instance wires_kept_preorder : PreOrder wires_kept.
Proof.
  split; [intros w; by split; [|left]|]. intros w1 w2 w3 [H1 K1] [H2 K2]. split; [lia|].
  intros b Hb. unfold nonce_renewed. destruct (K1 b Hb) as [E1|[E1 E1']];
    (destruct (K2 b ltac:(lia)) as [E2|[E2 E2']]; [rewrite E2|]); try rewrite E1 in *; auto.
Qed.

Lemma wires_same w w' : n_wires w' = n_wires w -> n_nextWire w' = n_nextWire w -> wires_kept w w'.
Proof. intros H1 H2. split; [by rewrite H2|]. intros b _. left. unfold buffer. by rewrite H1. Qed.

Definition wires w := (n_wires w, n_nextWire w).

Lemma wires_agree w w' : agree_on wires w w' -> wires_kept w w'.
Proof. intros [= H1 H2]. by apply wires_same. Qed.

Lemma same_wires_ack m : respects (agree_on wires) (on_sync_ack (R := R) (RW := RW) (SR := SR) m).
Proof.
  apply respects_bind; [apply _| |intros _; apply respects_ret, _]. intros w.
  by apply (inv_handleControlResponse (fun w' => wires w' = wires w) (fun _ => True)).
Qed.

Lemma same_wires_request m :
  respects (agree_on wires) (on_sync_request (R := R) (RW := RW) (SR := SR) m).
Proof.
  apply (frame_submitFlowUpdate (agree_on wires) (fun _ => True)); try done.
  intros cb [= <-] m' _. apply same_wires_ack.
Qed.

Lemma same_wires_FlowMod m :
  respects (agree_on wires) (onFlowTableFlowMod (R := R) (RW := RW) (SR := SR) m).
Proof.
  unfold onFlowTableFlowMod, fe_now, fe_get, fe_count, fe_upd. respects; try (by intros w).
  intros w. unfold zoom. by destruct (installFibEntry _ _ _ _).
Qed.

Lemma same_wires_ftc_event e : respects (agree_on wires)
  (ftc_event (Some onFlowTableFlowMod) (Some (on_sync_ack (R := R) (RW := RW) (SR := SR))) e).
Proof.
  assert (exists m, e ∈ [AcceptControl m; AttemptFlowMod m; DeliverSyncAck m]) as [m He].
  { destruct e as [m|m|m]; exists m; rewrite !elem_of_cons; auto. }
  apply (frame_ftc_event (agree_on wires) (fun _ => True)) with (m := m); try done.
  - intros cb [= <-] m' _. apply same_wires_FlowMod.
  - intros cb [= <-] m' _. apply same_wires_ack.
Qed.

Lemma same_wires_run_event e : respects (agree_on wires) (run_event request e).
Proof.
  intros w. apply (inv_run_event (fun w' => wires w' = wires w) (fun _ => True)); try done.
  intros cb [= <-] m _ w1 <-. apply same_wires_request.
Qed.

Lemma same_wires_sf prefix port seq ttl :
  respects (agree_on wires) (sf_applyTraceUpdate request prefix port seq ttl).
Proof.
  unfold sf_applyTraceUpdate. respects; [|by intros w]. intros w.
  apply (inv_applyTraceUpdate (fun w' => wires w' = wires w) (fun _ => True)); try done.
  intros cb [= <-] m _ w1 <-. apply same_wires_request.
Qed.

Lemma kept_wires {A} (m : M node A) : respects (agree_on wires) m -> respects wires_kept m.
Proof. intros H w. apply wires_agree, H. Qed.

Lemma wires_refresh i : respects wires_kept (refresh (R := R) (RW := RW) (SR := SR) nonce_fuel i).
Proof.
  intros w. unfold refresh, refreshNonce.
  destruct (nonce_octets (n_wires w) i) as [o|]; [|by apply wires_same].
  destruct (getNonce o) as [ex|old]; [by apply wires_same|]. cbn [mbind result_bind].
  destruct (fresh_word nonce_fuel old (n_words w)) as [[r new]|]; [|by apply wires_same].
  unfold setNonce. destruct (i_nonce i) as [| |b]; [by apply wires_same..|].
  destruct (decide _) as [Hl|]; [|by apply wires_same]. split; [done|]. intros b' _. unfold buffer. cbn.
  destruct (decide (b' = b)) as [->|Hne]; [|left; by rewrite lookup_insert_ne].
  right. split; [done|]. rewrite lookup_insert_eq. apply length_nonce_memory.
Qed.

Lemma wires_make_interest v : respects wires_kept (make_interest (R := R) (RW := RW) (SR := SR) v).
Proof.
  intros w. unfold make_interest, wireDecode. split; cbn; [lia|]. intros b Hb. left. unfold buffer. cbn.
  rewrite lookup_insert_ne; [done|]. lia.
Qed.

Lemma wires_zoom_switch {A} (m : M SwitchPipeline A) : respects wires_kept (zoom (W := node) m).
Proof. intros w. unfold zoom. destruct (m (view w)). by apply wires_same. Qed.

Lemma wires_send p h b : respects wires_kept (sendToPort (R := R) (RW := RW) (SR := SR) p h b).
Proof.
  intros w. unfold sendToPort, fe_get. rewrite run_gets.
  destruct (getDevice p (m_portTable (n_engine w))); by apply wires_same.
Qed.

Lemma wires_sf prefix port seq ttl :
  respects wires_kept (sf_applyTraceUpdate request prefix port seq ttl).
Proof. apply kept_wires, same_wires_sf. Qed.

Hint Resolve wires_refresh wires_make_interest wires_zoom_switch wires_send wires_sf : respects.
Ltac wires_leaf := intros ?; by apply wires_same.

Lemma wires_processStatefulInterest inPort i h :
  respects wires_kept (processStatefulInterest (R := R) (RW := RW) (SR := SR) inPort i h).
Proof.
  unfold processStatefulInterest, fe_get, fe_now, sendDataToPort, fe_count, fe_upd, fe_schedule. respects; wires_leaf.
Qed.
Hint Resolve wires_processStatefulInterest : respects.

Lemma wires_onReceiveRawPacket inPort packet :
  respects wires_kept (onReceiveRawPacket (R := R) (RW := RW) (SR := SR) inPort packet).
Proof.
  assert (forall m h : M node unit, respects wires_kept m -> respects wires_kept h ->
    respects wires_kept (catch_tlv m h)) as Hcatch.
  { intros m h Hm Hh w. unfold catch_tlv. specialize (Hm w).
    destruct (m w) as [w' [[]|[]]]; try done. etrans; [exact Hm|apply Hh]. }
  unfold onReceiveRawPacket, fe_now, processStatefulData, fe_count, fe_get, fe_upd, fe_schedule.
  destruct (Deserialize packet) as [h n]. respects; try wires_leaf. apply Hcatch; respects; wires_leaf.
Qed.

Lemma wires_dispatch ev : respects wires_kept (fe_dispatch (R := R) (RW := RW) (SR := SR) nonce_fuel ev).
Proof.
  destruct ev as [e|e|p i h|p d h|i p]; cbn [fe_dispatch].
  - apply kept_wires, same_wires_run_event.
  - apply kept_wires, same_wires_ftc_event.
  - unfold processInterestAfterDelay, forward_interest, note_steering, sendInterestToPort, fe_now, fe_get, fe_count, fe_upd.
    respects; wires_leaf.
  - unfold processDataAfterDelay, handleTraceData, pullPendingInterests, sendDataToPort,
      fe_now, fe_get, fe_count, fe_upd, fe_schedule.
    respects; try wires_leaf.
    intros w. destruct (ContentStore.insert d (m_cs (n_engine w)) (n_rand w)). by apply wires_same.
  - unfold doDelayedPullSend, sendInterestToPort, fe_count, fe_upd. respects; wires_leaf.
Qed.

Lemma wires_step w w' : node_step w w' -> wires_kept w w'.
Proof.
  destruct 1 as [inPort packet w Hp|w|ts uid n w Ht Hf].
  - apply wires_onReceiveRawPacket.
  - unfold ProcessOneEvent. rewrite run_gets.
    destruct (RemoveNext (view w)) as [[s [ev|]]|] eqn:E; rewrite ?run_modify; [|by apply wires_same|done].
    etrans; [|apply wires_dispatch]. by apply wires_same.
  - by apply wires_same.
Qed.

Lemma wires_run w w' : rtc node_step w w' -> wires_kept w w'.
Proof. induction 1 as [|w1 w2 w3 H _ IH]; [done|]. etrans; [by apply wires_step|done]. Qed.

Lemma node_inv_step w w' : node_step w w' -> node_inv w -> node_inv w'.
Proof.
  intros Hs Hw. destruct Hs as [inPort packet w Hp|w|ts uid n w Ht Hf].
  - by apply inv_onReceiveRawPacket.
  - unfold ProcessOneEvent. rewrite run_gets.
    assert (forall s oe, RemoveNext (n_sim w) = Some (s, oe) ->
      node_inv (w <| n_sim := s |>) /\ forall ev, oe = Some ev -> event_ok ev) as Hr.
    { intros s oe E. destruct Hw as [H1 H2 H3 H4 H5 H6]. split.
      - split; [done| |done..]. intros id ev Hq. apply (H2 id). revert E Hq. unfold RemoveNext, queued.
        destruct (m_events (n_sim w)) as [|x l]; [done|]. intros [= <- _]. cbn. by right.
      - intros ev ->. destruct (RemoveNext_queued _ _ _ E) as (id & Hq & _). by eapply H2. }
    destruct (RemoveNext (view w)) as [[s [ev|]]|] eqn:E; rewrite ?run_modify; [|..|done].
    + destruct (Hr _ _ E) as [H1 H2]. apply inv_dispatch; [by apply H2|done].
    + by destruct (Hr _ _ E).
  - destruct Hw as [H1 H2 H3 H4 H5 H6]. by split.
Qed.

Lemma node_inv_run w w' : rtc node_step w w' -> node_inv w -> node_inv w'.
Proof. induction 1; eauto using node_inv_step. Qed.

(** A consistent node: its tables and the messages in flight, the route controller,
    and, if the generation guard is on, the switch-side controller. *)
Record node_ok w : Prop := {
  no_tables : node_inv w;
  no_route : lrc_wf (lrc w) /\ held_noted (lrc w);
  no_central : guarded w = true -> ftc_inv w
}.

Lemma held_noted_steps s s' : lrc_steps s s' -> held_noted s -> held_noted s'.
Proof. induction 1; eauto using held_noted_step. Qed.
End node.

(** ** A node that has just been built *)
Section boot.
Context {R RW SR : Type} {US : UniformStreams R}.
Context {SH : StringHash} {SS : StdSort} {SSL : StdSortLaws}.

(** The engine's constructor leaves the guard off; [statim-helper.cpp] sets it to its
    own flag, which is off unless a scenario turns it on. *)
Definition node_new (guard : bool) (words : RW) (rand : SR) : Node R RW SR :=
  mkNode sim_init (fe_setGenerationGuardEnabled guard (ForwardingEngine_new 0)) 1 words rand [] ∅ 0.

Lemma node_new_ok guard words rand : node_ok (node_new guard words rand).
Proof.
  split.
  - split.
    + intros p r Hr. cbn in Hr. by rewrite lookup_empty in Hr.
    + intros id ev Hq. by apply elem_of_nil in Hq.
    + exists ∅. split; [|intros key [x Hx]; by rewrite lookup_empty in Hx].
      destruct (initPipeline_refines_aux switch_new) as (s & E & H); [done|].
      change (view (node_new guard words rand)) with (initPipeline switch_new).1. by rewrite E.
    + apply pit_wf_empty.
    + split; cbn; [done|]. unfold cs_size. by rewrite map_size_empty.
    + apply wires_ok_empty.
  - split; [destruct lrc_wf_new; by split|]. intros _ p q Hq. cbn in Hq. by rewrite lookup_empty in Hq.
  - intros Hg. split.
    + split; [exact Hg|]. intros p st Hp. cbn in Hp. by rewrite lookup_empty in Hp.
    + intros id m Hq. by apply elem_of_nil in Hq.
Qed.
End boot.

(** ** Properties *)

(** C2: whatever packets arrive, in whatever order the queued events run and
    however long the rest of the network keeps the clock, a consistent node stays
    consistent, with the generation guard on or off: its tables, the messages in
    flight, the route controller's generations, leases and timers, and with the guard
    on the switch-side controller.  Between any two of its states the route controller
    has only taken steps of its machine, the guard has not been switched, and if it is
    on no accepted or applied generation has fallen.  A node that has just been
    built, with either setting, is consistent. *)
Theorem node_consistent {R RW SR} {US : UniformStreams R} {RWi : RandomWord RW} {SRi : StdRand SR}
    {SH : StringHash} {SS : StdSort} {SSL : StdSortLaws} nonce_fuel :
  (forall guard (words : RW) (rand : SR), node_ok (R := R) (node_new guard words rand)) /\
  forall w0 w : Node R RW SR, node_ok w0 -> rtc (node_step nonce_fuel) w0 w ->
    node_ok w /\
    lrc_steps (view w0) (view w) /\
    guarded w = guarded w0 /\
    (guarded w0 = true -> later (R := R) (view w0) (view w)).
Proof.
  split; [apply node_new_ok|]. intros w0 w [Ht [Hr Hn] Hc] Hs.
  destruct (node_route_ok nonce_fuel (view w0) w0 w Hs) as [Hwf Hsteps]; [by split|].
  pose proof (node_guarded nonce_fuel _ w0 w Hs eq_refl) as Hg.
  assert (guarded w0 = true -> central_ok w0 w) as Hcentral.
  { intros G. apply (node_central_ok nonce_fuel w0 w0 w Hs). split; [by apply Hc|done]. }
  split; [|split_and!; [done|done|by intros [_ H]%Hcentral]].
  split; [|split; [done|by eapply held_noted_steps]|rewrite Hg; by intros [H _]%Hcentral].
  by eapply node_inv_run.
Qed.

(** A small node to run the examples with: counters for the generators and three
    devices. *)
Definition demo_streams : UniformStreams Z := {|
  uv_create := fun n => n;
  uv_SetStream := fun n _ => n;
  uv_GetValue := fun _ _ r => (r + 1, S754_zero false)
|}.

Definition demo_leaf : Name := [component_of_string "a"; component_of_string "x"].

(** An Interest for [/a/x] with nonce 7, and a Data of that name with the content [hi],
    as they are sent. *)
Definition demo_interest_octets : list byte :=
  [Byte.x05; Byte.x0e; Byte.x07; Byte.x06; Byte.x08; Byte.x01; Byte.x61; Byte.x08; Byte.x01; Byte.x78;
   Byte.x0a; Byte.x04; Byte.x07; Byte.x00; Byte.x00; Byte.x00].
Definition demo_data_octets : list byte :=
  [Byte.x06; Byte.x16; Byte.x07; Byte.x06; Byte.x08; Byte.x01; Byte.x61; Byte.x08; Byte.x01; Byte.x78;
   Byte.x14; Byte.x00; Byte.x15; Byte.x02; Byte.x68; Byte.x69; Byte.x16; Byte.x03; Byte.x1b; Byte.x01;
   Byte.xff; Byte.x17; Byte.x01; Byte.x00].

(** The Interest as it is decoded: nothing but a name, a nonce and the default lifetime. *)
Definition demo_rest : InterestRest :=
  mkInterestRest Selectors_new element_none INVALID_SELECTED_DELEGATION_INDEX
    (take 12 demo_interest_octets) [].

Example demo_decoded :
  decode_block demo_interest_octets
    = inr (BInterest (mkInterestWire demo_leaf (nonce_memory 7) 4000 demo_rest)) /\
  decode_block demo_data_octets
    = inr (BData (mkData demo_leaf [Byte.x68; Byte.x69] demo_data_octets None)).
Proof. split; vm_compute; reflexivity. Qed.

#[local] Existing Instances demo_streams counter_words counter_rand sum_hash
  InsertionSort.insertion_sort InsertionSort.insertion_sort_laws.

Definition demo_node : Node Z Z Z :=
  node_new true 0 0
    <| n_engine ::= fun e => e <| m_portTable := addDevices [101; 102; 103] PortTable_new |> |>.

Lemma demo_node_ok : node_ok demo_node.
Proof.
  destruct (node_new_ok (R := Z) (RW := Z) (SR := Z) true 0 0) as [[H1 H2 H3 H4 H5 H6] Hr Hc].
  split; [|exact Hr|exact Hc]. split; [exact H1|exact H2|exact H3|exact H4|exact H5|exact H6].
Qed.

(** The Interest behind a Statim header. *)
Definition demo_frame : list byte := Serialize header_default ++ demo_interest_octets.

Lemma node_consistent_witness :
  node_ok (onReceiveRawPacket 1 demo_frame demo_node).1.
Proof.
  destruct (node_consistent (R := Z) (RW := Z) (SR := Z) 2) as [_ H].
  destruct (H demo_node (onReceiveRawPacket 1 demo_frame demo_node).1) as [Hok _].
  - exact demo_node_ok.
  - apply rtc_once. apply step_receive. split; [discriminate|reflexivity].
  - exact Hok.
Defined.
