(* ===== verification/ForwardingSpec.v ===== *)
(** * ForwardingSpec: what a node forwards where

    The frames a handler hands to the devices, its counters and its effect on
    the tables, as functions of the tables it found. *)
From Stdlib Require Import Floats.SpecFloat.
From S2P Require Import Prelude Tlv Encoder Block BlockSpec Names WireFormat PacketWireSpec Simulator SimTime PacketHeader FlowTable SwitchPipeline.
From S2P Require Import SwitchSpec PortTable NameMap Packets PendingInterestTable.
From S2P Require Import TemporaryForwardingTable ContentStore ControlMessage LocalRouteController.
From S2P Require Import FlowTableController StatefulForwarder ControllerFrames ForwardingEngine.
From S2P Require Import ForwardingEngineSpec NodeSpec.

(** The frames for [ports], in their order; a port without a device gets none. *)
Definition transmit (t : PortTable) (ports : list Z) (h : PacketHeader) (payload : list byte)
    : list Sent :=
  omap (fun p => (fun dev => mkSent dev h payload) <$> getDevice p t) ports.

(** The ports the 32-bit bitmap of a header can name. *)
Definition wired (ports : gset Z) : gset Z := filter (fun p => 1 <= p <= 32) ports.

Lemma wired_mask ports : decode_mask (encodeOutPortsMask ports) = wired ports.
Proof.
  apply leibniz_equiv, set_equiv. intros p. unfold wired.
  rewrite decode_encode_mask, elem_of_filter. tauto.
Qed.

(** The egress the flow-table FIB has for a name. *)
Definition fib_ports (now : Z) (routes : gmap (list Z) route) (hashes : list Z) : gset Z :=
  match lpm now routes hashes 4 with Some r => {[ r.1 ]} | None => ∅ end.

(** The second pass of an Interest: the bitmap if it names a port, else the FIB. *)
Definition interest_egress (now : Z) (routes : gmap (list Z) route) (hashes : list Z)
    (ports : gset Z) : gset Z :=
  if bool_decide (wired ports = ∅) then fib_ports now routes hashes else wired ports.

(** The egress a pipeline result stands for. *)
Definition egress (r : PipelineResult) : gset Z := if dropped r then ∅ else outputPorts r.

Lemma egress_empty r :
  dropped r || bool_decide (outputPorts r = ∅) = bool_decide (egress r = ∅).
Proof. unfold egress. by destruct (dropped r). Qed.

Lemma egress_ports r : bool_decide (egress r = ∅) = false -> outputPorts r = egress r.
Proof. unfold egress. by destruct (dropped r). Qed.

Lemma mask_zero ports : encodeOutPortsMask ports = 0 <-> wired ports = ∅.
Proof. rewrite <-wired_mask, decode_mask_empty; [done|apply encodeOutPortsMask_range]. Qed.

Lemma interest_pass2 now routes h ports :
  header_wf h -> m_type h = INTEREST -> m_outPorts h = encodeOutPortsMask ports ->
  egress (switch_process now routes (Serialize h))
    = interest_egress now routes (m_nameHashes h) ports.
Proof.
  intros Hwf Ht Hm. destruct (hdr_fields h Hwf) as (E1 & E2 & E3).
  unfold switch_process, dispatch. rewrite E1, E2, E3, Ht, Hm, wired_mask. cbn [Z.eqb INTEREST].
  unfold interest_egress, fib_ports. destruct (Z.eqb_spec (encodeOutPortsMask ports) 0) as [E|E].
  - rewrite bool_decide_true by (by apply mask_zero). cbn -[lpm]. by destruct (lpm now routes (m_nameHashes h) 4).
  - assert (wired ports <> ∅) as Hne by (intros H; by apply E, mask_zero).
    rewrite !bool_decide_false by done. done.
Qed.

Lemma data_pass2 now routes h ports :
  header_wf h -> m_type h = DATA -> m_outPorts h = encodeOutPortsMask ports ->
  egress (switch_process now routes (Serialize h)) = wired ports.
Proof.
  intros Hwf Ht Hm. destruct (hdr_fields h Hwf) as (E1 & E2 & E3).
  unfold switch_process, dispatch. rewrite E1, E2, Ht, Hm, wired_mask. cbn.
  case_bool_decide as Hw; [|done]. by rewrite Hw.
Qed.

Section forwarding.
Context {R RW SR : Type} {US : UniformStreams R} {RWi : RandomWord RW} {SRi : StdRand SR}.
Context {SH : StringHash} {SS : StdSort} {SSL : StdSortLaws}.
Abbreviation node := (Node R RW SR).
Abbreviation lrc w := (view (S := LocalRouteController) w).
Implicit Types (w : node).

(** What forwarding does not touch: the simulator, the device table, the PIT, the
    cache, the controllers and the flow tables. *)
Definition untouched w :=
  (n_sim w, m_portTable (n_engine w), m_pit (n_engine w), m_cs (n_engine w),
   lrc w, m_centralController (n_engine w), m_pipeline (view w), n_wires w).

Abbreviation same_tables := (agree_on untouched).

Lemma same_tables_wires w w' : same_tables w w' -> n_wires w' = n_wires w.
Proof. by intros [=]. Qed.

Lemma same_tables_ports w w' : same_tables w w' ->
  m_portTable (n_engine w') = m_portTable (n_engine w).
Proof. by intros [=]. Qed.

(** *** Primitives *)
Lemma sendToPort_run p h payload w :
  sendToPort p h payload w =
  (w <| n_sent ::= fun l => l ++ transmit (m_portTable (n_engine w)) [p] h payload |>, inr tt).
Proof.
  unfold sendToPort, fe_get, transmit. rewrite run_gets. cbn [omap list_omap].
  destruct (getDevice p (m_portTable (n_engine w))) as [dev|]; cbn; [done|].
  unfold set_field, set_n_sent. rewrite app_nil_r. by destruct w.
Qed.

Lemma note_steering_run b i w :
  exists w', note_steering b i w = (w', inr tt) /\ same_tables w w' /\
    n_sent w' = n_sent w /\ fe_counters (n_engine w') = fe_counters (n_engine w).
Proof.
  unfold note_steering, fe_get. rewrite run_gets.
  destruct (_ && _); [by eexists|]. destruct (_ && _); by eexists.
Qed.

(** One pass through the switch counts it and changes nothing else. *)
Definition passed w : node :=
  over (fun s : SwitchPipeline => s <| SwitchPipeline.m_counters ::= bump pipelineProcessed |>) w.

Lemma pass_run now h w routes :
  switch_refines (view w) routes -> routes_prefix_shaped routes -> header_wf h ->
  zoom (processPacket now h) w = (passed w, inr (switch_process now routes (Serialize h))).
Proof.
  intros Hr Hs Hwf. pose proof (processPacket_ok now _ _ _ Hr Hs Hwf) as Hp. unfold zoom.
  assert ((processPacket now h (view w)).1
    = view w <| SwitchPipeline.m_counters ::= bump pipelineProcessed |>) as Hk.
  { unfold processPacket, processPacket_buf. rewrite run_modify.
    by destruct (length (Serialize h) <? SERIALIZED_SIZE)%nat. }
  destruct (processPacket now h (view w)) as [s r]. cbn [fst snd] in Hp, Hk. by subst s r.
Qed.

Lemma pass2_run now h w routes :
  switch_refines (view w) routes -> routes_prefix_shaped routes -> header_wf h ->
  exists w', zoom (processPacket now h) w = (w', inr (switch_process now routes (Serialize h))) /\
    same_tables w w' /\ n_sent w' = n_sent w /\
    fe_counters (n_engine w') = fe_counters (n_engine w).
Proof. intros Hr Hs Hwf. exists (passed w). by rewrite (pass_run _ _ _ routes). Qed.

(** *** Sending to a list of ports *)
Lemma for_each_sends (l : list Z) (body : Z -> M node unit) (out : Z -> list Z) c h payload st :
  (forall p w, n_wires w = st -> exists w', body p w = (w', inr tt) /\ same_tables w w' /\
     n_sent w' = n_sent w ++ transmit (m_portTable (n_engine w)) (out p) h payload /\
     fe_counters (n_engine w') = Nat.iter (length (out p)) (bump c) (fe_counters (n_engine w))) ->
  forall w, n_wires w = st -> exists w', for_each l body w = (w', inr tt) /\ same_tables w w' /\
     n_sent w' = n_sent w ++ transmit (m_portTable (n_engine w)) (l ≫= out) h payload /\
     fe_counters (n_engine w')
       = Nat.iter (length (l ≫= out)) (bump c) (fe_counters (n_engine w)).
Proof.
  intros Hb. induction l as [|p l IH]; intros w Hst; cbn [for_each].
  { exists w. split_and!; try done. cbn. by rewrite app_nil_r. }
  destruct (Hb p w Hst) as (w1 & E1 & S1 & N1 & C1). rewrite (run_seq _ _ _ _ _ E1).
  assert (n_wires w1 = st) as Hst1 by (by rewrite (same_tables_wires _ _ S1)).
  destruct (IH w1 Hst1) as (w2 & E2 & S2 & N2 & C2). exists w2. split; [done|].
  split; [by etrans|]. rewrite bind_cons. split.
  - rewrite N2, N1, (same_tables_ports _ _ S1). unfold transmit. by rewrite omap_app, app_assoc.
  - rewrite C2, C1, length_app. by rewrite <-Nat.iter_add, Nat.add_comm.
Qed.

Lemma bind_filter (l : list Z) x :
  (l ≫= fun p => if p =? x then [] else [p]) = filter (fun p => p <> x) l.
Proof.
  induction l as [|p l IH]; [done|]. rewrite bind_cons, IH, filter_cons.
  destruct (Z.eqb_spec p x), (decide (p <> x)); naive_solver.
Qed.

(** The ports an Interest goes to: all of the egress but the one it came from. *)
Definition onward (inPort : Z) (ports : gset Z) : list Z :=
  filter (fun p => p <> inPort) (set_elements ports).

Definition interest_counters (temporary : bool) (n : nat) (cs : counters FeCounter)
    : counters FeCounter :=
  Nat.iter n (bump (if temporary then temporaryFibInterestTransmissions
                    else flowTableFibInterestTransmissions)) cs.

Definition miss_counters (cs : counters FeCounter) : counters FeCounter :=
  bump noRouteRejections (bump statimLookupMisses cs).

Lemma forward_interest_run inPort i b h ports routes w payload :
  wireEncode (n_wires w) i = inr payload -> switch_refines (view w) routes -> routes_prefix_shaped routes -> header_wf h ->
  m_type h = INTEREST -> m_outPorts h = encodeOutPortsMask ports ->
  let out := interest_egress (m_currentTs (n_sim w)) routes (m_nameHashes h) ports in
  exists w', forward_interest inPort i b h w = (w', inr tt) /\ same_tables w w' /\
    n_sent w' = n_sent w ++ transmit (m_portTable (n_engine w)) (onward inPort out)
                  (out_header (i_name i)) payload /\
    fe_counters (n_engine w') =
      (if bool_decide (out = ∅) then miss_counters (fe_counters (n_engine w))
       else interest_counters b (length (onward inPort out)) (fe_counters (n_engine w))).
Proof.
  intros Hpay Hr Hs Hwf Ht Hm out. unfold forward_interest, fe_now. rewrite run_gets.
  destruct (pass2_run (m_currentTs (n_sim w)) h w routes Hr Hs Hwf) as (w1 & E1 & S1 & N1 & C1).
  rewrite (run_seq _ _ _ _ _ E1). clear E1.
  pose proof (interest_pass2 (m_currentTs (n_sim w)) routes h ports Hwf Ht Hm) as Hout.
  fold out in Hout. set (r := switch_process _ _ _) in *. rewrite egress_empty, Hout.
  destruct (bool_decide (out = ∅)) eqn:Hb.
  - eexists. split; [reflexivity|]. apply bool_decide_eq_true in Hb. split_and!; [done| |].
    + rewrite Hb. change (onward inPort ∅) with (@nil Z). rewrite app_nil_r. exact N1.
    + unfold miss_counters. by rewrite <-C1.
  - rewrite egress_ports, Hout by (by rewrite Hout).
    destruct (for_each_sends (set_elements out) (fun port =>
      if port =? inPort then mret tt
      else
        note_steering b i;;
        fe_count (if b : bool then temporaryFibInterestTransmissions
                  else flowTableFibInterestTransmissions);;
        sendInterestToPort port i) (fun p => if p =? inPort then [] else [p])
      (if b then temporaryFibInterestTransmissions else flowTableFibInterestTransmissions)
      (out_header (i_name i)) payload (n_wires w)) with w1
      as (w2 & E2 & S2 & N2 & C2); [|by apply same_tables_wires|].
    { intros p w2 Hst. destruct (p =? inPort).
      { exists w2. split_and!; try done. cbn. by rewrite app_nil_r. }
      destruct (note_steering_run b i w2) as (w3 & E3 & S3 & N3 & C3).
      rewrite (run_seq _ _ _ _ _ E3). unfold fe_count, fe_upd. rewrite run_modify.
      unfold sendInterestToPort. rewrite run_gets.
      change (n_wires (over ?f w3)) with (n_wires w3).
      rewrite (same_tables_wires _ _ S3), Hst, Hpay, run_lift_inr, sendToPort_run. eexists. split; [reflexivity|].
      split_and!; [etrans; [exact S3|done]| |].
      - cbn [length]. rewrite <-N3, <-(same_tables_ports _ _ S3). done.
      - cbn [length Nat.iter]. by rewrite <-C3. }
    rewrite E2. rewrite bind_filter in N2, C2. exists w2. split; [done|].
    split; [by etrans|]. rewrite N2, C2, N1, C1, (same_tables_ports _ _ S1). done.
Qed.

(** The temporary hops of a name, when the temporary FIB is enabled. *)
Definition temporary_hops w (name : Name) : option ForwardingEntry :=
  if m_enableTemporaryFib (n_engine w)
  then (findLongestPrefix (m_currentTs (n_sim w)) name (m_temporaryFib (lrc w))).2 else None.

(** The world after the lookup, which drops expired hops. *)
Definition looked_up (name : Name) w : node :=
  over (fun c : LocalRouteController => c <| m_temporaryFib ::= fun fib =>
    (findLongestPrefix (m_currentTs (n_sim w)) name fib).1 |>) w.

Lemma set_ports_wf ports h :
  header_wf h -> header_wf (setOutPorts (encodeOutPortsMask ports) (setType INTEREST h)).
Proof. intros Hh. apply setters_wf; [by apply setters_wf|apply encodeOutPortsMask_range]. Qed.

Lemma processInterestAfterDelay_run inPort i h w :
  processInterestAfterDelay inPort i h w =
  forward_interest inPort i (bool_decide (is_Some (temporary_hops w (i_name i))))
    (setOutPorts (encodeOutPortsMask (default ∅ (dom <$> temporary_hops w (i_name i))))
       (setType INTEREST h)) (looked_up (i_name i) w).
Proof.
  unfold processInterestAfterDelay, fe_now, fe_get, temporary_hops, looked_up. rewrite !run_gets.
  set (t := m_currentTs (n_sim w)).
  set (fib0 := m_temporaryFib (m_temporaryController (m_statefulModule (n_engine w)))).
  change (m_temporaryFib (lrc w)) with fib0. unfold over, set_field, set_m_temporaryFib.
  change (m_temporaryFib (view w)) with fib0.
  pose proof (proj2 (find_first_live t (prefixes (i_name i)) fib0)) as Hne.
  fold (findLongestPrefix t (i_name i) fib0) in Hne.
  destruct (findLongestPrefix t (i_name i) fib0) as [fib [hops|]]; rewrite run_modify;
    cbn [fst snd] in *; destruct (m_enableTemporaryFib (n_engine w)); try done.
  destruct Hne as (l1 & p & l2 & _ & -> & Hne & _). rewrite bool_decide_false; [done|].
  intros Hd. by apply dom_empty_inv_L in Hd.
Qed.

(** *** Trace Data send nothing themselves *)
Definition outbox w := (n_sent w, m_portTable (n_engine w)).
Abbreviation same_outbox := (agree_on outbox).

Lemma outbox_on_sync_ack m : respects same_outbox (on_sync_ack (R := R) (RW := RW) (SR := SR) m).
Proof.
  apply respects_bind; [apply _| |intros _; apply respects_ret, _]. intros w.
  by apply (inv_handleControlResponse (fun w' => outbox w' = outbox w) (fun _ => True)).
Qed.

Lemma outbox_on_sync_request m :
  respects same_outbox (on_sync_request (R := R) (RW := RW) (SR := SR) m).
Proof.
  apply (frame_submitFlowUpdate same_outbox (fun _ => True)); try done.
  intros cb [= <-] m' _. apply outbox_on_sync_ack.
Qed.

Lemma outbox_sf_applyTraceUpdate prefix port seq ttl : respects same_outbox
  (sf_applyTraceUpdate (Some (on_sync_request (R := R) (RW := RW) (SR := SR))) prefix port seq ttl).
Proof.
  unfold sf_applyTraceUpdate. respects; [|by intros w]. intros w.
  apply (inv_applyTraceUpdate (fun w' => outbox w' = outbox w) (fun _ => True)); try done.
  intros cb [= <-] m' _ w' <-. apply outbox_on_sync_request.
Qed.

Context (nonce_fuel : nat).

Lemma outbox_refresh i :
  respects same_outbox (refresh (R := R) (RW := RW) (SR := SR) nonce_fuel i).
Proof. intros w. unfold refresh. by destruct (refreshNonce _ _ _ _) as [ex|[[r wires] i']]. Qed.

Hint Resolve outbox_refresh outbox_sf_applyTraceUpdate : respects.

Lemma outbox_handleTraceData inPort d ports lifetime : respects same_outbox
  (handleTraceData (R := R) (RW := RW) (SR := SR) nonce_fuel inPort d ports lifetime).
Proof.
  unfold handleTraceData, pullPendingInterests, fe_get, fe_count, fe_upd, fe_schedule.
  respects; by intros w.
Qed.

(** *** Data *)
Lemma send_all_data ports h d routes now w :
  switch_refines (view w) routes -> routes_prefix_shaped routes -> header_wf h ->
  m_type h = DATA -> m_outPorts h = encodeOutPortsMask ports ->
  exists w',
    (pass2 ← zoom (processPacket now h);
     if dropped pass2 || bool_decide (outputPorts pass2 = ∅) then mret tt
     else for_each (set_elements (outputPorts pass2)) (fun port => sendDataToPort port d)) w
      = (w', inr tt) /\ same_tables w w' /\
    n_sent w' = n_sent w ++ transmit (m_portTable (n_engine w)) (set_elements (wired ports))
                  (data_header d) (d_wire d) /\
    fe_counters (n_engine w') = fe_counters (n_engine w).
Proof.
  intros Hr Hs Hwf Ht Hm.
  destruct (pass2_run now h w routes Hr Hs Hwf) as (w1 & E1 & S1 & N1 & C1).
  rewrite (run_seq _ _ _ _ _ E1). clear E1.
  pose proof (data_pass2 now routes h ports Hwf Ht Hm) as Hout.
  set (r := switch_process _ _ _) in *. rewrite egress_empty, Hout.
  destruct (bool_decide (wired ports = ∅)) eqn:Hb.
  - exists w1. split; [done|]. apply bool_decide_eq_true in Hb. split_and!; [done| |done].
    rewrite Hb. change (set_elements ∅) with (@nil Z). by rewrite app_nil_r.
  - rewrite egress_ports, Hout by (by rewrite Hout).
    assert (forall l w, exists w', for_each l (fun port => sendDataToPort port d) w = (w', inr tt) /\
      same_tables w w' /\ fe_counters (n_engine w') = fe_counters (n_engine w) /\
      n_sent w' = n_sent w ++ transmit (m_portTable (n_engine w)) l (data_header d) (d_wire d))
      as Hloop.
    { clear. intros l. induction l as [|p l IH]; intros w; cbn [for_each].
      { exists w. split_and!; try done. by rewrite app_nil_r. }
      rewrite (run_seq (sendDataToPort p d) _ _ _ _ (sendToPort_run _ _ _ w)).
      destruct (IH (w <| n_sent ::= fun l => l ++ transmit (m_portTable (n_engine w)) [p]
        (data_header d) (d_wire d) |>)) as (w' & -> & S & C & N).
      exists w'. split_and!; [done..|]. rewrite N. cbn [n_sent n_engine set_field set_n_sent].
      rewrite <-app_assoc. f_equal. unfold transmit. by rewrite <-omap_app. }
    destruct (Hloop (set_elements (wired ports)) w1) as (w2 & -> & S2 & C2 & N2).
    exists w2. split; [done|]. split_and!; [by etrans| |by rewrite C2].
    by rewrite N2, N1, (same_tables_ports _ _ S1).
Qed.

(** The remembered Interest of exactly this name decides the lease. *)
Lemma saved_lifetime_spec name pit :
  pit_wf pit ->
  saved_lifetime name pit =
    match pit !! name with Some e => us_of_ms (i_lifetime (e_interest e)) | None => 0 end.
Proof.
  intros Hwf. unfold saved_lifetime.
  pose proof (fun i => proj1 (find_by_prefix_elem name pit i)) as Hin.
  destruct (List.find _ _) as [i|] eqn:E.
  - apply List.find_some in E as [Hi Hn]. apply bool_decide_eq_true in Hn.
    apply list_elem_of_In, Hin in Hi as (n & e & He & _ & ->).
    destruct (Hwf _ _ He) as [Hname _]. by rewrite <-Hn, Hname, He.
  - destruct (pit !! name) as [e|] eqn:He; [|done]. exfalso.
    assert (e_interest e ∈ findByPrefix name pit) as Hi
      by (apply find_by_prefix_elem; by exists name, e).
    apply list_elem_of_In in Hi. pose proof (List.find_none _ _ E _ Hi) as Hn.
    destruct (Hwf _ _ He) as [Hname _]. cbn beta in Hn. by rewrite bool_decide_true in Hn.
Qed.

(** The ports Data returns to, the world without the satisfied entries, the
    lease of the Trace Interest of the same name, and the world with the Data
    cached. *)
Definition return_ports (d : Data) w : gset Z :=
  (takeDataMatchPorts (d_name d) (m_pit (n_engine w))).2.
Definition consumed (d : Data) w : node :=
  over (fun e => e <| m_pit := (takeDataMatchPorts (d_name d) (m_pit e)).1 |>) w.
Definition lease (d : Data) w : Z :=
  match m_pit (n_engine w) !! d_name d with
  | Some e => us_of_ms (i_lifetime (e_interest e))
  | None => 0
  end.
Definition cached (d : Data) w : node :=
  let '(cs, r) := ContentStore.insert d (m_cs (n_engine w)) (n_rand w) in
  over (fun e : ForwardingEngine R => e <| m_cs := cs |>) (w <| n_rand := r |>).

(** What happens to Data between the PIT and the second pass. *)
Definition before_pass2 inPort (d : Data) w : node * (exn + unit) :=
  if judgeNameIsTrace (d_name d)
  then handleTraceData nonce_fuel inPort d (return_ports d w) (lease d w) (consumed d w)
  else (cached d (consumed d w), inr tt).

Lemma node_inv_consumed d w : node_inv w -> node_inv (consumed d w).
Proof. intros Hw. exact (node_inv_take (d_name d) w Hw). Qed.

Lemma node_inv_before inPort d w : node_inv w -> node_inv (before_pass2 inPort d w).1.
Proof.
  intros Hw. apply (node_inv_consumed d) in Hw. unfold before_pass2.
  destruct (judgeNameIsTrace (d_name d)); [by apply inv_handleTraceData|]. cbn [fst].
  unfold cached. destruct Hw as [H1 H2 H3 H4 H5 H6].
  pose proof (cs_ok_insert d (m_cs (n_engine (consumed d w))) (n_rand (consumed d w)) H5) as Hc.
  destruct (ContentStore.insert _ _ _) as [cs r]. by split.
Qed.

Lemma outbox_before inPort d w : outbox (before_pass2 inPort d w).1 = outbox w.
Proof.
  unfold before_pass2. destruct (judgeNameIsTrace (d_name d)).
  - by rewrite (outbox_handleTraceData _ _ _ _ (consumed d w)).
  - unfold cached. by destruct (ContentStore.insert _ _ _) as [cs r].
Qed.

Lemma data_miss inPort d h w :
  return_ports d w = ∅ -> processDataAfterDelay nonce_fuel inPort d h w = (consumed d w, inr tt).
Proof.
  unfold return_ports, processDataAfterDelay, fe_get, consumed, over. cbv zeta. rewrite run_gets.
  cbn [view lens_engine put]. destruct (takeDataMatchPorts _ _) as [pit ports]. cbn [fst snd].
  unfold fe_upd. rewrite run_modify. intros ->. done.
Qed.

Lemma data_hit inPort d h w :
  pit_wf (m_pit (n_engine w)) -> return_ports d w <> ∅ ->
  processDataAfterDelay nonce_fuel inPort d h w =
  if judgeNameIsTrace (d_name d) && (lease d w <=? 0)
  then fe_count malformedPackets (consumed d w)
  else match before_pass2 inPort d w with
       | (w2, inl ex) => (w2, inl ex)
       | (w2, inr _) =>
           (pass2 ← zoom (processPacket (m_currentTs (n_sim w2))
                    (setOutPorts (encodeOutPortsMask (return_ports d w))
                      (setType DATA (computeNameHashes (d_name d) h))));
            if dropped pass2 || bool_decide (outputPorts pass2 = ∅) then mret tt
            else for_each (set_elements (outputPorts pass2)) (fun port => sendDataToPort port d)) w2
       end.
Proof.
  intros Hwf Hne. unfold lease. rewrite <-(saved_lifetime_spec (d_name d) _ Hwf).
  unfold before_pass2, lease. rewrite <-(saved_lifetime_spec (d_name d) _ Hwf).
  unfold return_ports in *. unfold processDataAfterDelay, fe_get, consumed, over, fe_now.
  cbv zeta. rewrite run_gets. cbn [view lens_engine put].
  destruct (takeDataMatchPorts _ _) as [pit ports]. cbn [fst snd] in *.
  unfold fe_upd. rewrite run_modify, bool_decide_false by done. unfold over.
  cbn [view lens_engine put]. destruct (judgeNameIsTrace (d_name d)); cbn [andb].
  - destruct (saved_lifetime _ _ <=? 0); [done|]. unfold mbind at 1, M_bind at 1.
    by destruct (handleTraceData _ _ _ _ _ _) as [w2 [ex|[]]].
  - unfold mbind at 1, M_bind at 1, cached, over. cbn [n_engine set_field set_n_engine n_rand m_cs set_m_pit].
    destruct (ContentStore.insert _ _ _) as [cs r]. done.
Qed.

(** *** Reception *)
Lemma insert_throws st t i port pit ex :
  PendingInterestTable.insert st t i port pit = inl ex -> exists what, ex = TlvError what.
Proof.
  unfold PendingInterestTable.insert. destruct (pit !! i_name i) as [e|]; [|done].
  pose proof (same_nonce_spec st (e_interest e) i) as Hs.
  destruct (same_nonce _ _ _) as [ex'|[]]; cbn; [|done..]. intros [= <-].
  destruct Hs as (a & b & _ & _ & [H|H]); by eapply getNonce_throws.
Qed.

Lemma processStatefulInterest_throws inPort i h w :
  match (processStatefulInterest inPort i h w).2 with
  | inl ex => exists what, ex = TlvError what
  | inr _ => True
  end.
Proof.
  destruct (processStatefulInterest_inserts inPort i h w) as (w1 & _ & _ & _ & -> & _).
  destruct (PendingInterestTable.insert _ _ _ _ _) as [ex|[pit res]] eqn:E; [by eapply insert_throws|].
  destruct (negb _); [done|]. destruct (ContentStore.find _ _); [|done].
  unfold fe_count, fe_upd, sendDataToPort. by rewrite run_modify, sendToPort_run.
Qed.

(** What the handler makes of the octets behind the Statim header. *)
Definition deliver inPort h (r : exn + NdnBlock) : M node unit :=
  match r with
  | inr (BInterest v) =>
      catch_tlv (i ← make_interest v; processStatefulInterest inPort i h)
        (fe_count malformedPackets)
  | inr (BData d) => processStatefulData inPort d h
  | inr BOther | inl (TlvError _) => fe_count malformedPackets
  | inl ex => throw ex
  end.

Lemma deliver_returns inPort h r w ex' :
  (deliver inPort h r w).2 = inl ex' -> r = inl ex'.
Proof.
  destruct r as [ex|[v|d|]]; [by destruct ex; try (by intros [= <-])| |done|done]. cbn [deliver]. unfold catch_tlv.
  unfold mbind, M_bind, make_interest, wireDecode.
  match goal with |- context [processStatefulInterest ?p ?i ?h ?w] =>
    pose proof (processStatefulInterest_throws p i h w) as Ht;
    destruct (processStatefulInterest p i h w) as [w' [ex|[]]]; [|done] end.
  by destruct Ht as [what ->].
Qed.

Lemma catch_deliver inPort h r w :
  catch_tlv (block ← lift_result r;
             match block with
             | BInterest v =>
                 interest ← make_interest v;
                 processStatefulInterest inPort interest h
             | BData data => processStatefulData inPort data h
             | BOther => fe_count malformedPackets
             end) (fe_count malformedPackets) w = deliver inPort h r w.
Proof.
  destruct r as [ex|b]; [by destruct ex|].
  unfold catch_tlv at 1. rewrite run_lift_inr. by destruct b.
Qed.

(** *** Resending remembered Interests *)

(** The generator yields 32-bit words, and within [nonce_fuel] of them one that
    differs from any given nonce. *)
Record good_words : Prop := {
  gw_range (r : RW) : u32_range (generateWord32 r).2;
  gw_vary (r : RW) old : exists n, (n < nonce_fuel)%nat /\ (generateWord32 (word_state n r)).2 <> old
}.

(** The number an Interest's nonce reads as, given the buffers. *)
Definition nonce_number (st : WireStore) (i : Interest) : option Z :=
  match getNonce <$> nonce_octets st i with Some (inr n) => Some n | _ => None end.

(** [i'] is what resends [i]: another nonce, the rest the same; a four-octet nonce
    is renewed in the remembered Interest itself. *)
Definition renewed (st st' : WireStore) (i i' : Interest) : Prop :=
  i_name i' = i_name i /\ i_lifetime i' = i_lifetime i /\ i_rest i' = i_rest i /\
  (exists n n', nonce_number st i = Some n /\ nonce_number st' i' = Some n' /\ n' <> n) /\
  (forall b o, i_nonce i = WireNonce b -> st !! b = Some o -> length o = 4%nat -> i' = i).

Lemma nonce_number_agree st st' i :
  (forall b, i_nonce i = WireNonce b -> st' !! b = st !! b) ->
  nonce_number st' i = nonce_number st i.
Proof.
  intros H. unfold nonce_number, nonce_octets. destruct (i_nonce i) as [|o|b]; [done..|].
  by rewrite (H b eq_refl).
Qed.

Lemma nonce_number_own st i n :
  u32_range n -> i_nonce i = OwnNonce (nonce_memory n) -> nonce_number st i = Some n.
Proof.
  intros Hn Hi. unfold nonce_number, nonce_octets. rewrite Hi. cbn [fmap option_fmap option_map].
  by rewrite getNonce_memory.
Qed.

Lemma refresh_run i w :
  good_words -> is_Some (nonce_number (n_wires w) i) ->
  exists r st i', refresh nonce_fuel i w = (w <| n_words := r |> <| n_wires := st |>, inr i') /\
    renewed (n_wires w) st i i' /\
    (forall b, i_nonce i <> WireNonce b -> st !! b = n_wires w !! b) /\
    (forall b, i_nonce i' = WireNonce b -> i_nonce i = WireNonce b).
Proof.
  intros [Hr Hv] [old Hold]. unfold renewed. pose proof Hold as Hn. unfold nonce_number in Hn.
  destruct (nonce_octets (n_wires w) i) as [o|] eqn:Eo; [|done]. cbn in Hn.
  destruct (getNonce o) as [|x] eqn:Ex; [done|]. injection Hn as ->.
  destruct (Hv (n_words w) old) as (n & Hlt & Hne).
  destruct (fresh_word_spec n nonce_fuel old (n_words w) Hlt Hne) as (r & m & E & Hnew).
  unfold refresh, refreshNonce. rewrite Eo. cbn [mbind]. rewrite Ex. cbn. rewrite E.
  set (new := (generateWord32 (word_state m (n_words w))).2) in *. pose proof (Hr (word_state m (n_words w))) as Hu.
  fold new in Hu. unfold setNonce. unfold nonce_octets in Eo.
  set (own := mkInterest (i_name i) (OwnNonce (nonce_memory new)) (i_lifetime i) (i_rest i)).
  assert (nonce_number (n_wires w) own = Some new) as Hown by (by apply nonce_number_own).
  destruct (i_nonce i) as [|o'|b] eqn:Ei; [done| |].
  - eexists r, _, own. split; [reflexivity|].
    split; [split_and!; [done|done|done|by exists old, new|done]|done].
  - injection Eo as Eo. rewrite Eo. destruct (decide (length o = 4%nat)) as [Hl|Hl].
    + eexists r, _, i. split; [reflexivity|]. split; [split_and!; [done|done|done| |done]|].
      * exists old, new. split_and!; [done| |done]. unfold nonce_number, nonce_octets.
        rewrite Ei, lookup_insert_eq. cbn [default from_option id fmap option_fmap option_map].
        by rewrite getNonce_memory.
      * split; [|by rewrite Ei]. intros b' Hb. rewrite lookup_insert_ne; [done|]. congruence.
    + eexists r, _, own. split; [reflexivity|].
      split; [split_and!; [done|done|done|by exists old, new|]|done].
      intros b' o' [= <-] Hb'. rewrite Hb' in Eo. cbn in Eo. by subst o'.
Qed.

Definition i_buffer (i : Interest) : option Z :=
  match i_nonce i with WireNonce b => Some b | _ => None end.
Definition buffers (l : list Interest) : list Z := omap i_buffer l.

Lemma elem_of_buffers b l : b ∈ buffers l <-> exists i, i ∈ l /\ i_nonce i = WireNonce b.
Proof.
  unfold buffers. rewrite list_elem_of_omap. apply exist_proper. intros i. f_equiv.
  unfold i_buffer. destruct (i_nonce i); naive_solver.
Qed.

Lemma pit_buffers_distinct prefix next t :
  wires_ok next t -> NoDup (buffers (findByPrefix prefix t)).
Proof.
  intros [_ Hd]. unfold findByPrefix.
  assert (forall n e, (n, e) ∈ prefix_range prefix t -> t !! n = Some e) as Hin
    by (intros n e He; by apply elem_of_prefix_range in He as [He _]).
  pose proof (NoDup_prefix_range prefix t) as Hnd. revert Hin Hnd.
  induction (prefix_range prefix t) as [|[n e] l IH]; intros Hin Hnd; [constructor|].
  rewrite fmap_cons in *. apply NoDup_cons in Hnd as [Hn Hnd]. unfold buffers. cbn [omap list_omap].
  assert (NoDup (buffers ((fun kv => e_interest kv.2) <$> l))) as IH'.
  { apply IH; [|done]. intros m f Hf. apply Hin. by right. }
  unfold i_buffer at 1. cbn [snd]. destruct (i_nonce (e_interest e)) as [|o|b] eqn:Eb; [done|done|].
  constructor; [|done]. rewrite elem_of_buffers. intros (i & Hi & Hb).
  apply list_elem_of_fmap in Hi as ([m f] & -> & Hf). cbn in Hb. apply Hn.
  assert (n = m) as ->.
  { apply (Hd n m e f); [apply Hin; by left|apply Hin; by right|congruence]. }
  apply list_elem_of_fmap. by exists (m, f).
Qed.

(** Queue one resending after the other. *)
Definition queue_pulls (port : Z) (l : list Interest) (s : Sim FeEvent) : Sim FeEvent :=
  foldl (fun s i => (Schedule (MilliSeconds 0) (DoDelayedPullSend i port) s).1) s l.

Lemma pull_loop port l w :
  good_words -> NoDup (buffers l) -> Forall (fun i => is_Some (nonce_number (n_wires w) i)) l ->
  exists w' l', for_each l (fun pendingInterest =>
      retx ← refresh nonce_fuel pendingInterest;
      fe_count pendingPullsScheduled;;
      fe_schedule (MilliSeconds 0) (DoDelayedPullSend retx port)) w = (w', inr tt) /\
    Forall2 (renewed (n_wires w) (n_wires w')) l l' /\
    (forall b, b ∉ buffers l -> n_wires w' !! b = n_wires w !! b) /\
    n_sim w' = queue_pulls port l' (n_sim w) /\ n_sent w' = n_sent w /\
    n_engine w' = (n_engine w) <| fe_counters ::= Nat.iter (length l) (bump pendingPullsScheduled) |>.
Proof.
  intros Hg. revert w. induction l as [|i l IH]; intros w Hnd Hread; cbn [for_each].
  { exists w, []. split_and!; [done|constructor|done|done|done|by destruct w as [? [] ? ? ? ? ? ?]]. }
  apply Forall_cons in Hread as [Hi Hread].
  assert (NoDup (buffers l) /\ forall b, i_nonce i = WireNonce b -> b ∉ buffers l) as [Hndl Hib].
  { unfold buffers in *. cbn [omap list_omap] in Hnd. unfold i_buffer at 1 in Hnd.
    destruct (i_nonce i); [done|done|]. apply NoDup_cons in Hnd as [Hb Hnd]. split; [done|].
    by intros b' [= <-]. }
  destruct (refresh_run i w Hg Hi) as (r & st & i' & E & Hren & Hst & Hi').
  rewrite run_assoc, (run_seq _ _ _ _ _ E), run_assoc. unfold fe_count, fe_upd, fe_schedule.
  rewrite !run_modify. set (w1 := (sim_schedule _ _ _).1). assert (n_wires w1 = st) as Hw1 by done.
  rewrite <-Hw1 in Hren, Hst.
  assert (forall j, j ∈ l -> nonce_number (n_wires w1) j = nonce_number (n_wires w) j) as Hsame.
  { intros j Hj. apply nonce_number_agree. intros b Hb. apply Hst. intros Hbi.
    apply (Hib b Hbi), elem_of_buffers. by exists j. }
  destruct (IH w1 Hndl) as (w' & l' & E' & Hl & Hrest & Hs & Hn & He).
  { rewrite Forall_forall in *. intros j Hj. rewrite Hsame by done. by apply Hread. }
  exists w', (i' :: l'). split; [exact E'|]. split.
  { constructor.
    - destruct Hren as (? & ? & ? & (n & n' & H1 & H2 & H3) & H4). split_and!; [done|done|done| |done].
      exists n, n'. split_and!; [done| |done]. rewrite <-H2. apply nonce_number_agree.
      intros b Hb. apply Hrest, Hib, Hi', Hb.
    - clear -Hl Hsame Hst Hib. induction Hl as [|j j' l l' (H1 & H2 & H2' & (n & n' & H3 & H4 & H5) & H6) Hl IH];
        constructor.
      + split_and!; [done|done|done| |].
        * exists n, n'. rewrite <-Hsame by left. done.
        * intros b o Hb Ho. apply (H6 b o Hb). rewrite <-Ho. apply Hst. intros Hbi.
          apply (Hib b Hbi), elem_of_buffers. exists j. split; [left|done].
      + apply IH; [|intros k Hk; apply Hsame; by right]. intros b Hb Hin. apply (Hib b Hb).
        apply elem_of_buffers in Hin as (k & Hk & Hkb). apply elem_of_buffers. exists k.
        split; [by right|done]. }
  split.
  { intros b Hb. unfold buffers in Hb. cbn [omap list_omap] in Hb. rewrite Hrest.
    - apply Hst. intros Hbi. apply Hb. unfold i_buffer. rewrite Hbi. left.
    - intros Hin. apply Hb. unfold buffers in Hin. destruct (i_buffer i); [by right|done]. }
  split; [by rewrite Hs|]. split; [by rewrite Hn|].
  rewrite He. cbn [length]. unfold set_field, set_fe_counters. by rewrite Nat.iter_succ_r.
Qed.
End forwarding.

(** ** Handlers as wholes *)
Lemma interest_forwarded_run {R RW SR} {SH : StringHash} inPort i h (w : Node R RW SR) routes payload :
  wireEncode (n_wires w) i = inr payload -> switch_refines (view w) routes -> routes_prefix_shaped routes ->
  event_ok (ProcessInterestAfterDelay inPort i h) ->
  let hops := temporary_hops w (i_name i) in
  let out := interest_egress (m_currentTs (n_sim w)) routes
               (m_nameHashes (PacketHeader_of_name (i_name i))) (default ∅ (dom <$> hops)) in
  exists w', processInterestAfterDelay inPort i h w = (w', inr tt) /\
    n_sent w' = n_sent w ++ transmit (m_portTable (n_engine w)) (onward inPort out)
                  (out_header (i_name i)) payload /\
    fe_counters (n_engine w') =
      (if bool_decide (out = ∅) then miss_counters (fe_counters (n_engine w))
       else interest_counters (bool_decide (is_Some hops)) (length (onward inPort out))
              (fe_counters (n_engine w))) /\
    untouched w' = untouched (looked_up (i_name i) w).
Proof.
  intros Hpay Hr Hs [Hwf Hh] hops out. rewrite processInterestAfterDelay_run. fold hops.
  destruct (forward_interest_run inPort i (bool_decide (is_Some hops))
    (setOutPorts (encodeOutPortsMask (default ∅ (dom <$> hops))) (setType INTEREST h))
    (default ∅ (dom <$> hops)) routes (looked_up (i_name i) w) payload) as (w' & E & S & N & C);
    [done|done|done|by apply set_ports_wf|done|done|].
  exists w'. split; [exact E|]. subst out. rewrite <-Hh. split_and!; [exact N|exact C|exact S].
Qed.

Lemma lpm_stored now routes hs n r : lpm now routes hs n = Some r -> exists key, routes !! key = Some r.
Proof.
  pose proof (lpm_spec now routes hs n) as H. intros E. rewrite E in H.
  destruct H as (m & _ & Hm & _). by eexists.
Qed.

(** No live or dead route leads to the pseudo port of the stateful module. *)
Definition no_inward_route {R RW SR} {SH : StringHash} (w : Node R RW SR) : Prop :=
  forall routes key r, switch_refines (view w) routes -> routes_prefix_shaped routes ->
    routes !! key = Some r -> r.1 <> PORT_STATEFUL_MODULE.

(** A header that is neither unprocessed nor a control packet's does not reach the
    stateful module. *)
Lemma dispatch_elsewhere routes now buf :
  hdr_type buf <> CONTROL -> hdr_type buf <> UNPROCESSED ->
  (forall key r, routes !! key = Some r -> r.1 <> PORT_STATEFUL_MODULE) ->
  packetIn (switch_process now routes buf) = false /\
  PORT_STATEFUL_MODULE ∉ outputPorts (switch_process now routes buf).
Proof.
  intros H1 H2 Hno.
  assert (PORT_STATEFUL_MODULE ∉ decode_mask (hdr_out_mask buf)) as Hm.
  { rewrite elem_of_decode_mask. unfold PORT_STATEFUL_MODULE. lia. }
  assert (forall r, lpm now routes (hdr_hashes buf) 4 = Some r -> PORT_STATEFUL_MODULE <> r.1) as Hl.
  { intros r (key & Hk)%lpm_stored. apply not_eq_sym, (Hno key r Hk). }
  assert (dispatch buf = ToFib \/ dispatch buf = ToMulticast \/ dispatch buf = NoEntry) as Hd.
  { unfold dispatch. apply Z.eqb_neq in H1 as ->, H2 as ->.
    destruct (_ =? INTEREST); [destruct (_ =? 0); auto|]. destruct (_ =? DATA); [auto|]. destruct (_ =? _); auto. }
  unfold switch_process. destruct Hd as [->|[->| ->]].
  - destruct (lpm now routes (hdr_hashes buf) 4) as [r|]; (split; [done|]); cbn.
    + intros H%elem_of_singleton. by apply (Hl r).
    + apply not_elem_of_empty.
  - case_bool_decide; (split; [done|]); cbn; [apply not_elem_of_empty|exact Hm].
  - split; [done|]. apply not_elem_of_empty.
Qed.

Lemma reception_run {R RW SR} {SH : StringHash} inPort packet (w : Node R RW SR) :
  node_inv w -> u16_range inPort ->
  let run := onReceiveRawPacket inPort packet w in
  let h := (Deserialize packet).1 in
  let readable := (Deserialize packet).2 =? Z.of_nat SERIALIZED_SIZE in
  let payload := drop SERIALIZED_SIZE packet in
  (forall ex, run.2 = inl ex ->
     ex = Undefined "the end-of-stream iterator is dereferenced" /\
     exists t r n, readType payload = Some (t, r) /\ readVarNumber r = Some (n, []) /\ 0 < n) /\
  (readable = false -> run = fe_count malformedPackets w) /\
  (readable = true -> m_type h = CONTROL -> run = (passed w, inr tt)) /\
  (readable = true -> m_type h = UNPROCESSED ->
     run = deliver inPort h (decode_block payload) (passed w)) /\
  (readable = true -> m_type h <> CONTROL -> m_type h <> UNPROCESSED ->
     no_inward_route w -> run = fe_count noRouteRejections (passed w)).
Proof.
  intros [_ _ (routes & Hr & Hs) _ _ _] Hp run h readable payload.
  subst run. unfold onReceiveRawPacket. pose proof (Deserialize_wf packet) as Hwf.
  rewrite (surjective_pairing (Deserialize packet)). fold h. fold readable.
  destruct readable eqn:Hread; cbn [negb]; [|done]. unfold fe_now. cbv zeta. rewrite run_gets.
  apply Z.eqb_eq in Hread. specialize (Hwf Hread). fold h in Hwf.
  assert (header_wf (setPacketInPort inPort h)) as Hwf' by (by apply setters_wf).
  rewrite (run_seq _ _ _ _ _ (pass_run _ _ w routes Hr Hs Hwf')).
  destruct (hdr_fields _ Hwf') as (Ht & _). change (m_type (setPacketInPort inPort h)) with (m_type h) in Ht.
  set (res := switch_process _ _ _).
  set (dlv := catch_tlv _ _).
  assert (dlv (passed w) = deliver inPort h (decode_block payload) (passed w))
    as Hd by apply catch_deliver.
  split; [|split; [done|split; [|split]]].
  - intros ex. destruct (packetIn res); [done|]. destruct (bool_decide _); [|done]. rewrite Hd. intros Hex.
    pose proof (deliver_returns _ _ _ _ _ Hex) as E.
    destruct (decode_block_errors _ _ E) as [[what ->]|H]; [|exact H]. by rewrite E in Hex.
  - intros _ Hc. subst res. unfold switch_process, dispatch. by rewrite Ht, Hc.
  - intros _ Hc. subst res. unfold switch_process, dispatch. rewrite Ht, Hc.
    cbn -[bool_decide]. rewrite bool_decide_true by set_solver. exact Hd.
  - intros _ H1 H2 Hno. destruct (dispatch_elsewhere routes (m_currentTs (n_sim w)) (Serialize (setPacketInPort inPort h)))
      as [E1 E2]; [by rewrite Ht|by rewrite Ht|by intros key r; apply (Hno routes)|].
    change (packetIn res = false) in E1. change (PORT_STATEFUL_MODULE ∉ outputPorts res) in E2.
    rewrite E1, bool_decide_false; [done|exact E2].
Qed.

Lemma transmit_payload t ports h payload :
  Forall (fun s => s_header s = h /\ s_payload s = payload) (transmit t ports h payload).
Proof.
  unfold transmit. induction ports as [|p ports IH]; [constructor|]. cbn [omap list_omap].
  destruct (getDevice p t); [by constructor|done].
Qed.

(** What the handler of Data does when the steps before the second pass succeed. *)
Lemma data_sent {R RW SR} {US : UniformStreams R} {RWi : RandomWord RW} {SRi : StdRand SR}
    {SH : StringHash} nonce_fuel inPort d h (w : Node R RW SR) :
  node_inv w -> header_wf h -> return_ports d w <> ∅ ->
  (judgeNameIsTrace (d_name d) = true -> 0 < lease d w) ->
  let before := before_pass2 nonce_fuel inPort d w in
  (forall ex, before.2 = inl ex ->
     processDataAfterDelay nonce_fuel inPort d h w = (before.1, inl ex) /\ n_sent before.1 = n_sent w) /\
  (before.2 = inr tt ->
     exists w', processDataAfterDelay nonce_fuel inPort d h w = (w', inr tt) /\ untouched w' = untouched before.1 /\
       n_sent w' = n_sent w ++ transmit (m_portTable (n_engine w)) (set_elements (wired (return_ports d w)))
                     (data_header d) (d_wire d)).
Proof.
  intros Hw Hh Hne Hl before. pose proof (data_hit nonce_fuel inPort d h w ltac:(apply Hw) Hne) as Hrun.
  assert (judgeNameIsTrace (d_name d) && (lease d w <=? 0) = false) as Hf.
  { destruct (judgeNameIsTrace (d_name d)); [|done]. cbn. specialize (Hl eq_refl). lia. }
  rewrite Hf in Hrun. fold before in Hrun.
  pose proof (outbox_before nonce_fuel inPort d w) as Ho.
  pose proof (node_inv_before nonce_fuel inPort d w Hw) as [_ _ (routes & Hr & Hs) _ _ _].
  fold before in Ho, Hr. injection Ho as Hn Hp. destruct before as [w2 [ex'|[]]]; cbn [fst snd] in *.
  - split; [|done]. by intros ex [= <-].
  - split; [done|]. intros _.
    destruct (send_all_data (return_ports d w) (setOutPorts (encodeOutPortsMask (return_ports d w))
      (setType DATA (computeNameHashes (d_name d) h))) d routes (m_currentTs (n_sim w2)) w2 Hr Hs)
      as (w' & E & S & N & _); [|done|done|].
    { apply setters_wf; [|apply encodeOutPortsMask_range]. by apply setters_wf; [apply computeNameHashes_wf|]. }
    exists w'. rewrite Hrun. split_and!; [exact E|exact S|]. by rewrite N, Hn, Hp.
Qed.

(** All that the handler of Data ever sends is the wire of the Data. *)
Lemma data_frames {R RW SR} {US : UniformStreams R} {RWi : RandomWord RW} {SRi : StdRand SR}
    {SH : StringHash} nonce_fuel inPort d h (w : Node R RW SR) :
  node_inv w -> header_wf h ->
  exists l, n_sent (processDataAfterDelay nonce_fuel inPort d h w).1 = n_sent w ++ l /\
    Forall (fun s => s_header s = data_header d /\ s_payload s = d_wire d) l.
Proof.
  intros Hw Hh. destruct (decide (return_ports d w = ∅)) as [He|Hne].
  { exists []. rewrite data_miss, app_nil_r by done. done. }
  rewrite data_hit by (done || apply Hw). destruct (_ && _); [exists []; by rewrite app_nil_r|].
  pose proof (outbox_before nonce_fuel inPort d w) as Ho.
  pose proof (node_inv_before nonce_fuel inPort d w Hw) as [_ _ (routes & Hr & Hs) _ _ _].
  injection Ho as Hn _. destruct (before_pass2 nonce_fuel inPort d w) as [w2 [ex|[]]]; cbn [fst] in *.
  { exists []. by rewrite app_nil_r. }
  edestruct (send_all_data (return_ports d w) (setOutPorts (encodeOutPortsMask (return_ports d w))
      (setType DATA (computeNameHashes (d_name d) h))) d routes (m_currentTs (n_sim w2)) w2 Hr Hs)
      as (w' & E & _ & N & _); [|done|done|].
  { apply setters_wf; [|apply encodeOutPortsMask_range]. by apply setters_wf; [apply computeNameHashes_wf|]. }
  eexists. rewrite E. cbn [fst]. rewrite N, Hn. split; [done|apply transmit_payload].
Qed.

(** Reception of a frame whose payload starts with the octets of a packet. *)
Lemma reception_block {R RW SR} {SH : StringHash} inPort h t v more block (w : Node R RW SR) :
  node_inv w -> u16_range inPort -> header_wf h -> m_type h = UNPROCESSED ->
  decode_block (element t v ++ more) = inr block ->
  onReceiveRawPacket inPort (Serialize h ++ element t v ++ more) w = deliver inPort h (inr block) (passed w).
Proof.
  intros Hw Hp Hh Ht Hb.
  destruct (reception_run inPort (Serialize h ++ element t v ++ more) w Hw Hp) as (_ & _ & _ & H & _).
  rewrite Deserialize_Serialize in H by (done || by rewrite Ht). cbn [fst snd] in H.
  rewrite H by done. by rewrite <-(length_Serialize h Hh), drop_app_length, Hb.
Qed.

Lemma passed_inv {R RW SR} {SH : StringHash} (w : Node R RW SR) : node_inv w -> node_inv (passed w).
Proof. intros [H1 H2 H3 H4 H5 H6]. by split. Qed.

(** An Interest that is cached or a duplicate queues nothing. *)
Definition answered {R RW SR} {SH : StringHash} (inPort : Z) (n : Name) (w w1 : Node R RW SR) : Prop :=
  n_sim w1 = n_sim w /\
  ((is_Some (m_pit (n_engine w) !! n) /\ n_sent w1 = n_sent w) \/
   exists d, ContentStore.find n (m_cs (n_engine w)) = Some d /\
     n_sent w1 = n_sent w ++ transmit (m_portTable (n_engine w)) [inPort] (data_header d) (d_wire d)).

(** Any other waits for its delay, with its nonce in a buffer of its own. *)
Definition waits {R RW SR} {SH : StringHash} (inPort : Z) (v : InterestWire) (i : Interest) hdr (w w1 : Node R RW SR) : Prop :=
  n_sent w1 = n_sent w /\ i_name i = w_name v /\ i_rest i = w_rest v /\
  event_ok (ProcessInterestAfterDelay inPort i hdr) /\
  wireEncode (n_wires w1) i = inr (interest_octets v) /\
  (exists b, i_nonce i = WireNonce b /\ b < n_nextWire w1) /\
  n_sim w1 = (Schedule (m_statefulDelay (n_engine w)) (ProcessInterestAfterDelay inPort i hdr) (n_sim w)).1.

Lemma interest_reception {R RW SR} {SH : StringHash} inPort h v more i0 (w : Node R RW SR) :
  node_inv w -> u16_range inPort -> header_wf h -> m_type h = UNPROCESSED ->
  decode_block (element tlv.Interest v ++ more) = inr (BInterest i0) ->
  exists w1 : Node R RW SR,
    onReceiveRawPacket inPort (Serialize h ++ element tlv.Interest v ++ more) w = (w1, inr tt) /\
    (answered inPort (w_name i0) w w1 \/ exists i hdr, waits inPort i0 i hdr w w1).
Proof.
  intros Hw Hp Hh Ht Hd. rewrite (reception_block _ _ _ _ _ _ _ Hw Hp Hh Ht Hd). cbn [deliver].
  destruct (make_interest_run (SR := SR) i0 (passed w) (passed_inv w Hw))
    as (w1 & i & Em & Hw1 & (b & Hb & Hu) & Hname & Hwire & Hen & Hsim & Hsent & Hrest).
  destruct (processStatefulInterest_inserts inPort i h w1)
    as (w2 & Hnext & _ & _ & Es & Hsim2 & Hsent2 & Hwires2 & Hports).
  assert (m_pit (n_engine w1) = m_pit (n_engine w) /\ m_cs (n_engine w1) = m_cs (n_engine w) /\
    m_statefulDelay (n_engine w1) = m_statefulDelay (n_engine w) /\
    m_portTable (n_engine w1) = m_portTable (n_engine w)) as (Epit & Ecs & Edelay & Eports) by (by rewrite Hen).
  change (n_sent (passed w)) with (n_sent w) in Hsent. change (n_sim (passed w)) with (n_sim w) in Hsim.
  unfold catch_tlv. rewrite (run_seq _ _ _ _ _ Em), Es. cbv zeta. rewrite Epit, Ecs, Edelay, Hsim, Hname.
  set (hdr := setPacketInPort inPort (computeNameHashes (w_name i0) h)).
  assert (n_sim w2 = n_sim w) as Hs2 by congruence. assert (n_sent w2 = n_sent w) as Ho2 by congruence.
  assert (m_portTable (n_engine w2) = m_portTable (n_engine w)) as Hp2 by congruence.
  destruct (PendingInterestTable.insert (n_wires w1) (m_currentTs (n_sim w)) i inPort (m_pit (n_engine w))) as [ex|[pit res]] eqn:Ei.
  { destruct (insert_throws _ _ _ _ _ _ Ei) as (what & ->). assert (is_Some (m_pit (n_engine w) !! w_name i0)) as Hpend.
    { destruct (m_pit (n_engine w) !! w_name i0) eqn:E0; [by eexists|]. rewrite <-Hname in E0.
      unfold PendingInterestTable.insert in Ei. by rewrite E0 in Ei. }
    eexists. split; [reflexivity|]. left. split; [exact Hs2|]. left. split; [exact Hpend|exact Ho2]. }
  destruct (accepted res) eqn:Ha; cbn [negb].
  2:{ assert (is_Some (m_pit (n_engine w) !! w_name i0)) as Hpend.
      { destruct (m_pit (n_engine w) !! w_name i0) eqn:E0; [by eexists|]. rewrite <-Hname in E0.
        unfold PendingInterestTable.insert in Ei. rewrite E0 in Ei. by injection Ei as <- <-. }
      eexists. split; [reflexivity|]. left. split; [exact Hs2|]. left. split; [exact Hpend|exact Ho2]. }
  destruct (ContentStore.find (w_name i0) (m_cs (n_engine w))) as [d|] eqn:Ec.
  { unfold fe_count, fe_upd, sendDataToPort. rewrite run_modify, sendToPort_run. eexists. split; [reflexivity|].
    left. split; [exact Hs2|]. right. exists d. split; [exact Ec|].
    rewrite <-Ho2, <-Hp2. reflexivity. }
  eexists. split; [reflexivity|]. right. exists i, hdr. split_and!; [exact Ho2|done|done| | | |].
  - split; [by apply header_wf_interest|by rewrite Hname].
  - change (wireEncode (n_wires w2) i = inr (interest_octets i0)). by rewrite Hwires2.
  - exists b. split; [done|]. change (b < n_nextWire w2). rewrite Hnext. apply Hu.
  - transitivity (Schedule (m_statefulDelay (n_engine w)) (ProcessInterestAfterDelay inPort i hdr) (n_sim w2)).1;
      [done|by rewrite Hs2].
Qed.

(** The octets of a packet whose nonce may have been renewed. *)
Definition renewed_octets (v : InterestWire) (o : list byte) : Prop :=
  exists nonce, o = r_before (w_rest v) ++ nonce ++ r_after (w_rest v) /\ nonce_renewed (w_nonce v) nonce.

(** Whatever the node does meanwhile, the octets stay, but for a four-octet nonce. *)
Lemma waiting_octets {R RW SR} {US : UniformStreams R} {RWi : RandomWord RW} {SRi : StdRand SR}
    {SH : StringHash} {SS : StdSort} {SSL : StdSortLaws} inPort v i hdr nonce_fuel (w w1 w2 : Node R RW SR) :
  waits inPort v i hdr w w1 -> rtc (node_step nonce_fuel) w1 w2 ->
  exists o, wireEncode (n_wires w2) i = inr o /\ renewed_octets v o.
Proof.
  intros (_ & _ & Hrest & _ & Hwire & (b & Hb & Hlt) & _) Hrun.
  destruct (wires_run _ _ _ Hrun) as [_ Hk]. specialize (Hk b Hlt). unfold wireEncode, buffer in *.
  rewrite Hb, Hrest in *. injection Hwire as Hwire. unfold interest_octets in Hwire.
  apply app_inv_head, app_inv_tail in Hwire. rewrite Hwire in Hk.
  eexists. split; [reflexivity|]. eexists. split; [reflexivity|exact Hk].
Qed.

(** A Data waits for its delay with one more hop. *)
Lemma data_reception {R RW SR} {SH : StringHash} inPort h v more d0 (w : Node R RW SR) :
  node_inv w -> u16_range inPort -> header_wf h -> m_type h = UNPROCESSED ->
  decode_block (element tlv.Data v ++ more) = inr (BData d0) ->
  let hops := u8 (m_switchId h + 1) in
  exists (w1 : Node R RW SR),
    onReceiveRawPacket inPort (Serialize h ++ element tlv.Data v ++ more) w = (w1, inr tt) /\
    n_sent w1 = n_sent w /\
    n_sim w1 = (Schedule (m_statefulDelay (n_engine w))
      (ProcessDataAfterDelay inPort (setHopCountTag hops d0) (setSwitchId hops h)) (n_sim w)).1.
Proof.
  intros Hw Hp Hh Ht Hd hops. rewrite (reception_block _ _ _ _ _ _ _ Hw Hp Hh Ht Hd). cbn [deliver].
  unfold processStatefulData, fe_count, fe_get, fe_upd, fe_schedule. rewrite run_modify. cbv zeta. rewrite run_gets.
  eexists. split; [reflexivity|]. done.
Qed.

(** ** Properties *)

(** C4: an Interest whose delay is over is sent exactly once, as its wire encoding behind
    a fresh header and in port order, to every device of its egress but the port it came from:
    the ports 1 to 32 of the live temporary hops of the longest prefix that has
    any, or else the port of the longest live flow-table route.  An empty egress
    is counted as a miss; the lookup prunes the temporary table; nothing else
    changes, and nothing throws. *)
Theorem interest_forwarded {R RW SR} {SH : StringHash} inPort i h (w : Node R RW SR) routes payload :
  wireEncode (n_wires w) i = inr payload -> switch_refines (view w) routes -> routes_prefix_shaped routes ->
  event_ok (ProcessInterestAfterDelay inPort i h) ->
  let hops := temporary_hops w (i_name i) in
  let out := interest_egress (m_currentTs (n_sim w)) routes
               (m_nameHashes (PacketHeader_of_name (i_name i))) (default ∅ (dom <$> hops)) in
  exists w', processInterestAfterDelay inPort i h w = (w', inr tt) /\
    n_sent w' = n_sent w ++ transmit (m_portTable (n_engine w)) (onward inPort out)
                  (out_header (i_name i)) payload /\
    fe_counters (n_engine w') =
      (if bool_decide (out = ∅) then miss_counters (fe_counters (n_engine w))
       else interest_counters (bool_decide (is_Some hops)) (length (onward inPort out))
              (fe_counters (n_engine w))) /\
    untouched w' = untouched (looked_up (i_name i) w).
Proof. apply interest_forwarded_run. Qed.

(** C5: Data whose delay is over consumes the entries of its name's prefixes.
    Without one it is dropped, and Trace Data whose Interest's lifetime is not
    positive is dropped as malformed.  Otherwise the cache or the Trace update
    comes first; if that throws, the Data is lost with the entries consumed;
    else the Data is sent exactly once to every device among the return ports 1
    to 32, in port order, and nothing else changes. *)
Theorem data_forwarded {R RW SR} {US : UniformStreams R} {RWi : RandomWord RW} {SRi : StdRand SR}
    {SH : StringHash} nonce_fuel inPort d h (w : Node R RW SR) :
  node_inv w -> header_wf h ->
  let run := processDataAfterDelay nonce_fuel inPort d h w in
  let ports := return_ports d w in
  let before := before_pass2 nonce_fuel inPort d w in
  (ports = ∅ -> run = (consumed d w, inr tt)) /\
  (ports <> ∅ -> judgeNameIsTrace (d_name d) = true -> lease d w <= 0 ->
     run = fe_count malformedPackets (consumed d w)) /\
  (ports <> ∅ -> (judgeNameIsTrace (d_name d) = true -> 0 < lease d w) ->
     (forall ex, before.2 = inl ex -> run = (before.1, inl ex) /\ n_sent before.1 = n_sent w) /\
     (before.2 = inr tt ->
        exists w', run = (w', inr tt) /\ untouched w' = untouched before.1 /\
          n_sent w' = n_sent w ++ transmit (m_portTable (n_engine w)) (set_elements (wired ports))
                        (data_header d) (d_wire d))).
Proof.
  intros Hw Hh run ports before.
  split; [apply data_miss|]. assert (ports <> ∅ -> run = _) as Hrun by apply data_hit, Hw.
  split.
  { intros Hne Ht Hl. rewrite (Hrun Hne), Ht. by rewrite (proj2 (Z.leb_le _ _) Hl). }
  intros Hne Hl. by apply data_sent.
Qed.

(** C19: whatever octets arrive, reception returns, except when the payload ends right
    after the header of a block with a value: there the block decoder dereferences its
    end iterator, and this is the only exception that escapes.  A buffer without a Statim
    header only counts a malformed packet; a control packet only passes the switch; an
    unprocessed packet is handed on as the Interest or Data behind the header, and anything
    else there only counts a malformed packet.  A packet whose header has any other type is
    counted as one without a route, its payload not read, as long as no route leads to the
    pseudo port of the stateful module. *)
Theorem reception_total {R RW SR} {SH : StringHash} inPort packet (w : Node R RW SR) :
  node_inv w -> u16_range inPort ->
  let run := onReceiveRawPacket inPort packet w in
  let h := (Deserialize packet).1 in
  let readable := (Deserialize packet).2 =? Z.of_nat SERIALIZED_SIZE in
  let payload := drop SERIALIZED_SIZE packet in
  (forall ex, run.2 = inl ex ->
     ex = Undefined "the end-of-stream iterator is dereferenced" /\
     exists t r n, readType payload = Some (t, r) /\ readVarNumber r = Some (n, []) /\ 0 < n) /\
  (readable = false -> run = fe_count malformedPackets w) /\
  (readable = true -> m_type h = CONTROL -> run = (passed w, inr tt)) /\
  (readable = true -> m_type h = UNPROCESSED ->
     run = deliver inPort h (decode_block payload) (passed w)) /\
  (readable = true -> m_type h <> CONTROL -> m_type h <> UNPROCESSED ->
     no_inward_route w -> run = fe_count noRouteRejections (passed w)).
Proof. apply reception_run. Qed.

(** C6: what a node makes of the octets of a packet that it receives.  An Interest that is
    pending or cached may be answered at once, with the octets of the cached Data or with nothing;
    every other Interest queues exactly one event.  Whatever the node receives and does until the event runs,
    the event does not throw and sends nothing but the received octets, except that the four octets of a nonce may be
    others, because a resending in between has drawn a new one.  A Data queues one event, which
    sends nothing but the octets of the Data. *)
Theorem frames_relayed {R RW SR} {US : UniformStreams R} {RWi : RandomWord RW} {SRi : StdRand SR}
    {SH : StringHash} {SS : StdSort} {SSL : StdSortLaws} nonce_fuel inPort h v more (w : Node R RW SR) :
  node_inv w -> u16_range inPort -> header_wf h -> m_type h = UNPROCESSED ->
  octets v <= MAX_SIZE_OF_BLOCK_FROM_STREAM ->
  let e := n_engine w in
  let receive_frame t := onReceiveRawPacket inPort (Serialize h ++ element t v ++ more) w in
  (forall i0, decode_block (element tlv.Interest v ++ more) = inr (BInterest i0) ->
     interest_octets i0 = element tlv.Interest v /\
     exists w1 : Node R RW SR, receive_frame tlv.Interest = (w1, inr tt) /\
       (answered inPort (w_name i0) w w1 \/
        exists i hdr, i_name i = w_name i0 /\ n_sent w1 = n_sent w /\
          n_sim w1 = (Schedule (m_statefulDelay e) (ProcessInterestAfterDelay inPort i hdr) (n_sim w)).1 /\
          forall w2 : Node R RW SR, rtc (node_step nonce_fuel) w1 w2 ->
            exists (w3 : Node R RW SR) l o, processInterestAfterDelay inPort i hdr w2 = (w3, inr tt) /\
              n_sent w3 = n_sent w2 ++ l /\ renewed_octets i0 o /\ Forall (fun s => s_payload s = o) l)) /\
  (forall d0, decode_block (element tlv.Data v ++ more) = inr (BData d0) ->
     exists (w1 : Node R RW SR) d hdr, receive_frame tlv.Data = (w1, inr tt) /\ d_name d = d_name d0 /\
       n_sent w1 = n_sent w /\
       n_sim w1 = (Schedule (m_statefulDelay e) (ProcessDataAfterDelay inPort d hdr) (n_sim w)).1 /\
       forall w2 : Node R RW SR, node_inv w2 -> exists l,
         n_sent (processDataAfterDelay nonce_fuel inPort d hdr w2).1 = n_sent w2 ++ l /\
         Forall (fun s => s_payload s = element tlv.Data v) l).
Proof.
  intros Hw Hp Hh Ht Hv e receive_frame. split.
  - intros i0 Hd. split; [exact (decode_block_octets tlv.Interest v more _ ltac:(done) Hv Hd)|].
    destruct (interest_reception inPort h v more i0 w) as (w1 & E & [Ha|(i & hdr & Hwait)]); [done..| |];
      (exists w1; split; [exact E|]); [by left|right]. exists i, hdr.
    pose proof Hwait as (Hs & Hn & _ & Hev & _ & _ & Hsim). split_and!; [done..|]. intros w2 Hrun.
    assert (node_inv w2) as Hw2.
    { apply (node_inv_run nonce_fuel w1 w2 Hrun). pose proof (inv_onReceiveRawPacket inPort
        (Serialize h ++ element tlv.Interest v ++ more) Hp w Hw) as H. unfold receive_frame in E. by rewrite E in H. }
    destruct (ni_switch _ Hw2) as (routes & Hr & Hsh).
    destruct (waiting_octets inPort i0 i hdr nonce_fuel w w1 w2 Hwait Hrun) as (o & Ho & Hren).
    destruct (interest_forwarded_run inPort i hdr w2 routes o) as (w4 & E4 & N4 & _); [done..|].
    exists w4. eexists _, o. split; [exact E4|]. split; [exact N4|]. split; [exact Hren|].
    eapply Forall_impl; [apply transmit_payload|]. by intros f [_ Hf].
  - intros d0 Hd. destruct (data_reception inPort h v more d0 w) as (w1 & E & Hs & Hsim); [done..|].
    pose proof (decode_block_octets tlv.Data v more _ ltac:(done) Hv Hd) as [Hoct _].
    exists w1, (setHopCountTag (u8 (m_switchId h + 1)) d0), (setSwitchId (u8 (m_switchId h + 1)) h).
    split_and!; [done..|]. intros w2 Hw2.
    destruct (data_frames nonce_fuel inPort (setHopCountTag (u8 (m_switchId h + 1)) d0)
      (setSwitchId (u8 (m_switchId h + 1)) h) w2 Hw2) as (l & El & Hl).
    { apply setters_wf; [done|apply u8_bounds]. }
    exists l. split; [exact El|]. rewrite <-Hoct. eapply Forall_impl; [exact Hl|]. by intros f [_ Hf].
Qed.

(** C20: a Trace Data that has consumed its PIT entry and whose lifetime disagrees
    with a configured one, or whose last component is no sequence number, ends the
    run: the exception leaves the queued handler, which is outside the
    [try] block of the reception, with the PIT entries consumed and the Data not
    sent. *)
Theorem trace_data_escapes {R RW SR} {US : UniformStreams R} {RWi : RandomWord RW} {SRi : StdRand SR}
    {SH : StringHash} {SS : StdSort} nonce_fuel inPort d h (w : Node R RW SR) ex :
  pit_wf (m_pit (n_engine w)) -> return_ports d w <> ∅ ->
  judgeNameIsTrace (d_name d) = true -> 0 < lease d w ->
  (validateRouteLifetime (MicroSeconds (lease d w)) (n_engine w);; getTraceSequence d) = inl ex ->
  fe_dispatch nonce_fuel (ProcessDataAfterDelay inPort d h) w = (consumed d w, inl ex).
Proof.
  intros Hwf Hne Ht Hl Hex. cbn [fe_dispatch]. rewrite data_hit by done. rewrite Ht. cbn [andb].
  destruct (Z.leb_spec (lease d w) 0); [lia|]. unfold before_pass2. rewrite Ht.
  unfold handleTraceData, fe_get. rewrite run_gets.
  change (validateRouteLifetime (MicroSeconds (lease d w)) (n_engine (consumed d w)))
    with (validateRouteLifetime (MicroSeconds (lease d w)) (n_engine w)).
  destruct (validateRouteLifetime _ _) as [ex'|[]]; cbn in Hex; [by injection Hex as ->|].
  rewrite run_lift_inr. by rewrite Hex.
Qed.

(** An Interest handed to the stateful module is remembered first.  A nonce
    that the entry of its name already carries only counts a duplicate: nothing is
    sent and nothing is queued.  Otherwise a cached Data answers it on the port it
    came from, and without one exactly one event is queued, after the stateful
    delay, with the header of its own name.  It throws only what the table throws
    for a nonce of an odd size, with nothing remembered, sent or queued. *)
Theorem stateful_interest_spec {R RW SR} {SH : StringHash} inPort i h
    (w : Node R RW SR) :
  header_wf h -> u16_range inPort ->
  let e := n_engine w in
  let ev := ProcessInterestAfterDelay inPort i
              (setPacketInPort inPort (computeNameHashes (i_name i) h)) in
  let run := processStatefulInterest inPort i h w in
  let w' := run.1 in
  event_ok ev /\
  match PendingInterestTable.insert (n_wires w) (m_currentTs (n_sim w)) i inPort (m_pit e) with
  | inl ex => run.2 = inl ex /\ m_pit (n_engine w') = m_pit e /\ n_sent w' = n_sent w /\
      n_sim w' = n_sim w
  | inr (pit, res) =>
      run.2 = inr tt /\ m_pit (n_engine w') = pit /\
      match status res, ContentStore.find (i_name i) (m_cs e) with
      | Duplicate, _ => n_sent w' = n_sent w /\ n_sim w' = n_sim w
      | _, Some d => n_sim w' = n_sim w /\
          n_sent w' = n_sent w ++ transmit (m_portTable e) [inPort] (data_header d) (d_wire d)
      | _, None => n_sent w' = n_sent w /\
          n_sim w' = (Schedule (m_statefulDelay e) ev (n_sim w)).1
      end
  end.
Proof.
  intros Hh Hp e ev run w'. split; [split; [by apply header_wf_interest|done]|]. subst w' run.
  destruct (processStatefulInterest_inserts inPort i h w)
    as (w1 & _ & Hpit & _ & -> & Hs & Hn & _ & Hpt). fold e.
  destruct (PendingInterestTable.insert _ _ _ _ _) as [ex|[pit res]]; [done|].
  assert (negb (accepted res) = match status res with Duplicate => true | _ => false end) as ->
    by (by destruct res as [[] ?]).
  unfold fe_count, fe_upd, fe_schedule, sendDataToPort.
  destruct (status res);
    [destruct (ContentStore.find (i_name i) (m_cs e)) as [d|]..|];
    rewrite ?run_modify, ?sendToPort_run; (split; [done|]); (split; [done|]);
    try (split; [by rewrite <-Hn|by rewrite <-Hs]).
  all: split; [by rewrite <-Hs|]; rewrite <-Hn; fold e in Hpt; by rewrite <-Hpt.
Qed.

(** C26: a Trace update resends at most the configured number of the Interests
    remembered under its prefix, the first ones in name order: for each, one event
    is queued that sends the Interest with another nonce to the new port.  The
    loop ends whenever the generator keeps yielding new words.  Renewing a
    four-octet nonce renews it in the remembered Interest, too: its old nonce is
    forgotten.  The first of them with a nonce that cannot be read ends the loop with the
    exception of [getNonce]: the ones before it are resent, it and the ones behind it are not. *)
Theorem pulls_bounded {R RW SR} {RWi : RandomWord RW} {SH : StringHash} nonce_fuel prefix port
    (w : Node R RW SR) :
  good_words (RW := RW) nonce_fuel -> node_inv w ->
  let e := n_engine w in
  let st := n_wires w in
  let chosen := take (Z.to_nat (m_interestReforwardingLimit e)) (findByPrefix prefix (m_pit e)) in
  let run := pullPendingInterests nonce_fuel prefix port w in
  let pulled l' w' := n_sim w' = queue_pulls port l' (n_sim w) /\ n_sent w' = n_sent w /\
    n_engine w' = e <| fe_counters ::= fun cs =>
      Nat.iter (length l') (bump pendingPullsScheduled) (bump pullInvocations cs) |> in
  (Forall (fun i => is_Some (nonce_number st i)) chosen ->
   exists w' l', run = (w', inr tt) /\
    Z.of_nat (length l') <= Z.max 0 (m_interestReforwardingLimit e) /\
    Forall2 (renewed st (n_wires w')) chosen l' /\ pulled l' w') /\
  (forall before i behind o ex, chosen = before ++ i :: behind ->
   Forall (fun i => is_Some (nonce_number st i)) before -> nonce_octets st i = Some o -> getNonce o = inl ex ->
   exists w' l', run = (w', inl ex) /\
    Z.of_nat (length l') < Z.max 0 (m_interestReforwardingLimit e) /\
    Forall2 (renewed st (n_wires w')) before l' /\ pulled l' w').
Proof.
  intros Hg Hw e st chosen run pulled. unfold run, pullPendingInterests, fe_get, fe_count, fe_upd.
  rewrite run_gets. cbv zeta. rewrite run_modify. fold e chosen. set (w1 := over _ w).
  assert (NoDup (buffers chosen)) as Hnd.
  { pose proof (pit_buffers_distinct prefix _ _ (ni_wires _ Hw)) as Hnd. fold e in Hnd.
    rewrite <-(take_drop (Z.to_nat (m_interestReforwardingLimit e)) (findByPrefix _ _)) in Hnd.
    unfold buffers in Hnd. rewrite omap_app in Hnd. by apply NoDup_app in Hnd as [Hnd _]. }
  assert (Z.of_nat (length chosen) <= Z.max 0 (m_interestReforwardingLimit e)) as Hlim
    by (subst chosen; rewrite length_take; lia).
  assert (forall w' l', n_engine w' = (n_engine w1) <| fe_counters ::= Nat.iter (length l') (bump pendingPullsScheduled) |> ->
    n_sim w' = queue_pulls port l' (n_sim w1) -> n_sent w' = n_sent w1 -> pulled l' w') as Hpulled
    by (intros w' l' H1 H2 H3; split_and!; [exact H2|exact H3|by rewrite H1]).
  split.
  - intros Hread.
    destruct (pull_loop nonce_fuel port chosen w1 Hg Hnd Hread) as (w' & l' & E & Hl & _ & Hs & Hn & He).
    exists w', l'. split; [exact E|]. pose proof (Forall2_length _ _ _ Hl) as Hlen. rewrite Hlen in He, Hlim.
    split; [exact Hlim|]. split; [exact Hl|by apply Hpulled].
  - intros before i behind o ex Hc Hread Ho Hex. rewrite Hc in Hnd, Hlim |- *.
    unfold buffers in Hnd. rewrite omap_app in Hnd. apply NoDup_app in Hnd as (Hnd & Hdis & _).
    destruct (pull_loop nonce_fuel port before w1 Hg Hnd Hread) as (w' & l' & E & Hl & Hrest & Hs & Hn & He).
    exists w', l'. pose proof (Forall2_length _ _ _ Hl) as Hlen. rewrite Hlen in He.
    rewrite length_app, Hlen in Hlim. cbn [length] in Hlim.
    split; [|split; [lia|split; [exact Hl|by apply Hpulled]]].
    rewrite for_each_app. rewrite (run_seq _ _ _ _ _ E). cbn [for_each]. rewrite run_assoc.
    assert (refresh nonce_fuel i w' = (w', inl ex)) as Er.
    { unfold refresh, refreshNonce. replace (nonce_octets (n_wires w') i) with (nonce_octets st i).
      - rewrite Ho. cbn [mbind]. by rewrite Hex.
      - unfold nonce_octets. destruct (i_nonce i) as [| |b] eqn:Eb; [done..|]. rewrite Hrest; [done|].
        intros Hin. apply (Hdis b Hin). cbn [omap list_omap]. unfold i_buffer at 1. rewrite Eb. left. }
    by rewrite (run_raise _ _ _ _ _ Er).
Qed.

(** ** The properties on a small node *)
#[local] Existing Instances demo_streams counter_words counter_rand sum_hash
  InsertionSort.insertion_sort InsertionSort.insertion_sort_laws.

Definition demo_Interest (buffer : Z) : Interest := mkInterest demo_leaf (WireNonce buffer) 4000 demo_rest.

Definition demo_header (name : Name) : PacketHeader := PacketHeader_of_name name.

Lemma demo_header_wf name : header_wf (demo_header name).
Proof. apply computeNameHashes_wf, header_default_wf. Qed.

(** The demo node with a temporary route for [/a] over ports 2 and 3. *)
Definition demo_steered : Node Z Z Z :=
  over (fun c : LocalRouteController =>
    c <| m_temporaryFib := {[ take 1 demo_leaf := {[ 2 := 100; 3 := 100 ]} ]} |>)
    (demo_node <| n_wires := {[ 0 := nonce_memory 7 ]} |> <| n_nextWire := 1 |>).

Lemma demo_switch_refines : switch_refines (view demo_steered) ∅.
Proof. exact switch_booted_refines. Qed.

Lemma no_routes_shaped : routes_prefix_shaped ∅.
Proof. intros key [x Hx]. by rewrite lookup_empty in Hx. Qed.

Lemma interest_forwarded_witness :
  exists w', processInterestAfterDelay 3 (demo_Interest 0) (demo_header demo_leaf) demo_steered
    = (w', inr tt) /\
    n_sent w' = [mkSent 102 (out_header demo_leaf) demo_interest_octets].
Proof.
  destruct (interest_forwarded 3 (demo_Interest 0) (demo_header demo_leaf) demo_steered ∅
    demo_interest_octets) as (w' & E & N & _).
  - vm_compute. reflexivity.
  - exact demo_switch_refines.
  - exact no_routes_shaped.
  - split; [apply demo_header_wf|reflexivity].
  - exists w'. split; [exact E|]. rewrite N. vm_compute. reflexivity.
Defined.

(** The demo node after an Interest with nonce 7 for a name came in on port 2, and
    with the buffer of another Interest of the same nonce. *)
Definition demo_remembering (name : Name) : Node Z Z Z :=
  over (fun e : ForwardingEngine Z =>
    e <| m_pit := {[ name := mkPitEntry (mkInterest name (WireNonce 0) 4000 demo_rest)
                             [mkIngress 2 0 4000000] ]} |>)
    (demo_node <| n_wires := {[ 0 := nonce_memory 7; 1 := nonce_memory 7 ]} |> <| n_nextWire := 2 |>).

Definition demo_pending : Node Z Z Z := demo_remembering demo_leaf.

Lemma demo_remembered name n e :
  m_pit (n_engine (demo_remembering name)) !! n = Some e ->
  n = name /\ e = mkPitEntry (mkInterest name (WireNonce 0) 4000 demo_rest) [mkIngress 2 0 4000000].
Proof.
  change (m_pit (n_engine (demo_remembering name))) with
    ({[ name := mkPitEntry (mkInterest name (WireNonce 0) 4000 demo_rest) [mkIngress 2 0 4000000] ]}
       : PendingInterestTable).
  by intros [-> ->]%lookup_singleton_Some.
Qed.

Lemma demo_remembering_inv name : node_inv (demo_remembering name).
Proof.
  destruct demo_node_ok as [[H1 H2 H3 H4 H5 H6] _ _].
  split; [exact H1|exact H2|exact H3| |exact H5|].
  - by apply map_Forall_singleton.
  - split.
    + intros n e He. apply demo_remembered in He as [-> ->]. exists 0. split; [done|].
      change (0 < 2). lia.
    + intros n m e f He Hf _. apply demo_remembered in He as [-> _].
      by apply demo_remembered in Hf as [-> _].
Qed.

Definition demo_Data : Data := mkData demo_leaf [Byte.x68; Byte.x69] demo_data_octets (Some 3).

Lemma data_forwarded_witness :
  exists w', processDataAfterDelay 2 3 demo_Data (demo_header demo_leaf) demo_pending
    = (w', inr tt) /\
    n_sent w' = [mkSent 102 (data_header demo_Data) demo_data_octets].
Proof.
  destruct (data_forwarded 2 3 demo_Data (demo_header demo_leaf) demo_pending (demo_remembering_inv _)
    (demo_header_wf _)) as (_ & _ & H).
  destruct H as [_ H].
  - intros He. assert (2 ∈ return_ports demo_Data demo_pending) as Hin by (vm_compute; reflexivity).
    rewrite He in Hin. by apply elem_of_empty in Hin.
  - discriminate.
  - destruct H as (w' & E & _ & N); [reflexivity|]. exists w'. split; [exact E|]. rewrite N.
    vm_compute. reflexivity.
Defined.

Lemma reception_total_witness :
  node_inv demo_node /\
  onReceiveRawPacket 2 (Serialize header_default ++ [Byte.x07]) demo_node
    = fe_count malformedPackets (passed demo_node).
Proof.
  split; [apply demo_node_ok|].
  destruct (reception_total 2 (Serialize header_default ++ [Byte.x07]) demo_node) as (_ & _ & _ & H & _).
  - apply demo_node_ok.
  - split; [discriminate|reflexivity].
  - rewrite H; [|vm_compute; reflexivity|vm_compute; reflexivity]. vm_compute. reflexivity.
Defined.

(** A Trace Data whose last component is [x]. *)
Definition demo_trace : Name :=
  [component_of_string "r"; component_of_string "trace"; component_of_string "p";
   component_of_string "x"].

Definition demo_trace_pending : Node Z Z Z := demo_remembering demo_trace.

Lemma trace_data_escapes_witness :
  exists what,
    (fe_dispatch 2 (ProcessDataAfterDelay 3 (mkData demo_trace [] [Byte.x06] None) header_default)
       demo_trace_pending).2 = inl (TlvError what).
Proof.
  eexists. rewrite (trace_data_escapes 2 3 (mkData demo_trace [] [Byte.x06] None) header_default
    demo_trace_pending (TlvError "Name component does not have the requested marker")).
  - reflexivity.
  - apply (ni_pit _ (demo_remembering_inv demo_trace)).
  - intros He.
    assert (2 ∈ return_ports (mkData demo_trace [] [Byte.x06] None) demo_trace_pending) as Hin
      by (vm_compute; reflexivity).
    rewrite He in Hin. by apply elem_of_empty in Hin.
  - vm_compute. reflexivity.
  - vm_compute. reflexivity.
  - vm_compute. reflexivity.
Defined.

Lemma stateful_interest_spec_witness :
  let run := processStatefulInterest 3 (demo_Interest 1) (demo_header demo_leaf) demo_pending in
  n_sent run.1 = [] /\ n_sim run.1 = n_sim demo_pending.
Proof.
  pose proof (stateful_interest_spec 3 (demo_Interest 1) (demo_header demo_leaf) demo_pending
    (demo_header_wf _) ltac:(by split)) as [_ H].
  assert (match PendingInterestTable.insert (n_wires demo_pending) 0 (demo_Interest 1) 3
    (m_pit (n_engine demo_pending)) with inr (_, r) => status r | inl _ => Created end = Duplicate)
    as E by (vm_compute; reflexivity).
  change (m_currentTs (n_sim demo_pending)) with 0 in H.
  destruct (PendingInterestTable.insert _ _ _ _ _) as [ex|[pit res]]; [discriminate E|].
  rewrite E in H. exact (proj2 (proj2 H)).
Defined.

Lemma demo_words_good : good_words (RW := Z) 2.
Proof.
  split; [intros r; apply u32_bounds|]. intros r old. destruct (decide (u32 r = old)) as [<-|Hne].
  - exists 1%nat. split; [lia|]. change (u32 (r + 1) <> u32 r). unfold u32. intros Hc.
    pose proof (Z.div_mod (r + 1) 4294967296). pose proof (Z.div_mod r 4294967296). lia.
  - exists 0%nat. split; [lia|exact Hne].
Qed.

Lemma pulls_bounded_witness :
  exists w' l', pullPendingInterests 2 [] 3 demo_pending = (w', inr tt) /\
    Forall2 (renewed (n_wires demo_pending) (n_wires w')) [demo_Interest 0] l'.
Proof.
  destruct (pulls_bounded 2 [] 3 demo_pending demo_words_good (demo_remembering_inv _))
    as [H _].
  destruct H as (w' & l' & E & _ & H & _).
  - constructor; [|constructor]. vm_compute. by eexists.
  - exists w', l'. split; [exact E|exact H].
Defined.

(** The demo node with a temporary route for [/a] over port 2, and no Interest yet. *)
Definition demo_hop : Node Z Z Z :=
  over (fun c : LocalRouteController =>
    c <| m_temporaryFib := {[ take 1 demo_leaf := {[ 2 := 100 ]} ]} |>) demo_node.

Lemma frames_relayed_witness :
  let i0 := mkInterestWire demo_leaf (nonce_memory 7) 4000 demo_rest in
  exists w1 i hdr w3 l o, onReceiveRawPacket 3 demo_frame demo_hop = (w1, inr tt) /\
    i_name i = demo_leaf /\ processInterestAfterDelay 3 i hdr w1 = (w3, inr tt) /\
    n_sent w3 = l /\ renewed_octets i0 o /\ Forall (fun s => s_payload s = o) l.
Proof.
  intros i0.
  assert (node_inv demo_hop) as Hw
    by (destruct demo_node_ok as [[H1 H2 H3 H4 H5 H6] _ _]; by split).
  destruct (frames_relayed 2 3 header_default (drop 2 demo_interest_octets) [] demo_hop) as [H _].
  - exact Hw.
  - split; [discriminate|reflexivity].
  - apply header_default_wf.
  - reflexivity.
  - vm_compute. discriminate.
  - destruct (H i0) as (_ & w1 & E & [[_ Ha]|(i & hdr & Hn & Hs & _ & Hrest)]); [vm_compute; reflexivity| |].
    { exfalso. destruct Ha as [[[x Hx] _]|(d & Hd & _)]; [vm_compute in Hx; discriminate Hx|vm_compute in Hd; discriminate Hd]. }
    destruct (Hrest w1 (rtc_refl _ _)) as (w3 & l & o & E3 & Hl & Ho & Hp).
    exists w1, i, hdr, w3, l, o. split; [exact E|]. split; [exact Hn|]. split; [exact E3|].
    split; [by rewrite Hl, Hs|]. split; [exact Ho|exact Hp].
Defined.

