(* ===== verification/TraceSteering.v ===== *)
(** * TraceSteering: where Interests go after a Trace Data

    What the program is for: the Data that answers a mobile producer's Trace gives
    the producer's prefix a temporary next hop at every node it crosses, and
    Interests under the prefix follow it while the generation is current. *)
From S2P Require Import Prelude Tlv Encoder Names WireFormat Simulator SimTime PacketHeader FlowTable SwitchPipeline.
From S2P Require Import SwitchSpec PortTable NameMap Packets PendingInterestTable.
From S2P Require Import TemporaryForwardingTable ContentStore ControlMessage LocalRouteController.
From S2P Require Import LocalRouteControllerSpec FlowTableController FlowTableControllerSpec.
From S2P Require Import StatefulForwarder ControllerFrames ForwardingEngine ForwardingEngineSpec.
From S2P Require Import NodeSpec ForwardingSpec.

(** The switch-side controller has not installed this generation of the prefix. *)
Definition uninstalled {R} (prefix : Name) (seq : Z) (s : FlowTableController R) : Prop :=
  forall st, m_prefixStates s !! prefix = Some st -> hasApplied st = true -> highestApplied st <> seq.

Section steering.
Context {R RW SR : Type} {US : UniformStreams R} {RWi : RandomWord RW} {SRi : StdRand SR}.
Context {SH : StringHash} {SS : StdSort} {SSL : StdSortLaws}.
Context (nonce_fuel : nat) (prefix : Name) (seq : Z).
Abbreviation node := (Node R RW SR).
Abbreviation request := (Some (on_sync_request (R := R) (RW := RW) (SR := SR))).
Abbreviation lrc w := (view (S := LocalRouteController) w).
Abbreviation ftc w := (view (S := FlowTableController R) w).
Implicit Types (w : node).

(** ** The route of one generation *)
Section hop.
Context (hop : ForwardingEntry).

(** The prefix has this generation with this hop, and the switch-side controller
    has still to install it. *)
Record steered w : Prop := {
  sd_hop : m_temporaryFib (lrc w) !! prefix = Some hop;
  sd_seq : m_seqMap (lrc w) !! prefix = Some seq;
  sd_new : uninstalled prefix seq (ftc w)
}.

(** What [steered] looks at. *)
Definition routes_seen w := (m_temporaryFib (lrc w), m_seqMap (lrc w), m_prefixStates (ftc w)).

Lemma steered_seen w w' : agree_on routes_seen w w' -> steered w -> steered w'.
Proof.
  intros H [H1 H2 H3]. pose proof (f_equal (fun x => x.1.1) H) as E1.
  pose proof (f_equal (fun x => x.1.2) H) as E2. pose proof (f_equal snd H) as E3.
  cbn [fst snd routes_seen] in *. split; [by rewrite E1|by rewrite E2|].
  unfold uninstalled. by rewrite E3.
Qed.

Lemma preserves_seen {A} (m : M node A) : respects (agree_on routes_seen) m -> preserves steered m.
Proof. intros Hm w. apply steered_seen, Hm. Qed.

Lemma seen_quiet w w' : quiet w w' -> agree_on routes_seen w w'.
Proof. intros (El & Ef & _). unfold agree_on, routes_seen. by rewrite El, Ef. Qed.

Lemma preserves_steered_quiet {A} (m : M node A) : respects quiet m -> preserves steered m.
Proof. intros Hm. apply preserves_seen. intros w. apply seen_quiet, Hm. Qed.

Lemma seen_leg l g w : agree_on routes_seen w (over (leg_over (R := R) l g) w).
Proof. unfold agree_on, routes_seen. by destruct l. Qed.

Lemma seen_create w : agree_on routes_seen w (create_uniform (R := R) w).1.
Proof. done. Qed.

Lemma steered_drop l : preserves steered (shouldDrop (R := R) l).
Proof. apply preserves_seen, respects_shouldDrop; [apply _|apply seen_leg|apply seen_create]. Qed.

Lemma steered_delay base jitter l : preserves steered (sampleDelay (R := R) base jitter l).
Proof. apply preserves_seen, respects_sampleDelay; [apply _|apply seen_leg|apply seen_create]. Qed.

Lemma steered_ftc_count c : preserves steered (ftc_count (R := R) c).
Proof. by apply preserves_seen. Qed.

Lemma steered_ftc_schedule d e : preserves steered (ftc_schedule d e).
Proof. by apply preserves_seen. Qed.

Lemma steered_ftc_get : preserves steered (ftc_get (R := R)).
Proof. apply preserves_gets. Qed.

Lemma steered_ftc_now : preserves steered ftc_now.
Proof. apply preserves_gets. Qed.
Hint Resolve steered_drop steered_delay steered_ftc_count steered_ftc_schedule steered_ftc_get
  steered_ftc_now : preserves.

(** Recording what a prefix accepted installs nothing. *)
Lemma steered_accept st :
  (hasApplied st = true -> highestApplied st <> seq) ->
  preserves steered (ftc_upd (R := R) (fun s => s <| m_prefixStates ::= <[prefix := st]> |>)).
Proof.
  intros Hst w [H1 H2 H3]. split; [done..|]. intros st' Hl.
  change (<[prefix := st]> (m_prefixStates (ftc w)) !! prefix = Some st') in Hl.
  rewrite lookup_insert_eq in Hl. by injection Hl as <-.
Qed.

Lemma steered_FlowMod m : preserves steered (schedule_FlowMod (R := R) m).
Proof. unfold schedule_FlowMod. eauto 10 with preserves. Qed.

(** Code that runs after a read of the switch-side controller. *)
Lemma steered_read {A} (k : FlowTableController R -> M node A) :
  (forall s, uninstalled prefix seq s -> preserves steered (k s)) -> preserves steered (ftc_get ≫= k).
Proof. intros Hk w Hw. apply Hk; [apply Hw|done]. Qed.

Lemma steered_acceptControl m ack :
  msg_prefix m = prefix -> msg_seq m = seq -> preserves steered (acceptControl (R := R) ack m).
Proof.
  intros Hp Hs. unfold acceptControl. pose proof (steered_FlowMod m) as Hmod.
  apply preserves_bind; [apply steered_ftc_count|intros _].
  apply preserves_bind; [apply steered_ftc_now|intros t].
  destruct (isExpiredAt t m); [apply steered_ftc_count|]. apply steered_read. intros s Hnew.
  destruct (ftc_generationGuardEnabled s); [|done]. cbv zeta. rewrite Hp, Hs.
  set (state := default PrefixState_default (m_prefixStates s !! prefix)).
  assert (hasApplied state = true -> highestApplied state <> seq) as Hstate.
  { unfold state. destruct (m_prefixStates s !! prefix) as [st|] eqn:E; [|done]. by apply Hnew. }
  clearbody state. apply preserves_bind; [by apply steered_accept|intros _].
  destruct (hasAccepted state && (seq <? _)); [apply steered_ftc_count|].
  destruct (hasAccepted state && (seq =? _)).
  - apply preserves_bind; [apply steered_ftc_count|intros _].
    destruct (negb (sameUpdate m _)); [apply steered_ftc_count|].
    destruct (hasApplied state && (highestApplied state =? seq)) eqn:Ha; [|done].
    apply andb_true_iff in Ha as [Ha ?%Z.eqb_eq]. by destruct (Hstate Ha).
  - apply preserves_bind; [by apply steered_accept|done].
Qed.

(** The request for this very generation leaves the route alone: at most it is
    queued, or a FlowMod attempt is. *)
Lemma steered_request m :
  msg_prefix m = prefix -> msg_seq m = seq ->
  preserves steered (on_sync_request (R := R) (RW := RW) (SR := SR) m).
Proof.
  intros Hp Hs. pose proof (steered_acceptControl m (Some on_sync_ack) Hp Hs) as Hacc.
  unfold on_sync_request, submitFlowUpdate. apply preserves_bind; [apply steered_ftc_count|intros _].
  apply preserves_bind; [apply steered_drop|intros drop]. destruct drop; [apply steered_ftc_count|].
  apply preserves_bind; [apply steered_ftc_get|intros s]. cbv zeta.
  apply preserves_bind; [apply steered_delay|intros delay].
  destruct (delay <=? 0); [done|apply steered_ftc_schedule].
Qed.

(** ** The ports of a Trace Data *)

Lemma seen_upd f :
  (forall s, m_temporaryFib (f s) = m_temporaryFib s /\ m_seqMap (f s) = m_seqMap s) ->
  respects (agree_on routes_seen) (upd (W := node) f).
Proof.
  intros Hf w. destruct (Hf (lrc w)) as [E1 E2]. unfold agree_on, routes_seen.
  change ((upd f w).1) with (over f w). rewrite view_over. by rewrite E1, E2.
Qed.

Lemma steered_noted w : steered w -> steered (over (noted prefix seq) w).
Proof.
  apply steered_seen. apply (seen_upd (noted prefix seq)). intros s. unfold noted.
  by destruct (m_generationGuardEnabled s).
Qed.

(** A second return port is refused as stale. *)
Lemma steered_again port ttl : preserves steered (sf_applyTraceUpdate request prefix port seq ttl).
Proof.
  unfold sf_applyTraceUpdate. cbv zeta. apply preserves_bind.
  2: { intros updated. apply preserves_bind; [|intros _; apply preserves_ret].
       destruct updated; [|apply preserves_ret]. by apply preserves_seen. }
  intros w Hw. destruct (Z.ltb_spec ttl 0) as [Hneg|Hpos].
  { unfold applyTraceUpdate. by rewrite (proj2 (Z.ltb_lt _ _) Hneg). }
  destruct (lifetime_conflict (lrc w) ttl) eqn:Hc.
  { unfold applyTraceUpdate. destruct (Z.ltb_spec ttl 0); [lia|]. cbv zeta. rewrite run_get.
    unfold lifetime_conflict in Hc. by rewrite Hc. }
  rewrite applyTraceUpdate_run by done.
  assert (held_stale (lrc w) prefix seq = true) as ->.
  { unfold held_stale. rewrite (sd_seq w Hw). apply Z.leb_refl. }
  destruct (seen_stale (lrc w) prefix seq); cbv zeta; cbn [fst].
  - revert Hw. apply steered_seen. by apply (seen_upd (count staleTraceUpdatesRejected)).
  - apply steered_noted in Hw. revert Hw. apply steered_seen.
    by apply (seen_upd (count staleTraceUpdatesRejected)).
Qed.

Lemma seen_cancel id : respects (agree_on routes_seen) (cancel (W := node) id).
Proof. done. Qed.
Lemma seen_schedule d e : respects (agree_on routes_seen) (schedule (W := node) d e).
Proof. apply respects_action. done. Qed.
Hint Resolve seen_cancel seen_schedule : respects.
Hint Extern 1 (respects _ (upd _)) => by apply seen_upd : respects.

Lemma steered_sync hashes pLen port expiry :
  preserves steered (request_sync (W := node) request prefix hashes pLen port seq expiry).
Proof.
  unfold request_sync. apply preserves_bind.
  { by apply preserves_seen, seen_upd. }
  intros _. cbv zeta. apply preserves_bind; [apply preserves_gets|intros s].
  apply preserves_bind; [|intros _; by apply steered_request].
  apply preserves_seen. unfold cancel_pending_request, get. respects.
Qed.
End hop.

(** The end of the lease an update gets, and the hop it stores. *)
Definition lease_end w (ttl : Z) : Z :=
  let lifetime := route_lifetime (lrc w) ttl in
  if 0 <? lifetime then i64 (m_currentTs (n_sim w) + lifetime) else TimePoint_max.

Definition leased_hop w (port ttl : Z) : ForwardingEntry := {[ port := lease_end w ttl ]}.

(** The controller takes this update for the prefix. *)
Record admissible w (ttl : Z) : Prop := {
  ad_ttl : 0 <= ttl;
  ad_lifetime : lifetime_conflict (lrc w) ttl = false;
  ad_seen : seen_stale (lrc w) prefix seq = false;
  ad_held : held_stale (lrc w) prefix seq = false;
  ad_new : uninstalled prefix seq (ftc w)
}.

(** The first return port gets the route. *)
Lemma steered_first port ttl w :
  lrc_wf (lrc w) -> admissible w ttl ->
  steered (leased_hop w port ttl) (sf_applyTraceUpdate request prefix port seq ttl w).1.
Proof.
  intros Hwf [Httl Hc Hseen Hheld Hnew]. unfold sf_applyTraceUpdate. cbv zeta.
  set (hashes := m_nameHashes _). set (pLen := Z.min _ _).
  set (hop := leased_hop w port ttl).
  assert (steered hop (applyTraceUpdate request prefix hashes pLen port seq ttl w).1) as Hs.
  2: { unfold mbind at 1, M_bind at 1.
       destruct (applyTraceUpdate _ _ _ _ _ _ _ _) as [w' [ex|[]]]; [done| |done].
       revert Hs. by apply steered_seen. }
  rewrite applyTraceUpdate_run by done. rewrite Hseen, Hheld. cbv zeta.
  set (w0 := over (noted prefix seq) w).
  assert (lrc w0 = noted prefix seq (lrc w)) as Hv0 by apply view_over.
  set (lifetime := route_lifetime (lrc w) ttl). set (expiry := route_expiry _ _).
  destruct (admit_route_run prefix port seq lifetime expiry w0) as (w2 & id & E2 & Hv2 & _).
  { rewrite Hv0. by apply lrc_wf_noted. }
  rewrite (run_seq _ _ _ _ _ E2).
  assert (steered hop w2) as H2.
  { split.
    - rewrite Hv2. apply lookup_insert_eq.
    - rewrite Hv2. apply lookup_insert_eq.
    - pose proof (inv_admit_route (fun w => uninstalled prefix seq (ftc w)) (fun _ => True)) as Hi.
      assert (uninstalled prefix seq (ftc (admit_route prefix port seq lifetime expiry w0).1)) as Hu
        by (apply Hi; done).
      by rewrite E2 in Hu. }
  revert H2. apply preserves_bind; [apply steered_sync|intros _; apply preserves_ret].
Qed.

(** *** The whole handler *)
Lemma after_run {A B} (I : node -> Prop) (m : M node A) (k : A -> M node B) w :
  I (m w).1 -> (forall a, preserves I (k a)) -> I ((m ≫= k) w).1.
Proof. intros Hm Hk. unfold mbind, M_bind. destruct (m w) as [w' [ex|a]]; [done|by apply Hk]. Qed.

Abbreviation handle := (handleTraceData (R := R) (RW := RW) (SR := SR) nonce_fuel).

(** What the loop does once it knows whether the update was taken. *)
Definition after_update (port : Z) (updated : bool) : M node unit :=
  e ← fe_get;
  (if m_experimentTelemetryEnabled e && updated then
     fe_upd (fun e => e <| m_tempSteerPending := true |> <| m_tempSteerSeq := seq |>
               <| m_tempSteerPrefix := prefix |>)
   else mret tt);;
  if updated && m_enableInterestReforwarding e then pullPendingInterests nonce_fuel prefix port
  else mret tt.

Lemma steered_after_update hop port updated : preserves (steered hop) (after_update port updated).
Proof.
  apply preserves_steered_quiet. pose proof (quiet_pull (R := R) (RW := RW) (SR := SR) nonce_fuel prefix port).
  unfold after_update, fe_get.
  assert (forall f, (forall e, m_temporaryController (m_statefulModule (f e)) = m_temporaryController (m_statefulModule e)
     /\ m_centralController (f e) = m_centralController e) ->
    respects quiet (fe_upd (R := R) (RW := RW) (SR := SR) f)) as Hupd by apply node_quiet_upd.
  respects.
Qed.

Lemma handleTraceData_steers inPort d ports ttl p w :
  lrc_wf (lrc w) -> admissible w ttl ->
  validateRouteLifetime (MicroSeconds ttl) (n_engine w) = inr tt -> getTraceSequence d = inr seq ->
  extractDataNameFromTrace (d_name d) = prefix -> prefix <> [] ->
  head (set_elements ports) = Some p ->
  steered (leased_hop w p ttl) (handle inPort d ports ttl w).1.
Proof.
  intros Hwf Had Hv Hseq Hx Hne Hp. unfold handleTraceData, fe_get. rewrite run_gets, Hv, Hseq.
  rewrite !run_lift_inr, Hx. cbv zeta. rewrite bool_decide_false by done.
  set (w0 := over (W := node) (fun e : ForwardingEngine R => e <| fe_counters ::= bump traceUpdatesHandled |>) w).
  assert (forall A (k : unit -> M node A), (fe_count traceUpdatesHandled ≫= k) w = k tt w0) as E by done.
  rewrite E. clear E. destruct (set_elements ports) as [|p' l]; [done|]. injection Hp as ->.
  cbn [for_each]. assert (steered (leased_hop w p ttl)
    (sf_applyTraceUpdate request prefix p seq ttl w0).1) as Hs.
  { destruct Had. by apply (steered_first p ttl w0). }
  set (hop := leased_hop w p ttl) in *.
  apply after_run; [apply after_run; [exact Hs|]|intros _; apply preserves_for_each; intros port].
  - intros updated. apply steered_after_update.
  - apply preserves_bind; [apply steered_again|intros updated; apply steered_after_update].
Qed.
(** A Trace Data whose update this node takes. *)
Record valid_trace (d : Data) w : Prop := {
  vt_trace : judgeNameIsTrace (d_name d) = true;
  vt_prefix : extractDataNameFromTrace (d_name d) = prefix;
  vt_named : prefix <> [];
  vt_seq : getTraceSequence d = inr seq;
  vt_wanted : return_ports d w <> ∅;
  vt_lease : 0 < lease d w;
  vt_lifetime : validateRouteLifetime (MicroSeconds (lease d w)) (n_engine w) = inr tt;
  vt_admissible : admissible w (lease d w)
}.

Lemma data_steers inPort d h p w :
  pit_wf (m_pit (n_engine w)) -> lrc_wf (lrc w) -> valid_trace d w ->
  head (set_elements (return_ports d w)) = Some p ->
  steered (leased_hop w p (lease d w)) (processDataAfterDelay nonce_fuel inPort d h w).1.
Proof.
  intros Hpit Hwf [Ht Hx Hn Hseq Hne Hl Hv Had] Hp. rewrite data_hit by done. rewrite Ht. cbn [andb].
  destruct (Z.leb_spec (lease d w) 0); [lia|].
  assert (steered (leased_hop w p (lease d w)) (before_pass2 nonce_fuel inPort d w).1) as Hs.
  { unfold before_pass2. rewrite Ht. destruct Had.
    by apply (handleTraceData_steers inPort d _ _ p (consumed d w)). }
  destruct (before_pass2 nonce_fuel inPort d w) as [w2 [ex|[]]]; [done|].
  revert Hs. apply preserves_steered_quiet.
  pose proof (@quiet_zoom_switch R RW SR) as Hsw.
  pose proof (quiet_send (R := R) (RW := RW) (SR := SR)). unfold sendDataToPort. respects.
Qed.

(** Everything the route controller does with the Data are steps of its machine. *)
Lemma data_route_ok s0 inPort d h :
  preserves (route_ok s0) (processDataAfterDelay (R := R) (RW := RW) (SR := SR) nonce_fuel inPort d h).
Proof.
  apply walk_processDataAfterDelay.
  - intros w1 w2 (Hl & _). by apply route_ok_steps, route_steps_same.
  - intros p port q ttl w1. apply route_ok_steps. exact (sf_applyTraceUpdate_steps _ _ _ _ w1).
Qed.

(** ** Interests under the prefix *)
Lemma hops_found w name port until :
  m_enableTemporaryFib (n_engine w) = true -> m_temporaryFib (lrc w) !! prefix = Some {[ port := until ]} ->
  name_small name -> prefix `prefix_of` name -> m_currentTs (n_sim w) < until ->
  (forall q, q `prefix_of` name -> (length prefix < length q)%nat ->
     live (m_currentTs (n_sim w)) (m_temporaryFib (lrc w)) q = ∅) ->
  temporary_hops w name = Some {[ port := until ]}.
Proof.
  intros Hen Hf Hs Hp Ht Hlong. unfold temporary_hops. rewrite Hen. set (t := m_currentTs (n_sim w)) in *.
  assert (live t (m_temporaryFib (lrc w)) prefix = {[ port := until ]}) as Hl.
  { unfold live. rewrite Hf. cbn. unfold pruneExpiredHops. by rewrite map_filter_singleton_True. }
  assert (live t (m_temporaryFib (lrc w)) prefix <> ∅) as Hne by (rewrite Hl; apply map_non_empty_singleton).
  pose proof (proj2 (findLongestPrefix_spec t name (m_temporaryFib (lrc w)) Hs)) as H.
  destruct (findLongestPrefix t name (m_temporaryFib (lrc w))).2 as [e|].
  - destruct H as (q & Hq & -> & Hqne & Hmax). specialize (Hmax prefix Hp Hne).
    destruct (decide (length prefix < length q)%nat) as [Hlt|Hge]; [by destruct Hqne; apply Hlong|].
    assert (q = prefix) as ->; [|by rewrite Hl].
    destruct Hp as [k1 ->], Hq as [k2 E]. apply app_inj_1 in E as [-> _]; [done|lia].
  - by destruct Hne; apply H.
Qed.

Lemma egress_single t routes hashes port :
  1 <= port <= 32 -> interest_egress t routes hashes {[ port ]} = {[ port ]}.
Proof.
  intros Hp. assert (wired {[ port ]} = {[ port ]}) as Hw.
  { apply leibniz_equiv, set_equiv. intros x. unfold wired. rewrite elem_of_filter, elem_of_singleton.
    split; [tauto|]. intros ->. done. }
  unfold interest_egress. rewrite Hw, bool_decide_false; [done|]. set_solver.
Qed.

Lemma onward_single inPort port :
  onward inPort {[ port ]} = if decide (port = inPort) then [] else [port].
Proof.
  assert (set_elements {[ port ]} = [port]) as E.
  { unfold set_elements. by rewrite elements_singleton. }
  unfold onward. rewrite E. clear E.
  destruct (decide (port = inPort)) as [E|E].
  - by rewrite filter_cons_False by (by intros []).
  - by rewrite filter_cons_True.
Qed.

(** The Interest goes to the one port, and to no other. *)
Lemma interest_steered w port until inPort i h payload :
  node_inv w -> m_enableTemporaryFib (n_engine w) = true ->
  m_temporaryFib (lrc w) !! prefix = Some {[ port := until ]} -> 1 <= port <= 32 ->
  wireEncode (n_wires w) i = inr payload -> event_ok (ProcessInterestAfterDelay inPort i h) ->
  name_small (i_name i) -> prefix `prefix_of` i_name i -> m_currentTs (n_sim w) < until ->
  (forall q, q `prefix_of` i_name i -> (length prefix < length q)%nat ->
     live (m_currentTs (n_sim w)) (m_temporaryFib (lrc w)) q = ∅) ->
  exists w', processInterestAfterDelay inPort i h w = (w', inr tt) /\
    n_sent w' = n_sent w ++ transmit (m_portTable (n_engine w))
                  (if decide (port = inPort) then [] else [port]) (out_header (i_name i)) payload.
Proof.
  intros Hw Hen Hf Hport Hpay Hev Hs Hp Ht Hlong. destruct Hw as [_ _ (routes & Hr & Hsh) _ _ _].
  destruct (interest_forwarded_run inPort i h w routes payload Hpay Hr Hsh Hev) as (w' & E & N & _).
  exists w'. split; [exact E|]. rewrite N, (hops_found w (i_name i) port until) by done.
  cbn [fmap option_fmap option_map default from_option id]. rewrite dom_singleton_L.
  by rewrite egress_single, onward_single.
Qed.
End steering.

(** ** Properties *)
Abbreviation routes_of w := (view (S := LocalRouteController) w).

(** C3: once a node has taken a valid Trace Data (a generation it admits, a positive lease
    that agrees with the configuration, an Interest waiting for it), the prefix it traces has, whatever
    the switch-side controller does with the request and whether or not the
    handler fails later, exactly one temporary next hop: the lowest port the
    Data returns to, until the end of the lease.  If the generation guard of the route
    controller is on (it is off by default), this stays the only hop that this generation ever
    has, through any further packets and events; and while it is there, the temporary table
    is enabled, the port is one of 1 to 32 and the lease lasts, an Interest under the
    prefix for which no longer prefix has a live hop is sent to that port and nowhere else, and not at
    all if it came from there. *)
Theorem trace_steers {R RW SR} {US : UniformStreams R} {RWi : RandomWord RW} {SRi : StdRand SR}
    {SH : StringHash} {SS : StdSort} {SSL : StdSortLaws} nonce_fuel prefix seq inPort d h
    (w : Node R RW SR) :
  node_ok w -> valid_trace prefix seq d w ->
  let w1 := (processDataAfterDelay nonce_fuel inPort d h w).1 in
  let until := lease_end w (lease d w) in
  exists port, head (set_elements (return_ports d w)) = Some port /\
    m_temporaryFib (routes_of w1) !! prefix = Some {[ port := until ]} /\
    m_seqMap (routes_of w1) !! prefix = Some seq /\
    (m_generationGuardEnabled (routes_of w) = true ->
     forall w2 hops, rtc (node_step nonce_fuel) w1 w2 -> m_seqMap (routes_of w2) !! prefix = Some seq ->
       m_temporaryFib (routes_of w2) !! prefix = Some hops ->
       hops = {[ port := until ]} /\
       forall inPort' i h' payload, m_enableTemporaryFib (n_engine w2) = true -> 1 <= port <= 32 ->
         wireEncode (n_wires w2) i = inr payload -> event_ok (ProcessInterestAfterDelay inPort' i h') ->
         name_small (i_name i) -> prefix `prefix_of` i_name i -> m_currentTs (n_sim w2) < until ->
         (forall q, q `prefix_of` i_name i -> (length prefix < length q)%nat ->
            live (m_currentTs (n_sim w2)) (m_temporaryFib (routes_of w2)) q = ∅) ->
         exists w3, processInterestAfterDelay inPort' i h' w2 = (w3, inr tt) /\
           n_sent w3 = n_sent w2 ++ transmit (m_portTable (n_engine w2))
             (if decide (port = inPort') then [] else [port]) (out_header (i_name i)) payload).
Proof.
  intros [Ht [Hr Hn] _] Hd w1 until. assert (exists port, head (set_elements (return_ports d w)) = Some port)
    as [port Hp].
  { destruct (set_elements (return_ports d w)) as [|p l] eqn:E; [|by exists p].
    apply set_elements_empty in E. by destruct (vt_wanted _ _ _ _ Hd). }
  destruct (data_steers nonce_fuel prefix seq inPort d h port w (ni_pit _ Ht) Hr Hd Hp) as [H1 H2 _].
  fold w1 in H1, H2. exists port. split_and!; [done..|]. intros G w2 hops Hs Hseq Hf.
  destruct (data_route_ok nonce_fuel (routes_of w) inPort d h w) as [Hr1 Hsteps]; [by split|].
  fold w1 in Hr1, Hsteps.
  assert (only_hop prefix seq {[ port := until ]} (routes_of w2)) as Ho.
  { apply (only_hop_steps _ _ _ (routes_of w1)).
    - apply (node_route_ok nonce_fuel (routes_of w1) w1 w2 Hs). by split.
    - apply (held_noted_steps _ _ Hsteps) in Hn.
      assert (m_generationGuardEnabled (routes_of w1) = true) as G1 by (by rewrite <-G; apply steps_guard).
      split; [done|by apply Hn|]. intros e _. rewrite H1. by intros [= <-]. }
  rewrite (oh_entry _ _ _ _ Ho hops Hseq Hf) in Hf |- *. split; [done|].
  intros inPort' i h' payload. intros. eapply interest_steered; try done.
  clear -Hs Ht SSL. apply (inv_processDataAfterDelay nonce_fuel inPort d h) in Ht. fold w1 in Ht.
  induction Hs; eauto using node_inv_step.
Qed.

(** A node that remembers the Trace Interest of generation 7 of [/a/x], from port 2;
    its Data comes in on port 3, and then an Interest for [/a/x] on port 1. *)
#[local] Existing Instances demo_streams counter_words counter_rand sum_hash
  InsertionSort.insertion_sort InsertionSort.insertion_sort_laws.

Definition demo_update : Name :=
  appendSequenceNumber (makeTracePrefix (take 1 demo_leaf) (drop 1 demo_leaf)) 7.

Definition demo_answer : Data := mkData demo_update [] [Byte.x06; Byte.x00] None.

Lemma demo_remembering_ok name : node_ok (demo_remembering name).
Proof.
  destruct demo_node_ok as [_ Hr Hf]. split; [apply demo_remembering_inv|exact Hr|].
  intros G. split; [exact (proj1 (Hf G))|]. intros id m Hq. by apply elem_of_nil in Hq.
Qed.

Lemma demo_valid_trace : valid_trace demo_leaf 7 demo_answer (demo_remembering demo_update).
Proof.
  split; try (vm_compute; reflexivity).
  - discriminate.
  - intros E. assert (2 ∈ return_ports demo_answer (demo_remembering demo_update)) as Hin
      by (vm_compute; reflexivity).
    rewrite E in Hin. by apply elem_of_empty in Hin.
  - split; try (vm_compute; reflexivity); [vm_compute; discriminate|]. intros st Hst.
    change (m_prefixStates (view (demo_remembering demo_update))) with (∅ : gmap Name PrefixState) in Hst.
    by rewrite lookup_empty in Hst.
Qed.

Lemma trace_steers_witness :
  let w1 := (processDataAfterDelay 2 3 demo_answer (demo_header demo_update) (demo_remembering demo_update)).1 in
  exists w3, processInterestAfterDelay 1 (demo_Interest 0) (demo_header demo_leaf) w1 = (w3, inr tt) /\
    n_sent w3 = n_sent w1 ++ [mkSent 102 (out_header demo_leaf) demo_interest_octets].
Proof.
  intros w1. destruct (trace_steers 2 demo_leaf 7 3 demo_answer (demo_header demo_update)
    (demo_remembering demo_update) (demo_remembering_ok _) demo_valid_trace) as (port & Hp & Hf & Hs & H).
  assert (port = 2) as ->.
  { assert (head (set_elements (return_ports demo_answer (demo_remembering demo_update))) = Some 2) as E
      by (vm_compute; reflexivity). rewrite E in Hp. by injection Hp. }
  destruct (H eq_refl w1 _ (rtc_refl _ _) Hs Hf) as [_ Hi].
  destruct (Hi 1 (demo_Interest 0) (demo_header demo_leaf) demo_interest_octets) as (w3 & E & N).
  - vm_compute. reflexivity.
  - split; discriminate.
  - vm_compute. reflexivity.
  - split; [apply demo_header_wf|reflexivity].
  - vm_compute. reflexivity.
  - exists []. reflexivity.
  - vm_compute. reflexivity.
  - intros q [k E] Hlen. apply (f_equal length) in E. rewrite length_app in E. cbn in E, Hlen. lia.
  - exists w3. split; [exact E|]. rewrite N. reflexivity.
Defined.
