(* ===== verification/EndToEnd.v ===== *)
(** * EndToEnd: a packet from one node with NFD to another through a Statim node

    The components of the earlier files put together: the link service and the device
    transport of the sender, reception, delay and forwarding in a Statim node, and the
    transport and the link service of the receiver.  The link between two devices carries
    the octets of the header and the payload. *)
From S2P Require Import Prelude PacketHeader Tlv Encoder Block BlockSpec Names NameWire WireFormat WireFormatSpec PacketWireSpec LpPacket LpPacketSpec LpFragmenter LpFragmenterSpec Simulator LpReassembler LinkService NetDeviceTransport LinkServiceSpec.
From S2P Require Import SimTime FlowTable SwitchPipeline SwitchSpec PortTable NameMap PendingInterestTable TemporaryForwardingTable ContentStore LocalRouteController FlowTableController StatefulForwarder.
From S2P Require Import Packets ForwardingEngine ForwardingEngineSpec NodeSpec ForwardingSpec.

(** A face that is ready for a frame. *)
Definition ready {RW} (l3 : L3Options) (s : Face RW) : Prop :=
  statim_face l3 s /\ 1 <= r_nMaxFragments (f_reassembler s).

(** What the octets of a frame become at a face: exactly one packet for the forwarder. *)
Definition delivers {RW} (l3 : L3Options) (frame : list byte) (p : NetPacket) : Prop :=
  forall (engine : list byte -> M (Face RW) unit) (s : Face RW), ready l3 s ->
    exists s', receiveFromNetDevice l3 engine frame s = (s', inr tt) /\ f_up s' = f_up s ++ [p] /\
      f_device s' = f_device s.

(** The octets on the link. *)
Definition frame_octets (f : Sent) : list byte := Serialize (s_header f) ++ s_payload f.

Section end_to_end.
Context {R RW SR WR : Type} `{!RandomWord WR} `{US : !UniformStreams R} `{!RandomWord RW} `{!StdRand SR} `{!StringHash}.
Abbreviation node := (Node R RW SR).
Abbreviation face := (Face WR).

Lemma packet_header_wf n : header_wf (PacketHeader_of_name n) /\ PacketHeader.m_type (PacketHeader_of_name n) = UNPROCESSED /\
  m_switchId (PacketHeader_of_name n) = 0.
Proof. split; [apply computeNameHashes_wf, header_default_wf|done]. Qed.

Lemma out_header_wf n : header_wf (ForwardingEngine.out_header n) /\
  PacketHeader.m_type (ForwardingEngine.out_header n) = UNPROCESSED /\ m_switchId (ForwardingEngine.out_header n) = 0.
Proof. split; [|done]. apply setters_wf; [|done]. by apply setters_wf; [apply packet_header_wf|]. Qed.

Lemma data_header_wf d :
  header_wf (data_header d) /\ PacketHeader.m_type (data_header d) = UNPROCESSED /\
  m_switchId (data_header d) = u8 (default 0 (d_hopCount d)).
Proof.
  unfold data_header. destruct (out_header_wf (d_name d)) as (H1 & H2 & H3). destruct (d_hopCount d) as [n|]; [|done].
  split; [apply setters_wf; [done|apply u8_bounds]|done].
Qed.

(** The frame of a Data, or an Interest, at a face. *)
Lemma frame_delivered l3 h t v more (s : face) :
  ready l3 s -> header_wf h -> PacketHeader.m_type h = UNPROCESSED ->
  t = tlv.Interest \/ t = tlv.Data -> octets v <= MAX_SIZE_OF_BLOCK_FROM_STREAM ->
  forall engine, takes_in t (element t v) (m_switchId h)
    (receiveFromNetDevice l3 engine (Serialize h ++ element t v ++ more) s) s.
Proof. intros [Hs Hmax] Hh Hty Ht Hv engine. apply frame_in; [done..|by rewrite Hty|done|done]. Qed.

Lemma decoded_reads {A} (decode : Block -> exn + A) t v a :
  t = tlv.Interest \/ t = tlv.Data -> octets v <= MAX_SIZE_OF_BLOCK_FROM_STREAM ->
  reads decode (element_tv t v) a -> LinkServiceSpec.decoded decode (element t v) = inr a.
Proof.
  intros Ht Hv Hr. destruct (Block_of_memory_complete (element_tv t v) (ne_ok _ (network_element_tv t v Ht Hv)))
    as (b & Eb & Hb). unfold LinkServiceSpec.decoded. cbn [element_tv el_wire] in Eb. rewrite Eb. next. by apply Hr.
Qed.

Lemma data_delivered l3 h d e d' more :
  header_wf h -> PacketHeader.m_type h = UNPROCESSED -> data_on_wire d e d' ->
  delivers (RW := WR) l3 (Serialize h ++ el_wire e ++ more) (NetData d' (hops_tags (m_switchId h))).
Proof.
  intros Hh Ht Hd engine s Hs. destruct (data_on_wire_reads d e d' Hd) as (v & -> & Hfit & Hr).
  destruct (frame_delivered l3 h tlv.Data v more s Hs Hh Ht (or_intror eq_refl) Hfit engine) as (tp & E).
  exists (handed_up nInData (NetData d' (hops_tags (m_switchId h))) (received_packet tp s)).
  split; [|done]. etrans; [exact E|]. change (tlv.Data =? tlv.Interest) with false. cbv iota.
  by rewrite (decoded_reads Data_of_block tlv.Data v d' (or_intror eq_refl) Hfit Hr).
Qed.

Lemma interest_delivered l3 h i e i' more :
  header_wf h -> PacketHeader.m_type h = UNPROCESSED -> interest_on_wire i e i' ->
  delivers (RW := WR) l3 (Serialize h ++ el_wire e ++ more) (NetInterest i' (hops_tags (m_switchId h))).
Proof.
  intros Hh Ht Hi engine s Hs. destruct (interest_on_wire_reads i e i' Hi) as (v & -> & Hfit & Hr).
  destruct (frame_delivered l3 h tlv.Interest v more s Hs Hh Ht (or_introl eq_refl) Hfit engine) as (tp & E).
  exists (handed_up nInInterests (NetInterest i' (hops_tags (m_switchId h))) (received_packet tp s)).
  split; [|done]. etrans; [exact E|]. change (tlv.Interest =? tlv.Interest) with true. cbv iota.
  by rewrite (decoded_reads Interest_wireDecode tlv.Interest v i' (or_introl eq_refl) Hfit Hr).
Qed.

Lemma transmit_devices t ports h payload :
  s_device <$> transmit t ports h payload = omap (fun p => getDevice p t) ports.
Proof.
  unfold transmit. induction ports as [|p ports IH]; [done|]. cbn [omap list_omap].
  destruct (getDevice p t); cbn [fmap option_fmap option_map list_fmap]; by rewrite ?IH.
Qed.

(** The Data with the octets of [e] as a Statim node keeps it. *)
Definition node_data (e : Element) (d : WireFormat.Data) (hops : Z) : Data :=
  mkData (da_name d) (el_value (da_content d)) (el_wire e) (Some hops).

Lemma decode_block_on_wire_data d e d' more :
  data_on_wire d e d' ->
  decode_block (el_wire e ++ more) = inr (BData (mkData (da_name d') (el_value (da_content d')) (el_wire e) None)).
Proof.
  intros (v & -> & Hfit & Hr)%data_on_wire_reads. unfold decode_block.
  destruct (fromStream_spec (element tlv.Data v ++ more)) as (Hfs & _).
  destruct (Hfs tlv.Data v (element tlv.Data v) more) as (b & Eb & Hb);
    [done|apply (ne_ok _ (network_element_tv _ v (or_intror eq_refl) Hfit))|exact Hfit|].
  change (fresh (element_tv tlv.Data v) b) in Hb. cbn [el_wire element_tv]. rewrite Eb. next.
  rewrite (fresh_type _ _ _ Hb). change (tlv.Data =? tlv.Interest) with false. change (tlv.Data =? tlv.Data) with true.
  cbv iota. unfold decode_data. rewrite (Hr b Hb). next. by rewrite (element_of_fresh _ _ Hb).
Qed.

Lemma decode_block_on_wire_interest i e i' more :
  interest_on_wire i e i' ->
  exists v, decode_block (el_wire e ++ more) = inr (BInterest v) /\ w_name v = in_name i' /\
    w_nonce v = el_value (in_nonce i') /\ w_lifetime v = in_lifetime i'.
Proof.
  intros (v & -> & Hfit & Hr)%interest_on_wire_reads. unfold decode_block.
  destruct (fromStream_spec (element tlv.Interest v ++ more)) as (Hfs & _).
  destruct (Hfs tlv.Interest v (element tlv.Interest v) more) as (b & Eb & Hb);
    [done|apply (ne_ok _ (network_element_tv _ v (or_introl eq_refl) Hfit))|exact Hfit|].
  change (fresh (element_tv tlv.Interest v) b) in Hb. cbn [el_wire element_tv]. rewrite Eb. next.
  rewrite (fresh_type _ _ _ Hb), Z.eqb_refl. unfold decode_interest. pose proof (Hr b Hb) as Ed. rewrite Ed. next.
  unfold Interest_wireDecode in Ed. apply result_bind_inr in Ed as (els & -> & _). next.
  destruct (nonce_frame _) as [before after]. eexists. split; [reflexivity|done].
Qed.

(** *** From the sender's face to the event of the node *)
Lemma data_reaches_node l3 tags (s : face) d e d' inPort (w : node) :
  statim_face l3 s -> tags_ok tags -> data_on_wire d e d' -> node_inv w -> u16_range inPort ->
  let hops := u8 (u8 (default 0 (t_hopCount tags)) + 1) in
  exists frame hdr (w1 : node),
    f_device (sendData (doSend l3) d tags s).1 = f_device s ++ [frame] /\ header_wf hdr /\
    onReceiveRawPacket inPort frame w = (w1, inr tt) /\ n_sent w1 = n_sent w /\
    n_sim w1 = (Schedule (m_statefulDelay (n_engine w))
      (ProcessDataAfterDelay inPort (node_data e d' hops) hdr) (n_sim w)).1.
Proof.
  intros Hs Htags Hd Hn Hp hops. destruct (sendData_run l3 tags s d e d' Hs Htags Hd) as (tp & E).
  set (h := setSwitchId (u8 (default 0 (t_hopCount tags))) (PacketHeader_of_name (da_name d'))) in *.
  assert (header_wf h) as Hh by (apply setters_wf; [apply packet_header_wf|apply u8_bounds]).
  assert (PacketHeader.m_type h = UNPROCESSED) as Ht by done.
  pose proof (decode_block_on_wire_data d e d' [] Hd) as Hb.
  destruct (data_on_wire_reads d e d' Hd) as (v & Ee & _). rewrite Ee in Hb. cbn [el_wire element_tv] in Hb.
  destruct (data_reception inPort h v [] _ w Hn Hp Hh Ht Hb) as (w1 & Er & Hsent & Hsim).
  exists (Serialize h ++ el_wire e), (setSwitchId hops h), w1.
  split; [by rewrite E|]. split; [apply setters_wf; [done|apply u8_bounds]|].
  rewrite app_nil_r in Er. rewrite Ee. done.
Qed.

Lemma interest_reaches_node l3 tags (s : face) i e i' inPort (w : node) :
  statim_face l3 s -> tags_ok tags -> interest_on_wire i e i' -> node_inv w -> u16_range inPort ->
  m_pit (n_engine w) !! in_name i' = None -> ContentStore.find (in_name i') (m_cs (n_engine w)) = None ->
  exists frame v ni hdr (w1 : node),
    f_device (sendInterest (doSend l3) i tags s).1 = f_device s ++ [frame] /\
    w_name v = in_name i' /\ interest_octets v = el_wire e /\
    onReceiveRawPacket inPort frame w = (w1, inr tt) /\ waits inPort v ni hdr w w1.
Proof.
  intros Hs Htags Hi Hn Hp Hpit Hcs. destruct (sendInterest_run l3 tags s i e i' Hs Htags Hi) as (tp & E).
  set (h := PacketHeader_of_name (in_name i')) in *.
  destruct (packet_header_wf (in_name i')) as (Hh & Ht & _).
  destruct (decode_block_on_wire_interest i e i' [] Hi) as (v & Hb & Hname & _).
  destruct (interest_on_wire_reads i e i' Hi) as (o & Ee & Hfit & _). rewrite Ee in Hb. cbn [el_wire element_tv] in Hb.
  pose proof (decode_block_octets tlv.Interest o [] _ ltac:(done) Hfit Hb) as Hoct. cbn beta iota in Hoct.
  destruct (interest_reception inPort h o [] v w Hn Hp Hh Ht Hb) as (w1 & Er & [[_ Ha]|(ni & hdr & Hwait)]).
  { rewrite Hname in Ha. exfalso. destruct Ha as [[[x Hx] _]|(x & Hx & _)]; [by rewrite Hpit in Hx|by rewrite Hcs in Hx]. }
  exists (Serialize h ++ el_wire e), v, ni, hdr, w1. rewrite app_nil_r in Er.
  split; [by rewrite E|]. split; [done|]. split; [by rewrite Ee|]. split; [by rewrite Ee|done].
Qed.

(** *** From the event of the node to the receivers' faces *)
Lemma frames_deliver_data l3 d e d' hops l :
  data_on_wire d e d' -> u8_range hops ->
  Forall (fun f => s_header f = data_header (node_data e d' hops) /\ s_payload f = el_wire e) l ->
  Forall (fun f => delivers (RW := WR) l3 (frame_octets f) (NetData d' (hops_tags hops))) l.
Proof.
  intros Hd Hr Hl. eapply Forall_impl; [exact Hl|]. intros f [Hh Hp]. unfold frame_octets. rewrite Hh, Hp.
  destruct (data_header_wf (node_data e d' hops)) as (H1 & H2 & H3).
  pose proof (data_delivered l3 (data_header (node_data e d' hops)) d e d' [] H1 H2 Hd) as Hdel.
  rewrite H3, app_nil_r in Hdel. cbn [default from_option id d_hopCount node_data] in Hdel. by rewrite u8_id in Hdel.
Qed.

Lemma frames_deliver_interest l3 i e i' l :
  interest_on_wire i e i' ->
  Forall (fun f => s_header f = ForwardingEngine.out_header (in_name i') /\ s_payload f = el_wire e) l ->
  Forall (fun f => delivers (RW := WR) l3 (frame_octets f) (NetInterest i' (hops_tags 0))) l.
Proof.
  intros Hi Hl. eapply Forall_impl; [exact Hl|]. intros f [Hh Hp]. unfold frame_octets. rewrite Hh, Hp.
  destruct (out_header_wf (in_name i')) as (H1 & H2 & H3).
  pose proof (interest_delivered l3 (ForwardingEngine.out_header (in_name i')) i e i' [] H1 H2 Hi) as Hdel.
  by rewrite H3, app_nil_r in Hdel.
Qed.

(** ** Properties *)

(** C9: Data from one node with NFD to the next through a Statim node, be it Data that still has to be
    encoded, Data that its application has encoded, or Data that was received and is forwarded.  The face of the
    sender puts one frame on its link; a Statim node that receives it queues exactly one event for
    it, with one more hop.  Whatever the node has become when the event runs, each frame
    it sends is received by any face of the Statim network as the Data that a receiver of the sender's
    octets reads, with one more hop again.  Data
    that is no Trace and has return ports goes to each of their devices among the ports 1 to 32. *)
Theorem data_end_to_end l3 l3' tags (s : face) d e d' inPort (w : node) :
  statim_face l3 s -> tags_ok tags -> data_on_wire d e d' -> node_inv w -> u16_range inPort ->
  let hops := u8 (u8 (default 0 (t_hopCount tags)) + 1) in
  let dn := node_data e d' hops in
  exists frame hdr (w1 : node),
    f_device (sendData (doSend l3) d tags s).1 = f_device s ++ [frame] /\
    onReceiveRawPacket inPort frame w = (w1, inr tt) /\ n_sent w1 = n_sent w /\
    n_sim w1 = (Schedule (m_statefulDelay (n_engine w)) (ProcessDataAfterDelay inPort dn hdr) (n_sim w)).1 /\
    forall nonce_fuel (w2 : node), node_inv w2 ->
      let run := processDataAfterDelay nonce_fuel inPort dn hdr w2 in
      exists l, n_sent run.1 = n_sent w2 ++ l /\
        Forall (fun f => delivers (RW := WR) l3' (frame_octets f) (NetData d' (hops_tags hops))) l /\
        (judgeNameIsTrace (da_name d') = false -> return_ports dn w2 <> ∅ ->
           run.2 = inr tt /\
           s_device <$> l = omap (fun p => getDevice p (m_portTable (n_engine w2)))
                              (set_elements (wired (return_ports dn w2)))).
Proof.
  intros Hs Htags Hd Hn Hp hops dn.
  destruct (data_reaches_node l3 tags s d e d' inPort w) as (frame & hdr & w1 & E & Hhdr & Er & Hsent & Hsim); [done..|].
  exists frame, hdr, w1. split_and!; [done..|]. intros nonce_fuel w2 Hw2 run.
  assert (forall l, Forall (fun f => s_header f = data_header dn /\ s_payload f = d_wire dn) l ->
    Forall (fun f => delivers (RW := WR) l3' (frame_octets f) (NetData d' (hops_tags hops))) l) as Hl
    by (intros l; apply (frames_deliver_data l3' d e d' hops); [done|apply u8_bounds]).
  destruct (decide (judgeNameIsTrace (da_name d') = false /\ return_ports dn w2 <> ∅)) as [[Hj Hne]|Hno].
  - destruct (data_sent nonce_fuel inPort dn hdr w2 Hw2 Hhdr Hne) as [_ Hout].
    { change (d_name dn) with (da_name d'). by rewrite Hj. }
    destruct Hout as (w3 & Erun & _ & N); [unfold before_pass2; change (d_name dn) with (da_name d'); by rewrite Hj|].
    eexists. subst run. rewrite Erun. split; [exact N|]. split; [apply Hl, transmit_payload|].
    intros _ _. split; [done|apply transmit_devices].
  - destruct (data_frames nonce_fuel inPort dn hdr w2 Hw2 Hhdr) as (l & N & Hf).
    exists l. split; [exact N|]. split; [by apply Hl|]. intros Hj Hne. by destruct Hno.
Qed.

(** C10: an Interest, newly encoded or forwarded, from one node with NFD to the next through a
    Statim node that neither has its name pending nor holds its Data.  The sender's face puts one frame on
    its link and the Statim node queues exactly one event for it.  Whatever the node receives and does
    until the event runs, the event sends one and the same payload to each device of the egress that the
    temporary routes and the flow tables of that moment give, except the one it came
    from: the sender's octets, with other nonce octets at most if a resending has renewed a four-octet nonce
    meanwhile.  If they are the sender's octets, any face of the Statim network receives the Interest
    that a receiver of these reads, with the hop count started anew. *)
Theorem interest_end_to_end `{!StdSort} `{!StdSortLaws} nonce_fuel l3 l3' tags (s : face) i e i' inPort (w : node) :
  statim_face l3 s -> tags_ok tags -> interest_on_wire i e i' -> node_inv w -> u16_range inPort ->
  m_pit (n_engine w) !! in_name i' = None -> ContentStore.find (in_name i') (m_cs (n_engine w)) = None ->
  exists frame v ni hdr (w1 : node),
    f_device (sendInterest (doSend l3) i tags s).1 = f_device s ++ [frame] /\
    interest_octets v = el_wire e /\ wireEncode (n_wires w1) ni = inr (el_wire e) /\
    onReceiveRawPacket inPort frame w = (w1, inr tt) /\ n_sent w1 = n_sent w /\
    n_sim w1 = (Schedule (m_statefulDelay (n_engine w)) (ProcessInterestAfterDelay inPort ni hdr) (n_sim w)).1 /\
    forall (w2 : node) routes, rtc (node_step nonce_fuel) w1 w2 ->
      switch_refines (view w2) routes -> routes_prefix_shaped routes ->
      let hops := temporary_hops w2 (in_name i') in
      let out := interest_egress (m_currentTs (n_sim w2)) routes
                   (m_nameHashes (PacketHeader_of_name (in_name i'))) (default ∅ (dom <$> hops)) in
      exists (w3 : node) l payload, processInterestAfterDelay inPort ni hdr w2 = (w3, inr tt) /\
        n_sent w3 = n_sent w2 ++ l /\
        s_device <$> l = omap (fun p => getDevice p (m_portTable (n_engine w2))) (onward inPort out) /\
        wireEncode (n_wires w2) ni = inr payload /\ renewed_octets v payload /\
        Forall (fun f => s_payload f = payload) l /\
        (payload = el_wire e ->
         Forall (fun f => delivers (RW := WR) l3' (frame_octets f) (NetInterest i' (hops_tags 0))) l).
Proof.
  intros Hs Htags Hi Hn Hp Hpit Hcs.
  destruct (interest_reaches_node l3 tags s i e i' inPort w)
    as (frame & v & ni & hdr & w1 & E & Hname & Hoct & Er & Hwait); [done..|].
  pose proof Hwait as (Hsent & Hni & _ & Hev & Hwire & _ & Hsim). rewrite Hoct in Hwire.
  exists frame, v, ni, hdr, w1. split_and!; [done..|]. intros w2 routes Hrun Hr Hsh hops out.
  destruct (waiting_octets inPort v ni hdr nonce_fuel w w1 w2 Hwait Hrun) as (o & Ho & Hren).
  destruct (interest_forwarded_run inPort ni hdr w2 routes o) as (w3 & E3 & N & _); [done..|].
  rewrite Hni, Hname in N. exists w3. eexists _, o. split; [exact E3|]. split; [exact N|].
  split; [apply transmit_devices|]. split; [exact Ho|]. split; [exact Hren|]. split.
  - eapply Forall_impl; [apply transmit_payload|]. by intros f [_ Hf].
  - intros ->. by eapply frames_deliver_interest; [|apply transmit_payload].
Qed.
End end_to_end.

(** ** Examples *)
#[local] Existing Instances demo_streams counter_words counter_rand sum_hash
  InsertionSort.insertion_sort InsertionSort.insertion_sort_laws.

Lemma demo_face_ready : statim_face demo_l3 demo_face /\ tags_ok demo_tags.
Proof. split; [split_and!; try done; by right|by split_and!]. Qed.

(** A Data that its application has encoded and a node remembers an Interest for, from
    port 3 to port 2. *)
Lemma data_end_to_end_witness :
  let e := data_element demo_data in
  let d' := data_read_into MetaInfo_new demo_data in
  exists frame w1 w3 f, f_device (sendData (doSend demo_l3) demo_encoded demo_tags demo_face).1 = [frame] /\
    onReceiveRawPacket 3 frame demo_node = (w1, inr tt) /\
    exists hdr, processDataAfterDelay 2 3 (node_data e d' 45) hdr (demo_remembering demo_name) = (w3, inr tt) /\
    n_sent w3 = [f] /\ s_device f = 102 /\
    delivers (RW := Z) demo_l3 (frame_octets f) (NetData d' (hops_tags 45)).
Proof.
  intros e d'. destruct demo_face_ready as [Hf Ht].
  destruct (data_end_to_end (WR := Z) demo_l3 demo_l3 demo_tags demo_face demo_encoded e d' 3 demo_node Hf Ht
    demo_encoded_on_wire) as (frame & hdr & w1 & E1 & E2 & _ & _ & H);
    [apply demo_node_ok|split; [discriminate|reflexivity]|].
  destruct (H 2%nat (demo_remembering demo_name) (demo_remembering_inv _)) as (l & E3 & Hl & Hd).
  change (u8 (u8 (default 0 (t_hopCount demo_tags)) + 1)) with 45 in *.
  destruct Hd as [Hok Hdev]; [reflexivity| |].
  { intros He. assert (2 ∈ return_ports (node_data e d' 45) (demo_remembering demo_name)) as Hin by (vm_compute; reflexivity).
    rewrite He in Hin. by apply elem_of_empty in Hin. }
  assert (omap (fun p => getDevice p (m_portTable (n_engine (demo_remembering demo_name))))
    (set_elements (wired (return_ports (node_data e d' 45) (demo_remembering demo_name)))) = [102])
    as Hports by (vm_compute; reflexivity).
  rewrite Hports in Hdev. destruct l as [|f [|]]; [discriminate Hdev| |discriminate Hdev].
  injection Hdev as Hdev. apply Forall_cons in Hl as [Hl _].
  destruct (processDataAfterDelay 2 3 (node_data e d' 45) hdr (demo_remembering demo_name)) as [w3 r] eqn:E4.
  cbn [fst snd] in Hok, E3. subst r. exists frame, w1, w3, f.
  split; [exact E1|]. split; [exact E2|]. exists hdr. split; [exact E4|]. split; [exact E3|]. split; [exact Hdev|exact Hl].
Defined.

(** The demo node with a temporary route for [/a] over ports 2 and 3. *)
Definition demo_steering : Node Z Z Z :=
  over (fun c : LocalRouteController =>
    c <| m_temporaryFib := {[ take 1 demo_name := {[ 2 := 100; 3 := 100 ]} ]} |>) demo_node.

Lemma demo_steering_inv : node_inv demo_steering.
Proof. destruct demo_node_ok as [[H1 H2 H3 H4 H5 H6] _ _]. by split. Qed.

(** An Interest from port 3, with nothing happening before its event. *)
Lemma interest_end_to_end_witness :
  let i := ensure_nonce 16909060 PacketWireSpec.demo_interest in
  exists frame ni hdr w1 w3 f, f_device (sendInterest (doSend demo_l3) i demo_tags demo_face).1 = [frame] /\
    onReceiveRawPacket 3 frame demo_steering = (w1, inr tt) /\
    processInterestAfterDelay 3 ni hdr w1 = (w3, inr tt) /\
    n_sent w3 = n_sent w1 ++ [f] /\ s_device f = 102 /\
    delivers (RW := Z) demo_l3 (frame_octets f) (NetInterest (interest_read i) (hops_tags 0)).
Proof.
  intros i. destruct demo_face_ready as [Hf Ht].
  assert (interest_on_wire i (interest_element i) (interest_read i)) as Hi.
  { apply interest_without_wire; [exact demo_interest_ok|reflexivity|vm_compute; discriminate]. }
  destruct (interest_end_to_end (WR := Z) 2 demo_l3 demo_l3 demo_tags demo_face i _ _ 3 demo_steering Hf Ht Hi demo_steering_inv)
    as (frame & v & ni & hdr & w1 & E1 & _ & Hw0 & E2 & _ & _ & H);
    [split; [discriminate|reflexivity]|vm_compute; reflexivity|vm_compute; reflexivity|].
  assert (node_inv w1) as Hw1.
  { pose proof (inv_onReceiveRawPacket 3 frame ltac:(split; [discriminate|reflexivity]) _ demo_steering_inv) as H1.
    by rewrite E2 in H1. }
  destruct (ni_switch _ Hw1) as (routes & Hr & Hsh).
  destruct (H w1 routes (rtc_refl _ _) Hr Hsh) as (w3 & l & payload & E3 & E4 & Hdev & Ho & _ & _ & Hl).
  rewrite Hw0 in Ho. injection Ho as Ho. specialize (Hl (eq_sym Ho)).
  assert (frame = Serialize (PacketHeader_of_name (in_name (interest_read i))) ++ el_wire (interest_element i)) as Ef.
  { destruct (sendInterest_run demo_l3 demo_tags demo_face i _ _ Hf Ht Hi) as (tp & E). rewrite E in E1. by injection E1. }
  assert (w1 = (onReceiveRawPacket 3 frame demo_steering).1) as Ew by (by rewrite E2). rewrite Ef in Ew.
  assert (temporary_hops w1 (in_name (interest_read i)) = Some {[ 2 := 100; 3 := 100 ]}) as Hh
    by (rewrite Ew; vm_compute; reflexivity).
  rewrite Hh in Hdev. cbn [fmap option_fmap option_map default from_option] in Hdev.
  assert (m_portTable (n_engine w1) = m_portTable (n_engine demo_steering)) as Hpt by (rewrite Ew; vm_compute; reflexivity).
  rewrite Hpt in Hdev.
  assert (forall now routes hashes, interest_egress now routes hashes (dom ({[ 2 := 100; 3 := 100 ]} : gmap Z Z)) = {[ 2; 3 ]})
    as Heg by (intros; vm_compute; reflexivity).
  rewrite Heg in Hdev. change (s_device <$> l = [102]) in Hdev.
  destruct l as [|f [|]]; [discriminate Hdev| |discriminate Hdev]. injection Hdev as Hdev.
  apply Forall_cons in Hl as [Hl _]. exists frame, ni, hdr, w1, w3, f. split; [exact E1|]. split; [exact E2|].
  split; [exact E3|]. split; [exact E4|]. split; [exact Hdev|exact Hl].
Defined.
