(* ===== verification/StatimHelper.v ===== *)
(** * StatimHelper: how a scenario configures nodes and computes static routes

    Source: [src/src/ndnSIM/statim/helper/statim-helper.{hpp,cpp}].  The helper is
    its parameters; what it does to a node is what it does to the node's engine.
    The distances that Dijkstra's algorithm of the boost library finds are an
    argument: the targets in the order of the map.  The stack helper and the
    attributes of the ns-3 objects are left out. *)
From Stdlib Require Import Floats.SpecFloat.
From S2P Require Import Prelude Tlv Names Simulator SimTime PacketHeader FlowTable SwitchPipeline.
From S2P Require Import SwitchSpec PortTable NameMap Packets PendingInterestTable.
From S2P Require Import TemporaryForwardingTable ContentStore ControlMessage LocalRouteController.
From S2P Require Import FlowTableController StatefulForwarder ForwardingEngine.

Record StatimHelper := mkStatimHelper {
  h_controllerDelay : Z;
  h_flowTableFibEntryLifetime : Z;
  h_temporaryFibEntryLifetime : Z;
  h_statefulDelay : Z;
  h_controllerRetryTimeout : Z;
  h_enableInterestReforwarding : bool;
  h_enableTemporaryFib : bool;
  h_experimentTelemetryEnabled : bool;
  h_generationGuardEnabled : bool;
  h_interestReforwardingLimit : Z;
  h_controllerRetryLimit : Z;
  h_syncAckLossRate : double
}.

Definition StatimHelper_new : StatimHelper :=
  mkStatimHelper 2000000000 0 0 0 0 true true false false 30 3 dzero.

Section helper.
Context {R : Type}.
Implicit Types (e : ForwardingEngine R).

(** On the engine of the node [id]. *)
Definition ConfigureInstalledNode (id : Z) (h : StatimHelper) e : ForwardingEngine R :=
  let e := setExperimentTelemetryEnabled (h_experimentTelemetryEnabled h) e in
  let e := if h_experimentTelemetryEnabled h then setNodeId id e else e in
  let e := fe_setControllerDelay (h_controllerDelay h) e in
  let e := setEnableInterestReforwarding (h_enableInterestReforwarding h) e in
  let e := setEnableTemporaryFib (h_enableTemporaryFib h) e in
  let e := setStatefulDelay (h_statefulDelay h) e in
  let e := setInterestReforwardingLimit (h_interestReforwardingLimit h) e in
  let e := setControllerRetryTimeout (h_controllerRetryTimeout h) e in
  let e := setControllerRetryLimit (h_controllerRetryLimit h) e in
  let e := fe_setGenerationGuardEnabled (h_generationGuardEnabled h) e in
  fe_setLossRate SyncAck (h_syncAckLossRate h) e.

Definition ConfigureEntryLifetimes (flowTable temporary : Z) : M (ForwardingEngine R) unit :=
  (if 0 <? flowTable then setFlowTableFibEntryLifetime flowTable else mret tt);;
  (if 0 <? temporary then setTemporaryFibEntryLifetime temporary else mret tt).

(** [Install] of one node, after the stack helper. *)
Definition Install (id : Z) (h : StatimHelper) : M (ForwardingEngine R) unit :=
  modify (ConfigureInstalledNode id h);;
  if (0 <? h_flowTableFibEntryLifetime h) || (0 <? h_temporaryFibEntryLifetime h)
  then ConfigureEntryLifetimes (h_flowTableFibEntryLifetime h) (h_temporaryFibEntryLifetime h)
  else mret tt.
End helper.

(** ** Static routes *)

(** The face the shortest path to a router leaves through. *)
Inductive NextHopFace :=
| NoFace                        (** no path *)
| OtherFace                     (** a face without a net device *)
| DeviceFace (device : NetDevice).

Record Distance := mkDistance {
  dist_isSource : bool;
  dist_face : NextHopFace;
  dist_prefixes : list Name     (** [GetLocalPrefixes] of the router *)
}.

Section routes.
Context `{!StringHash, !StdSort}.

Definition install_prefix (port : Z) (prefix : Name) : M SwitchPipeline unit :=
  let hdr := PacketHeader_of_name prefix in
  installFibEntry (m_nameHashes hdr) port 0.

(** [CalculateStatimRoutes] for one source node. *)
Definition install_distances (portTable : PortTable) (distances : list Distance)
    : M SwitchPipeline unit :=
  for_each distances (fun dist =>
    if dist_isSource dist then mret tt
    else
      match dist_face dist with
      | DeviceFace device =>
          let port := getPort device portTable in
          for_each (dist_prefixes dist) (install_prefix port)
      | _ => mret tt
      end).
End routes.

(** ** Properties *)

(** The routes the computation asks for, in order. *)
Definition static_routes `{!StringHash} (portTable : PortTable) (distances : list Distance)
    : list (list Z * route) :=
  flat_map (fun dist =>
    match dist_isSource dist, dist_face dist with
    | false, DeviceFace device =>
        map (fun prefix => (route_key (m_nameHashes (PacketHeader_of_name prefix)),
                            (getPort device portTable, 0))) (dist_prefixes dist)
    | _, _ => []
    end) distances.

Definition with_routes (routes : gmap (list Z) route) (l : list (list Z * route))
    : gmap (list Z) route :=
  foldl (fun m kv => <[kv.1 := kv.2]> m) routes l.

Lemma with_routes_lookup l routes key :
  with_routes routes l !! key =
  match List.find (fun kv => bool_decide (kv.1 = key)) (rev l) with
  | Some kv => Some kv.2
  | None => routes !! key
  end.
Proof.
  induction l as [|kv l IH] using rev_ind; [done|]. unfold with_routes in *.
  rewrite foldl_app, rev_app_distr. cbn. case_bool_decide as E.
  - by rewrite E, lookup_insert_eq.
  - by rewrite lookup_insert_ne.
Qed.

Section refine.
Context `{!StringHash} {SS : StdSort} {SL : StdSortLaws}.

Lemma install_prefixes_ok port prefixes s routes :
  switch_refines s routes ->
  exists s', for_each prefixes (install_prefix port) s = (s', inr tt) /\
    switch_refines s' (with_routes routes
      (map (fun p => (route_key (m_nameHashes (PacketHeader_of_name p)), (port, 0))) prefixes)).
Proof.
  revert s routes. induction prefixes as [|p prefixes IH]; intros s routes Hs; [by eexists|].
  cbn [for_each map with_routes foldl fst snd].
  destruct (installFibEntry_refines_aux s routes (m_nameHashes (PacketHeader_of_name p)) port 0 Hs)
    as (s1 & E & H1 & _).
  { apply (wf_hashes _ (computeNameHashes_wf p header_default header_default_wf)). }
  rewrite (run_seq _ _ _ _ _ E). by apply IH.
Qed.

Lemma install_distances_ok pt distances s routes :
  switch_refines s routes ->
  exists s', install_distances pt distances s = (s', inr tt) /\
    switch_refines s' (with_routes routes (static_routes pt distances)).
Proof.
  unfold install_distances. revert s routes.
  induction distances as [|d distances IH]; intros s routes Hs; [by eexists|].
  cbn [for_each static_routes flat_map]. unfold with_routes. rewrite foldl_app.
  destruct (dist_isSource d); [rewrite run_ret; by apply IH|].
  destruct (dist_face d) as [| |device]; [rewrite run_ret; by apply IH..|].
  destruct (install_prefixes_ok (getPort device pt) (dist_prefixes d) s routes Hs) as (s1 & E & H1).
  rewrite (run_seq _ _ _ _ _ E). by apply IH.
Qed.
End refine.

(** C38: computing the static routes of a node never throws and implements the
    routes it asks for: the switch then forwards by the last route installed for a
    key, without expiry and to the port of the device on the shortest path, and by
    its old routes for every other key. *)
Theorem static_routes_refine `{!StringHash} {SS : StdSort} {SL : StdSortLaws}
    (pt : PortTable) (distances : list Distance) (s : SwitchPipeline)
    (routes : gmap (list Z) route) (Hs : switch_refines s routes) :
  exists s' routes', install_distances pt distances s = (s', inr tt) /\ switch_refines s' routes' /\
    forall key, routes' !! key =
      match List.find (fun kv => bool_decide (kv.1 = key)) (rev (static_routes pt distances)) with
      | Some kv => Some kv.2
      | None => routes !! key
      end.
Proof.
  destruct (install_distances_ok pt distances s routes Hs) as (s' & E & Href).
  exists s', (with_routes routes (static_routes pt distances)).
  split_and!; [exact E|exact Href|intros key; apply with_routes_lookup].
Qed.

(** Installing the helper's configuration on a new engine never throws and
    leaves its tables, ports and switch alone.  Afterwards a Trace Data passes the
    lifetime check exactly when its lease equals every positive configured
    lifetime; with two different positive lifetimes no lease passes, so that every
    Trace Data throws. *)
Theorem install_lifetimes {R : Type} (id lease : Z) (h : StatimHelper) (e : ForwardingEngine R)
    (Hnew : m_configuredFlowTableLifetime e = 0 /\ m_configuredTemporaryLifetime e = 0) :
  exists e', Install id h e = (e', inr tt) /\
    m_pit e' = m_pit e /\ m_cs e' = m_cs e /\ m_portTable e' = m_portTable e /\
    m_switch (m_statefulModule e') = m_switch (m_statefulModule e) /\
    (validateRouteLifetime lease e' = inr tt <->
       (0 < h_flowTableFibEntryLifetime h -> lease = h_flowTableFibEntryLifetime h) /\
       (0 < h_temporaryFibEntryLifetime h -> lease = h_temporaryFibEntryLifetime h)).
Proof.
  destruct Hnew as [H1 H2]. unfold Install. rewrite run_modify.
  set (e1 := ConfigureInstalledNode id h e).
  assert (m_configuredFlowTableLifetime e1 = 0 /\ m_configuredTemporaryLifetime e1 = 0 /\
    m_pit e1 = m_pit e /\ m_cs e1 = m_cs e /\ m_portTable e1 = m_portTable e /\
    m_switch (m_statefulModule e1) = m_switch (m_statefulModule e)) as (K1 & K2 & K3 & K4 & K5 & K6).
  { unfold e1, ConfigureInstalledNode, setExperimentTelemetryEnabled.
    destruct (h_experimentTelemetryEnabled h); by split_and!. }
  generalize dependent e1. intros e1 K1 K2 K3 K4 K5 K6.
  destruct h as [hc flow temp hs hr hf he ht hg hl hn hp]. cbn [h_flowTableFibEntryLifetime
    h_temporaryFibEntryLifetime].
  unfold ConfigureEntryLifetimes, setFlowTableFibEntryLifetime, setTemporaryFibEntryLifetime,
    route_setEntryLifetime, setEntryLifetime.
  destruct (Z.ltb_spec 0 flow), (Z.ltb_spec 0 temp); cbn [orb];
    rewrite ?(proj2 (Z.ltb_ge flow 0)), ?(proj2 (Z.ltb_ge temp 0)) by lia;
    eexists; (split; [reflexivity|]); cbn; (split_and!; [done..|]);
    unfold validateRouteLifetime; cbn; rewrite ?K1, ?K2; cbn;
    rewrite ?(proj2 (Z.ltb_lt 0 flow)), ?(proj2 (Z.ltb_lt 0 temp)) by lia; cbn;
    repeat match goal with |- context [lease =? ?x] => destruct (Z.eqb_spec lease x) end; cbn;
    (split; [intros ?; try discriminate; lia|intros [? ?]; first [reflexivity|exfalso; lia]]).
Qed.

Lemma static_routes_refine_witness :
  exists s' routes', @install_distances (fun _ => 5) InsertionSort.insertion_sort
      (addDevices [101; 102] PortTable_new)
      [mkDistance true NoFace []; mkDistance false (DeviceFace 102) [[component_of_string "a"]]]
      switch_booted = (s', inr tt) /\
    switch_refines s' routes' /\ routes' !! [5; 0xff; 0xff; 0xff] = Some (2, 0).
Proof.
  destruct (@static_routes_refine (fun _ => 5) InsertionSort.insertion_sort
    InsertionSort.insertion_sort_laws (addDevices [101; 102] PortTable_new)
    [mkDistance true NoFace []; mkDistance false (DeviceFace 102) [[component_of_string "a"]]]
    switch_booted ∅ switch_booted_refines) as (s' & routes' & E & H & Hr).
  exists s', routes'. split_and!; [exact E|exact H|]. rewrite Hr. vm_compute. reflexivity.
Defined.

(** Two different lifetimes. *)
Definition demo_helper : StatimHelper :=
  mkStatimHelper 0 1000000000 2000000000 0 0 true true false true 30 3 dzero.

Definition demo_engine : ForwardingEngine Z :=
  @ForwardingEngine_new Z InsertionSort.insertion_sort
    (Build_UniformStreams Z (fun n => n) (fun n _ => n) (fun lo _ r => (r, lo))) 0.

Lemma install_lifetimes_witness :
  exists e', Install 1 demo_helper demo_engine = (e', inr tt) /\
    validateRouteLifetime 1000000000 e' <> inr tt.
Proof.
  destruct (install_lifetimes 1 1000000000 demo_helper demo_engine)
    as (e' & E & _ & _ & _ & _ & H).
  - split; reflexivity.
  - exists e'. split; [exact E|]. intros Hv. apply H in Hv as [_ H2].
    cbn in H2. by discriminate (H2 eq_refl).
Defined.
