(* ===== verification/Application.v ===== *)
(** * Application: what an NDN application of the simulation shares with the others

    Sources: [src/src/ndnSIM/apps/ndn-app.cpp] and
    [src/src/ndnSIM/model/ndn-app-link-service.cpp].  An application runs in a
    world [AppWorld]: the simulator, the application and what it has handed to its
    face.  The forwarder behind the face is not part of the world; what it sends
    back arrives as an event of its own, as the link service schedules it. *)
From S2P Require Import Prelude Tlv Names Simulator SimTime Packets.

(** What an application passes down: [AppLinkService::onReceiveInterest] and
    [onReceiveData]. *)
Inductive AppPacket :=
| OutInterest (interest : Interest)
| OutData (data : Data).

#[export] Instance AppPacket_eq_dec : EqDecision AppPacket.
Proof. solve_decision. Defined.

Definition out_interest (p : AppPacket) : option Interest :=
  match p with OutInterest i => Some i | OutData _ => None end.

(** The Interests sent so far, in order. *)
Definition sent_interests (l : list AppPacket) : list Interest := omap out_interest l.

Record AppWorld (A E : Type) := mkAppWorld {
  a_sim : Sim E;
  a_app : A;
  a_link : list AppPacket
}.

Arguments mkAppWorld {A E}.
Arguments a_sim {A E} _.
Arguments a_app {A E} _.
Arguments a_link {A E} _.

#[export] Instance set_a_sim {A E} : Setter (@a_sim A E) := fun f w =>
  mkAppWorld (f (a_sim w)) (a_app w) (a_link w).
#[export] Instance set_a_app {A E} : Setter (@a_app A E) := fun f w =>
  mkAppWorld (a_sim w) (f (a_app w)) (a_link w).
#[export] Instance set_a_link {A E} : Setter (@a_link A E) := fun f w =>
  mkAppWorld (a_sim w) (a_app w) (f (a_link w)).

#[export] Instance lens_a_sim {A E} : Lens (AppWorld A E) (Sim E) := {
  view := a_sim;
  put := fun s w => w <| a_sim := s |>
}.

Section application.
Context {A E : Type}.
Abbreviation world := (AppWorld A E).

Definition app_get : M world A := gets a_app.
Definition app_upd (f : A -> A) : M world unit := modify (fun w => w <| a_app ::= f |>).
Definition app_now : M world Z := gets (fun w => m_currentTs (a_sim w)).
Definition app_schedule (delay : Z) (e : E) : M world EventId := action (fun w =>
  let '(s, id) := Schedule delay e (a_sim w) in (w <| a_sim := s |>, id)).

(** [Simulator::Cancel] of an [EventId]; one that was never assigned is expired. *)
Definition app_cancel (id : option EventId) : M world unit :=
  match id with
  | Some id => modify (fun w => w <| a_sim ::= Cancel id |>)
  | None => mret tt
  end.

Definition app_is_running (id : option EventId) : M world bool :=
  gets (fun w => is_running id (a_sim w)).

(** [m_appLink->onReceiveInterest] and [onReceiveData]. *)
Definition to_link (p : AppPacket) : M world unit :=
  modify (fun w => w <| a_link ::= fun l => l ++ [p] |>).

(** [AppLinkService::doSendInterest] and [doSendData]: the forwarder hands a packet
    to the application, decoupled by an event [e] that calls it. *)
Definition doSend (e : E) : M world unit :=
  modify (fun w => w <| a_sim ::= fun s => (ScheduleNow e s).1 |>).

(** [Seconds (t.GetSeconds ())]: a time through a double and back. *)
Definition via_seconds (t : Z) : M world Z := abort_if_none (Seconds (GetSeconds t)).
End application.

(** [rand->GetValue (0, std::numeric_limits<uint32_t>::max ())], passed to
    [setNonce]. *)
Definition draw_nonce {R} `{!UniformStreams R} (r : R) : R * Z :=
  let '(r, x) := uv_GetValue dzero (double_of_Z 4294967295) r in (r, u32 (trunc x)).

(** An Interest an application makes: [setNonce] before there is a wire. *)
Definition new_interest (name : Name) (nonce lifetime : Z) : Interest :=
  mkInterest name (OwnNonce (nonce_memory nonce)) lifetime rest_none.

(** ** Rules for running an application *)
Section rules.
Context {A E : Type}.
Abbreviation world := (AppWorld A E).
Implicit Types (w : world).

Lemma run_app_get {B} (k : A -> M world B) w : (app_get ≫= k) w = k (a_app w) w.
Proof. done. Qed.
Lemma run_app_upd {B} f (k : unit -> M world B) w :
  (app_upd f ≫= k) w = k tt (mkAppWorld (a_sim w) (f (a_app w)) (a_link w)).
Proof. done. Qed.
Lemma run_app_now {B} (k : Z -> M world B) w :
  (app_now ≫= k) w = k (m_currentTs (a_sim w)) w.
Proof. done. Qed.
Lemma run_app_schedule {B} d e (k : EventId -> M world B) w :
  (app_schedule d e ≫= k) w =
  k (Schedule d e (a_sim w)).2 (mkAppWorld (Schedule d e (a_sim w)).1 (a_app w) (a_link w)).
Proof. unfold app_schedule. rewrite run_action. by destruct (Schedule d e (a_sim w)). Qed.
Lemma run_app_cancel {B} id (k : unit -> M world B) w :
  (app_cancel id ≫= k) w =
  k tt (mkAppWorld (match id with Some id => Cancel id (a_sim w) | None => a_sim w end)
          (a_app w) (a_link w)).
Proof. destruct id; [done|]. by destruct w. Qed.
Lemma run_app_is_running {B} id (k : bool -> M world B) w :
  (app_is_running id ≫= k) w = k (is_running id (a_sim w)) w.
Proof. done. Qed.
Lemma run_to_link {B} p (k : unit -> M world B) w :
  (to_link p ≫= k) w = k tt (mkAppWorld (a_sim w) (a_app w) (a_link w ++ [p])).
Proof. done. Qed.
Lemma run_via_seconds {B} t t' (k : Z -> M world B) w :
  Seconds (GetSeconds t) = Some t' -> (via_seconds t ≫= k) w = k t' w.
Proof. intros H. unfold via_seconds. by rewrite H. Qed.
End rules.

#[export] Hint Rewrite @run_app_get @run_app_upd @run_app_now @run_app_schedule @run_app_cancel
  @run_app_is_running @run_to_link : run.
