(* ===== verification/Producer.v ===== *)
(** * Producer: the Data with which an application answers an Interest

    Sources: [src/src/ndnSIM/apps/ndn-producer.{hpp,cpp}], and the part of
    [src/src/ndnSIM/statim/apps/statim-mobile.cpp] that does the same.  The answer has the
    name it is given, a payload of zeros, a freshness period and a fake signature, and is
    encoded at once. *)
From S2P Require Import Prelude Tlv Encoder Block BlockSpec Names NameWire Exclude WireFormat Simulator SimTime Packets Application.

(** The signature of type 255, with a key locator unless its name is empty. *)
Definition reply_signature (signature : Z) (keyLocator : Name) : exn + Signature :=
  let signatureInfo := SignatureInfo_new 255 in
  let signatureInfo := if 0 <? name_size keyLocator
                       then setKeyLocator (KeyLocator_Name keyLocator) signatureInfo
                       else signatureInfo in
  value ← makeNonNegativeIntegerBlock tlv.SignatureValue signature;
  setValue value (mkSignature signatureInfo element_none).

(** The packet before it is encoded; [freshness] is a [Time], the buffer of [payload]
    octets is value-initialised. *)
Definition reply_object (name : Name) (payload freshness signature : Z) (keyLocator : Name)
    : exn + WireFormat.Data :=
  let data := Data_setName name (Data_of_name []) in
  let data := Data_setFreshnessPeriod (GetMilliSeconds freshness) data in
  let data := Data_setContent (replicate (Z.to_nat payload) (byte_of_Z 0)) data in
  signature ← reply_signature signature keyLocator;
  mret (Data_setSignature signature data).

(** ... and encoded, as the forwarder will see it. *)
Definition reply (name : Name) (payload freshness signature : Z) (keyLocator : Name) : exn + Data :=
  data ← reply_object name payload freshness signature keyLocator;
  '(data, w) ← Data_wireEncode data;
  mret (mkData (da_name data) (el_value (da_content data)) (el_wire w) None).

(** ** The application *)
Record Producer := mkProducer {
  p_active : bool;
  p_prefix : Name;
  p_postfix : Name;
  p_virtualPayloadSize : Z;    (** a [uint32_t] *)
  p_freshness : Z;
  p_signature : Z;             (** a [uint32_t] *)
  p_keyLocator : Name
}.

#[export] Instance set_p_active : Setter p_active := fun f s =>
  mkProducer (f (p_active s)) (p_prefix s) (p_postfix s) (p_virtualPayloadSize s) (p_freshness s)
    (p_signature s) (p_keyLocator s).

Inductive ProducerEvent := ProducerInterest (interest : Interest).

Abbreviation producer_world := (AppWorld Producer ProducerEvent).

Definition Producer_OnInterest (interest : Interest) : M producer_world unit :=
  s ← app_get;
  if negb (p_active s) then mret tt
  else
    data ← lift_result (reply (i_name interest) (p_virtualPayloadSize s) (p_freshness s)
                          (p_signature s) (p_keyLocator s));
    to_link (OutData data).

Definition producer_dispatch (e : ProducerEvent) : M producer_world unit :=
  match e with ProducerInterest interest => Producer_OnInterest interest end.
