(* ===== verification/MobileProducer.v ===== *)
(** * MobileProducer: the mobile producer of the simulation

    Source: [src/src/ndnSIM/statim/apps/statim-mobile.{hpp,cpp}].  A producer
    announces its attachment with Trace Interests of rising sequence numbers,
    repeats an unanswered one up to three times, refreshes it periodically, and
    answers Interests.  The summary printed at the end is left out. *)
From Stdlib Require Import Floats.SpecFloat.
From S2P Require Import Prelude Tlv Names Simulator SimTime Packets Application Producer.

Record StatimMobile (R : Type) := mkStatimMobile {
  m_active : bool;
  m_virtualPayloadSize : Z;
  m_rvPrefix : Name;
  m_dataPrefix : Name;
  m_traceLifetime : Z;
  m_refreshInterval : Z;
  m_rand : R;
  m_seq : Z;
  m_traceRefreshEvent : option EventId;
  m_traceTimeoutEvent : option EventId;
  m_traceRetryCnt : Z;
  m_negotiationDone : bool;
  m_rvInterests : Z;
  m_rvData : Z;
  m_interestForData : Z;
  m_data : Z;
  m_current : Z;
  m_lastTraceSendTime : Z;
  m_waitingForFirstInterest : bool;
  m_handoverDelays : list double;
  m_useExternalAnchor : bool;
  m_hoAnchor : Z;
  m_traceDelay : Z;
  m_freshness : Z;
  m_signature : Z;            (** a [uint32_t] *)
  m_keyLocator : Name
}.

Arguments mkStatimMobile {R}.
Arguments m_active {R} _.
Arguments m_virtualPayloadSize {R} _.
Arguments m_rvPrefix {R} _.
Arguments m_dataPrefix {R} _.
Arguments m_traceLifetime {R} _.
Arguments m_refreshInterval {R} _.
Arguments m_rand {R} _.
Arguments m_seq {R} _.
Arguments m_traceRefreshEvent {R} _.
Arguments m_traceTimeoutEvent {R} _.
Arguments m_traceRetryCnt {R} _.
Arguments m_negotiationDone {R} _.
Arguments m_rvInterests {R} _.
Arguments m_rvData {R} _.
Arguments m_interestForData {R} _.
Arguments m_data {R} _.
Arguments m_current {R} _.
Arguments m_lastTraceSendTime {R} _.
Arguments m_waitingForFirstInterest {R} _.
Arguments m_handoverDelays {R} _.
Arguments m_useExternalAnchor {R} _.
Arguments m_hoAnchor {R} _.
Arguments m_traceDelay {R} _.
Arguments m_freshness {R} _.
Arguments m_signature {R} _.
Arguments m_keyLocator {R} _.

#[export] Instance set_m_active {R} : Setter (@m_active R) := fun f s =>
  mkStatimMobile (f (m_active s)) (m_virtualPayloadSize s) (m_rvPrefix s) (m_dataPrefix s)
    (m_traceLifetime s) (m_refreshInterval s) (m_rand s) (m_seq s) (m_traceRefreshEvent s)
    (m_traceTimeoutEvent s) (m_traceRetryCnt s) (m_negotiationDone s) (m_rvInterests s)
    (m_rvData s) (m_interestForData s) (m_data s) (m_current s) (m_lastTraceSendTime s)
    (m_waitingForFirstInterest s) (m_handoverDelays s) (m_useExternalAnchor s) (m_hoAnchor s)
    (m_traceDelay s) (m_freshness s) (m_signature s) (m_keyLocator s).
#[export] Instance set_m_rand {R} : Setter (@m_rand R) := fun f s =>
  mkStatimMobile (m_active s) (m_virtualPayloadSize s) (m_rvPrefix s) (m_dataPrefix s)
    (m_traceLifetime s) (m_refreshInterval s) (f (m_rand s)) (m_seq s) (m_traceRefreshEvent s)
    (m_traceTimeoutEvent s) (m_traceRetryCnt s) (m_negotiationDone s) (m_rvInterests s)
    (m_rvData s) (m_interestForData s) (m_data s) (m_current s) (m_lastTraceSendTime s)
    (m_waitingForFirstInterest s) (m_handoverDelays s) (m_useExternalAnchor s) (m_hoAnchor s)
    (m_traceDelay s) (m_freshness s) (m_signature s) (m_keyLocator s).
#[export] Instance set_m_seq {R} : Setter (@m_seq R) := fun f s =>
  mkStatimMobile (m_active s) (m_virtualPayloadSize s) (m_rvPrefix s) (m_dataPrefix s)
    (m_traceLifetime s) (m_refreshInterval s) (m_rand s) (f (m_seq s)) (m_traceRefreshEvent s)
    (m_traceTimeoutEvent s) (m_traceRetryCnt s) (m_negotiationDone s) (m_rvInterests s)
    (m_rvData s) (m_interestForData s) (m_data s) (m_current s) (m_lastTraceSendTime s)
    (m_waitingForFirstInterest s) (m_handoverDelays s) (m_useExternalAnchor s) (m_hoAnchor s)
    (m_traceDelay s) (m_freshness s) (m_signature s) (m_keyLocator s).
#[export] Instance set_m_traceRefreshEvent {R} : Setter (@m_traceRefreshEvent R) := fun f s =>
  mkStatimMobile (m_active s) (m_virtualPayloadSize s) (m_rvPrefix s) (m_dataPrefix s)
    (m_traceLifetime s) (m_refreshInterval s) (m_rand s) (m_seq s) (f (m_traceRefreshEvent s))
    (m_traceTimeoutEvent s) (m_traceRetryCnt s) (m_negotiationDone s) (m_rvInterests s)
    (m_rvData s) (m_interestForData s) (m_data s) (m_current s) (m_lastTraceSendTime s)
    (m_waitingForFirstInterest s) (m_handoverDelays s) (m_useExternalAnchor s) (m_hoAnchor s)
    (m_traceDelay s) (m_freshness s) (m_signature s) (m_keyLocator s).
#[export] Instance set_m_traceTimeoutEvent {R} : Setter (@m_traceTimeoutEvent R) := fun f s =>
  mkStatimMobile (m_active s) (m_virtualPayloadSize s) (m_rvPrefix s) (m_dataPrefix s)
    (m_traceLifetime s) (m_refreshInterval s) (m_rand s) (m_seq s) (m_traceRefreshEvent s) (f
    (m_traceTimeoutEvent s)) (m_traceRetryCnt s) (m_negotiationDone s) (m_rvInterests s)
    (m_rvData s) (m_interestForData s) (m_data s) (m_current s) (m_lastTraceSendTime s)
    (m_waitingForFirstInterest s) (m_handoverDelays s) (m_useExternalAnchor s) (m_hoAnchor s)
    (m_traceDelay s) (m_freshness s) (m_signature s) (m_keyLocator s).
#[export] Instance set_m_traceRetryCnt {R} : Setter (@m_traceRetryCnt R) := fun f s =>
  mkStatimMobile (m_active s) (m_virtualPayloadSize s) (m_rvPrefix s) (m_dataPrefix s)
    (m_traceLifetime s) (m_refreshInterval s) (m_rand s) (m_seq s) (m_traceRefreshEvent s)
    (m_traceTimeoutEvent s) (f (m_traceRetryCnt s)) (m_negotiationDone s) (m_rvInterests s)
    (m_rvData s) (m_interestForData s) (m_data s) (m_current s) (m_lastTraceSendTime s)
    (m_waitingForFirstInterest s) (m_handoverDelays s) (m_useExternalAnchor s) (m_hoAnchor s)
    (m_traceDelay s) (m_freshness s) (m_signature s) (m_keyLocator s).
#[export] Instance set_m_rvInterests {R} : Setter (@m_rvInterests R) := fun f s =>
  mkStatimMobile (m_active s) (m_virtualPayloadSize s) (m_rvPrefix s) (m_dataPrefix s)
    (m_traceLifetime s) (m_refreshInterval s) (m_rand s) (m_seq s) (m_traceRefreshEvent s)
    (m_traceTimeoutEvent s) (m_traceRetryCnt s) (m_negotiationDone s) (f (m_rvInterests s))
    (m_rvData s) (m_interestForData s) (m_data s) (m_current s) (m_lastTraceSendTime s)
    (m_waitingForFirstInterest s) (m_handoverDelays s) (m_useExternalAnchor s) (m_hoAnchor s)
    (m_traceDelay s) (m_freshness s) (m_signature s) (m_keyLocator s).
#[export] Instance set_m_rvData {R} : Setter (@m_rvData R) := fun f s =>
  mkStatimMobile (m_active s) (m_virtualPayloadSize s) (m_rvPrefix s) (m_dataPrefix s)
    (m_traceLifetime s) (m_refreshInterval s) (m_rand s) (m_seq s) (m_traceRefreshEvent s)
    (m_traceTimeoutEvent s) (m_traceRetryCnt s) (m_negotiationDone s) (m_rvInterests s) (f
    (m_rvData s)) (m_interestForData s) (m_data s) (m_current s) (m_lastTraceSendTime s)
    (m_waitingForFirstInterest s) (m_handoverDelays s) (m_useExternalAnchor s) (m_hoAnchor s)
    (m_traceDelay s) (m_freshness s) (m_signature s) (m_keyLocator s).
#[export] Instance set_m_interestForData {R} : Setter (@m_interestForData R) := fun f s =>
  mkStatimMobile (m_active s) (m_virtualPayloadSize s) (m_rvPrefix s) (m_dataPrefix s)
    (m_traceLifetime s) (m_refreshInterval s) (m_rand s) (m_seq s) (m_traceRefreshEvent s)
    (m_traceTimeoutEvent s) (m_traceRetryCnt s) (m_negotiationDone s) (m_rvInterests s)
    (m_rvData s) (f (m_interestForData s)) (m_data s) (m_current s) (m_lastTraceSendTime s)
    (m_waitingForFirstInterest s) (m_handoverDelays s) (m_useExternalAnchor s) (m_hoAnchor s)
    (m_traceDelay s) (m_freshness s) (m_signature s) (m_keyLocator s).
#[export] Instance set_m_data {R} : Setter (@m_data R) := fun f s =>
  mkStatimMobile (m_active s) (m_virtualPayloadSize s) (m_rvPrefix s) (m_dataPrefix s)
    (m_traceLifetime s) (m_refreshInterval s) (m_rand s) (m_seq s) (m_traceRefreshEvent s)
    (m_traceTimeoutEvent s) (m_traceRetryCnt s) (m_negotiationDone s) (m_rvInterests s)
    (m_rvData s) (m_interestForData s) (f (m_data s)) (m_current s) (m_lastTraceSendTime s)
    (m_waitingForFirstInterest s) (m_handoverDelays s) (m_useExternalAnchor s) (m_hoAnchor s)
    (m_traceDelay s) (m_freshness s) (m_signature s) (m_keyLocator s).
#[export] Instance set_m_lastTraceSendTime {R} : Setter (@m_lastTraceSendTime R) := fun f s =>
  mkStatimMobile (m_active s) (m_virtualPayloadSize s) (m_rvPrefix s) (m_dataPrefix s)
    (m_traceLifetime s) (m_refreshInterval s) (m_rand s) (m_seq s) (m_traceRefreshEvent s)
    (m_traceTimeoutEvent s) (m_traceRetryCnt s) (m_negotiationDone s) (m_rvInterests s)
    (m_rvData s) (m_interestForData s) (m_data s) (m_current s) (f (m_lastTraceSendTime s))
    (m_waitingForFirstInterest s) (m_handoverDelays s) (m_useExternalAnchor s) (m_hoAnchor s)
    (m_traceDelay s) (m_freshness s) (m_signature s) (m_keyLocator s).
#[export] Instance set_m_waitingForFirstInterest {R} : Setter (@m_waitingForFirstInterest R) := fun f s =>
  mkStatimMobile (m_active s) (m_virtualPayloadSize s) (m_rvPrefix s) (m_dataPrefix s)
    (m_traceLifetime s) (m_refreshInterval s) (m_rand s) (m_seq s) (m_traceRefreshEvent s)
    (m_traceTimeoutEvent s) (m_traceRetryCnt s) (m_negotiationDone s) (m_rvInterests s)
    (m_rvData s) (m_interestForData s) (m_data s) (m_current s) (m_lastTraceSendTime s) (f
    (m_waitingForFirstInterest s)) (m_handoverDelays s) (m_useExternalAnchor s) (m_hoAnchor s)
    (m_traceDelay s) (m_freshness s) (m_signature s) (m_keyLocator s).
#[export] Instance set_m_handoverDelays {R} : Setter (@m_handoverDelays R) := fun f s =>
  mkStatimMobile (m_active s) (m_virtualPayloadSize s) (m_rvPrefix s) (m_dataPrefix s)
    (m_traceLifetime s) (m_refreshInterval s) (m_rand s) (m_seq s) (m_traceRefreshEvent s)
    (m_traceTimeoutEvent s) (m_traceRetryCnt s) (m_negotiationDone s) (m_rvInterests s)
    (m_rvData s) (m_interestForData s) (m_data s) (m_current s) (m_lastTraceSendTime s)
    (m_waitingForFirstInterest s) (f (m_handoverDelays s)) (m_useExternalAnchor s) (m_hoAnchor
    s) (m_traceDelay s) (m_freshness s) (m_signature s) (m_keyLocator s).
#[export] Instance set_m_useExternalAnchor {R} : Setter (@m_useExternalAnchor R) := fun f s =>
  mkStatimMobile (m_active s) (m_virtualPayloadSize s) (m_rvPrefix s) (m_dataPrefix s)
    (m_traceLifetime s) (m_refreshInterval s) (m_rand s) (m_seq s) (m_traceRefreshEvent s)
    (m_traceTimeoutEvent s) (m_traceRetryCnt s) (m_negotiationDone s) (m_rvInterests s)
    (m_rvData s) (m_interestForData s) (m_data s) (m_current s) (m_lastTraceSendTime s)
    (m_waitingForFirstInterest s) (m_handoverDelays s) (f (m_useExternalAnchor s)) (m_hoAnchor
    s) (m_traceDelay s) (m_freshness s) (m_signature s) (m_keyLocator s).
#[export] Instance set_m_hoAnchor {R} : Setter (@m_hoAnchor R) := fun f s =>
  mkStatimMobile (m_active s) (m_virtualPayloadSize s) (m_rvPrefix s) (m_dataPrefix s)
    (m_traceLifetime s) (m_refreshInterval s) (m_rand s) (m_seq s) (m_traceRefreshEvent s)
    (m_traceTimeoutEvent s) (m_traceRetryCnt s) (m_negotiationDone s) (m_rvInterests s)
    (m_rvData s) (m_interestForData s) (m_data s) (m_current s) (m_lastTraceSendTime s)
    (m_waitingForFirstInterest s) (m_handoverDelays s) (m_useExternalAnchor s) (f (m_hoAnchor
    s)) (m_traceDelay s) (m_freshness s) (m_signature s) (m_keyLocator s).
#[export] Instance set_m_current {R} : Setter (@m_current R) := fun f s =>
  mkStatimMobile (m_active s) (m_virtualPayloadSize s) (m_rvPrefix s) (m_dataPrefix s)
    (m_traceLifetime s) (m_refreshInterval s) (m_rand s) (m_seq s) (m_traceRefreshEvent s)
    (m_traceTimeoutEvent s) (m_traceRetryCnt s) (m_negotiationDone s) (m_rvInterests s)
    (m_rvData s) (m_interestForData s) (m_data s) (f (m_current s)) (m_lastTraceSendTime s)
    (m_waitingForFirstInterest s) (m_handoverDelays s) (m_useExternalAnchor s) (m_hoAnchor s)
    (m_traceDelay s) (m_freshness s) (m_signature s) (m_keyLocator s).

(** The constructor, with the attributes; [m_current] is not initialised, so its
    value is an argument. *)
Definition StatimMobile_new {R} (payload : Z) (rvPrefix dataPrefix : Name)
    (traceLifetime refreshInterval traceDelay : Z) (freshness signature : Z) (keyLocator : Name)
    (rand : R) (current : Z) : StatimMobile R :=
  mkStatimMobile false payload rvPrefix dataPrefix traceLifetime refreshInterval rand 1 None None 0
    true 0 0 0 0 current 0 false [] false 0 traceDelay freshness signature keyLocator.

(** The events that call a producer. *)
Inductive MobileEvent :=
| TraceEvent
| TraceTimeout
| DeliverInterest (interest : Interest)
| DeliverData (data : Data).

#[export] Instance MobileEvent_eq_dec : EqDecision MobileEvent.
Proof. solve_decision. Defined.

Section mobile.
Context {R : Type} `{!UniformStreams R}.
Abbreviation world := (AppWorld (StatimMobile R) MobileEvent).

Definition MakeTracePrefix (s : StatimMobile R) : Name :=
  makeTracePrefix (m_rvPrefix s) (m_dataPrefix s).

(** Cancel the event behind [id] if it is running. *)
Definition cancel_running (id : option EventId) : M world unit :=
  b ← app_is_running id;
  if (b : bool) then app_cancel id else mret tt.

Definition arm_refresh : M world unit :=
  s ← app_get;
  cancel_running (m_traceRefreshEvent s);;
  if bool_decide (m_refreshInterval s = Seconds0) then mret tt
  else
    delay ← via_seconds (m_refreshInterval s);
    id ← app_schedule delay TraceEvent;
    app_upd (fun s => s <| m_traceRefreshEvent := Some id |>).

Definition arm_timeout : M world unit :=
  s ← app_get;
  cancel_running (m_traceTimeoutEvent s);;
  delay ← via_seconds (m_traceLifetime s);
  id ← app_schedule delay TraceTimeout;
  app_upd (fun s => s <| m_traceTimeoutEvent := Some id |>).

Definition SendTrace : M world unit :=
  s ← app_get;
  if negb (0 <? m_seq s) then throw (Aborted "m_seq > 0") else
  let name := appendSequenceNumber (MakeTracePrefix s) (m_seq s) in
  let '(r, nonce) := draw_nonce (m_rand s) in
  app_upd (fun s => s <| m_seq ::= fun n => u64 (n + 1) |> <| m_rand := r |>
                      <| m_rvInterests ::= fun n => i32 (n + 1) |>);;
  to_link (OutInterest (new_interest name nonce (GetMilliSeconds (m_traceLifetime s))));;
  t ← app_now;
  app_upd (fun s => s <| m_lastTraceSendTime := t |>);;
  arm_refresh;;
  arm_timeout.

Definition OnAssociation : M world unit :=
  app_upd (fun s => s <| m_waitingForFirstInterest := true |>);;
  s ← app_get;
  app_schedule (m_traceDelay s) TraceEvent;;
  mret tt.

Definition MarkHandover (anchor : Z) (s : StatimMobile R) : StatimMobile R :=
  s <| m_waitingForFirstInterest := true |> <| m_useExternalAnchor := true |>
    <| m_hoAnchor := anchor |>.

Definition OnTraceTimeout : M world unit :=
  s ← app_get;
  app_cancel (m_traceRefreshEvent s);;
  if 3 <=? m_traceRetryCnt s then app_upd (fun s => s <| m_traceRetryCnt := 0 |>)
  else
    (if 0 <? m_seq s then SendTrace else mret tt);;
    app_upd (fun s => s <| m_traceRetryCnt ::= fun n => i32 (n + 1) |>).

Definition OnData (data : Data) : M world unit :=
  s ← app_get;
  if negb (m_active s) then mret tt
  else
    app_upd (fun s => s <| m_rvData ::= fun n => i32 (n + 1) |>);;
    seq ← lift_result (name_at (d_name data) (-1) ≫= toSequenceNumber);
    if negb (seq =? u64 (m_seq s - 1)) then mret tt
    else
      app_cancel (m_traceTimeoutEvent s);;
      app_upd (fun s => s <| m_traceRetryCnt := 0 |>).

(** The measurement of a handover: from the anchor to the first Interest. *)
Definition note_first_interest : M world unit :=
  s ← app_get;
  if m_waitingForFirstInterest s then
    t ← app_now;
    let anchor := if m_useExternalAnchor s then m_hoAnchor s else m_lastTraceSendTime s in
    let delayMs := ddiv (double_of_Z (i64 (t - anchor))) (double_of_Z 1000000) in
    app_upd (fun s => s <| m_handoverDelays ::= fun l => l ++ [delayMs] |>
                        <| m_waitingForFirstInterest := false |>)
  else mret tt.

Definition OnInterest (interest : Interest) : M world unit :=
  s ← app_get;
  if negb (m_active s) then mret tt
  else
    note_first_interest;;
    app_upd (fun s => s <| m_interestForData ::= fun n => i32 (n + 1) |>
                        <| m_data ::= fun n => i32 (n + 1) |>);;
    let dataName := appendSequenceNumber (i_name interest) (u64 (m_current s)) in
    data ← lift_result (reply dataName (m_virtualPayloadSize s) (m_freshness s) (m_signature s)
                          (m_keyLocator s));
    to_link (OutData data).

Definition mobile_StartApplication (s : StatimMobile R) : StatimMobile R := s <| m_active := true |>.
Definition mobile_StopApplication (s : StatimMobile R) : StatimMobile R := s <| m_active := false |>.

Definition mobile_dispatch (e : MobileEvent) : M world unit :=
  match e with
  | TraceEvent => SendTrace
  | TraceTimeout => OnTraceTimeout
  | DeliverInterest interest => OnInterest interest
  | DeliverData data => OnData data
  end.
End mobile.
