(* ===== verification/ProducerSpec.v ===== *)
(** * ProducerSpec: what becomes of an answer

    The Data with which a producer answers an Interest is read by every receiver as the
    packet the producer meant, if it is small enough to be received at all. *)
From S2P Require Import Prelude Tlv Encoder Block BlockSpec Names NameWire Exclude WireFormat WireFormatSpec PacketWireSpec Simulator SimTime Packets Application Producer MobileProducer.

(** ** What a receiver reads *)
Definition zeros (payload : Z) : list byte := replicate (Z.to_nat payload) (byte_of_Z 0).

(** The arguments that can be put on the wire. *)
Record reply_args (name : Name) (payload freshness signature : Z) (keyLocator : Name) : Prop := {
  ra_name : name_encodable name;
  ra_locator : name_encodable keyLocator;
  ra_payload : u32_range payload;
  ra_signature : u32_range signature;
  ra_freshness : i64_range freshness;
  ra_sizes : octets (name_value name) <= 4611686018427387904 /\
             octets (name_value keyLocator) <= 4611686018427387904
}.

Definition reply_signature_of (signature : Z) (keyLocator : Name) : Signature :=
  mkSignature
    (mkSignatureInfo 255 (if 0 <? name_size keyLocator then Some (KeyLocator_Name keyLocator) else None) [] None)
    (number_element tlv.SignatureValue signature).

Definition reply_of (name : Name) (payload freshness signature : Z) (keyLocator : Name) : WireFormat.Data :=
  WireFormat.mkData name (mkMetaInfo tlv.ContentType_Blob (GetMilliSeconds freshness) Component_new [])
    (mkElement tlv.Content (zeros payload) []) (reply_signature_of signature keyLocator) None.

Lemma reply_object_run name payload freshness signature keyLocator :
  reply_object name payload freshness signature keyLocator =
    inr (reply_of name payload freshness signature keyLocator).
Proof.
  unfold reply_object, reply_signature.
  destruct (makeNonNegativeIntegerBlock_spec tlv.SignatureValue signature) as (b & -> & Hb); [done|]. next.
  unfold setValue. rewrite (fresh_type _ _ _ Hb), (element_of_fresh _ _ Hb).
  unfold reply_of, reply_signature_of. by destruct (0 <? name_size keyLocator).
Qed.

Lemma i64_range_milliseconds t : i64_range t -> i64_range (GetMilliSeconds t).
Proof.
  unfold i64_range, GetMilliSeconds. intros H. 
  pose proof (Z.quot_le_mono (-9223372036854775808) t 1000000 ltac:(lia) ltac:(lia)) as H1.
  pose proof (Z.quot_le_mono t 9223372036854775807 1000000 ltac:(lia) ltac:(lia)) as H2.
  change (Z.quot (-9223372036854775808) 1000000) with (-9223372036854) in H1.
  change (Z.quot 9223372036854775807 1000000) with 9223372036854 in H2. lia.
Qed.

Lemma octets_zeros payload : 0 <= payload -> octets (zeros payload) = payload.
Proof. intros H. unfold octets, zeros. rewrite length_replicate. lia. Qed.

(** The size of an element around [v]. *)
Lemma octets_element_le t v : octets v <= octets (element t v) <= octets v + 18.
Proof.
  rewrite octets_element. pose proof (sizeOfVarNumber_le t). pose proof (sizeOfVarNumber_le (octets v)). lia.
Qed.

Lemma number_element_short t n : octets (el_wire (number_element t n)) <= 26.
Proof.
  cbn [number_element el_wire element_tv]. pose proof (octets_element_le t (nonNegativeInteger n)).
  pose proof (octets_nonNegativeInteger n). lia.
Qed.

Lemma octets_wires_one e : octets (wires [e]) = octets (el_wire e).
Proof. by rewrite wires_cons, octets_app, Z.add_0_r. Qed.

(** Octets behind a header that announces too many are refused. *)
Lemma fromStream_too_large t v more :
  u32_range t -> MAX_SIZE_OF_BLOCK_FROM_STREAM < octets v -> u64_range (octets v) ->
  exists what, Block_fromStream (element t v ++ more) = inl (TlvError what).
Proof.
  intros Ht Hv Hr. destruct (encodes_read _ _ _ more (encodes_element t v Ht Hr)) as (r & R1 & R2).
  rewrite Block_fromStream_header, (readType_or_throw_some _ _ _ R1). next. cbv iota beta.
  rewrite (readVarNumber_or_throw_some _ _ _ R2). next. cbv iota beta. unfold MAX_SIZE_OF_BLOCK_FROM_STREAM in *.
  destruct (Z.eqb_spec (octets v) 0); [lia|]. destruct (Z.ltb_spec 8800 (octets v)); [eauto|lia].
Qed.

Section reply_args.
Context (name : Name) (payload freshness signature : Z) (keyLocator : Name).
Hypothesis Ha : reply_args name payload freshness signature keyLocator.
Abbreviation d := (reply_of name payload freshness signature keyLocator).

Lemma reply_mi_ok : mi_ok (da_metaInfo d).
Proof.
  destruct Ha. split_and!; try done; [|by apply i64_range_milliseconds].
  cbn [reply_of da_metaInfo]. unfold mi_elements. cbn [mi_type mi_freshnessPeriod mi_finalBlockId mi_appMetaInfo].
  change (negb (tlv.ContentType_Blob =? tlv.ContentType_Blob)) with false.
  change (negb (Names.value_size Component_new =? 0)) with false. cbn [opt app].
  destruct (0 <=? GetMilliSeconds freshness); cbn [opt app]; [|done].
  rewrite wires_cons, octets_app. pose proof (number_element_short tlv.FreshnessPeriod (GetMilliSeconds freshness)).
  pose proof (octets_nonneg (el_wire (number_element tlv.FreshnessPeriod (GetMilliSeconds freshness)))).
  unfold u64_range. change (octets (wires [])) with 0. lia.
Qed.

Lemma reply_content : getContent d = element_tv tlv.Content (zeros payload).
Proof. done. Qed.

Lemma reply_content_ok : element_ok (getContent d) /\ el_type (getContent d) = tlv.Content.
Proof.
  split; [|done]. rewrite reply_content. apply element_tv_ok; [done|].
  destruct Ha as [_ _ Hp _ _ _]. unfold u32_range, u64_range in *. rewrite octets_zeros; lia.
Qed.

Lemma reply_locator_ok : from_option kl_ok True (si_keyLocator (sig_info (da_signature d))).
Proof.
  cbn [reply_of da_signature reply_signature_of sig_info si_keyLocator]. destruct Ha as [_ Hk _ _ _ [_ Hs]].
  destruct (0 <? name_size keyLocator); [|done]. split; [|done]. cbn [kl_elements]. rewrite wires_cons, octets_app.
  pose proof (octets_element_le tlv.Name (name_value keyLocator)). pose proof (octets_nonneg (name_value keyLocator)).
  change (octets (wires [])) with 0. cbn [name_element el_wire element_tv]. unfold u64_range. lia.
Qed.

Lemma reply_si_size : octets (wires (si_elements (sig_info (da_signature d)))) <= 4611686018427388000.
Proof.
  destruct Ha as [_ Hk _ _ _ [_ Hs]]. unfold si_elements. cbn [reply_of da_signature reply_signature_of sig_info si_keyLocator si_type si_otherTlvs rev].
  rewrite app_nil_r, wires_cons, octets_app. pose proof (number_element_short tlv.SignatureType (u64 255)).
  destruct (0 <? name_size keyLocator); cbn [locator_elements]; [|change (octets (wires [])) with 0; lia].
  rewrite wires_cons, octets_app. change (octets (wires [])) with 0.
  change (el_wire (codec_element (KeyLocator_Name keyLocator)))
    with (element tlv.KeyLocator (wires [name_element keyLocator])).
  pose proof (octets_element_le tlv.KeyLocator (wires [name_element keyLocator])) as H1.
  rewrite octets_wires_one in H1. pose proof (octets_element_le tlv.Name (name_value keyLocator)).
  change (el_wire (name_element keyLocator)) with (element tlv.Name (name_value keyLocator)) in H1. lia.
Qed.

Lemma reply_si_ok : si_ok (sig_info (da_signature d)).
Proof.
  split; [|split; [done|split; [exact reply_locator_ok|by constructor]]].
  pose proof reply_si_size. pose proof (octets_nonneg (wires (si_elements (sig_info (da_signature d))))).
  unfold u64_range. lia.
Qed.

Lemma reply_value_ok : element_ok (data_value d) /\ el_type (data_value d) = tlv.SignatureValue.
Proof.
  assert (data_value d = number_element tlv.SignatureValue signature) as ->.
  { unfold data_value, element_encoded, el_hasWire. cbn [reply_of da_signature reply_signature_of sig_value].
    by destruct (el_wire (number_element tlv.SignatureValue signature)) eqn:E. }
  split; [|done]. by apply number_element_ok.
Qed.

Lemma reply_elements_size :
  octets (wires (data_elements d)) <= 13835058055282165000.
Proof.
  destruct Ha as [_ _ Hp _ _ [Hs _]]. unfold data_elements. rewrite !wires_cons, !octets_app.
  change (octets (wires [])) with 0. rewrite reply_content.
  pose proof (octets_element_le tlv.Name (name_value name)).
  pose proof (octets_element_le tlv.Content (zeros payload)) as Hc. unfold u32_range in Hp.
  rewrite octets_zeros in Hc by lia.
  pose proof (octets_element_le tlv.SignatureInfo (wires (si_elements (sig_info (da_signature d))))).
  pose proof reply_si_size. pose proof (number_element_short tlv.SignatureValue signature).
  assert (el_wire (data_value d) = el_wire (number_element tlv.SignatureValue signature)) as -> by
    (unfold data_value, element_encoded, el_hasWire; cbn [reply_of da_signature reply_signature_of sig_value];
     by destruct (el_wire (number_element tlv.SignatureValue signature)) eqn:E).
  assert (octets (el_wire (codec_element (da_metaInfo d))) <= 100) as Hm.
  { change (octets (element tlv.MetaInfo (wires (mi_elements (da_metaInfo d)))) <= 100).
    pose proof (octets_element_le tlv.MetaInfo (wires (mi_elements (da_metaInfo d)))) as Hmi.
    assert (octets (wires (mi_elements (da_metaInfo d))) <= 26); [|lia].
    unfold mi_elements. cbn [reply_of da_metaInfo mi_type mi_freshnessPeriod mi_finalBlockId mi_appMetaInfo].
    change (negb (tlv.ContentType_Blob =? tlv.ContentType_Blob)) with false.
    change (negb (Names.value_size Component_new =? 0)) with false. cbn [opt app].
    destruct (0 <=? GetMilliSeconds freshness); cbn [opt app]; [|done].
    rewrite octets_wires_one. apply number_element_short. }
  change (el_wire (name_element (da_name d))) with (element tlv.Name (name_value name)).
  change (el_wire (element_tv tlv.Content (zeros payload))) with (element tlv.Content (zeros payload)).
  change (el_wire (si_element (sig_info (da_signature d))))
    with (element tlv.SignatureInfo (wires (si_elements (sig_info (da_signature d))))). lia.
Qed.

Lemma reply_data_ok : data_ok d.
Proof.
  split; [|split; [apply Ha|split; [exact reply_mi_ok|split; [exact reply_content_ok|split; [exact reply_si_ok|exact reply_value_ok]]]]].
  pose proof reply_elements_size. pose proof (octets_nonneg (wires (data_elements d))). unfold u64_range. lia.
Qed.

(** The packet that is handed to the forwarder. *)
Definition reply_packet : Data := mkData name (zeros payload) (el_wire (data_element d)) None.

Lemma reply_run : reply name payload freshness signature keyLocator = inr reply_packet.
Proof.
  unfold reply. rewrite reply_object_run. next.
  rewrite (Data_wireEncode_spec d reply_data_ok) by done. done.
Qed.

(** What a receiver reads from its octets, whatever follows them: a Statim node, and a face. *)
Lemma reply_read more :
  octets (wires (data_elements d)) <= MAX_SIZE_OF_BLOCK_FROM_STREAM ->
  decode_block (d_wire reply_packet ++ more) = inr (BData reply_packet) /\
  receive Data_of_block (d_wire reply_packet ++ more) = inr (data_read_into MetaInfo_new d).
Proof.
  intros Hs. split; [exact (decode_block_data d more reply_data_ok Hs)|].
  apply receive_element; [done|exact Hs|]. intros b Hb. unfold Data_of_block. by rewrite (Data_decodes _ d b reply_data_ok Hb).
Qed.

Lemma reply_refused more :
  MAX_SIZE_OF_BLOCK_FROM_STREAM < octets (wires (data_elements d)) ->
  exists what, Block_fromStream (d_wire reply_packet ++ more) = inl (TlvError what).
Proof.
  intros Hs. apply (fromStream_too_large tlv.Data (wires (data_elements d)) more); [done|exact Hs|apply reply_data_ok].
Qed.

(** The payload alone makes it too large. *)
Lemma reply_payload_size : payload <= octets (wires (data_elements d)).
Proof.
  destruct Ha as [_ _ Hp _ _ _]. unfold u32_range in Hp. unfold data_elements. rewrite !wires_cons, !octets_app, reply_content.
  pose proof (octets_element_le tlv.Content (zeros payload)) as Hc. rewrite octets_zeros in Hc by lia.
  change (el_wire (element_tv tlv.Content (zeros payload))) with (element tlv.Content (zeros payload)).
  repeat match goal with |- context [octets ?x] =>
    lazymatch goal with H : 0 <= octets x |- _ => fail | _ => pose proof (octets_nonneg x) end end.
  change (octets (wires [])) with 0. lia.
Qed.
End reply_args.

Lemma sequence_number_encodable n :
  component_encodable (fromSequenceNumber n) /\ octets (cvalue (fromSequenceNumber n)) <= 9.
Proof.
  assert (octets (cvalue (fromSequenceNumber n)) = 1 + octets (nonNegativeInteger n)) as Hs.
  { change (cvalue (fromSequenceNumber n)) with (byte_of_Z SEQUENCE_NUMBER_MARKER :: nonNegativeInteger n).
    unfold octets. cbn [length]. lia. }
  pose proof (octets_nonNegativeInteger n). pose proof (octets_nonneg (nonNegativeInteger n)).
  split; [split; [done|unfold u64_range; lia]|lia].
Qed.

Lemma name_value_append n c : name_value (append n c) = name_value n ++ component_wire c.
Proof. unfold name_value, append. rewrite fmap_app, concat_app. cbn [fmap list_fmap concat]. by rewrite app_nil_r. Qed.

Lemma append_sequence_encodable n k :
  name_encodable n -> octets (name_value n) <= 4611686018427387000 ->
  name_encodable (appendSequenceNumber n k) /\
  octets (name_value (appendSequenceNumber n k)) <= 4611686018427387904.
Proof.
  intros [Hc Hr] Hs. destruct (sequence_number_encodable k) as [Hk Hk9].
  assert (octets (name_value (appendSequenceNumber n k)) <= 4611686018427387904) as Hle.
  { unfold appendSequenceNumber. rewrite name_value_append, octets_app.
    pose proof (octets_element_le (ctype (fromSequenceNumber k)) (cvalue (fromSequenceNumber k))) as H.
    change (element (ctype (fromSequenceNumber k)) (cvalue (fromSequenceNumber k)))
      with (component_wire (fromSequenceNumber k)) in H. lia. }
  split; [|exact Hle]. split.
  - apply Forall_app. split; [done|by constructor].
  - pose proof (octets_nonneg (name_value (appendSequenceNumber n k))). unfold u64_range. lia.
Qed.

(** ** Property *)

(** The packet has the name and the payload.  Let [v] be the value of its Data element, which is
    larger than the payload.  If [v] fits into what a receiver takes from a stream, a Statim node and a
    face read the packet, whatever follows it; if not, taking it from the stream throws. *)
Definition readable (name : Name) (payload : Z) (data : Data) : Prop :=
  d_name data = name /\ d_content data = zeros payload /\
  exists v, d_wire data = element tlv.Data v /\ payload <= octets v /\ forall more,
    (octets v <= MAX_SIZE_OF_BLOCK_FROM_STREAM ->
       decode_block (d_wire data ++ more) = inr (BData data) /\
       exists d, receive Data_of_block (d_wire data ++ more) = inr d /\
         da_name d = name /\ el_value (da_content d) = zeros payload) /\
    (MAX_SIZE_OF_BLOCK_FROM_STREAM < octets v ->
       exists what, Block_fromStream (d_wire data ++ more) = inl (TlvError what)).

Lemma reply_readable name payload freshness signature keyLocator :
  reply_args name payload freshness signature keyLocator ->
  exists data, reply name payload freshness signature keyLocator = inr data /\ readable name payload data.
Proof.
  intros Ha. exists (reply_packet name payload freshness signature keyLocator).
  split; [by apply reply_run|]. split_and!; [done..|].
  exists (wires (data_elements (reply_of name payload freshness signature keyLocator))).
  split; [done|]. split; [by apply reply_payload_size|]. intros more. split; intros Hs.
  - destruct (reply_read name payload freshness signature keyLocator Ha more Hs) as [H1 H2].
    split; [exact H1|]. eexists. split; [exact H2|done].
  - by apply reply_refused.
Qed.

(** The first Interest after a handover ends the wait. *)
Lemma note_first_interest_run {R} (w : AppWorld (StatimMobile R) MobileEvent) :
  exists s1, note_first_interest w = (mkAppWorld (a_sim w) s1 (a_link w), inr tt) /\
    m_seq s1 = m_seq (a_app w) /\ m_waitingForFirstInterest s1 = false.
Proof.
  unfold note_first_interest. rewrite run_app_get. destruct (m_waitingForFirstInterest (a_app w)) eqn:E.
  - rewrite run_app_now. eexists. split; [reflexivity|]. done.
  - exists (a_app w). split; [by destruct w|done].
Qed.

(** C18: an active producer answers every Interest at once, with exactly one packet: the
    name of the Interest, in the mobile producer with the current sequence number behind
    it, and a payload of zeros.  If the value of the packet has at most 8800 octets, Statim nodes and
    faces read name and payload back from its octets.  A longer one, and so every payload of more than
    8800 octets, is sent all the same, and a receiver throws when it takes it from the stream.
    A producer that was stopped does nothing. *)
Theorem replies_received :
  (forall interest (w : producer_world), p_active (a_app w) = true ->
     let s := a_app w in
     reply_args (i_name interest) (p_virtualPayloadSize s) (p_freshness s) (p_signature s) (p_keyLocator s) ->
     exists data, Producer_OnInterest interest w =
         (mkAppWorld (a_sim w) s (a_link w ++ [OutData data]), inr tt) /\
       readable (i_name interest) (p_virtualPayloadSize s) data) /\
  (forall R interest (w : AppWorld (StatimMobile R) MobileEvent), m_active (a_app w) = true ->
     let s := a_app w in
     let name := appendSequenceNumber (i_name interest) (u64 (m_current s)) in
     reply_args (i_name interest) (m_virtualPayloadSize s) (m_freshness s) (m_signature s) (m_keyLocator s) ->
     octets (name_value (i_name interest)) <= 4611686018427387000 ->
     exists data s', OnInterest interest w = (mkAppWorld (a_sim w) s' (a_link w ++ [OutData data]), inr tt) /\
       m_seq s' = m_seq s /\ m_waitingForFirstInterest s' = false /\
       readable name (m_virtualPayloadSize s) data) /\
  (forall interest (w : producer_world), p_active (a_app w) = false ->
     Producer_OnInterest interest w = (w, inr tt)) /\
  (forall R interest (w : AppWorld (StatimMobile R) MobileEvent), m_active (a_app w) = false ->
     OnInterest interest w = (w, inr tt)).
Proof.
  split_and!.
  - intros interest w Hact s Ha. destruct (reply_readable _ _ _ _ _ Ha) as (data & E & Hr). exists data.
    split; [|exact Hr]. unfold Producer_OnInterest. rewrite run_app_get, Hact. cbn [negb]. fold s.
    by rewrite E, run_lift_inr.
  - intros R interest w Hact s name Ha Hsz. destruct Ha as [H1 H2 H3 H4 H5 [_ H6]].
    destruct (append_sequence_encodable (i_name interest) (u64 (m_current s)) H1 Hsz) as [Hn Hns].
    destruct (reply_readable name (m_virtualPayloadSize s) (m_freshness s) (m_signature s) (m_keyLocator s))
      as (data & E & Hr); [by split|].
    unfold OnInterest. rewrite run_app_get, Hact. cbn [negb].
    destruct (note_first_interest_run w) as (s1 & En & Hseq & Hwait). rewrite (run_seq _ _ _ _ _ En), run_app_upd.
    fold s name. rewrite E, run_lift_inr. eexists data, _. split; [reflexivity|]. by split_and!.
  - intros interest w Hact. unfold Producer_OnInterest. by rewrite run_app_get, Hact.
  - intros R interest w Hact. unfold OnInterest. by rewrite run_app_get, Hact.
Qed.

Definition demo_producer (payload : Z) : producer_world :=
  mkAppWorld sim_init (mkProducer true [] [] payload 1000000000 7 []) [].

Lemma replies_received_witness :
  let i := new_interest demo_name 1 4000 in
  reply_args demo_name 1024 1000000000 7 [] /\ reply_args demo_name 9000 1000000000 7 [] /\
  (exists data, Producer_OnInterest i (demo_producer 1024) =
     (mkAppWorld sim_init (a_app (demo_producer 1024)) [OutData data], inr tt) /\
     decode_block (d_wire data) = inr (BData data)) /\
  exists data what, Producer_OnInterest i (demo_producer 9000) =
     (mkAppWorld sim_init (a_app (demo_producer 9000)) [OutData data], inr tt) /\
     Block_fromStream (d_wire data) = inl (TlvError what).
Proof.
  assert (forall payload, u32_range payload -> reply_args demo_name payload 1000000000 7 []) as Ha.
  { intros payload Hp. split; [exact demo_name_encodable|by split|exact Hp|done|done|by split]. }
  assert (reply_args demo_name 1024 1000000000 7 []) as H1 by (by apply Ha).
  assert (reply_args demo_name 9000 1000000000 7 []) as H2 by (by apply Ha).
  split; [exact H1|]. split; [exact H2|]. destruct replies_received as (H & _). split.
  - destruct (H (new_interest demo_name 1 4000) (demo_producer 1024) eq_refl H1) as (data & E & _ & _ & v & Hw & _ & Hr).
    exists data. split; [exact E|]. destruct (Hr []) as [Hok _]. rewrite app_nil_r in Hok. apply Hok.
    assert (reply demo_name 1024 1000000000 7 [] = inr data) as Ed.
    { unfold Producer_OnInterest in E. rewrite run_app_get in E. cbn [demo_producer a_app p_active negb] in E.
      destruct (reply _ _ _ _ _) as [|data'] eqn:Er in E; [by injection E|].
      cbn [i_name new_interest p_virtualPayloadSize p_freshness p_signature p_keyLocator] in Er.
      rewrite run_lift_inr in E. injection E as ->. exact Er. }
    assert ((octets ∘ d_wire) <$> reply demo_name 1024 1000000000 7 [] = inr 1054) as Es by (vm_compute; reflexivity).
    rewrite Ed in Es. injection Es as Es. rewrite Hw in Es. pose proof (octets_element_le tlv.Data v).
    unfold MAX_SIZE_OF_BLOCK_FROM_STREAM. lia.
  - destruct (H (new_interest demo_name 1 4000) (demo_producer 9000) eq_refl H2) as (data & E & _ & _ & v & _ & Hv & Hr).
    destruct (Hr []) as [_ Hno]. rewrite app_nil_r in Hno. destruct Hno as (what & Hw).
    { cbn [demo_producer a_app p_virtualPayloadSize] in Hv. unfold MAX_SIZE_OF_BLOCK_FROM_STREAM. lia. }
    exists data, what. split; [exact E|exact Hw].
Defined.
