(* ===== verification/MobileProducerSpec.v ===== *)
(** * MobileProducerSpec: what a mobile producer does over a run

    Its reachable states under any association, traffic, timing and interleaving
    with the rest of the simulation: the Traces carry consecutive generations that
    forwarders recognise, an unanswered Trace is repeated three times, and with a
    refresh interval below the lifetime the repetition never happens. *)
From S2P Require Import Prelude Tlv Names Simulator SimTime Packets ForwardingEngine.
From S2P Require Import Application MobileProducer.

Section mobile.
Context {R : Type} `{!UniformStreams R}.
Abbreviation world := (AppWorld (StatimMobile R) MobileEvent).
Implicit Types (w : world).

(** ** What can happen to a producer

    [mobile_elapse] is a stretch of the run in which other events move the clock
    and number events of their own. *)
Inductive mobile_step : relation world :=
| mobile_start w : mobile_step w (w <| a_app ::= mobile_StartApplication |>)
| mobile_stop w : mobile_step w (w <| a_app ::= mobile_StopApplication |>)
| mobile_association w : mobile_step w (OnAssociation w).1
| mobile_handover anchor w : mobile_step w (w <| a_app ::= MarkHandover anchor |>)
| mobile_interest i w : mobile_step w (doSend (DeliverInterest i) w).1
| mobile_data d w : mobile_step w (doSend (DeliverData d) w).1
| mobile_event w : mobile_step w (ProcessOneEvent mobile_dispatch w).1
| mobile_elapse ts uid n w :
    m_currentTs (a_sim w) <= ts -> Forall (fun ev => ts <= key_ts ev) (m_events (a_sim w)) ->
    mobile_step w (w <| a_sim ::= fun s => mkSim ts uid n (m_events s) (m_stop s) |>).

(** ** The Traces sent *)

(** The names of the Traces and the number of the next one. *)
Definition trace_view (w : world) : list Name * Z * Name :=
  (map i_name (sent_interests (a_link w)), m_seq (a_app w), MakeTracePrefix (a_app w)).

Abbreviation same_traces := (agree_on trace_view).

(** The first [n] Traces under a prefix. *)
Definition traces (prefix : Name) (n : nat) : list Name :=
  map (fun k => appendSequenceNumber prefix (u64 (Z.of_nat k + 1))) (seq 0 n).

Definition traces_ok (prefix : Name) (w : world) : Prop :=
  exists n, trace_view w = (traces prefix n, u64 (Z.of_nat n + 1), prefix).

Lemma same_app_upd f :
  (forall s, m_seq (f s) = m_seq s /\ MakeTracePrefix (f s) = MakeTracePrefix s) ->
  respects same_traces (app_upd (E := MobileEvent) f).
Proof. intros Hf w. unfold agree_on, trace_view. cbn. by destruct (Hf (a_app w)) as [-> ->]. Qed.

Lemma same_schedule d e : respects same_traces (app_schedule (A := StatimMobile R) d e).
Proof. intros w. unfold app_schedule, action. by destruct (Schedule d e (a_sim w)). Qed.

Lemma same_cancel id : respects same_traces (app_cancel (A := StatimMobile R) (E := MobileEvent) id).
Proof. destruct id; by intros w. Qed.

Lemma same_via_seconds t : respects same_traces (via_seconds (A := StatimMobile R) (E := MobileEvent) t).
Proof. intros w. unfold via_seconds. by destruct (Seconds _). Qed.

Lemma same_doSend e : respects same_traces (doSend (A := StatimMobile R) e).
Proof. by intros w. Qed.

Hint Resolve same_schedule same_cancel same_via_seconds same_doSend : respects.
Hint Extern 1 (respects same_traces (app_upd _)) => by apply same_app_upd : respects.

Lemma same_cancel_running id : respects same_traces (cancel_running (R := R) id).
Proof. unfold cancel_running, app_is_running. respects. Qed.
Hint Resolve same_cancel_running : respects.

Lemma same_arm_refresh : respects same_traces (arm_refresh (R := R)).
Proof. unfold arm_refresh, app_get. respects. Qed.
Lemma same_arm_timeout : respects same_traces (arm_timeout (R := R)).
Proof. unfold arm_timeout, app_get. respects. Qed.
Lemma same_OnAssociation : respects same_traces (OnAssociation (R := R)).
Proof. unfold OnAssociation, app_get. respects. Qed.
Lemma same_OnData d : respects same_traces (OnData (R := R) d).
Proof. unfold OnData, app_get. respects. Qed.
Lemma same_note_first_interest : respects same_traces (note_first_interest (R := R)).
Proof. unfold note_first_interest, app_get, app_now. respects. Qed.

Lemma same_OutData d : respects same_traces (to_link (A := StatimMobile R) (E := MobileEvent) (OutData d)).
Proof.
  intros w. unfold agree_on, trace_view. cbn. unfold sent_interests.
  by rewrite omap_app, app_nil_r.
Qed.
Hint Resolve same_arm_refresh same_arm_timeout same_note_first_interest same_OutData : respects.

Lemma same_OnInterest i : respects same_traces (OnInterest (R := R) i).
Proof. unfold OnInterest, app_get. respects. Qed.

Lemma traces_ok_same prefix {A} (m : M world A) :
  respects same_traces m -> preserves (traces_ok prefix) m.
Proof. intros Hm w [n Hn]. exists n. unfold respects, agree_on in Hm. by rewrite Hm. Qed.

Lemma traces_snoc prefix n :
  traces prefix n ++ [appendSequenceNumber prefix (u64 (Z.of_nat n + 1))] = traces prefix (S n).
Proof. unfold traces. rewrite seq_S, map_app. done. Qed.

(** The world once a Trace is sent and counted, before its timers are armed. *)
Definition noted (w : world) : world :=
  let s := a_app w in
  let '(r, nonce) := draw_nonce (m_rand s) in
  mkAppWorld (a_sim w)
    (s <| m_seq ::= fun n => u64 (n + 1) |> <| m_rand := r |>
       <| m_rvInterests ::= fun n => i32 (n + 1) |> <| m_lastTraceSendTime := m_currentTs (a_sim w) |>)
    (a_link w ++ [OutInterest (new_interest
       (appendSequenceNumber (MakeTracePrefix s) (m_seq s)) nonce (GetMilliSeconds (m_traceLifetime s)))]).

Lemma SendTrace_run w :
  SendTrace w =
  if 0 <? m_seq (a_app w) then (arm_refresh;; arm_timeout) (noted w)
  else (w, inl (Aborted "m_seq > 0")).
Proof.
  unfold SendTrace, noted. rewrite run_app_get. destruct (0 <? _); [|done]. cbn [negb]. destruct (draw_nonce _) as [r nonce].
  by rewrite run_app_upd, run_to_link, run_app_now, run_app_upd.
Qed.

Lemma noted_view prefix n w :
  trace_view w = (traces prefix n, u64 (Z.of_nat n + 1), prefix) ->
  trace_view (noted w) = (traces prefix (S n), u64 (Z.of_nat (S n) + 1), prefix).
Proof.
  intros Hn. unfold trace_view in *. injection Hn as Hnames Hseq Hprefix.
  unfold noted. destruct (draw_nonce _) as [r nonce]. cbn. unfold sent_interests in *.
  rewrite omap_app. cbn. rewrite map_app. cbn.
  rewrite Hprefix, Hseq, Hnames, traces_snoc. f_equal; [f_equal|done].
  unfold u64. rewrite Zplus_mod_idemp_l. f_equal. lia.
Qed.

Lemma noted_rest w :
  a_sim (noted w) = a_sim w /\
  m_traceRetryCnt (a_app (noted w)) = m_traceRetryCnt (a_app w) /\
  m_refreshInterval (a_app (noted w)) = m_refreshInterval (a_app w) /\
  m_traceLifetime (a_app (noted w)) = m_traceLifetime (a_app w) /\
  m_traceRefreshEvent (a_app (noted w)) = m_traceRefreshEvent (a_app w) /\
  m_traceTimeoutEvent (a_app (noted w)) = m_traceTimeoutEvent (a_app w).
Proof. unfold noted. by destruct (draw_nonce _). Qed.

Lemma traces_SendTrace prefix : preserves (traces_ok prefix) SendTrace.
Proof.
  intros w [n Hn]. rewrite SendTrace_run. destruct (0 <? _); [|by exists n].
  assert (traces_ok prefix (noted w)) as H by (exists (S n); by apply noted_view).
  revert H. apply traces_ok_same. respects.
Qed.

Lemma traces_dispatch prefix e : preserves (traces_ok prefix) (mobile_dispatch e).
Proof.
  destruct e as [| |i|d]; cbn.
  - apply traces_SendTrace.
  - unfold OnTraceTimeout, app_get. apply preserves_bind; [apply preserves_gets|intros s].
    apply preserves_bind; [apply traces_ok_same; respects|intros _].
    destruct (3 <=? _); [apply traces_ok_same; respects|].
    apply preserves_bind; [|intros _; apply traces_ok_same; respects].
    destruct (0 <? _); [apply traces_SendTrace|apply preserves_ret].
  - apply traces_ok_same, same_OnInterest.
  - apply traces_ok_same, same_OnData.
Qed.

Lemma traces_step prefix w w' : mobile_step w w' -> traces_ok prefix w -> traces_ok prefix w'.
Proof.
  intros Hs Hw. destruct Hs; try done.
  revert w Hw. apply preserves_ProcessOneEvent; [|apply traces_dispatch].
  by intros w s' oe Hw _.
Qed.
(** ** An unanswered Trace without a refresh interval *)

(** Nothing is queued but a timeout at [t], after [k] repetitions. *)
Record awaiting (prefix : Name) (lifetime t k : Z) (n : nat) (w : world) : Prop := {
  aw_events : exists uid, m_events (a_sim w) = [mkEvent t uid TraceTimeout false];
  aw_stop : m_stop (a_sim w) = false;
  aw_retry : m_traceRetryCnt (a_app w) = k;
  aw_refresh : m_refreshInterval (a_app w) = Seconds0;
  aw_lifetime : m_traceLifetime (a_app w) = lifetime;
  aw_view : trace_view w = (traces prefix n, u64 (Z.of_nat n + 1), prefix)
}.

Lemma nothing_running {E} id (s : Sim E) : m_events s = [] -> is_running id s = false.
Proof. intros H. destruct id as [id|]; [|done]. cbn. unfold IsExpired. rewrite H. cbn. by rewrite orb_true_r. Qed.

Lemma nothing_to_cancel {E} id (s : Sim E) : m_events s = [] -> Cancel id s = s.
Proof. intros H. unfold Cancel, IsExpired. rewrite H. cbn. by rewrite orb_true_r. Qed.

Lemma cancel_running_alone id w :
  m_events (a_sim w) = [] -> cancel_running id w = (w, inr tt).
Proof. intros He. unfold cancel_running. by rewrite run_app_is_running, nothing_running. Qed.

(** One timer is armed, after the latest Trace, when nothing else is queued. *)
Lemma SendTrace_alone prefix lifetime delay n w :
  m_events (a_sim w) = [] -> m_stop (a_sim w) = false ->
  m_refreshInterval (a_app w) = Seconds0 -> m_traceLifetime (a_app w) = lifetime ->
  Seconds (GetSeconds lifetime) = Some delay ->
  0 <= delay -> 0 <= m_currentTs (a_sim w) -> delay + m_currentTs (a_sim w) <= INT64_MAX ->
  trace_view w = (traces prefix n, u64 (Z.of_nat n + 1), prefix) -> 0 < m_seq (a_app w) ->
  exists w', SendTrace w = (w', inr tt) /\ m_currentTs (a_sim w') = m_currentTs (a_sim w) /\
    awaiting prefix lifetime (delay + m_currentTs (a_sim w)) (m_traceRetryCnt (a_app w)) (S n) w'.
Proof.
  intros He Hstop Hr Hl Hd H0 Hn Hmax Hv Hpos. unfold INT64_MAX in Hmax.
  destruct (noted_rest w) as (E1 & E2 & E3 & E4 & _). apply noted_view in Hv.
  rewrite SendTrace_run. apply Z.ltb_lt in Hpos as ->. revert E1 E2 E3 E4 Hv. generalize (noted w). intros w1 E1 E2 E3 E4 Hv.
  unfold arm_refresh. rewrite run_assoc, run_app_get, run_assoc.
  erewrite run_seq by (apply cancel_running_alone; by rewrite E1).
  rewrite bool_decide_eq_true_2, run_ret by congruence.
  unfold arm_timeout. rewrite run_app_get.
  erewrite run_seq by (apply cancel_running_alone; by rewrite E1).
  rewrite E4, Hl. erewrite run_via_seconds by exact Hd. rewrite run_app_schedule.
  eexists. split; [reflexivity|]. unfold Schedule. rewrite E1, He.
  rewrite i64_id, u64_id by (unfold i64_range, u64_range; lia).
  split; [done|]. split; cbn; eauto with congruence.
Qed.

Lemma app_cancel_alone id w : m_events (a_sim w) = [] -> app_cancel id w = (w, inr tt).
Proof.
  intros He. destruct id as [id|]; [|done]. destruct w as [sim s l]. cbn in He |- *.
  unfold modify, set_a_sim. cbn. by rewrite nothing_to_cancel.
Qed.

Lemma OnTraceTimeout_alone w :
  m_events (a_sim w) = [] ->
  OnTraceTimeout w =
  (if 3 <=? m_traceRetryCnt (a_app w) then app_upd (fun s => s <| m_traceRetryCnt := 0 |>)
   else (if 0 <? m_seq (a_app w) then SendTrace else mret tt);;
        app_upd (fun s => s <| m_traceRetryCnt ::= fun n => i32 (n + 1) |>)) w.
Proof.
  intros He. unfold OnTraceTimeout. rewrite run_app_get.
  by erewrite run_seq by (by apply app_cancel_alone).
Qed.

(** The world when the waiting timeout is the current event. *)
Lemma awaiting_next prefix lifetime t k n w :
  awaiting prefix lifetime t k n w ->
  exists uid, ProcessOneEvent mobile_dispatch w =
    OnTraceTimeout (mkAppWorld (mkSim t uid (m_uid (a_sim w)) [] false) (a_app w) (a_link w)).
Proof.
  intros [[uid He] Hstop _ _ _ _]. exists uid. unfold ProcessOneEvent. rewrite run_gets.
  unfold RemoveNext. cbn. by rewrite He, Hstop.
Qed.

Lemma timeout_again prefix lifetime delay t k n w :
  Seconds (GetSeconds lifetime) = Some delay -> 0 <= delay -> 0 <= t ->
  delay + t <= INT64_MAX -> 0 <= k < 3 -> Z.of_nat n + 1 < 18446744073709551616 ->
  awaiting prefix lifetime t k n w ->
  exists w', ProcessOneEvent mobile_dispatch w = (w', inr tt) /\
    awaiting prefix lifetime (delay + t) (k + 1) (S n) w'.
Proof.
  intros Hd Hd0 Ht Hmax Hk Hn Hw. destruct (awaiting_next _ _ _ _ _ _ Hw) as [uid ->].
  destruct Hw as [_ _ Hk' Hr Hl Hv]. rewrite OnTraceTimeout_alone by done. cbn [a_app].
  rewrite Hk', (proj2 (Z.leb_gt 3 k)) by lia.
  pose proof Hv as Hseq. unfold trace_view in Hseq. injection Hseq as _ Hseq _.
  rewrite u64_id in Hseq by (unfold u64_range; lia).
  assert (0 < m_seq (a_app w)) as Hpos by lia. rewrite (proj2 (Z.ltb_lt 0 _)) by done.
  match goal with |- exists w', (SendTrace ≫= _) ?w1 = _ /\ _ =>
    destruct (SendTrace_alone prefix lifetime delay n w1) as (w2 & E & Ht2 & Hw2); [done..|] end.
  rewrite (run_seq _ _ _ _ _ E). eexists. split; [reflexivity|].
  cbn [a_sim m_currentTs a_app] in Ht2, Hw2. rewrite Hk' in Hw2.
  destruct Hw2 as [H1 H2 H3 H4 H5 H6]. split; try done. cbn. rewrite H3.
  apply i32_id. lia.
Qed.

Lemma timeout_last prefix lifetime t k n w :
  3 <= k -> awaiting prefix lifetime t k n w ->
  exists w', ProcessOneEvent mobile_dispatch w = (w', inr tt) /\
    m_events (a_sim w') = [] /\ m_currentTs (a_sim w') = t /\ m_traceRetryCnt (a_app w') = 0 /\
    trace_view w' = (traces prefix n, u64 (Z.of_nat n + 1), prefix).
Proof.
  intros Hk Hw. destruct (awaiting_next _ _ _ _ _ _ Hw) as [uid ->].
  destruct Hw as [_ _ Hk' _ _ Hv]. rewrite OnTraceTimeout_alone by done. cbn [a_app].
  rewrite Hk', (proj2 (Z.leb_le 3 k)) by lia. eexists. split; [reflexivity|]. by split_and!.
Qed.

Lemma run_awaiting prefix lifetime t k n fuel w :
  awaiting prefix lifetime t k n w ->
  Run_loop mobile_dispatch (S fuel) w =
  (ProcessOneEvent mobile_dispatch;; Run_loop mobile_dispatch fuel) w.
Proof.
  intros [[uid He] Hstop _ _ _ _]. cbn [Run_loop]. rewrite run_gets.
  unfold IsFinished. cbn. by rewrite He, Hstop.
Qed.

Lemma run_finished fuel w : m_events (a_sim w) = [] -> Run_loop mobile_dispatch fuel w = (w, inr tt).
Proof.
  intros He. destruct fuel as [|fuel]; [done|]. cbn [Run_loop]. rewrite run_gets.
  unfold IsFinished. cbn. by rewrite He.
Qed.

(** [j] repetitions are left. *)
Lemma run_repetitions prefix lifetime delay (j : nat) fuel t n w :
  Seconds (GetSeconds lifetime) = Some delay -> 0 <= delay -> 0 <= t ->
  Z.of_nat j * delay + t <= INT64_MAX -> (j <= 3)%nat ->
  Z.of_nat (j + n) < 18446744073709551616 ->
  awaiting prefix lifetime t (3 - Z.of_nat j) n w ->
  exists w', Run_loop mobile_dispatch (S j + fuel) w = (w', inr tt) /\
    m_events (a_sim w') = [] /\ m_currentTs (a_sim w') = Z.of_nat j * delay + t /\
    m_traceRetryCnt (a_app w') = 0 /\
    trace_view w' = (traces prefix (j + n), u64 (Z.of_nat (j + n) + 1), prefix).
Proof.
  intros Hd Hpos. revert t n w. induction j as [|j IH]; intros t n w Ht Hmax Hj Hn Hw;
    cbn [Nat.add]; rewrite (run_awaiting _ _ _ _ _ _ _ Hw).
  - destruct (timeout_last prefix lifetime t 3 n w) as (w' & E & He & H); [lia|exact Hw|].
    rewrite (run_seq _ _ _ _ _ E), run_finished by done. exists w'. split; [done|].
    split; [done|]. destruct H as (-> & H). by split; [lia|].
  - destruct (timeout_again prefix lifetime delay t (3 - Z.of_nat (S j)) n w) as (w1 & E & Hw1);
      [done|done|done|nia|lia|lia|done|].
    rewrite (run_seq _ _ _ _ _ E).
    replace (3 - Z.of_nat (S j) + 1) with (3 - Z.of_nat j) in Hw1 by lia.
    destruct (IH (delay + t) (S n) w1) as (w' & E' & He & Hts & H); [lia|nia|lia|lia|done|].
    cbn [Nat.add] in E'. exists w'. rewrite E'.
    replace (S (j + n)) with (j + S n)%nat by lia. split_and!; [done|done|lia|apply H..].
Qed.

(** ** A refresh interval below the lifetime *)
Section refresh.
Context (refresh lifetime interval delay horizon : Z).
Hypothesis Hrefresh : refresh <> Seconds0.
Hypothesis Hinterval : Seconds (GetSeconds refresh) = Some interval.
Hypothesis Hdelay : Seconds (GetSeconds lifetime) = Some delay.
Hypothesis Horder : 0 <= interval < delay.
Hypothesis Hhorizon : delay + horizon <= INT64_MAX.

(** Before the horizon, and before the 32-bit event numbers run out. *)
Definition in_time (w : world) : Prop :=
  m_currentTs (a_sim w) <= horizon /\ m_uid (a_sim w) + 3 < 4294967296.

(** Every timeout still queued is the one the producer remembers, and some Trace
    is queued before it. *)
Record preempted (w : world) : Prop := {
  pe_ordered : sim_ordered (a_sim w);
  pe_now : 0 <= m_currentTs (a_sim w);
  pe_uid : 0 <= m_uid (a_sim w);
  pe_retry : m_traceRetryCnt (a_app w) = 0;
  pe_refresh : m_refreshInterval (a_app w) = refresh;
  pe_lifetime : m_traceLifetime (a_app w) = lifetime;
  pe_delay : 0 <= m_traceDelay (a_app w) <= delay;
  pe_seq : 0 < m_seq (a_app w) <= m_uid (a_sim w) + 1;
  pe_stale id : m_traceTimeoutEvent (a_app w) = Some id -> id_uid id < m_uid (a_sim w);
  pe_cover id : queued (a_sim w) id TraceTimeout ->
    m_traceTimeoutEvent (a_app w) = Some id /\
    exists r, queued (a_sim w) r TraceEvent /\ id_ts r < id_ts id
}.

(** What [SendTrace] needs: a timeout still queued is remembered and not yet due. *)
Record due_later (w : world) : Prop := {
  dl_ordered : sim_ordered (a_sim w);
  dl_now : 0 <= m_currentTs (a_sim w);
  dl_uid : 0 <= m_uid (a_sim w);
  dl_retry : m_traceRetryCnt (a_app w) = 0;
  dl_refresh : m_refreshInterval (a_app w) = refresh;
  dl_lifetime : m_traceLifetime (a_app w) = lifetime;
  dl_delay : 0 <= m_traceDelay (a_app w) <= delay;
  dl_seq : 0 < m_seq (a_app w) <= m_uid (a_sim w) + 3;
  dl_stale id : m_traceTimeoutEvent (a_app w) = Some id -> id_uid id < m_uid (a_sim w);
  dl_later id : queued (a_sim w) id TraceTimeout ->
    m_traceTimeoutEvent (a_app w) = Some id /\ m_currentTs (a_sim w) < id_ts id
}.

Definition cancel_if (id : option EventId) (s : Sim MobileEvent) : Sim MobileEvent :=
  match id with
  | Some i => if is_running id s then Cancel i s else s
  | None => s
  end.

Lemma run_cancel_running {B} id (k : unit -> M world B) w :
  (cancel_running id ≫= k) w = k tt (mkAppWorld (cancel_if id (a_sim w)) (a_app w) (a_link w)).
Proof.
  unfold cancel_running, cancel_if. rewrite run_assoc, run_app_is_running.
  destruct (is_running id (a_sim w)) eqn:E.
  - by rewrite run_app_cancel; destruct id.
  - rewrite run_ret. by destruct w as [s a l], id as [i|].
Qed.

Lemma cancel_if_spec id s :
  m_currentTs (cancel_if id s) = m_currentTs s /\ m_uid (cancel_if id s) = m_uid s /\
  (sim_ordered s -> sim_ordered (cancel_if id s)) /\
  (forall i e, queued (cancel_if id s) i e -> queued s i e) /\
  (forall i e, id <> Some i -> queued s i e -> queued (cancel_if id s) i e).
Proof.
  unfold cancel_if. destruct id as [id|]; [|by split_and!].
  destruct (is_running _ s); [|by split_and!]. split_and!.
  - unfold Cancel. by case_match.
  - unfold Cancel. by case_match.
  - apply sim_ordered_Cancel.
  - intros i e. apply queued_Cancel.
  - intros i e Hne. apply queued_Cancel_other. congruence.
Qed.

Lemma cancel_if_gone id s e : m_currentTs s < id_ts id -> ~ queued (cancel_if (Some id) s) id e.
Proof.
  intros Hts Hq. destruct (cancel_if_spec (Some id) s) as (_ & _ & _ & Hold & _).
  assert (IsExpired id s = false) as Hrun by (eapply queued_running; eauto).
  unfold cancel_if, is_running in Hq. cbn in Hq. rewrite Hrun in Hq.
  by apply (Cancel_not_queued _ _ _ Hrun) in Hq.
Qed.

Definition rearmed (w : world) : world :=
  let s := a_app w in
  let s1 := cancel_if (m_traceRefreshEvent s) (a_sim w) in
  let '(s2, r) := Schedule interval TraceEvent s1 in
  let s3 := cancel_if (m_traceTimeoutEvent s) s2 in
  let '(s4, t) := Schedule delay TraceTimeout s3 in
  mkAppWorld s4 (s <| m_traceRefreshEvent := Some r |> <| m_traceTimeoutEvent := Some t |>) (a_link w).

Lemma rearm_run w :
  m_refreshInterval (a_app w) = refresh -> m_traceLifetime (a_app w) = lifetime ->
  (arm_refresh;; arm_timeout) w = (rearmed w, inr tt).
Proof.
  intros Hr Hl. unfold arm_refresh. rewrite run_assoc, run_app_get, run_assoc, run_cancel_running.
  rewrite bool_decide_eq_false_2 by congruence. rewrite run_assoc, Hr.
  erewrite run_via_seconds by exact Hinterval. rewrite run_assoc, run_app_schedule, run_app_upd.
  unfold arm_timeout. rewrite run_app_get, run_cancel_running. cbn [a_app a_sim a_link].
  change (m_traceLifetime (a_app w <| m_traceRefreshEvent := _ |>)) with (m_traceLifetime (a_app w)).
  rewrite Hl. erewrite run_via_seconds by exact Hdelay. rewrite run_app_schedule.
  unfold rearmed. destruct (Schedule interval _ _) as [s2 r] eqn:E2. cbn [a_app a_sim a_link fst snd].
  change (m_traceTimeoutEvent (a_app w <| m_traceRefreshEvent := _ |>))
    with (m_traceTimeoutEvent (a_app w)).
  by destruct (Schedule delay _ _) as [s4 t].
Qed.

Lemma rearmed_preempted w :
  due_later w -> in_time w -> preempted (rearmed w).
Proof.
  intros [H1 H2 H3 H4 H5 H6 H7 Hseq H8 H9] [Ht Hu]. unfold rearmed.
  destruct (cancel_if_spec (m_traceRefreshEvent (a_app w)) (a_sim w)) as (A1 & A2 & A3 & A4 & _).
  set (s1 := cancel_if (m_traceRefreshEvent (a_app w)) (a_sim w)) in *.
  destruct (Schedule interval TraceEvent s1) as [s2 r] eqn:S2.
  apply Schedule_spec in S2 as (-> & B1 & B2 & B3 & B4); [|lia..].
  destruct (cancel_if_spec (m_traceTimeoutEvent (a_app w)) s2) as (C1 & C2 & C3 & C4 & C5).
  pose proof (cancel_if_gone) as Hgone.
  set (s3 := cancel_if (m_traceTimeoutEvent (a_app w)) s2) in *.
  destruct (Schedule delay TraceTimeout s3) as [s4 t] eqn:S4.
  apply Schedule_spec in S4 as (-> & D1 & D2 & D3 & D4); [|lia..].
  assert (forall id, ~ queued s3 id TraceTimeout) as Hnone.
  { intros id Hq. pose proof (C4 _ _ Hq) as Hq2. apply B4 in Hq2 as [[_ [=]]|Hq2].
    apply A4, H9 in Hq2 as [Hid Hts]. revert Hq. unfold s3. rewrite Hid.
    apply cancel_if_gone. lia. }
  split; try done; cbn [a_sim a_app].
  - auto.
  - lia.
  - lia.
  - cbn. lia.
  - intros id [= <-]. cbn. lia.
  - intros id Hq. apply D4 in Hq as [[-> _]|Hq]; [|by destruct (Hnone id)]. split; [done|].
    exists (mkEventId (interval + m_currentTs s1) (m_uid s1)). cbn. split; [|lia].
    apply D4. right. apply C5; [|apply B4; by left].
    intros Hid. specialize (H8 _ Hid). cbn in H8. lia.
Qed.

Lemma preempted_SendTrace w :
  due_later w -> m_seq (a_app w) <= m_uid (a_sim w) + 2 -> in_time w -> exists w', SendTrace w = (w', inr tt) /\ preempted w'.
Proof.
  intros Hw Hlast Ht. destruct (noted_rest w) as (E1 & E2 & E3 & E4 & E5 & E6).
  assert (0 < m_seq (a_app (noted w)) <= m_uid (a_sim w) + 3) as E8.
  { destruct Hw as [_ _ Hu _ _ _ _ Hseq _ _], Ht as [_ Hmax]. unfold noted. destruct (draw_nonce _). cbn.
    rewrite u64_id by (unfold u64_range; lia). lia. }
  assert (m_traceDelay (a_app (noted w)) = m_traceDelay (a_app w)) as E7
    by (unfold noted; by destruct (draw_nonce _)).
  rewrite SendTrace_run, (proj2 (Z.ltb_lt 0 _)) by apply Hw.
  rewrite rearm_run by (destruct Hw; congruence). eexists. split; [reflexivity|].
  apply rearmed_preempted; [|unfold in_time in *; by rewrite E1].
  destruct Hw. split; rewrite ?E1, ?E2, ?E3, ?E4, ?E6, ?E7; done.
Qed.

(** *** The steps *)
Lemma preempted_due_later w s' :
  preempted w -> RemoveNext (a_sim w) = Some (s', Some TraceEvent) ->
  due_later (mkAppWorld s' (a_app w) (a_link w)).
Proof.
  intros [H1 H2 H3 H4 H5 H6 H7 Hseq H8 H9] E. destruct (sim_ordered_RemoveNext _ _ _ E H1) as [Ho Hts].
  assert (m_uid s' = m_uid (a_sim w)) as Hu.
  { unfold RemoveNext in E. destruct (m_events (a_sim w)); [done|]. by injection E as <- _. }
  split; cbn [a_sim a_app]; rewrite ?Hu; try done; [lia|lia|].
  intros id Hq. eapply queued_after_RemoveNext in Hq; [|exact E].
  destruct (H9 id Hq) as (Hid & r & Hr & Hlt). split; [done|].
  pose proof (RemoveNext_first _ _ _ _ _ E H1 Hr). lia.
Qed.

Lemma preempted_removed w s' oe :
  preempted w -> RemoveNext (a_sim w) = Some (s', oe) -> oe <> Some TraceEvent ->
  preempted (mkAppWorld s' (a_app w) (a_link w)).
Proof.
  intros [H1 H2 H3 H4 H5 H6 H7 Hseq H8 H9] E Hoe. destruct (sim_ordered_RemoveNext _ _ _ E H1) as [Ho Hts].
  assert (m_uid s' = m_uid (a_sim w)) as Hu.
  { unfold RemoveNext in E. destruct (m_events (a_sim w)); [done|]. by injection E as <- _. }
  split; cbn [a_sim a_app]; rewrite ?Hu; try done; [lia|].
  intros id Hq. eapply queued_after_RemoveNext in Hq; [|exact E].
  destruct (H9 id Hq) as (Hid & r & Hr & Hlt). split; [done|]. exists r. split; [|done].
  by destruct (queued_RemoveNext _ _ _ _ _ E Hr) as [|[-> _]].
Qed.

(** A timeout is never the next event. *)
Lemma preempted_next w s' : preempted w -> RemoveNext (a_sim w) <> Some (s', Some TraceTimeout).
Proof.
  intros Hw E. destruct (RemoveNext_queued _ _ _ E) as (id & Hq & Hts).
  destruct (pe_cover w Hw id Hq) as (_ & r & Hr & Hlt).
  pose proof (RemoveNext_first _ _ _ _ _ E (pe_ordered w Hw) Hr). lia.
Qed.

Lemma preempted_upd f :
  (forall s, m_seq (f s) = m_seq s /\ m_refreshInterval (f s) = m_refreshInterval s /\ m_traceLifetime (f s) = m_traceLifetime s /\
     m_traceDelay (f s) = m_traceDelay s /\ m_traceTimeoutEvent (f s) = m_traceTimeoutEvent s /\
     (m_traceRetryCnt s = 0 -> m_traceRetryCnt (f s) = 0)) ->
  preserves preempted (app_upd f).
Proof.
  intros Hf w [H1 H2 H3 H4 H5 H6 H7 Hseq H8 H9]. destruct (Hf (a_app w)) as (E0 & E1 & E2 & E3 & E4 & E5).
  split; cbn; rewrite ?E0, ?E1, ?E2, ?E3, ?E4; auto.
Qed.

Lemma preempted_to_link p : preserves preempted (to_link p).
Proof. by intros w []. Qed.

Hint Resolve preempted_to_link : preserves.
Hint Extern 1 (preserves preempted (app_upd _)) => by apply preempted_upd : preserves.

Lemma preempted_cancel w :
  preempted w -> preempted (app_cancel (m_traceTimeoutEvent (a_app w)) w).1.
Proof.
  destruct (m_traceTimeoutEvent (a_app w)) as [id|] eqn:Eid; [|done].
  intros [H1 H2 H3 H4 H5 H6 H7 Hseq H8 H9]. cbn.
  assert (m_currentTs (Cancel id (a_sim w)) = m_currentTs (a_sim w) /\
    m_uid (Cancel id (a_sim w)) = m_uid (a_sim w)) as [E1 E2] by (unfold Cancel; by case_match).
  split; cbn; rewrite ?E1, ?E2; try done; [by apply sim_ordered_Cancel|].
  intros i Hq. apply queued_Cancel in Hq. destruct (H9 i Hq) as (Hi & r & Hr & Hlt). split; [done|].
  exists r. split; [|done]. apply queued_Cancel_other; [|done]. intros ->. rewrite Eid in Hi.
  injection Hi as ->. lia.
Qed.

Lemma preempted_OnData d : preserves preempted (OnData d).
Proof.
  intros w Hw. unfold OnData. rewrite run_app_get. destruct (negb _); [done|]. rewrite run_app_upd.
  pose proof (preempted_upd (fun s => s <| m_rvData ::= fun n => i32 (n + 1) |>)
    ltac:(by intros s) w Hw) as Hw1. cbn [app_upd modify fst] in Hw1.
  destruct (name_at _ _ ≫= toSequenceNumber) as [ex|seq]; [done|]. rewrite run_lift_inr.
  destruct (negb _); [done|]. pose proof (preempted_cancel _ Hw1) as Hw2. revert Hw2.
  change (m_traceTimeoutEvent (a_app _)) with (m_traceTimeoutEvent (a_app w)).
  destruct (m_traceTimeoutEvent (a_app w)) as [id|]; cbn [app_cancel]; intros Hw2.
  - rewrite run_modify. revert Hw2. by apply preempted_upd.
  - rewrite run_ret. revert Hw1. by apply preempted_upd.
Qed.

Lemma preempted_OnInterest i : preserves preempted (OnInterest i).
Proof.
  unfold OnInterest, note_first_interest, app_get, app_now.
  repeat first [ progress eauto with preserves | apply preserves_bind; [|intros ?] | case_match ].
Qed.

Lemma preempted_schedule w d e s' id :
  preempted w -> m_currentTs (a_sim w) <= horizon -> m_uid (a_sim w) + 3 < 4294967296 ->
  0 <= d <= delay -> e <> TraceTimeout -> Schedule d e (a_sim w) = (s', id) ->
  preempted (mkAppWorld s' (a_app w) (a_link w)).
Proof.
  intros [H1 H2 H3 H4 H5 H6 H7 Hseq H8 H9] Ht Hu Hd He Es.
  apply Schedule_spec in Es as (_ & B1 & B2 & B3 & B4); [|lia..].
  split; cbn [a_sim a_app]; try done; [auto|lia|lia|lia| |].
  - intros i Hi. specialize (H8 i Hi). lia.
  - intros i Hq. apply B4 in Hq as [[_ Hq]|Hq]; [by destruct He|].
    destruct (H9 i Hq) as (Hi & r & Hr & Hlt). split; [done|]. exists r. split; [|done].
    apply B4. by right.
Qed.

Lemma preempted_doSend w e :
  preempted w -> m_currentTs (a_sim w) <= horizon -> m_uid (a_sim w) + 3 < 4294967296 ->
  e <> TraceTimeout -> preempted (doSend e w).1.
Proof.
  intros [H1 H2 H3 H4 H5 H6 H7 Hseq H8 H9] Ht Hu He. cbn.
  pose proof (queued_ScheduleNow e (a_sim w)) as Hq.
  split; cbn; try done; [apply sim_ordered_ScheduleNow; [lia|done]| | | |].
  - rewrite u32_id by (unfold u32_range; lia). lia.
  - rewrite u32_id by (unfold u32_range; lia). lia.
  - intros i Hi. specialize (H8 i Hi). rewrite u32_id by (unfold u32_range; lia). lia.
  - intros i Hi. apply Hq in Hi as [[_ Hi]|Hi]; [by destruct He|].
    destruct (H9 i Hi) as (Hid & r & Hr & Hlt). split; [done|]. exists r. split; [|done].
    apply Hq. by right.
Qed.

(** *** The clock stands still while the producer acts *)
Definition clock (w : world) : Z := m_currentTs (a_sim w).

Lemma clock_cancel_running id : respects (agree_on clock) (cancel_running (R := R) id).
Proof.
  intros w. unfold cancel_running. rewrite run_app_is_running. destruct (is_running _ _); [|done].
  destruct id as [id|]; [|done]. unfold agree_on, clock. cbn. unfold Cancel. by case_match.
Qed.

Lemma clock_schedule d e : respects (agree_on clock) (app_schedule (A := StatimMobile R) d e).
Proof. intros w. unfold app_schedule, action. by destruct (Schedule d e (a_sim w)) eqn:E; injection E as <- _. Qed.

Lemma clock_upd f : respects (agree_on clock) (app_upd (E := MobileEvent) f).
Proof. by intros w. Qed.

Lemma clock_via_seconds t : respects (agree_on clock) (via_seconds (A := StatimMobile R) (E := MobileEvent) t).
Proof. intros w. unfold via_seconds. by destruct (Seconds (GetSeconds t)). Qed.

Hint Resolve clock_cancel_running clock_schedule clock_upd clock_via_seconds : respects.

Lemma clock_rearm : respects (agree_on clock) (arm_refresh;; arm_timeout).
Proof. unfold arm_refresh, arm_timeout, app_get. respects. Qed.

Lemma clock_SendTrace w : clock (SendTrace w).1 = clock w.
Proof.
  rewrite SendTrace_run. destruct (0 <? _); [|done]. etransitivity; [apply clock_rearm|].
  unfold clock. by destruct (noted_rest w) as (-> & _).
Qed.

(** *** Every step *)

(** A step that ends before the horizon and does not exhaust the event numbers. *)
Definition timely_step (w w' : world) : Prop :=
  mobile_step w w' /\ m_currentTs (a_sim w') <= horizon /\ m_uid (a_sim w) + 3 < 4294967296 /\
  m_uid (a_sim w) <= m_uid (a_sim w').

Lemma preempted_event w :
  preempted w -> m_uid (a_sim w) + 3 < 4294967296 ->
  clock (ProcessOneEvent mobile_dispatch w).1 <= horizon ->
  preempted (ProcessOneEvent mobile_dispatch w).1.
Proof.
  intros Hw Hu. unfold ProcessOneEvent. rewrite run_gets.
  change (view w) with (a_sim w).
  destruct (RemoveNext (a_sim w)) as [[s' oe]|] eqn:E; [|done]. rewrite run_modify.
  change (put s' w) with (mkAppWorld s' (a_app w) (a_link w)).
  assert (m_uid s' = m_uid (a_sim w)) as Hu'.
  { unfold RemoveNext in E. destruct (m_events (a_sim w)); [done|]. by injection E as <- _. }
  destruct oe as [[]|]; cbn [mobile_dispatch].
  - rewrite clock_SendTrace. intros Ht.
    pose proof (preempted_due_later w s' Hw E) as Hdue.
    destruct (preempted_SendTrace _ Hdue) as (w' & -> & Hw'); [| |exact Hw'].
    { pose proof (pe_seq w Hw) as Hseq. cbn. rewrite Hu'. lia. }
    split; [exact Ht|]. cbn. lia.
  - by destruct (preempted_next w s' Hw).
  - intros _. apply preempted_OnInterest. by eapply preempted_removed.
  - intros _. apply preempted_OnData. by eapply preempted_removed.
  - intros _. by eapply preempted_removed.
Qed.

Lemma preempted_step w w' : timely_step w w' -> preempted w -> preempted w'.
Proof.
  intros (Hs & Ht & Hu & Hu') Hw. destruct Hs as [w|w|w|anchor w|i w|d w|w|ts uid n w Hts Hall].
  - exact (preempted_upd mobile_StartApplication ltac:(done) w Hw).
  - exact (preempted_upd mobile_StopApplication ltac:(done) w Hw).
  - pose proof (pe_delay w Hw) as Hd.
    pose proof (preempted_upd (fun s => s <| m_waitingForFirstInterest := true |>) ltac:(done) w Hw)
      as Hw1. revert Ht Hu'. unfold OnAssociation.
    rewrite run_app_upd, run_app_get, run_app_schedule. intros Ht Hu'. cbn in Ht, Hw1.
    cbn [mret M_ret fst]. destruct (Schedule _ _ _) as [s' id] eqn:Es.
    by eapply preempted_schedule; [exact Hw1|..|exact Es].
  - exact (preempted_upd (MarkHandover anchor) ltac:(done) w Hw).
  - by apply preempted_doSend.
  - by apply preempted_doSend.
  - by apply preempted_event.
  - destruct Hw as [[H1 H1'] H2 H3 H4 H5 H6 H7 Hseq H8 H9]. cbn in Ht, Hu'.
    split; cbn; try done; [lia|lia|lia|]. intros i Hi. specialize (H8 i Hi). lia.
Qed.
End refresh.
End mobile.

(** ** Properties *)

(** C13: every Trace a producer sends, whatever happens to it, carries the next
    generation: the k-th one is [k + 1].  As long as the 64-bit counter does not
    wrap, every forwarder recognises it as a Trace, extracts the same prefix
    [<rv>/<data prefix>] from it, and reads exactly its generation back from the
    Data that answers it, so generations rise in the order of sending. *)
Theorem traces_generations {R : Type} `{!UniformStreams R} (payload : Z) (rv : Component)
    (dataPrefix : Name) (lifetime refresh delay freshness signature : Z) (keyLocator : Name)
    (rand : R) (current : Z)
    (sim : Sim MobileEvent) (w : AppWorld (StatimMobile R) MobileEvent)
    (Hprefix : dataPrefix <> []) (Hsize : name_size dataPrefix < 9223372036854775808)
    (Hrun : rtc mobile_step
       (mkAppWorld sim (StatimMobile_new payload [rv] dataPrefix lifetime refresh delay freshness
          signature keyLocator rand current) [])
       w) :
  let names := map i_name (sent_interests (a_link w)) in
  m_seq (a_app w) = u64 (Z.of_nat (length names) + 1) /\
  forall k name, names !! k = Some name -> Z.of_nat k + 1 < 18446744073709551616 ->
    judgeNameIsTrace name = true /\ extractDataNameFromTrace name = rv :: dataPrefix /\
    forall content wire hops, getTraceSequence (mkData name content wire hops) = inr (Z.of_nat k + 1).
Proof.
  set (prefix := makeTracePrefix [rv] dataPrefix).
  assert (traces_ok prefix w) as [n Hn].
  { eapply (rtc_ind_l (fun w0 => traces_ok prefix w0 -> traces_ok prefix w)); [done| |exact Hrun|].
    - intros w1 w2 Hs _ IH H. eauto using traces_step.
    - by exists 0%nat. }
  unfold trace_view in Hn. injection Hn as Hnames Hseq _. cbv zeta. rewrite Hnames, Hseq.
  unfold traces at 1. rewrite length_map, length_seq. split; [done|].
  intros k name Hk Hmax. unfold traces in Hk. rewrite list_lookup_fmap in Hk.
  destruct (seq 0 n !! k) as [k'|] eqn:Ek; [|done]. apply lookup_seq in Ek as [-> _].
  injection Hk as <-. cbn [Nat.add]. rewrite u64_id by (unfold u64_range; lia).
  split_and!; [by apply trace_name_recognised|by apply trace_name_extracted|].
  intros content wire hops. unfold getTraceSequence, appendSequenceNumber, append. cbn [d_name].
  rewrite name_at_last. cbn. apply toSequenceNumber_from. unfold u64_range. lia.
Qed.

(** Without a refresh interval, a Trace nobody answers is sent four times in
    all, one lifetime apart; one lifetime later the producer gives up, with its
    retry counter reset and nothing left in the queue. *)
Theorem unanswered_trace_stops {R : Type} `{!UniformStreams R} (prefix : Name)
    (lifetime delay : Z) (n fuel : nat) (w : AppWorld (StatimMobile R) MobileEvent)
    (Hidle : m_events (a_sim w) = []) (Hrunning : m_stop (a_sim w) = false)
    (Hretry : m_traceRetryCnt (a_app w) = 0) (Hrefresh : m_refreshInterval (a_app w) = Seconds0)
    (Hlifetime : m_traceLifetime (a_app w) = lifetime)
    (Hdelay : Seconds (GetSeconds lifetime) = Some delay) (Hpos : 0 <= delay)
    (Hnow : 0 <= m_currentTs (a_sim w)) (Hmax : 4 * delay + m_currentTs (a_sim w) <= INT64_MAX)
    (Hview : trace_view w = (traces prefix n, u64 (Z.of_nat n + 1), prefix))
    (Hseq : Z.of_nat n + 4 < 18446744073709551616) :
  exists w', (SendTrace;; Run mobile_dispatch (4 + fuel)) w = (w', inr tt) /\
    m_events (a_sim w') = [] /\ m_currentTs (a_sim w') = 4 * delay + m_currentTs (a_sim w) /\
    m_traceRetryCnt (a_app w') = 0 /\
    trace_view w' = (traces prefix (4 + n), u64 (Z.of_nat n + 5), prefix).
Proof.
  destruct (SendTrace_alone prefix lifetime delay n w) as (w1 & E & _ & H1); [done..|lia|done| |].
  { unfold trace_view in Hview. injection Hview as _ -> _. rewrite u64_id by (unfold u64_range; lia). lia. }
  rewrite (run_seq _ _ _ _ _ E). rewrite Hretry in H1.
  assert (over Start w1 = w1) as Es.
  { destruct H1 as [_ H _ _ _ _], w1 as [[] s l]. cbn in H. by rewrite H. }
  unfold Run. rewrite run_modify, Es.
  destruct (run_repetitions prefix lifetime delay 3 fuel (delay + m_currentTs (a_sim w)) (S n) w1)
    as (w' & E' & He & Ht & Hk & Hv); [done|done|lia|lia|lia|lia|exact H1|].
  exists w'. rewrite E', Ht, Hv. split_and!; [done|done|lia|done|].
  replace (4 + n)%nat with (3 + S n)%nat by lia.
  by replace (Z.of_nat n + 5) with (Z.of_nat (3 + S n) + 1) by lia.
Qed.

(** C14: with a refresh interval shorter than the Trace lifetime the repetition of
    unanswered Traces is dead code: in every state a producer reaches before the
    32-bit event numbers wrap, the retry counter is 0 and a Trace timeout is never
    the next event to run, answered or not, because the refresh sends the next
    Trace first and cancels it. *)
Theorem refresh_preempts_timeout {R : Type} `{!UniformStreams R}
    (refresh lifetime interval delay horizon traceDelay payload : Z) (rvPrefix dataPrefix : Name)
    (freshness signature : Z) (keyLocator : Name)
    (rand : R) (current : Z) (sim : Sim MobileEvent) (w : AppWorld (StatimMobile R) MobileEvent)
    (Hrefresh : refresh <> Seconds0)
    (Hinterval : Seconds (GetSeconds refresh) = Some interval)
    (Hdelay : Seconds (GetSeconds lifetime) = Some delay)
    (Horder : 0 <= interval < delay) (Hhorizon : delay + horizon <= INT64_MAX)
    (HtraceDelay : 0 <= traceDelay <= delay)
    (Hsim : m_events sim = [] /\ 0 <= m_currentTs sim /\ 0 <= m_uid sim)
    (Hrun : rtc (timely_step horizon)
       (mkAppWorld sim (StatimMobile_new payload rvPrefix dataPrefix lifetime refresh traceDelay
          freshness signature keyLocator rand current) []) w) :
  m_traceRetryCnt (a_app w) = 0 /\
  forall s', RemoveNext (a_sim w) <> Some (s', Some TraceTimeout).
Proof.
  assert (preempted refresh lifetime delay w) as Hw.
  { refine (rtc_ind_l (fun w0 => preempted refresh lifetime delay w0 -> preempted refresh lifetime delay w)
      _ _ _ _ Hrun _); [done| |].
    - intros w1 w2 Hs _ IH H. by eauto using preempted_step.
    - destruct Hsim as (He & Hnow & Huid). split; cbn; try done.
      + unfold sim_ordered. rewrite He. by split; constructor.
      + cbn. lia.
      + intros id Hq. unfold queued in Hq. rewrite He in Hq. by apply not_elem_of_nil in Hq. }
  split; [by destruct Hw|]. intros s'. by eapply preempted_next.
Qed.

(** Random numbers for the witnesses. *)
#[local] Instance demo_draws : UniformStreams Z := {
  uv_create := fun n => n;
  uv_SetStream := fun n _ => n;
  uv_GetValue := fun lo _ r => (r + 1, lo)
}.

Definition demo_mobile (refresh : Z) : StatimMobile Z :=
  StatimMobile_new 8 [component_of_string "rv"] [component_of_string "alice"] 2000000000 refresh
    10000000 0 0 [] 0 3.

Definition demo_idle (refresh : Z) : AppWorld (StatimMobile Z) MobileEvent :=
  mkAppWorld sim_init (demo_mobile refresh) [].

(** The producer after an association and the Trace it leads to. *)
Definition demo_announced : AppWorld (StatimMobile Z) MobileEvent :=
  (ProcessOneEvent mobile_dispatch (OnAssociation (demo_idle 1000000000)).1).1.

Lemma traces_generations_witness :
  exists name, map i_name (sent_interests (a_link demo_announced)) = [name] /\
    judgeNameIsTrace name = true /\
    extractDataNameFromTrace name = [component_of_string "rv"; component_of_string "alice"].
Proof.
  assert (length (map i_name (sent_interests (a_link demo_announced))) = 1%nat) as Hlen
    by (vm_compute; reflexivity).
  pose proof (traces_generations 8 (component_of_string "rv") [component_of_string "alice"]
    2000000000 1000000000 10000000 0 0 [] 0 3 sim_init demo_announced) as H. cbv zeta in H.
  destruct H as [_ H].
  - discriminate.
  - vm_compute. reflexivity.
  - eapply rtc_l; [apply mobile_association|]. apply rtc_once, mobile_event.
  - destruct (map i_name _) as [|name [|]]; [discriminate Hlen| |discriminate Hlen].
    exists name. destruct (H 0%nat name) as (H1 & H2 & _); [reflexivity|reflexivity|].
    split_and!; [reflexivity|exact H1|exact H2].
Defined.

Lemma unanswered_trace_stops_witness :
  exists w', (SendTrace;; Run mobile_dispatch 4) (demo_idle 0) = (w', inr tt) /\
    m_events (a_sim w') = [] /\ m_currentTs (a_sim w') = 8000000000.
Proof.
  destruct (unanswered_trace_stops (makeTracePrefix [component_of_string "rv"]
    [component_of_string "alice"]) 2000000000 2000000000 0 0 (demo_idle 0))
    as (w' & E & He & Ht & _).
  all: try reflexivity.
  - vm_compute. discriminate.
  - vm_compute. discriminate.
  - exists w'. split_and!; [exact E|exact He|exact Ht].
Defined.

Lemma refresh_preempts_timeout_witness :
  m_traceRetryCnt (a_app demo_announced) = 0 /\
  forall s', RemoveNext (a_sim demo_announced) <> Some (s', Some TraceTimeout).
Proof.
  apply (refresh_preempts_timeout 1000000000 2000000000 1000000000 2000000000 100000000000 10000000 8
    [component_of_string "rv"] [component_of_string "alice"] 0 0 [] 0 3 sim_init).
  - discriminate.
  - vm_compute. reflexivity.
  - vm_compute. reflexivity.
  - lia.
  - vm_compute. discriminate.
  - lia.
  - split_and!; vm_compute; [reflexivity|discriminate|discriminate].
  - eapply rtc_l; [split_and!; [apply mobile_association|..]|].
    4: apply rtc_once; split_and!; [apply mobile_event|..].
    all: vm_compute; first [reflexivity|discriminate].
Defined.
