(* ===== verification/RttEstimator.v ===== *)
(** * RttEstimator: the round-trip estimator of a consumer

    Sources: [src/src/ndnSIM/utils/ndn-rtt-estimator.{hpp,cpp}] and
    [ndn-rtt-mean-deviation.cpp].  A consumer's estimator is a [RttMeanDeviation];
    the operations it overrides are given in its version, the others in the one it
    inherits.  Conversions of seconds abort the program when they overflow:
    [None]. *)
From Stdlib Require Import Floats.SpecFloat.
From S2P Require Import Prelude Simulator SimTime.

Record RttHistory := mkRttHistory {
  h_seq : Z;       (** a [SequenceNumber32] *)
  h_count : Z;
  h_time : Z;
  h_retx : bool
}.

Record RttMeanDeviation := mkRttMeanDeviation {
  m_multiplier : Z;            (** a [uint16_t] *)
  m_maxMultiplier : Z;
  m_initialEstimatedRtt : Z;
  m_currentEstimatedRtt : Z;
  m_minRto : Z;
  m_maxRto : Z;
  m_nSamples : Z;
  m_next : Z;
  m_history : list RttHistory;
  m_gain : double;
  m_gain2 : double;
  m_variance : Z
}.

#[export] Instance set_m_multiplier : Setter m_multiplier := fun f s =>
  mkRttMeanDeviation (f (m_multiplier s)) (m_maxMultiplier s) (m_initialEstimatedRtt s)
    (m_currentEstimatedRtt s) (m_minRto s) (m_maxRto s) (m_nSamples s) (m_next s) (m_history s)
    (m_gain s) (m_gain2 s) (m_variance s).
#[export] Instance set_m_currentEstimatedRtt : Setter m_currentEstimatedRtt := fun f s =>
  mkRttMeanDeviation (m_multiplier s) (m_maxMultiplier s) (m_initialEstimatedRtt s) (f
    (m_currentEstimatedRtt s)) (m_minRto s) (m_maxRto s) (m_nSamples s) (m_next s) (m_history s)
    (m_gain s) (m_gain2 s) (m_variance s).
#[export] Instance set_m_nSamples : Setter m_nSamples := fun f s =>
  mkRttMeanDeviation (m_multiplier s) (m_maxMultiplier s) (m_initialEstimatedRtt s)
    (m_currentEstimatedRtt s) (m_minRto s) (m_maxRto s) (f (m_nSamples s)) (m_next s) (m_history
    s) (m_gain s) (m_gain2 s) (m_variance s).
#[export] Instance set_m_next : Setter m_next := fun f s =>
  mkRttMeanDeviation (m_multiplier s) (m_maxMultiplier s) (m_initialEstimatedRtt s)
    (m_currentEstimatedRtt s) (m_minRto s) (m_maxRto s) (m_nSamples s) (f (m_next s)) (m_history
    s) (m_gain s) (m_gain2 s) (m_variance s).
#[export] Instance set_m_history : Setter m_history := fun f s =>
  mkRttMeanDeviation (m_multiplier s) (m_maxMultiplier s) (m_initialEstimatedRtt s)
    (m_currentEstimatedRtt s) (m_minRto s) (m_maxRto s) (m_nSamples s) (m_next s) (f (m_history
    s)) (m_gain s) (m_gain2 s) (m_variance s).
#[export] Instance set_m_gain : Setter m_gain := fun f s =>
  mkRttMeanDeviation (m_multiplier s) (m_maxMultiplier s) (m_initialEstimatedRtt s)
    (m_currentEstimatedRtt s) (m_minRto s) (m_maxRto s) (m_nSamples s) (m_next s) (m_history s)
    (f (m_gain s)) (m_gain2 s) (m_variance s).
#[export] Instance set_m_variance : Setter m_variance := fun f s =>
  mkRttMeanDeviation (m_multiplier s) (m_maxMultiplier s) (m_initialEstimatedRtt s)
    (m_currentEstimatedRtt s) (m_minRto s) (m_maxRto s) (m_nSamples s) (m_next s) (m_history s)
    (m_gain s) (m_gain2 s) (f (m_variance s)).
#[export] Instance set_m_minRto : Setter m_minRto := fun f s =>
  mkRttMeanDeviation (m_multiplier s) (m_maxMultiplier s) (m_initialEstimatedRtt s)
    (m_currentEstimatedRtt s) (f (m_minRto s)) (m_maxRto s) (m_nSamples s) (m_next s) (m_history
    s) (m_gain s) (m_gain2 s) (m_variance s).
#[export] Instance set_m_maxRto : Setter m_maxRto := fun f s =>
  mkRttMeanDeviation (m_multiplier s) (m_maxMultiplier s) (m_initialEstimatedRtt s)
    (m_currentEstimatedRtt s) (m_minRto s) (f (m_maxRto s)) (m_nSamples s) (m_next s) (m_history
    s) (m_gain s) (m_gain2 s) (m_variance s).

(** Construction with the attributes [MaxMultiplier], [InitialEstimation],
    [MinRTO], [MaxRTO], [Gain] and [Gain2]. *)
Definition RttMeanDeviation_new (maxMultiplier initial minRto maxRto : Z) (gain gain2 : double)
    : RttMeanDeviation :=
  mkRttMeanDeviation 1 maxMultiplier initial initial minRto maxRto 0 1 [] gain gain2 0.

(** The attributes' defaults; 0.125 and 0.25 are exact. *)
Definition RttMeanDeviation_default : RttMeanDeviation :=
  RttMeanDeviation_new 64 1000000000 200000000 200000000000
    (ddiv (double_of_Z 1) (double_of_Z 8)) (ddiv (double_of_Z 1) (double_of_Z 4)).

(** *** Inherited operations *)
Definition SetMinRto (minRto : Z) (r : RttMeanDeviation) := r <| m_minRto := minRto |>.
Definition SetMaxRto (maxRto : Z) (r : RttMeanDeviation) := r <| m_maxRto := maxRto |>.
Definition SetCurrentEstimate (estimate : Z) (r : RttMeanDeviation) :=
  r <| m_currentEstimatedRtt := estimate |>.
Definition ClearSent (r : RttMeanDeviation) := r <| m_next := 1 |> <| m_history := [] |>.
Definition IncreaseMultiplier (r : RttMeanDeviation) :=
  r <| m_multiplier ::= fun m => if m * 2 <? m_maxMultiplier r then m * 2 else m_maxMultiplier r |>.
Definition ResetMultiplier (r : RttMeanDeviation) := r <| m_multiplier := 1 |>.

Definition RttEstimator_Reset (r : RttMeanDeviation) : RttMeanDeviation :=
  ResetMultiplier (r <| m_next := 1 |> <| m_currentEstimatedRtt := m_initialEstimatedRtt r |>
                     <| m_history := [] |> <| m_nSamples := 0 |>).

(** *** [RttMeanDeviation] *)
Definition Reset (r : RttMeanDeviation) : RttMeanDeviation :=
  RttEstimator_Reset (r <| m_variance := Seconds0 |>).

Definition Gain (g : double) (r : RttMeanDeviation) := r <| m_gain := g |>.

Definition Measurement (m : Z) (r : RttMeanDeviation) : option RttMeanDeviation :=
  r' ←
    (if negb (m_nSamples r =? 0) then
       let err := i64 (m - m_currentEstimatedRtt r) in
       let gErr := dmul (GetSeconds err) (m_gain r) in
       d ← Seconds gErr;
       let difference := i64 (i64 (Z.abs err) - m_variance r) in
       v ← Seconds (dmul (GetSeconds difference) (m_gain2 r));
       Some (r <| m_currentEstimatedRtt ::= fun e => i64 (e + d) |>
               <| m_variance ::= fun x => i64 (x + v) |>)
     else
       v ← Seconds (ddiv (GetSeconds m) (double_of_Z 2));
       Some (r <| m_currentEstimatedRtt := m |> <| m_variance := v |>));
  Some (r' <| m_nSamples ::= fun n => u32 (n + 1) |>).

Definition RetransmitTimeout (r : RttMeanDeviation) : option Z :=
  let mult := double_of_Z (m_multiplier r) in
  let retval :=
    dmin (GetSeconds (m_maxRto r))
      (dmax (dmul mult (GetSeconds (m_minRto r)))
            (dmul mult (dadd (GetSeconds (m_currentEstimatedRtt r))
                             (dmul (double_of_Z 4) (GetSeconds (m_variance r)))))) in
  Seconds retval.

(** The first entry with [seq] is marked; [None] when there is none. *)
Fixpoint mark_retx (seq : Z) (l : list RttHistory) : option (list RttHistory) :=
  match l with
  | [] => None
  | h :: l =>
      if seq =? h_seq h then Some (mkRttHistory (h_seq h) (h_count h) (h_time h) true :: l)
      else cons h <$> mark_retx seq l
  end.

Definition SentSeq (now seq size : Z) (r : RttMeanDeviation) : RttMeanDeviation :=
  r <| m_history ::= fun l =>
    match mark_retx seq l with
    | Some l' => l'
    | None => l ++ [mkRttHistory seq size now false]
    end |>.

(** The first entry with [seq], and the others in order. *)
Fixpoint take_history (seq : Z) (l : list RttHistory) : option (RttHistory * list RttHistory) :=
  match l with
  | [] => None
  | h :: l =>
      if seq =? h_seq h then Some (h, l)
      else '(x, l') ← take_history seq l; Some (x, h :: l')
  end.

(** [AckSeq] returns the sample, zero without one. *)
Definition AckSeq (now ackSeq : Z) (r : RttMeanDeviation) : option (RttMeanDeviation * Z) :=
  match take_history ackSeq (m_history r) with
  | None => Some (r, Seconds0)
  | Some (h, l) =>
      if h_retx h then Some (r <| m_history := l |>, Seconds0)
      else
        let m := i64 (now - h_time h) in
        r' ← Measurement m r;
        Some (ResetMultiplier r' <| m_history := l |>, m)
  end.

(** ** What the estimator promises *)

(** The part of the state the timeout depends on is as after a reset. *)
Definition settled (r0 r : RttMeanDeviation) : Prop :=
  m_multiplier r = 1 /\ m_variance r = Seconds0 /\
  m_currentEstimatedRtt r = m_initialEstimatedRtt r /\
  m_initialEstimatedRtt r = m_initialEstimatedRtt r0 /\
  m_minRto r = m_minRto r0 /\ m_maxRto r = m_maxRto r0.

Lemma settled_new maxMultiplier initial minRto maxRto gain gain2 :
  settled (RttMeanDeviation_new maxMultiplier initial minRto maxRto gain gain2)
    (RttMeanDeviation_new maxMultiplier initial minRto maxRto gain gain2).
Proof. by split_and!. Qed.

Lemma settled_SentSeq r0 r now seq size : settled r0 r -> settled r0 (SentSeq now seq size r).
Proof. done. Qed.

Lemma Measurement_config m r r' :
  Measurement m r = Some r' ->
  m_initialEstimatedRtt r' = m_initialEstimatedRtt r /\ m_minRto r' = m_minRto r /\
  m_maxRto r' = m_maxRto r.
Proof.
  intros H. apply bind_Some in H as (r1 & H & [= <-]).
  destruct (negb (m_nSamples r =? 0)).
  - apply bind_Some in H as (d & _ & H). by apply bind_Some in H as (v & _ & [= <-]).
  - by apply bind_Some in H as (v & _ & [= <-]).
Qed.

Lemma settled_ack_reset r0 r now seq r' m :
  settled r0 r -> AckSeq now seq r = Some (r', m) -> settled r0 (Reset r').
Proof.
  intros (_ & _ & _ & H4 & H5 & H6) H.
  assert (m_initialEstimatedRtt r' = m_initialEstimatedRtt r /\ m_minRto r' = m_minRto r /\
    m_maxRto r' = m_maxRto r) as (E1 & E2 & E3).
  { unfold AckSeq in H. destruct (take_history _ _) as [[h l]|]; [|by injection H as <- _].
    destruct (h_retx h); [by injection H as <- _|].
    apply bind_Some in H as (r1 & Em & [= <- _]).
    by destruct (Measurement_config _ _ _ Em) as (E1 & E2 & E3). }
  unfold settled. cbn. by rewrite E1, E2, E3.
Qed.

Lemma settled_timeout r0 r : settled r0 r ->
  RetransmitTimeout r =
  Seconds (dmin (GetSeconds (m_maxRto r0))
    (dmax (dmul (double_of_Z 1) (GetSeconds (m_minRto r0)))
          (dmul (double_of_Z 1) (dadd (GetSeconds (m_initialEstimatedRtt r0))
                                      (dmul (double_of_Z 4) (GetSeconds Seconds0)))))).
Proof. intros (H1 & H2 & H3 & H4 & H5 & H6). unfold RetransmitTimeout. by rewrite H1, H2, H3, H4, H5, H6. Qed.

Example default_timeout : RetransmitTimeout RttMeanDeviation_default = Some 1000000000.
Proof. vm_compute. reflexivity. Qed.
