(* ===== verification/Consumer.v ===== *)
(** * Consumer: the consumer of the simulation

    Sources: [src/src/ndnSIM/apps/ndn-consumer.{hpp,cpp}] and
    [src/src/ndnSIM/statim/apps/statim-consumer.{hpp,cpp}].  A [StatimConsumer] is a
    [Consumer] with the members of both; where the derived class overrides a
    method and calls the inherited one, the inherited one has the prefix
    [Consumer_].  The boost container [SeqTimeoutsContainer] is an interface with
    the laws of its two indices. *)
From Stdlib Require Import Floats.SpecFloat.
From S2P Require Import Prelude Tlv Names Simulator SimTime Packets RttEstimator Application.

Record SeqTimeout := mkSeqTimeout { to_seq : Z; to_time : Z }.

#[export] Instance SeqTimeout_eq_dec : EqDecision SeqTimeout.
Proof. solve_decision. Defined.

(** A [multi_index_container] with a unique index by sequence number and an
    ordered one by time: insertion does nothing when the sequence number is there,
    [st_first] is the first entry of the index by time. *)
Class SeqTimeouts (C : Type) := {
  st_empty : C;
  st_size : C -> nat;
  st_insert : SeqTimeout -> C -> C;
  st_erase : Z -> C -> C;
  st_find : Z -> C -> option SeqTimeout;
  st_first : C -> option SeqTimeout
}.

Class SeqTimeoutsLaws (C : Type) `{!SeqTimeouts C} : Prop := {
  find_empty seq : st_find seq (st_empty (C := C)) = None;
  find_insert e (c : C) seq :
    st_find seq (st_insert e c) =
    match st_find seq c with
    | Some x => Some x
    | None => if decide (seq = to_seq e) then Some e else None
    end;
  find_erase seq' (c : C) seq :
    st_find seq (st_erase seq' c) = if decide (seq = seq') then None else st_find seq c;
  find_seq seq (c : C) e : st_find seq c = Some e -> to_seq e = seq;
  first_none (c : C) seq : st_first c = None -> st_find seq c = None;
  first_some (c : C) e : st_first c = Some e ->
    st_find (to_seq e) c = Some e /\
    forall seq x, st_find seq c = Some x -> to_time e <= to_time x;
  size_erase (c : C) e : st_first c = Some e -> (st_size (st_erase (to_seq e) c) < st_size c)%nat
}.

(** What the trace sources [LastRetransmittedInterestDataDelay] and
    [FirstInterestDataDelay] report. *)
Inductive DelaySample :=
| LastRetransmittedInterestDataDelay (seqno delay hopCount : Z)
| FirstInterestDataDelay (seqno delay retxCount hopCount : Z).

Definition hop_count (d : DelaySample) : Z :=
  match d with
  | LastRetransmittedInterestDataDelay _ _ h | FirstInterestDataDelay _ _ _ h => h
  end.

(** A [RandomVariableStream]: outside the sources, with state [V]. *)
Class RandomVariableStream (V : Type) := rv_GetValue : V -> V * double.

Definition UINT32_MAX : Z := 4294967295.

Record StatimConsumer (R C V : Type) := mkStatimConsumer {
  m_active : bool;
  m_rand : R;
  m_seq : Z;
  m_seqMax : Z;
  m_sendEvent : option EventId;
  m_retxTimer : Z;
  m_retxEvent : option EventId;
  m_rtt : RttMeanDeviation;
  m_interestName : Name;
  m_interestLifeTime : Z;
  m_retxSeqs : gset Z;
  m_seqTimeouts : C;
  m_seqLastDelay : C;
  m_seqFullDelay : C;
  m_seqRetxCounts : gmap Z Z;
  m_delays : list DelaySample;   (** what the two delay trace sources reported *)
  m_frequency : double;
  m_firstTime : bool;
  m_random : option V;   (** the send-time randomisation *)
  m_interestSent : Z;
  m_dataReceived : Z;
  m_timeoutCount : Z;
  m_seqSendTime : gmap Z Z;
  m_timeoutsBySendBin : gmap Z Z;
  m_seqFirstSent : gmap Z Z;
  m_seqSatisfied : gset Z;
  m_lossWindowStart : Z;
  m_lossWindowLen : Z
}.

Arguments mkStatimConsumer {R C V}.
Arguments m_active {R C V} _.
Arguments m_rand {R C V} _.
Arguments m_seq {R C V} _.
Arguments m_seqMax {R C V} _.
Arguments m_sendEvent {R C V} _.
Arguments m_retxTimer {R C V} _.
Arguments m_retxEvent {R C V} _.
Arguments m_rtt {R C V} _.
Arguments m_interestName {R C V} _.
Arguments m_interestLifeTime {R C V} _.
Arguments m_retxSeqs {R C V} _.
Arguments m_seqTimeouts {R C V} _.
Arguments m_seqLastDelay {R C V} _.
Arguments m_seqFullDelay {R C V} _.
Arguments m_seqRetxCounts {R C V} _.
Arguments m_delays {R C V} _.
Arguments m_frequency {R C V} _.
Arguments m_firstTime {R C V} _.
Arguments m_random {R C V} _.
Arguments m_interestSent {R C V} _.
Arguments m_dataReceived {R C V} _.
Arguments m_timeoutCount {R C V} _.
Arguments m_seqSendTime {R C V} _.
Arguments m_timeoutsBySendBin {R C V} _.
Arguments m_seqFirstSent {R C V} _.
Arguments m_seqSatisfied {R C V} _.
Arguments m_lossWindowStart {R C V} _.
Arguments m_lossWindowLen {R C V} _.

#[export] Instance set_m_active {R C V} : Setter (@m_active R C V) := fun f s =>
  mkStatimConsumer (f (m_active s)) (m_rand s) (m_seq s) (m_seqMax s) (m_sendEvent s)
    (m_retxTimer s) (m_retxEvent s) (m_rtt s) (m_interestName s) (m_interestLifeTime s)
    (m_retxSeqs s) (m_seqTimeouts s) (m_seqLastDelay s) (m_seqFullDelay s) (m_seqRetxCounts s)
    (m_delays s) (m_frequency s) (m_firstTime s) (m_random s) (m_interestSent s) (m_dataReceived
    s) (m_timeoutCount s) (m_seqSendTime s) (m_timeoutsBySendBin s) (m_seqFirstSent s)
    (m_seqSatisfied s) (m_lossWindowStart s) (m_lossWindowLen s).
#[export] Instance set_m_rand {R C V} : Setter (@m_rand R C V) := fun f s =>
  mkStatimConsumer (m_active s) (f (m_rand s)) (m_seq s) (m_seqMax s) (m_sendEvent s)
    (m_retxTimer s) (m_retxEvent s) (m_rtt s) (m_interestName s) (m_interestLifeTime s)
    (m_retxSeqs s) (m_seqTimeouts s) (m_seqLastDelay s) (m_seqFullDelay s) (m_seqRetxCounts s)
    (m_delays s) (m_frequency s) (m_firstTime s) (m_random s) (m_interestSent s) (m_dataReceived
    s) (m_timeoutCount s) (m_seqSendTime s) (m_timeoutsBySendBin s) (m_seqFirstSent s)
    (m_seqSatisfied s) (m_lossWindowStart s) (m_lossWindowLen s).
#[export] Instance set_m_seq {R C V} : Setter (@m_seq R C V) := fun f s =>
  mkStatimConsumer (m_active s) (m_rand s) (f (m_seq s)) (m_seqMax s) (m_sendEvent s)
    (m_retxTimer s) (m_retxEvent s) (m_rtt s) (m_interestName s) (m_interestLifeTime s)
    (m_retxSeqs s) (m_seqTimeouts s) (m_seqLastDelay s) (m_seqFullDelay s) (m_seqRetxCounts s)
    (m_delays s) (m_frequency s) (m_firstTime s) (m_random s) (m_interestSent s) (m_dataReceived
    s) (m_timeoutCount s) (m_seqSendTime s) (m_timeoutsBySendBin s) (m_seqFirstSent s)
    (m_seqSatisfied s) (m_lossWindowStart s) (m_lossWindowLen s).
#[export] Instance set_m_sendEvent {R C V} : Setter (@m_sendEvent R C V) := fun f s =>
  mkStatimConsumer (m_active s) (m_rand s) (m_seq s) (m_seqMax s) (f (m_sendEvent s))
    (m_retxTimer s) (m_retxEvent s) (m_rtt s) (m_interestName s) (m_interestLifeTime s)
    (m_retxSeqs s) (m_seqTimeouts s) (m_seqLastDelay s) (m_seqFullDelay s) (m_seqRetxCounts s)
    (m_delays s) (m_frequency s) (m_firstTime s) (m_random s) (m_interestSent s) (m_dataReceived
    s) (m_timeoutCount s) (m_seqSendTime s) (m_timeoutsBySendBin s) (m_seqFirstSent s)
    (m_seqSatisfied s) (m_lossWindowStart s) (m_lossWindowLen s).
#[export] Instance set_m_retxTimer {R C V} : Setter (@m_retxTimer R C V) := fun f s =>
  mkStatimConsumer (m_active s) (m_rand s) (m_seq s) (m_seqMax s) (m_sendEvent s) (f
    (m_retxTimer s)) (m_retxEvent s) (m_rtt s) (m_interestName s) (m_interestLifeTime s)
    (m_retxSeqs s) (m_seqTimeouts s) (m_seqLastDelay s) (m_seqFullDelay s) (m_seqRetxCounts s)
    (m_delays s) (m_frequency s) (m_firstTime s) (m_random s) (m_interestSent s) (m_dataReceived
    s) (m_timeoutCount s) (m_seqSendTime s) (m_timeoutsBySendBin s) (m_seqFirstSent s)
    (m_seqSatisfied s) (m_lossWindowStart s) (m_lossWindowLen s).
#[export] Instance set_m_retxEvent {R C V} : Setter (@m_retxEvent R C V) := fun f s =>
  mkStatimConsumer (m_active s) (m_rand s) (m_seq s) (m_seqMax s) (m_sendEvent s) (m_retxTimer
    s) (f (m_retxEvent s)) (m_rtt s) (m_interestName s) (m_interestLifeTime s) (m_retxSeqs s)
    (m_seqTimeouts s) (m_seqLastDelay s) (m_seqFullDelay s) (m_seqRetxCounts s) (m_delays s)
    (m_frequency s) (m_firstTime s) (m_random s) (m_interestSent s) (m_dataReceived s)
    (m_timeoutCount s) (m_seqSendTime s) (m_timeoutsBySendBin s) (m_seqFirstSent s)
    (m_seqSatisfied s) (m_lossWindowStart s) (m_lossWindowLen s).
#[export] Instance set_m_rtt {R C V} : Setter (@m_rtt R C V) := fun f s =>
  mkStatimConsumer (m_active s) (m_rand s) (m_seq s) (m_seqMax s) (m_sendEvent s) (m_retxTimer
    s) (m_retxEvent s) (f (m_rtt s)) (m_interestName s) (m_interestLifeTime s) (m_retxSeqs s)
    (m_seqTimeouts s) (m_seqLastDelay s) (m_seqFullDelay s) (m_seqRetxCounts s) (m_delays s)
    (m_frequency s) (m_firstTime s) (m_random s) (m_interestSent s) (m_dataReceived s)
    (m_timeoutCount s) (m_seqSendTime s) (m_timeoutsBySendBin s) (m_seqFirstSent s)
    (m_seqSatisfied s) (m_lossWindowStart s) (m_lossWindowLen s).
#[export] Instance set_m_retxSeqs {R C V} : Setter (@m_retxSeqs R C V) := fun f s =>
  mkStatimConsumer (m_active s) (m_rand s) (m_seq s) (m_seqMax s) (m_sendEvent s) (m_retxTimer
    s) (m_retxEvent s) (m_rtt s) (m_interestName s) (m_interestLifeTime s) (f (m_retxSeqs s))
    (m_seqTimeouts s) (m_seqLastDelay s) (m_seqFullDelay s) (m_seqRetxCounts s) (m_delays s)
    (m_frequency s) (m_firstTime s) (m_random s) (m_interestSent s) (m_dataReceived s)
    (m_timeoutCount s) (m_seqSendTime s) (m_timeoutsBySendBin s) (m_seqFirstSent s)
    (m_seqSatisfied s) (m_lossWindowStart s) (m_lossWindowLen s).
#[export] Instance set_m_seqTimeouts {R C V} : Setter (@m_seqTimeouts R C V) := fun f s =>
  mkStatimConsumer (m_active s) (m_rand s) (m_seq s) (m_seqMax s) (m_sendEvent s) (m_retxTimer
    s) (m_retxEvent s) (m_rtt s) (m_interestName s) (m_interestLifeTime s) (m_retxSeqs s) (f
    (m_seqTimeouts s)) (m_seqLastDelay s) (m_seqFullDelay s) (m_seqRetxCounts s) (m_delays s)
    (m_frequency s) (m_firstTime s) (m_random s) (m_interestSent s) (m_dataReceived s)
    (m_timeoutCount s) (m_seqSendTime s) (m_timeoutsBySendBin s) (m_seqFirstSent s)
    (m_seqSatisfied s) (m_lossWindowStart s) (m_lossWindowLen s).
#[export] Instance set_m_seqLastDelay {R C V} : Setter (@m_seqLastDelay R C V) := fun f s =>
  mkStatimConsumer (m_active s) (m_rand s) (m_seq s) (m_seqMax s) (m_sendEvent s) (m_retxTimer
    s) (m_retxEvent s) (m_rtt s) (m_interestName s) (m_interestLifeTime s) (m_retxSeqs s)
    (m_seqTimeouts s) (f (m_seqLastDelay s)) (m_seqFullDelay s) (m_seqRetxCounts s) (m_delays s)
    (m_frequency s) (m_firstTime s) (m_random s) (m_interestSent s) (m_dataReceived s)
    (m_timeoutCount s) (m_seqSendTime s) (m_timeoutsBySendBin s) (m_seqFirstSent s)
    (m_seqSatisfied s) (m_lossWindowStart s) (m_lossWindowLen s).
#[export] Instance set_m_seqFullDelay {R C V} : Setter (@m_seqFullDelay R C V) := fun f s =>
  mkStatimConsumer (m_active s) (m_rand s) (m_seq s) (m_seqMax s) (m_sendEvent s) (m_retxTimer
    s) (m_retxEvent s) (m_rtt s) (m_interestName s) (m_interestLifeTime s) (m_retxSeqs s)
    (m_seqTimeouts s) (m_seqLastDelay s) (f (m_seqFullDelay s)) (m_seqRetxCounts s) (m_delays s)
    (m_frequency s) (m_firstTime s) (m_random s) (m_interestSent s) (m_dataReceived s)
    (m_timeoutCount s) (m_seqSendTime s) (m_timeoutsBySendBin s) (m_seqFirstSent s)
    (m_seqSatisfied s) (m_lossWindowStart s) (m_lossWindowLen s).
#[export] Instance set_m_seqRetxCounts {R C V} : Setter (@m_seqRetxCounts R C V) := fun f s =>
  mkStatimConsumer (m_active s) (m_rand s) (m_seq s) (m_seqMax s) (m_sendEvent s) (m_retxTimer
    s) (m_retxEvent s) (m_rtt s) (m_interestName s) (m_interestLifeTime s) (m_retxSeqs s)
    (m_seqTimeouts s) (m_seqLastDelay s) (m_seqFullDelay s) (f (m_seqRetxCounts s)) (m_delays s)
    (m_frequency s) (m_firstTime s) (m_random s) (m_interestSent s) (m_dataReceived s)
    (m_timeoutCount s) (m_seqSendTime s) (m_timeoutsBySendBin s) (m_seqFirstSent s)
    (m_seqSatisfied s) (m_lossWindowStart s) (m_lossWindowLen s).
#[export] Instance set_m_delays {R C V} : Setter (@m_delays R C V) := fun f s =>
  mkStatimConsumer (m_active s) (m_rand s) (m_seq s) (m_seqMax s) (m_sendEvent s) (m_retxTimer
    s) (m_retxEvent s) (m_rtt s) (m_interestName s) (m_interestLifeTime s) (m_retxSeqs s)
    (m_seqTimeouts s) (m_seqLastDelay s) (m_seqFullDelay s) (m_seqRetxCounts s) (f (m_delays s))
    (m_frequency s) (m_firstTime s) (m_random s) (m_interestSent s) (m_dataReceived s)
    (m_timeoutCount s) (m_seqSendTime s) (m_timeoutsBySendBin s) (m_seqFirstSent s)
    (m_seqSatisfied s) (m_lossWindowStart s) (m_lossWindowLen s).
#[export] Instance set_m_firstTime {R C V} : Setter (@m_firstTime R C V) := fun f s =>
  mkStatimConsumer (m_active s) (m_rand s) (m_seq s) (m_seqMax s) (m_sendEvent s) (m_retxTimer
    s) (m_retxEvent s) (m_rtt s) (m_interestName s) (m_interestLifeTime s) (m_retxSeqs s)
    (m_seqTimeouts s) (m_seqLastDelay s) (m_seqFullDelay s) (m_seqRetxCounts s) (m_delays s)
    (m_frequency s) (f (m_firstTime s)) (m_random s) (m_interestSent s) (m_dataReceived s)
    (m_timeoutCount s) (m_seqSendTime s) (m_timeoutsBySendBin s) (m_seqFirstSent s)
    (m_seqSatisfied s) (m_lossWindowStart s) (m_lossWindowLen s).
#[export] Instance set_m_random {R C V} : Setter (@m_random R C V) := fun f s =>
  mkStatimConsumer (m_active s) (m_rand s) (m_seq s) (m_seqMax s) (m_sendEvent s) (m_retxTimer
    s) (m_retxEvent s) (m_rtt s) (m_interestName s) (m_interestLifeTime s) (m_retxSeqs s)
    (m_seqTimeouts s) (m_seqLastDelay s) (m_seqFullDelay s) (m_seqRetxCounts s) (m_delays s)
    (m_frequency s) (m_firstTime s) (f (m_random s)) (m_interestSent s) (m_dataReceived s)
    (m_timeoutCount s) (m_seqSendTime s) (m_timeoutsBySendBin s) (m_seqFirstSent s)
    (m_seqSatisfied s) (m_lossWindowStart s) (m_lossWindowLen s).
#[export] Instance set_m_interestSent {R C V} : Setter (@m_interestSent R C V) := fun f s =>
  mkStatimConsumer (m_active s) (m_rand s) (m_seq s) (m_seqMax s) (m_sendEvent s) (m_retxTimer
    s) (m_retxEvent s) (m_rtt s) (m_interestName s) (m_interestLifeTime s) (m_retxSeqs s)
    (m_seqTimeouts s) (m_seqLastDelay s) (m_seqFullDelay s) (m_seqRetxCounts s) (m_delays s)
    (m_frequency s) (m_firstTime s) (m_random s) (f (m_interestSent s)) (m_dataReceived s)
    (m_timeoutCount s) (m_seqSendTime s) (m_timeoutsBySendBin s) (m_seqFirstSent s)
    (m_seqSatisfied s) (m_lossWindowStart s) (m_lossWindowLen s).
#[export] Instance set_m_dataReceived {R C V} : Setter (@m_dataReceived R C V) := fun f s =>
  mkStatimConsumer (m_active s) (m_rand s) (m_seq s) (m_seqMax s) (m_sendEvent s) (m_retxTimer
    s) (m_retxEvent s) (m_rtt s) (m_interestName s) (m_interestLifeTime s) (m_retxSeqs s)
    (m_seqTimeouts s) (m_seqLastDelay s) (m_seqFullDelay s) (m_seqRetxCounts s) (m_delays s)
    (m_frequency s) (m_firstTime s) (m_random s) (m_interestSent s) (f (m_dataReceived s))
    (m_timeoutCount s) (m_seqSendTime s) (m_timeoutsBySendBin s) (m_seqFirstSent s)
    (m_seqSatisfied s) (m_lossWindowStart s) (m_lossWindowLen s).
#[export] Instance set_m_timeoutCount {R C V} : Setter (@m_timeoutCount R C V) := fun f s =>
  mkStatimConsumer (m_active s) (m_rand s) (m_seq s) (m_seqMax s) (m_sendEvent s) (m_retxTimer
    s) (m_retxEvent s) (m_rtt s) (m_interestName s) (m_interestLifeTime s) (m_retxSeqs s)
    (m_seqTimeouts s) (m_seqLastDelay s) (m_seqFullDelay s) (m_seqRetxCounts s) (m_delays s)
    (m_frequency s) (m_firstTime s) (m_random s) (m_interestSent s) (m_dataReceived s) (f
    (m_timeoutCount s)) (m_seqSendTime s) (m_timeoutsBySendBin s) (m_seqFirstSent s)
    (m_seqSatisfied s) (m_lossWindowStart s) (m_lossWindowLen s).
#[export] Instance set_m_seqSendTime {R C V} : Setter (@m_seqSendTime R C V) := fun f s =>
  mkStatimConsumer (m_active s) (m_rand s) (m_seq s) (m_seqMax s) (m_sendEvent s) (m_retxTimer
    s) (m_retxEvent s) (m_rtt s) (m_interestName s) (m_interestLifeTime s) (m_retxSeqs s)
    (m_seqTimeouts s) (m_seqLastDelay s) (m_seqFullDelay s) (m_seqRetxCounts s) (m_delays s)
    (m_frequency s) (m_firstTime s) (m_random s) (m_interestSent s) (m_dataReceived s)
    (m_timeoutCount s) (f (m_seqSendTime s)) (m_timeoutsBySendBin s) (m_seqFirstSent s)
    (m_seqSatisfied s) (m_lossWindowStart s) (m_lossWindowLen s).
#[export] Instance set_m_timeoutsBySendBin {R C V} : Setter (@m_timeoutsBySendBin R C V) := fun f s =>
  mkStatimConsumer (m_active s) (m_rand s) (m_seq s) (m_seqMax s) (m_sendEvent s) (m_retxTimer
    s) (m_retxEvent s) (m_rtt s) (m_interestName s) (m_interestLifeTime s) (m_retxSeqs s)
    (m_seqTimeouts s) (m_seqLastDelay s) (m_seqFullDelay s) (m_seqRetxCounts s) (m_delays s)
    (m_frequency s) (m_firstTime s) (m_random s) (m_interestSent s) (m_dataReceived s)
    (m_timeoutCount s) (m_seqSendTime s) (f (m_timeoutsBySendBin s)) (m_seqFirstSent s)
    (m_seqSatisfied s) (m_lossWindowStart s) (m_lossWindowLen s).
#[export] Instance set_m_seqFirstSent {R C V} : Setter (@m_seqFirstSent R C V) := fun f s =>
  mkStatimConsumer (m_active s) (m_rand s) (m_seq s) (m_seqMax s) (m_sendEvent s) (m_retxTimer
    s) (m_retxEvent s) (m_rtt s) (m_interestName s) (m_interestLifeTime s) (m_retxSeqs s)
    (m_seqTimeouts s) (m_seqLastDelay s) (m_seqFullDelay s) (m_seqRetxCounts s) (m_delays s)
    (m_frequency s) (m_firstTime s) (m_random s) (m_interestSent s) (m_dataReceived s)
    (m_timeoutCount s) (m_seqSendTime s) (m_timeoutsBySendBin s) (f (m_seqFirstSent s))
    (m_seqSatisfied s) (m_lossWindowStart s) (m_lossWindowLen s).
#[export] Instance set_m_seqSatisfied {R C V} : Setter (@m_seqSatisfied R C V) := fun f s =>
  mkStatimConsumer (m_active s) (m_rand s) (m_seq s) (m_seqMax s) (m_sendEvent s) (m_retxTimer
    s) (m_retxEvent s) (m_rtt s) (m_interestName s) (m_interestLifeTime s) (m_retxSeqs s)
    (m_seqTimeouts s) (m_seqLastDelay s) (m_seqFullDelay s) (m_seqRetxCounts s) (m_delays s)
    (m_frequency s) (m_firstTime s) (m_random s) (m_interestSent s) (m_dataReceived s)
    (m_timeoutCount s) (m_seqSendTime s) (m_timeoutsBySendBin s) (m_seqFirstSent s) (f
    (m_seqSatisfied s)) (m_lossWindowStart s) (m_lossWindowLen s).

(** The constructor; the attribute [RetxTimer] schedules the first check. *)
Definition StatimConsumer_new {R C V} `{!SeqTimeouts C} (rand : R) (seq seqMax : Z)
    (rtt : RttMeanDeviation) (interestName : Name) (interestLifeTime : Z) (frequency : double)
    (random : option V) (lossWindowStart lossWindowLen : Z) : StatimConsumer R C V :=
  mkStatimConsumer false rand seq seqMax None 0 None rtt interestName interestLifeTime ∅
    st_empty st_empty st_empty ∅ [] frequency true random 0 0 0 ∅ ∅ ∅ ∅ lossWindowStart
    lossWindowLen.

(** The events that call a consumer. *)
Inductive ConsumerEvent :=
| SendPacketEvent
| CheckRetxTimeoutEvent
| ConsumerData (data : Data).

Section consumer.
Context {R C V : Type} `{!UniformStreams R, !SeqTimeouts C, !RandomVariableStream V}.
Abbreviation app := (StatimConsumer R C V).
Abbreviation world := (AppWorld app ConsumerEvent).

Definition SetRetxTimer (retxTimer : Z) : M world unit :=
  app_upd (fun s => s <| m_retxTimer := retxTimer |>);;
  s ← app_get;
  b ← app_is_running (m_retxEvent s);
  (match m_retxEvent s with
   | Some id => if b : bool then modify (fun w => w <| a_sim ::= Remove id |>) else mret tt
   | None => mret tt
   end);;
  id ← app_schedule retxTimer CheckRetxTimeoutEvent;
  app_upd (fun s => s <| m_retxEvent := Some id |>).

(** [StatimConsumer::ScheduleNextPacket]. *)
Definition ScheduleNextPacket : M world unit :=
  s ← app_get;
  if m_firstTime s then
    delay ← abort_if_none (Seconds dzero);
    id ← app_schedule delay SendPacketEvent;
    app_upd (fun s => s <| m_sendEvent := Some id |> <| m_firstTime := false |>)
  else
    b ← app_is_running (m_sendEvent s);
    if b : bool then mret tt
    else
      seconds ←
        (match m_random s with
         | None => mret (ddiv (double_of_Z 1) (m_frequency s))
         | Some v =>
             let '(v, x) := rv_GetValue v in
             app_upd (fun s => s <| m_random := Some v |>);; mret x
         end);
      delay ← abort_if_none (Seconds seconds);
      id ← app_schedule delay SendPacketEvent;
      app_upd (fun s => s <| m_sendEvent := Some id |>).

Definition Consumer_WillSendOutInterest (sequenceNumber : Z) : M world unit :=
  t ← app_now;
  let e := mkSeqTimeout sequenceNumber t in
  app_upd (fun s =>
    s <| m_seqTimeouts ::= st_insert e |>
      <| m_seqFullDelay ::= st_insert e |>
      <| m_seqLastDelay ::= fun c => st_insert e (st_erase sequenceNumber c) |>
      <| m_seqRetxCounts ::= fun m =>
           <[sequenceNumber := u32 (default 0 (m !! sequenceNumber) + 1)]> m |>
      <| m_rtt ::= SentSeq t sequenceNumber 1 |>).

Definition WillSendOutInterest (sequenceNumber : Z) : M world unit :=
  t ← app_now;
  app_upd (fun s =>
    s <| m_interestSent ::= fun n => u64 (n + 1) |>
      <| m_seqSendTime ::= <[sequenceNumber := t]> |>
      <| m_seqFirstSent ::= fun m =>
           match m !! sequenceNumber with Some _ => m | None => <[sequenceNumber := t]> m end |>);;
  Consumer_WillSendOutInterest sequenceNumber.

Definition Consumer_OnTimeout (sequenceNumber : Z) : M world unit :=
  t ← app_now;
  app_upd (fun s => s <| m_rtt ::= SentSeq t sequenceNumber 1 |>
                      <| m_retxSeqs ::= fun x => {[ sequenceNumber ]} ∪ x |>);;
  ScheduleNextPacket.

(** The bin of a send time: tenths of a second, truncated. *)
Definition send_bin (t : Z) : Z := trunc (dmul (GetSeconds t) (double_of_Z 10)).

Definition OnTimeout (sequenceNumber : Z) : M world unit :=
  app_upd (fun s => s <| m_timeoutCount ::= fun n => u64 (n + 1) |>);;
  s ← app_get;
  (match m_seqSendTime s !! sequenceNumber with
   | Some sendTime =>
       app_upd (fun s => s <| m_timeoutsBySendBin ::= fun m =>
         let bin := send_bin sendTime in <[bin := u32 (default 0 (m !! bin) + 1)]> m |>)
   | None => mret tt
   end);;
  Consumer_OnTimeout sequenceNumber.

(** The loop of [CheckRetxTimeout]; the container shrinks in every round. *)
Fixpoint expire_timeouts (fuel : nat) (now rto : Z) : M world unit :=
  match fuel with
  | O => mret tt
  | S fuel =>
      s ← app_get;
      match st_first (m_seqTimeouts s) with
      | None => mret tt
      | Some entry =>
          if i64 (to_time entry + rto) <=? now then
            app_upd (fun s => s <| m_seqTimeouts ::= st_erase (to_seq entry) |>);;
            OnTimeout (to_seq entry);;
            expire_timeouts fuel now rto
          else mret tt
      end
  end.

Definition CheckRetxTimeout : M world unit :=
  now ← app_now;
  s ← app_get;
  rto ← abort_if_none (RetransmitTimeout (m_rtt s));
  expire_timeouts (st_size (m_seqTimeouts s)) now rto;;
  s ← app_get;
  id ← app_schedule (m_retxTimer s) CheckRetxTimeoutEvent;
  app_upd (fun s => s <| m_retxEvent := Some id |>).

(** The sequence number [SendPacket] sends: the smallest one to retransmit, or the
    next new one; [None] when everything is requested. *)
Definition next_seq : M world (option Z) :=
  s ← app_get;
  seq ← (match set_elements (m_retxSeqs s) with
         | seq :: _ => app_upd (fun s => s <| m_retxSeqs ::= fun x => x ∖ {[ seq ]} |>);; mret seq
         | [] => mret UINT32_MAX
         end);
  if negb (seq =? UINT32_MAX) then mret (Some seq)
  else if negb (m_seqMax s =? UINT32_MAX) && (m_seqMax s <=? m_seq s) then mret None
  else app_upd (fun s => s <| m_seq ::= fun n => u32 (n + 1) |>);; mret (Some (m_seq s)).

Definition SendPacket : M world unit :=
  s ← app_get;
  if negb (m_active s) then mret tt
  else
    next ← next_seq;
    match next with
    | None => mret tt
    | Some seq =>
        s ← app_get;
        let nameWithSequence := appendSequenceNumber (m_interestName s) seq in
        let '(r, nonce) := draw_nonce (m_rand s) in
        app_upd (fun s => s <| m_rand := r |>);;
        let interest := new_interest nameWithSequence nonce (GetMilliSeconds (m_interestLifeTime s)) in
        WillSendOutInterest seq;;
        to_link (OutInterest interest);;
        ScheduleNextPacket
    end.

(** The samples a Data for [seq] gives rise to. *)
Definition delay_samples (now seq hopCount : Z) (s : app) : list DelaySample :=
  (match st_find seq (m_seqLastDelay s) with
   | Some entry => [LastRetransmittedInterestDataDelay seq (i64 (now - to_time entry)) hopCount]
   | None => []
   end) ++
  (match st_find seq (m_seqFullDelay s) with
   | Some entry =>
       [FirstInterestDataDelay seq (i64 (now - to_time entry))
          (default 0 (m_seqRetxCounts s !! seq)) hopCount]
   | None => []
   end).

Definition Consumer_OnData (data : Data) : M world unit :=
  s ← app_get;
  if negb (m_active s) then mret tt
  else
    seq ← lift_result (name_at (d_name data) (-1) ≫= toSequenceNumber);
    let seq := u32 seq in
    let hopCount := match d_hopCount data with Some n => i32 n | None => 0 end in
    now ← app_now;
    app_upd (fun s =>
      s <| m_delays ::= fun l => l ++ delay_samples now seq hopCount s |>
        <| m_seqRetxCounts ::= delete seq |>
        <| m_seqFullDelay ::= st_erase seq |>
        <| m_seqLastDelay ::= st_erase seq |>
        <| m_seqTimeouts ::= st_erase seq |>
        <| m_retxSeqs ::= fun x => x ∖ {[ seq ]} |>);;
    s ← app_get;
    '(rtt, _) ← abort_if_none (AckSeq now seq (m_rtt s));
    app_upd (fun s => s <| m_rtt := Reset rtt |>).

(** The new [Data] is made from the wire encoding, which holds no tags. *)
Definition without_last (data : Data) : Data :=
  let dataName := d_name data in
  mkData (getPrefix dataName (i64 (name_size dataName - 1))) (d_content data) [] None.

Definition OnData (data : Data) : M world unit :=
  app_upd (fun s => s <| m_dataReceived ::= fun n => u64 (n + 1) |>);;
  (if 2 <=? name_size (d_name data) then
     seq ← lift_result (name_at (d_name data) (-2) ≫= toSequenceNumber);
     app_upd (fun s => s <| m_seqSatisfied ::= fun x => {[ u32 seq ]} ∪ x |>)
   else mret tt);;
  Consumer_OnData (without_last data).

Definition StartApplication : M world unit :=
  app_upd (fun s => s <| m_active := true |>);;
  ScheduleNextPacket.

Definition StopApplication : M world unit :=
  s ← app_get;
  app_cancel (m_sendEvent s);;
  app_upd (fun s => s <| m_active := false |>).

(** *** The loss report of [StatimConsumer::StopApplication] *)
Definition never_satisfied (s : app) (kv : Z * Z) : bool := bool_decide (kv.1 ∉ m_seqSatisfied s).

Definition sent_in_window (s : app) (kv : Z * Z) : bool :=
  let wEnd := i64 (m_lossWindowStart s + m_lossWindowLen s) in
  (m_lossWindowStart s <=? kv.2) && (kv.2 <? wEnd).

(** [(sentInWin, neverSat)]. *)
Definition window_loss (s : app) : Z * Z :=
  let sent := List.filter (sent_in_window s) (map_to_list (m_seqFirstSent s)) in
  (u32 (Z.of_nat (length sent)), u32 (Z.of_nat (length (List.filter (never_satisfied s) sent)))).

(** [neverSatTotal]. *)
Definition run_loss (s : app) : Z :=
  u32 (Z.of_nat (length (List.filter (never_satisfied s) (map_to_list (m_seqFirstSent s))))).

Definition consumer_dispatch (e : ConsumerEvent) : M world unit :=
  match e with
  | SendPacketEvent => SendPacket
  | CheckRetxTimeoutEvent => CheckRetxTimeout
  | ConsumerData data => OnData data
  end.
End consumer.
