(* ===== verification/ConsumerSpec.v ===== *)
(** * ConsumerSpec: no request of a consumer is forgotten

    The reachable states of a consumer: every sequence number it has requested is
    answered, waiting for its timeout with a check queued, or waiting to be sent
    again with a transmission queued.  The retransmission timeout never moves. *)
From Stdlib Require Import Floats.SpecFloat.
From S2P Require Import Prelude Tlv Names Simulator SimTime Packets RttEstimator Application.
From S2P Require Import Consumer.

Section consumer.
Context {R C V : Type} `{!UniformStreams R, !SeqTimeouts C, !SeqTimeoutsLaws C}.
Context `{!RandomVariableStream V}.
Abbreviation app := (StatimConsumer R C V).
Abbreviation world := (AppWorld app ConsumerEvent).
Implicit Types (w : world) (s : app).

(** ** The books *)

(** [seq] waits for a timeout. *)
Definition awaited (s : app) (seq : Z) : Prop := is_Some (st_find seq (m_seqTimeouts s)).

(** The sequence numbers from [start] to the next one are sent and accounted for;
    [but] is one that is being sent. *)
Record ledger (start : Z) (rtt0 : RttMeanDeviation) (but : option Z) (s : app) : Prop := {
  lg_range : 0 <= start <= m_seq s /\ m_seq s <= UINT32_MAX;
  lg_first seq : but <> Some seq -> is_Some (m_seqFirstSent s !! seq) <-> start <= seq < m_seq s;
  lg_open seq : awaited s seq \/ seq ∈ m_retxSeqs s -> start <= seq < m_seq s;
  lg_apart seq : awaited s seq -> seq ∉ m_retxSeqs s;
  lg_all seq : start <= seq < m_seq s -> but <> Some seq ->
    awaited s seq \/ seq ∈ m_retxSeqs s \/ seq ∈ m_seqSatisfied s;
  lg_but seq : but = Some seq -> start <= seq < m_seq s /\ ~ awaited s seq /\ seq ∉ m_retxSeqs s;
  lg_rtt : settled rtt0 (m_rtt s);
  lg_hops : Forall (fun d => hop_count d = 0) (m_delays s)
}.

(** Everything the books depend on. *)
Definition books (s : app) :=
  (m_seq s, m_seqTimeouts s, m_retxSeqs s, m_seqFirstSent s, m_seqSatisfied s, m_rtt s, m_delays s).

Lemma ledger_books start rtt0 but s s' :
  books s' = books s -> ledger start rtt0 but s -> ledger start rtt0 but s'.
Proof.
  intros E. injection E as E1 E2 E3 E4 E5 E6 E7. intros [H1 H2 H3 H4 H5 H6 H7 H8].
  unfold awaited in *. split; unfold awaited; rewrite ?E1, ?E2, ?E3, ?E4, ?E5, ?E6, ?E7; done.
Qed.

(** ** What is queued *)

(** Queued events have earlier numbers than the next one, and what [m_sendEvent] names is a
    transmission. *)
Record numbered (w : world) : Prop := {
  nb_uid : 0 <= m_uid (a_sim w);
  nb_fresh id e : queued (a_sim w) id e -> id_uid id < m_uid (a_sim w);
  nb_send id : m_sendEvent (a_app w) = Some id ->
    id_uid id < m_uid (a_sim w) /\
    forall e, queued (a_sim w) id e -> e = SendPacketEvent
}.

Definition send_pending (w : world) : Prop :=
  exists id, m_sendEvent (a_app w) = Some id /\ queued (a_sim w) id SendPacketEvent.

Definition check_pending (w : world) : Prop :=
  exists id, queued (a_sim w) id CheckRetxTimeoutEvent.

(** Data that is on its way to the consumer has a name a 64-bit host can hold. *)
Definition data_ok (w : world) : Prop := forall id d,
  queued (a_sim w) id (ConsumerData d) -> name_size (d_name d) < 9223372036854775808.

(** Scheduling one event of the consumer's own. *)
Lemma schedule_own d e w q id :
  Schedule d e (a_sim w) = (q, id) -> (forall x, e <> ConsumerData x) ->
  numbered w -> data_ok w -> m_uid (a_sim w) + 1 < 4294967296 ->
  let w' := mkAppWorld q (a_app w) (a_link w) in
  numbered w' /\ data_ok w' /\ m_uid q = m_uid (a_sim w) + 1 /\
  id_uid id = m_uid (a_sim w) /\ queued q id e /\ (forall x, queued q id x -> x = e) /\
  (forall i x, queued (a_sim w) i x -> queued q i x).
Proof.
  intros Es He [H1 Hf H2] H3 Hu. cbv zeta.
  pose proof (queued_Schedule d e (a_sim w)) as Hq. rewrite Es in Hq. cbn [fst snd] in Hq.
  assert (m_uid q = m_uid (a_sim w) + 1 /\ id_uid id = m_uid (a_sim w)) as [E1 E2].
  { unfold Schedule in Es. injection Es as <- <-. cbn. split; [|done]. apply u32_id.
    unfold u32_range. lia. }
  split_and!; try done.
  - split; cbn; [lia| |].
    { intros i x Hx. apply Hq in Hx as [[-> _]|Hx]; [lia|]. specialize (Hf i x Hx). lia. }
    intros i Hi. destruct (H2 i Hi) as [Hlt Hall]. split; [lia|].
    intros x Hx. apply Hq in Hx as [[-> _]|Hx]; [lia|auto].
  - intros i x Hx. apply Hq in Hx as [[_ Hx]|Hx]; [by destruct (He x)|eauto].
  - apply Hq. by left.
  - intros x Hx. apply Hq in Hx as [[_ ->]|Hx]; [done|]. specialize (Hf id x Hx). lia.
  - intros i x Hx. apply Hq. by right.
Qed.

(** What the methods do to the queue: at most [n] events of the consumer's own are
    added, and nothing is taken out. *)
Record moved (n : Z) (w w' : world) : Prop := {
  mv_numbered : numbered w';
  mv_data : data_ok w';
  mv_uid : m_uid (a_sim w) <= m_uid (a_sim w') <= m_uid (a_sim w) + n;
  mv_queue i x : queued (a_sim w) i x -> queued (a_sim w') i x
}.

Lemma moved_trans n k w w1 w2 : moved n w w1 -> moved k w1 w2 -> moved (n + k) w w2.
Proof. intros [H1 H2 H3 H4] [K1 K2 K3 K4]. split; auto. lia. Qed.

Lemma moved_check n w w' : moved n w w' -> check_pending w -> check_pending w'.
Proof. intros Hm [id Hid]. exists id. by apply (mv_queue n w w' Hm). Qed.

(** The application changes, the queue does not. *)
Lemma numbered_app w f : m_sendEvent (f (a_app w)) = m_sendEvent (a_app w) ->
  numbered w -> numbered (mkAppWorld (a_sim w) (f (a_app w)) (a_link w)).
Proof. intros E [H1 Hf H2]. split; cbn; [done..|]. by rewrite E. Qed.

Lemma schedule_send d w q id (f : app -> app) :
  Schedule d SendPacketEvent (a_sim w) = (q, id) -> numbered w -> data_ok w ->
  m_uid (a_sim w) + 1 < 4294967296 -> m_sendEvent (f (a_app w)) = Some id ->
  let w' := mkAppWorld q (f (a_app w)) (a_link w) in moved 1 w w' /\ send_pending w'.
Proof.
  intros Es Hn Hd Hu Hf. destruct (schedule_own _ _ _ _ _ Es) as (K1 & K2 & K3 & K4 & K5 & K6 & K7);
    [done..|]. split.
  - split; cbn; [|done|lia|done]. destruct K1 as [H1 H2 _]. split; cbn; [done..|].
    rewrite Hf. intros i [= <-]. split; [lia|auto].
  - exists id. by split.
Qed.

(** What arming the transmission comes to. *)
Definition armed (w w' : world) : Prop :=
  moved 1 w w' /\ send_pending w' /\ books (a_app w') = books (a_app w) /\
  m_active (a_app w') = m_active (a_app w) /\ a_link w' = a_link w.

Lemma send_after seconds (f : EventId -> app -> app) w w' :
  numbered w -> data_ok w -> m_uid (a_sim w) + 1 < 4294967296 ->
  (forall id s, m_sendEvent (f id s) = Some id /\ books (f id s) = books s /\
     m_active (f id s) = m_active s) ->
  (delay ← abort_if_none (Seconds seconds);
   id ← app_schedule delay SendPacketEvent;
   app_upd (fun s => f id s)) w = (w', inr tt) ->
  armed w w'.
Proof.
  intros Hn Hd Hu Hf. destruct (Seconds seconds) as [delay|]; [|done].
  cbn [abort_if_none]. rewrite run_ret, run_app_schedule.
  destruct (Schedule delay SendPacketEvent (a_sim w)) as [q id] eqn:Es. cbn. intros [= <-].
  destruct (Hf id (a_app w)) as (F1 & F2 & F3).
  destruct (schedule_send delay w q id (f id)) as [M1 M2]; [done..|]. by split_and!.
Qed.

(** [ScheduleNextPacket] leaves a transmission queued and the books as they are. *)
Lemma ScheduleNextPacket_ok w w' :
  numbered w -> data_ok w -> m_uid (a_sim w) + 1 < 4294967296 ->
  ScheduleNextPacket w = (w', inr tt) -> armed w w'.
Proof.
  intros Hn Hd Hu. unfold ScheduleNextPacket. rewrite run_app_get.
  destruct (m_firstTime (a_app w)).
  { by apply (send_after _ (fun id s => s <| m_sendEvent := Some id |> <| m_firstTime := false |>)). }
  rewrite run_app_is_running. destruct (is_running _ _) eqn:Er.
  - intros [= <-]. split_and!; try done; [split; auto; lia|].
    destruct (m_sendEvent (a_app w)) as [id|] eqn:Eid; [|done]. cbn in Er.
    apply negb_true_iff in Er. destruct (running_queued _ _ Er) as [e Hq]. exists id. split; [done|].
    by rewrite <-(proj2 (nb_send w Hn id Eid) e Hq).
  - destruct (m_random (a_app w)) as [v|].
    + destruct (rv_GetValue v) as [v' x]. rewrite run_assoc, run_app_upd, run_ret.
      intros E. set (w1 := mkAppWorld _ _ _) in E.
      destruct (send_after x (fun id s => s <| m_sendEvent := Some id |>) w1 w') as (M1 & M2 & M3 & M4 & M5);
        [by apply (numbered_app w (fun s => s <| m_random := Some v' |>))|done..|].
      split; [|by split_and!]. by destruct M1.
    + rewrite run_ret. by apply (send_after _ (fun id s => s <| m_sendEvent := Some id |>)).
Qed.

(** ** Timeouts *)
Lemma OnTimeout_run seq w : exists s,
  OnTimeout seq w = ScheduleNextPacket (mkAppWorld (a_sim w) s (a_link w)) /\
  m_sendEvent s = m_sendEvent (a_app w) /\ m_active s = m_active (a_app w) /\
  books s = (m_seq (a_app w), m_seqTimeouts (a_app w), {[ seq ]} ∪ m_retxSeqs (a_app w),
    m_seqFirstSent (a_app w), m_seqSatisfied (a_app w),
    SentSeq (m_currentTs (a_sim w)) seq 1 (m_rtt (a_app w)), m_delays (a_app w)).
Proof.
  unfold OnTimeout, Consumer_OnTimeout. rewrite run_app_upd, run_app_get.
  destruct (m_seqSendTime _ !! seq) as [t|].
  - rewrite run_app_upd, run_app_now, run_app_upd. eexists. by split.
  - rewrite run_ret, run_app_now, run_app_upd. eexists. by split.
Qed.

(** A request whose timer expires moves from the timeouts to the retransmissions. *)
Lemma ledger_expire start rtt0 now e s s' :
  st_first (m_seqTimeouts s) = Some e ->
  books s' = (m_seq s, st_erase (to_seq e) (m_seqTimeouts s), {[ to_seq e ]} ∪ m_retxSeqs s,
    m_seqFirstSent s, m_seqSatisfied s, SentSeq now (to_seq e) 1 (m_rtt s), m_delays s) ->
  ledger start rtt0 None s -> ledger start rtt0 None s'.
Proof.
  intros He E. injection E as E1 E2 E3 E4 E5 E6 E7. intros [H1 H2 H3 H4 H5 H6 H7 H8].
  destruct (first_some _ _ He) as [Hf _].
  assert (awaited s (to_seq e)) as Hw by by eexists.
  assert (forall seq, awaited s' seq <-> awaited s seq /\ seq <> to_seq e) as Haw.
  { intros seq. unfold awaited. rewrite E2, find_erase. destruct (decide _) as [->|]; [|naive_solver].
    split; [by intros []|naive_solver]. }
  split; rewrite ?E1, ?E3, ?E4, ?E5, ?E6, ?E7; try done.
  - intros seq. rewrite Haw, elem_of_union, elem_of_singleton.
    intros [[Hs _]|[->|Hs]]; apply H3; auto.
  - intros seq. rewrite Haw, elem_of_union, elem_of_singleton. intros [Hs Hne] [?|Hr]; [done|].
    by apply (H4 seq Hs).
  - intros seq Hs _. rewrite Haw, elem_of_union, elem_of_singleton.
    destruct (decide (seq = to_seq e)) as [->|]; [auto|].
    destruct (H5 seq Hs) as [|[|]]; auto.
Qed.

(** What [CheckRetxTimeout] and its loop keep. *)
Record upkeep (start : Z) (rtt0 : RttMeanDeviation) (n : Z) (w w' : world) : Prop := {
  uk_moved : moved n w w';
  uk_ledger : ledger start rtt0 None (a_app w');
  uk_active : m_active (a_app w') = m_active (a_app w);
  uk_link : a_link w' = a_link w;
  uk_send : send_pending w \/ m_retxSeqs (a_app w) = ∅ ->
            send_pending w' \/ m_retxSeqs (a_app w') = ∅
}.

Lemma expire_one start rtt0 e w w' :
  numbered w -> data_ok w -> m_uid (a_sim w) + 1 < 4294967296 ->
  ledger start rtt0 None (a_app w) -> st_first (m_seqTimeouts (a_app w)) = Some e ->
  OnTimeout (to_seq e) (mkAppWorld (a_sim w)
    (a_app w <| m_seqTimeouts ::= st_erase (to_seq e) |>) (a_link w)) = (w', inr tt) ->
  upkeep start rtt0 1 w w' /\ m_seqTimeouts (a_app w') = st_erase (to_seq e) (m_seqTimeouts (a_app w)).
Proof.
  intros Hn Hd Hu Hl He. set (w1 := mkAppWorld _ _ _).
  destruct (OnTimeout_run (to_seq e) w1) as (s & -> & F1 & F2 & F3). intros E.
  destruct (ScheduleNextPacket_ok (mkAppWorld (a_sim w1) s (a_link w1)) w') as (M1 & M2 & M3 & M4 & M5);
    [|done|done|exact E|].
  { destruct Hn as [N1 N2 N3]. split; cbn; [done..|]. by rewrite F1. }
  cbn [a_app a_link] in M3, M4, M5. split.
  - split; [by destruct M1|..].
    + eapply ledger_expire; [exact He| |exact Hl]. by rewrite M3, F3.
    + by rewrite M4, F2.
    + by rewrite M5.
    + by left.
  - rewrite F3 in M3. by injection M3 as _ -> _ _ _ _ _.
Qed.

Lemma expire_ok start rtt0 now rto fuel w w' :
  numbered w -> data_ok w -> m_uid (a_sim w) + Z.of_nat fuel < 4294967296 ->
  ledger start rtt0 None (a_app w) -> expire_timeouts fuel now rto w = (w', inr tt) ->
  upkeep start rtt0 (Z.of_nat fuel) w w'.
Proof.
  assert (forall n w, 0 <= n -> numbered w -> data_ok w -> ledger start rtt0 None (a_app w) ->
    upkeep start rtt0 n w w) as Hrefl.
  { intros n w0 Hn0 Hn Hd Hl. split; try done. split; auto. lia. }
  revert w. induction fuel as [|fuel IH]; intros w Hn Hd Hu Hl; cbn [expire_timeouts].
  { intros [= <-]. by apply Hrefl. }
  rewrite run_app_get. destruct (st_first (m_seqTimeouts (a_app w))) as [e|] eqn:He.
  2: { intros [= <-]. apply Hrefl; [lia|done..]. }
  destruct (_ <=? now); [|intros [= <-]; apply Hrefl; [lia|done..]]. rewrite run_app_upd.
  set (w1 := mkAppWorld _ _ _). destruct (OnTimeout (to_seq e) w1) as [w2 [ex|[]]] eqn:E.
  { rewrite (run_raise _ _ _ _ _ E). done. }
  rewrite (run_seq _ _ _ _ _ E). intros Ew.
  destruct (expire_one start rtt0 e w w2) as [[U1 U2 U3 U4 U5] _]; [done|done|lia|done..|].
  destruct (IH w2) as [V1 V2 V3 V4 V5]; [by destruct U1|by destruct U1| |done|done|].
  { destruct U1 as [_ _ Hu1 _]. lia. }
  split; [|done|congruence|congruence|auto].
  replace (Z.of_nat (S fuel)) with (1 + Z.of_nat fuel) by lia. by eapply moved_trans.
Qed.

(** The fuel [CheckRetxTimeout] gives the loop is enough: no request whose timer has
    expired is left. *)
Lemma expire_complete start rtt0 now rto fuel w w' :
  numbered w -> data_ok w -> m_uid (a_sim w) + Z.of_nat fuel < 4294967296 ->
  ledger start rtt0 None (a_app w) -> (st_size (m_seqTimeouts (a_app w)) <= fuel)%nat ->
  expire_timeouts fuel now rto w = (w', inr tt) ->
  forall e, st_first (m_seqTimeouts (a_app w')) = Some e -> now < i64 (to_time e + rto).
Proof.
  revert w. induction fuel as [|fuel IH]; intros w Hn Hd Hu Hl Hs; cbn [expire_timeouts].
  { intros [= <-] e He. pose proof (size_erase _ _ He). lia. }
  rewrite run_app_get. destruct (st_first (m_seqTimeouts (a_app w))) as [e|] eqn:He.
  2: { intros [= <-] e. congruence. }
  destruct (Z.leb_spec (i64 (to_time e + rto)) now) as [Hle|Hlt].
  2: { intros [= <-] e' He'. congruence. }
  rewrite run_app_upd. set (w1 := mkAppWorld _ _ _).
  destruct (OnTimeout (to_seq e) w1) as [w2 [ex|[]]] eqn:E; [by rewrite (run_raise _ _ _ _ _ E)|].
  rewrite (run_seq _ _ _ _ _ E).
  destruct (expire_one start rtt0 e w w2) as [[[U1 U2 U3 _] Ul _ _ _] Et]; [done|done|lia|done..|].
  apply IH; [done|done|lia|done|]. rewrite Et. pose proof (size_erase _ _ He). lia.
Qed.

Lemma CheckRetxTimeout_ok start rtt0 w w' :
  numbered w -> data_ok w ->
  m_uid (a_sim w) + Z.of_nat (st_size (m_seqTimeouts (a_app w))) + 1 < 4294967296 ->
  ledger start rtt0 None (a_app w) -> CheckRetxTimeout w = (w', inr tt) ->
  upkeep start rtt0 (Z.of_nat (st_size (m_seqTimeouts (a_app w))) + 1) w w' /\ check_pending w'.
Proof.
  intros Hn Hd Hu Hl. unfold CheckRetxTimeout. rewrite run_app_now, run_app_get.
  destruct (RetransmitTimeout _) as [rto|]; [|done]. cbn [abort_if_none]. rewrite run_ret.
  destruct (expire_timeouts (st_size (m_seqTimeouts (a_app w))) (m_currentTs (a_sim w)) rto w)
    as [w1 [ex|[]]] eqn:E; [by rewrite (run_raise _ _ _ _ _ E)|].
  rewrite (run_seq _ _ _ _ _ E), run_app_get, run_app_schedule.
  eapply (expire_ok start rtt0) in E as [[N1 N2 N3 N4] U2 U3 U4 U5]; [|done|done|lia|done].
  destruct (Schedule _ CheckRetxTimeoutEvent (a_sim w1)) as [q id] eqn:Es. cbn. intros [= <-].
  destruct (schedule_own _ _ w1 q id Es) as (K1 & K2 & K3 & K4 & K5 & K6 & K7); [done|done|done|lia|].
  split; [|by exists id]. split; [|by eapply ledger_books; [|exact U2]|done|done|].
  - split; [by destruct K1|done|cbn; lia|]. cbn. auto.
  - intros Hs. destruct (U5 Hs) as [[i [Hi Hq]]|]; [left|by right]. exists i. split; [done|]. cbn. auto.
Qed.

(** ** Sending *)
Lemma ledger_sent start rtt0 seq now s s' :
  ledger start rtt0 (Some seq) s ->
  m_seqTimeouts s' = st_insert (mkSeqTimeout seq now) (m_seqTimeouts s) ->
  m_seqFirstSent s' = match m_seqFirstSent s !! seq with
                      | Some _ => m_seqFirstSent s
                      | None => <[seq := now]> (m_seqFirstSent s)
                      end ->
  (m_seq s', m_retxSeqs s', m_seqSatisfied s', m_rtt s', m_delays s') =
  (m_seq s, m_retxSeqs s, m_seqSatisfied s, SentSeq now seq 1 (m_rtt s), m_delays s) ->
  ledger start rtt0 None s'.
Proof.
  intros [H1 H2 H3 H4 H5 H6 H7 H8] E2 E4 E. injection E as E1 E3 E5 E6 E7.
  destruct (H6 seq eq_refl) as (Hr & Hnw & Hnr).
  assert (forall x, awaited s' x <-> awaited s x \/ x = seq) as Haw.
  { intros x. unfold awaited. rewrite E2, find_insert. cbn.
    destruct (st_find x (m_seqTimeouts s)) as [y|] eqn:Ex; [naive_solver|].
    destruct (decide (x = seq)) as [->|]; [naive_solver|]. split; [by intros []|].
    intros [[]|]; naive_solver. }
  split; rewrite ?E1, ?E3, ?E5, ?E6, ?E7; try done.
  - intros x _. destruct (decide (x = seq)) as [->|Hne].
    + split; [done|intros _]. rewrite E4. destruct (m_seqFirstSent s !! seq) eqn:Ef; [by rewrite Ef|].
      by rewrite lookup_insert_eq.
    + rewrite <-(H2 x) by congruence. rewrite E4. destruct (m_seqFirstSent s !! seq); [done|].
      by rewrite lookup_insert_ne.
  - intros x. rewrite Haw. intros [[Hx| ->]|Hx]; auto.
  - intros x. rewrite Haw. intros [Hx| ->]; auto.
  - intros x Hx _. rewrite Haw. destruct (decide (x = seq)) as [->|Hne]; [auto|].
    destruct (H5 x Hx) as [|[|]]; [congruence|auto..].
Qed.

Lemma next_seq_ok start rtt0 w w1 o :
  ledger start rtt0 None (a_app w) -> m_seq (a_app w) < UINT32_MAX ->
  next_seq w = (w1, inr o) ->
  match o with
  | None => w1 = w /\ m_retxSeqs (a_app w) = ∅
  | Some seq => a_sim w1 = a_sim w /\ m_sendEvent (a_app w1) = m_sendEvent (a_app w) /\
      m_active (a_app w1) = m_active (a_app w) /\ ledger start rtt0 (Some seq) (a_app w1)
  end.
Proof.
  intros Hl Hmax. unfold next_seq. rewrite run_app_get.
  destruct (set_elements (m_retxSeqs (a_app w))) as [|seq l] eqn:El.
  - apply set_elements_empty in El. rewrite run_ret, Z.eqb_refl. cbn [negb].
    destruct (_ && _); [by intros [= <- <-]|]. rewrite run_app_upd. intros [= <- <-].
    destruct Hl as [[H1 H1'] H2 H3 H4 H5 H6 H7 H8]. split_and!; [done..|].
    unfold UINT32_MAX in *.
    assert (u32 (m_seq (a_app w) + 1) = m_seq (a_app w) + 1) as Eu
      by (apply u32_id; unfold u32_range; lia).
    split; cbn; rewrite ?Eu; try done; [unfold UINT32_MAX; lia|..].
    + intros x Hx. assert (x <> m_seq (a_app w)) by congruence. rewrite H2 by done. lia.
    + intros x Hx. specialize (H3 x Hx). lia.
    + intros x Hx Hne. apply H5; [|done].
      assert (x <> m_seq (a_app w)) by congruence. lia.
    + intros x [= <-]. split; [lia|]. split; intros Hx.
      * specialize (H3 _ (or_introl Hx)). lia.
      * rewrite El in Hx. by apply elem_of_empty in Hx.
  - assert (seq ∈ m_retxSeqs (a_app w)) as Hin by (apply elem_of_set_elements; rewrite El; left).
    rewrite run_assoc, run_app_upd, run_ret.
    destruct Hl as [[H1 H1'] H2 H3 H4 H5 H6 H7 H8]. pose proof (H3 seq (or_intror Hin)) as Hr.
    rewrite (proj2 (Z.eqb_neq seq UINT32_MAX)) by lia. cbn [negb]. intros [= <- <-].
    split_and!; [done..|]. split; cbn; try done.
    + intros x _. by apply H2.
    + intros x Hx. apply H3. set_solver.
    + intros x Hx. specialize (H4 x Hx). set_solver.
    + intros x Hx Hne. assert (x <> seq) by congruence.
      destruct (H5 x Hx) as [|[|]]; [done|auto|right; left; set_solver|auto].
    + intros x [= <-]. split; [done|]. split; [intros Hx; by apply (H4 seq Hx)|set_solver].
Qed.

Lemma WillSendOutInterest_run seq w : exists s,
  WillSendOutInterest seq w = (mkAppWorld (a_sim w) s (a_link w), inr tt) /\
  m_sendEvent s = m_sendEvent (a_app w) /\ m_active s = m_active (a_app w) /\
  forall start rtt0, ledger start rtt0 (Some seq) (a_app w) -> ledger start rtt0 None s.
Proof.
  unfold WillSendOutInterest, Consumer_WillSendOutInterest.
  rewrite run_app_now, run_app_upd, run_app_now. eexists. split; [reflexivity|].
  split_and!; [done..|]. intros start rtt0 Hl. by eapply ledger_sent; [exact Hl|..].
Qed.

Lemma SendPacket_ok start rtt0 w w' :
  numbered w -> data_ok w -> m_uid (a_sim w) + 1 < 4294967296 ->
  m_seq (a_app w) < UINT32_MAX -> ledger start rtt0 None (a_app w) ->
  SendPacket w = (w', inr tt) ->
  moved 1 w w' /\ ledger start rtt0 None (a_app w') /\
  (m_active (a_app w') = true -> send_pending w' \/ m_retxSeqs (a_app w') = ∅).
Proof.
  intros Hn Hd Hu Hmax Hl. unfold SendPacket. rewrite run_app_get.
  assert (moved 1 w w) as Hrefl by (split; auto; lia).
  destruct (m_active (a_app w)) eqn:Ha; cbn [negb]; [|intros [= <-]; split_and!; [done..|congruence]].
  destruct (next_seq w) as [w1 [ex|o]] eqn:En; [by rewrite (run_raise _ _ _ _ _ En)|].
  rewrite (run_seq _ _ _ _ _ En). pose proof (next_seq_ok _ _ _ _ _ Hl Hmax En) as Ho.
  destruct o as [seq|]; [|destruct Ho as [-> Hr]; intros [= <-]; split_and!; [done|done|by right]].
  destruct Ho as (E1 & E2 & E3 & Hl1). rewrite run_app_get.
  destruct (draw_nonce _) as [r nonce]. rewrite run_app_upd. set (w2 := mkAppWorld _ _ _).
  destruct (WillSendOutInterest_run seq w2) as (s & E & F1 & F2 & F3).
  change (m_sendEvent (a_app w2)) with (m_sendEvent (a_app w1)) in F1.
  rewrite (run_seq _ _ _ _ _ E), run_to_link. intros Es.
  apply ScheduleNextPacket_ok in Es as (M1 & M2 & M3 & M4 & M5).
  - split; [|split; [|by left]].
    + destruct M1 as [K1 K2 K3 K4]. cbn in K3, K4. rewrite E1 in K3, K4. by split.
    + eapply ledger_books; [exact M3|]. apply F3. by eapply ledger_books; [|exact Hl1].
  - destruct Hn as [N1 N2 N3]. split; cbn; rewrite ?E1; [done..|]. by rewrite F1, E2.
  - unfold data_ok. cbn. by rewrite E1.
  - cbn. by rewrite E1.
Qed.

(** ** Data *)
Lemma without_last_name d :
  2 <= name_size (d_name d) < 9223372036854775808 ->
  name_at (d_name (without_last d)) (-1) = name_at (d_name d) (-2).
Proof.
  intros Hs. unfold without_last. cbn [d_name]. destruct d as [n c h]. cbn [d_name] in *.
  destruct n as [|y n _] using rev_ind; [by destruct Hs|].
  destruct n as [|x n _] using rev_ind; [by destruct Hs|].
  assert (name_size ((n ++ [x]) ++ [y]) = Z.of_nat (length n) + 2) as E.
  { unfold name_size. rewrite !length_app. cbn. lia. }
  rewrite E in *. rewrite i64_id by (unfold i64_range; lia). rewrite getPrefix_take by lia.
  replace (Z.to_nat _) with (length (n ++ [x])) by (rewrite length_app; cbn; lia).
  rewrite take_app_length, name_at_last. unfold name_at. rewrite E.
  cbn [Z.leb Z.ltb Z.compare andb orb].
  destruct (Z.ltb_spec (Z.of_nat (length n) + 2) (- -2)) as [H|_]; [lia|].
  replace (Z.to_nat _) with (length n) by lia.
  by rewrite <-app_assoc, lookup_app_r, Nat.sub_diag by lia.
Qed.

(** An answered request leaves the timeouts and the retransmissions. *)
Lemma ledger_answer start rtt0 seq samples s s' :
  ledger start rtt0 None s -> seq ∈ m_seqSatisfied s -> settled rtt0 (m_rtt s') ->
  Forall (fun d => hop_count d = 0) samples ->
  (m_seq s', m_seqTimeouts s', m_retxSeqs s', m_seqFirstSent s', m_seqSatisfied s', m_delays s') =
  (m_seq s, st_erase seq (m_seqTimeouts s), m_retxSeqs s ∖ {[ seq ]}, m_seqFirstSent s,
    m_seqSatisfied s, m_delays s ++ samples) ->
  ledger start rtt0 None s'.
Proof.
  intros [H1 H2 H3 H4 H5 H6 H7 H8] Hsat Hrtt Hhops E.
  injection E as E1 E2 E3 E4 E5 E6.
  assert (forall x, awaited s' x <-> awaited s x /\ x <> seq) as Haw.
  { intros x. unfold awaited. rewrite E2, find_erase. destruct (decide _) as [->|]; [|naive_solver].
    split; [by intros []|naive_solver]. }
  split; rewrite ?E1, ?E3, ?E4, ?E5, ?E6; try done.
  - intros x. rewrite Haw. intros [[]|]; [auto|]. apply H3. set_solver.
  - intros x. rewrite Haw. intros [Hx _]. specialize (H4 x Hx). set_solver.
  - intros x Hx _. rewrite Haw. destruct (decide (x = seq)) as [->|]; [auto|].
    destruct (H5 x Hx) as [|[|]]; [done|auto|right; left; set_solver|auto].
  - by apply Forall_app.
Qed.

Lemma samples_no_hops now seq s : Forall (fun d => hop_count d = 0) (delay_samples now seq 0 s).
Proof.
  unfold delay_samples. destruct (st_find seq (m_seqLastDelay s)), (st_find seq (m_seqFullDelay s));
    repeat constructor.
Qed.

Lemma ledger_satisfied start rtt0 seq n s :
  ledger start rtt0 None s ->
  ledger start rtt0 None (s <| m_dataReceived := n |> <| m_seqSatisfied ::= fun x => {[ seq ]} ∪ x |>).
Proof.
  intros [H1 H2 H3 H4 H5 H6 H7 H8]. split; try done.
  intros x Hx _. cbn. destruct (H5 x Hx) as [|[|]]; [done|by left|by right; left|].
  right. right. set_solver.
Qed.

Lemma without_last_short d : name_size (d_name d) < 2 ->
  exists ex, name_at (d_name (without_last d)) (-1) = inl ex.
Proof.
  destruct d as [[|x [|y n]] c h]; intros Hs; [by eexists..|].
  unfold name_size in Hs. cbn in Hs. lia.
Qed.

(** What a Data does: the queue stays, the books are those of [ledger_answer]. *)
Definition answered (start : Z) (rtt0 : RttMeanDeviation) (w w' : world) : Prop :=
  a_sim w' = a_sim w /\ m_sendEvent (a_app w') = m_sendEvent (a_app w) /\
  m_active (a_app w') = m_active (a_app w) /\ m_retxSeqs (a_app w') ⊆ m_retxSeqs (a_app w) /\
  ledger start rtt0 None (a_app w').

Lemma Consumer_OnData_ok start rtt0 d w w' :
  ledger start rtt0 None (a_app w) -> d_hopCount d = None ->
  (forall seq, (name_at (d_name d) (-1) ≫= toSequenceNumber) = inr seq ->
     u32 seq ∈ m_seqSatisfied (a_app w)) ->
  Consumer_OnData d w = (w', inr tt) -> answered start rtt0 w w'.
Proof.
  intros Hl Hh Hsat. unfold Consumer_OnData. rewrite run_app_get.
  destruct (negb _); [by intros [= <-]|].
  destruct (name_at _ _ ≫= toSequenceNumber) as [ex|seq] eqn:Es; [done|].
  rewrite run_lift_inr, run_app_now, run_app_upd, run_app_get, Hh. specialize (Hsat seq eq_refl).
  cbn [a_app]. set (s1 := _ <| m_retxSeqs ::= _ |>).
  change (m_rtt s1) with (m_rtt (a_app w)).
  destruct (AckSeq _ _ (m_rtt (a_app w))) as [[rtt m]|] eqn:Ea; [|done]. cbn [abort_if_none].
  rewrite run_ret. cbn. intros [= <-]. split_and!; try done; [cbn; set_solver|].
  eapply ledger_answer; [exact Hl|exact Hsat| |apply samples_no_hops|reflexivity].
  eapply settled_ack_reset; [apply Hl|exact Ea].
Qed.

Lemma OnData_ok start rtt0 d w w' :
  ledger start rtt0 None (a_app w) -> name_size (d_name d) < 9223372036854775808 ->
  OnData d w = (w', inr tt) -> answered start rtt0 w w'.
Proof.
  intros Hl Hs. unfold OnData. rewrite run_app_upd. set (w1 := mkAppWorld _ _ _).
  assert (ledger start rtt0 None (a_app w1)) as Hl1 by (by eapply ledger_books; [|exact Hl]).
  destruct (Z.leb_spec 2 (name_size (d_name d))) as [H2|H2].
  - destruct (name_at (d_name d) (-2) ≫= toSequenceNumber) as [ex|seq] eqn:Es; [done|].
    rewrite run_assoc, run_lift_inr, run_app_upd. intros E.
    apply (Consumer_OnData_ok start rtt0) in E; [done| |done|].
    + exact (ledger_satisfied start rtt0 (u32 seq) (u64 (m_dataReceived (a_app w) + 1)) (a_app w) Hl).
    + intros seq'. rewrite without_last_name by done. rewrite Es. intros [= <-]. cbn. set_solver.
  - rewrite run_ret. intros E. destruct (without_last_short d H2) as [ex Hex].
    apply (Consumer_OnData_ok start rtt0) in E; [done..|]. by rewrite Hex.
Qed.

(** ** The invariant *)
Record consumer_ok (start : Z) (rtt0 : RttMeanDeviation) (w : world) : Prop := {
  co_numbered : numbered w;
  co_data : data_ok w;
  co_ledger : ledger start rtt0 None (a_app w);
  co_check : check_pending w;
  co_send : m_active (a_app w) = true -> send_pending w \/ m_retxSeqs (a_app w) = ∅
}.

(** What can happen to a consumer.  An exception ends the run, so a step is one
    that returns; [consumer_elapse] is a stretch in which other events move the
    clock and number events of their own. *)
Inductive consumer_step : relation world :=
| consumer_start w w' : StartApplication w = (w', inr tt) -> consumer_step w w'
| consumer_stop w w' : StopApplication w = (w', inr tt) -> consumer_step w w'
| consumer_data d w :
    name_size (d_name d) < 9223372036854775808 ->
    consumer_step w (doSend (ConsumerData d) w).1
| consumer_event w w' :
    ProcessOneEvent consumer_dispatch w = (w', inr tt) -> consumer_step w w'
| consumer_elapse ts uid n w :
    m_currentTs (a_sim w) <= ts -> Forall (fun ev => ts <= key_ts ev) (m_events (a_sim w)) ->
    m_uid (a_sim w) <= n ->
    consumer_step w (w <| a_sim ::= fun q => mkSim ts uid n (m_events q) (m_stop q) |>).

(** A step that exhausts neither the 32-bit sequence numbers nor the event numbers. *)
Definition counted_step (w w' : world) : Prop :=
  consumer_step w w' /\ m_seq (a_app w) < UINT32_MAX /\
  m_uid (a_sim w) + Z.of_nat (st_size (m_seqTimeouts (a_app w))) + 1 < 4294967296.

(** *** Events taken out of the queue *)
Lemma removed_numbered w q oe :
  RemoveNext (a_sim w) = Some (q, oe) -> numbered w ->
  numbered (mkAppWorld q (a_app w) (a_link w)).
Proof.
  intros E [N1 N2 N3]. assert (m_uid q = m_uid (a_sim w)) as Hu.
  { unfold RemoveNext in E. destruct (m_events (a_sim w)); [done|]. by injection E as <- _. }
  split; cbn; rewrite ?Hu; [done| |].
  - intros id e Hq. eapply N2, queued_after_RemoveNext; eauto.
  - intros id Hid. destruct (N3 id Hid) as [Hlt Hall]. split; [done|].
    intros e Hq. eapply Hall, queued_after_RemoveNext; eauto.
Qed.

Lemma removed_data w q oe :
  RemoveNext (a_sim w) = Some (q, oe) -> data_ok w -> data_ok (mkAppWorld q (a_app w) (a_link w)).
Proof. intros E Hd id d Hq. eapply Hd, queued_after_RemoveNext; eauto. Qed.

Lemma removed_check w q oe :
  RemoveNext (a_sim w) = Some (q, oe) -> oe <> Some CheckRetxTimeoutEvent -> check_pending w ->
  check_pending (mkAppWorld q (a_app w) (a_link w)).
Proof.
  intros E Hoe [id Hid]. exists id. by destruct (queued_RemoveNext _ _ _ _ _ E Hid) as [|[-> _]].
Qed.

Lemma removed_send w q oe :
  RemoveNext (a_sim w) = Some (q, oe) -> oe <> Some SendPacketEvent -> send_pending w ->
  send_pending (mkAppWorld q (a_app w) (a_link w)).
Proof.
  intros E Hoe (id & Hid & Hq). exists id. split; [done|].
  by destruct (queued_RemoveNext _ _ _ _ _ E Hq) as [|[-> _]].
Qed.

Lemma consumer_ok_event start rtt0 w w' :
  consumer_ok start rtt0 w -> m_seq (a_app w) < UINT32_MAX ->
  m_uid (a_sim w) + Z.of_nat (st_size (m_seqTimeouts (a_app w))) + 1 < 4294967296 ->
  ProcessOneEvent consumer_dispatch w = (w', inr tt) -> consumer_ok start rtt0 w'.
Proof.
  intros [Hn Hd Hl Hc Hs] Hmax Hu. unfold ProcessOneEvent. rewrite run_gets.
  change (view w) with (a_sim w).
  destruct (RemoveNext (a_sim w)) as [[q oe]|] eqn:E; [|by intros [= <-]]. rewrite run_modify.
  change (put q w) with (mkAppWorld q (a_app w) (a_link w)).
  pose proof (removed_numbered _ _ _ E Hn) as Hn1. pose proof (removed_data _ _ _ E Hd) as Hd1.
  assert (m_uid q = m_uid (a_sim w)) as Hq.
  { unfold RemoveNext in E. destruct (m_events (a_sim w)); [done|]. by injection E as <- _. }
  pose proof (removed_check _ _ _ E) as Hc1. pose proof (removed_send _ _ _ E) as Hs1.
  set (w1 := mkAppWorld q (a_app w) (a_link w)) in *. rewrite <-Hq in Hu.
  destruct oe as [[| |d]|]; cbn [consumer_dispatch].
  - intros Ew. destruct (SendPacket_ok start rtt0 w1 w') as (M & L & S); [done|done| |done..|].
    { cbn. lia. }
    split; [apply M|apply M|done|eapply moved_check; [exact M|by apply Hc1]|done].
  - intros Ew. destruct (CheckRetxTimeout_ok start rtt0 w1 w') as [[M L A _ S] C']; [done|done|done..|].
    split; [apply M|apply M|done|done|]. rewrite A. intros Ha. apply S.
    destruct (Hs Ha); [left; by apply Hs1|by right].
  - intros Ew. apply (OnData_ok start rtt0) in Ew as (E1 & E2 & E3 & E4 & L); [|done|].
    2: { destruct (RemoveNext_queued _ _ _ E) as (id & Hid & _). by eapply Hd. }
    split; [| |done| |].
    + destruct Hn1 as [N1 N2 N3]. split; rewrite ?E1, ?E2; done.
    + unfold data_ok. by rewrite E1.
    + unfold check_pending. rewrite E1. by apply Hc1.
    + rewrite E3. intros Ha. destruct (Hs Ha) as [Hp|He].
      * left. unfold send_pending. rewrite E1, E2. by apply Hs1.
      * right. cbn in E4. rewrite He in E4. set_solver.
  - intros [= <-]. split; [done|done|done|by apply Hc1|].
    intros Ha. destruct (Hs Ha); [left; by apply Hs1|by right].
Qed.

Lemma ledger_active start rtt0 b s : ledger start rtt0 None s -> ledger start rtt0 None (s <| m_active := b |>).
Proof. by apply ledger_books. Qed.

Lemma consumer_ok_start start rtt0 w w' :
  consumer_ok start rtt0 w -> m_uid (a_sim w) + 1 < 4294967296 ->
  StartApplication w = (w', inr tt) -> consumer_ok start rtt0 w'.
Proof.
  intros [Hn Hd Hl Hc Hs] Hu. unfold StartApplication. rewrite run_app_upd. intros E.
  apply ScheduleNextPacket_ok in E as (M1 & M2 & M3 & M4 & M5); [|by destruct Hn|done|done].
  split; [apply M1|apply M1| |eapply moved_check; [exact M1|exact Hc]|by left].
  eapply ledger_books; [exact M3|]. by apply ledger_active.
Qed.

Lemma consumer_ok_stop start rtt0 w w' :
  consumer_ok start rtt0 w -> StopApplication w = (w', inr tt) -> consumer_ok start rtt0 w'.
Proof.
  intros [[N1 N2 N3] Hd Hl [c Hc] Hs]. unfold StopApplication. rewrite run_app_get, run_app_cancel.
  intros [= <-]. apply (ledger_active _ _ false) in Hl.
  destruct (m_sendEvent (a_app w)) as [id|] eqn:Eid; cbn.
  2: { split; [split; cbn; [done..|by rewrite Eid]|done|done|by exists c|done]. }
  assert (m_uid (Cancel id (a_sim w)) = m_uid (a_sim w)) as Eu by (unfold Cancel; by case_match).
  split; [split|..|done]; cbn; rewrite ?Eu; try done.
  - intros i e Hq. eapply N2, queued_Cancel, Hq.
  - rewrite Eid. intros i Hi. destruct (N3 i Hi) as [Hlt Hall]. split; [done|].
    intros e Hq. eapply Hall, queued_Cancel, Hq.
  - intros i d Hq. eapply Hd, queued_Cancel, Hq.
  - exists c. apply queued_Cancel_other; [|done]. intros ->.
    by specialize (proj2 (N3 id eq_refl) _ Hc).
Qed.

Lemma consumer_ok_data start rtt0 d w :
  consumer_ok start rtt0 w -> m_uid (a_sim w) + 1 < 4294967296 ->
  name_size (d_name d) < 9223372036854775808 -> consumer_ok start rtt0 (doSend (ConsumerData d) w).1.
Proof.
  intros [[N1 N2 N3] Hd Hl [c Hc] Hs] Hu Hsize. cbn.
  pose proof (queued_ScheduleNow (ConsumerData d) (a_sim w)) as Hq.
  assert (u32 (m_uid (a_sim w) + 1) = m_uid (a_sim w) + 1) as Eu
    by (apply u32_id; unfold u32_range; lia).
  split; [split|..]; cbn [a_sim a_app set_a_sim set_field]; try done.
  - cbn. rewrite Eu. lia.
  - intros i e Hi. apply Hq in Hi as [[-> _]|Hi]; cbn; rewrite Eu; [lia|]. specialize (N2 i e Hi). lia.
  - intros i Hi. destruct (N3 i Hi) as [Hlt Hall]. split; [cbn; rewrite Eu; lia|].
    intros e He. apply Hq in He as [[-> _]|He]; [cbn in Hlt; lia|auto].
  - intros i x Hi. apply Hq in Hi as [[_ [= ->]]|Hi]; [done|eauto].
  - exists c. apply Hq. by right.
  - intros Ha. destruct (Hs Ha) as [(i & Hi & Hp)|He]; [left|by right].
    exists i. split; [done|]. apply Hq. by right.
Qed.

Lemma consumer_ok_step start rtt0 w w' :
  counted_step w w' -> consumer_ok start rtt0 w -> consumer_ok start rtt0 w'.
Proof.
  intros (Hs & Hmax & Hu) Hw.
  destruct Hs as [w w' E|w w' E|d w Hsize|w w' E|ts uid n w Hts Hall Hn].
  - eapply consumer_ok_start; [exact Hw|lia|exact E].
  - by eapply consumer_ok_stop.
  - apply consumer_ok_data; [done|lia|done].
  - by eapply consumer_ok_event.
  - destruct Hw as [[N1 N2 N3] Hd Hl Hc Hp]. split; [split|..]; cbn; try done; [lia|..].
    + intros i e Hq. specialize (N2 i e Hq). lia.
    + intros i Hi. destruct (N3 i Hi). split; [lia|done].
Qed.

(** A new consumer, with its first check scheduled. *)
Lemma consumer_ok_new (rand : R) start seqMax rtt0 name lifetime frequency (random : option V) lossStart
    lossLen retxTimer sim w :
  settled rtt0 rtt0 -> 0 <= start <= UINT32_MAX -> m_events sim = [] -> 0 <= m_uid sim ->
  m_uid sim + 1 < 4294967296 ->
  SetRetxTimer retxTimer (mkAppWorld sim (StatimConsumer_new rand start seqMax rtt0 name lifetime
    frequency random lossStart lossLen) []) = (w, inr tt) ->
  consumer_ok start rtt0 w.
Proof.
  intros Hrtt Hstart He Hu0 Hu. unfold SetRetxTimer.
  rewrite run_app_upd, run_app_get, run_app_is_running.
  change (m_retxEvent _) with (@None EventId). cbn iota. rewrite run_ret, run_app_schedule.
  set (w0 := mkAppWorld sim _ []).
  assert (forall id e, ~ queued sim id e) as Hnone.
  { intros id e Hq. unfold queued in Hq. rewrite He in Hq. by apply not_elem_of_nil in Hq. }
  destruct (Schedule retxTimer CheckRetxTimeoutEvent _) as [q id] eqn:Es. cbn. intros [= <-].
  destruct (schedule_own retxTimer CheckRetxTimeoutEvent w0 q id) as (K1 & K2 & K3 & K4 & K5 & K6 & K7);
    try done.
  - split; [done| |done]. intros i e Hq. by destruct (Hnone i e).
  - intros i e Hq. by destruct (Hnone i (ConsumerData e)).
  - split; [by destruct K1|done| |by exists id|by right].
    split; unfold awaited; cbn.
    + lia.
    + intros seq _. rewrite lookup_empty. split; [by intros []|lia].
    + intros seq. rewrite find_empty. intros [[]|H]; [done|by apply elem_of_empty in H].
    + intros seq _. set_solver.
    + intros seq Hseq. lia.
    + done.
    + done.
    + constructor.
Qed.

Lemma consumer_ok_run start rtt0 w w' :
  rtc counted_step w w' -> consumer_ok start rtt0 w -> consumer_ok start rtt0 w'.
Proof. induction 1 as [|w w1 w' Hs _ IH]; [done|]. eauto using consumer_ok_step. Qed.
End consumer.

(** ** A container for the witnesses

    A map from sequence numbers to times; the first entry is the smallest by time. *)
Definition entries (m : gmap Z Z) : list SeqTimeout :=
  (fun kv => mkSeqTimeout kv.1 kv.2) <$> map_to_list m.

Fixpoint earliest (l : list SeqTimeout) : option SeqTimeout :=
  match l with
  | [] => None
  | e :: l =>
      match earliest l with
      | Some x => Some (if to_time x <? to_time e then x else e)
      | None => Some e
      end
  end.

Definition map_timeouts : SeqTimeouts (gmap Z Z) := {|
  st_empty := ∅;
  st_size := size;
  st_insert := fun e m => match m !! to_seq e with Some _ => m | None => <[to_seq e := to_time e]> m end;
  st_erase := fun seq m => delete seq m;
  st_find := fun seq m => mkSeqTimeout seq <$> m !! seq;
  st_first := fun m => earliest (entries m)
|}.

Lemma earliest_spec l e : earliest l = Some e ->
  e ∈ l /\ forall x, x ∈ l -> to_time e <= to_time x.
Proof.
  revert e. induction l as [|y l IH]; intros e; cbn; [done|].
  destruct (earliest l) as [x|] eqn:E.
  - intros [= <-]. destruct (IH x eq_refl) as [Hin Hmin].
    destruct (Z.ltb_spec (to_time x) (to_time y)); (split; [set_solver|]);
      intros z [->|Hz]%elem_of_cons; try lia; specialize (Hmin z Hz); lia.
  - intros [= <-]. destruct l; [|cbn in E; by destruct (earliest l)].
    split; [left|]. intros z ->%list_elem_of_singleton. lia.
Qed.

Lemma elem_of_entries m e : e ∈ entries m <-> m !! to_seq e = Some (to_time e).
Proof.
  unfold entries. rewrite list_elem_of_fmap. split.
  - intros ([k t] & -> & H). by apply elem_of_map_to_list in H.
  - intros H. exists (to_seq e, to_time e). split; [by destruct e|by apply elem_of_map_to_list].
Qed.

Lemma map_timeouts_laws : @SeqTimeoutsLaws (gmap Z Z) map_timeouts.
Proof.
  split; cbn.
  - intros seq. by rewrite lookup_empty.
  - intros e c seq. destruct (c !! to_seq e) as [t|] eqn:E.
    + destruct (c !! seq) eqn:E2; [done|]. cbn. rewrite decide_False; [done|congruence].
    + destruct (decide (seq = to_seq e)) as [->|Hne].
      * rewrite lookup_insert_eq, E. by destruct e.
      * rewrite lookup_insert_ne by done. by destruct (c !! seq).
  - intros seq' c seq. destruct (decide (seq = seq')) as [->|].
    + by rewrite lookup_delete_eq.
    + by rewrite lookup_delete_ne.
  - intros seq c e. destruct (c !! seq); [|done]. by intros [= <-].
  - intros c seq He. destruct (c !! seq) as [t|] eqn:E; [|done].
    assert (mkSeqTimeout seq t ∈ entries c) as Hin by (by apply elem_of_entries).
    destruct (entries c) as [|x l]; [by apply elem_of_nil in Hin|].
    cbn in He. by destruct (earliest l).
  - intros c e He. destruct (earliest_spec _ _ He) as [Hin Hmin]. apply elem_of_entries in Hin.
    rewrite Hin. split; [by destruct e|]. intros seq x. destruct (c !! seq) as [t|] eqn:E; [|done].
    intros [= <-]. apply Hmin, elem_of_entries. done.
  - intros c e He. destruct (earliest_spec _ _ He) as [Hin _]. apply elem_of_entries in Hin.
    rewrite map_size_delete, Hin.
    assert (size c <> 0%nat) by (intros Hs; apply map_size_empty_iff in Hs; by subst). lia.
Qed.

(** ** Properties *)

(** C12: in every state a consumer reaches, whatever Data and timeouts come in
    whatever order, no request is forgotten: the numbers requested are exactly those
    from the first one to the next, and each one is answered, waits for its
    timeout while a check for timeouts is queued, or waits to be sent again while,
    in an active consumer, a transmission is queued.  What the loss report counts
    is what is still waiting. *)
Theorem no_request_forgotten {R C V : Type} `{!UniformStreams R, !SeqTimeouts C}
    `{!SeqTimeoutsLaws C, !RandomVariableStream V} (rand : R) (start seqMax : Z)
    (rtt0 : RttMeanDeviation) (name : Name) (lifetime : Z) (frequency : double)
    (random : option V) (lossStart lossLen retxTimer : Z) (sim : Sim ConsumerEvent)
    (w0 w : AppWorld (StatimConsumer R C V) ConsumerEvent)
    (Hrtt : settled rtt0 rtt0) (Hstart : 0 <= start <= UINT32_MAX)
    (Hsim : m_events sim = [] /\ 0 <= m_uid sim /\ m_uid sim + 1 < 4294967296)
    (Hnew : SetRetxTimer retxTimer (mkAppWorld sim (StatimConsumer_new rand start seqMax rtt0 name
       lifetime frequency random lossStart lossLen) []) = (w0, inr tt))
    (Hrun : rtc counted_step w0 w) :
  (exists id, queued (a_sim w) id CheckRetxTimeoutEvent) /\
  (forall seq, is_Some (m_seqFirstSent (a_app w) !! seq) <-> start <= seq < m_seq (a_app w)) /\
  (forall seq, is_Some (m_seqFirstSent (a_app w) !! seq) ->
     seq ∈ m_seqSatisfied (a_app w) \/ awaited (a_app w) seq \/
     (seq ∈ m_retxSeqs (a_app w) /\
        (m_active (a_app w) = true -> exists id, queued (a_sim w) id SendPacketEvent))) /\
  Forall (fun kv => awaited (a_app w) kv.1 \/ kv.1 ∈ m_retxSeqs (a_app w))
    (List.filter (never_satisfied (a_app w)) (map_to_list (m_seqFirstSent (a_app w)))).
Proof.
  destruct Hsim as (He & Hu0 & Hu). pose proof (consumer_ok_run start rtt0 w0 w Hrun) as Hok.
  destruct Hok as [_ _ Hl Hc Hs]; [by eapply consumer_ok_new|].
  split_and!; [exact Hc|intros seq; by apply Hl| |].
  - intros seq Hseq%(lg_first _ _ _ _ Hl); [|done].
    destruct (lg_all _ _ _ _ Hl seq Hseq) as [|[Hr|]]; [done|auto| |auto].
    right. right. split; [done|]. intros Ha. destruct (Hs Ha) as [(id & _ & Hq)|He']; [by exists id|].
    rewrite He' in Hr. by apply elem_of_empty in Hr.
  - apply List.Forall_forall. intros [seq t] Hin. apply filter_In in Hin as [Hin Hnever].
    apply list_elem_of_In, elem_of_map_to_list in Hin. apply bool_decide_eq_true in Hnever.
    assert (start <= seq < m_seq (a_app w)) as Hseq by (apply (lg_first _ _ _ _ Hl); [done|by exists t]).
    destruct (lg_all _ _ _ _ Hl seq Hseq) as [|[|]]; [done|by left|by right|done].
Qed.

(** C37: the estimator never moves the retransmission timeout.  In every state a
    consumer reaches, [RetransmitTimeout] is what it was at construction, because
    [OnData] resets the estimator after every sample; and every delay the trace
    sources report has hop count 0, because [StatimConsumer] hands on a copy of the
    Data without its tags. *)
Theorem measurements_discarded {R C V : Type} `{!UniformStreams R, !SeqTimeouts C}
    `{!SeqTimeoutsLaws C, !RandomVariableStream V} (rand : R) (start seqMax : Z)
    (rtt0 : RttMeanDeviation) (name : Name) (lifetime : Z) (frequency : double)
    (random : option V) (lossStart lossLen retxTimer : Z) (sim : Sim ConsumerEvent)
    (w0 w : AppWorld (StatimConsumer R C V) ConsumerEvent)
    (Hrtt : settled rtt0 rtt0) (Hstart : 0 <= start <= UINT32_MAX)
    (Hsim : m_events sim = [] /\ 0 <= m_uid sim /\ m_uid sim + 1 < 4294967296)
    (Hnew : SetRetxTimer retxTimer (mkAppWorld sim (StatimConsumer_new rand start seqMax rtt0 name
       lifetime frequency random lossStart lossLen) []) = (w0, inr tt))
    (Hrun : rtc counted_step w0 w) :
  RetransmitTimeout (m_rtt (a_app w)) = RetransmitTimeout rtt0 /\
  Forall (fun d => hop_count d = 0) (m_delays (a_app w)).
Proof.
  destruct Hsim as (He & Hu0 & Hu). pose proof (consumer_ok_run start rtt0 w0 w Hrun) as Hok.
  destruct Hok as [_ _ Hl _ _]; [by eapply consumer_ok_new|]. split; [|apply Hl].
  by rewrite (settled_timeout rtt0 _ (lg_rtt _ _ _ _ Hl)), (settled_timeout rtt0 rtt0 Hrtt).
Qed.

(** *** Witnesses *)
#[local] Instance demo_draws : UniformStreams Z := {
  uv_create := fun n => n;
  uv_SetStream := fun n _ => n;
  uv_GetValue := fun lo _ r => (r + 1, lo)
}.
#[local] Instance demo_stream : RandomVariableStream unit := fun v => (v, dzero).
#[local] Existing Instance map_timeouts.
#[local] Existing Instance map_timeouts_laws.

Definition demo_app : StatimConsumer Z (gmap Z Z) unit :=
  StatimConsumer_new 0 0 UINT32_MAX RttMeanDeviation_default [component_of_string "a"] 2000000000
    (double_of_Z 100) None 0 0.

Definition demo_new : AppWorld (StatimConsumer Z (gmap Z Z) unit) ConsumerEvent :=
  (SetRetxTimer 50000000 (mkAppWorld sim_init demo_app [])).1.
Definition demo_started := (StartApplication demo_new).1.
(** The first Interest has been sent. *)
Definition demo_waiting := (ProcessOneEvent consumer_dispatch demo_started).1.
Definition demo_answer : Data :=
  mkData [component_of_string "a"; fromSequenceNumber 0; fromSequenceNumber 3] [] [] (Some 2).
Definition demo_answering := (doSend (ConsumerData demo_answer) demo_waiting).1.
Definition demo_answered := (ProcessOneEvent consumer_dispatch demo_answering).1.

Lemma returned {W A} (m : M W A) (w : W) (a : A) : (m w).2 = inr a -> m w = ((m w).1, inr a).
Proof. destruct (m w) as [w1 r]. cbn. by intros ->. Qed.

Lemma demo_start_returns : StartApplication demo_new = (demo_started, inr tt).
Proof. unfold demo_started. apply returned. vm_compute. reflexivity. Qed.
Lemma demo_send_returns : ProcessOneEvent consumer_dispatch demo_started = (demo_waiting, inr tt).
Proof. unfold demo_waiting. apply returned. vm_compute. reflexivity. Qed.
Lemma demo_answer_returns :
  ProcessOneEvent consumer_dispatch demo_answering = (demo_answered, inr tt).
Proof. unfold demo_answered. apply returned. vm_compute. reflexivity. Qed.
Lemma demo_new_returns : SetRetxTimer 50000000 (mkAppWorld sim_init demo_app []) = (demo_new, inr tt).
Proof. unfold demo_new. apply returned. vm_compute. reflexivity. Qed.

Lemma demo_run : rtc counted_step demo_new demo_answered.
Proof.
  apply (rtc_l _ demo_new demo_started).
  { split; [refine (consumer_start _ _ _); exact demo_start_returns|].
    split; vm_compute; reflexivity. }
  apply (rtc_l _ demo_started demo_waiting).
  { split; [refine (consumer_event _ _ _); exact demo_send_returns|].
    split; vm_compute; reflexivity. }
  apply (rtc_l _ demo_waiting demo_answering).
  { split; [unfold demo_answering; refine (consumer_data _ _ _); vm_compute; reflexivity|].
    split; vm_compute; reflexivity. }
  apply (rtc_l _ demo_answering demo_answered); [|apply rtc_refl].
  split; [refine (consumer_event _ _ _); exact demo_answer_returns|].
  split; vm_compute; reflexivity.
Qed.

Lemma no_request_forgotten_witness :
  is_Some (m_seqFirstSent (a_app demo_answered) !! 0) /\
  (0 ∈ m_seqSatisfied (a_app demo_answered) \/ awaited (a_app demo_answered) 0 \/
   (0 ∈ m_retxSeqs (a_app demo_answered) /\
      (m_active (a_app demo_answered) = true ->
       exists id, queued (a_sim demo_answered) id SendPacketEvent))).
Proof.
  assert (is_Some (m_seqFirstSent (a_app demo_answered) !! 0)) as H0 by (vm_compute; by eexists).
  split; [exact H0|].
  apply (no_request_forgotten 0 0 UINT32_MAX RttMeanDeviation_default [component_of_string "a"]
    2000000000 (double_of_Z 100) None 0 0 50000000 sim_init demo_new demo_answered).
  - apply settled_new.
  - split; vm_compute; discriminate.
  - split_and!; vm_compute; [reflexivity|discriminate|reflexivity].
  - exact demo_new_returns.
  - exact demo_run.
  - exact H0.
Defined.

Lemma measurements_discarded_witness :
  RetransmitTimeout (m_rtt (a_app demo_answered)) = Some 1000000000 /\
  map hop_count (m_delays (a_app demo_answered)) = [0; 0].
Proof.
  destruct (measurements_discarded 0 0 UINT32_MAX RttMeanDeviation_default [component_of_string "a"]
    2000000000 (double_of_Z 100) None 0 0 50000000 sim_init demo_new demo_answered) as [H _].
  - apply settled_new.
  - split; vm_compute; discriminate.
  - split_and!; vm_compute; [reflexivity|discriminate|reflexivity].
  - exact demo_new_returns.
  - exact demo_run.
  - split; [rewrite H; exact default_timeout|vm_compute; reflexivity].
Defined.
