(* ===== verification/PointToPoint.v ===== *)
(** * PointToPoint: nodes, point-to-point links and receive error models

    Sources: [src/src/network/utils/error-model.cc], [src/src/network/model/node.cc],
    [src/src/point-to-point/model/point-to-point-channel.cc],
    [point-to-point-net-device.cc] and
    [src/src/point-to-point/helper/point-to-point-helper.cc].  Nodes, devices and
    channels are numbered in the order they are made, and a [Ptr] is such a number.
    Of a device the model keeps its node, its channel and its receive error model.
    The channel delay, the transmission queue and the PPP header do not decide which
    packets arrive and are left out. *)
From S2P Require Import Prelude SimTime.

(** [std::pow]. *)
Class StdPow := std_pow : double -> double -> double.

(** ** [RateErrorModel] *)
Inductive ErrorUnit := ERROR_UNIT_BIT | ERROR_UNIT_BYTE | ERROR_UNIT_PACKET.

#[export] Instance ErrorUnit_eq_dec : EqDecision ErrorUnit.
Proof. solve_decision. Defined.

Record RateErrorModel (R : Type) := mkRateErrorModel {
  m_enable : bool;
  m_unit : ErrorUnit;
  m_rate : double;
  m_ranvar : R
}.

Arguments mkRateErrorModel {R}.
Arguments m_enable {R} _.
Arguments m_unit {R} _.
Arguments m_rate {R} _.
Arguments m_ranvar {R} _.

Section error_model.
Context {R : Type} `{!UniformStreams R}.

(** The attributes' defaults; the random variable takes the next automatic stream. *)
Definition RateErrorModel_new (stream : Z) : RateErrorModel R :=
  mkRateErrorModel true ERROR_UNIT_BYTE dzero (uv_create stream).

(** [m_ranvar->GetValue () < per], with the range of the default variable. *)
Definition draw_below (per : double) (m : RateErrorModel R) : RateErrorModel R * bool :=
  let '(r, v) := uv_GetValue dzero done_ (m_ranvar m) in
  (mkRateErrorModel (m_enable m) (m_unit m) (m_rate m) r, dltb v per).

Definition DoCorruptPkt (m : RateErrorModel R) : RateErrorModel R * bool := draw_below (m_rate m) m.

Definition DoCorruptByte `{!StdPow} (size : Z) (m : RateErrorModel R) : RateErrorModel R * bool :=
  draw_below (dsub done_ (std_pow (dsub done_ (m_rate m)) (double_of_Z size))) m.

Definition DoCorruptBit `{!StdPow} (size : Z) (m : RateErrorModel R) : RateErrorModel R * bool :=
  draw_below (dsub done_ (std_pow (dsub done_ (m_rate m)) (double_of_Z (u32 (8 * size))))) m.

Definition IsCorrupt `{!StdPow} (size : Z) (m : RateErrorModel R) : RateErrorModel R * bool :=
  if negb (m_enable m) then (m, false)
  else
    match m_unit m with
    | ERROR_UNIT_PACKET => DoCorruptPkt m
    | ERROR_UNIT_BYTE => DoCorruptByte size m
    | ERROR_UNIT_BIT => DoCorruptBit size m
    end.
End error_model.

(** ** Devices, channels and nodes *)
Record PointToPointNetDevice (R : Type) := mkPointToPointNetDevice {
  m_node : option nat;
  m_channel : option nat;
  m_receiveErrorModel : option (RateErrorModel R)
}.

Arguments mkPointToPointNetDevice {R}.
Arguments m_node {R} _.
Arguments m_channel {R} _.
Arguments m_receiveErrorModel {R} _.

(** A device of a node; [OtherDevice] is one of another class. *)
Inductive NetDevice (R : Type) :=
| PointToPoint (d : PointToPointNetDevice R)
| OtherDevice (node : option nat).

Arguments PointToPoint {R}.
Arguments OtherDevice {R}.

(** The devices of each node, in the order of their indices; the devices; the sources
    [m_link[i].m_src] of each channel; the next automatic stream number. *)
Record Network (R : Type) := mkNetwork {
  nw_nodes : list (list nat);
  nw_devices : list (NetDevice R);
  nw_channels : list (list nat);
  nw_stream : Z
}.

Arguments mkNetwork {R}.
Arguments nw_nodes {R} _.
Arguments nw_devices {R} _.
Arguments nw_channels {R} _.
Arguments nw_stream {R} _.

(** Following a pointer that is null, or out of the bounds of an array. *)
Definition deref {A} (what : string) (o : option A) : exn + A :=
  match o with Some a => inr a | None => inl (Undefined what) end.

Section network.
Context {R : Type} `{!UniformStreams R}.
Abbreviation network := (Network R).

Definition device_node (d : NetDevice R) : option nat :=
  match d with PointToPoint p => m_node p | OtherDevice n => n end.

(** [Node::GetNDevices] and [Node::GetDevice] together. *)
Definition node_devices (n : nat) (net : network) : exn + list nat :=
  deref "Node" (nw_nodes net !! n).

Definition get_device (d : nat) (net : network) : exn + NetDevice R :=
  deref "NetDevice" (nw_devices net !! d).

Definition GetNode (d : nat) (net : network) : exn + option nat :=
  dev ← get_device d net; mret (device_node dev).

(** [PointToPointChannel::GetDevice]. *)
Definition channel_device (ch i : nat) (net : network) : exn + nat :=
  link ← deref "Channel" (nw_channels net !! ch);
  deref "m_link" (link !! i).

Definition SetReceiveErrorModel (d : nat) (m : RateErrorModel R) (net : network) : exn + network :=
  dev ← get_device d net;
  match dev with
  | PointToPoint p =>
      mret (mkNetwork (nw_nodes net)
        (<[d := PointToPoint (mkPointToPointNetDevice (m_node p) (m_channel p) (Some m))]> (nw_devices net))
        (nw_channels net) (nw_stream net))
  | OtherDevice _ => inl (Undefined "GetObject<PointToPointNetDevice>")
  end.

(** [Node::AddDevice] of a new device, with its [SetNode]. *)
Definition AddDevice (n : nat) (net : network) : exn + (network * nat) :=
  devices ← node_devices n net;
  let d := length (nw_devices net) in
  mret (mkNetwork (<[n := devices ++ [d]]> (nw_nodes net))
          (nw_devices net ++ [PointToPoint (mkPointToPointNetDevice (Some n) None None)])
          (nw_channels net) (nw_stream net), d).

(** [PointToPointNetDevice::Attach] and [PointToPointChannel::Attach]. *)
Definition Attach (d ch : nat) (net : network) : exn + network :=
  dev ← get_device d net;
  link ← deref "Channel" (nw_channels net !! ch);
  match dev with
  | PointToPoint p =>
      if (2 <=? length link)%nat then inl (Undefined "Only two devices permitted")
      else mret (mkNetwork (nw_nodes net)
        (<[d := PointToPoint (mkPointToPointNetDevice (m_node p) (Some ch) (m_receiveErrorModel p))]>
           (nw_devices net))
        (<[ch := link ++ [d]]> (nw_channels net)) (nw_stream net))
  | OtherDevice _ => inl (Undefined "PointToPointNetDevice")
  end.

(** [PointToPointHelper::Install], without MPI: a link between two nodes. *)
Definition PointToPointHelper_Install (a b : nat) (net : network) : exn + network :=
  '(net, devA) ← AddDevice a net;
  '(net, devB) ← AddDevice b net;
  let ch := length (nw_channels net) in
  let net := mkNetwork (nw_nodes net) (nw_devices net) (nw_channels net ++ [[]]) (nw_stream net) in
  net ← Attach devA ch net;
  Attach devB ch net.

(** [PointToPointChannel::TransmitStart]: the device that will receive. *)
Definition TransmitStart (ch src : nat) (net : network) : exn + nat :=
  src0 ← channel_device ch 0 net;
  src1 ← channel_device ch 1 net;
  mret (if bool_decide (src = src0) then src1 else src0).

(** [PointToPointNetDevice::Receive]: is the packet handed on? *)
Definition Receive `{!StdPow} (d : nat) (size : Z) (net : network) : exn + (network * bool) :=
  dev ← get_device d net;
  match dev with
  | PointToPoint p =>
      match m_receiveErrorModel p with
      | None => mret (net, true)
      | Some em =>
          let '(em, corrupt) := IsCorrupt size em in
          net ← SetReceiveErrorModel d em net;
          mret (net, negb corrupt)
      end
  | OtherDevice _ => inl (Undefined "PointToPointNetDevice")
  end.
End network.
