(* ===== verification/WiredHandover.v ===== *)
(** * WiredHandover: moving a mobile node between access links

    Source: [src/src/ndnSIM/statim/scenarios/common/wired-handover.hpp].  The node that
    moves has a link to every access node, and a periodic step lets one of them carry
    packets.  The mobility models are an interface that gives the position of a node at a
    time; the callbacks are computations of the world, which contains the network, the
    simulator and the rest [X] of the scenario with its events [E]. *)
From Stdlib Require Import Floats.SpecFloat.
From S2P Require Import Prelude SimTime Simulator PointToPoint.

(** ** [Vector3D] *)
Record Vector := mkVector { v_x : double; v_y : double; v_z : double }.

Definition CalculateDistance (a b : Vector) : double :=
  let dx := dsub (v_x b) (v_x a) in
  let dy := dsub (v_y b) (v_y a) in
  let dz := dsub (v_z b) (v_z a) in
  SFsqrt 53 1024 (dadd (dadd (dmul dx dx) (dmul dy dy)) (dmul dz dz)).

(** [node->GetObject<MobilityModel>()->GetPosition()] at a time, if the node has one. *)
Class Mobility := mobility_position : Z -> nat -> option Vector.

Definition GetPosition `{!Mobility} (t : Z) (n : nat) : exn + Vector :=
  deref "MobilityModel" (mobility_position t n).

(** ** Failing a link and putting it up *)
Section links.
Context {R : Type} `{!UniformStreams R}.
Abbreviation network := (Network R).

(** The device at the other end of the channel [ch] of a device of [n1]. *)
Definition other_end (n1 ch : nat) (net : network) : exn + nat :=
  remote ← channel_device ch 0 net;
  node ← GetNode remote net;
  if bool_decide (node = Some n1) then channel_device ch 1 net else mret remote.

(** The peer of the device [d] of [n1], if it is a point-to-point device on a channel. *)
Definition peer_device (n1 d : nat) (net : network) : exn + option nat :=
  dev ← get_device d net;
  match dev with
  | OtherDevice _ => mret None
  | PointToPoint ppd =>
      match m_channel ppd with
      | None => mret None
      | Some ch => remote ← other_end n1 ch net; mret (Some remote)
      end
  end.

(** The loop over the devices of [n1]: the first with a channel to [n2], and its peer. *)
Fixpoint find_link (n1 n2 : nat) (devices : list nat) (net : network) : exn + option (nat * nat) :=
  match devices with
  | [] => mret None
  | d :: devices =>
      peer ← peer_device n1 d net;
      match peer with
      | None => find_link n1 n2 devices net
      | Some remote =>
          node ← GetNode remote net;
          if bool_decide (node = Some n2) then mret (Some (d, remote))
          else find_link n1 n2 devices net
      end
  end.

Definition link_to (n1 n2 : nat) (net : network) : exn + option (nat * nat) :=
  devices ← node_devices n1 net;
  find_link n1 n2 devices net.

(** The object factory: every error model is a new object with a stream of its own. *)
Definition create_error_model (rate : double) (enabled : bool) (net : network)
    : network * RateErrorModel R :=
  let m := RateErrorModel_new (nw_stream net) in
  (mkNetwork (nw_nodes net) (nw_devices net) (nw_channels net) (nw_stream net + 1),
   mkRateErrorModel enabled ERROR_UNIT_PACKET rate (m_ranvar m)).

Definition set_error_models (rate : double) (enabled : bool) (ends : nat * nat) (net : network)
    : exn + network :=
  let '(net, em) := create_error_model rate enabled net in
  net ← SetReceiveErrorModel ends.1 em net;
  let '(net, em) := create_error_model rate enabled net in
  SetReceiveErrorModel ends.2 em net.

Definition FailP2PLink (n1 n2 : nat) (net : network) : exn + network :=
  found ← link_to n1 n2 net;
  match found with
  | None => mret net
  | Some ends => set_error_models done_ true ends net
  end.

Definition UpP2PLink (n1 n2 : nat) (net : network) : exn + network :=
  found ← link_to n1 n2 net;
  match found with
  | None => mret net
  | Some ends => set_error_models dzero false ends net
  end.
End links.

(** ** The state of the handover *)
Record Handover := mkHandover {
  BackboneNodes : list nat;
  MobileNode : option nat;
  ActiveAp : Z   (** an [int] *)
}.

(** The static objects before anything is set. *)
Definition Handover_init : Handover := mkHandover [] None (-1).

#[export] Instance set_ActiveAp : Setter ActiveAp := fun f h =>
  mkHandover (BackboneNodes h) (MobileNode h) (f (ActiveAp h)).

Definition RANGE_M : double := double_of_Z 100.
Definition FARTHEST : double := double_of_Z 1000000000000000000.   (** [1e18] *)

Definition mobile_node (h : Handover) : exn + nat := deref "MobileNode" (MobileNode h).

(** [BackboneNodes()[i]]. *)
Definition backbone_node (i : Z) (h : Handover) : exn + nat :=
  deref "BackboneNodes" (BackboneNodes h !! Z.to_nat i).

Section pick.
Context `{!Mobility}.

Definition distance_to (t : Z) (p : Vector) (n : nat) : exn + double :=
  q ← GetPosition t n; mret (CalculateDistance p q).

(** The loop for the nearest node in range: index, best index, best distance. *)
Fixpoint nearest_loop (t : Z) (p : Vector) (nodes : list nat) (i best : Z) (bestd : double) : exn + Z :=
  match nodes with
  | [] => mret best
  | n :: nodes =>
      d ← distance_to t p n;
      if dleb d RANGE_M && dltb d bestd
      then nearest_loop t p nodes (i + 1) (i32 i) d
      else nearest_loop t p nodes (i + 1) best bestd
  end.

Definition Pick (t : Z) (h : Handover) (p : Vector) : exn + Z :=
  keep ← (if 0 <=? ActiveAp h
          then ap ← backbone_node (ActiveAp h) h;
               d ← distance_to t p ap;
               mret (dleb d RANGE_M)
          else mret false);
  if (keep : bool) then mret (ActiveAp h)
  else nearest_loop t p (BackboneNodes h) 0 (-1) FARTHEST.
End pick.

(** ** The periodic step *)
Inductive HandoverEvent (E : Type) :=
| StepEvent (interval : double)
| ScenarioEvent (e : E).

Arguments StepEvent {E}.
Arguments ScenarioEvent {E}.

Record HandoverWorld (R X E : Type) := mkHandoverWorld {
  h_sim : Sim (HandoverEvent E);
  h_net : Network R;
  h_state : Handover;
  h_scenario : X
}.

Arguments mkHandoverWorld {R X E}.
Arguments h_sim {R X E} _.
Arguments h_net {R X E} _.
Arguments h_state {R X E} _.
Arguments h_scenario {R X E} _.

#[export] Instance set_h_sim {R X E} : Setter (@h_sim R X E) := fun f w =>
  mkHandoverWorld (f (h_sim w)) (h_net w) (h_state w) (h_scenario w).
#[export] Instance set_h_net {R X E} : Setter (@h_net R X E) := fun f w =>
  mkHandoverWorld (h_sim w) (f (h_net w)) (h_state w) (h_scenario w).
#[export] Instance set_h_state {R X E} : Setter (@h_state R X E) := fun f w =>
  mkHandoverWorld (h_sim w) (h_net w) (f (h_state w)) (h_scenario w).
#[export] Instance set_h_scenario {R X E} : Setter (@h_scenario R X E) := fun f w =>
  mkHandoverWorld (h_sim w) (h_net w) (h_state w) (f (h_scenario w)).

#[export] Instance lens_h_sim {R X E} : Lens (HandoverWorld R X E) (Sim (HandoverEvent E)) := {
  view := h_sim;
  put := fun s w => w <| h_sim := s |>
}.

Section handover.
Context {R X E : Type} `{!UniformStreams R} `{!Mobility}.
Abbreviation world := (HandoverWorld R X E).

(** [AssocCb] and [DeassocCb], as [Setup] stored them. *)
Context (assocCb : option (nat -> Z -> Z -> M world unit)) (deassocCb : option (nat -> Z -> M world unit)).

Definition on_network (f : Network R -> exn + Network R) : M world unit :=
  net ← gets h_net;
  net ← lift_result (f net);
  modify (fun w => w <| h_net := net |>).

Definition schedule_step (delay : double) (interval : double) : M world unit :=
  delay ← abort_if_none (Seconds delay);
  modify (fun w => w <| h_sim ::= fun s => (Schedule delay (StepEvent interval) s).1 |>).

(** Leaving the old access node. *)
Definition detach (oldAp : Z) : M world unit :=
  h ← gets h_state;
  mobile ← lift_result (mobile_node h);
  ap ← lift_result (backbone_node oldAp h);
  on_network (FailP2PLink mobile ap);;
  match deassocCb with Some cb => cb mobile oldAp | None => mret tt end.

(** Joining the new one; the search whose result is only printed comes first. *)
Definition attach (best oldAp : Z) : M world unit :=
  h ← gets h_state;
  mobile ← lift_result (mobile_node h);
  ap ← lift_result (backbone_node best h);
  net ← gets h_net;
  lift_result (link_to mobile ap net);;
  on_network (UpP2PLink mobile ap);;
  match assocCb with Some cb => cb mobile best oldAp | None => mret tt end.

Definition Step (interval : double) : M world unit :=
  h ← gets h_state;
  t ← gets (fun w => m_currentTs (h_sim w));
  mobile ← lift_result (mobile_node h);
  p ← lift_result (GetPosition t mobile);
  best ← lift_result (Pick t h p);
  (if best =? ActiveAp h then mret tt
   else
     let oldAp := ActiveAp h in
     (if 0 <=? oldAp then detach oldAp else mret tt);;
     (if 0 <=? best then attach best oldAp else mret tt);;
     modify (fun w => w <| h_state ::= fun h => h <| ActiveAp := best |> |>));;
  schedule_step interval interval.

(** [CreateLinks]: the attributes of the links do not matter here. *)
Definition CreateLinks (mobileNode : nat) (backboneNodes : list nat) : M world unit :=
  modify (fun w => w <| h_state ::= fun h => mkHandover backboneNodes (Some mobileNode) (ActiveAp h) |>);;
  for_each backboneNodes (fun n => on_network (PointToPointHelper_Install mobileNode n)).

(** [Setup]: all links fail, and the first step is due after 0.2 s. *)
Definition Setup (interval : double) : M world unit :=
  h ← gets h_state;
  for_each (BackboneNodes h) (fun n =>
    mobile ← lift_result (mobile_node h);
    on_network (FailP2PLink mobile n));;
  modify (fun w => w <| h_state ::= fun h => h <| ActiveAp := -1 |> |>);;
  schedule_step (ddiv (double_of_Z 2) (double_of_Z 10)) interval.

(** The events, those of the scenario run by [scenario]. *)
Context (scenario : E -> M world unit).

Definition handover_dispatch (e : HandoverEvent E) : M world unit :=
  match e with
  | StepEvent interval => Step interval
  | ScenarioEvent e => scenario e
  end.
End handover.
