(* ===== verification/WiredHandoverSpec.v ===== *)
(** * WiredHandoverSpec: one access link carries packets, the one of the active node

    What [Setup] and the periodic step guarantee about the links of a node that moves, and
    which access node a step chooses. *)
From Stdlib Require Import Floats.SpecFloat.
From S2P Require Import Prelude SimTime Simulator PointToPoint WiredHandover.

(** ** The order of binary floating-point numbers *)

(** A number that is not a NaN has a key; numbers are ordered as their keys. *)
Definition float_key (f : spec_float) : option (Z * Z * Z) :=
  match f with
  | S754_nan => None
  | S754_infinity true => Some (-2, 0, 0)
  | S754_finite true m e => Some (-1, - e, - Zpos m)
  | S754_zero _ => Some (0, 0, 0)
  | S754_finite false m e => Some (1, e, Zpos m)
  | S754_infinity false => Some (2, 0, 0)
  end.

Definition key_lt (a b : Z * Z * Z) : Prop :=
  let '(a1, a2, a3) := a in let '(b1, b2, b3) := b in
  a1 < b1 \/ (a1 = b1 /\ (a2 < b2 \/ (a2 = b2 /\ a3 < b3))).

Definition float_lt (a b : spec_float) : Prop :=
  match float_key a, float_key b with Some ka, Some kb => key_lt ka kb | _, _ => False end.

Definition float_le (a b : spec_float) : Prop :=
  match float_key a, float_key b with Some ka, Some kb => ~ key_lt kb ka | _, _ => False end.

Lemma float_compare a b :
  match SFcompare a b with
  | None => float_key a = None \/ float_key b = None
  | Some c => exists ka kb, float_key a = Some ka /\ float_key b = Some kb /\
      match c with Lt => key_lt ka kb | Gt => key_lt kb ka | Eq => ~ key_lt ka kb /\ ~ key_lt kb ka end
  end.
Proof.
  destruct a as [[]|[]| |[] ma ea], b as [[]|[]| |[] mb eb]; cbn; auto;
    try (eexists _, _; split; [done|split; [done|cbn; lia]]);
    (change (Pos.compare_cont Eq ma mb) with (Pos.compare ma mb);
      destruct (Z.compare_spec ea eb); cbn; [destruct (Pos.compare_spec ma mb); cbn| |];
      eexists _, _; (split; [done|split; [done|cbn; lia]])).
Qed.

Lemma dltb_spec a b : dltb a b = true <-> float_lt a b.
Proof.
  unfold dltb, SFltb, float_lt. pose proof (float_compare a b) as H.
  destruct (SFcompare a b) as [[]|].
  - destruct H as (ka & kb & -> & -> & H1 & H2). split; [done|intros ?; by destruct H1].
  - by destruct H as (ka & kb & -> & -> & H).
  - destruct H as ([[a1 a2] a3] & [[b1 b2] b3] & -> & -> & H). split; [done|]. cbn in *. lia.
  - split; [done|]. destruct H as [->| ->]; [done|]. by destruct (float_key a).
Qed.

Lemma dleb_spec a b : dleb a b = true <-> float_le a b.
Proof.
  unfold dleb, SFleb, float_le. pose proof (float_compare a b) as H.
  destruct (SFcompare a b) as [[]|].
  - by destruct H as (ka & kb & -> & -> & H1 & H2).
  - destruct H as ([[a1 a2] a3] & [[b1 b2] b3] & -> & -> & H). split; [|done]. cbn in *. lia.
  - destruct H as (ka & kb & -> & -> & H). split; [done|intros Hn; by destruct Hn].
  - split; [done|]. destruct H as [->| ->]; [done|]. by destruct (float_key a).
Qed.

Lemma float_lt_trans a b c : float_lt a b -> float_lt b c -> float_lt a c.
Proof.
  unfold float_lt. destruct (float_key a) as [[[a1 a2] a3]|], (float_key b) as [[[b1 b2] b3]|],
    (float_key c) as [[[c1 c2] c3]|]; cbn; try done. lia.
Qed.

Lemma float_le_lt_trans a b c : float_le a b -> float_lt b c -> float_lt a c.
Proof.
  unfold float_lt, float_le. destruct (float_key a) as [[[a1 a2] a3]|], (float_key b) as [[[b1 b2] b3]|],
    (float_key c) as [[[c1 c2] c3]|]; cbn; try done. lia.
Qed.

Lemma float_lt_asym a b : float_lt a b -> ~ float_lt b a.
Proof.
  unfold float_lt. destruct (float_key a) as [[[a1 a2] a3]|], (float_key b) as [[[b1 b2] b3]|]; cbn; try done. lia.
Qed.

Lemma in_range_near d : dleb d RANGE_M = true -> dltb d FARTHEST = true.
Proof.
  rewrite dleb_spec, dltb_spec. intros H. eapply float_le_lt_trans; [exact H|]. by apply dltb_spec.
Qed.

(** ** What a network is, apart from its random numbers *)
Definition forget_model {R} (m : RateErrorModel R) : RateErrorModel unit :=
  mkRateErrorModel (m_enable m) (m_unit m) (m_rate m) tt.

Definition forget_device {R} (d : NetDevice R) : NetDevice unit :=
  match d with
  | PointToPoint p => PointToPoint (mkPointToPointNetDevice (m_node p) (m_channel p) (forget_model <$> m_receiveErrorModel p))
  | OtherDevice n => OtherDevice n
  end.

Definition settings {R} (net : Network R) : Network unit :=
  mkNetwork (nw_nodes net) (forget_device <$> nw_devices net) (nw_channels net) 0.

(** The law of [UniformRandomVariable] with its default range: values are below the maximum. *)
Class UniformBelowOne (R : Type) `{!UniformStreams R} : Prop :=
  below_one (r : R) : dltb (uv_GetValue dzero done_ r).2 done_ = true.

(** An error model that loses every packet, and one that loses none. *)
Definition failed_model : RateErrorModel unit := mkRateErrorModel true ERROR_UNIT_PACKET done_ tt.
Definition up_model : RateErrorModel unit := mkRateErrorModel false ERROR_UNIT_PACKET dzero tt.
Definition model_of (up : bool) : RateErrorModel unit := if up then up_model else failed_model.

(** The device [d] in a network without random numbers: node, channel and error model. *)
Definition device_is (net : Network unit) (d n ch : nat) (m : option (RateErrorModel unit)) : Prop :=
  nw_devices net !! d = Some (PointToPoint (mkPointToPointNetDevice (Some n) (Some ch) m)).

Section network.
Context {R : Type}.
Abbreviation network := (Network R).
Implicit Types (net : network).

Lemma settings_device net d : nw_devices (settings net) !! d = forget_device <$> nw_devices net !! d.
Proof. unfold settings. cbn. by rewrite list_lookup_fmap. Qed.

Lemma settings_device_inv net d n ch m :
  device_is (settings net) d n ch m ->
  exists m', nw_devices net !! d = Some (PointToPoint (mkPointToPointNetDevice (Some n) (Some ch) m')) /\
    forget_model <$> m' = m.
Proof.
  unfold device_is. rewrite settings_device. destruct (nw_devices net !! d) as [[[n' ch' m']|]|]; cbn; [|done..].
  intros [= -> -> <-]. by exists m'.
Qed.

(** The search for a link does not look at error models. *)
Lemma GetNode_settings net d : GetNode d (settings net) = GetNode d net.
Proof.
  unfold GetNode, get_device. rewrite settings_device. by destruct (nw_devices net !! d) as [[]|].
Qed.

Lemma peer_device_settings net n1 d : peer_device n1 d (settings net) = peer_device n1 d net.
Proof.
  unfold peer_device, get_device. rewrite settings_device.
  destruct (nw_devices net !! d) as [[p|n]|]; [|done..]. cbn. destruct (m_channel p) as [ch|]; [|done].
  unfold other_end. assert (forall i, channel_device ch i (settings net) = channel_device ch i net) as Hch by done.
  rewrite !Hch. destruct (channel_device ch 0 net) as [|r0]; [done|]. cbn. by rewrite GetNode_settings.
Qed.

Lemma link_to_settings net n1 n2 : link_to n1 n2 (settings net) = link_to n1 n2 net.
Proof.
  unfold link_to, node_devices. change (nw_nodes (settings net)) with (nw_nodes net).
  destruct (nw_nodes net !! n1) as [ds|]; [|done]. cbn. induction ds as [|d ds IH]; [done|]. cbn [find_link].
  rewrite peer_device_settings. destruct (peer_device n1 d net) as [|[remote|]]; [done| |exact IH]. cbn.
  rewrite GetNode_settings. destruct (GetNode remote net) as [|n]; [done|]. cbn.
  by destruct (bool_decide (n = Some n2)).
Qed.
End network.

(** ** The links of a mobile node *)

(** [ends], the device of the mobile and its peer, are a link to the access node [a]. *)
Definition wire (net : Network unit) (mobile a : nat) (ends : nat * nat) : Prop :=
  exists ch m1 m2, device_is net ends.1 mobile ch m1 /\ device_is net ends.2 a ch m2 /\
    nw_channels net !! ch = Some [ends.1; ends.2].

(** The mobile has one link to each access node and no other device. *)
Record wired (net : Network unit) (mobile : nat) (aps : list nat) (ends : list (nat * nat)) : Prop := {
  wi_devices : nw_nodes net !! mobile = Some ends.*1;
  wi_wires : Forall2 (wire net mobile) aps ends;
  wi_aps : NoDup aps;
  wi_mobile : mobile ∉ aps;
  wi_ends : NoDup (ends.*1 ++ ends.*2)
}.

(** Both ends of the link have the error model [m], or none. *)
Definition link_has (m : option (RateErrorModel unit)) (net : Network unit) (ends : nat * nat) : Prop :=
  (exists n ch, device_is net ends.1 n ch m) /\ (exists n ch, device_is net ends.2 n ch m).

(** The link [ends] was put up, or failed. *)
Abbreviation link_is up := (link_has (Some (model_of up))).

Section wired.
Context {R : Type} `{!UniformStreams R}.
Abbreviation network := (Network R).

Lemma wire_peer (net : Network unit) mobile a e :
  wire net mobile a e -> peer_device mobile e.1 net = inr (Some e.2) /\ GetNode e.2 net = inr (Some a).
Proof.
  intros (ch & m1 & m2 & H1 & H2 & Hch). destruct e as [d r]. unfold device_is in H1, H2. cbn [fst snd] in *.
  unfold peer_device, get_device. rewrite H1. cbn. unfold other_end, channel_device. rewrite Hch. cbn.
  unfold GetNode, get_device. rewrite H1, H2. cbn. by rewrite bool_decide_true.
Qed.

Lemma wire_search (net : Network unit) mobile a a' e ds :
  wire net mobile a' e ->
  find_link mobile a (e.1 :: ds) net =
    if bool_decide (a' = a) then inr (Some e) else find_link mobile a ds net.
Proof.
  intros H. destruct (wire_peer _ _ _ _ H) as [Hp Hn]. cbn [find_link]. rewrite Hp. cbn. rewrite Hn. cbn.
  destruct (decide (a' = a)) as [->|Hne].
  - rewrite !bool_decide_true by done. by destruct e.
  - rewrite !bool_decide_false; [done|done|by intros [= ?]].
Qed.

Lemma wired_search net mobile aps ends i a :
  wired net mobile aps ends -> aps !! i = Some a ->
  exists e, ends !! i = Some e /\ link_to mobile a net = inr (Some e).
Proof.
  intros [Hd Hw Hn Hm _] Hi. unfold link_to, node_devices. rewrite Hd. cbn. clear Hd.
  revert i ends Hw Hi. induction aps as [|a' aps IH]; intros i ends Hw Hi; [done|].
  apply Forall2_cons_inv_l in Hw as (e & ends' & He & Hw & ->). apply NoDup_cons in Hn as [Ha' Hn].
  apply not_elem_of_cons in Hm as [Hne Hm]. rewrite fmap_cons, (wire_search net mobile a a' e) by done.
  destruct i as [|i]; cbn in Hi.
  - injection Hi as ->. rewrite bool_decide_true by done. by exists e.
  - rewrite bool_decide_false; [exact (IH Hn Hm i ends' Hw Hi)|]. intros ->. destruct Ha'. by eapply list_elem_of_lookup_2.
Qed.

Lemma wired_wire net mobile aps ends i e :
  wired net mobile aps ends -> ends !! i = Some e -> exists a, aps !! i = Some a /\ wire net mobile a e.
Proof. intros H Hi. by eapply Forall2_lookup_r in Hi; [|apply H]. Qed.

(** *** Setting the error models of a link *)
Lemma SetReceiveErrorModel_run (net : network) d n ch m (em : RateErrorModel R) :
  device_is (settings net) d n ch m ->
  exists net', SetReceiveErrorModel d em net = inr net' /\
    nw_nodes net' = nw_nodes net /\ nw_channels net' = nw_channels net /\
    device_is (settings net') d n ch (Some (forget_model em)) /\
    forall d', d' <> d -> nw_devices (settings net') !! d' = nw_devices (settings net) !! d'.
Proof.
  intros H. apply settings_device_inv in H as (m' & H & _). unfold SetReceiveErrorModel, get_device.
  rewrite H. eexists. split; [reflexivity|]. split_and!; [done|done| |].
  - unfold device_is. rewrite settings_device. cbn. rewrite list_lookup_insert_eq; [done|].
    by eapply lookup_lt_Some.
  - intros d' Hd. rewrite !settings_device. cbn. by rewrite list_lookup_insert_ne by done.
Qed.

(** The devices that are not an end of [e] are as before. *)
Definition others_kept (net net' : Network unit) (e : nat * nat) : Prop :=
  forall d, d <> e.1 -> d <> e.2 -> nw_devices net' !! d = nw_devices net !! d.

Lemma set_error_models_run rate enabled (net : network) mobile a e up :
  wire (settings net) mobile a e -> e.1 <> e.2 ->
  mkRateErrorModel enabled ERROR_UNIT_PACKET rate tt = model_of up ->
  exists net', set_error_models rate enabled e net = inr net' /\
    nw_nodes net' = nw_nodes net /\ nw_channels net' = nw_channels net /\
    wire (settings net') mobile a e /\ link_is up (settings net') e /\
    others_kept (settings net) (settings net') e.
Proof.
  intros (ch & m1 & m2 & H1 & H2 & Hch) Hne Hm.
  pose (em s := mkRateErrorModel enabled ERROR_UNIT_PACKET rate (m_ranvar (RateErrorModel_new (R := R) s))).
  assert (forall s, forget_model (em s) = model_of up) as Hem by (intros s; by rewrite <-Hm).
  pose (bump (net : network) := mkNetwork (nw_nodes net) (nw_devices net) (nw_channels net) (nw_stream net + 1)).
  assert (set_error_models rate enabled e net = (net1 ← SetReceiveErrorModel e.1 (em (nw_stream net)) (bump net);
    SetReceiveErrorModel e.2 (em (nw_stream net1)) (bump net1))) as -> by done.
  destruct (SetReceiveErrorModel_run (bump net) e.1 mobile ch m1 (em (nw_stream net)) H1)
    as (net1 & -> & N1 & C1 & D1 & K1). cbn [mbind result_bind].
  destruct (SetReceiveErrorModel_run (bump net1) e.2 a ch m2 (em (nw_stream net1)))
    as (net2 & -> & N2 & C2 & D2 & K2).
  { unfold device_is. change (settings (bump net1)) with (settings net1). rewrite K1 by done. exact H2. }
  change (settings (bump net1)) with (settings net1) in K2. change (settings (bump net)) with (settings net) in K1.
  assert (device_is (settings net2) e.1 mobile ch (Some (forget_model (em (nw_stream net))))) as D1'
    by (unfold device_is; by rewrite K2).
  exists net2. split; [done|]. split; [rewrite N2; exact N1|]. split; [rewrite C2; exact C1|]. rewrite Hem in D1', D2.
  split; [|split].
  - exists ch, (Some (model_of up)), (Some (model_of up)). split_and!; [done|done|].
    change (nw_channels net2 !! ch = Some [e.1; e.2]). rewrite C2. change (nw_channels net1 !! ch = Some [e.1; e.2]).
    rewrite C1. exact Hch.
  - split; eauto.
  - intros d Hd1 Hd2. by rewrite K2, K1.
Qed.

(** *** Failing and putting up the link of an access node *)
Lemma wire_device_lt net mobile a e :
  wire net mobile a e -> (e.1 < length (nw_devices net))%nat /\ (e.2 < length (nw_devices net))%nat.
Proof. intros (ch & m1 & m2 & H1 & H2 & _). split; by eapply lookup_lt_Some. Qed.

Lemma wire_kept net net' mobile a e e' :
  nw_channels net' = nw_channels net -> others_kept net net' e ->
  e'.1 <> e.1 -> e'.1 <> e.2 -> e'.2 <> e.1 -> e'.2 <> e.2 ->
  (wire net mobile a e' -> wire net' mobile a e') /\ (forall m, link_has m net e' -> link_has m net' e').
Proof.
  intros Hc Hk H1 H2 H3 H4. split.
  - intros (ch & m1 & m2 & W1 & W2 & Hch). exists ch, m1, m2. unfold device_is. by rewrite !Hk, Hc.
  - intros m [(n1 & c1 & W1) (n2 & c2 & W2)]. split; [exists n1, c1|exists n2, c2]; unfold device_is; by rewrite Hk.
Qed.

(** Different links have no device in common. *)
Lemma ends_apart (ends : list (nat * nat)) i j e e' :
  NoDup (ends.*1 ++ ends.*2) -> ends !! i = Some e -> ends !! j = Some e' ->
  e.1 <> e'.2 /\ (i <> j -> e'.1 <> e.1 /\ e'.1 <> e.2 /\ e'.2 <> e.1 /\ e'.2 <> e.2).
Proof.
  intros (N1 & N12 & N2)%NoDup_app Hi Hj.
  assert (forall k f, ends !! k = Some f -> ends.*1 !! k = Some f.1 /\ ends.*2 !! k = Some f.2) as Hf
    by (intros k f Hk; by rewrite !list_lookup_fmap, Hk).
  destruct (Hf i e Hi) as [A1 A2], (Hf j e' Hj) as [B1 B2].
  assert (forall x y, x ∈ ends.*1 -> y ∈ ends.*2 -> x <> y) as Hxy by (intros x y Hx Hy ->; by destruct (N12 y)).
  pose proof (list_elem_of_lookup_2 _ _ _ A1). pose proof (list_elem_of_lookup_2 _ _ _ A2).
  pose proof (list_elem_of_lookup_2 _ _ _ B1). pose proof (list_elem_of_lookup_2 _ _ _ B2).
  split; [by apply Hxy|]. intros Hij. split_and!; [|by apply Hxy|by apply not_eq_sym, Hxy|].
  - intros E. rewrite E in B1. destruct Hij. eapply (NoDup_lookup (ends.*1)); eassumption.
  - intros E. rewrite E in B2. destruct Hij. eapply (NoDup_lookup (ends.*2)); eassumption.
Qed.

(** Setting one link leaves the wiring and the other links. *)
Lemma set_link (net net' : Network unit) mobile aps ends i e up :
  wired net mobile aps ends -> ends !! i = Some e ->
  nw_nodes net' = nw_nodes net -> nw_channels net' = nw_channels net ->
  (exists a, aps !! i = Some a /\ wire net' mobile a e) -> link_is up net' e -> others_kept net net' e ->
  wired net' mobile aps ends /\
  forall j e' m, ends !! j = Some e' -> j <> i -> link_has m net e' -> link_has m net' e'.
Proof.
  intros [Wd Ww Wa Wm We] Hi Hn Hc (a & Ha & Hwire) _ Hk.
  assert (forall j e', ends !! j = Some e' -> j <> i ->
    e'.1 <> e.1 /\ e'.1 <> e.2 /\ e'.2 <> e.1 /\ e'.2 <> e.2) as Hap
    by (intros j e' Hj Hne; by eapply ends_apart).
  split.
  - split; [by rewrite Hn| |done..]. apply Forall2_same_length_lookup. split; [by eapply Forall2_length|].
    intros j a' e' Hj Hj'. destruct (decide (j = i)) as [->|Hne].
    + rewrite Ha in Hj. rewrite Hi in Hj'. by injection Hj as <-; injection Hj' as <-.
    + destruct (Hap j e' Hj' Hne) as (?&?&?&?). eapply wire_kept; [done..|]. by eapply Forall2_lookup_lr.
  - intros j e' m Hj Hne Hl. destruct (Hap j e' Hj Hne) as (?&?&?&?). by eapply (wire_kept net net' mobile a e e').
Qed.

Lemma P2PLink_run (net : network) mobile aps ends i a (up : bool) :
  wired (settings net) mobile aps ends -> aps !! i = Some a ->
  exists e net', ends !! i = Some e /\
    (if up then UpP2PLink mobile a net else FailP2PLink mobile a net) = inr net' /\
    wired (settings net') mobile aps ends /\ link_is up (settings net') e /\
    forall j e' m, ends !! j = Some e' -> j <> i -> link_has m (settings net) e' -> link_has m (settings net') e'.
Proof.
  intros Hw Hi. destruct (wired_search _ _ _ _ _ _ Hw Hi) as (e & He & Hlink). rewrite link_to_settings in Hlink.
  destruct (wired_wire _ _ _ _ _ _ Hw He) as (a' & Ha' & Hwire).
  assert (a' = a) as -> by congruence.
  destruct (ends_apart ends i i e e) as [Hne _]; [apply Hw|done..|].
  exists e. assert (exists net', (if up then UpP2PLink mobile a net else FailP2PLink mobile a net) = inr net' /\
    nw_nodes net' = nw_nodes net /\ nw_channels net' = nw_channels net /\
    wire (settings net') mobile a e /\ link_is up (settings net') e /\
    others_kept (settings net) (settings net') e) as (net' & E & N & C & W & L & K).
  { unfold UpP2PLink, FailP2PLink. rewrite Hlink. cbn [mbind result_bind].
    destruct up; by eapply set_error_models_run. }
  destruct (set_link (settings net) (settings net') mobile aps ends i e up) as [Hw' Hl]; [done..|by exists a|done|done|].
  exists net'. by split_and!.
Qed.
End wired.

(** ** Making the links *)
(** A new link between [a] and [b]. *)
Definition linked_network {R} (net : Network R) (a b : nat) (da db : list nat) : Network R :=
  let d := length (nw_devices net) in let ch := length (nw_channels net) in
  mkNetwork (<[b := db ++ [S d]]> (<[a := da ++ [d]]> (nw_nodes net)))
    (nw_devices net ++ [PointToPoint (mkPointToPointNetDevice (Some a) (Some ch) None);
                        PointToPoint (mkPointToPointNetDevice (Some b) (Some ch) None)])
    (nw_channels net ++ [[d; S d]]) (nw_stream net).

Section install.
Context {R : Type}.
Abbreviation network := (Network R).

Lemma Install_run (net : network) a b da db :
  a <> b -> nw_nodes net !! a = Some da -> nw_nodes net !! b = Some db ->
  PointToPointHelper_Install a b net = inr (linked_network net a b da db).
Proof.
  intros Hab Ha Hb. unfold PointToPointHelper_Install, AddDevice, node_devices. rewrite Ha. cbn [deref mbind result_bind mret result_ret].
  cbv beta iota. cbn [nw_nodes nw_devices nw_channels nw_stream]. rewrite list_lookup_insert_ne, Hb by done.
  cbn [deref mbind result_bind mret result_ret]. cbv beta iota. cbn [nw_nodes nw_devices nw_channels nw_stream].
  set (l := nw_devices net). set (c := nw_channels net).
  rewrite (length_app l [_]), Nat.add_1_r. rewrite <-app_assoc. cbn [app].
  set (p := fun n ch : option nat => PointToPoint (mkPointToPointNetDevice (R := R) n ch None)).
  change (PointToPoint (mkPointToPointNetDevice (Some a) None None)) with (p (Some a) None).
  change (PointToPoint (mkPointToPointNetDevice (Some b) None None)) with (p (Some b) None).
  unfold Attach, get_device. cbn [nw_nodes nw_devices nw_channels nw_stream].
  rewrite (lookup_app_r l _ (length l)), Nat.sub_diag by lia. cbn [lookup list_lookup deref mbind result_bind].
  rewrite (lookup_app_r c _ (length c)), Nat.sub_diag by lia. cbn [lookup list_lookup deref mbind result_bind p length Nat.leb mret result_ret].
  cbn [nw_nodes nw_devices nw_channels nw_stream m_node m_receiveErrorModel].
  rewrite (list_lookup_insert_ne _ (length l) (S (length l))) by lia.
  rewrite (lookup_app_r l _ (S (length l))) by lia. replace (S (length l) - length l)%nat with 1%nat by lia.
  cbn [lookup list_lookup deref mbind result_bind].
  rewrite list_lookup_insert_eq by (rewrite length_app; cbn; lia).
  cbn [lookup list_lookup deref mbind result_bind p length app Nat.leb mret result_ret m_node m_receiveErrorModel].
  unfold linked_network. fold l c. do 2 f_equal.
  - rewrite !insert_app_r_alt by lia. rewrite Nat.sub_diag. replace (S (length l) - length l)%nat with 1%nat by lia. done.
  - rewrite list_insert_insert_eq, insert_app_r_alt by lia. by rewrite Nat.sub_diag.
Qed.

Lemma settings_linked (net : network) a b da db :
  settings (linked_network net a b da db) = linked_network (settings net) a b da db.
Proof. unfold settings, linked_network. cbn. by rewrite fmap_app, length_fmap. Qed.

Lemma linked_wire (net : Network unit) a b da db mobile x e :
  wire net mobile x e -> wire (linked_network net a b da db) mobile x e.
Proof.
  intros (ch & m1 & m2 & H1 & H2 & Hch). exists ch, m1, m2. unfold device_is in *. cbn.
  split_and!; apply lookup_app_l_Some; done.
Qed.

Lemma linked_wired (net : Network unit) mobile aps ends b db :
  wired net mobile aps ends -> nw_nodes net !! b = Some db -> b <> mobile -> b ∉ aps ->
  let d := length (nw_devices net) in
  wired (linked_network net mobile b ends.*1 db) mobile (aps ++ [b]) (ends ++ [(d, S d)]).
Proof.
  intros [Wd Ww Wa Wm We] Hb Hne Hnin d. split.
  - cbn. rewrite list_lookup_insert_ne by done. rewrite list_lookup_insert_eq by (by eapply lookup_lt_Some).
    by rewrite fmap_app.
  - apply Forall2_app.
    + eapply Forall2_impl; [exact Ww|]. intros x e. apply linked_wire.
    + constructor; [|constructor]. exists (length (nw_channels net)), None, None. unfold device_is. cbn.
      rewrite !lookup_app_r by lia. rewrite !Nat.sub_diag. replace (S d - length (nw_devices net))%nat with 1%nat by lia.
      done.
  - apply NoDup_app. split; [done|]. split; [|apply NoDup_singleton]. by intros x Hx ->%list_elem_of_singleton.
  - rewrite not_elem_of_app, list_elem_of_singleton. split; [done|by apply not_eq_sym].
  - assert (forall x, x ∈ ends.*1 ++ ends.*2 -> (x < d)%nat) as Hlt.
    { intros x [Hx|Hx]%elem_of_app; apply list_elem_of_fmap in Hx as (e & -> & He);
        apply list_elem_of_lookup in He as (i & Hi); eapply Forall2_lookup_r in Hi as (a & _ & Hwire); [|exact Ww| |exact Ww];
        by apply wire_device_lt in Hwire as [? ?]. }
    rewrite !fmap_app. cbn.
    assert (ends.*1 ++ [d] ++ ends.*2 ++ [S d] ≡ₚ (ends.*1 ++ ends.*2) ++ [d; S d]) as Hp by solve_Permutation.
    rewrite <-app_assoc. rewrite Hp. apply NoDup_app. split; [done|]. split.
    + intros x Hx Hx'. apply Hlt in Hx. repeat (apply elem_of_cons in Hx' as [->|Hx']; [lia|]). by apply elem_of_nil in Hx'.
    + apply NoDup_cons. split; [|apply NoDup_singleton]. rewrite list_elem_of_singleton. lia.
Qed.
End install.

(** ** Choosing an access node *)
Section choice.
Context {MO : Mobility}.

(** The distance from [p] to the node [n] at the time [t]. *)
Definition node_distance (t : Z) (p : Vector) (n : nat) : double :=
  match mobility_position t n with Some q => CalculateDistance p q | None => S754_nan end.

Definition in_range (t : Z) (p : Vector) (n : nat) : bool := dleb (node_distance t p n) RANGE_M.

(** [k] is the nearest node of [nodes] in range, the first among equals; or -1 if none is in range. *)
Definition nearest (t : Z) (p : Vector) (nodes : list nat) (k : Z) : Prop :=
  (k = -1 /\ Forall (fun n => in_range t p n = false) nodes) \/
  (exists i n, k = Z.of_nat i /\ nodes !! i = Some n /\ in_range t p n = true /\
     forall j n', nodes !! j = Some n' -> in_range t p n' = true ->
       dltb (node_distance t p n') (node_distance t p n) = false /\
       ((j < i)%nat -> dltb (node_distance t p n) (node_distance t p n') = true)).

(** What a step chooses: the active node while it is in range, else the nearest. *)
Definition chosen (t : Z) (p : Vector) (nodes : list nat) (active best : Z) : Prop :=
  match nodes !! Z.to_nat active with
  | Some n => if (0 <=? active) && in_range t p n then best = active else nearest t p nodes best
  | None => nearest t p nodes best
  end.

Definition located (t : Z) (n : nat) : Prop := is_Some (mobility_position t n).

Lemma distance_to_run t p n : located t n -> distance_to t p n = inr (node_distance t p n).
Proof. intros [q H]. unfold distance_to, GetPosition, node_distance. by rewrite H. Qed.

(** What the loop has found among the nodes it has passed. *)
Definition best_so_far (t : Z) (p : Vector) (passed : list nat) (best : Z) (bestd : double) : Prop :=
  nearest t p passed best /\
  match passed !! Z.to_nat best with
  | Some n => if 0 <=? best then bestd = node_distance t p n else bestd = FARTHEST
  | None => bestd = FARTHEST
  end.

Lemma nearest_none t p nodes : nearest t p nodes (-1) -> Forall (fun n => in_range t p n = false) nodes.
Proof. intros [[_ H]|(i & n & H & _)]; [done|lia]. Qed.

Lemma best_so_far_keep t p passed best bestd n :
  best_so_far t p passed best bestd ->
  dleb (node_distance t p n) RANGE_M && dltb (node_distance t p n) bestd = false ->
  best_so_far t p (passed ++ [n]) best bestd.
Proof.
  intros [[[-> Hno]|(i & m & -> & Hi & Hr & Hmin)] Hd] Hb.
  - change (Z.to_nat (-1)) with 0%nat in Hd. change (0 <=? -1) with false in Hd.
    assert (bestd = FARTHEST) as -> by (by destruct (passed !! 0%nat)). split.
    + left. split; [done|]. apply Forall_app. split; [done|]. constructor; [|done].
      apply andb_false_iff in Hb as [Hb|Hb]; [done|]. unfold in_range.
      destruct (dleb _ RANGE_M) eqn:E; [|done]. apply in_range_near in E. congruence.
    + change (Z.to_nat (-1)) with 0%nat. change (0 <=? -1) with false. by destruct ((passed ++ [n]) !! 0%nat).
  - rewrite Nat2Z.id, Hi in Hd. rewrite (proj2 (Z.leb_le 0 (Z.of_nat i))) in Hd by lia. subst bestd. split.
    + right. exists i, m. split_and!; [done|by apply lookup_app_l_Some|done|]. intros j n' Hj Hr'.
      apply lookup_snoc_Some in Hj as [[Hlt Hj]|[-> <-]].
      * by apply Hmin.
      * apply lookup_lt_Some in Hi. split; [|lia]. unfold in_range in Hr'. by rewrite Hr' in Hb.
    + rewrite Nat2Z.id, (lookup_app_l_Some _ _ _ _ Hi). by rewrite (proj2 (Z.leb_le 0 (Z.of_nat i))) by lia.
Qed.

Lemma best_so_far_take t p passed best bestd n :
  best_so_far t p passed best bestd ->
  dleb (node_distance t p n) RANGE_M && dltb (node_distance t p n) bestd = true ->
  best_so_far t p (passed ++ [n]) (Z.of_nat (length passed)) (node_distance t p n).
Proof.
  intros [Hn Hd] [Hr Hlt]%andb_prop. split.
  - right. exists (length passed), n. split_and!; [done|by apply list_lookup_middle|done|]. intros j n' Hj Hr'.
    apply lookup_snoc_Some in Hj as [[Hjl Hj]|[-> <-]].
    + assert (dltb (node_distance t p n) (node_distance t p n') = true) as H.
      { destruct Hn as [[-> Hno]|(i & m & -> & Hi & Hrm & Hmin)].
        - rewrite Forall_lookup in Hno. apply Hno in Hj. congruence.
        - rewrite Nat2Z.id, Hi in Hd. rewrite (proj2 (Z.leb_le 0 (Z.of_nat i))) in Hd by lia. subst bestd.
          destruct (Hmin j n' Hj Hr') as [Hle _]. apply dltb_spec. apply dltb_spec in Hlt.
          apply not_true_iff_false in Hle. rewrite dltb_spec in Hle. unfold in_range in *.
          rewrite dleb_spec in Hr, Hr', Hrm. clear - Hlt Hle Hr' Hr Hrm. unfold float_lt, float_le in *.
          destruct (float_key (node_distance t p n)) as [[[a1 a2] a3]|], (float_key (node_distance t p m)) as [[[b1 b2] b3]|],
            (float_key (node_distance t p n')) as [[[c1 c2] c3]|]; cbn in *; try done. lia. }
      split; [|done]. apply not_true_iff_false. rewrite dltb_spec. apply float_lt_asym. by apply dltb_spec.
    + split; [|lia]. apply not_true_iff_false. rewrite dltb_spec. intros H. by apply (float_lt_asym _ _ H).
  - rewrite Nat2Z.id, list_lookup_middle by done. by rewrite (proj2 (Z.leb_le 0 _)) by lia.
Qed.

Lemma nearest_loop_run t p nodes passed best bestd :
  Forall (located t) nodes -> Z.of_nat (length (passed ++ nodes)) <= 2147483648 ->
  best_so_far t p passed best bestd ->
  exists k, nearest_loop t p nodes (Z.of_nat (length passed)) best bestd = inr k /\ nearest t p (passed ++ nodes) k.
Proof.
  revert passed best bestd. induction nodes as [|n nodes IH]; intros passed best bestd Hl Hlen Hb; cbn [nearest_loop].
  - exists best. rewrite app_nil_r. split; [done|apply Hb].
  - apply Forall_cons in Hl as [Hn Hl]. rewrite (distance_to_run t p n Hn). cbn [mbind result_bind].
    rewrite length_app in Hlen. cbn [length] in Hlen.
    replace (Z.of_nat (length passed) + 1) with (Z.of_nat (length (passed ++ [n]))) by (rewrite length_app; cbn; lia).
    rewrite i32_id by lia. replace (passed ++ n :: nodes) with ((passed ++ [n]) ++ nodes) by (by rewrite <-app_assoc).
    destruct (dleb (node_distance t p n) RANGE_M && dltb (node_distance t p n) bestd) eqn:E;
      apply IH; try done; try (rewrite !length_app; cbn; lia).
    + by eapply best_so_far_take.
    + by apply best_so_far_keep.
Qed.

Lemma nearest_in_range t p nodes k :
  nearest t p nodes k ->
  match nodes !! Z.to_nat k with
  | Some n => if 0 <=? k then in_range t p n = true else Forall (fun n => in_range t p n = false) nodes
  | None => Forall (fun n => in_range t p n = false) nodes
  end.
Proof.
  intros [[-> H]|(i & n & -> & Hi & Hr & _)]; [by destruct (nodes !! _)|].
  rewrite Nat2Z.id, Hi. by rewrite (proj2 (Z.leb_le 0 _)) by lia.
Qed.

Lemma chosen_in_range t p nodes active best :
  chosen t p nodes active best ->
  match nodes !! Z.to_nat best with
  | Some n => if 0 <=? best then in_range t p n = true else Forall (fun n => in_range t p n = false) nodes
  | None => Forall (fun n => in_range t p n = false) nodes
  end.
Proof.
  unfold chosen. destruct (nodes !! Z.to_nat active) as [n|] eqn:Hn; [|apply nearest_in_range].
  destruct ((0 <=? active) && in_range t p n) eqn:Hr; [|apply nearest_in_range].
  intros ->. apply andb_prop in Hr as [H0 Hr]. by rewrite Hn, H0.
Qed.

Lemma Pick_run t p nodes mobile active :
  Forall (located t) nodes -> Z.of_nat (length nodes) <= 2147483648 -> -1 <= active < Z.of_nat (length nodes) ->
  exists best, Pick t (mkHandover nodes mobile active) p = inr best /\ chosen t p nodes active best /\
    -1 <= best < Z.of_nat (length nodes).
Proof.
  intros Hl Hlen Ha.
  destruct (nearest_loop_run t p nodes [] (-1) FARTHEST Hl Hlen) as (k & E & Hk).
  { split; [left; by split|]. by destruct ([] !! Z.to_nat (-1)). }
  change (Z.of_nat (length [])) with 0 in E. cbn [app] in Hk.
  assert (-1 <= k < Z.of_nat (length nodes)) as Hkr.
  { destruct Hk as [[-> _]|(i & n & -> & Hi & _)]; [lia|apply lookup_lt_Some in Hi; lia]. }
  unfold Pick, chosen. cbn [ActiveAp BackboneNodes]. destruct (Z.leb_spec 0 active) as [H0|H0].
  - destruct (lookup_lt_is_Some_2 nodes (Z.to_nat active)) as [n Hn]; [lia|].
    unfold backbone_node. cbn [BackboneNodes]. rewrite Hn. cbn [deref mbind result_bind].
    rewrite distance_to_run by (rewrite Forall_lookup in Hl; exact (Hl _ _ Hn)). cbn [mbind result_bind mret result_ret].
    change (dleb (node_distance t p n) RANGE_M) with (in_range t p n). destruct (in_range t p n).
    + exists active. split; [done|]. by split.
    + exists k. split; [exact E|]. by split.
  - cbn [mbind result_bind mret result_ret]. exists k. split; [exact E|]. split; [|done].
    by destruct (nodes !! Z.to_nat active).
Qed.
End choice.

(** ** The callbacks *)
Inductive Call :=
| Assoc (mobile : nat) (newAp oldAp : Z)
| Deassoc (mobile : nat) (oldAp : Z).

(** What the calls [cs], one after the other, make of the scenario's own state. *)
Fixpoint calls_made {X} (L : X -> Call -> X -> Prop) (x : X) (cs : list Call) (x' : X) : Prop :=
  match cs with
  | [] => x' = x
  | c :: cs => exists y, L x c y /\ calls_made L y cs x'
  end.

Lemma calls_made_app {X} (L : X -> Call -> X -> Prop) x cs y cs' z :
  calls_made L x cs y -> calls_made L y cs' z -> calls_made L x (cs ++ cs') z.
Proof.
  revert x. induction cs as [|c cs IH]; intros x; cbn; [by intros ->|].
  intros (u & Hu & H) H'. exists u. split; [done|by apply IH].
Qed.

(** The calls of a step from [active] to [best]. *)
Definition step_calls (assoc deassoc : bool) (mobile : nat) (active best : Z) : list Call :=
  if best =? active then []
  else (if (0 <=? active) && deassoc then [Deassoc mobile active] else []) ++
       (if (0 <=? best) && assoc then [Assoc mobile best active] else []).

(** *** The steps in the event list *)
Definition is_step {E} (ev : Event (HandoverEvent E)) : bool :=
  match ev_impl ev with StepEvent _ => true | ScenarioEvent _ => false end.

Definition step_events {E} (s : Sim (HandoverEvent E)) : list (Event (HandoverEvent E)) :=
  List.filter is_step (m_events s).

(** One step is queued, for the time [ts]. *)
Definition one_step {E} (interval : double) (ts : Z) (s : Sim (HandoverEvent E)) : Prop :=
  exists uid, step_events s = [mkEvent ts uid (StepEvent interval) false].

(** The clock and the steps are as before. *)
Definition same_steps {E} (s s' : Sim (HandoverEvent E)) : Prop :=
  step_events s' = step_events s /\ m_currentTs s' = m_currentTs s.

Section steps.
Context {E : Type}.
Implicit Types (s : Sim (HandoverEvent E)).

Lemma step_events_insert ev (l : list (Event (HandoverEvent E))) :
  List.filter is_step (map_insert ev l) ≡ₚ (if is_step ev then [ev] else []) ++ List.filter is_step l.
Proof.
  induction l as [|e l IH]; cbn [map_insert].
  - cbn. by destruct (is_step ev).
  - destruct (event_ltb e ev); cbn; [|by destruct (is_step ev)].
    destruct (is_step e); rewrite IH; [|done]. destruct (is_step ev); cbn; [apply Permutation_swap|done].
Qed.

Lemma other_events_insert ev (l : list (Event (HandoverEvent E))) :
  is_step ev = false -> List.filter is_step (map_insert ev l) = List.filter is_step l.
Proof.
  intros Hev. induction l as [|e l IH]; cbn [map_insert].
  - cbn. by rewrite Hev.
  - destruct (event_ltb e ev); cbn; [by destruct (is_step e); rewrite IH|by rewrite Hev].
Qed.

Lemma Schedule_step d interval s :
  step_events s = [] -> one_step interval (u64 (i64 (d + m_currentTs s))) (Schedule d (StepEvent interval) s).1.
Proof.
  intros H. unfold step_events, one_step, Schedule in *. cbn [fst m_events].
  pose proof (step_events_insert (mkEvent (u64 (i64 (d + m_currentTs s))) (m_uid s) (StepEvent interval) false)
    (m_events s)) as Hp. rewrite H in Hp. cbn [is_step ev_impl app] in Hp. apply Permutation_singleton_r in Hp. eauto.
Qed.

Lemma Schedule_other d (e : E) s : step_events (Schedule d (ScenarioEvent e) s).1 = step_events s.
Proof. unfold step_events, Schedule. cbn [fst m_events]. by apply other_events_insert. Qed.
End steps.

(** ** The handover in its world *)
Section handover.
Context {R X E : Type} `{!UniformStreams R} {MO : Mobility}.
Abbreviation world := (HandoverWorld R X E).

(** What the rest of the scenario leaves alone: the links but for their random numbers,
    the handover's own state, the clock and the step. *)
Definition leaves (w w' : world) : Prop :=
  settings (h_net w') = settings (h_net w) /\ h_state w' = h_state w /\
  same_steps (h_sim w) (h_sim w').

#[global] Instance leaves_preorder : PreOrder leaves.
Proof.
  split; [by intros w|]. intros w1 w2 w3 (A1 & A2 & A3 & A4) (B1 & B2 & B3 & B4).
  split; [|split; [|split]]; congruence.
Qed.

(** A callback returns, leaves the handover alone, and does [L] with the call. *)
Definition makes_call (L : X -> Call -> X -> Prop) (c : Call) (m : M world unit) : Prop :=
  forall w, exists w', m w = (w', inr tt) /\ leaves w w' /\ L (h_scenario w) c (h_scenario w').

Definition callbacks_ok (L : X -> Call -> X -> Prop) (assocCb : option (nat -> Z -> Z -> M world unit))
    (deassocCb : option (nat -> Z -> M world unit)) : Prop :=
  (forall cb, assocCb = Some cb -> forall m new old, makes_call L (Assoc m new old) (cb m new old)) /\
  (forall cb, deassocCb = Some cb -> forall m old, makes_call L (Deassoc m old) (cb m old)).

(** The links of [mobile] are as for the active node [active]. *)
Record links_ok (mobile : nat) (aps : list nat) (ends : list (nat * nat)) (active : Z) (w : world) : Prop := {
  lk_wired : wired (settings (h_net w)) mobile aps ends;
  lk_links i e : ends !! i = Some e -> link_is (bool_decide (Z.of_nat i = active)) (settings (h_net w)) e
}.

Lemma links_ok_leaves mobile aps ends active w w' :
  leaves w w' -> links_ok mobile aps ends active w -> links_ok mobile aps ends active w'.
Proof. intros (H & _ & _) [H1 H2]. by split; rewrite H. Qed.

(** A step by itself changes nothing but the network. *)
Definition net_only (w w' : world) : Prop :=
  h_state w' = h_state w /\ h_sim w' = h_sim w /\ h_scenario w' = h_scenario w.

Context (L : X -> Call -> X -> Prop) (mobile : nat) (aps : list nat) (ends : list (nat * nat)).
Context (assocCb : option (nat -> Z -> Z -> M world unit)) (deassocCb : option (nat -> Z -> M world unit)).
Hypothesis Hcb : callbacks_ok L assocCb deassocCb.

Lemma on_network_run f (w : world) net' :
  f (h_net w) = inr net' -> on_network f w = (w <| h_net := net' |>, inr tt).
Proof. intros H. unfold on_network. rewrite run_gets, H. done. Qed.

Lemma links_ok_ends active w : links_ok mobile aps ends active w -> length ends = length aps.
Proof. intros [[_ H _ _ _] _]. symmetry. by eapply Forall2_length. Qed.

Lemma link_run (w : world) i a (up : bool) :
  wired (settings (h_net w)) mobile aps ends -> aps !! i = Some a ->
  exists net', (if up then UpP2PLink mobile a (h_net w) else FailP2PLink mobile a (h_net w)) = inr net' /\
    forall (f : nat -> bool),
      (forall j e, ends !! j = Some e -> j <> i -> link_is (f j) (settings (h_net w)) e) -> f i = up ->
      wired (settings net') mobile aps ends /\
      forall j e, ends !! j = Some e -> link_is (f j) (settings net') e.
Proof.
  intros Hw Hi. destruct (P2PLink_run (h_net w) mobile aps ends i a up Hw Hi) as (e & net' & He & E1 & Hw' & Hl & Hk).
  exists net'. split; [done|]. intros f Hf Hi'. split; [done|]. intros j e' Hj.
  destruct (decide (j = i)) as [->|Hne]; [|by eapply Hk; [..|by eapply Hf]].
  rewrite He in Hj. injection Hj as <-. by rewrite Hi'.
Qed.

Lemma optional_call {A} (cb : option A) (call : A -> M world unit) (c : Call) (w : world) :
  (forall f, cb = Some f -> makes_call L c (call f)) ->
  exists w', (match cb with Some f => call f | None => mret tt end) w = (w', inr tt) /\ leaves w w' /\
    calls_made L (h_scenario w) (if bool_decide (is_Some cb) then [c] else []) (h_scenario w').
Proof.
  intros H. destruct cb as [f|].
  - destruct (H f eq_refl w) as (w' & E1 & Hl & HL). exists w'. split; [done|]. split; [done|].
    rewrite bool_decide_true by by eexists. cbn. eauto.
  - exists w. split; [done|]. split; [done|]. by rewrite bool_decide_false by by intros [].
Qed.

(** Joining [best] when all links are down, and leaving the active node. *)
Lemma attach_run (w : world) best oldAp active :
  h_state w = mkHandover aps (Some mobile) active -> 0 <= best < Z.of_nat (length aps) ->
  links_ok mobile aps ends (-1) w ->
  exists w', attach assocCb best oldAp w = (w', inr tt) /\ h_state w' = h_state w /\
    same_steps (h_sim w) (h_sim w') /\ links_ok mobile aps ends best w' /\
    calls_made L (h_scenario w) (if bool_decide (is_Some assocCb) then [Assoc mobile best oldAp] else []) (h_scenario w').
Proof.
  intros Hst Hb [Hw Hl]. destruct (lookup_lt_is_Some_2 aps (Z.to_nat best)) as [a Ha]; [lia|].
  destruct (wired_search _ _ _ _ _ _ Hw Ha) as (e & He & Hsearch). rewrite link_to_settings in Hsearch.
  destruct (link_run w (Z.to_nat best) a true Hw Ha) as (net' & Eup & Hup).
  destruct (Hup (fun j => bool_decide (Z.of_nat j = best))) as [Hw' Hl'].
  { intros j e' Hj Hne. rewrite bool_decide_false by lia. specialize (Hl j e' Hj).
    by rewrite bool_decide_false in Hl by lia. }
  { rewrite bool_decide_true; [done|lia]. }
  destruct (optional_call assocCb (fun cb => cb mobile best oldAp) (Assoc mobile best oldAp) (w <| h_net := net' |>))
    as (w' & Ecb & Hlv & Hcalls); [intros f Hf; by apply (proj1 Hcb)|].
  exists w'. unfold attach. rewrite run_gets, Hst. unfold mobile_node, backbone_node. cbn [MobileNode BackboneNodes deref].
  rewrite run_lift_inr, Ha. cbn [deref]. rewrite run_lift_inr, run_gets, Hsearch, run_lift_inr.
  rewrite (run_seq _ _ _ _ _ (on_network_run _ w net' Eup)). split; [exact Ecb|].
  destruct Hlv as (L1 & L2 & L3). cbn in L1, L2, L3. split_and!; [congruence|done| |exact Hcalls].
  apply (links_ok_leaves mobile aps ends best (w <| h_net := net' |>)); [by split|]. by split.
Qed.

Lemma detach_run (w : world) active :
  h_state w = mkHandover aps (Some mobile) active -> 0 <= active < Z.of_nat (length aps) ->
  links_ok mobile aps ends active w ->
  exists w', detach deassocCb active w = (w', inr tt) /\ h_state w' = h_state w /\
    same_steps (h_sim w) (h_sim w') /\ links_ok mobile aps ends (-1) w' /\
    calls_made L (h_scenario w) (if bool_decide (is_Some deassocCb) then [Deassoc mobile active] else []) (h_scenario w').
Proof.
  intros Hst Hb [Hw Hl]. destruct (lookup_lt_is_Some_2 aps (Z.to_nat active)) as [a Ha]; [lia|].
  destruct (link_run w (Z.to_nat active) a false Hw Ha) as (net' & Eup & Hup).
  destruct (Hup (fun j => bool_decide (Z.of_nat j = -1))) as [Hw' Hl'].
  { intros j e' Hj Hne. rewrite bool_decide_false by lia. specialize (Hl j e' Hj).
    by rewrite bool_decide_false in Hl by lia. }
  { rewrite bool_decide_false; [done|lia]. }
  destruct (optional_call deassocCb (fun cb => cb mobile active) (Deassoc mobile active) (w <| h_net := net' |>))
    as (w' & Ecb & Hlv & Hcalls); [intros f Hf; by apply (proj2 Hcb)|].
  exists w'. unfold detach. rewrite run_gets, Hst. unfold mobile_node, backbone_node. cbn [MobileNode BackboneNodes deref].
  rewrite run_lift_inr, Ha. cbn [deref]. rewrite run_lift_inr.
  rewrite (run_seq _ _ _ _ _ (on_network_run _ w net' Eup)). split; [exact Ecb|].
  destruct Hlv as (L1 & L2 & L3). cbn in L1, L2, L3. split_and!; [congruence|done| |exact Hcalls].
  apply (links_ok_leaves mobile aps ends (-1) (w <| h_net := net' |>)); [by split|]. by split.
Qed.

(** A step. *)
Definition handover_ok (active : Z) (w : world) : Prop :=
  h_state w = mkHandover aps (Some mobile) active /\ -1 <= active < Z.of_nat (length aps) /\
  links_ok mobile aps ends active w.

Lemma schedule_step_run (delay interval : double) d (w : world) :
  Seconds delay = Some d -> step_events (h_sim w) = [] ->
  exists w', schedule_step delay interval w = (w', inr tt) /\ h_net w' = h_net w /\ h_state w' = h_state w /\
    h_scenario w' = h_scenario w /\ one_step interval (u64 (i64 (d + m_currentTs (h_sim w)))) (h_sim w').
Proof.
  intros Hd Hs. unfold schedule_step. rewrite Hd. eexists. split; [reflexivity|]. split_and!; [done..|].
  by apply Schedule_step.
Qed.

Lemma move_run (w : world) active best :
  handover_ok active w -> -1 <= best < Z.of_nat (length aps) ->
  exists w', (if best =? active then mret tt
     else
       (if 0 <=? active then detach deassocCb active else mret tt);;
       (if 0 <=? best then attach assocCb best active else mret tt);;
       modify (fun w => w <| h_state ::= fun h => h <| ActiveAp := best |> |>)) w = (w', inr tt) /\
    handover_ok best w' /\ same_steps (h_sim w) (h_sim w') /\
    calls_made L (h_scenario w)
      (step_calls (bool_decide (is_Some assocCb)) (bool_decide (is_Some deassocCb)) mobile active best) (h_scenario w').
Proof.
  intros (Hst & Ha & Hl) Hb. unfold step_calls. destruct (Z.eqb_spec best active) as [->|Hne].
  { exists w. split; [done|]. split; [exact (conj Hst (conj Ha Hl))|]. split; [by split|done]. }
  assert (exists w1, (if 0 <=? active then detach deassocCb active else mret tt) w = (w1, inr tt) /\
    h_state w1 = h_state w /\ same_steps (h_sim w) (h_sim w1) /\ links_ok mobile aps ends (-1) w1 /\
    calls_made L (h_scenario w)
      (if (0 <=? active) && bool_decide (is_Some deassocCb) then [Deassoc mobile active] else []) (h_scenario w1))
    as (w1 & R1 & S1 & T1 & L1 & C1).
  { destruct (Z.leb_spec 0 active); [apply detach_run; [done|lia|done]|].
    exists w. split; [done|]. split; [done|]. split; [by split|]. split; [|done]. by replace (-1) with active by lia. }
  assert (exists w2, (if 0 <=? best then attach assocCb best active else mret tt) w1 = (w2, inr tt) /\
    h_state w2 = h_state w1 /\ same_steps (h_sim w1) (h_sim w2) /\ links_ok mobile aps ends best w2 /\
    calls_made L (h_scenario w1)
      (if (0 <=? best) && bool_decide (is_Some assocCb) then [Assoc mobile best active] else []) (h_scenario w2))
    as (w2 & R2 & S2 & T2 & L2 & C2).
  { destruct (Z.leb_spec 0 best); [eapply attach_run; [by rewrite S1|lia|done]|].
    exists w1. split; [done|]. split; [done|]. split; [by split|]. split; [|done]. by replace best with (-1) by lia. }
  exists (w2 <| h_state ::= fun h => h <| ActiveAp := best |> |>).
  rewrite (run_seq _ _ _ _ _ R1), (run_seq _ _ _ _ _ R2). split; [done|]. split; [|split].
  - split; [|split; [done|]]; [cbn; by rewrite S2, S1, Hst|]. by destruct L2 as [M1 M2]; split.
  - destruct T1, T2. split; cbn; congruence.
  - by eapply calls_made_app.
Qed.

Lemma Step_run (w : world) active interval d p :
  handover_ok active w -> step_events (h_sim w) = [] -> Seconds interval = Some d ->
  Z.of_nat (length aps) <= 2147483648 ->
  mobility_position (m_currentTs (h_sim w)) mobile = Some p -> Forall (located (m_currentTs (h_sim w))) aps ->
  exists w' best, Step assocCb deassocCb interval w = (w', inr tt) /\
    chosen (m_currentTs (h_sim w)) p aps active best /\ handover_ok best w' /\
    one_step interval (u64 (i64 (d + m_currentTs (h_sim w)))) (h_sim w') /\
    calls_made L (h_scenario w)
      (step_calls (bool_decide (is_Some assocCb)) (bool_decide (is_Some deassocCb)) mobile active best) (h_scenario w').
Proof.
  intros Hok Hs Hd Hlen Hp Hl. pose proof Hok as (Hst & Ha & _).
  destruct (Pick_run _ p aps (Some mobile) active Hl Hlen Ha) as (best & Hpick & Hch & Hb).
  destruct (move_run w active best Hok Hb) as (w1 & R1 & H1 & [T1 T2] & C1).
  destruct (schedule_step_run interval interval d w1 Hd) as (w2 & R2 & N2 & S2 & X2 & O2); [by rewrite T1|].
  exists w2, best. split.
  - unfold Step. rewrite !run_gets, Hst. cbn [mobile_node MobileNode deref]. rewrite run_lift_inr.
    unfold GetPosition. rewrite Hp. cbn [deref]. rewrite run_lift_inr, Hpick, run_lift_inr.
    cbn [ActiveAp]. rewrite (run_seq _ _ _ _ _ R1). exact R2.
  - destruct H1 as (A1 & A2 & [A3 A4]). split; [done|]. split; [|split].
    + split; [by rewrite S2|]. split; [done|]. split; [by rewrite N2|]. rewrite N2. exact A4.
    + by rewrite T2 in O2.
    + by rewrite X2.
Qed.

(** *** From the links to the first step *)
Lemma Install_loop rest (w : world) passed ends0 :
  wired (settings (h_net w)) mobile passed ends0 -> NoDup (passed ++ rest) -> mobile ∉ rest ->
  Forall (fun a => (a < length (nw_nodes (h_net w)))%nat) rest ->
  exists net' ends1, for_each rest (fun n => on_network (PointToPointHelper_Install mobile n)) w =
      (w <| h_net := net' |>, inr tt) /\ wired (settings net') mobile (passed ++ rest) ends1.
Proof.
  revert w passed ends0. induction rest as [|b rest IH]; intros w passed ends0 Hw Hnd Hm Hlen.
  { exists (h_net w), ends0. rewrite app_nil_r. split; [by destruct w|done]. }
  apply Forall_cons in Hlen as [Hb Hlen]. apply not_elem_of_cons in Hm as [Hmb Hm].
  destruct (lookup_lt_is_Some_2 _ _ Hb) as [db Hdb].
  assert (b ∉ passed) as Hbp.
  { intros Hin. apply NoDup_app in Hnd as (_ & Hnd & _). apply (Hnd b Hin). by left. }
  pose proof (Install_run (h_net w) mobile b _ db Hmb (wi_devices _ _ _ _ Hw) Hdb) as Hi.
  pose proof (linked_wired (settings (h_net w)) mobile passed ends0 b db Hw Hdb (not_eq_sym Hmb) Hbp) as Hw'.
  rewrite <-settings_linked in Hw'. cbv zeta in Hw'.
  destruct (IH (w <| h_net := linked_network (h_net w) mobile b ends0.*1 db |>) (passed ++ [b])
    (ends0 ++ [(length (nw_devices (settings (h_net w))), S (length (nw_devices (settings (h_net w)))))]))
    as (net' & ends1 & E1 & H1); [exact Hw'|by rewrite <-app_assoc|done| |].
  { eapply Forall_impl; [exact Hlen|]. intros a Ha. cbn. by rewrite !length_insert. }
  exists net', ends1. split; [|by rewrite <-app_assoc in H1].
  cbn [for_each]. by rewrite (run_seq _ _ _ _ _ (on_network_run _ w _ Hi)).
Qed.

Lemma CreateLinks_run (w : world) :
  nw_nodes (h_net w) !! mobile = Some [] -> NoDup aps -> mobile ∉ aps ->
  Forall (fun a => (a < length (nw_nodes (h_net w)))%nat) aps ->
  exists net' ends1, wired (settings net') mobile aps ends1 /\
    CreateLinks mobile aps w =
      (w <| h_state ::= fun h => mkHandover aps (Some mobile) (ActiveAp h) |> <| h_net := net' |>, inr tt).
Proof.
  intros Hm Hnd Hnin Hlen.
  destruct (Install_loop aps (w <| h_state ::= fun h => mkHandover aps (Some mobile) (ActiveAp h) |>) [] [])
    as (net' & ends1 & E1 & H1); [split; [exact Hm|apply Forall2_nil_2|constructor|apply not_elem_of_nil|constructor]|done..|].
  exists net', ends1. split; [done|]. unfold CreateLinks. rewrite run_modify. exact E1.
Qed.

Lemma Fail_loop rest h (w : world) k :
  MobileNode h = Some mobile -> wired (settings (h_net w)) mobile aps ends -> drop k aps = rest ->
  (forall j e, ends !! j = Some e -> (j < k)%nat -> link_is false (settings (h_net w)) e) ->
  exists net', for_each rest (fun n => mobile ← lift_result (mobile_node h);
      on_network (FailP2PLink mobile n)) w = (w <| h_net := net' |>, inr tt) /\
    wired (settings net') mobile aps ends /\ forall j e, ends !! j = Some e -> link_is false (settings net') e.
Proof.
  intros Hm. revert w k. induction rest as [|a rest IH]; intros w k Hw Hk Hd.
  - exists (h_net w). split; [by destruct w|]. split; [done|]. intros j e Hj. apply (Hd j); [done|].
    pose proof (f_equal length Hk) as Hlen. rewrite length_drop in Hlen. cbn in Hlen.
    apply lookup_lt_Some in Hj. rewrite <-(Forall2_length _ _ _ (wi_wires _ _ _ _ Hw)) in Hj. lia.
  - assert (aps !! k = Some a) as Ha by (rewrite <-(Nat.add_0_r k), <-lookup_drop, Hk; done).
    destruct (P2PLink_run (h_net w) mobile aps ends k a false Hw Ha) as (e & net1 & He & E1 & Hw1 & Hl & Hkeep).
    destruct (IH (w <| h_net := net1 |>) (S k)) as (net2 & E2 & H2); [exact Hw1| | |].
    + rewrite <-Nat.add_1_r, <-drop_drop, Hk. done.
    + intros j e' Hj Hjk. destruct (decide (j = k)) as [->|Hne].
      * rewrite He in Hj. by injection Hj as <-.
      * eapply Hkeep; [done|done|]. apply (Hd j); [done|lia].
    + exists net2. split; [|exact H2]. cbn [for_each].
      assert ((mobile ← lift_result (mobile_node h); on_network (FailP2PLink mobile a)) w = (w <| h_net := net1 |>, inr tt)) as Eb.
      { unfold mobile_node. rewrite Hm. cbn [deref]. rewrite run_lift_inr. apply on_network_run, E1. }
      rewrite (run_seq _ _ _ _ _ Eb). exact E2.
Qed.

Lemma Setup_run interval (w : world) active :
  h_state w = mkHandover aps (Some mobile) active -> wired (settings (h_net w)) mobile aps ends ->
  step_events (h_sim w) = [] ->
  exists w' ts, Setup interval w = (w', inr tt) /\ handover_ok (-1) w' /\ one_step interval ts (h_sim w').
Proof.
  intros Hst Hw Hs. destruct (Fail_loop aps (h_state w) w 0) as (net1 & E1 & Hw1 & Hl1);
    [by rewrite Hst|done|done|intros; lia|].
  set (w1 := (w <| h_net := net1 |>) <| h_state ::= fun h => h <| ActiveAp := -1 |> |>).
  destruct (schedule_step_run (ddiv (double_of_Z 2) (double_of_Z 10)) interval 200000000 w1)
    as (w2 & E2 & N2 & S2 & _ & O2); [vm_compute; reflexivity|done|].
  eexists w2, _. split; [|split; [|exact O2]].
  - unfold Setup. rewrite run_gets. rewrite Hst at 1. cbn [BackboneNodes]. rewrite (run_seq _ _ _ _ _ E1), run_modify. exact E2.
  - split; [rewrite S2; cbn; by rewrite Hst|]. split; [lia|]. split; [by rewrite N2|]. intros i e Hi. rewrite N2.
    rewrite bool_decide_false by lia. by apply (Hl1 i).
Qed.

(** *** Every state the run reaches *)
Section run.
Context (scenario : E -> M world unit) (interval : double) (d : Z).
Hypothesis Hscenario : forall e, respects leaves (scenario e).
Hypothesis Hlen : Z.of_nat (length aps) <= 2147483648.
Hypothesis Hlocated : forall t, located t mobile /\ Forall (located t) aps.
Hypothesis Hd : Seconds interval = Some d.

Definition handover_inv (w : world) : Prop :=
  exists active ts, handover_ok active w /\ one_step interval ts (h_sim w).

Lemma handover_ok_leaves active w w' : leaves w w' -> handover_ok active w -> handover_ok active w'.
Proof.
  intros Hl (H1 & H2 & H3). pose proof Hl as (_ & Hs & _). split; [by rewrite Hs|]. split; [done|].
  by eapply links_ok_leaves.
Qed.

Lemma handover_inv_event : preserves handover_inv (ProcessOneEvent (handover_dispatch assocCb deassocCb scenario)).
Proof.
  intros w (active & ts & Hok & uid & Hstep). unfold ProcessOneEvent. rewrite run_gets. cbn [view lens_h_sim].
  unfold RemoveNext. unfold step_events in Hstep. destruct (m_events (h_sim w)) as [|ev l] eqn:El; [done|].
  cbn [List.filter] in Hstep. rewrite run_modify. cbn [put lens_h_sim].
  set (w1 := w <| h_sim := mkSim (key_ts ev) (key_uid ev) (m_uid (h_sim w)) l (m_stop (h_sim w)) |>).
  assert (handover_ok active w1) as Hok1 by (destruct Hok as (A1 & A2 & [A3 A4]); split; [done|split; [done|by split]]).
  destruct (is_step ev) eqn:Eev.
  - injection Hstep as -> Hno. cbn [ev_cancel ev_impl].
    destruct (Hlocated (m_currentTs (h_sim w1))) as [[p Hp] Hl].
    destruct (Step_run w1 active interval d p Hok1 Hno Hd Hlen Hp Hl) as (w2 & best & E2 & _ & Hok2 & Hone & _).
    cbn [handover_dispatch]. rewrite E2. exists best. eexists. by split.
  - assert (one_step interval ts (h_sim w1)) as Hone by (by exists uid).
    destruct (ev_cancel ev); [by exists active, ts|].
    unfold is_step in Eev. destruct (ev_impl ev) as [|e]; [done|]. cbn [handover_dispatch].
    pose proof (Hscenario e w1) as Hl. exists active, ts. split; [by eapply handover_ok_leaves|].
    destruct Hl as (_ & _ & Hs & _). destruct Hone as [uid' Hone]. exists uid'. by rewrite Hs.
Qed.

Lemma handover_inv_run fuel : preserves handover_inv (Run (handover_dispatch assocCb deassocCb scenario) fuel).
Proof.
  unfold Run. apply preserves_bind.
  - apply preserves_modify. intros w (active & ts & (A1 & A2 & [A3 A4]) & Hone). exists active, ts.
    split; [split; [done|split; [done|by split]]|done].
  - intros _. induction fuel as [|fuel IH]; cbn [Run_loop]; [apply preserves_ret|].
    apply preserves_bind; [apply preserves_gets|]. intros s. destruct (IsFinished s); [apply preserves_ret|].
    apply preserves_bind; [apply handover_inv_event|done].
Qed.
End run.
End handover.

(** ** Packets *)
Section packets.
Context {R : Type} {US : UniformStreams R} {UB : UniformBelowOne R} {SP : StdPow}.

Lemma IsCorrupt_forget size (m : RateErrorModel R) : forget_model (IsCorrupt size m).1 = forget_model m.
Proof.
  unfold IsCorrupt, DoCorruptPkt, DoCorruptByte, DoCorruptBit, draw_below.
  destruct m as [[] [] ra rv]; cbn [m_enable m_unit m_ranvar m_rate negb]; try done;
    by destruct (uv_GetValue dzero done_ rv).
Qed.

(** A packet that arrives changes nothing but random numbers. *)
Lemma Receive_settings (net net' : Network R) x size b :
  Receive x size net = inr (net', b) -> settings net' = settings net.
Proof.
  unfold Receive, get_device. destruct (nw_devices net !! x) as [[[n ch [m|]]|]|] eqn:H; cbn; try done; [|by intros [= <- _]].
  pose proof (IsCorrupt_forget size m) as Hm. destruct (IsCorrupt size m) as [m' c]. cbn [fst] in Hm.
  unfold SetReceiveErrorModel, get_device. rewrite H. cbn. intros [= <- _]. unfold settings. cbn. f_equal.
  rewrite list_fmap_insert, list_insert_id; [done|]. rewrite list_lookup_fmap, H. cbn. by rewrite Hm.
Qed.

Lemma Receive_run (net : Network R) x n ch up size :
  device_is (settings net) x n ch (Some (model_of up)) ->
  exists net', Receive x size net = inr (net', up) /\ settings net' = settings net.
Proof.
  intros H. assert (exists net', Receive x size net = inr (net', up)) as [net' E1];
    [|exists net'; split; [done|by eapply Receive_settings]].
  apply settings_device_inv in H as (m & H & Hm). destruct m as [m|]; [|done].
  injection Hm as Hm. unfold Receive, get_device. rewrite H. cbn [deref mbind result_bind m_receiveErrorModel].
  assert ((IsCorrupt size m).2 = negb up) as Hc.
  { unfold IsCorrupt. destruct m as [en un ra rv]. destruct up; injection Hm as -> -> ->; [done|].
    unfold DoCorruptPkt, draw_below. cbn [m_enable m_unit m_ranvar m_rate negb]. pose proof (below_one rv) as Hb.
    by destruct (uv_GetValue dzero done_ rv) as [r v]. }
  destruct (IsCorrupt size m) as [m' c]. cbn [snd] in Hc. subst c. cbv beta iota.
  unfold SetReceiveErrorModel, get_device. rewrite H. cbn. rewrite negb_involutive. by eexists.
Qed.

(** Every packet that arrives at an end of the link between [mobile] and [a] is handed on
    if [up], and lost otherwise. *)
Definition link_carries (mobile a : nat) (net : Network R) (up : bool) : Prop :=
  exists d r, link_to mobile a net = inr (Some (d, r)) /\
    forall x size, x = d \/ x = r -> exists net', Receive x size net = inr (net', up) /\ settings net' = settings net.

Lemma link_is_carries (net : Network R) mobile aps ends i a e up :
  wired (settings net) mobile aps ends -> aps !! i = Some a -> ends !! i = Some e -> link_is up (settings net) e ->
  link_carries mobile a net up.
Proof.
  intros Hw Hi He [(n1 & c1 & D1) (n2 & c2 & D2)].
  destruct (wired_search _ _ _ _ _ _ Hw Hi) as ([d r] & He' & Hs). rewrite link_to_settings in Hs.
  rewrite He in He'. injection He' as ->. exists d, r. split; [done|].
  by intros x size [->| ->]; eapply Receive_run.
Qed.

Lemma links_carry {X E} mobile aps ends active (w : HandoverWorld R X E) i a :
  links_ok mobile aps ends active w -> aps !! i = Some a ->
  link_carries mobile a (h_net w) (bool_decide (Z.of_nat i = active)).
Proof.
  intros [Hw Hl] Hi. destruct (wired_search _ _ _ _ _ _ Hw Hi) as (e & He & _).
  by eapply link_is_carries; [..|apply Hl].
Qed.
End packets.

(** ** Properties *)

(** C16: after [CreateLinks] and [Setup], in every state the simulation reaches, the link to
    the active access node carries every packet in both directions, every other link
    of the mobile loses every packet, the active node is one of the access nodes or none,
    and exactly one step is waiting in the event list; whatever the scenario's callbacks
    and events do, as long as they leave the links and the step alone. *)
Theorem handover_consistent {R X E} {US : UniformStreams R} {UB : UniformBelowOne R} {SP : StdPow} {MO : Mobility}
    (L : X -> Call -> X -> Prop) assocCb deassocCb (scenario : E -> M (HandoverWorld R X E) unit)
    mobile aps interval d (w0 : HandoverWorld R X E) :
  callbacks_ok L assocCb deassocCb -> (forall e, respects leaves (scenario e)) ->
  nw_nodes (h_net w0) !! mobile = Some [] -> NoDup aps -> mobile ∉ aps ->
  Forall (fun a => (a < length (nw_nodes (h_net w0)))%nat) aps -> Z.of_nat (length aps) <= 2147483648 ->
  (forall t, located t mobile /\ Forall (located t) aps) ->
  Seconds interval = Some d -> step_events (h_sim w0) = [] ->
  exists w1, CreateLinks mobile aps w0 = (w1, inr tt) /\
    forall w2, leaves w1 w2 -> exists w3, Setup interval w2 = (w3, inr tt) /\
      forall fuel, let w := (Run (handover_dispatch assocCb deassocCb scenario) fuel w3).1 in
        -1 <= ActiveAp (h_state w) < Z.of_nat (length aps) /\
        (exists ts, one_step interval ts (h_sim w)) /\
        forall i a, aps !! i = Some a ->
          link_carries mobile a (h_net w) (bool_decide (Z.of_nat i = ActiveAp (h_state w))).
Proof.
  intros Hcb Hsc Hm Hnd Hnin Hval Hlen Hloc Hd Hs.
  destruct (CreateLinks_run mobile aps w0 Hm Hnd Hnin Hval) as (net1 & ends & Hw1 & E1).
  eexists. split; [exact E1|]. intros w2 (L1 & L2 & L3 & _). cbn in L1, L2, L3.
  destruct (Setup_run mobile aps ends interval w2 (ActiveAp (h_state w0))) as (w3 & ts & E3 & Hok & Hone);
    [done|by rewrite L1|by rewrite L3|].
  exists w3. split; [done|]. intros fuel w.
  destruct (handover_inv_run L mobile aps ends assocCb deassocCb Hcb scenario interval d Hsc Hlen Hloc Hd fuel w3)
    as (active & ts' & (A1 & A2 & A3) & Hone'); [by exists (-1), ts|].
  fold w in A1, A3, Hone'. rewrite A1. cbn [ActiveAp]. split; [done|]. split; [by exists ts'|].
  intros i a Hi. by eapply links_carry.
Qed.

(** C17: what a step does.  It keeps the active node while it is in range, and otherwise
    takes the nearest node in range, the first among equals, or none: so afterwards
    the active node is in range, or no node is.  If the choice differs, the
    callback for the old node is called first, then the one for the new node, each
    with its link already set; and the next step is queued one interval later. *)
Theorem step_follows_mobile {R X E} {US : UniformStreams R} {MO : Mobility}
    (L : X -> Call -> X -> Prop) assocCb deassocCb mobile aps ends active interval d p
    (w : HandoverWorld R X E) :
  callbacks_ok L assocCb deassocCb -> handover_ok mobile aps ends active w ->
  step_events (h_sim w) = [] -> Seconds interval = Some d -> Z.of_nat (length aps) <= 2147483648 ->
  let t := m_currentTs (h_sim w) in
  mobility_position t mobile = Some p -> Forall (located t) aps ->
  exists w' best, Step assocCb deassocCb interval w = (w', inr tt) /\
    handover_ok mobile aps ends best w' /\ one_step interval (u64 (i64 (d + t))) (h_sim w') /\
    chosen t p aps active best /\
    match aps !! Z.to_nat best with
    | Some n => if 0 <=? best then in_range t p n = true else Forall (fun n => in_range t p n = false) aps
    | None => Forall (fun n => in_range t p n = false) aps
    end /\
    calls_made L (h_scenario w)
      (step_calls (bool_decide (is_Some assocCb)) (bool_decide (is_Some deassocCb)) mobile active best) (h_scenario w').
Proof.
  intros Hcb Hok Hs Hd Hlen t Hp Hl.
  destruct (Step_run L mobile aps ends assocCb deassocCb Hcb w active interval d p Hok Hs Hd Hlen Hp Hl)
    as (w' & best & E1 & Hch & Hok' & Hone & Hcalls).
  exists w', best. split_and!; [done..| |done]. by apply (chosen_in_range t p aps active best).
Qed.

(** ** Examples *)

(** Node 0 moves along the x axis with 100 m/s and passes node 1, at 0 m, and node 2, at 150 m. *)
Definition demo_mobility : Mobility := fun t n =>
  Some (mkVector (double_of_Z (match n with O => t / 10000000 | 1%nat => 0 | _ => 150 end)) dzero dzero).
Definition demo_draws : UniformStreams Z := {|
  uv_create := fun s => s;
  uv_SetStream := fun s _ => s;
  uv_GetValue := fun _ _ r => (r + 1, ddiv done_ (double_of_Z 2))
|}.
#[local] Existing Instances demo_mobility demo_draws.
#[local] Instance demo_below : UniformBelowOne Z.
Proof. intros r. vm_compute. reflexivity. Qed.
#[local] Instance demo_pow : StdPow := fun x _ => x.

Abbreviation demo_world := (HandoverWorld Z (list Call) Z).

(** Callbacks that keep a log, the one for a new node also schedules the arrival of a packet. *)
Definition demo_assoc (m : nat) (new old : Z) : M demo_world unit :=
  modify (fun w => w <| h_scenario ::= fun l => l ++ [Assoc m new old] |>
                     <| h_sim ::= fun s => (Schedule 1000 (ScenarioEvent 100) s).1 |>).
Definition demo_deassoc (m : nat) (old : Z) : M demo_world unit :=
  modify (fun w => w <| h_scenario ::= fun l => l ++ [Deassoc m old] |>).

(** A packet of [size] octets arrives at the mobile's first device. *)
Definition demo_packet (size : Z) : M demo_world unit :=
  modify (fun w => match Receive 0 size (h_net w) with inr (net, _) => w <| h_net := net |> | inl _ => w end).

Definition demo_start : demo_world :=
  mkHandoverWorld sim_init (mkNetwork [[]; []; []] [] [] 7) Handover_init [].
Definition demo_log (l : list Call) (c : Call) (l' : list Call) : Prop := l' = l ++ [c].

Lemma demo_callbacks : callbacks_ok demo_log (Some demo_assoc) (Some demo_deassoc).
Proof.
  split; intros cb [= <-]; intros; intros w; eexists; (split; [reflexivity|]); (split; [|done]).
  - split; [done|]. split; [done|]. split; [apply Schedule_other|done].
  - done.
Qed.

Lemma demo_scenario (size : Z) : respects leaves (demo_packet size).
Proof.
  intros w. unfold demo_packet. cbn. destruct (Receive 0 size (h_net w)) as [|[net b]] eqn:E1; [reflexivity|].
  split; [|done]. cbn. by eapply Receive_settings.
Qed.

Lemma handover_consistent_witness :
  exists w1 w3, CreateLinks 0 [1%nat; 2%nat] demo_start = (w1, inr tt) /\
    Setup (ddiv done_ (double_of_Z 2)) w1 = (w3, inr tt) /\
    let w := (Run (handover_dispatch (Some demo_assoc) (Some demo_deassoc) demo_packet) 6 w3).1 in
    ActiveAp (h_state w) = 1 /\ link_carries 0 1 (h_net w) false /\ link_carries 0 2 (h_net w) true.
Proof.
  destruct (handover_consistent (SP := demo_pow) demo_log (Some demo_assoc) (Some demo_deassoc) demo_packet 0 [1%nat; 2%nat]
    (ddiv done_ (double_of_Z 2)) 500000000 demo_start demo_callbacks demo_scenario eq_refl)
    as (w1 & E1 & H); [repeat constructor; set_solver|set_solver|repeat constructor|cbn; lia| |vm_compute; reflexivity|reflexivity|].
  { intros t. split; [by eexists|]. repeat constructor; by eexists. }
  destruct (H w1 ltac:(reflexivity)) as (w3 & E3 & H'). exists w1, w3. split; [exact E1|]. split; [exact E3|].
  destruct (H' 6%nat) as (_ & _ & Hl). cbv zeta in Hl |- *.
  assert (ActiveAp (h_state (Run (handover_dispatch (Some demo_assoc) (Some demo_deassoc) demo_packet) 6 w3).1) = 1) as Ha.
  { replace w3 with (Setup (ddiv done_ (double_of_Z 2)) w1).1 by (by rewrite E3).
    replace w1 with (CreateLinks 0 [1%nat; 2%nat] demo_start).1 by (by rewrite E1).
    vm_compute. reflexivity. }
  split; [exact Ha|]. rewrite Ha in Hl. split; [exact (Hl 0%nat 1%nat eq_refl)|exact (Hl 1%nat 2%nat eq_refl)].
Defined.

(** The state after [Setup], with nothing queued. *)
Definition demo_ready : demo_world :=
  (Setup (ddiv done_ (double_of_Z 2)) (CreateLinks 0 [1%nat; 2%nat] demo_start).1).1 <| h_sim := sim_init |>.

Lemma step_follows_mobile_witness :
  exists ends w', handover_ok 0 [1%nat; 2%nat] ends (-1) demo_ready /\
    Step (Some demo_assoc) (Some demo_deassoc) (ddiv done_ (double_of_Z 2)) demo_ready = (w', inr tt) /\
    handover_ok 0 [1%nat; 2%nat] ends 0 w' /\ h_scenario w' = [Assoc 0 0 (-1)].
Proof.
  destruct (CreateLinks_run 0 [1%nat; 2%nat] demo_start eq_refl) as (net1 & ends & Hw1 & E1);
    [repeat constructor; set_solver|set_solver|repeat constructor|].
  destruct (Setup_run 0 [1%nat; 2%nat] ends (ddiv done_ (double_of_Z 2)) (CreateLinks 0 [1%nat; 2%nat] demo_start).1 (-1))
    as (w3 & ts & E3 & (A1 & A2 & [A3 A4]) & _); [by rewrite E1|by rewrite E1|by rewrite E1|].
  assert (handover_ok 0 [1%nat; 2%nat] ends (-1) demo_ready) as Hok.
  { unfold demo_ready. rewrite E3. split; [exact A1|]. split; [exact A2|]. split; [exact A3|exact A4]. }
  destruct (step_follows_mobile demo_log (Some demo_assoc) (Some demo_deassoc) 0 [1%nat; 2%nat] ends (-1)
    (ddiv done_ (double_of_Z 2)) 500000000 (mkVector dzero dzero dzero) demo_ready demo_callbacks Hok eq_refl)
    as (w' & best & E4 & Hok' & _ & _ & _ & Hcalls);
    [vm_compute; reflexivity|cbn; lia|vm_compute; reflexivity|repeat constructor; by eexists|].
  exists ends, w'. split; [exact Hok|]. split; [exact E4|].
  assert (ActiveAp (h_state (Step (Some demo_assoc) (Some demo_deassoc) (ddiv done_ (double_of_Z 2)) demo_ready).1) = 0) as Hb
    by (vm_compute; reflexivity).
  rewrite E4 in Hb. cbn [fst] in Hb. pose proof Hok' as (Hst & _). rewrite Hst in Hb. cbn [ActiveAp] in Hb. subst best.
  split; [exact Hok'|]. cbn in Hcalls. destruct Hcalls as (l & Hl & ->). rewrite Hl. vm_compute. reflexivity.
Defined.
