(* ===== verification/GridScenario.v ===== *)
(** * GridScenario: the mobile node of the scenarios changes its access node

    Sources: [src/src/ndnSIM/statim/scenarios/statim-grid.cpp] ([statim-path.cpp] has the
    same functions), the FIB of [src/src/ndnSIM/NFD/daemon/table/fib.cpp] and
    [fib-entry.cpp], and [FaceTable::get].  The mobile node runs a plain NFD whose default
    route follows the access link, and a [StatimMobile] as its application 0.  Of the NFD
    the model keeps the faces, each with the device of its transport if it has one, in
    the order of their ids, and the FIB; log lines are left out. *)
From S2P Require Import Prelude Names SimTime Simulator Packets NameMap Application MobileProducer PointToPoint WiredHandover.

(** ** The NFD of the mobile node *)
Definition INVALID_FACEID : Z := 0.

Record NextHop := mkNextHop { nh_face : Z; nh_cost : Z }.

#[export] Instance NextHop_eq_dec : EqDecision NextHop.
Proof. solve_decision. Defined.

Record Nfd := mkNfd {
  nfd_faces : list (Z * option nat);
  nfd_fib : gmap Name (list NextHop)
}.

Section fib.
Context `{!StdSort}.

(** [Entry::addNextHop]: find or append, set the cost, sort by cost. *)
Fixpoint set_next_hop (face cost : Z) (l : list NextHop) : list NextHop :=
  match l with
  | [] => [mkNextHop face cost]
  | h :: l => if nh_face h =? face then mkNextHop face cost :: l else h :: set_next_hop face cost l
  end.

Definition addNextHop (face cost : Z) (l : list NextHop) : list NextHop :=
  std_sort (fun a b => nh_cost a <? nh_cost b) (set_next_hop face cost l).

(** [Fib::insert] with [addNextHop] on the entry it returns; [Fib::erase]. *)
Definition fib_add (prefix : Name) (face cost : Z) (n : Nfd) : Nfd :=
  mkNfd (nfd_faces n) (<[prefix := addNextHop face cost (default [] (nfd_fib n !! prefix))]> (nfd_fib n)).

Definition fib_erase (prefix : Name) (n : Nfd) : Nfd :=
  mkNfd (nfd_faces n) (delete prefix (nfd_fib n)).

(** [FaceTable::get]. *)
Definition face_get (id : Z) (n : Nfd) : bool := existsb (fun f => f.1 =? id) (nfd_faces n).

Definition DirectFibSet (prefix : Name) (faceId : Z) (n : Nfd) : Nfd :=
  if face_get faceId n then fib_add prefix faceId 0 n else n.
End fib.

Definition DirectFibClear (prefix : Name) (n : option Nfd) : option Nfd := fib_erase prefix <$> n.

(** The loop over the faces, in the order of their ids. *)
Fixpoint find_face {R} (fromNode toNode : nat) (faces : list (Z * option nat)) (net : Network R) : exn + Z :=
  match faces with
  | [] => mret INVALID_FACEID
  | (id, None) :: faces => find_face fromNode toNode faces net
  | (id, Some d) :: faces =>
      peer ← peer_device fromNode d net;
      match peer with
      | None => find_face fromNode toNode faces net
      | Some remote =>
          node ← GetNode remote net;
          if bool_decide (node = Some toNode) then mret id
          else find_face fromNode toNode faces net
      end
  end.

Definition FindFaceIdToNode {R} (fromNode toNode : nat) (n : option Nfd) (net : Network R) : exn + Z :=
  match n with
  | None => mret INVALID_FACEID
  | Some n => find_face fromNode toNode (nfd_faces n) net
  end.

(** ** The scenario *)
Record Scenario (R S : Type) := mkScenario {
  sc_app : AppWorld (StatimMobile S) MobileEvent;
  sc_net : Network R;
  sc_nfd : option Nfd;
  sc_mobile : nat;       (** [g_mobileNode] *)
  sc_oldApId : Z         (** [g_oldApId] *)
}.

Arguments mkScenario {R S}.
Arguments sc_app {R S} _.
Arguments sc_net {R S} _.
Arguments sc_nfd {R S} _.
Arguments sc_mobile {R S} _.
Arguments sc_oldApId {R S} _.

#[export] Instance set_sc_app {R S} : Setter (@sc_app R S) := fun f s =>
  mkScenario (f (sc_app s)) (sc_net s) (sc_nfd s) (sc_mobile s) (sc_oldApId s).
#[export] Instance set_sc_net {R S} : Setter (@sc_net R S) := fun f s =>
  mkScenario (sc_app s) (f (sc_net s)) (sc_nfd s) (sc_mobile s) (sc_oldApId s).
#[export] Instance set_sc_nfd {R S} : Setter (@sc_nfd R S) := fun f s =>
  mkScenario (sc_app s) (sc_net s) (f (sc_nfd s)) (sc_mobile s) (sc_oldApId s).
#[export] Instance set_sc_oldApId {R S} : Setter (@sc_oldApId R S) := fun f s =>
  mkScenario (sc_app s) (sc_net s) (sc_nfd s) (sc_mobile s) (f (sc_oldApId s)).

Section scenario.
Context {R S : Type} `{!UniformStreams R} `{!StdSort}.
Abbreviation scenario := (Scenario R S).

(** A computation of the application, and of the network, in the scenario. *)
Definition in_app {A} (m : M (AppWorld (StatimMobile S) MobileEvent) A) : M scenario A := fun w =>
  let '(a, r) := m (sc_app w) in (w <| sc_app := a |>, r).

Definition in_net (f : Network R -> exn + Network R) : M scenario unit :=
  net ← gets sc_net;
  net ← lift_result (f net);
  modify (fun w => w <| sc_net := net |>).

(** Point the default route at the access node. *)
Definition route_to (ap : nat) : M scenario unit :=
  w ← gets id;
  fid ← lift_result (FindFaceIdToNode (sc_mobile w) ap (sc_nfd w) (sc_net w));
  if fid =? INVALID_FACEID then mret tt
  else modify (fun w => w <| sc_nfd ::= fmap (DirectFibSet [] fid) |>).

(** [mobileApp->m_current = ap->GetId ()], an [int] from a [uint32_t]. *)
Definition set_current (ap : nat) : M scenario unit :=
  in_app (app_upd (fun s => s <| m_current := i32 (Z.of_nat ap) |>)).

Definition InitialAttach (apOld apNew : nat) : M scenario unit :=
  w ← gets id;
  in_net (FailP2PLink (sc_mobile w) apNew);;
  route_to apOld;;
  set_current apOld;;
  in_app OnAssociation;;
  modify (fun w => w <| sc_oldApId := i32 (Z.of_nat apOld) |>).

Definition DoHandover (apOld apNew : nat) : M scenario unit :=
  w ← gets id;
  in_net (FailP2PLink (sc_mobile w) apOld);;
  in_net (UpP2PLink (sc_mobile w) apNew);;
  modify (fun w => w <| sc_nfd ::= DirectFibClear [] |>);;
  route_to apNew;;
  set_current apNew;;
  in_app OnAssociation;;
  in_app (t ← app_now; app_upd (MarkHandover t)).
End scenario.
