(* ===== verification/GridScenarioSpec.v ===== *)
(** * GridScenarioSpec: what a handover of the scenarios does

    After [DoHandover] the new link carries packets and the old one none, the default
    route leads over the new link, the producer will announce itself once, and the delay
    it measures counts from the handover. *)
From S2P Require Import Prelude Names SimTime Simulator Packets NameMap Application Producer MobileProducer PointToPoint WiredHandover WiredHandoverSpec GridScenario.

(** Each face with a transport to a device is on a device of [devices], one face per device. *)
Record faces_ok (faces : list (Z * option nat)) (devices : list nat) : Prop := {
  fo_devices : NoDup (omap snd faces);
  fo_mobile : Forall (fun d => d ∈ devices) (omap snd faces);
  fo_ids : Forall (fun f => f.1 <> INVALID_FACEID) faces
}.

Section faces.
Context {R : Type}.
Implicit Types (net : Network R).

Lemma omap_snd_elem (faces : list (Z * option nat)) id d : (id, Some d) ∈ faces -> d ∈ omap snd faces.
Proof. intros H. apply list_elem_of_omap. by exists (id, Some d). Qed.

Lemma faces_search (faces : list (Z * option nat)) net mobile aps ends i a e id :
  wired (settings net) mobile aps ends -> aps !! i = Some a -> ends !! i = Some e ->
  NoDup (omap snd faces) -> Forall (fun d => d ∈ ends.*1) (omap snd faces) -> (id, Some e.1) ∈ faces ->
  find_face mobile a faces net = inr id.
Proof.
  intros Hw Hi He. induction faces as [|[id' [d|]] faces IH]; intros Hnd Hall Hin; [by apply elem_of_nil in Hin| |].
  - cbn in Hnd, Hall. apply NoDup_cons in Hnd as [Hd Hnd]. apply Forall_cons in Hall as [Hm Hall].
    apply list_elem_of_fmap in Hm as (e' & -> & He'). apply list_elem_of_lookup in He' as (j & Hj).
    destruct (wired_wire _ _ _ _ _ _ Hw Hj) as (a' & Ha' & Hwire).
    destruct (wire_peer _ _ _ _ Hwire) as [Hp Hn]. cbn [find_face].
    rewrite <-peer_device_settings, Hp. cbn. rewrite <-GetNode_settings, Hn. cbn.
    apply elem_of_cons in Hin as [[= -> Heq]|Hin].
    + assert (j = i) as ->.
      { destruct (decide (j = i)); [done|]. destruct (ends_apart ends i j e e' (wi_ends _ _ _ _ Hw) He Hj) as [_ H].
        by destruct H as [H _]; [done|]. }
      rewrite Hi in Ha'. injection Ha' as <-. by rewrite bool_decide_true.
    + rewrite bool_decide_false; [by apply IH|]. intros [= ->].
      assert (j = i) as -> by (eapply (NoDup_lookup aps); [apply Hw|done..]).
      rewrite He in Hj. injection Hj as <-. destruct Hd. by eapply omap_snd_elem.
  - cbn in Hnd, Hall. apply elem_of_cons in Hin as [?|Hin]; [done|]. cbn [find_face]. by apply IH.
Qed.
End faces.

Section scenario.
Context {R S : Type} {US : UniformStreams R} {SS : StdSort} {SL : StdSortLaws}.
Abbreviation scenario := (Scenario R S).
Implicit Types (w : scenario).

Lemma run_in_app {A B} (m : M (AppWorld (StatimMobile S) MobileEvent) A) (k : A -> M scenario B) w a x :
  m (sc_app w) = (a, inr x) -> (in_app m ≫= k) w = k x (w <| sc_app := a |>).
Proof. intros H. unfold in_app, mbind, M_bind. by rewrite H. Qed.

Lemma run_in_net {B} f (k : unit -> M scenario B) w net :
  f (sc_net w) = inr net -> (in_net f ≫= k) w = k tt (w <| sc_net := net |>).
Proof. intros H. unfold in_net. rewrite run_assoc, run_gets, H. done. Qed.

(** The route over a single face. *)
Lemma addNextHop_empty face cost : addNextHop face cost [] = [mkNextHop face cost].
Proof. unfold addNextHop. apply Permutation_singleton_r, std_sort_perm. Qed.

Lemma face_get_elem id d n : (id, d) ∈ nfd_faces n -> face_get id n = true.
Proof.
  intros H. unfold face_get. apply existsb_exists. exists (id, d). split; [by apply list_elem_of_In|]. cbn. apply Z.eqb_refl.
Qed.

Lemma route_to_run w n mobile aps ends i a e fid :
  sc_mobile w = mobile -> sc_nfd w = Some n -> wired (settings (sc_net w)) mobile aps ends ->
  faces_ok (nfd_faces n) ends.*1 -> aps !! i = Some a -> ends !! i = Some e -> (fid, Some e.1) ∈ nfd_faces n ->
  nfd_fib n !! [] = None ->
  route_to a w = (w <| sc_nfd := Some (mkNfd (nfd_faces n) (<[[] := [mkNextHop fid 0]]> (nfd_fib n))) |>, inr tt).
Proof.
  intros Hm Hn Hw [F1 F2 F3] Ha He Hin Hfib. unfold route_to. rewrite run_gets. cbn [id].
  rewrite Hm, Hn. cbn [FindFaceIdToNode].
  rewrite (faces_search (nfd_faces n) (sc_net w) mobile aps ends i a e fid Hw Ha He F1 F2 Hin), run_lift_inr.
  rewrite Forall_forall in F3. apply F3 in Hin as Hid. cbn in Hid. rewrite (proj2 (Z.eqb_neq _ _) Hid).
  assert (DirectFibSet [] fid n = mkNfd (nfd_faces n) (<[[] := [mkNextHop fid 0]]> (nfd_fib n))) as Hset.
  { unfold DirectFibSet. rewrite (face_get_elem fid (Some e.1) n Hin). unfold fib_add. by rewrite Hfib, addNextHop_empty. }
  unfold modify, set_field, set_sc_nfd. rewrite Hn. cbn [fmap option_fmap option_map]. by rewrite Hset.
Qed.

Lemma set_current_run {B} ap (k : unit -> M scenario B) w :
  (set_current ap ≫= k) w = k tt (w <| sc_app ::= fun aw =>
    mkAppWorld (a_sim aw) (a_app aw <| m_current := i32 (Z.of_nat ap) |>) (a_link aw) |>).
Proof. unfold set_current. by apply run_in_app. Qed.

(** The association: the producer waits for its first Interest, and will send one Trace. *)
Definition associated (aw : AppWorld (StatimMobile S) MobileEvent) : AppWorld (StatimMobile S) MobileEvent :=
  mkAppWorld (Schedule (m_traceDelay (a_app aw)) TraceEvent (a_sim aw)).1
    (a_app aw <| m_waitingForFirstInterest := true |>) (a_link aw).

Lemma OnAssociation_run (aw : AppWorld (StatimMobile S) MobileEvent) : OnAssociation aw = (associated aw, inr tt).
Proof.
  unfold OnAssociation. rewrite run_app_upd, run_app_get, run_app_schedule. done.
Qed.

(** The producer after a handover. *)
Definition handed_over (ap : nat) (aw : AppWorld (StatimMobile S) MobileEvent) : AppWorld (StatimMobile S) MobileEvent :=
  mkAppWorld (Schedule (m_traceDelay (a_app aw)) TraceEvent (a_sim aw)).1
    (MarkHandover (m_currentTs (a_sim aw))
       (a_app aw <| m_current := i32 (Z.of_nat ap) |> <| m_waitingForFirstInterest := true |>)) (a_link aw).

(** The route of the mobile is over the face [fid] only. *)
Definition default_route (fid : Z) (n : Nfd) : Nfd := mkNfd (nfd_faces n) (<[[] := [mkNextHop fid 0]]> (nfd_fib n)).

Lemma fib_erased n fid :
  mkNfd (nfd_faces n) (<[[] := [mkNextHop fid 0]]> (delete [] (nfd_fib n))) = default_route fid n.
Proof. unfold default_route. f_equal. apply insert_delete_eq. Qed.

Lemma default_route_again n f fid : default_route fid (default_route f n) = default_route fid n.
Proof. unfold default_route. f_equal. cbn. apply insert_insert_eq. Qed.

Lemma DoHandover_run w n mobile aps ends i j old new e e' fid :
  sc_mobile w = mobile -> sc_nfd w = Some n -> wired (settings (sc_net w)) mobile aps ends ->
  faces_ok (nfd_faces n) ends.*1 -> i <> j ->
  aps !! i = Some old -> ends !! i = Some e -> aps !! j = Some new -> ends !! j = Some e' ->
  (fid, Some e'.1) ∈ nfd_faces n ->
  exists net, DoHandover old new w = (mkScenario (handed_over new (sc_app w)) net (Some (default_route fid n)) mobile
      (sc_oldApId w), inr tt) /\ wired (settings net) mobile aps ends /\
    link_is false (settings net) e /\ link_is true (settings net) e'.
Proof.
  intros Hm Hn Hw Hf Hij Hi He Hj He' Hin.
  destruct (P2PLink_run (sc_net w) mobile aps ends i old false Hw Hi) as (x & net1 & Hx & E1 & Hw1 & L1 & _).
  rewrite He in Hx. injection Hx as <-.
  destruct (P2PLink_run net1 mobile aps ends j new true Hw1 Hj) as (x & net2 & Hx & E2 & Hw2 & L2 & K2).
  rewrite He' in Hx. injection Hx as <-.
  exists net2. split; [|split; [done|split; [by apply (K2 i)|done]]].
  unfold DoHandover. rewrite run_gets. cbn [id]. rewrite (run_in_net _ _ _ net1) by (by rewrite Hm).
  rewrite (run_in_net _ _ _ net2) by (cbn; by rewrite Hm). rewrite run_modify.
  set (w2 := ((w <| sc_net := net1 |>) <| sc_net := net2 |>) <| sc_nfd ::= DirectFibClear [] |>).
  assert (sc_nfd w2 = Some (mkNfd (nfd_faces n) (delete [] (nfd_fib n)))) as Hn2 by (cbn; by rewrite Hn).
  rewrite (run_seq _ _ _ _ _ (route_to_run w2 _ mobile aps ends j new e' fid Hm Hn2 Hw2 Hf Hj He' Hin (lookup_delete_eq _ _))).
  cbn [nfd_faces nfd_fib]. rewrite fib_erased, set_current_run.
  rewrite (run_in_app _ _ _ _ _ (OnAssociation_run _)).
  subst mobile w2. clear. destruct w. reflexivity.
Qed.
End scenario.

(** *** The first association *)
Section attach.
Context {R S : Type} {US : UniformStreams R} {SS : StdSort} {SL : StdSortLaws}.
Implicit Types (w : Scenario R S).

(** The producer after its first association. *)
Definition first_attached (ap : nat) (aw : AppWorld (StatimMobile S) MobileEvent) : AppWorld (StatimMobile S) MobileEvent :=
  associated (mkAppWorld (a_sim aw) (a_app aw <| m_current := i32 (Z.of_nat ap) |>) (a_link aw)).

Lemma InitialAttach_run w n mobile aps ends i j old new e e' fid :
  sc_mobile w = mobile -> sc_nfd w = Some n -> wired (settings (sc_net w)) mobile aps ends ->
  faces_ok (nfd_faces n) ends.*1 -> i <> j ->
  aps !! i = Some old -> ends !! i = Some e -> aps !! j = Some new -> ends !! j = Some e' ->
  (fid, Some e.1) ∈ nfd_faces n -> nfd_fib n !! [] = None -> link_has None (settings (sc_net w)) e ->
  exists net, InitialAttach old new w = (mkScenario (first_attached old (sc_app w)) net (Some (default_route fid n)) mobile
      (i32 (Z.of_nat old)), inr tt) /\ wired (settings net) mobile aps ends /\
    link_has None (settings net) e /\ link_is false (settings net) e'.
Proof.
  intros Hm Hn Hw Hf Hij Hi He Hj He' Hin Hfib Hfresh.
  destruct (P2PLink_run (sc_net w) mobile aps ends j new false Hw Hj) as (x & net1 & Hx & E1 & Hw1 & L1 & K1).
  rewrite He' in Hx. injection Hx as <-.
  exists net1. split; [|split; [done|split; [by apply (K1 i)|done]]].
  unfold InitialAttach. rewrite run_gets. cbn [id]. rewrite (run_in_net _ _ _ net1) by (by rewrite Hm).
  set (w1 := w <| sc_net := net1 |>).
  rewrite (run_seq _ _ _ _ _ (route_to_run w1 n mobile aps ends i old e fid Hm Hn Hw1 Hf Hi He Hin Hfib)).
  rewrite set_current_run, (run_in_app _ _ _ _ _ (OnAssociation_run _)).
  subst mobile w1. clear. destruct w. reflexivity.
Qed.
End attach.

(** ** The measurement of a handover *)
Section measurement.
Context {S : Type} `{!UniformStreams S}.
Abbreviation world := (AppWorld (StatimMobile S) MobileEvent).

(** The producer still waits for the first Interest after the handover at the time [t]. *)
Definition waiting_since (t : Z) (s : StatimMobile S) : Prop :=
  m_waitingForFirstInterest s = true /\ m_useExternalAnchor s = true /\ m_hoAnchor s = t.

Definition same_anchor : relation world := agree_on (fun w =>
  (m_waitingForFirstInterest (a_app w), m_useExternalAnchor (a_app w), m_hoAnchor (a_app w), m_handoverDelays (a_app w))).

Lemma anchor_upd f :
  (forall s, (m_waitingForFirstInterest (f s), m_useExternalAnchor (f s), m_hoAnchor (f s), m_handoverDelays (f s)) =
    (m_waitingForFirstInterest s, m_useExternalAnchor s, m_hoAnchor s, m_handoverDelays s)) ->
  respects same_anchor (app_upd (E := MobileEvent) f).
Proof. intros H w. apply H. Qed.
Lemma anchor_schedule d e : respects same_anchor (app_schedule (A := StatimMobile S) d e).
Proof. intros w. unfold app_schedule, action. by destruct (Schedule d e (a_sim w)). Qed.
Lemma anchor_cancel id : respects same_anchor (app_cancel (A := StatimMobile S) (E := MobileEvent) id).
Proof. intros w. by destruct id. Qed.
Lemma anchor_to_link p : respects same_anchor (to_link (A := StatimMobile S) (E := MobileEvent) p).
Proof. by intros w. Qed.
Lemma anchor_via_seconds t : respects same_anchor (via_seconds (A := StatimMobile S) (E := MobileEvent) t).
Proof. intros w. unfold via_seconds. by destruct (Seconds (GetSeconds t)). Qed.
Hint Resolve anchor_schedule anchor_cancel anchor_to_link anchor_via_seconds : respects.
Hint Extern 1 (respects same_anchor (app_upd _)) => by apply anchor_upd : respects.

Lemma anchor_SendTrace : respects same_anchor (SendTrace (R := S)).
Proof. unfold SendTrace, arm_refresh, arm_timeout, cancel_running, app_get, app_now, app_is_running. respects. Qed.
Hint Resolve anchor_SendTrace : respects.

Definition no_interest (e : MobileEvent) : Prop := match e with DeliverInterest _ => False | _ => True end.

Lemma anchor_dispatch e : no_interest e -> respects same_anchor (mobile_dispatch (R := S) e).
Proof.
  destruct e as [| |i|d]; intros H; try done; cbn [mobile_dispatch]; [respects| |].
  - unfold OnTraceTimeout, app_get. respects.
  - unfold OnData, app_get. respects.
Qed.

(** One event other than an Interest, or anything that leaves the producer alone. *)
Definition other_event (w w' : world) : Prop :=
  a_app w' = a_app w \/ exists e, no_interest e /\ w' = (mobile_dispatch e w).1.

Lemma other_events_waiting t w w' :
  rtc other_event w w' -> waiting_since t (a_app w) ->
  waiting_since t (a_app w') /\ m_handoverDelays (a_app w') = m_handoverDelays (a_app w).
Proof.
  induction 1 as [w|w1 w2 w3 H1 _ IH]; [done|]. intros Hw.
  assert (waiting_since t (a_app w2) /\ m_handoverDelays (a_app w2) = m_handoverDelays (a_app w1)) as [H2 E2].
  { destruct H1 as [->|(e & He & ->)]; [done|]. pose proof (anchor_dispatch e He w1) as Ha.
    unfold same_anchor, agree_on in Ha. destruct Hw as (A1 & A2 & A3). unfold waiting_since.
    injection Ha as B1 B2 B3 B4. by rewrite B1, B2, B3, B4. }
  destruct (IH H2) as [H3 E3]. by rewrite E3, E2.
Qed.

(** Milliseconds from [t] to the time of the first Interest. *)
Definition delay_since (t now : Z) : double := ddiv (double_of_Z (i64 (now - t))) (double_of_Z 1000000).

Lemma first_interest_measures t interest w :
  m_active (a_app w) = true -> waiting_since t (a_app w) ->
  m_handoverDelays (a_app (OnInterest interest w).1) =
    m_handoverDelays (a_app w) ++ [delay_since t (m_currentTs (a_sim w))] /\
  m_waitingForFirstInterest (a_app (OnInterest interest w).1) = false.
Proof.
  intros Hact (A1 & A2 & A3). unfold OnInterest. rewrite run_app_get, Hact. cbn [negb].
  unfold note_first_interest. rewrite run_assoc, run_app_get, A1, run_assoc, run_app_now, A2, A3, run_app_upd, run_app_upd.
  destruct (reply _ _ _ _ _) as [ex|data]; [by split|]. rewrite run_lift_inr. by split.
Qed.
End measurement.

(** ** Property *)

(** C15: the handover of the scenarios.  [InitialAttach] leaves the link to the first
    access node as it is, makes the other one lose every packet and points the default
    route at the first.  [DoHandover], whatever happened to the producer and to random
    numbers in between, makes the first link lose every packet and the other one carry
    them all, leaves the default route over the other link only, and queues one Trace one
    trace delay later; the producer answers with the new access node's number.
    The first Interest that reaches the running producer after any other events ends the
    measurement: the delay it notes counts from the handover. *)
Theorem handover_moves_mobile {R S} {US : UniformStreams R} {UB : UniformBelowOne R} {SP : StdPow}
    {SS : StdSort} {SL : StdSortLaws} {UR : UniformStreams S}
    (w : Scenario R S) n mobile aps ends i j old new e e' f f' :
  sc_mobile w = mobile -> sc_nfd w = Some n -> wired (settings (sc_net w)) mobile aps ends ->
  faces_ok (nfd_faces n) ends.*1 -> i <> j ->
  aps !! i = Some old -> ends !! i = Some e -> aps !! j = Some new -> ends !! j = Some e' ->
  (f, Some e.1) ∈ nfd_faces n -> (f', Some e'.1) ∈ nfd_faces n -> nfd_fib n !! [] = None ->
  link_has None (settings (sc_net w)) e ->
  exists w1, InitialAttach old new w = (w1, inr tt) /\
    link_has None (settings (sc_net w1)) e /\ link_carries mobile new (sc_net w1) false /\
    sc_nfd w1 = Some (default_route f n) /\ sc_app w1 = first_attached old (sc_app w) /\
    forall w2 : Scenario R S, settings (sc_net w2) = settings (sc_net w1) -> sc_nfd w2 = sc_nfd w1 -> sc_mobile w2 = mobile ->
    exists w3, DoHandover old new w2 = (w3, inr tt) /\
      link_carries mobile old (sc_net w3) false /\ link_carries mobile new (sc_net w3) true /\
      sc_nfd w3 = Some (default_route f' n) /\ sc_app w3 = handed_over new (sc_app w2) /\
      forall aw interest, rtc other_event (sc_app w3) aw -> m_active (a_app aw) = true ->
        m_handoverDelays (a_app (OnInterest interest aw).1) =
          m_handoverDelays (a_app (sc_app w2)) ++ [delay_since (m_currentTs (a_sim (sc_app w2))) (m_currentTs (a_sim aw))] /\
        m_waitingForFirstInterest (a_app (OnInterest interest aw).1) = false.
Proof.
  intros Hm Hn Hw Hf Hij Hi He Hj He' Hin Hin' Hfib Hfresh.
  destruct (InitialAttach_run w n mobile aps ends i j old new e e' f) as (net1 & E1 & Hw1 & K1 & L1); [done..|].
  eexists. split; [exact E1|]. cbn [sc_net sc_nfd sc_app]. split; [done|].
  split; [by eapply link_is_carries|]. split; [done|]. split; [done|]. intros w2 Hnet Hn2 Hm2.
  destruct (DoHandover_run w2 (default_route f n) mobile aps ends i j old new e e' f')
    as (net2 & E2 & Hw2 & L2 & L2'); [done|done|by rewrite Hnet|done..|].
  eexists. split; [exact E2|]. cbn [sc_net sc_nfd sc_app].
  split; [by apply (link_is_carries net2 mobile aps ends i old e)|].
  split; [by apply (link_is_carries net2 mobile aps ends j new e')|].
  split; [by rewrite default_route_again|]. split; [done|]. intros aw interest Haw Hact.
  destruct (other_events_waiting (m_currentTs (a_sim (sc_app w2))) _ _ Haw) as [Hwait Hdelays]; [done|].
  destruct (first_interest_measures _ interest aw Hact Hwait) as [H1 H2]. by rewrite H1, Hdelays.
Qed.

(** ** Examples *)
#[local] Existing Instances demo_draws demo_below demo_pow InsertionSort.insertion_sort InsertionSort.insertion_sort_laws.

(** Node 0, linked to the nodes 1 and 2, with the faces 256 and 257 and an internal face. *)
Definition demo_links : Network Z :=
  default (mkNetwork [] [] [] 0)
    (match PointToPointHelper_Install 0 1 (mkNetwork [[]; []; []] [] [] 7) ≫= PointToPointHelper_Install 0 2 with
     | inr net => Some net | inl _ => None end).

Definition demo_faces : list (Z * option nat) := [(1, None); (256, Some 0%nat); (257, Some 2%nat)].

(** A producer with a trace delay of 10 ms at the time 200 ms. *)
Definition demo_mobile : StatimMobile Z :=
  StatimMobile_new 1024 [] [] 2000000000 0 10000000 0 0 [] 0 0 <| m_active := true |>.

Definition demo_scenario_start : Scenario Z Z :=
  mkScenario (mkAppWorld (mkSim 200000000 0 4 [] false) demo_mobile []) demo_links (Some (mkNfd demo_faces ∅)) 0 (-1).

Lemma demo_links_wired : wired (settings demo_links) 0 [1%nat; 2%nat] [(0%nat, 1%nat); (2%nat, 3%nat)].
Proof.
  split; [reflexivity| |repeat constructor; set_solver|set_solver|repeat constructor; set_solver].
  repeat constructor; eexists _, _, _; split_and!; reflexivity.
Qed.

(** The handover 300 ms after the first association, the first Interest 70 ms later. *)
Lemma handover_moves_mobile_witness :
  exists w1 w3, InitialAttach 1 2 demo_scenario_start = (w1, inr tt) /\
    let later t w := w <| sc_app ::= fun aw => mkAppWorld (mkSim t 0 (m_uid (a_sim aw)) (m_events (a_sim aw)) false) (a_app aw) (a_link aw) |> in
    DoHandover 1 2 (later 500000000 w1) = (w3, inr tt) /\
    link_carries 0 1 (sc_net w3) false /\ link_carries 0 2 (sc_net w3) true /\
    m_handoverDelays (a_app (OnInterest (new_interest [] 1 4000) (sc_app (later 570000000 w3))).1) = [double_of_Z 70].
Proof.
  destruct (handover_moves_mobile (UR := demo_draws) demo_scenario_start (mkNfd demo_faces ∅) 0 [1%nat; 2%nat]
    [(0%nat, 1%nat); (2%nat, 3%nat)] 0 1 1 2 (0%nat, 1%nat) (2%nat, 3%nat) 256 257 eq_refl eq_refl demo_links_wired)
    as (w1 & E1 & _ & _ & Hn1 & Ha1 & H);
    [split; [repeat constructor; set_solver|repeat constructor; set_solver|repeat constructor; done]|done|done..|
     set_solver|set_solver|done|split; eexists _, _; reflexivity|].
  exists w1. set (later t w := w <| sc_app ::= fun aw =>
    mkAppWorld (mkSim t 0 (m_uid (a_sim aw)) (m_events (a_sim aw)) false) (a_app aw) (a_link aw) |>).
  assert (sc_mobile w1 = 0%nat) as Hmob.
  { replace w1 with (InitialAttach 1 2 demo_scenario_start).1 by (by rewrite E1). vm_compute. reflexivity. }
  destruct (H (later 500000000 w1) eq_refl eq_refl Hmob) as (w3 & E3 & L1 & L2 & _ & Ha3 & Hm).
  exists w3. split; [exact E1|]. split; [exact E3|]. split; [exact L1|]. split; [exact L2|].
  destruct (Hm (sc_app (later 570000000 w3)) (new_interest [] 1 4000)) as [Hd _].
  - apply rtc_once. left. reflexivity.
  - cbn. rewrite Ha3. cbn. rewrite Ha1. reflexivity.
  - rewrite Hd. cbn [later sc_app]. cbn. rewrite Ha1. vm_compute. reflexivity.
Defined.
